(* ===== verification/_CoqProject ===== *)
-Q . S2P
Prelude.v
PyLib.v
PyFloat.v
PyDict.v
AcceptanceLength.v
SchedTypes.v
SchedMini.v
SchedSelect.v
SchedEncoder.v
SchedBlocks.v
SchedStep.v
SchedRunning.v
SchedWaiting.v
SchedTermination.v
SchedUpdate.v
SchedOutput.v
SchedSessions.v
SchedTurns.v
ShmFrame.v
ShmRing.v
MathUtils.v
CudaGraph.v
CudaTables.v
CudaDispatch.v
CudaOutput.v
SirclContracts.v
SirclPorts.v
Backends.v
KVSpec.v
KVLayout.v
KVManager.v
KVAdmission.v
TailCodec.v
TailRing.v
SirclAudit.v
SirclShadow.v
PyProc.v
SirclSession.v
SirclBackend.v
SirclDispatch.v
SirclLive.v
SirclPromotion.v
VocabGather.v
VocabDispatch.v
VocabShadow.v
VocabPorts.v
RankGrid.v
GroupLayout.v
GroupState.v
GroupInit.v
GroupNodes.v
GroupSend.v
GroupTransfer.v
IndexerChunks.v
IndexerRows.v
IndexerDecode.v
IndexerBuild.v
