(* ===== verification/Prelude.v ===== *)
(** * A verification library for the GLM-5.2 serving kit

    The repository is a kit of overlays for vLLM: files that replace modules of
    the inference engine so that one model runs on a cluster of small machines.
    The library models the overlays that decide things (who runs, with how many
    tokens, in which graph, over which port, in which page) and leaves the
    numerical kernels aside.  Paths below are relative to [src/]; [vllm/] stands
    for [overlays/vllm/].

    ** How the parts interact

    [Scheduler.schedule] chooses the requests and token counts of a step, asking
    the KV-cache manager for blocks; the step is broadcast to the workers through
    a shared-memory ring; each worker looks a captured CUDA graph up for the
    batch, or runs eagerly; [Scheduler.update_from_output] takes the sampled
    tokens back.  A controller moves the number of draft tokens along a ladder
    of depths, and the graph manager captures one family of graphs per depth.
    The SIRCL files fix, before start-up, the row counts, graph buckets and
    control ports the collectives may use, and replace the all-reduce of the
    tensor-parallel group by a native one.

    ** Files

    Shared: [Prelude] (this file: exceptions and the result monad, loops with
    [continue] and [break] and fuel, record updates, tactics, lists of
    integers), [PyLib] (text and [int]), [PyFloat] (binary64), [PyDict]
    (insertion-ordered dictionaries, slices, stable sorting), [MathUtils] (the
    interface of [vllm.utils.math_utils]).

    Adaptive depth: [AcceptanceLength] models
    [vllm/v1/spec_decode/dynamic/depth_ladder.py] and [acceptance_length.py].
    The parser returns a ladder and never raises for a positive maximum; the
    controller hands out rungs only, also after calls that raise, and decides on
    the totals of a whole window.

    Scheduler, [vllm/v1/core/sched/scheduler.py]: [SchedTypes] holds the data
    ([Scheduler] is the record [sched], a request the record [request] in the
    store [objs]) and the interfaces [RequestQueue] and [Services] of the code
    the scheduler calls; [SchedMini] instantiates them for the witnesses.
    [SchedSelect], [SchedEncoder] and [SchedBlocks] are the helpers with their
    theorems, [SchedStep] is [schedule], and [SchedRunning], [SchedWaiting] and
    [SchedTermination] prove its invariants: no request is lost or duplicated,
    the closing assertions hold, all loops end.  [SchedUpdate] is everything
    between two steps ([update_from_output], arrivals, finishes, streaming
    sessions, failed KV loads, resets), and [SchedOutput] and [SchedSessions]
    prove it: in-flight and stale token counts against a reference history, the
    truncation after failed loads, exact finishing, and the count of waiting
    sessions through whole outputs.  [SchedTurns] follows the turns of the long
    prefills through both loops and the end of [schedule] and shows that, over
    any calls of it with any of these operations in between, they rotate.

    Broadcast ring, [vllm/distributed/device_communicators/shm_broadcast.py]:
    [ShmFrame] is the byte layout of a message, with its round trip and bounds;
    [ShmRing] is the protocol as a step relation of one writer and any number of
    readers at the grain of single accesses, time-outs of both sides included,
    with the order of delivery (first-in first-out for a reader that never timed
    out on the socket; a time-out there shifts its overflowed messages), absence
    of torn reads and of deadlock for every interleaving.

    CUDA graphs, [vllm/v1/worker/gpu/cudagraph_utils.py] and part of
    [vllm/config/speculative.py]: [CudaGraph] has the definitions, [CudaTables]
    the invariants of the descriptor tables, [CudaDispatch] the theorems that
    dispatch is a layered smallest-bucket lookup, that every rung of the ladder
    is served by a captured graph or the constructor refuses, and [CudaOutput]
    that the output buffer allocated first is large enough for all passes.

    SIRCL, [campaign-2026-08/sircl/upstream/integrations/vllm/]:
    [SirclContracts] (row counts, row-policy cache, graph buckets, output slots)
    and [SirclPorts] (the port namespace: every admissible payload has its pair
    of legal ports, and no port is reserved twice).  The all-reduce adapter
    [spark_tp4_backend.py] follows: [PyProc] is the monad of a process with state,
    exceptions and exits, and its rules; [SirclAudit] the audit of stock
    collectives ([spark_collective_audit.py]), whose counts are exact and whose
    tables are bounded; [SirclShadow] the statistics of the shadow mode, whose ULP
    distance counts representable steps; [SirclSession] the environment, the
    admitted shapes and the native sessions, which get exactly what was asked for;
    [SirclBackend] the replacement of [all_reduce] and its installation.
    [SirclDispatch] proves that a failed collective ends the process without a
    silent fall-back and that every stock collective is audited, [SirclLive] that
    the sessions of a process never share a port, [SirclPromotion] that only a
    full clean window of comparisons promotes a shadow.  The native library and
    PyTorch are the class [Native]; [Observed] adds a log of the calls, and any
    library can be instrumented to have one.
    The second adapter, for the all-gather of the logits
    ([spark_tp4_vocab_allgather_backend.py]), is [VocabGather], over [NativeVocab].
    [VocabDispatch] proves that in custom mode no rank falls back to the stock
    collective, [VocabShadow] that its shadow states are a function of the
    collectives entered, and [VocabPorts] that the sessions of the two adapters
    share no port.

    KV cache: [KVSpec] models [vllm/v1/kv_cache_interface.py], one constructor
    per class and one definition per method; [KVLayout] proves that merging
    keeps the page layout, that padded pages are the least aligned ones, and
    that the memory bounds cover what a request can hold.  [Backends] is the
    registry of attention backends and their overrides
    ([vllm/v1/attention/backends/registry.py]).  [KVManager] models
    [overlays/dspark-ring/kv_cache_manager.py] over an interface for the
    coordinator and the block pool, with the argument record the scheduler
    passes; [KVAdmission] proves that an allocation leaves the reserve free, that
    a cache hit leaves the draft window to be recomputed, and that blocks handed
    to a connector stay pinned.

    Process groups, [vllm/distributed/parallel_state.py]: [RankGrid] has the
    row-major numbering of a grid of ranks and the tensor operations on it as an
    interface; [GroupLayout] the lists of ranks of every kind of group, which mean
    what their kind says; [GroupState] the coordinators, the variables of the
    module, initialization, size checks and destruction, the distributed
    environment and the node count; [GroupInit] proves that initialization puts
    every rank in its groups and that all processes create the same groups in the
    same order, [GroupNodes] that the node count, the replica ranks and the group
    names are right (and that the SIRCL adapter serves only the first
    tensor-parallel group of a process).  [GroupSend] sends, receives and
    broadcasts objects and tensor dictionaries over first-in first-out links, and
    [GroupTransfer] proves that dictionaries arrive, slices and all.

    Sparse indexer, [vllm/v1/attention/backends/mla/indexer.py]: [IndexerChunks]
    splits the query tokens of the prefill requests into chunks that tile them
    within the workspace and the logits budget; [IndexerRows] builds a chunk's
    metadata, the kernel's stores included, whose rows end after the keys this
    rank has of what a token may attend to; [IndexerDecode] keeps the buffers of
    the decode requests, which hold the same entries whichever path prepares
    them; [IndexerBuild] composes both into [build] and proves that the chunks of
    a step tile its prefill.  The shares of the ranks and the split of the
    batch come from helpers outside the repository, the classes [CpUtils], with
    its laws, and [SplitBatch].

    Weight codec, [campaign-2026-08/tailquant/codec]: [TailCodec] models the
    decode law, the ring tiles and the three encoders ([mcg_codec.py],
    [roundtrip.py], [encode_vec2.py]) and the unpacking of words, with floats as
    IEEE values of their precision; [TailRing] proves that packed tiles decode to
    the codewords of their ring, that each element is greedily best, that the
    encoders agree and that unpacking reads consecutive fields of the stream.

    ** Conventions

    A function that can raise returns [result]; an exception keeps its class and
    loses its text.  State is passed explicitly; where an operation can fail
    after changing state, the state comes with the outcome.  Objects that Python
    shares by reference live in a store and are named by their ids.  Integers
    are unbounded, as in Python; the ring's length fields are four and two bytes
    with their overflow.  Code outside the repository is a class whose laws state
    its documented behaviour, and every law has an instance ([SchedMini],
    [std_math], [example_modes], [sample_types], [sample_coordinator],
    [sample_native], [list_torch], [no_stateless], [list_transport],
    [formula_cp_utils], [sample_vocab]).

    ** Fuel

    The loops of [schedule] run on fuel computed from the queue lengths:
    [SchedTermination.schedule_terminates] shows it is never exhausted.  The
    preemption loop of the cache reset has the length of the running queue plus
    one, shown enough by [SchedSessions.reset_preempts_all_running]; printing an
    integer has its number of binary digits, enough by [PyStr.int_of_str_of].

    ** Not modelled

    - Attention layers, kernels and model code (the rest of [vllm/v1/attention],
      [vllm/model_executor], [overlays/b12x], [kernels], [overlays/dspark-ring]
      but for the manager): tensor programs on the GPU, whose meaning is that of
      PyTorch, Triton and CUDA.
    - In the sparse indexer: the compressed slot mapping, the schedule metadata of
      the logits kernel, its warm-up, and the constants of the backend class.
    - Configuration classes ([vllm/config], [vllm/engine/arg_utils.py]) beyond
      the values other parts read: wiring of external objects.
    - In the process groups: communicators and the collectives that only forward to
      them, stateless coordinators and stores, time limits, graph capture.
    - In the scheduler: statistics, log probabilities, routed experts, KV events
      and the construction of its collaborators.  In the ring: sockets,
      spinning, the length of time limits, pickling.  In the graph manager: the
      forward pass and the graph objects.
    - The SIRCL native transport (C++ and CUDA), the DCP audit wrappers and the
      thread that writes status files; of the tail-quantisation campaign, checkpoint loading, de-quantisation by
      scales, printed metrics and the vendored library; benchmarks, training and
      launch scripts.
    - [aeon-crossnode-graphs/overlays] and [platform/merged] repeat files of
      [overlays]; the latter are the ones modelled. *)
From stdpp Require Export base tactics numbers list gmap sets strings sorting.
From Stdlib Require Export ZArith Lia.

#[global] Open Scope Z_scope.

(** ** Python exceptions and the result monad

    A function of the source that can raise returns [result A]; the exception
    keeps the class the source raises and drops the text of its message. *)

Inductive pyexn :=
  | ValueError
  | RuntimeError
  | AssertionError
  | KeyError
  | IndexError
  | TimeoutError
  | NotImplementedError
  | OverflowError
  | TypeError
  | ZeroDivisionError
  | AttributeError
  | StopIteration
  | UnboundLocalError
  | OutOfFuel.   (** not an exception of the source: a bounded loop that ran out *)

#[export] Instance pyexn_eq_dec : EqDecision pyexn.
Proof. solve_decision. Defined.

Inductive result (A : Type) :=
  | Ok (a : A)
  | Raise (e : pyexn).
Arguments Ok {A} a.
Arguments Raise {A} e.

Definition rbind {A B} (m : result A) (k : A -> result B) : result B :=
  match m with
  | Ok a => k a
  | Raise e => Raise e
  end.

Declare Scope py_scope.
Delimit Scope py_scope with py.
Notation "'let*' x := m 'in' k" := (rbind m (fun x => k))
  (at level 10, x pattern, m at level 100, k at level 200)
  : py_scope.
#[global] Open Scope py_scope.

(** [assert b] and [if not b: raise e]. *)
Definition require (b : bool) (e : pyexn) : result unit :=
  if b then Ok tt else Raise e.

Definition is_ok {A} (m : result A) : bool :=
  match m with Ok _ => true | Raise _ => false end.

(** A loop whose body can raise. *)
Fixpoint rfold {A B} (f : B -> A -> result B) (b : B) (l : list A) : result B :=
  match l with
  | [] => Ok b
  | a :: l => let* b' := f b a in rfold f b' l
  end.

Fixpoint rmap {A B} (f : A -> result B) (l : list A) : result (list B) :=
  match l with
  | [] => Ok []
  | a :: l => let* b := f a in let* bs := rmap f l in Ok (b :: bs)
  end.

(** A [while] loop: the body says whether to go round again. *)
Inductive ctl (S : Type) :=
  | Continue (s : S)
  | Break (s : S).
Arguments Continue {S} s.
Arguments Break {S} s.

Fixpoint while {S} (fuel : nat) (body : S -> result (ctl S)) (s : S) : result S :=
  match fuel with
  | O => Raise OutOfFuel
  | Datatypes.S fuel =>
      let* c := body s in
      match c with
      | Continue s' => while fuel body s'
      | Break s' => Ok s'
      end
  end.

(** A [for] loop with [continue] ([Continue]) and [break] ([Break]). *)
Fixpoint for_each {A S} (body : A -> S -> result (ctl S)) (l : list A) (s : S) : result S :=
  match l with
  | [] => Ok s
  | a :: l =>
      let* c := body a s in
      match c with
      | Continue s' => for_each body l s'
      | Break s' => Ok s'
      end
  end.

(** ** Functional update of one field of a record

    A record declares its [Eta] instance once; [r <| f := v |>] and
    [r <| f ::= g |>] then update the field [f]. *)

Class Eta (R : Type) := eta : R -> R.
Class Setter {R T} (proj : R -> T) := setter : (T -> T) -> R -> R.
#[export] Hint Mode Setter - - ! : typeclass_instances.

Ltac derive_setter :=
  match goal with
  | |- @Setter ?R ?T ?proj =>
      let i := constr:(_ : Eta R) in
      let i := eval red in i in
      match (eval pattern proj in i) with
      | ?g _ => exact (fun f => g (fun r => f (proj r)))
      end
  end.
#[export] Hint Extern 1 (Setter _) => derive_setter : typeclass_instances.

Notation "r <| f := v |>" := (setter (proj := f) (fun _ => v) r)
  (at level 1, f at level 0, left associativity) : py_scope.
Notation "r <| f ::= g |>" := (setter (proj := f) g r)
  (at level 1, f at level 0, left associativity) : py_scope.

(** ** Tactics *)

Ltac break_if :=
  match goal with
  | |- context [if ?b then _ else _] => destruct b eqn:?
  | H : context [if ?b then _ else _] |- _ => destruct b eqn:?
  end.

Ltac break_match :=
  match goal with
  | |- context [match ?x with _ => _ end] => destruct x eqn:?
  | H : context [match ?x with _ => _ end] |- _ => destruct x eqn:?
  end.

(** Turns boolean tests of the source into propositions. *)
Ltac bool_prop :=
  repeat match goal with
  | H : (_ && _)%bool = true |- _ => apply andb_true_iff in H; destruct H
  | H : (_ && _)%bool = false |- _ => apply andb_false_iff in H
  | H : (_ || _)%bool = true |- _ => apply orb_true_iff in H
  | H : (_ || _)%bool = false |- _ => apply orb_false_iff in H; destruct H
  | H : negb _ = true |- _ => apply negb_true_iff in H
  | H : negb _ = false |- _ => apply negb_false_iff in H
  | H : Z.ltb _ _ = true |- _ => apply Z.ltb_lt in H
  | H : Z.ltb _ _ = false |- _ => apply Z.ltb_ge in H
  | H : Z.leb _ _ = true |- _ => apply Z.leb_le in H
  | H : Z.leb _ _ = false |- _ => apply Z.leb_gt in H
  | H : Z.eqb _ _ = true |- _ => apply Z.eqb_eq in H
  | H : Z.eqb _ _ = false |- _ => apply Z.eqb_neq in H
  | H : bool_decide _ = true |- _ => apply bool_decide_eq_true in H
  | H : bool_decide _ = false |- _ => apply bool_decide_eq_false in H
  end.

(** Inverts a run of the result monad that succeeded. *)
Ltac inv_ok :=
  repeat match goal with
  | H : Ok _ = Ok _ |- _ => injection H as H; try subst
  | H : Raise _ = Ok _ |- _ => discriminate H
  | H : Ok _ = Raise _ |- _ => discriminate H
  | H : rbind ?m _ = Ok _ |- _ =>
      let E := fresh "E" in destruct m eqn:E; simpl in H
  | H : require ?b _ = Ok _ |- _ => unfold require in H
  | H : (if ?b then Ok _ else Raise _) = Ok _ |- _ =>
      let E := fresh "E" in destruct b eqn:E
  | H : (if ?b then Raise _ else Ok _) = Ok _ |- _ =>
      let E := fresh "E" in destruct b eqn:E
  end.

(** ** Monad lemmas *)

Lemma rbind_ok {A B} (m : result A) (k : A -> result B) b :
  rbind m k = Ok b <-> exists a, m = Ok a /\ k a = Ok b.
Proof. destruct m; simpl; naive_solver. Qed.

Lemma require_ok b e u : require b e = Ok u <-> b = true.
Proof. destruct b, u; simpl; naive_solver. Qed.

Lemma rbind_raise {A B} (m : result A) (k : A -> result B) e :
  rbind m k = Raise e <-> m = Raise e \/ exists a, m = Ok a /\ k a = Raise e.
Proof. destruct m; simpl; naive_solver. Qed.

Lemma require_raise b e e' : require b e = Raise e' -> e' = e.
Proof. destruct b; simpl; congruence. Qed.

(** Where a loop that raises has raised. *)
Lemma rfold_raise {A B} (f : B -> A -> result B) b l e :
  rfold f b l = Raise e -> exists b' a, a ∈ l /\ f b' a = Raise e.
Proof.
  revert b; induction l as [|a l IH]; intros b; simpl; [done|].
  intros [Ha|(b' & _ & (b'' & a' & Hin & Hf)%IH)]%rbind_raise; [exists b, a|exists b'', a']; (split; [|done]).
  - left.
  - by right.
Qed.

Lemma rfold_app {A B} (f : B -> A -> result B) b l1 l2 :
  rfold f b (l1 ++ l2) = (let* b' := rfold f b l1 in rfold f b' l2).
Proof.
  revert b; induction l1 as [|a l1 IH]; intros b; simpl; [done|].
  destruct (f b a); simpl; auto.
Qed.

(** The invariant rule for a loop that can raise. *)
Lemma rfold_inv {A B} (P : B -> Prop) (f : B -> A -> result B) b l b' :
  P b ->
  (forall b a b', a ∈ l -> P b -> f b a = Ok b' -> P b') ->
  rfold f b l = Ok b' -> P b'.
Proof.
  revert b; induction l as [|a l IH]; intros b Hb Hstep Hrun; simpl in *; inv_ok; auto.
  eapply IH; [| |exact Hrun]; [eapply Hstep; eauto; left|].
  intros; eapply Hstep; eauto; by right.
Qed.

Lemma rmap_ok {A B} (f : A -> result B) l bs :
  rmap f l = Ok bs <-> Forall2 (fun a b => f a = Ok b) l bs.
Proof.
  revert bs; induction l as [|a l IH]; intros bs; simpl.
  - split; [intros [= <-]; constructor | by inversion 1].
  - rewrite rbind_ok. split.
    + intros (b & Ha & H). apply rbind_ok in H as (bs' & Hl & [= <-]).
      constructor; [done | by apply IH].
    + inversion 1 as [|? b ? bs' Ha Hl]; subst. exists b; split; [done|].
      apply rbind_ok. exists bs'. by rewrite IH.
Qed.

(** ** Loop rules *)

(** Partial correctness: [P] holds at each test of the loop, [Q] after it. *)
Lemma while_inv {S} (P Q : S -> Prop) n body (s s' : S) :
  P s ->
  (forall s s', P s -> body s = Ok (Continue s') -> P s') ->
  (forall s s', P s -> body s = Ok (Break s') -> Q s') ->
  while n body s = Ok s' -> Q s'.
Proof.
  intros Hs Hc Hb. revert s Hs. induction n as [|n IH]; intros s Hs; simpl; [done|].
  destruct (body s) as [[s1|s1]|e] eqn:E; simpl; [eauto| |done].
  intros [= <-]; eauto.
Qed.

(** Termination: a body that decreases [mu] at each round never runs out of
    more than [mu s] rounds of fuel. *)
Lemma while_total {S} (P : S -> Prop) (mu : S -> nat) n body (s : S) :
  P s ->
  (forall s s', P s -> body s = Ok (Continue s') -> P s' /\ (mu s' < mu s)%nat) ->
  (forall s, P s -> body s <> Raise OutOfFuel) ->
  (mu s < n)%nat -> while n body s <> Raise OutOfFuel.
Proof.
  intros Hs Hc Hr. revert s Hs. induction n as [|n IH]; intros s Hs Hlt; simpl; [lia|].
  destruct (body s) as [[s1|s1]|e] eqn:E; simpl; [|done|].
  - destruct (Hc _ _ Hs E). apply IH; [done|lia].
  - intros [= ->]. by apply (Hr s Hs).
Qed.

#[global] Arguments while {S} fuel body s : simpl never.

(** The rule for [for_each]: [P l s] holds when the elements [l] remain. *)
Lemma for_each_inv {A S} (P : list A -> S -> Prop) (Q : S -> Prop) body l (s s' : S) :
  P l s ->
  (forall a l s s', P (a :: l) s -> body a s = Ok (Continue s') -> P l s') ->
  (forall a l s s', P (a :: l) s -> body a s = Ok (Break s') -> Q s') ->
  (forall s, P [] s -> Q s) ->
  for_each body l s = Ok s' -> Q s'.
Proof.
  intros Hs Hc Hb Hn. revert s Hs. induction l as [|a l IH]; intros s Hs; simpl.
  - intros [= <-]; auto.
  - destruct (body a s) as [[s1|s1]|e] eqn:E; simpl; [eauto| |done].
    intros [= <-]; eauto.
Qed.

(** Programs that never raise a given exception. *)
Lemma rbind_never {A B} e (m : result A) (k : A -> result B) :
  m <> Raise e -> (forall a, m = Ok a -> k a <> Raise e) -> rbind m k <> Raise e.
Proof. destruct m as [a|e']; simpl; [auto|]. intros Hm _ [= ->]. done. Qed.

Lemma require_never e e' b : e <> e' -> require b e' <> Raise e.
Proof. unfold require. destruct b; congruence. Qed.

Lemma rfold_never {A B} e (f : B -> A -> result B) b l :
  (forall b a, f b a <> Raise e) -> rfold f b l <> Raise e.
Proof.
  intros Hf. revert b; induction l as [|a l IH]; intros b; simpl; [done|].
  apply rbind_never; auto.
Qed.

Lemma rmap_never {A B} e (f : A -> result B) l :
  (forall a, f a <> Raise e) -> rmap f l <> Raise e.
Proof.
  intros Hf. induction l as [|a l IH]; simpl; [done|].
  apply rbind_never; [auto|]. intros b _. apply rbind_never; [auto|done].
Qed.

Lemma for_each_never {A S} e (body : A -> S -> result (ctl S)) l s :
  (forall a s, body a s <> Raise e) -> for_each body l s <> Raise e.
Proof.
  intros Hf. revert s; induction l as [|a l IH]; intros s; simpl; [done|].
  apply rbind_never; [auto|]. intros [s'|s'] _; auto.
Qed.

(** ** Sums *)

Definition zsum (l : list Z) : Z := foldr Z.add 0 l.

Lemma zsum_app l k : zsum (l ++ k) = zsum l + zsum k.
Proof. induction l; simpl in *; lia. Qed.

Lemma zsum_nonneg l : Forall (fun x => 0 <= x) l -> 0 <= zsum l.
Proof. induction 1; simpl; lia. Qed.

Lemma zsum_perm l k : l ≡ₚ k -> zsum l = zsum k.
Proof. induction 1; simpl; lia. Qed.

#[export] Instance zsum_proper : Proper ((≡ₚ) ==> (=)) zsum.
Proof. intros l k; apply zsum_perm. Qed.

(** ** [sorted(set(l))] on integers *)

Fixpoint insert_uniq (x : Z) (l : list Z) : list Z :=
  match l with
  | [] => [x]
  | y :: l' =>
      if x <? y then x :: y :: l'
      else if x =? y then y :: l'
      else y :: insert_uniq x l'
  end.

Definition sorted_set (l : list Z) : list Z := foldr insert_uniq [] l.

Lemma elem_of_insert_uniq x y l : y ∈ insert_uniq x l <-> y = x \/ y ∈ l.
Proof.
  induction l as [|z l IH]; simpl; [set_solver|].
  repeat break_if; bool_prop; subst; set_solver.
Qed.

Lemma elem_of_sorted_set y l : y ∈ sorted_set l <-> y ∈ l.
Proof.
  induction l as [|x l IH]; simpl; [done|].
  rewrite elem_of_insert_uniq, IH. set_solver.
Qed.

Lemma insert_uniq_sorted x l :
  StronglySorted Z.lt l -> StronglySorted Z.lt (insert_uniq x l).
Proof.
  induction 1 as [|y l Hs IH Hall]; simpl; [repeat constructor|].
  repeat break_if; bool_prop; subst.
  - constructor; [by constructor|]. constructor; [lia|].
    eapply Forall_impl; [done|]; simpl; lia.
  - by constructor.
  - constructor; [done|]. apply Forall_forall. intros z Hz.
    apply elem_of_insert_uniq in Hz as [->|Hz]; [lia|].
    rewrite Forall_forall in Hall; auto.
Qed.

Lemma sorted_set_sorted l : StronglySorted Z.lt (sorted_set l).
Proof. induction l; simpl; [constructor | by apply insert_uniq_sorted]. Qed.

(** Two strictly increasing lists with the same elements are equal. *)
Lemma strict_sorted_unique (l k : list Z) :
  StronglySorted Z.lt l -> StronglySorted Z.lt k ->
  (forall x, x ∈ l <-> x ∈ k) -> l = k.
Proof.
  intros Hl; revert k; induction Hl as [|x l Hl IH Hx]; intros [|y k] Hk Heq.
  - done.
  - exfalso. specialize (Heq y). set_solver.
  - exfalso. specialize (Heq x). set_solver.
  - inversion Hk as [|? ? Hk' Hy]; subst. rewrite Forall_forall in Hx, Hy.
    assert (x = y) as ->.
    { assert (x ∈ y :: k) as H1 by (apply Heq; left).
      assert (y ∈ x :: l) as H2 by (apply Heq; left).
      apply elem_of_cons in H1 as [->|H1]; [done|].
      apply elem_of_cons in H2 as [->|H2]; [done|].
      specialize (Hx _ H2); specialize (Hy _ H1); lia. }
    f_equal. apply IH; [done|]. intros z. specialize (Heq z).
    rewrite !elem_of_cons in Heq. split; intros Hz.
    + destruct Heq as [Heq _]. destruct Heq as [->|]; auto.
      specialize (Hx _ Hz); lia.
    + destruct Heq as [_ Heq]. destruct Heq as [->|]; auto.
      specialize (Hy _ Hz); lia.
Qed.

Lemma sorted_set_id l : StronglySorted Z.lt l -> sorted_set l = l.
Proof.
  intros Hl. apply strict_sorted_unique; auto using sorted_set_sorted.
  intros; apply elem_of_sorted_set.
Qed.

Lemma sorted_set_nil l : sorted_set l = [] <-> l = [].
Proof.
  split; [|by intros ->]. intros H. destruct l as [|x l]; [done|].
  assert (x ∈ sorted_set (x :: l)) as Hx by (apply elem_of_sorted_set; left).
  rewrite H in Hx. set_solver.
Qed.

(** [any(P(x) for x in l)], [all(...)] are [existsb] and [forallb]. *)
Lemma existsb_false {A} (f : A -> bool) l :
  existsb f l = false <-> Forall (fun x => f x = false) l.
Proof.
  induction l as [|x l IH]; simpl; [done|].
  rewrite orb_false_iff, Forall_cons, IH. done.
Qed.

Lemma forallb_true {A} (f : A -> bool) l :
  forallb f l = true <-> Forall (fun x => f x = true) l.
Proof.
  induction l as [|x l IH]; simpl; [done|].
  rewrite andb_true_iff, Forall_cons, IH. done.
Qed.

(** A filtering comprehension. *)
Lemma elem_of_lfilter {A} (f : A -> bool) x l : x ∈ List.filter f l <-> x ∈ l /\ f x = true.
Proof. by rewrite list_elem_of_In, List.filter_In, <-list_elem_of_In. Qed.

(** [range(a, b)]. *)
Definition range (a b : Z) : list Z := seqZ a (b - a).

Lemma elem_of_range a b x : x ∈ range a b <-> a <= x < b.
Proof. unfold range. rewrite elem_of_seqZ. lia. Qed.

(** The rule for [for i in range(a, b)]: [P i] holds before round [i]. *)
Lemma rfold_range {S} (P : Z -> S -> Prop) (f : S -> Z -> result S) a b s :
  a <= b -> P a s ->
  (forall i s, a <= i < b -> P i s -> exists s', f s i = Ok s' /\ P (i + 1) s') ->
  exists s', rfold f s (range a b) = Ok s' /\ P b s'.
Proof.
  unfold range. intros Hab Hs Hstep. remember (Z.to_nat (b - a)) as n eqn:En.
  assert (Hb : b = a + Z.of_nat n) by lia. rewrite Hb in *. clear b Hb Hab En.
  replace (a + Z.of_nat n - a) with (Z.of_nat n) by lia.
  revert a s Hs Hstep. induction n as [|n IH]; intros a s Hs Hstep.
  - exists s. split; [done|]. by rewrite Z.add_0_r.
  - rewrite (seqZ_cons a (Z.of_nat (Datatypes.S n))) by lia. simpl rfold.
    destruct (Hstep a s ltac:(lia) Hs) as (s1 & -> & Hs1). cbn [rbind].
    replace (Z.succ a) with (a + 1) by lia. replace (Z.pred (Z.of_nat (Datatypes.S n))) with (Z.of_nat n) by lia.
    replace (a + Z.of_nat (Datatypes.S n)) with (a + 1 + Z.of_nat n) by lia.
    apply IH; [done|]. intros i s' Hi Hp. apply Hstep; [lia|done].
Qed.

(** ** Products, tables of lists, first matches *)

(** [itertools.product]. *)
Definition product {A B} (l : list A) (k : list B) : list (A * B) :=
  l ≫= (fun a => (fun b => (a, b)) <$> k).

(** [d[k].append(x)] on a [defaultdict(list)]. *)
Definition push `{Countable K} {A} (k : K) (x : A) (d : gmap K (list A)) : gmap K (list A) :=
  <[k := default [] (d !! k) ++ [x]]> d.

Lemma elem_of_product {A B} (l : list A) (k : list B) a b :
  (a, b) ∈ product l k <-> a ∈ l /\ b ∈ k.
Proof.
  unfold product. rewrite list_elem_of_bind. split.
  - intros (x & Hin & Hx). apply list_elem_of_fmap in Hin as (y & [= -> ->] & Hy). done.
  - intros [Ha Hb]. exists a. split; [|done]. apply list_elem_of_fmap. by exists b.
Qed.

Lemma NoDup_product {A B} (l : list A) (k : list B) : NoDup l -> NoDup k -> NoDup (product l k).
Proof.
  intros Hl Hk. induction Hl as [|a l Ha Hl IH]; [constructor|].
  change (product (a :: l) k) with (((fun b => (a, b)) <$> k) ++ product l k). apply NoDup_app. split_and!.
  - apply NoDup_fmap_2; [|done]. by intros ? ? [= ->].
  - intros [x y] Hin Hp. apply list_elem_of_fmap in Hin as (b & [= -> ->] & _).
    apply elem_of_product in Hp as [Hp _]. done.
  - done.
Qed.

Lemma product_ordered {B} (l : list Z) (k : list B) :
  StronglySorted Z.le l -> StronglySorted (fun x y => fst x <= fst y) (product l k).
Proof.
  induction 1 as [|a l Hs IH Ha]; [constructor|].
  change (product (a :: l) k) with (((fun b => (a, b)) <$> k) ++ product l k).
  apply StronglySorted_app_2; [..|done].
  - intros [x b] [y b'] Hx Hy. apply list_elem_of_fmap in Hx as (? & [= -> ->] & _).
    apply elem_of_product in Hy as [Hy _]. rewrite Forall_forall in Ha. by apply Ha.
  - clear. induction k as [|b k IH]; simpl; constructor; [done|].
    apply Forall_forall. intros y Hy. apply list_elem_of_fmap in Hy as (? & -> & _). simpl. lia.
Qed.

Section Push.
Context `{Countable K} {A : Type}.

Lemma lookup_push (k k' : K) (x : A) d :
  push k x d !! k' = if decide (k' = k) then Some (default [] (d !! k) ++ [x]) else d !! k'.
Proof. unfold push. case_decide; subst; by rewrite ?lookup_insert_eq, ?lookup_insert_ne. Qed.

Lemma push_elem (k k' : K) (x y : A) d l :
  push k x d !! k' = Some l -> y ∈ l ->
  (k' = k /\ y = x) \/ exists l', d !! k' = Some l' /\ y ∈ l'.
Proof.
  rewrite lookup_push. case_decide as E; [subst|intros ? ?; right; by exists l].
  intros [= <-] [Hy|Hy]%elem_of_app; [|apply list_elem_of_singleton in Hy; by left].
  right. destruct (d !! k) as [l'|]; [|set_solver]. by exists l'.
Qed.

Lemma push_keeps (k k' : K) (x y : A) d l :
  d !! k' = Some l -> y ∈ l -> exists l', push k x d !! k' = Some l' /\ y ∈ l'.
Proof.
  intros Hl Hy. rewrite lookup_push. case_decide as E; [subst|by exists l].
  eexists. split; [done|]. rewrite Hl. set_solver.
Qed.

Lemma push_has (k : K) (x : A) d : exists l, push k x d !! k = Some l /\ x ∈ l.
Proof. rewrite lookup_push, decide_True by done. eexists. split; [done|]. set_solver. Qed.

End Push.

Lemma find_app {A} (f : A -> bool) l k :
  List.find f (l ++ k) = match List.find f l with Some x => Some x | None => List.find f k end.
Proof. induction l as [|x l IH]; simpl; [done|]. by destruct (f x). Qed.

Lemma find_elem {A} (f : A -> bool) l x : List.find f l = Some x -> x ∈ l /\ f x = true.
Proof. intros [Hx Hf]%List.find_some. by split; [apply list_elem_of_In|]. Qed.

(** The first element of a sorted list that is at least [i] is the least one. *)
Lemma find_least l i t :
  StronglySorted Z.le l -> List.find (fun t => i <=? t) l = Some t ->
  t ∈ l /\ i <= t /\ forall t', t' ∈ l -> i <= t' -> t <= t'.
Proof.
  induction 1 as [|x l Hs IH Hx]; simpl; [done|]. destruct (Z.leb_spec i x).
  - intros [= ->]. split_and!; [left|done|]. intros t' [->|Ht']%elem_of_cons Hi; [lia|].
    rewrite Forall_forall in Hx. specialize (Hx t' Ht'). simpl in Hx. lia.
  - intros Hf. destruct (IH Hf) as (Ht & Hi & Hl). split_and!; [by right|done|].
    intros t' [->|Ht']%elem_of_cons Hi'; [lia|]. by apply Hl.
Qed.

(** ** Hint databases: membership, sortedness and sums *)
Create HintDb py.
#[export] Hint Resolve sorted_set_sorted insert_uniq_sorted zsum_nonneg : py.
Create Rewrite HintDb pyrw.
#[export] Hint Rewrite elem_of_sorted_set elem_of_insert_uniq elem_of_range @elem_of_lfilter zsum_app
  @length_app : pyrw.
