(* ===== verification/PyLib.v ===== *)
(** * The Python strings and integers the sources use

    [int(s)] and [str(n)] on ASCII text, [str.strip], [str.split] and
    [",".join], each as an executable function, with the round trips the
    configuration parsers rely on.  Text is a [list ascii]; [int] accepts
    surrounding white space, one sign, leading zeros and single underscores
    between digits, as CPython does below its 4300-digit limit. *)
From S2P Require Export Prelude.
From Stdlib Require Export Ascii String.

Module PyStr.

Definition code (c : ascii) : Z := Z.of_N (N_of_ascii c).

(** [str.isspace] on ASCII: tab, newline, vertical tab, form feed, carriage
    return, the four separators and space. *)
Definition is_space (c : ascii) : bool :=
  ((9 <=? code c) && (code c <=? 13)) || ((28 <=? code c) && (code c <=? 32)).

Fixpoint lstrip (s : list ascii) : list ascii :=
  match s with
  | c :: s' => if is_space c then lstrip s' else s
  | [] => []
  end.

Definition strip (s : list ascii) : list ascii := rev (lstrip (rev (lstrip s))).

Definition digit_val (c : ascii) : option Z :=
  if (48 <=? code c) && (code c <=? 57) then Some (code c - 48) else None.

Definition digit_chr (d : Z) : ascii := ascii_of_N (Z.to_N (48 + d)).

Fixpoint digits (acc : Z) (after_digit : bool) (s : list ascii) : option Z :=
  match s with
  | [] => if after_digit then Some acc else None
  | c :: s' =>
      match digit_val c with
      | Some d => digits (10 * acc + d) true s'
      | None => if Ascii.eqb c "_" && after_digit then digits acc false s' else None
      end
  end.

(** [int(s)]; [None] is the [ValueError]. *)
Definition int_of (s : list ascii) : option Z :=
  match strip s with
  | c :: s' =>
      if Ascii.eqb c "-" then Z.opp <$> digits 0 false s'
      else if Ascii.eqb c "+" then digits 0 false s'
      else digits 0 false (c :: s')
  | [] => None
  end.

Fixpoint str_pos (fuel : nat) (n : Z) (acc : list ascii) : list ascii :=
  match fuel with
  | O => acc
  | S fuel =>
      if n <? 10 then digit_chr n :: acc
      else str_pos fuel (n / 10) (digit_chr (n mod 10) :: acc)
  end.

Definition str_fuel (n : Z) : nat := S (Z.to_nat (Z.log2 n)).

(** [str(n)]. *)
Definition str_of (n : Z) : list ascii :=
  if n <? 0 then "-"%char :: str_pos (str_fuel (- n)) (- n) []
  else str_pos (str_fuel n) n [].

(** [s.split(sep)] for a one-character separator: never empty. *)
Fixpoint split (sep : ascii) (s : list ascii) : list (list ascii) :=
  match s with
  | [] => [[]]
  | c :: s' =>
      if Ascii.eqb c sep then [] :: split sep s'
      else match split sep s' with
           | t :: ts => (c :: t) :: ts
           | [] => [[c]]
           end
  end.

(** [sep.join(l)]. *)
Fixpoint join (sep : ascii) (l : list (list ascii)) : list ascii :=
  match l with
  | [] => []
  | [t] => t
  | t :: l' => t ++ sep :: join sep l'
  end.

Definition text (s : string) : list ascii := list_ascii_of_string s.

(** ** Digits *)

Lemma code_digit_chr d : 0 <= d < 10 -> code (digit_chr d) = 48 + d.
Proof.
  intros Hd. unfold code, digit_chr. rewrite N_ascii_embedding; lia.
Qed.

Lemma digit_val_chr d : 0 <= d < 10 -> digit_val (digit_chr d) = Some d.
Proof.
  intros Hd. unfold digit_val. rewrite code_digit_chr by done.
  replace ((48 <=? 48 + d) && (48 + d <=? 57)) with true by lia. f_equal; lia.
Qed.

Lemma digit_chr_ne c d : 0 <= d < 10 -> ~ (48 <= code c <= 57) -> digit_chr d <> c.
Proof. intros Hd Hc <-. rewrite code_digit_chr in Hc; lia. Qed.

Lemma log2_div10 n : 10 <= n -> (Z.to_nat (Z.log2 (n / 10)) < Z.to_nat (Z.log2 n))%nat.
Proof.
  intros Hn.
  assert (Z.log2 (n / 10) < Z.log2 n); [|pose proof (Z.log2_nonneg (n / 10)); lia].
  apply (Z.le_lt_trans _ (Z.log2 (n / 2))).
  - apply Z.log2_le_mono. apply Z.div_le_compat_l; lia.
  - pose proof (Z.log2_shiftr n 1 ltac:(lia)) as H. rewrite Z.shiftr_div_pow2 in H by lia.
    change (2 ^ 1) with 2 in H. rewrite H.
    pose proof (Z.log2_le_mono 10 n Hn). change (Z.log2 10) with 3 in *. lia.
Qed.

Definition all_digits (s : list ascii) : Prop :=
  Forall (fun c => exists d, 0 <= d < 10 /\ c = digit_chr d) s.

Lemma str_pos_digits fuel n acc :
  0 <= n -> all_digits acc -> all_digits (str_pos fuel n acc).
Proof.
  revert n acc; induction fuel as [|fuel IH]; intros n acc Hn Hacc; simpl; [done|].
  destruct (Z.ltb_spec n 10); [constructor; eauto|].
  apply IH; [apply Z.div_pos; lia|]. constructor; [|done].
  exists (n mod 10); split; [apply Z.mod_pos_bound; lia|done].
Qed.

Lemma digits_str_pos fuel n rest acc p :
  0 <= n -> (Z.to_nat (Z.log2 n) < fuel)%nat ->
  exists k, 0 <= k /\
    digits acc p (str_pos fuel n rest) = digits (acc * 10 ^ k + n) true rest.
Proof.
  revert n rest acc p; induction fuel as [|fuel IH]; intros n rest acc p Hn Hf; [lia|].
  simpl. destruct (Z.ltb_spec n 10).
  - exists 1. split; [lia|]. simpl. rewrite digit_val_chr by lia. f_equal; lia.
  - destruct (IH (n / 10) (digit_chr (n mod 10) :: rest) acc p) as (k & Hk & ->).
    + apply Z.div_pos; lia.
    + pose proof (log2_div10 n). lia.
    + exists (k + 1). split; [lia|]. simpl.
      rewrite digit_val_chr by (apply Z.mod_pos_bound; lia). f_equal.
      rewrite Z.pow_add_r by lia. pose proof (Z.div_mod n 10). lia.
Qed.

Lemma digits_str_fuel n : 0 <= n -> digits 0 false (str_pos (str_fuel n) n []) = Some n.
Proof.
  intros Hn. destruct (digits_str_pos (str_fuel n) n [] 0 false) as (k & Hk & ->);
    [done | unfold str_fuel; lia | done].
Qed.

(** ** [strip] does nothing on text without outer white space *)

Lemma lstrip_id c s : is_space c = false -> lstrip (c :: s) = c :: s.
Proof. intros H; simpl; by rewrite H. Qed.

Lemma strip_id c s d :
  is_space c = false -> is_space (List.last (c :: s) d) = false -> strip (c :: s) = c :: s.
Proof.
  intros Hc Hl. unfold strip. rewrite lstrip_id by done.
  destruct (exists_last (l := c :: s)) as (s' & x & Heq); [done|].
  rewrite Heq in *. rewrite rev_app_distr; simpl.
  rewrite last_last in Hl. rewrite Hl. simpl. by rewrite rev_involutive.
Qed.

Lemma digit_not_space d : 0 <= d < 10 -> is_space (digit_chr d) = false.
Proof. intros Hd. unfold is_space. rewrite code_digit_chr by done. lia. Qed.

Lemma all_digits_strip c s :
  is_space c = false -> all_digits s -> strip (c :: s) = c :: s.
Proof.
  intros Hc Hs. apply (strip_id _ _ c); [done|].
  assert (Forall (fun c => is_space c = false) (c :: s)) as Hall.
  { constructor; [done|]. eapply Forall_impl; [exact Hs|].
    intros x (d & Hd & ->); by apply digit_not_space. }
  destruct (exists_last (l := c :: s)) as (s' & x & Heq); [done|].
  rewrite Heq, last_last. rewrite Heq in Hall.
  apply Forall_app in Hall as [_ Hx]. by inversion Hx.
Qed.

Lemma str_pos_nonempty fuel n acc : acc <> [] \/ fuel <> O -> str_pos fuel n acc <> [].
Proof.
  revert n acc; induction fuel as [|fuel IH]; intros n acc H; simpl; [naive_solver|].
  break_if; [done|]. apply IH; by left.
Qed.

Lemma str_of_shape n :
  (0 <= n /\ exists d s, str_of n = digit_chr d :: s /\ 0 <= d < 10 /\ all_digits s) \/
  (n < 0 /\ str_of n = "-"%char :: str_pos (str_fuel (- n)) (- n) []).
Proof.
  unfold str_of. destruct (Z.ltb_spec n 0); [by right|]. left. split; [done|].
  pose proof (str_pos_digits (str_fuel n) n [] H ltac:(constructor)) as Hd.
  pose proof (str_pos_nonempty (str_fuel n) n [] ltac:(by right)) as Hne.
  destruct (str_pos _ _ _) as [|c s]; [done|].
  inversion Hd as [|? ? (d & Hb & ->) Hs]; subst. eauto.
Qed.

(** [int(str(n)) == n]. *)
Lemma int_of_str_of n : int_of (str_of n) = Some n.
Proof.
  destruct (str_of_shape n) as [(Hn & d & s & Heq & Hd & Hs) | (Hn & Heq)].
  - unfold int_of. rewrite Heq, all_digits_strip by auto using digit_not_space.
    replace (Ascii.eqb (digit_chr d) "-") with false
      by (symmetry; apply Ascii.eqb_neq, digit_chr_ne; [done | by vm_compute; intros []]).
    replace (Ascii.eqb (digit_chr d) "+") with false
      by (symmetry; apply Ascii.eqb_neq, digit_chr_ne; [done | by vm_compute; intros []]).
    rewrite <- Heq. unfold str_of. destruct (Z.ltb_spec n 0); [lia|].
    by apply digits_str_fuel.
  - unfold int_of. rewrite Heq, all_digits_strip; [|done|].
    + rewrite Ascii.eqb_refl, digits_str_fuel by lia. simpl. f_equal; lia.
    + apply str_pos_digits; [lia | constructor].
Qed.

(** ** [split] undoes [join] *)

Lemma split_nonempty sep s : split sep s <> [].
Proof. destruct s as [|c s]; simpl; [done|]. break_if; [done|]. by destruct (split sep s). Qed.

Lemma split_app sep t s :
  sep ∉ t -> split sep (t ++ sep :: s) = t :: split sep s.
Proof.
  induction t as [|c t IH]; intros Hin; simpl.
  - by rewrite Ascii.eqb_refl.
  - apply not_elem_of_cons in Hin as [Hne Hin].
    replace (Ascii.eqb c sep) with false by (symmetry; by apply Ascii.eqb_neq).
    by rewrite IH.
Qed.

Lemma split_no_sep sep t : sep ∉ t -> split sep t = [t].
Proof.
  induction t as [|c t IH]; intros Hin; simpl; [done|].
  apply not_elem_of_cons in Hin as [Hne Hin].
  replace (Ascii.eqb c sep) with false by (symmetry; by apply Ascii.eqb_neq).
  by rewrite IH.
Qed.

Lemma split_join sep l :
  l <> [] -> Forall (fun t => sep ∉ t) l -> split sep (join sep l) = l.
Proof.
  intros Hne Hall; revert Hne; induction Hall as [|t l Ht Hall IH]; intros Hne; [done|].
  destruct l as [|u l]; simpl; [by apply split_no_sep|].
  rewrite split_app by done. f_equal. by apply IH.
Qed.

Lemma comma_not_in_str n : ","%char ∉ str_of n.
Proof.
  assert (forall s, all_digits s -> ","%char ∉ s) as Hd.
  { intros s Hs Hin. apply (proj1 (Forall_forall _ _) Hs) in Hin as (d & Hd & Heq).
    symmetry in Heq. revert Heq. apply digit_chr_ne; [done | by vm_compute; intros []]. }
  unfold str_of. break_if; bool_prop.
  - apply not_elem_of_cons; split; [done|]. apply Hd, str_pos_digits; [lia | constructor].
  - apply Hd, str_pos_digits; [lia | constructor].
Qed.

End PyStr.
