(* ===== verification/PyFloat.v ===== *)
(** * Python floats as IEEE binary64

    [float] values are the specification floats of the Standard Library at
    precision 53 and exponent bound 1024.  [truediv] is the division of two
    integers, which CPython rounds correctly; [lit] is a decimal literal,
    which the parser rounds correctly as well.  At the end: values and
    operations of any IEEE precision, for tensors of half and single precision. *)
From S2P Require Export Prelude.
From Stdlib Require Export SpecFloat.

Module PyFloat.

Definition prec : Z := 53.
Definition emax : Z := 1024.

Abbreviation float := spec_float.

(** [a / b] on integers; the caller has tested [b]. *)
Definition truediv (a b : Z) : float :=
  match b with
  | Z0 => S754_nan
  | _ =>
      match a with
      | Z0 => S754_zero false
      | _ =>
          let '(m, e, l) := SFdiv_core_binary prec emax (Z.abs a) 0 (Z.abs b) 0 in
          binary_round_aux prec emax (xorb (a <? 0) (b <? 0)) m e l
      end
  end.

(** The literal [n / d] written in decimal, [d] a power of ten. *)
Definition lit (n d : Z) : float := truediv n d.

Definition fadd : float -> float -> float := SFadd prec emax.
Definition fdiv : float -> float -> float := SFdiv prec emax.

(** [x >= y]; false when one of them is a NaN. *)
Definition fge (x y : float) : bool := SFleb y x.

(** [bool(x)]: false on the two zeros only. *)
Definition truthy (x : float) : bool :=
  match x with S754_zero _ => false | _ => true end.

(** [math.floor(x)], which raises on infinities and NaNs. *)
Definition floor (x : float) : option Z :=
  match x with
  | S754_zero _ => Some 0
  | S754_finite s m e =>
      let v := if s then Z.neg m else Z.pos m in
      Some (if 0 <=? e then v * 2 ^ e else v / 2 ^ (- e))
  | _ => None
  end.

(** An optional float: [a / b if b else 0.0]. *)
Definition ratio (a b : Z) : float := if b =? 0 then S754_zero false else truediv a b.

Definition is_finite (x : float) : bool :=
  match x with S754_zero _ | S754_finite _ _ _ => true | _ => false end.

End PyFloat.

(** ** Tensors of other precisions *)

(** A finite value as a float of the given precision. *)
Definition normalize (prec emax : Z) (negative : bool) (m : Z) (e : Z) : spec_float :=
  binary_normalize prec emax (if negative then - m else m) e negative.

(** Addition and subtraction of single-precision tensors. *)
Definition add32 : spec_float -> spec_float -> spec_float := SFadd 24 128.
Definition sub32 : spec_float -> spec_float -> spec_float := SFsub 24 128.

Definition float_lt : spec_float -> spec_float -> bool := SFltb.
