(* ===== verification/PyDict.v ===== *)
(** * Python containers whose order matters

    Module [PyDict]: a [dict] with string keys as the association list of its
    items in insertion order (assigning to a present key keeps its place).
    Module [PyList]: [list.remove], slices, stable [sorted(key=...)] and
    [max(key=...)]. *)
From S2P Require Export Prelude.

Module PyDict.

Definition dict (A : Type) : Type := list (string * A).

Section Dict.
Context {A : Type}.
Implicit Types (d : dict A) (k : string) (v : A).

Fixpoint dget d k : option A :=
  match d with
  | [] => None
  | (k', v) :: d => if bool_decide (k' = k) then Some v else dget d k
  end.

Fixpoint dset d k v : dict A :=
  match d with
  | [] => [(k, v)]
  | (k', v') :: d => if bool_decide (k' = k) then (k, v) :: d else (k', v') :: dset d k v
  end.

(** [d.pop(k, None)], the dictionary left. *)
Fixpoint ddel d k : dict A :=
  match d with
  | [] => []
  | (k', v') :: d => if bool_decide (k' = k) then d else (k', v') :: ddel d k
  end.

Definition dkeys d : list string := d.*1.
Definition dvals d : list A := d.*2.

(** A dictionary never holds a key twice. *)
Definition dwf d : Prop := NoDup (dkeys d).

(** [d[k]]. *)
Definition dindex d k : result A :=
  match dget d k with Some v => Ok v | None => Raise KeyError end.

Lemma dget_elem_of d k v : dwf d -> dget d k = Some v <-> (k, v) ∈ d.
Proof.
  unfold dwf. induction d as [|[k' v'] d IH]; simpl; [set_solver|].
  intros Hn. apply NoDup_cons in Hn as [Hni Hn]. case_bool_decide; subst.
  - split.
    + intros [= ->]. left.
    + intros Hin. apply elem_of_cons in Hin as [[= ->]|Hin]; [done|].
      exfalso. apply Hni. apply (list_elem_of_fmap_2 fst) in Hin. done.
  - rewrite IH by done. rewrite elem_of_cons. naive_solver.
Qed.

Lemma dget_None d k : dget d k = None <-> k ∉ dkeys d.
Proof.
  induction d as [|[k' v'] d IH]; simpl; [set_solver|].
  case_bool_decide; subst; [set_solver|]. rewrite IH. set_solver.
Qed.

Lemma dget_is_Some d k : is_Some (dget d k) <-> k ∈ dkeys d.
Proof.
  rewrite <- not_eq_None_Some, dget_None. destruct (decide (k ∈ dkeys d)); tauto.
Qed.

Lemma dget_dset d k k' v :
  dget (dset d k v) k' = if bool_decide (k = k') then Some v else dget d k'.
Proof.
  induction d as [|[k0 v0] d IH]; simpl; [done|].
  repeat (case_bool_decide; subst; simpl); try done.
  all: rewrite ?IH; repeat (case_bool_decide; subst; simpl); done.
Qed.

Lemma dkeys_dset d k v :
  dkeys (dset d k v) = if bool_decide (k ∈ dkeys d) then dkeys d else dkeys d ++ [k].
Proof.
  induction d as [|[k0 v0] d IH]; simpl; [done|].
  destruct (bool_decide_reflect (k0 = k)) as [->|Hne]; simpl.
  - rewrite bool_decide_eq_true_2 by left. done.
  - unfold dkeys in *. rewrite IH.
    destruct (decide (k ∈ d.*1)).
    + rewrite !bool_decide_eq_true_2 by set_solver. done.
    + rewrite !bool_decide_eq_false_2 by set_solver. done.
Qed.

Lemma elem_of_dkeys_dset d k v k' : k' ∈ dkeys (dset d k v) <-> k' = k \/ k' ∈ dkeys d.
Proof. rewrite dkeys_dset. case_bool_decide; set_solver. Qed.

Lemma dwf_nil : dwf [].
Proof. constructor. Qed.

Lemma dwf_dset d k v : dwf d -> dwf (dset d k v).
Proof.
  unfold dwf. rewrite dkeys_dset. case_bool_decide; [done|].
  intros Hn. apply NoDup_app. repeat split; [done| |apply NoDup_singleton]. set_solver.
Qed.

Lemma dkeys_ddel_sub d k k' : k' ∈ dkeys (ddel d k) -> k' ∈ dkeys d.
Proof.
  induction d as [|[k0 v0] d IH]; simpl; [done|].
  case_bool_decide; simpl; set_solver.
Qed.

Lemma dwf_ddel d k : dwf d -> dwf (ddel d k).
Proof.
  unfold dwf. induction d as [|[k0 v0] d IH]; simpl; [done|].
  intros Hn. apply NoDup_cons in Hn as [Hni Hn].
  case_bool_decide; simpl; [done|]. constructor; [|auto].
  intros Hin. by apply dkeys_ddel_sub in Hin.
Qed.

Lemma elem_of_dkeys_ddel d k k' :
  dwf d -> k' ∈ dkeys (ddel d k) <-> k' ∈ dkeys d /\ k' <> k.
Proof.
  unfold dwf. induction d as [|[k0 v0] d IH]; simpl; [set_solver|].
  intros Hn. apply NoDup_cons in Hn as [Hni Hn].
  case_bool_decide; simpl; subst.
  - rewrite elem_of_cons. split; [|naive_solver].
    intros Hk. split; [auto|]. intros ->. done.
  - rewrite !elem_of_cons, IH by done. naive_solver.
Qed.

Lemma length_dvals d : length (dvals d) = length d.
Proof. apply length_fmap. Qed.

Lemma dset_fresh d k v : k ∉ dkeys d -> dset d k v = d ++ [(k, v)].
Proof.
  induction d as [|[k0 v0] d IH]; simpl; [done|].
  intros Hni. rewrite bool_decide_eq_false_2 by set_solver. rewrite IH by set_solver. done.
Qed.
End Dict.

(** Sums of an integer dictionary under the updates of the scheduler. *)
Lemma zsum_dset_fresh (d : dict Z) k v :
  k ∉ dkeys d -> zsum (dvals (dset d k v)) = zsum (dvals d) + v.
Proof.
  intros Hni. unfold dvals. rewrite dset_fresh, fmap_app, zsum_app by done.
  unfold zsum at 2. cbn. lia.
Qed.

Lemma zsum_ddel (d : dict Z) k v :
  dget d k = Some v -> zsum (dvals (ddel d k)) = zsum (dvals d) - v.
Proof.
  induction d as [|[k0 v0] d IH]; simpl; [done|].
  case_bool_decide; [intros [= ->]; unfold dvals, zsum; cbn; lia|].
  intros Hg. specialize (IH Hg). unfold dvals, zsum in *. cbn. lia.
Qed.

End PyDict.

Module PyList.

(** [l.remove(x)]: drops the first occurrence. *)
Fixpoint remove_first (x : string) (l : list string) : list string :=
  match l with
  | [] => []
  | y :: l => if bool_decide (y = x) then l else y :: remove_first x l
  end.

Lemma remove_first_perm x l : x ∈ l -> l ≡ₚ x :: remove_first x l.
Proof.
  induction l as [|y l IH]; simpl; [set_solver|].
  case_bool_decide; subst; [done|]. intros Hin.
  assert (x ∈ l) as Hl by set_solver. rewrite (IH Hl) at 1. apply Permutation_swap.
Qed.

Lemma remove_first_notin x l : x ∉ l -> remove_first x l = l.
Proof.
  induction l as [|y l IH]; simpl; [done|]. intros Hni.
  rewrite bool_decide_eq_false_2 by set_solver. f_equal. apply IH. set_solver.
Qed.

Lemma elem_of_remove_first x y l : y ∈ remove_first x l -> y ∈ l.
Proof. induction l as [|z l IH]; simpl; [done|]. case_bool_decide; set_solver. Qed.

Lemma NoDup_remove_first x l : NoDup l -> NoDup (remove_first x l).
Proof.
  induction 1 as [|y l Hni Hn IH]; simpl; [constructor|].
  case_bool_decide; [done|]. constructor; [|done].
  intros Hin. by apply elem_of_remove_first in Hin.
Qed.

Lemma elem_of_remove_first_ne x y l :
  NoDup l -> y ∈ remove_first x l <-> y ∈ l /\ y <> x.
Proof.
  intros Hn. destruct (decide (x ∈ l)) as [Hin|Hni].
  - pose proof (remove_first_perm x l Hin) as Hp. rewrite Hp in Hn.
    apply NoDup_cons in Hn as [Hnx Hn].
    assert (y ∈ l <-> y ∈ x :: remove_first x l) as -> by by rewrite <- Hp.
    rewrite elem_of_cons. naive_solver.
  - rewrite remove_first_notin by done. naive_solver.
Qed.

Lemma length_remove_first x l : x ∈ l -> S (length (remove_first x l)) = length l.
Proof. intros Hin. rewrite (Permutation_length (remove_first_perm x l Hin)). done. Qed.

(** [l.pop()]: the last element and the rest. *)
Fixpoint pop_last {A} (l : list A) : option (list A * A) :=
  match l with
  | [] => None
  | [x] => Some ([], x)
  | x :: l =>
      match pop_last l with
      | Some (l', y) => Some (x :: l', y)
      | None => None
      end
  end.

Lemma pop_last_spec {A} (l l' : list A) x : pop_last l = Some (l', x) <-> l = l' ++ [x].
Proof.
  split.
  - revert l' x; induction l as [|y l IH]; intros l' x; [done|].
    destruct l as [|z l]; [simpl; intros [= <- <-]; done|].
    change (pop_last (y :: z :: l)) with
      (match pop_last (z :: l) with Some (l', w) => Some (y :: l', w) | None => None end).
    destruct (pop_last (z :: l)) as [[l0 w]|] eqn:E; [|done].
    intros [= <- <-]. by rewrite (IH _ _ eq_refl).
  - intros ->. induction l' as [|y l' IH]; [done|].
    simpl. rewrite IH. by destruct l'.
Qed.

Lemma pop_last_None {A} (l : list A) : pop_last l = None <-> l = [].
Proof.
  split; [|by intros ->].
  destruct l as [|y l]; [done|]. intros H.
  destruct (exists_last (l := y :: l) ltac:(done)) as (l' & x & E). rewrite E in H.
  assert (pop_last (l' ++ [x]) = Some (l', x)) by by apply pop_last_spec. congruence.
Qed.

(** [l[a:b]] for [0 <= a <= b]. *)
Definition slice {A} (a b : Z) (l : list A) : list A :=
  take (Z.to_nat b - Z.to_nat a) (drop (Z.to_nat a) l).

(** [l[:n]], a negative [n] counting from the end. *)
Definition slice_to {A} (n : Z) (l : list A) : list A :=
  take (Z.to_nat (if n <? 0 then Z.of_nat (length l) + n else n)) l.

Lemma slice_to_length {A} n (l : list A) :
  0 <= n -> Z.of_nat (length (slice_to n l)) = Z.min n (Z.of_nat (length l)).
Proof. intros Hn. unfold slice_to. destruct (Z.ltb_spec n 0); [lia|]. rewrite length_take. lia. Qed.

Lemma elem_of_slice_to {A} n (l : list A) x : x ∈ slice_to n l -> x ∈ l.
Proof. unfold slice_to. intros Hx. by apply elem_of_take in Hx as (i & Hi%list_elem_of_lookup_2 & _). Qed.

(** Stable [sorted(l, key=...)]: [lt x y] says that the key of [x] is
    strictly smaller. *)
Section Sort.
Context {A : Type} (lt : A -> A -> bool).

Fixpoint insert_by (x : A) (l : list A) : list A :=
  match l with
  | [] => [x]
  | y :: l' => if lt y x then y :: insert_by x l' else x :: y :: l'
  end.

Definition sort_by (l : list A) : list A := foldr insert_by [] l.

Lemma insert_by_perm x l : insert_by x l ≡ₚ x :: l.
Proof.
  induction l as [|y l IH]; simpl; [done|]. destruct (lt y x); [|done].
  rewrite IH. apply Permutation_swap.
Qed.

Lemma sort_by_perm l : sort_by l ≡ₚ l.
Proof. induction l as [|x l IH]; simpl; [done|]. by rewrite insert_by_perm, IH. Qed.

Lemma elem_of_sort_by x l : x ∈ sort_by l <-> x ∈ l.
Proof. by rewrite sort_by_perm. Qed.

(** Sorted for the order "not strictly greater". *)
Definition ordered (l : list A) : Prop := StronglySorted (fun x y => lt y x = false) l.

Lemma insert_by_ordered x l :
  (forall a b c, lt b a = false -> lt c b = false -> lt c a = false) ->
  (forall a b, lt a b = true -> lt b a = false) ->
  ordered l -> ordered (insert_by x l).
Proof.
  intros Htr Has. induction 1 as [|y l Hs IH Hy]; simpl; [repeat constructor|].
  destruct (lt y x) eqn:E.
  - constructor; [done|]. apply Forall_forall. intros z Hz.
    rewrite insert_by_perm in Hz. apply elem_of_cons in Hz as [->|Hz]; [auto|].
    rewrite Forall_forall in Hy; auto.
  - constructor; [by constructor|]. constructor; [done|].
    eapply Forall_impl; [exact Hy|]. simpl. intros z Hz. eapply Htr; eauto.
Qed.

Lemma sort_by_ordered l :
  (forall a b c, lt b a = false -> lt c b = false -> lt c a = false) ->
  (forall a b, lt a b = true -> lt b a = false) ->
  ordered (sort_by l).
Proof.
  intros Htr Has. induction l; simpl; [constructor|]. by apply insert_by_ordered.
Qed.

(** An element left out of the first [n] is preceded by [n] elements that are
    not greater. *)
Lemma sort_by_take_before n l x :
  (forall a b c, lt b a = false -> lt c b = false -> lt c a = false) ->
  (forall a b, lt a b = true -> lt b a = false) ->
  x ∈ l -> x ∉ take n (sort_by l) ->
  length (take n (sort_by l)) = n /\ Forall (fun y => lt x y = false) (take n (sort_by l)).
Proof.
  intros Htr Has Hx Hni.
  pose proof (sort_by_ordered l Htr Has) as Ho.
  rewrite <- elem_of_sort_by in Hx. revert Hx Hni Ho. generalize (sort_by l) as k.
  induction n as [|n IH]; intros k Hx Hni Ho; [split; [by destruct k|constructor]|].
  destruct k as [|y k]; [set_solver|]. simpl in *.
  inversion Ho as [|? ? Ho' Hy]; subst.
  assert (x ∈ k) as Hxk by set_solver.
  destruct (IH k Hxk ltac:(set_solver) Ho') as [Hl Hf]. split; [lia|].
  constructor; [|done]. rewrite Forall_forall in Hy. auto.
Qed.

(** [max(l, key=...)]: the first of the greatest elements. *)
Definition max_by (l : list A) : option A :=
  match l with
  | [] => None
  | x :: l => Some (fold_left (fun m y => if lt m y then y else m) l x)
  end.

Lemma fold_max_by_in x l : fold_left (fun m y => if lt m y then y else m) l x ∈ x :: l.
Proof.
  revert x; induction l as [|y l IH]; intros x; simpl; [left|].
  specialize (IH (if lt x y then y else x)). destruct (lt x y); set_solver.
Qed.

Lemma max_by_in l x : max_by l = Some x -> x ∈ l.
Proof. destruct l as [|y l]; simpl; [done|]. intros [= <-]. apply fold_max_by_in. Qed.
End Sort.

(** ** Sorted lists of integers *)

Definition sortedZ (l : list Z) : list Z := sort_by Z.ltb l.

Lemma sortedZ_ordered l : StronglySorted Z.le (sortedZ l).
Proof.
  rewrite <-(list_fmap_id (sortedZ l)). eapply StronglySorted_fmap; [|apply (sort_by_ordered Z.ltb)]; simpl; lia.
Qed.

Lemma le_nodup_lt l : StronglySorted Z.le l -> NoDup l -> StronglySorted Z.lt l.
Proof.
  induction 1 as [|x l Hs IH Hx]; intros Hnd; [constructor|]. apply NoDup_cons in Hnd as [Hin Hnd].
  constructor; [auto|]. apply Forall_forall. intros y Hy. rewrite Forall_forall in Hx.
  specialize (Hx y Hy). simpl in Hx. assert (x <> y) by (by intros ->). lia.
Qed.

Lemma lt_sorted_nodup l : StronglySorted Z.lt l -> NoDup l.
Proof.
  induction 1 as [|x l Hs IH Hx]; constructor; [|done]. intros Hin.
  rewrite Forall_forall in Hx. specialize (Hx x Hin). simpl in Hx. lia.
Qed.

Lemma length_insert_uniq x l : StronglySorted Z.lt l ->
  length (insert_uniq x l) = (if decide (x ∈ l) then length l else S (length l)).
Proof.
  induction 1 as [|y l Hs IH Hy]; [by destruct (decide (x ∈ [])) as [Hx%elem_of_nil|]|]. cbn [insert_uniq length].
  rewrite Forall_forall in Hy. destruct (Z.ltb_spec x y); [|destruct (Z.eqb_spec x y) as [->|]]; simpl.
  - rewrite decide_False; [done|]. intros [->|Hin]%elem_of_cons; [lia|]. specialize (Hy x Hin). simpl in Hy. lia.
  - by rewrite decide_True by left.
  - rewrite IH. rewrite (decide_ext (x ∈ y :: l) (x ∈ l)); [by destruct (decide _)|]. rewrite elem_of_cons. naive_solver.
Qed.

(** [len(set(l)) == len(l)]. *)
Lemma length_sorted_set l : (length (sorted_set l) <= length l)%nat /\ (length (sorted_set l) = length l <-> NoDup l).
Proof.
  induction l as [|x l [Hle IH]]; simpl; [by split; [|split; [constructor|]]|].
  rewrite length_insert_uniq by apply sorted_set_sorted. rewrite NoDup_cons.
  rewrite (decide_ext (x ∈ sorted_set l) (x ∈ l)) by apply elem_of_sorted_set.
  destruct (decide (x ∈ l)) as [Hin|Hin]; split; [lia| |lia|].
  - split; [lia|]. by intros [? _].
  - rewrite <-IH. split; [intros ?; split; [done|lia]|]. intros [_ ?]. lia.
Qed.

Lemma range_sorted a b : StronglySorted Z.lt (range a b).
Proof.
  unfold range. generalize (b - a). intros n. destruct (Z.le_gt_cases n 0) as [Hn|Hn]; [rewrite seqZ_nil by lia; constructor|].
  rewrite <-(Z2Nat.id n) by lia. generalize (Z.to_nat n). clear. intros k. revert a. induction k as [|k IH]; intros a.
  - constructor.
  - rewrite seqZ_cons by lia. replace (Z.pred (Z.of_nat (S k))) with (Z.of_nat k) by lia.
    constructor; [apply IH|]. apply Forall_forall. intros x Hx. apply elem_of_seqZ in Hx. lia.
Qed.

End PyList.
