(* ===== verification/AcceptanceLength.v ===== *)
(** * Adaptive speculative depth

    [vllm/v1/spec_decode/dynamic/depth_ladder.py] (module [DepthLadder]) and
    [acceptance_length.py] (module [Controller]): the parser of
    VLLM_ADAPTIVE_SPEC_DEPTHS, and the state machine that walks the ladder
    from the acceptance counts of each scheduler step. *)
From S2P Require Export PyLib PyDict PyFloat.

Module DepthLadder.

Definition ADAPTIVE_SPEC_DEPTHS_ENV : string := "VLLM_ADAPTIVE_SPEC_DEPTHS".
Definition ADAPTIVE_SPEC_DEPTHS_DEFAULT : string := "2,4,5".

(** The nested [_parse]: the sorted set of the non-blank tokens' values,
    [None] when a token is not an integer. *)
Definition _parse (t : list ascii) : option (list Z) :=
  let toks := List.filter
    (fun tok => negb (bool_decide (PyStr.strip tok = []))) (PyStr.split "," t) in
  sorted_set <$> mapM PyStr.int_of toks.

Definition in_range (max_num_spec_tokens depth : Z) : bool :=
  (1 <=? depth) && (depth <=? max_num_spec_tokens).

Definition parse_adaptive_spec_depth_ladder
    (getenv : string -> option (list ascii))
    (max_num_spec_tokens : Z) (raw : option (list ascii)) : result (list Z) :=
  if max_num_spec_tokens <=? 0 then Raise ValueError
  else
    let default_text := PyStr.text ADAPTIVE_SPEC_DEPTHS_DEFAULT in
    let raw := match raw with
               | Some r => r
               | None => match getenv ADAPTIVE_SPEC_DEPTHS_ENV with
                         | Some r => r
                         | None => default_text
                         end
               end in
    let depths := match _parse raw with
                  | Some ds => ds
                  | None => match _parse default_text with Some ds => ds | None => [] end
                  end in
    let valid := List.filter (in_range max_num_spec_tokens) depths in
    Ok (sorted_set (max_num_spec_tokens :: valid)).

Lemma in_range_spec m d : in_range m d = true <-> 1 <= d <= m.
Proof. unfold in_range. rewrite andb_true_iff. lia. Qed.

Lemma elem_of_filter_in_range m d l :
  d ∈ List.filter (in_range m) l <-> d ∈ l /\ 1 <= d <= m.
Proof. rewrite list_elem_of_In, filter_In, <- list_elem_of_In, in_range_spec. done. Qed.

(** What a ladder for [m] is: the shape both the scheduler and the graph
    manager rely on. *)
Definition is_ladder (m : Z) (l : list Z) : Prop :=
  StronglySorted Z.lt l /\ m ∈ l /\ Forall (fun d => 1 <= d <= m) l.

Lemma is_ladder_nonempty m l : is_ladder m l -> l <> [].
Proof. intros (_ & Hm & _) ->. set_solver. Qed.

Lemma is_ladder_last m l d : is_ladder m l -> List.last l d = m.
Proof.
  intros (Hs & Hm & Hr). destruct (exists_last (is_ladder_nonempty _ _ (conj Hs (conj Hm Hr))))
    as (l' & x & ->).
  rewrite last_last. rewrite Forall_app in Hr. destruct Hr as [_ Hx].
  inversion Hx as [|? ? Hxm _]; subst.
  apply elem_of_app in Hm as [Hm | Hm]; [|set_solver].
  exfalso. clear Hx. induction l' as [|y l' IH]; [set_solver|].
  simpl in Hs. inversion Hs as [|? ? Hs' Hy]; subst.
  apply elem_of_cons in Hm as [->|Hm]; [|auto].
  rewrite Forall_forall in Hy. specialize (Hy x ltac:(set_solver)). lia.
Qed.

Lemma is_ladder_cons_valid m ds :
  0 < m -> is_ladder m (sorted_set (m :: List.filter (in_range m) ds)).
Proof.
  intros Hm. split; [apply sorted_set_sorted|]. split.
  - rewrite elem_of_sorted_set. left.
  - apply Forall_forall. intros d Hd.
    rewrite elem_of_sorted_set in Hd.
    apply elem_of_cons in Hd as [->|Hd]; [lia|].
    by apply elem_of_filter_in_range in Hd as [_ Hd].
Qed.

(** The parser always answers for a positive maximum, whatever the text:
    the answer is a ladder. *)
Lemma parse_is_ladder getenv m raw :
  0 < m -> exists l, parse_adaptive_spec_depth_ladder getenv m raw = Ok l /\ is_ladder m l.
Proof.
  intros Hm. unfold parse_adaptive_spec_depth_ladder.
  destruct (Z.leb_spec m 0); [lia|]. eexists; split; [done|].
  by apply is_ladder_cons_valid.
Qed.

End DepthLadder.

Module Controller.
Import DepthLadder.

Record AcceptanceLengthUpdate := mkUpdate {
  previous_num_spec_tokens : Z;
  upd_num_spec_tokens : Z;
  mean_num_accepted_tokens : PyFloat.float;
  mean_num_draft_tokens : PyFloat.float;
  raw_target_num_spec_tokens : Z;
  acceptance_ratchet : bool;
  decision_reason : string;
  position_conditional_acceptance : list PyFloat.float;
  upd_observation_window : Z;
  tail_gain_23 : PyFloat.float;
  position_4_gain : PyFloat.float
}.

Record controller := mkController {
  max_num_spec_tokens : Z;
  observation_window : Z;
  depth_ladder : list Z;
  num_spec_tokens : Z;
  num_observation_steps : Z;
  num_drafts : Z;
  num_draft_tokens : Z;
  num_accepted_tokens : Z;
  position_eligible : list Z;
  position_accepted : list Z
}.

Definition zeros (n : Z) : list Z := replicate (Z.to_nat n) 0.

(** [AcceptanceLengthController.__init__]. *)
Definition init (max_num_spec_tokens observation_window : Z)
    (depth_ladder : option (list Z)) : result controller :=
  if max_num_spec_tokens <=? 0 then Raise ValueError
  else if observation_window <=? 0 then Raise ValueError
  else
    let ladder := sorted_set (List.filter (in_range max_num_spec_tokens)
                                (default [] depth_ladder)) in
    let ladder := match ladder with
                  | [] => range 1 (max_num_spec_tokens + 1)
                  | _ => ladder
                  end in
    let ladder := if List.last ladder 0 =? max_num_spec_tokens then ladder
                  else ladder ++ [max_num_spec_tokens] in
    Ok (mkController max_num_spec_tokens observation_window ladder
          (List.hd 0 ladder) 0 0 0 0
          (zeros max_num_spec_tokens) (zeros max_num_spec_tokens)).

(** [_reset_window]. *)
Definition _reset_window (c : controller) : controller :=
  mkController (max_num_spec_tokens c) (observation_window c) (depth_ladder c)
    (num_spec_tokens c) 0 0 0 0
    (zeros (max_num_spec_tokens c)) (zeros (max_num_spec_tokens c)).

Definition set_num_spec_tokens (k : Z) (c : controller) : controller :=
  mkController (max_num_spec_tokens c) (observation_window c) (depth_ladder c) k
    (num_observation_steps c) (num_drafts c) (num_draft_tokens c)
    (num_accepted_tokens c) (position_eligible c) (position_accepted c).

(** The four counters incremented by a non-empty batch. *)
Definition add_counts (drafts draft_tokens accepted : Z) (c : controller) : controller :=
  mkController (max_num_spec_tokens c) (observation_window c) (depth_ladder c)
    (num_spec_tokens c) (num_observation_steps c + 1) (num_drafts c + drafts)
    (num_draft_tokens c + draft_tokens) (num_accepted_tokens c + accepted)
    (position_eligible c) (position_accepted c).

Definition set_positions (el ac : list Z) (c : controller) : controller :=
  mkController (max_num_spec_tokens c) (observation_window c) (depth_ladder c)
    (num_spec_tokens c) (num_observation_steps c) (num_drafts c)
    (num_draft_tokens c) (num_accepted_tokens c) el ac.

(** The loop over [zip(position_eligible, position_accepted)]: the vectors
    already updated are kept when a later entry is invalid. *)
Fixpoint add_positions (el ac : list Z) (del dac : list Z)
    : list Z * list Z * option pyexn :=
  match del, dac with
  | e :: del', a :: dac' =>
      if (e <? 0) || (a <? 0) || (e <? a) then (el, ac, Some ValueError)
      else match el, ac with
           | e0 :: el', a0 :: ac' =>
               let '(el'', ac'', err) := add_positions el' ac' del' dac' in
               (e0 + e :: el'', a0 + a :: ac'', err)
           | _, _ => (el, ac, Some IndexError)
           end
  | _, _ => (el, ac, None)
  end.

(** The block under [if position_eligible is not None or ...]. *)
Definition observe_positions (c : controller) (pe pa : option (list Z))
    : controller * option pyexn :=
  match pe, pa with
  | None, None => (c, None)
  | Some del, Some dac =>
      if negb (Nat.eqb (length del) (length dac)) then (c, Some ValueError)
      else if max_num_spec_tokens c <? Z.of_nat (length del) then (c, Some ValueError)
      else
        let '(el, ac, err) :=
          add_positions (position_eligible c) (position_accepted c) del dac in
        (set_positions el ac c, err)
  | _, _ => (c, Some ValueError)
  end.

Definition effective_observation_window (c : controller) : Z :=
  if num_spec_tokens c =? List.hd 0 (depth_ladder c) then observation_window c
  else Z.max 1 (observation_window c / 2).

Definition at_pos (i : nat) (l : list Z) : Z := nth i l 0.

Definition tail_gain (c : controller) : PyFloat.float :=
  if negb (num_drafts c =? 0) && (4 <=? Z.of_nat (length (position_accepted c)))
  then PyFloat.truediv (at_pos 2 (position_accepted c) + at_pos 3 (position_accepted c))
         (num_drafts c)
  else S754_zero false.

Definition p4_gain (c : controller) : PyFloat.float :=
  if negb (num_drafts c =? 0) && (5 <=? Z.of_nat (length (position_accepted c)))
  then PyFloat.truediv (at_pos 4 (position_accepted c)) (num_drafts c)
  else S754_zero false.

(** [max((d for d in ladder if d <= bound), default=ladder[0])]. *)
Definition largest_rung (ladder : list Z) (bound : Z) : Z :=
  match List.filter (fun d => d <=? bound) ladder with
  | [] => List.hd 0 ladder
  | d :: ds => fold_left Z.max ds d
  end.

(** The target depth, the ratchet flag and the reason. *)
Definition decide_target (c : controller) (mean_acc mean_draft : PyFloat.float)
    : result (Z * bool * string) :=
  let tail := tail_gain c in
  let p4 := p4_gain c in
  let k := num_spec_tokens c in
  if bool_decide (depth_ladder c = [2; 4]) || bool_decide (depth_ladder c = [2; 4; 5]) then
    if k =? 2 then
      let head := if PyFloat.truthy mean_draft then PyFloat.fdiv mean_acc mean_draft
                  else S754_zero false in
      let target := if PyFloat.fge head (PyFloat.lit 85 100) then 4 else 2 in
      Ok (target, k <? target,
          if target =? 4 then "probe_k4"%string else "k2_baseline"%string)
    else if k =? 4 then
      if bool_decide (depth_ladder c = [2; 4; 5]) && PyFloat.fge tail (PyFloat.lit 70 100)
      then Ok (5, true, "probe_k5"%string)
      else if PyFloat.fge tail (PyFloat.lit 35 100) then Ok (4, false, "k4_hold"%string)
      else Ok (2, false, "k4_tail_reject"%string)
    else
      if PyFloat.fge p4 (PyFloat.lit 15 100) then Ok (5, false, "k5_hold"%string)
      else if PyFloat.fge tail (PyFloat.lit 35 100) then Ok (4, false, "k5_p4_reject"%string)
      else Ok (2, false, "k5_tail_reject"%string)
  else
    match PyFloat.floor (PyFloat.fadd mean_acc (PyFloat.lit 15 10)) with
    | None => Raise OverflowError
    | Some f =>
        let formula := Z.min (max_num_spec_tokens c) (Z.max 1 f) in
        Ok (largest_rung (depth_ladder c) formula, false, "formula"%string)
    end.

(** [observe_batch]: the object after the call, and what the call returns or
    raises.  A raise in the position block leaves the counters incremented. *)
Definition observe_batch (c : controller) (drafts draft_tokens accepted : Z)
    (pe pa : option (list Z))
    : controller * result (option AcceptanceLengthUpdate) :=
  if (drafts <? 0) || (draft_tokens <? 0) || (accepted <? 0) then (c, Raise ValueError)
  else if draft_tokens <? accepted then (c, Raise ValueError)
  else if drafts =? 0 then
    if negb (draft_tokens =? 0) || negb (accepted =? 0) then (c, Raise ValueError)
    else (c, Ok None)
  else
    let '(c1, err) := observe_positions (add_counts drafts draft_tokens accepted c) pe pa in
    match err with
    | Some e => (c1, Raise e)
    | None =>
        let eff := effective_observation_window c1 in
        if num_observation_steps c1 <? eff then (c1, Ok None)
        else
          let mean_acc := PyFloat.truediv (num_accepted_tokens c1) (num_drafts c1) in
          let mean_draft := PyFloat.truediv (num_draft_tokens c1) (num_drafts c1) in
          let rates := zip_with (fun e a => PyFloat.ratio a e)
                         (position_eligible c1) (position_accepted c1) in
          match decide_target c1 mean_acc mean_draft with
          | Raise e => (c1, Raise e)
          | Ok (target, ratchet, reason) =>
              let c2 := _reset_window (set_num_spec_tokens target c1) in
              (c2, Ok (Some (mkUpdate (num_spec_tokens c1) target mean_acc mean_draft
                               target ratchet reason rates eff (tail_gain c1) (p4_gain c1))))
          end
    end.

(** ** The invariant of the controller *)

(** Per-position counts: accepted never exceeds eligible. *)
Definition positions_ok (n : Z) (el ac : list Z) : Prop :=
  Z.of_nat (length el) = n /\ Forall2 (fun e a => 0 <= a <= e) el ac.

Record inv (c : controller) : Prop := mkInv {
  inv_max : 0 < max_num_spec_tokens c;
  inv_window : 0 < observation_window c;
  inv_ladder : is_ladder (max_num_spec_tokens c) (depth_ladder c);
  inv_depth : num_spec_tokens c ∈ depth_ladder c;
  inv_steps : 0 <= num_observation_steps c <= num_drafts c;
  inv_tokens : 0 <= num_accepted_tokens c <= num_draft_tokens c;
  inv_positions : positions_ok (max_num_spec_tokens c) (position_eligible c) (position_accepted c)
}.

Lemma zeros_ok n : 0 <= n -> positions_ok n (zeros n) (zeros n).
Proof.
  intros Hn. unfold positions_ok, zeros. rewrite length_replicate. split; [lia|].
  apply Forall2_replicate; lia.
Qed.
#[local] Hint Resolve zeros_ok : py.

Lemma range_is_ladder m : 0 < m -> is_ladder m (range 1 (m + 1)).
Proof.
  intros Hm. split; [|split].
  - apply PyList.range_sorted.
  - apply elem_of_range; lia.
  - apply Forall_forall. intros x Hx. apply elem_of_range in Hx. lia.
Qed.

Lemma sorted_snoc_lt l m :
  StronglySorted Z.lt l -> Forall (fun d => d < m) l -> StronglySorted Z.lt (l ++ [m]).
Proof.
  induction 1 as [|x l Hs IH Hx]; intros Hall; simpl; [repeat constructor|].
  inversion Hall; subst. constructor; [auto|].
  apply Forall_app. split; [done|]. repeat constructor; lia.
Qed.

Lemma close_ladder m l :
  l <> [] -> StronglySorted Z.lt l -> Forall (fun d => 1 <= d <= m) l ->
  is_ladder m (if List.last l 0 =? m then l else l ++ [m]).
Proof.
  intros Hne Hs Hr. destruct (Z.eqb_spec (List.last l 0) m) as [Hl|Hl].
  - split; [done|]. split; [|done].
    destruct (exists_last Hne) as (l' & x & ->). rewrite last_last in Hl. set_solver.
  - assert (m ∉ l) as Hni.
    { intros Hin. apply Hl. by apply is_ladder_last. }
    rewrite Forall_forall in Hr.
    assert (1 <= m).
    { destruct l as [|x l]; [done|]. specialize (Hr x ltac:(left)). lia. }
    split; [|split].
    + apply sorted_snoc_lt; [done|]. apply Forall_forall. intros d Hd.
      specialize (Hr d Hd). assert (d <> m) by naive_solver. lia.
    + set_solver.
    + apply Forall_forall. intros d. rewrite elem_of_app, list_elem_of_singleton.
      intros [Hd| ->]; [auto|lia].
Qed.

Lemma init_ladder_is_ladder m l :
  0 < m ->
  is_ladder m
    (let ladder := sorted_set (List.filter (in_range m) l) in
     let ladder := match ladder with [] => range 1 (m + 1) | _ => ladder end in
     if List.last ladder 0 =? m then ladder else ladder ++ [m]).
Proof.
  intros Hm. cbv zeta.
  destruct (sorted_set (List.filter (in_range m) l)) as [|d ds] eqn:Hl.
  - rewrite (is_ladder_last m) by by apply range_is_ladder.
    rewrite Z.eqb_refl. by apply range_is_ladder.
  - apply close_ladder; [done| |].
    + rewrite <- Hl. apply sorted_set_sorted.
    + rewrite <- Hl. apply Forall_forall. intros x.
      rewrite elem_of_sorted_set, elem_of_filter_in_range. naive_solver.
Qed.

Lemma hd_in (l : list Z) : l <> [] -> List.hd 0 l ∈ l.
Proof. destruct l; [done|]. intros _; left. Qed.

Lemma init_inv m w l c : init m w l = Ok c -> inv c.
Proof.
  unfold init. destruct (Z.leb_spec m 0); [done|]. destruct (Z.leb_spec w 0); [done|].
  intros [= <-].
  pose proof (init_ladder_is_ladder m (default [] l) ltac:(lia)) as Hl.
  constructor; simpl; auto with py lia.
  apply hd_in. by eapply is_ladder_nonempty.
Qed.

(** A ladder is kept as it is by the constructor. *)
Lemma init_keeps_ladder m w l :
  0 < w -> is_ladder m l -> exists c, init m w (Some l) = Ok c /\ depth_ladder c = l /\
    max_num_spec_tokens c = m.
Proof.
  intros Hw Hl. pose proof Hl as (Hs & Hm & Hr).
  assert (0 < m) by (rewrite Forall_forall in Hr; specialize (Hr m Hm); lia).
  unfold init. destruct (Z.leb_spec m 0); [lia|]. destruct (Z.leb_spec w 0); [lia|].
  eexists; split; [done|]. split; [|done]. simpl.
  assert (sorted_set (List.filter (in_range m) l) = l) as ->.
  { apply strict_sorted_unique; [apply sorted_set_sorted|done|]. intros x.
    rewrite elem_of_sorted_set, elem_of_filter_in_range.
    rewrite Forall_forall in Hr. naive_solver. }
  pose proof (is_ladder_nonempty _ _ Hl). destruct l as [|x l]; [done|].
  by rewrite (is_ladder_last m), Z.eqb_refl.
Qed.

Lemma add_positions_ok el ac del dac :
  Forall2 (fun e a => 0 <= a <= e) el ac ->
  let '(el', ac', _) := add_positions el ac del dac in
  length el' = length el /\ Forall2 (fun e a => 0 <= a <= e) el' ac'.
Proof.
  intros H; revert del dac; induction H as [|e a el ac Hea H IH]; intros del dac;
    destruct del as [|de del], dac as [|da dac]; simpl; try break_if; auto.
  bool_prop. specialize (IH del dac).
  destruct (add_positions el ac del dac) as [[el' ac'] err]. simpl.
  destruct IH as [IHl IH]. split; [lia|]. constructor; [lia|done].
Qed.

Lemma observe_positions_inv c pe pa : inv c -> inv (fst (observe_positions c pe pa)).
Proof.
  intros Hc. pose proof (inv_positions _ Hc) as [Hl Hf].
  destruct pe as [del|], pa as [dac|]; simpl; auto.
  repeat break_if; simpl; auto.
  pose proof (add_positions_ok _ _ del dac Hf) as Hp.
  destruct (add_positions _ _ _ _) as [[el ac] err]. simpl.
  destruct Hp as [Hlen Hp]. destruct Hc. constructor; simpl; auto. split; [lia|done].
Qed.

Lemma observe_positions_fields c pe pa :
  let c' := fst (observe_positions c pe pa) in
  num_observation_steps c' = num_observation_steps c /\
  num_drafts c' = num_drafts c /\
  num_draft_tokens c' = num_draft_tokens c /\
  num_accepted_tokens c' = num_accepted_tokens c /\
  num_spec_tokens c' = num_spec_tokens c /\
  depth_ladder c' = depth_ladder c /\
  observation_window c' = observation_window c /\
  max_num_spec_tokens c' = max_num_spec_tokens c.
Proof.
  unfold observe_positions.
  destruct pe as [del|], pa as [dac|]; simpl; repeat break_if; simpl; auto 10.
  destruct (add_positions _ _ _ _) as [[el ac] err]; simpl; auto 10.
Qed.

Lemma add_counts_inv c d t a :
  inv c -> 0 < d -> 0 <= a <= t -> inv (add_counts d t a c).
Proof. intros [] Hd Ha. constructor; simpl; auto; lia. Qed.

Lemma fold_max_in (d : Z) ds : fold_left Z.max ds d ∈ d :: ds.
Proof.
  revert d; induction ds as [|x ds IH]; intros d; simpl; [left|].
  specialize (IH (Z.max d x)). set_unfold. destruct IH as [H|H]; [|auto].
  rewrite H. destruct (Z.max_spec d x) as [[_ ->]|[_ ->]]; auto.
Qed.

Lemma largest_rung_in l b : l <> [] -> largest_rung l b ∈ l.
Proof.
  intros Hne. unfold largest_rung.
  destruct (List.filter (fun d => d <=? b) l) as [|d ds] eqn:Hf; [by apply hd_in|].
  pose proof (fold_max_in d ds) as Hin. rewrite <- Hf in Hin.
  apply list_elem_of_In, filter_In in Hin as [Hin _]. by apply list_elem_of_In.
Qed.

(** Membership in an explicit list. *)
Ltac in_list := repeat first [left; reflexivity | right].

(** Every decision lands on a rung. *)
Lemma decide_target_in c ma md k r s :
  inv c -> decide_target c ma md = Ok (k, r, s) -> k ∈ depth_ladder c.
Proof.
  intros Hc. unfold decide_target. pose proof (inv_depth _ Hc) as Hd.
  destruct (bool_decide (depth_ladder c = [2; 4])) eqn:E1;
    destruct (bool_decide (depth_ladder c = [2; 4; 5])) eqn:E2; bool_prop;
    cbn [orb andb].
  - congruence.
  - rewrite E1 in *. repeat break_if; intros [= <- <- <-]; first [solve [clear; in_list]|bool_prop; set_solver].
  - rewrite E2 in *. repeat break_if; intros [= <- <- <-]; first [solve [clear; in_list]|bool_prop; set_solver].
  - destruct (PyFloat.floor _); [|done]. intros [= <- <- <-].
    apply largest_rung_in. eapply is_ladder_nonempty, (inv_ladder _ Hc).
Qed.

Lemma decided_inv c k :
  inv c -> k ∈ depth_ladder c -> inv (_reset_window (set_num_spec_tokens k c)).
Proof. intros [] Hk. constructor; simpl; auto with py lia. Qed.

Lemma observe_batch_inv c d t a pe pa : inv c -> inv (fst (observe_batch c d t a pe pa)).
Proof.
  intros Hc. unfold observe_batch.
  repeat break_if; simpl; auto; bool_prop; destruct_or?; bool_prop.
  pose proof (observe_positions_inv (add_counts d t a c) pe pa
                ltac:(apply add_counts_inv; auto; lia)) as Hpos.
  destruct (observe_positions _ _ _) as [c1 err]. simpl in Hpos.
  destruct err; simpl; [done|]. break_if; simpl; [done|].
  destruct (decide_target _ _ _) as [[[k r] s]|] eqn:Hk; simpl; [|done].
  apply decided_inv; eauto using decide_target_in.
Qed.

Lemma observe_batch_ladder c d t a pe pa :
  depth_ladder (fst (observe_batch c d t a pe pa)) = depth_ladder c.
Proof.
  unfold observe_batch. repeat break_if; simpl; auto.
  pose proof (observe_positions_fields (add_counts d t a c) pe pa) as Hpos.
  destruct (observe_positions _ _ _) as [c1 err]. simpl in Hpos.
  destruct Hpos as (_ & _ & _ & _ & _ & Hpos & _).
  destruct err; simpl; [done|]. break_if; simpl; [done|].
  destruct (decide_target _ _ _) as [[[k r] s]|]; simpl; done.
Qed.

(** ** Runs of the controller *)

(** The keyword arguments of one call of [observe_batch]. *)
Record batch := mkBatch {
  b_drafts : Z;
  b_draft_tokens : Z;
  b_accepted : Z;
  b_eligible : option (list Z);
  b_accepted_pos : option (list Z)
}.

Definition call (c : controller) (b : batch) : controller * result (option AcceptanceLengthUpdate) :=
  observe_batch c (b_drafts b) (b_draft_tokens b) (b_accepted b) (b_eligible b) (b_accepted_pos b).

(** The object after a sequence of calls, whether or not they raised. *)
Definition run (c : controller) (bs : list batch) : controller :=
  fold_left (fun c b => fst (call c b)) bs c.

Lemma run_inv c bs : inv c -> inv (run c bs) /\ depth_ladder (run c bs) = depth_ladder c.
Proof.
  revert c; induction bs as [|b bs IH]; intros c Hc; simpl; [done|].
  destruct (IH (fst (call c b))) as [H1 H2]; [by apply observe_batch_inv|].
  split; [done|]. rewrite H2. apply observe_batch_ladder.
Qed.

(** A batch [observe_batch] accepts when the controller's maximum is [m]. *)
Definition valid_batch (m : Z) (b : batch) : Prop :=
  0 < b_drafts b /\ 0 <= b_accepted b <= b_draft_tokens b /\
  match b_eligible b, b_accepted_pos b with
  | None, None => True
  | Some e, Some a => Z.of_nat (length e) <= m /\ Forall2 (fun e a => 0 <= a <= e) e a
  | _, _ => False
  end.

Lemma add_positions_total el ac del dac :
  length el = length ac -> (length del <= length el)%nat ->
  Forall2 (fun e a => 0 <= a <= e) del dac ->
  snd (add_positions el ac del dac) = None.
Proof.
  intros Hl Hd Hf. revert el ac Hl Hd.
  induction Hf as [|e a del dac Hea Hf IH]; intros el ac Hl Hd; simpl; [by destruct el|].
  destruct el as [|e0 el], ac as [|a0 ac]; simpl in *; try lia.
  break_if; bool_prop; [destruct_or?; bool_prop; lia|].
  specialize (IH el ac ltac:(lia) ltac:(lia)).
  by destruct (add_positions el ac del dac) as [[? ?] ?].
Qed.

Lemma observe_positions_total c b :
  inv c -> valid_batch (max_num_spec_tokens c) b ->
  snd (observe_positions c (b_eligible b) (b_accepted_pos b)) = None.
Proof.
  intros Hc (Hd & Ha & Hp). pose proof (inv_positions _ Hc) as [Hl Hf].
  unfold observe_positions.
  destruct (b_eligible b) as [e|], (b_accepted_pos b) as [a|]; try done.
  destruct Hp as [Hle Hp]. pose proof (Forall2_length _ _ _ Hp) as Hlen.
  pose proof (Forall2_length _ _ _ Hf) as Hlen'.
  rewrite Hlen, Nat.eqb_refl. simpl.
  destruct (Z.ltb_spec (max_num_spec_tokens c) (Z.of_nat (length a))); [lia|].
  pose proof (add_positions_total (position_eligible c) (position_accepted c) e a
                Hlen' ltac:(lia) Hp) as Ht.
  by destruct (add_positions _ _ _ _) as [[? ?] ?].
Qed.

Definition window_of (c : controller) : Z := effective_observation_window c.

(** The counters of a window that saw the batches [bs]. *)
Definition counts_after (c0 c : controller) (bs : list batch) : Prop :=
  num_observation_steps c = num_observation_steps c0 + Z.of_nat (length bs) /\
  num_drafts c = num_drafts c0 + zsum (b_drafts <$> bs) /\
  num_draft_tokens c = num_draft_tokens c0 + zsum (b_draft_tokens <$> bs) /\
  num_accepted_tokens c = num_accepted_tokens c0 + zsum (b_accepted <$> bs) /\
  num_spec_tokens c = num_spec_tokens c0 /\
  depth_ladder c = depth_ladder c0 /\
  observation_window c = observation_window c0 /\
  max_num_spec_tokens c = max_num_spec_tokens c0.

(** A valid call either accumulates or closes the window, by the step count. *)
Lemma call_valid c b :
  inv c -> valid_batch (max_num_spec_tokens c) b ->
  exists c1, counts_after c c1 [b] /\ inv c1 /\
    call c b =
      if num_observation_steps c1 <? window_of c then (c1, Ok None)
      else let ma := PyFloat.truediv (num_accepted_tokens c1) (num_drafts c1) in
           let md := PyFloat.truediv (num_draft_tokens c1) (num_drafts c1) in
           match decide_target c1 ma md with
           | Raise e => (c1, Raise e)
           | Ok (k, r, s) =>
               (_reset_window (set_num_spec_tokens k c1),
                Ok (Some (mkUpdate (num_spec_tokens c1) k ma md k r s
                  (zip_with (fun e a => PyFloat.ratio a e)
                     (position_eligible c1) (position_accepted c1))
                  (window_of c) (tail_gain c1) (p4_gain c1))))
           end.
Proof.
  intros Hc Hv. pose proof Hv as (Hd & Ha & Hp).
  set (ca := add_counts (b_drafts b) (b_draft_tokens b) (b_accepted b) c).
  assert (inv ca) as Hca by (apply add_counts_inv; auto; lia).
  pose proof (observe_positions_total ca b Hca Hv) as Ht.
  pose proof (observe_positions_fields ca (b_eligible b) (b_accepted_pos b)) as Hpos.
  pose proof (observe_positions_inv ca (b_eligible b) (b_accepted_pos b) Hca) as Hi.
  exists (fst (observe_positions ca (b_eligible b) (b_accepted_pos b))).
  unfold call, observe_batch. fold ca.
  destruct (observe_positions ca _ _) as [c1 err]. simpl in *. subst err.
  destruct Hpos as (H1 & H2 & H3 & H4 & H5 & H6 & H7 & H8).
  subst ca. simpl in *.
  split; [unfold counts_after; simpl; repeat split; lia || congruence|]. split; [done|].
  destruct (Z.ltb_spec (b_drafts b) 0); [lia|].
  destruct (Z.ltb_spec (b_draft_tokens b) 0); [lia|].
  destruct (Z.ltb_spec (b_accepted b) 0); [lia|].
  destruct (Z.ltb_spec (b_draft_tokens b) (b_accepted b)); [lia|].
  destruct (Z.eqb_spec (b_drafts b) 0); [lia|]. simpl.
  assert (effective_observation_window c1 = window_of c) as ->.
  { unfold window_of, effective_observation_window. by rewrite H5, H6, H7. }
  done.
Qed.

Lemma counts_after_cons c0 c1 c b bs :
  counts_after c0 c1 [b] -> counts_after c1 c bs -> counts_after c0 c (b :: bs).
Proof.
  intros (A1&A2&A3&A4&A5&A6&A7&A8) (B1&B2&B3&B4&B5&B6&B7&B8).
  unfold counts_after; rewrite !fmap_cons in *; simpl in *. repeat split; first [lia|congruence].
Qed.

Lemma window_of_counts c0 c bs : counts_after c0 c bs -> window_of c = window_of c0.
Proof.
  intros (_&_&_&_&H5&H6&H7&_). unfold window_of, effective_observation_window.
  by rewrite H5, H6, H7.
Qed.

(** Inside the window nothing is decided and every counter is a sum. *)
Lemma run_below_window c bs :
  inv c -> Forall (valid_batch (max_num_spec_tokens c)) bs ->
  num_observation_steps c + Z.of_nat (length bs) < window_of c ->
  inv (run c bs) /\ counts_after c (run c bs) bs.
Proof.
  revert c; induction bs as [|b bs IH]; intros c Hc Hv Hlt; simpl.
  { split; [done|]. unfold counts_after; simpl. repeat split; lia. }
  apply Forall_cons in Hv as [Hb Hv].
  destruct (call_valid c b Hc Hb) as (c1 & Hcnt & Hi & Heq).
  pose proof Hcnt as (Hs & _ & _ & _ & _ & _ & _ & Hm). simpl in Hs, Hlt.
  rewrite Heq. destruct (Z.ltb_spec (num_observation_steps c1) (window_of c)); [|lia].
  pose proof (window_of_counts _ _ _ Hcnt) as Hw.
  destruct (IH c1 Hi) as [H1 H2]; [by rewrite Hm|lia|].
  split; [done|]. by eapply counts_after_cons.
Qed.

(** Any call, valid or not, keeps the depth or closes the window with a
    decision taken on the same depth and ladder. *)
Lemma call_shape c b :
  exists c1, num_spec_tokens c1 = num_spec_tokens c /\ depth_ladder c1 = depth_ladder c /\
    ((fst (call c b) = c1 /\ match snd (call c b) with Ok (Some _) => False | _ => True end) \/
     exists k r s u,
       decide_target c1 (PyFloat.truediv (num_accepted_tokens c1) (num_drafts c1))
         (PyFloat.truediv (num_draft_tokens c1) (num_drafts c1)) = Ok (k, r, s) /\
       fst (call c b) = _reset_window (set_num_spec_tokens k c1) /\
       snd (call c b) = Ok (Some u) /\ upd_num_spec_tokens u = k /\ acceptance_ratchet u = r).
Proof.
  unfold call, observe_batch.
  repeat (break_if; [exists c; simpl; auto; fail|]).
  break_if; [break_if; exists c; simpl; auto|].
  pose proof (observe_positions_fields
    (add_counts (b_drafts b) (b_draft_tokens b) (b_accepted b) c)
    (b_eligible b) (b_accepted_pos b)) as Hpos.
  destruct (observe_positions _ _ _) as [c1 err]. simpl in Hpos.
  destruct Hpos as (_ & _ & _ & _ & H5 & H6 & _). exists c1. do 2 (split; [done|]).
  destruct err; simpl; [by left|]. break_if; simpl; [by left|].
  destruct (decide_target _ _ _) as [[[k r] s]|]; simpl; [|by left].
  right. do 4 eexists. split; [done|]. split; [done|]. split; [done|]. done.
Qed.

Definition production_ladder (l : list Z) : Prop := l = [2; 4] \/ l = [2; 4; 5].

Lemma decide_target_production c ma md :
  production_ladder (depth_ladder c) -> exists r, decide_target c ma md = Ok r.
Proof.
  intros [H|H]; unfold decide_target; rewrite H; simpl; repeat break_if; eauto.
Qed.

(** ** Properties *)

(** Parser: for every positive maximum, environment and text the parser
    returns, without raising, the strictly increasing list of exactly the
    in-range tokens of the text and the maximum; a text with a token that is
    not an integer stands for the default "2,4,5". *)
Theorem parse_ladder_spec getenv m raw :
  0 < m ->
  let text := default (default (PyStr.text ADAPTIVE_SPEC_DEPTHS_DEFAULT)
                         (getenv ADAPTIVE_SPEC_DEPTHS_ENV)) raw in
  exists l, parse_adaptive_spec_depth_ladder getenv m raw = Ok l /\
    StronglySorted Z.lt l /\
    (forall d, d ∈ l <->
       d = m \/ (1 <= d <= m /\
         match mapM PyStr.int_of (List.filter
                 (fun tok => negb (bool_decide (PyStr.strip tok = []))) (PyStr.split "," text)) with
         | Some ds => d ∈ ds
         | None => d ∈ [2; 4; 5]
         end)).
Proof.
  intros Hm text. unfold parse_adaptive_spec_depth_ladder.
  destruct (Z.leb_spec m 0); [lia|].
  eexists; split; [done|]. split; [apply sorted_set_sorted|]. intros d.
  rewrite elem_of_sorted_set, elem_of_cons, elem_of_filter_in_range.
  change (match raw with Some r => r | None => match getenv ADAPTIVE_SPEC_DEPTHS_ENV with
            Some r => r | None => PyStr.text ADAPTIVE_SPEC_DEPTHS_DEFAULT end end) with text.
  unfold _parse at 1.
  destruct (mapM PyStr.int_of _) as [ds|]; simpl;
    [rewrite elem_of_sorted_set | change (_parse (PyStr.text ADAPTIVE_SPEC_DEPTHS_DEFAULT))
                                    with (Some [2; 4; 5])]; tauto.
Qed.

Lemma parse_ladder_spec_witness :
  exists l, parse_adaptive_spec_depth_ladder (fun _ => None) 5
    (Some (PyStr.text " 4,,9, 2 ")) = Ok l /\ StronglySorted Z.lt l.
Proof.
  destruct (parse_ladder_spec (fun _ => None) 5 (Some (PyStr.text " 4,,9, 2 ")) ltac:(lia))
    as (l & H1 & H2 & _).
  exists l. split; assumption.
Defined.

(** C11 (safety): a controller built from the parsed ladder stays on it.
    Whatever calls follow, those that raise included, the depth it hands to
    the scheduler is a rung of the parsed ladder and lies in [1, max], and
    its per-position counts stay consistent. *)
Theorem depth_always_a_rung getenv m w raw lad c0 bs :
  parse_adaptive_spec_depth_ladder getenv m raw = Ok lad ->
  init m w (Some lad) = Ok c0 ->
  let c := run c0 bs in
  depth_ladder c = lad /\ num_spec_tokens c ∈ lad /\ 1 <= num_spec_tokens c <= m /\
  Forall2 (fun e a => 0 <= a <= e) (position_eligible c) (position_accepted c).
Proof.
  intros Hp Hi c.
  assert (0 < m) as Hm by (unfold init in Hi; destruct (Z.leb_spec m 0); [done|lia]).
  assert (0 < w) as Hw.
  { unfold init in Hi. destruct (m <=? 0); [done|]. destruct (Z.leb_spec w 0); [done|lia]. }
  destruct (parse_is_ladder getenv m raw Hm) as (l & Hp' & Hl).
  rewrite Hp in Hp'. injection Hp' as <-.
  destruct (init_keeps_ladder m w lad Hw Hl) as (c' & Hi' & Hlad & Hmax).
  rewrite Hi in Hi'. injection Hi' as <-.
  destruct (run_inv c0 bs (init_inv _ _ _ _ Hi)) as [Hc Hl2]. fold c in Hc, Hl2.
  pose proof (inv_depth _ Hc) as Hd. rewrite Hl2, Hlad in *.
  repeat split; auto; try apply (inv_positions _ Hc);
    destruct Hl as (_ & _ & Hr); rewrite Forall_forall in Hr; by apply Hr.
Qed.

Lemma depth_always_a_rung_witness :
  exists c0, init 5 1 (Some [2; 4; 5]) = Ok c0 /\
    num_spec_tokens (run c0 [mkBatch 1 2 2 None None]) ∈ [2; 4; 5].
Proof.
  eexists. split; [reflexivity|].
  refine (proj1 (proj2 (depth_always_a_rung (fun _ => None) 5 1 (Some (PyStr.text "2,4"))
            [2; 4; 5] _ [mkBatch 1 2 2 None None] _ _))); vm_compute; reflexivity.
Defined.

(** Window: a fresh window on a production ladder decides on exactly
    its last batch.  With [n] valid batches, [n] the effective window, the
    first [n - 1] calls change no depth, and the [n]-th returns an update whose
    means are the quotients of the totals of all [n] batches, moves to the
    depth it reports, and opens an empty window. *)
Theorem window_decides_on_last_batch c bs b :
  inv c -> num_observation_steps c = 0 -> num_drafts c = 0 ->
  num_draft_tokens c = 0 -> num_accepted_tokens c = 0 ->
  production_ladder (depth_ladder c) ->
  Forall (valid_batch (max_num_spec_tokens c)) (bs ++ [b]) ->
  Z.of_nat (length (bs ++ [b])) = effective_observation_window c ->
  num_spec_tokens (run c bs) = num_spec_tokens c /\
  exists u, snd (call (run c bs) b) = Ok (Some u) /\
    mean_num_accepted_tokens u =
      PyFloat.truediv (zsum (b_accepted <$> bs ++ [b])) (zsum (b_drafts <$> bs ++ [b])) /\
    mean_num_draft_tokens u =
      PyFloat.truediv (zsum (b_draft_tokens <$> bs ++ [b])) (zsum (b_drafts <$> bs ++ [b])) /\
    previous_num_spec_tokens u = num_spec_tokens c /\
    let c' := run c (bs ++ [b]) in
    num_spec_tokens c' = upd_num_spec_tokens u /\ num_observation_steps c' = 0 /\
    num_drafts c' = 0 /\ num_draft_tokens c' = 0 /\ num_accepted_tokens c' = 0.
Proof.
  intros Hc Z1 Z2 Z3 Z4 Hlad Hv Hn. rewrite length_app in Hn. simpl in Hn.
  apply Forall_app in Hv as [Hv Hb]. apply Forall_cons in Hb as [Hb _].
  destruct (run_below_window c bs Hc Hv) as [Hi Hcnt]; [unfold window_of; lia|].
  pose proof (window_of_counts _ _ _ Hcnt) as Hw. unfold window_of in Hw.
  destruct Hcnt as (C1 & C2 & C3 & C4 & C5 & C6 & C7 & C8).
  split; [done|].
  destruct (call_valid (run c bs) b Hi) as (c1 & (D1&D2&D3&D4&D5&D6&D7&D8) & Hi1 & Heq);
    [by rewrite C8|].
  assert (run c (bs ++ [b]) = fst (call (run c bs) b)) as -> by apply fold_left_app.
  rewrite Heq. unfold window_of. simpl in D1, D2, D3, D4.
  destruct (Z.ltb_spec (num_observation_steps c1) (effective_observation_window (run c bs)));
    [lia|].
  destruct (decide_target_production c1
    (PyFloat.truediv (num_accepted_tokens c1) (num_drafts c1))
    (PyFloat.truediv (num_draft_tokens c1) (num_drafts c1))) as [[[k r] s] Hk];
    [by rewrite D6, C6|].
  rewrite Hk. eexists; split; [done|]. simpl.
  rewrite !fmap_app, !zsum_app. simpl.
  repeat split; try congruence; f_equal; lia.
Qed.

Lemma window_decides_on_last_batch_witness :
  exists c, init 5 2 (Some [2; 4; 5]) = Ok c /\
    exists u, snd (call (run c [mkBatch 1 2 2 None None]) (mkBatch 1 2 2 None None)) = Ok (Some u).
Proof.
  destruct (init 5 2 (Some [2; 4; 5])) as [c|] eqn:E; [|discriminate].
  exists c. split; [reflexivity|].
  pose proof (init_inv _ _ _ _ E) as Hi. injection E as <-.
  destruct (window_decides_on_last_batch _ [mkBatch 1 2 2 None None] (mkBatch 1 2 2 None None)
    Hi eq_refl eq_refl eq_refl eq_refl) as [_ (u & Hu & _)].
  - right; reflexivity.
  - repeat constructor; simpl; lia.
  - reflexivity.
  - exists u; exact Hu.
Defined.

(** State machine: on the ladder (2, 4, 5) a call never jumps from 2 to 5,
    the only ways up are 2 to 4 and 4 to 5, an update's ratchet flag is set
    exactly when the depth grows, and the depth changes only in a call that
    returns an update. *)
Theorem ladder_245_transitions c b :
  inv c -> depth_ladder c = [2; 4; 5] ->
  let k := num_spec_tokens c in
  let k' := num_spec_tokens (fst (call c b)) in
  (k, k') ∈ [(2, 2); (2, 4); (4, 2); (4, 4); (4, 5); (5, 2); (5, 4); (5, 5)] /\
  match snd (call c b) with
  | Ok (Some u) => upd_num_spec_tokens u = k' /\ (acceptance_ratchet u = true <-> k < k')
  | _ => k' = k
  end.
Proof.
  intros Hc Hl. cbv zeta.
  pose proof (inv_depth _ Hc) as Hk. rewrite Hl in Hk.
  assert (forall k, k ∈ [2; 4; 5] -> (k, k) ∈
    [(2, 2); (2, 4); (4, 2); (4, 4); (4, 5); (5, 2); (5, 4); (5, 5)]) as Hsame by set_solver.
  destruct (call_shape c b) as (c1 & H5 & H6 & [[Hf Hs] | (k & r & s & u & Hd & Hf & Hs & Hu1 & Hu2)]).
  - rewrite Hf, H5. split; [auto|]. destruct (snd (call c b)) as [[u|]|]; done.
  - rewrite Hf, Hs. simpl. rewrite Hu1, Hu2. clear Hf Hs Hu1 Hu2 u.
    unfold decide_target in Hd. rewrite H6, Hl, H5 in Hd.
    rewrite bool_decide_eq_false_2, bool_decide_eq_true_2 in Hd by done. cbn [orb andb] in Hd.
    set_unfold in Hk. destruct Hk as [Hk|[Hk|[Hk|[]]]]; rewrite Hk in *; simpl in Hd;
      repeat break_if; injection Hd as <- <- <-; (split; [clear; in_list|]); (split; [done|]); clear;
      simpl; split; (lia || done).
Qed.

Lemma ladder_245_transitions_witness :
  exists c, init 5 2 (Some [2; 4; 5]) = Ok c /\
    (2, num_spec_tokens (fst (call c (mkBatch 1 2 2 None None)))) ∈
      [(2, 2); (2, 4); (4, 2); (4, 4); (4, 5); (5, 2); (5, 4); (5, 5)].
Proof.
  destruct (init 5 2 (Some [2; 4; 5])) as [c|] eqn:E; [|discriminate].
  exists c. split; [reflexivity|].
  pose proof (init_inv _ _ _ _ E) as Hi. injection E as <-.
  exact (proj1 (ladder_245_transitions _ (mkBatch 1 2 2 None None) Hi eq_refl)).
Defined.

End Controller.
