(* ===== verification/SchedTypes.v ===== *)
(** * Data of the V1 scheduler and the services it calls

    [vllm/v1/core/sched/scheduler.py]: the request objects, the configuration
    and the mutable state of [Scheduler], and the classes that state what the
    scheduler relies on from code outside the repository: the request queue
    ([RequestQueue]), and the KV-cache manager, encoder cache manager, KV and
    encoder connectors, structured-output manager and small utilities
    ([Services]).  Requests are Python objects shared by reference between
    [self.requests], the queues and the step's lists: they live in the store
    [objs], and every container holds their ids. *)
From S2P Require Export PyDict AcceptanceLength.
Import PyDict.

(** ** Requests *)

Inductive RequestStatus :=
  | WAITING
  | WAITING_FOR_STRUCTURED_OUTPUT_GRAMMAR
  | WAITING_FOR_REMOTE_KVS
  | WAITING_FOR_STREAMING_REQ
  | RUNNING
  | PREEMPTED
  | FINISHED_STOPPED
  | FINISHED_ABORTED
  | FINISHED_ERROR
  | FINISHED_OTHER (n : Z). (** the finished statuses this file does not name *)

#[export] Instance RequestStatus_eq_dec : EqDecision RequestStatus.
Proof. solve_decision. Defined.

Inductive SchedulingPolicy := FCFS | PRIORITY.
#[export] Instance SchedulingPolicy_eq_dec : EqDecision SchedulingPolicy.
Proof. solve_decision. Defined.

Inductive PauseState := UNPAUSED | PAUSED_NEW | PAUSED_ALL.
#[export] Instance PauseState_eq_dec : EqDecision PauseState.
Proof. solve_decision. Defined.

(** A multimodal feature: placeholder range, number of embeddings, hash. *)
Record mm_feature := mkFeature {
  offset : Z;
  mm_length : Z;
  num_embeds : Z;
  identifier : string
}.
#[export] Instance mm_feature_eta : Eta mm_feature :=
  fun f => mkFeature (offset f) (mm_length f) (num_embeds f) (identifier f).
#[export] Instance mm_feature_inhabited : Inhabited mm_feature :=
  populate (mkFeature 0 0 0 "").

Record StreamingUpdate := mkUpdate {
  upd_prompt_token_ids : list Z;
  upd_mm_features : list mm_feature;
  upd_arrival_time : Z;
  upd_sampling_params : Z
}.

(** The attributes of [Request] the scheduler reads or writes.  Times are
    compared only, and are integers here; [sampling_params] is a handle. *)
Record request := mkRequest {
  request_id : string;
  client_index : Z;
  priority : Z;
  arrival_time : Z;
  status : RequestStatus;
  prompt_token_ids : list Z;
  _all_token_ids : list Z;
  _output_token_ids : list Z;
  num_prompt_tokens : Z;
  max_tokens : Z;
  num_computed_tokens : Z;
  spec_token_ids : list Z;
  num_output_placeholders : Z;
  next_decode_eligible_step : Z;
  is_prefill_chunk : bool;
  num_in_flight_tokens : Z;
  num_stale_output_tokens : Z;
  drop_stale_output : bool;
  num_preemptions : Z;
  shared_prefix_boundary : Z;
  lora_int_id : option Z;
  mm_features : list mm_feature;
  resumable : bool;
  streaming_queue : option (list (option StreamingUpdate));
  last_sched_seq : Z;
  use_structured_output : bool;
  pooling_params : bool;
  sampling_params : Z;
  prefill_stats : option (Z * Z * Z)   (** prompt, local hits, external hits *)
}.
#[export] Instance request_eta : Eta request := fun r =>
  mkRequest (request_id r) (client_index r) (priority r) (arrival_time r) (status r)
    (prompt_token_ids r) (_all_token_ids r) (_output_token_ids r)
    (num_prompt_tokens r) (max_tokens r) (num_computed_tokens r) (spec_token_ids r)
    (num_output_placeholders r) (next_decode_eligible_step r) (is_prefill_chunk r)
    (num_in_flight_tokens r) (num_stale_output_tokens r) (drop_stale_output r)
    (num_preemptions r) (shared_prefix_boundary r) (lora_int_id r) (mm_features r)
    (resumable r) (streaming_queue r) (last_sched_seq r) (use_structured_output r)
    (pooling_params r) (sampling_params r) (prefill_stats r).
#[export] Instance request_inhabited : Inhabited request :=
  populate (mkRequest "" 0 0 0 WAITING [] [] [] 0 0 0 [] 0 0 false 0 0 false 0 0 None []
              false None 0 false false 0 None).

Definition num_tokens (r : request) : Z := Z.of_nat (length (_all_token_ids r)).
Definition num_output_tokens (r : request) : Z := Z.of_nat (length (_output_token_ids r)).
Definition num_tokens_with_spec (r : request) : Z :=
  num_tokens r + Z.of_nat (length (spec_token_ids r)).
Definition has_encoder_inputs (r : request) : bool :=
  negb (Nat.eqb (length (mm_features r)) 0).
Definition get_num_encoder_embeds (r : request) (i : Z) : Z :=
  num_embeds (nth (Z.to_nat i) (mm_features r) inhabitant).

(** ** Configuration *)

(** The attributes [Scheduler.__init__] computes once.  [max_loras] is [None]
    without a LoRA configuration; [connector] and [ec_connector] say whether
    the object exists. *)
Record config := mkConfig {
  policy : SchedulingPolicy;
  max_num_running_reqs : Z;
  max_num_scheduled_tokens : Z;
  max_model_len : Z;
  enable_decode_aware_prefill : bool;
  decode_prefill_token_budget : Z;
  idle_prefill_token_budget : Z;
  max_long_prefills_per_step : Z;
  long_prefill_token_threshold : Z;
  enable_chunked_prefill : bool;
  disable_chunked_mm_input : bool;
  async_scheduling : bool;
  num_sampled_tokens_per_step : Z;
  connector : bool;
  connector_supports_hma : bool;
  is_kv_producer : bool;
  ec_connector : bool;
  recompute_kv_load_failures : bool;
  defer_block_free : bool;
  requires_kv_delivery : bool;
  is_encoder_decoder : bool;
  max_num_encoder_input_tokens : Z;
  use_eagle : bool;
  cfg_num_spec_tokens : Z;
  num_lookahead_tokens : Z;
  dynamic_sd_lookup : option (list Z);
  block_size : Z;
  cache_block_size : Z;
  hash_block_size : Z;
  need_mamba_block_aligned_split : bool;
  mamba_partial_cache_hit : bool;
  needs_kv_cache_zeroing : bool;
  scheduler_reserve_full_isl : bool;
  use_pp : bool;
  use_v2_model_runner : bool;
  num_kv_cache_groups : Z;
  max_loras : option Z;
  mtp_instrument_enabled : bool;
  mtp_instrument_window : Z
}.

#[export] Instance config_eta : Eta config := fun c => {|
  policy := policy c; max_num_running_reqs := max_num_running_reqs c;
  max_num_scheduled_tokens := max_num_scheduled_tokens c; max_model_len := max_model_len c;
  enable_decode_aware_prefill := enable_decode_aware_prefill c;
  decode_prefill_token_budget := decode_prefill_token_budget c;
  idle_prefill_token_budget := idle_prefill_token_budget c;
  max_long_prefills_per_step := max_long_prefills_per_step c;
  long_prefill_token_threshold := long_prefill_token_threshold c;
  enable_chunked_prefill := enable_chunked_prefill c;
  disable_chunked_mm_input := disable_chunked_mm_input c;
  async_scheduling := async_scheduling c;
  num_sampled_tokens_per_step := num_sampled_tokens_per_step c; connector := connector c;
  connector_supports_hma := connector_supports_hma c; is_kv_producer := is_kv_producer c;
  ec_connector := ec_connector c; recompute_kv_load_failures := recompute_kv_load_failures c;
  defer_block_free := defer_block_free c; requires_kv_delivery := requires_kv_delivery c;
  is_encoder_decoder := is_encoder_decoder c;
  max_num_encoder_input_tokens := max_num_encoder_input_tokens c; use_eagle := use_eagle c;
  cfg_num_spec_tokens := cfg_num_spec_tokens c;
  num_lookahead_tokens := num_lookahead_tokens c; dynamic_sd_lookup := dynamic_sd_lookup c;
  block_size := block_size c; cache_block_size := cache_block_size c;
  hash_block_size := hash_block_size c;
  need_mamba_block_aligned_split := need_mamba_block_aligned_split c;
  mamba_partial_cache_hit := mamba_partial_cache_hit c;
  needs_kv_cache_zeroing := needs_kv_cache_zeroing c;
  scheduler_reserve_full_isl := scheduler_reserve_full_isl c; use_pp := use_pp c;
  use_v2_model_runner := use_v2_model_runner c; num_kv_cache_groups := num_kv_cache_groups c;
  max_loras := max_loras c; mtp_instrument_enabled := mtp_instrument_enabled c;
  mtp_instrument_window := mtp_instrument_window c |}.

(** [max(1, self.num_spec_tokens)]. *)
Definition _mtp_num_positions (cfg : config) : Z := Z.max 1 (cfg_num_spec_tokens cfg).

(** ** Request queues *)

(** What [create_request_queue] returns: a deque (FCFS) or a heap on
    (priority, arrival time).  The laws fix the contents, not the order. *)
Class RequestQueue (Q : Type) := {
  create_request_queue : SchedulingPolicy -> Q;
  q_list : Q -> list string;
  q_add : request -> Q -> Q;
  q_prepend : request -> Q -> Q;
  q_prepend_all : Q -> Q -> Q;       (** the queue given first goes in front *)
  q_peek : Q -> option string;
  q_pop : Q -> option (string * Q);
  q_remove : list string -> Q -> Q
}.

Class RequestQueueLaws (Q : Type) `{RequestQueue Q} := {
  q_create_list p : q_list (create_request_queue p) = [];
  q_add_list r q : q_list (q_add r q) ≡ₚ request_id r :: q_list q;
  q_prepend_list r q : q_list (q_prepend r q) ≡ₚ request_id r :: q_list q;
  q_prepend_all_list q1 q2 : q_list (q_prepend_all q1 q2) ≡ₚ q_list q1 ++ q_list q2;
  q_peek_pop q : q_peek q = fst <$> q_pop q;
  q_pop_nil q : q_pop q = None <-> q_list q = [];
  q_pop_list q x q' : q_pop q = Some (x, q') -> q_list q ≡ₚ x :: q_list q';
  q_remove_list xs q : q_list (q_remove xs q) ≡ₚ List.filter (fun x => bool_decide (x ∉ xs)) (q_list q)
}.

Definition q_nonempty {Q} `{RequestQueue Q} (q : Q) : bool :=
  negb (Nat.eqb (length (q_list q)) 0).

(** ** The step output handed to the workers *)

Record CachedRequestData := mkCached {
  c_req_ids : list string;
  c_resumed_req_ids : gset string;
  c_new_token_ids : list (list Z);
  c_all_token_ids : list (string * list Z);
  c_new_block_ids : list (option (list (list Z)));
  c_num_computed_tokens : list Z;
  c_num_output_tokens : list Z
}.

Record SchedulerOutput := mkOutput {
  o_new_reqs : list (string * list (list Z));
  o_cached_reqs : CachedRequestData;
  o_num_scheduled_tokens : dict Z;
  o_total_num_scheduled_tokens : Z;
  o_scheduled_spec_decode_tokens : dict (list Z);
  o_scheduled_encoder_inputs : dict (list Z);
  o_num_common_prefix_blocks : list Z;
  o_preempted_req_ids : gset string;
  o_finished_req_ids : gset string;
  o_new_block_ids_to_zero : option (list Z);
  o_kv_cache_block_copies : option (list (Z * Z));
  o_num_spec_tokens_to_schedule : Z;
  o_has_structured_output_requests : bool;
  o_num_invalid_spec_tokens : dict Z
}.
#[export] Instance SchedulerOutput_eta : Eta SchedulerOutput := fun o =>
  mkOutput (o_new_reqs o) (o_cached_reqs o) (o_num_scheduled_tokens o)
    (o_total_num_scheduled_tokens o) (o_scheduled_spec_decode_tokens o)
    (o_scheduled_encoder_inputs o) (o_num_common_prefix_blocks o)
    (o_preempted_req_ids o) (o_finished_req_ids o) (o_new_block_ids_to_zero o)
    (o_kv_cache_block_copies o) (o_num_spec_tokens_to_schedule o)
    (o_has_structured_output_requests o) (o_num_invalid_spec_tokens o).

Record KVConnectorOutput := mkKVOut {
  invalid_block_ids : gset Z;
  finished_recving : list string;
  finished_sending : list string
}.

(** ** Services *)

(** The arguments of [KVCacheManager.allocate_slots] besides the request. *)
Record alloc_args (B : Type) := mkAlloc {
  a_num_new_tokens : Z;
  a_num_new_computed_tokens : Z;
  a_new_computed_blocks : option B;
  a_num_lookahead_tokens : Z;
  a_num_external_computed_tokens : Z;
  a_delay_cache_blocks : bool;
  a_num_encoder_tokens : Z;
  a_full_sequence_must_fit : bool;
  a_reserved_blocks : Z;
  a_has_scheduled_reqs : bool
}.
Arguments mkAlloc {B}.

(** The code outside the repository that a scheduler step calls.  [E] is the
    state of all of it, [B] a [KVCacheBlocks]; an operation that may change
    its owner's state returns the new one. *)
Class Services (E B : Type) := {
  (* KVCacheManager *)
  kv_new_step_starts : E -> E;
  kv_allocate_slots : E -> request -> alloc_args B -> E * option B;
  kv_get_computed_blocks : E -> request -> E * (B * Z * Z);
  kv_get_computed_blocks_for_connector : E -> request -> E * (B * Z * Z * bool);
  kv_truncate_computed_blocks : E -> B -> Z -> B;
  kv_empty_blocks : B;
  kv_get_blocks : E -> string -> B;
  blocks_get_block_ids : B -> list (list Z);
  blocks_get_block_ids_allow_none : B -> option (list (list Z));
  kv_get_block_ids : E -> string -> list (list Z);
  kv_get_block_ids_for_computed_tokens : E -> string -> Z -> list (list Z);
  kv_get_num_common_prefix_blocks : E -> string -> list Z;
  kv_free : E -> request -> E;
  kv_pop_blocks_for_free : E -> request -> E * list Z;
  pool_free_blocks : E -> list Z -> E;
  kv_take_partial_tail_offloads : E -> E;
  kv_take_kv_cache_block_copies : E -> E * (list (Z * Z) * list Z);
  kv_take_new_block_ids : E -> E * list Z;
  kv_get_zeroing_block_ids_in_range : E -> string -> Z -> Z -> list Z;
  kv_cache_blocks : E -> request -> Z -> E;
  kv_record_blocks_for_zeroing : E -> string -> Z -> E;
  kv_remove_skipped_blocks : E -> string -> Z -> Z -> E;
  kv_evict_blocks : E -> list Z -> E;
  kv_reset_prefix_cache : E -> E * bool;
  coord_get_num_blocks_to_allocate : E -> string -> Z -> Z -> Z;
  (* encoder cache manager *)
  enc_check_and_update_cache : E -> request -> Z -> E * bool;
  enc_can_allocate : E -> request -> Z -> Z -> Z -> bool;
  enc_allocate : E -> request -> Z -> E;
  enc_free : E -> request -> E;
  enc_get_cached_input_ids : E -> request -> list Z;
  enc_free_encoder_input : E -> request -> Z -> E;
  (* KV connector *)
  conn_get_num_new_matched_tokens : E -> request -> Z -> E * (option Z * bool);
  conn_update_state_after_alloc : E -> request -> B -> Z -> E;
  conn_on_new_request : E -> request -> E;
  conn_request_finished : E -> request -> list (list Z) -> E * bool;
  conn_update_connector_output : E -> KVConnectorOutput -> E;
  conn_build_connector_meta : E -> SchedulerOutput -> E;
  conn_reset_cache : E -> E * bool;
  (* encoder connector *)
  ec_ensure_cache_available : E -> request -> Z -> E * bool;
  ec_has_cache_item : E -> string -> bool;
  ec_update_state_after_alloc : E -> request -> Z -> E;
  ec_request_finished : E -> request -> E * bool;
  ec_build_connector_meta : E -> SchedulerOutput -> E;
  (* structured output *)
  so_grammar : E -> request -> option bool;  (** [None]: not compiled yet; [Some false]: an exception *)
  so_should_advance : E -> request -> bool;
  so_should_advance_with : E -> request -> list Z -> bool;
  so_trim_reasoning : E -> request -> list Z -> list Z;
  so_accept_tokens : E -> string -> list Z -> E * bool;
  so_validate_tokens : E -> request -> list Z -> list Z;
  (* module-level utilities *)
  is_finished : RequestStatus -> bool;
  check_stop : request -> Z -> request * bool;
  remove_all : list string -> gset string -> list string;
  request_lt : request -> request -> bool;
  get_mm_features_in_window : list mm_feature -> Z -> Z -> Z * Z;
  get_embeds_indices_in_range : mm_feature -> Z -> Z -> Z * Z;
  update_from_request : request -> option StreamingUpdate
}.

(** What the proofs use of that code. *)
Class ServicesLaws (E B : Type) `{Services E B} := {
  (** which statuses are final *)
  is_finished_live st :
    st ∈ [WAITING; WAITING_FOR_STRUCTURED_OUTPUT_GRAMMAR; WAITING_FOR_REMOTE_KVS;
          WAITING_FOR_STREAMING_REQ; RUNNING; PREEMPTED] -> is_finished st = false;
  is_finished_final st :
    st ∈ [FINISHED_STOPPED; FINISHED_ABORTED; FINISHED_ERROR] -> is_finished st = true;
  (** [check_stop] only decides the status, a final one when it says stop *)
  check_stop_false r m : snd (check_stop r m) = false -> fst (check_stop r m) = r;
  check_stop_true r m : snd (check_stop r m) = true ->
    exists st, is_finished st = true /\ fst (check_stop r m) = r <| status := st |>;
  (** [remove_all] drops the members of the set and keeps the order *)
  remove_all_spec l X : remove_all l X = List.filter (fun x => bool_decide (x ∉ X)) l;
  (** the window of features that start before [end] *)
  window_range fs a b :
    let '(lo, hi) := get_mm_features_in_window fs a b in
    0 <= lo /\ hi <= Z.of_nat (length fs);
  window_start fs a b i :
    let '(lo, hi) := get_mm_features_in_window fs a b in
    lo <= i < hi -> offset (nth (Z.to_nat i) fs inhabitant) < b
}.

(** ** The scheduler's state *)

Record mtp_window := mkMtp {
  _mtp_window_steps : Z;
  _mtp_window_batches : Z;
  _mtp_window_draft_tokens : Z;
  _mtp_window_accepted_tokens : Z;
  _mtp_window_output_tokens : Z;
  _mtp_window_context : option (Z * Z);
  _mtp_window_position_eligible : list Z;
  _mtp_window_position_accepted : list Z;
  _mtp_window_selected_k : gmap Z Z;
  _mtp_window_active_k_first : option Z;
  _mtp_window_index : Z;
  _mtp_selected_k_run : gmap Z Z
}.
#[export] Instance mtp_window_eta : Eta mtp_window := fun w =>
  mkMtp (_mtp_window_steps w) (_mtp_window_batches w) (_mtp_window_draft_tokens w)
    (_mtp_window_accepted_tokens w) (_mtp_window_output_tokens w) (_mtp_window_context w)
    (_mtp_window_position_eligible w) (_mtp_window_position_accepted w)
    (_mtp_window_selected_k w) (_mtp_window_active_k_first w) (_mtp_window_index w)
    (_mtp_selected_k_run w).

Section State.
Context {E Q : Type}.

Record sched := mkSched {
  objs : gmap string request;
  requests : gset string;
  running : list string;
  waiting : Q;
  skipped_waiting : Q;
  current_step : Z;
  finished_req_ids : gset string;
  reset_preempted_req_ids : gset string;
  num_waiting_for_streaming_input : Z;
  finished_recving_kv_req_ids : gset string;
  failed_recving_kv_req_ids : gset string;
  grammar_compile_error_reqs : gset string;
  _long_prefill_last_scheduled : gmap string Z;
  long_prefill_gate_skips : Z;
  long_prefill_wasted_turns : Z;
  prefill_capacity_bound : bool;
  _skip_zero_block_ids : gset Z;
  _inflight_prefills : gset string;
  sched_step_seq : Z;
  processed_step_seq : Z;
  deferred_frees : list (Z * list Z);
  prev_step_scheduled_req_ids : gset string;
  _pause_state : PauseState;
  acceptance_length_controller : option Controller.controller;
  mtp : mtp_window;
  finished_req_ids_dict : option (gmap Z (gset string));
  env : E
}.
#[export] Instance sched_eta : Eta sched := fun s =>
  mkSched (objs s) (requests s) (running s) (waiting s) (skipped_waiting s)
    (current_step s) (finished_req_ids s) (reset_preempted_req_ids s)
    (num_waiting_for_streaming_input s) (finished_recving_kv_req_ids s)
    (failed_recving_kv_req_ids s) (grammar_compile_error_reqs s)
    (_long_prefill_last_scheduled s) (long_prefill_gate_skips s)
    (long_prefill_wasted_turns s) (prefill_capacity_bound s) (_skip_zero_block_ids s)
    (_inflight_prefills s) (sched_step_seq s) (processed_step_seq s)
    (deferred_frees s) (prev_step_scheduled_req_ids s) (_pause_state s)
    (acceptance_length_controller s) (mtp s) (finished_req_ids_dict s) (env s).

(** The object an id refers to. *)
Definition req (s : sched) (id : string) : request := objs s !!! id.

(** Assignments to attributes of one object. *)
Definition upd_req (id : string) (f : request -> request) (s : sched) : sched :=
  s <| objs := <[id := f (req s id)]> (objs s) |>.

Lemma req_upd_eq s id f : req (upd_req id f s) id = f (req s id).
Proof. unfold req, upd_req; simpl. by rewrite lookup_total_insert_eq. Qed.

Lemma req_upd_ne s id id' f : id <> id' -> req (upd_req id f s) id' = req s id'.
Proof. intros. unfold req, upd_req; simpl. by rewrite lookup_total_insert_ne. Qed.

Lemma req_upd s id id' f :
  req (upd_req id f s) id' = if bool_decide (id = id') then f (req s id) else req s id'.
Proof. case_bool_decide; subst; [apply req_upd_eq|by apply req_upd_ne]. Qed.
End State.
Arguments sched : clear implicits.
