(* ===== verification/SchedMini.v ===== *)
(** * A small concrete environment for the scheduler

    Instances of [RequestQueue] and [Services] with which the model
    evaluates: a queue is the list of its ids, and the services' whole state
    is a number of free KV blocks, of which an allocation takes one and a
    free returns one.  The theorems never use them; the witnesses do. *)
From S2P Require Export SchedTypes.
Import PyDict PyList.

Module Mini.

#[export] Instance queue : RequestQueue (list string) := {
  create_request_queue _ := [];
  q_list q := q;
  q_add r q := q ++ [request_id r];
  q_prepend r q := request_id r :: q;
  q_prepend_all q1 q2 := q1 ++ q2;
  q_peek q := head q;
  q_pop q := match q with [] => None | x :: q => Some (x, q) end;
  q_remove xs q := List.filter (fun x => bool_decide (x ∉ xs)) q
}.

#[export] Instance queue_laws : RequestQueueLaws (list string).
Proof.
  split; simpl; try done.
  - intros. by rewrite Permutation_app_comm.
  - by intros [].
  - by intros [].
  - intros [|y q] x q' H; [done|]. by injection H as -> ->.
Qed.

Definition finished (st : RequestStatus) : bool :=
  match st with
  | FINISHED_STOPPED | FINISHED_ABORTED | FINISHED_ERROR | FINISHED_OTHER _ => true
  | _ => false
  end.

(** Stops at the model length. *)
Definition stop (r : request) (m : Z) : request * bool :=
  if m <=? num_tokens r then (r <| status := FINISHED_OTHER 0 |>, true) else (r, false).

Fixpoint window_end (fs : list mm_feature) (b : Z) : Z :=
  match fs with
  | [] => 0
  | f :: fs => if offset f <? b then 1 + window_end fs b else 0
  end.

#[export] Instance services : Services Z (list (list Z)) := {
  kv_new_step_starts e := e;
  kv_allocate_slots e r a := if 0 <? e then (e - 1, Some [[e]]) else (e, None);
  kv_get_computed_blocks e r := (e, ([[]], 0, 0));
  kv_get_computed_blocks_for_connector e r := (e, ([[]], 0, 0, false));
  kv_truncate_computed_blocks e b n := b;
  kv_empty_blocks := [[]];
  kv_get_blocks e id := [[]];
  blocks_get_block_ids b := b;
  blocks_get_block_ids_allow_none b := Some b;
  kv_get_block_ids e id := [[10; 11; 12; 13]];
  kv_get_block_ids_for_computed_tokens e id n := [[]];
  kv_get_num_common_prefix_blocks e id := [0];
  kv_free e r := e + 1;
  kv_pop_blocks_for_free e r := (e, [7]);
  pool_free_blocks e bs := e + Z.of_nat (length bs);
  kv_take_partial_tail_offloads e := e;
  kv_take_kv_cache_block_copies e := (e, ([], []));
  kv_take_new_block_ids e := (e, []);
  kv_get_zeroing_block_ids_in_range e id a b := [];
  kv_cache_blocks e r n := e;
  kv_record_blocks_for_zeroing e id n := e;
  kv_remove_skipped_blocks e id a b := e;
  kv_evict_blocks e bs := e;
  kv_reset_prefix_cache e := (e, true);
  coord_get_num_blocks_to_allocate e id a b := 0;
  enc_check_and_update_cache e r i := (e, false);
  enc_can_allocate e r i b n := get_num_encoder_embeds r i <=? b;
  enc_allocate e r i := e;
  enc_free e r := e;
  enc_get_cached_input_ids e r := [];
  enc_free_encoder_input e r i := e;
  conn_get_num_new_matched_tokens e r n := (e, (Some 0, false));
  conn_update_state_after_alloc e r b n := e;
  conn_on_new_request e r := e;
  conn_request_finished e r b := (e, false);
  conn_update_connector_output e o := e;
  conn_build_connector_meta e o := e;
  conn_reset_cache e := (e, true);
  ec_ensure_cache_available e r n := (e, true);
  ec_has_cache_item e h := false;
  ec_update_state_after_alloc e r i := e;
  ec_request_finished e r := (e, false);
  ec_build_connector_meta e o := e;
  so_grammar e r := None;
  so_should_advance e r := false;
  so_should_advance_with e r ts := false;
  so_trim_reasoning e r ts := ts;
  so_accept_tokens e id ts := (e, true);
  so_validate_tokens e r ts := ts;
  is_finished := finished;
  check_stop := stop;
  remove_all l X := List.filter (fun x => bool_decide (x ∉ X)) l;
  request_lt r1 r2 := (priority r1 <? priority r2)
    || ((priority r1 =? priority r2) && (arrival_time r1 <? arrival_time r2));
  get_mm_features_in_window fs a b := (0, window_end fs b);
  get_embeds_indices_in_range f a b := (a, b);
  update_from_request r := if resumable r then Some (mkUpdate (prompt_token_ids r)
                             (mm_features r) (arrival_time r) (sampling_params r)) else None
}.

Lemma window_end_bound fs b : 0 <= window_end fs b <= Z.of_nat (length fs).
Proof. induction fs as [|f fs IH]; simpl; [lia|]. break_if; lia. Qed.

Lemma window_end_start fs b i :
  0 <= i < window_end fs b -> offset (nth (Z.to_nat i) fs inhabitant) < b.
Proof.
  revert i; induction fs as [|f fs IH]; intros i; simpl; [lia|].
  break_if; bool_prop; [|lia]. intros Hi. destruct (Z.eq_dec i 0) as [->|]; [done|].
  replace (Z.to_nat i) with (S (Z.to_nat (i - 1))) by lia. apply IH. lia.
Qed.

#[export] Instance services_laws : ServicesLaws Z (list (list Z)).
Proof.
  split; simpl.
  - intros [] H; simpl; try done; repeat (apply elem_of_cons in H as [H|H]; [done|]); by apply not_elem_of_nil in H.
  - intros [] H; simpl; try done; repeat (apply elem_of_cons in H as [H|H]; [done|]); by apply not_elem_of_nil in H.
  - intros r m. unfold stop. by break_if.
  - intros r m. unfold stop. break_if; [|done]. intros _. eexists (FINISHED_OTHER 0). done.
  - done.
  - intros fs a b. pose proof (window_end_bound fs b). lia.
  - intros fs a b i. apply window_end_start.
Qed.

(** A synchronous FCFS configuration; the witnesses change single fields. *)
Definition cfg : config := {|
  policy := FCFS; max_num_running_reqs := 4; max_num_scheduled_tokens := 8;
  max_model_len := 64; enable_decode_aware_prefill := false;
  decode_prefill_token_budget := 4; idle_prefill_token_budget := 8;
  max_long_prefills_per_step := 1; long_prefill_token_threshold := 0;
  enable_chunked_prefill := true; disable_chunked_mm_input := false;
  async_scheduling := false; num_sampled_tokens_per_step := 1; connector := false;
  connector_supports_hma := false; is_kv_producer := false; ec_connector := false;
  recompute_kv_load_failures := true; defer_block_free := false;
  requires_kv_delivery := false; is_encoder_decoder := false;
  max_num_encoder_input_tokens := 0; use_eagle := false; cfg_num_spec_tokens := 0;
  num_lookahead_tokens := 0; dynamic_sd_lookup := None; block_size := 4;
  cache_block_size := 4; hash_block_size := 4; need_mamba_block_aligned_split := false;
  mamba_partial_cache_hit := false; needs_kv_cache_zeroing := false;
  scheduler_reserve_full_isl := false; use_pp := false; use_v2_model_runner := true;
  num_kv_cache_groups := 1; max_loras := None; mtp_instrument_enabled := false;
  mtp_instrument_window := 1 |}.

(** A request with [n] prompt tokens, [c] of them computed. *)
Definition request_of (id : string) (st : RequestStatus) (n c : Z) : request :=
  inhabitant <| request_id := id |> <| status := st |>
    <| prompt_token_ids := replicate (Z.to_nat n) 5 |>
    <| _all_token_ids := replicate (Z.to_nat n) 5 |>
    <| num_prompt_tokens := n |> <| num_computed_tokens := c |>
    <| max_tokens := 100 |> <| is_prefill_chunk := c <? n |>.

Definition mtp0 : mtp_window := mkMtp 0 0 0 0 0 None [0] [0] ∅ None 0 ∅.

(** A scheduler that tracks the given running and waiting requests. *)
Definition sched_of (free : Z) (run wait : list request) : sched Z (list string) :=
  {| objs := list_to_map (map (fun r => (request_id r, r)) (run ++ wait));
     requests := list_to_set (map request_id (run ++ wait));
     running := map request_id run; waiting := map request_id wait; skipped_waiting := [];
     current_step := 0; finished_req_ids := ∅; reset_preempted_req_ids := ∅;
     num_waiting_for_streaming_input := 0; finished_recving_kv_req_ids := ∅;
     failed_recving_kv_req_ids := ∅; grammar_compile_error_reqs := ∅;
     _long_prefill_last_scheduled := ∅; long_prefill_gate_skips := 0;
     long_prefill_wasted_turns := 0; prefill_capacity_bound := false;
     _skip_zero_block_ids := ∅; _inflight_prefills := ∅; sched_step_seq := 0;
     processed_step_seq := 0; deferred_frees := []; prev_step_scheduled_req_ids := ∅;
     _pause_state := UNPAUSED; acceptance_length_controller := None; mtp := mtp0;
     finished_req_ids_dict := None;
     env := free |}.

End Mini.
