(* ===== verification/SchedSelect.v ===== *)
(** * Chunk sizes, long-prefill turns and MTP counters of the scheduler

    [scheduler.py]: [_mamba_block_aligned_split] (module [Mamba]),
    [_is_long_prefill_request], [_select_long_prefill_request_ids] and
    [_debit_unused_long_prefill_turns] (module [LongPrefill]),
    [_reset_mtp_window], the accumulation of [_record_mtp_instrumentation]
    and the per-position counts of [update_from_output] (module [Mtp]). *)
From S2P Require Export SchedMini.
Import PyDict PyList.

(** ** Chunks that end where Mamba state is cached *)
Module Mamba.

(** [min((s for s in stops if start < s < end), default=end)]. *)
Definition earliest_stop (start end_ : Z) (stops : list Z) : Z :=
  match List.filter (fun s => (start <? s) && (s <? end_)) stops with
  | [] => end_
  | s :: ss => fold_left Z.min ss s
  end.

Definition prefill_end (r : request) : Z := Z.max (num_prompt_tokens r) (num_tokens r - 1).

(** The end of the chunk after the block alignment of a non-final chunk. *)
Definition aligned_chunk_end (cfg : config) (r : request) (start num_new_tokens : Z) : Z :=
  let block := cache_block_size cfg in
  let end_ := start + num_new_tokens in
  if end_ <? prefill_end r then
    let max_prefill_tokens :=
      if 0 <? long_prefill_token_threshold cfg
      then Z.min (max_num_scheduled_tokens cfg) (long_prefill_token_threshold cfg)
      else max_num_scheduled_tokens cfg in
    let aligned_end := end_ / block * block in
    if (start <? aligned_end) || (block <=? max_prefill_tokens) then aligned_end else end_
  else end_.

Definition last_cache_position (cfg : config) (r : request) : Z :=
  let block := cache_block_size cfg in
  let p := num_tokens r - num_tokens r mod block in
  if use_eagle cfg then Z.max (p - block) 0 else p.

(** The four mandatory positions. *)
Definition stops (cfg : config) (r : request) (start end_ : Z) : list Z :=
  let block := cache_block_size cfg in
  let next_block_boundary := (start / block + 1) * block in
  let tail_boundary :=
    if mamba_partial_cache_hit cfg
    then num_prompt_tokens r / hash_block_size cfg * hash_block_size cfg else 0 in
  [ (if start mod block =? 0 then 0 else next_block_boundary);
    last_cache_position cfg r;
    (if (last_cache_position cfg r <? tail_boundary) && (tail_boundary <? num_prompt_tokens r)
     then tail_boundary else 0);
    (if (start <? shared_prefix_boundary r) && (shared_prefix_boundary r <? end_)
     then start + (shared_prefix_boundary r - start) / block * block else 0) ].

Definition _mamba_block_aligned_split (cfg : config) (r : request)
    (num_new_tokens num_new_local_computed_tokens num_external_computed_tokens : Z) : Z :=
  let start := num_computed_tokens r + num_new_local_computed_tokens
               + num_external_computed_tokens in
  if prefill_end r <=? start then num_new_tokens
  else
    let end_ := aligned_chunk_end cfg r start num_new_tokens in
    Z.max (earliest_stop start end_ (stops cfg r start end_) - start) 0.

Lemma fold_min_in (d : Z) ds : fold_left Z.min ds d ∈ d :: ds.
Proof.
  revert d; induction ds as [|x ds IH]; intros d; simpl; [left|].
  specialize (IH (Z.min d x)). set_unfold. destruct IH as [H|H]; [|auto].
  rewrite H. destruct (Z.min_spec d x) as [[_ ->]|[_ ->]]; auto.
Qed.

Lemma fold_min_le (d : Z) ds : fold_left Z.min ds d <= d.
Proof.
  revert d; induction ds as [|x ds IH]; intros d; cbn [fold_left]; [lia|].
  specialize (IH (Z.min d x)). lia.
Qed.

Lemma fold_min_lb (d x : Z) ds : x ∈ d :: ds -> fold_left Z.min ds d <= x.
Proof.
  revert d; induction ds as [|y ds IH]; intros d Hx; cbn [fold_left].
  - set_unfold. destruct Hx as [->|[]]. lia.
  - apply elem_of_cons in Hx as [->|Hx]; [pose proof (fold_min_le (Z.min d y) ds); lia|].
    apply elem_of_cons in Hx as [->|Hx]; [pose proof (fold_min_le (Z.min d y) ds); lia|].
    apply IH. by right.
Qed.

(** [earliest_stop] is the end of the chunk or a stop strictly inside it, and
    no stop strictly inside the chunk comes before it. *)
Lemma earliest_stop_spec start e ss :
  (earliest_stop start e ss = e \/
     (earliest_stop start e ss ∈ ss /\ start < earliest_stop start e ss < e)) /\
  (forall s, s ∈ ss -> start < s < e -> earliest_stop start e ss <= s).
Proof.
  unfold earliest_stop.
  assert (forall x, x ∈ List.filter (fun s => (start <? s) && (s <? e)) ss <->
    x ∈ ss /\ start < x < e) as Hf.
  { intros x. rewrite list_elem_of_In, filter_In, <- list_elem_of_In, andb_true_iff, !Z.ltb_lt. tauto. }
  destruct (List.filter _ ss) as [|d ds] eqn:E.
  - split; [by left|]. intros s Hs Hr. exfalso.
    assert (s ∈ @nil Z) by (apply Hf; auto). set_solver.
  - split.
    + right. apply Hf. apply fold_min_in.
    + intros s Hs Hr. apply fold_min_lb. by apply Hf.
Qed.

Lemma aligned_chunk_end_le cfg r start n :
  0 < cache_block_size cfg -> aligned_chunk_end cfg r start n <= start + n.
Proof.
  intros Hb. pose proof (Z.mul_div_le (start + n) (cache_block_size cfg) Hb).
  unfold aligned_chunk_end. repeat break_if; lia.
Qed.

(** The split only shortens a chunk. *)
Lemma split_bounds cfg r n l x :
  0 < cache_block_size cfg -> 0 <= n ->
  0 <= _mamba_block_aligned_split cfg r n l x <= n.
Proof.
  intros Hb Hn. unfold _mamba_block_aligned_split. break_if; [lia|].
  set (start := num_computed_tokens r + l + x).
  pose proof (aligned_chunk_end_le cfg r start n Hb) as He.
  destruct (earliest_stop_spec start (aligned_chunk_end cfg r start n)
    (stops cfg r start (aligned_chunk_end cfg r start n))) as [[H|[_ H]] _]; lia.
Qed.

Lemma split_le cfg r n l x :
  0 < cache_block_size cfg -> _mamba_block_aligned_split cfg r n l x <= Z.max n 0.
Proof.
  intros Hb. unfold _mamba_block_aligned_split. break_if; [lia|].
  set (start := num_computed_tokens r + l + x).
  pose proof (aligned_chunk_end_le cfg r start n Hb) as He.
  destruct (earliest_stop_spec start (aligned_chunk_end cfg r start n)
    (stops cfg r start (aligned_chunk_end cfg r start n))) as [[H|[_ H]] _]; lia.
Qed.

(** Bounds: a prefill chunk is only ever shortened, and it never runs past
    a place where state must be cached: when the request is prefilling and a
    whole block fits in one chunk, a non-empty chunk that does not reach the
    end of the prefill ends on a block boundary, on the prompt's tail
    boundary, or on the shared-prefix junction; and none of the mandatory
    stops lies strictly inside the chunk. *)
Theorem mamba_split_stops cfg r n l x :
  0 < cache_block_size cfg -> 0 <= n ->
  let block := cache_block_size cfg in
  let start := num_computed_tokens r + l + x in
  let m := _mamba_block_aligned_split cfg r n l x in
  let e := aligned_chunk_end cfg r start n in
  0 <= m <= n /\
  (start < prefill_end r -> 0 < m ->
     (forall s, s ∈ stops cfg r start e -> ~ (start < s < start + m)) /\
     (start + m < prefill_end r ->
      block <= max_num_scheduled_tokens cfg ->
      (0 < long_prefill_token_threshold cfg -> block <= long_prefill_token_threshold cfg) ->
      (start + m) mod block = 0 \/ start + m ∈ stops cfg r start e)).
Proof.
  intros Hb Hn. cbv zeta. split; [by apply split_bounds|]. intros Hs.
  unfold _mamba_block_aligned_split.
  destruct (Z.leb_spec (prefill_end r) (num_computed_tokens r + l + x)); [lia|].
  set (start := num_computed_tokens r + l + x) in *.
  set (e := aligned_chunk_end cfg r start n).
  destruct (earliest_stop_spec start e (stops cfg r start e)) as [Hc Hmin].
  intros Hm. rewrite Z.max_l in * by lia.
  replace (start + (earliest_stop start e (stops cfg r start e) - start))
    with (earliest_stop start e (stops cfg r start e)) by lia.
  split.
  - intros s Hin [H1 H2].
    assert (earliest_stop start e (stops cfg r start e) <= e) by (destruct Hc as [->|[_ ?]]; lia).
    specialize (Hmin s Hin ltac:(lia)). lia.
  - intros Hlt Hmax Hthr. destruct Hc as [Hc|[Hc _]]; [|by right].
    left. rewrite Hc in *. subst e. unfold aligned_chunk_end in *.
    destruct (Z.ltb_spec (start + n) (prefill_end r)); [|lia].
    assert (cache_block_size cfg <=?
      (if 0 <? long_prefill_token_threshold cfg
       then Z.min (max_num_scheduled_tokens cfg) (long_prefill_token_threshold cfg)
       else max_num_scheduled_tokens cfg) = true) as ->.
    { apply Z.leb_le. destruct (Z.ltb_spec 0 (long_prefill_token_threshold cfg)); lia. }
    rewrite orb_true_r. apply Z.mod_mul. lia.
Qed.

Lemma mamba_split_stops_witness :
  let cfg := Mini.cfg in
  let r := Mini.request_of "a" RUNNING 11 2 in
  _mamba_block_aligned_split cfg r 8 0 0 = 2 /\
  (forall s, s ∈ stops cfg r 2 (aligned_chunk_end cfg r 2 8) -> ~ (2 < s < 4)).
Proof.
  cbv zeta. split; [reflexivity|].
  refine (proj1 (proj2 (mamba_split_stops Mini.cfg (Mini.request_of "a" RUNNING 11 2) 8 0 0
    _ _) _ _)); vm_compute; congruence.
Defined.

End Mamba.

(** ** Turns of the long prefills *)
Module LongPrefill.
Section LongPrefill.
Context {E Q : Type} `{RequestQueue Q}.
Implicit Types (s : sched E Q) (cfg : config).

Definition _is_long_prefill_request (cfg : config) (r : request) : bool :=
  if num_prompt_tokens r <=? long_prefill_token_threshold cfg then false
  else if bool_decide (status r = RUNNING) then is_prefill_chunk r
  else bool_decide (status r = WAITING) || bool_decide (status r = PREEMPTED).

Definition running_candidates cfg s : list string :=
  List.filter (fun id => _is_long_prefill_request cfg (req s id)) (running s).

(** The second loop: ids not seen yet, in queue order. *)
Fixpoint collect (long : string -> bool) (seen : list string) (ids : list string) : list string :=
  match ids with
  | [] => []
  | id :: ids =>
      if bool_decide (id ∈ seen) then collect long seen ids
      else if long id then id :: collect long (id :: seen) ids
      else collect long seen ids
  end.

Definition waiting_candidates cfg s : list string :=
  collect (fun id => _is_long_prefill_request cfg (req s id)) (running_candidates cfg s)
    (q_list (waiting s) ++ q_list (skipped_waiting s)).

(** [self._long_prefill_last_scheduled.get(request.request_id, -1)]. *)
Definition last_turn s (id : string) : Z := default (-1) (_long_prefill_last_scheduled s !! id).

(** The key (last turn, arrival time), compared lexicographically. *)
Definition older s (a b : string) : bool :=
  (last_turn s a <? last_turn s b) ||
  ((last_turn s a =? last_turn s b) && (arrival_time (req s a) <? arrival_time (req s b))).

Definition by_age s (ids : list string) : list string := sort_by (older s) ids.

Definition prune_turns s : sched E Q :=
  s <| _long_prefill_last_scheduled ::= filter (fun kv => kv.1 ∈ requests s) |>.

Definition _select_long_prefill_request_ids cfg s : sched E Q * list string :=
  if negb (enable_decode_aware_prefill cfg) then (s, [])
  else
    let runc := running_candidates cfg s in
    let waitc := waiting_candidates cfg s in
    let s1 := prune_turns s in
    let admittable := Z.max 0 (max_num_running_reqs cfg - Z.of_nat (length (running s))) in
    let candidates :=
      if (0 <? admittable) && negb (Nat.eqb (length waitc) 0) then
        let keep := slice_to admittable (by_age s1 waitc) in
        runc ++ List.filter (fun id => bool_decide (id ∈ keep)) waitc
      else runc in
    (s1, slice_to (max_long_prefills_per_step cfg) (by_age s1 candidates)).

(** The charge of one unused turn. *)
Definition debit (num_scheduled_tokens : dict Z) s (id : string) : sched E Q :=
  if bool_decide (id ∈ dkeys num_scheduled_tokens) then s
  else s <| long_prefill_wasted_turns ::= Z.add 1 |>
         <| _long_prefill_last_scheduled ::= <[id := current_step s]> |>.

Definition _debit_unused_long_prefill_turns cfg (selected : list string)
    (num_scheduled_tokens : dict Z) (defer_prefills : bool) s : sched E Q :=
  if negb (enable_decode_aware_prefill cfg) || Nat.eqb (length selected) 0 then s
  else if defer_prefills || bool_decide (_pause_state s = PAUSED_ALL) then s
  else fold_left (debit num_scheduled_tokens) selected s.

Lemma elem_of_collect long seen ids x :
  x ∈ collect long seen ids <-> x ∈ ids /\ x ∉ seen /\ long x = true.
Proof.
  revert seen; induction ids as [|y ids IH]; intros seen; simpl; [set_solver|].
  case_bool_decide; [rewrite IH, elem_of_cons; naive_solver|].
  destruct (long y) eqn:Hy.
  - rewrite elem_of_cons, IH, !elem_of_cons. destruct (decide (x = y)) as [->|]; naive_solver.
  - rewrite IH, elem_of_cons. intuition congruence.
Qed.

Lemma collect_NoDup long seen ids : NoDup (collect long seen ids).
Proof.
  revert seen; induction ids as [|y ids IH]; intros seen; simpl; [constructor|].
  case_bool_decide; [auto|]. destruct (long y); [|auto].
  constructor; [|auto]. rewrite elem_of_collect, elem_of_cons. tauto.
Qed.

Lemma elem_of_filter_b {A} (f : A -> bool) l x : x ∈ List.filter f l <-> x ∈ l /\ f x = true.
Proof. by rewrite list_elem_of_In, filter_In, <- list_elem_of_In. Qed.

Lemma NoDup_filter_b {A} (f : A -> bool) l : NoDup l -> NoDup (List.filter f l).
Proof.
  induction 1 as [|x l Hni Hn IH]; simpl; [constructor|].
  destruct (f x); [|done]. constructor; [|done]. rewrite elem_of_filter_b. naive_solver.
Qed.

Lemma older_trans s a b c :
  older s b a = false -> older s c b = false -> older s c a = false.
Proof. unfold older. rewrite !orb_false_iff, !andb_false_iff, !Z.ltb_ge, !Z.eqb_neq. lia. Qed.

Lemma older_asym s a b : older s a b = true -> older s b a = false.
Proof.
  unfold older. rewrite orb_true_iff, andb_true_iff, orb_false_iff, andb_false_iff,
    !Z.ltb_ge, !Z.ltb_lt, !Z.eqb_neq, !Z.eqb_eq. lia.
Qed.

Lemma last_turn_prune s x :
  last_turn (prune_turns s) x = if bool_decide (x ∈ requests s) then last_turn s x else -1.
Proof.
  unfold last_turn, prune_turns. simpl. rewrite map_lookup_filter.
  destruct (_long_prefill_last_scheduled s !! x) as [v|]; simpl; [|by case_bool_decide].
  case_bool_decide as Hx; simpl; [by rewrite option_guard_True|by rewrite option_guard_False].
Qed.

(** The candidates of a step. *)
Definition candidates cfg s : list string :=
  let waitc := waiting_candidates cfg s in
  let admittable := Z.max 0 (max_num_running_reqs cfg - Z.of_nat (length (running s))) in
  if (0 <? admittable) && negb (Nat.eqb (length waitc) 0) then
    running_candidates cfg s ++
      List.filter (fun id => bool_decide (id ∈ slice_to admittable (by_age (prune_turns s) waitc))) waitc
  else running_candidates cfg s.

Lemma select_eq cfg s :
  enable_decode_aware_prefill cfg = true ->
  _select_long_prefill_request_ids cfg s =
    (prune_turns s,
     slice_to (max_long_prefills_per_step cfg) (by_age (prune_turns s) (candidates cfg s))).
Proof. intros He. unfold _select_long_prefill_request_ids. by rewrite He. Qed.

Lemma candidates_NoDup cfg s : NoDup (running s) -> NoDup (candidates cfg s).
Proof.
  intros Hn. unfold candidates. break_if; [|by apply NoDup_filter_b].
  apply NoDup_app. split; [by apply NoDup_filter_b|]. split.
  - intros x Hx. rewrite elem_of_filter_b. intros [Hw _].
    by apply elem_of_collect in Hw as (_ & Hns & _).
  - apply NoDup_filter_b, collect_NoDup.
Qed.

Lemma candidates_all cfg s x :
  x ∈ candidates cfg s -> x ∈ running_candidates cfg s ++ waiting_candidates cfg s.
Proof.
  unfold candidates. break_if; [|set_solver]. rewrite !elem_of_app, elem_of_filter_b. tauto.
Qed.

Lemma running_candidates_in cfg s x : x ∈ running_candidates cfg s -> x ∈ candidates cfg s.
Proof. unfold candidates. break_if; set_solver. Qed.

(** Bounds: the selection hands out at most [max_long_prefills_per_step]
    turns, each to a distinct tracked long prefill; with no free sequence slot
    every turn goes to a running request, and otherwise the waiting requests
    that get one are no more than the free slots. *)
Theorem selection_bounds cfg s :
  NoDup (running s) -> 0 <= max_long_prefills_per_step cfg ->
  let sel := snd (_select_long_prefill_request_ids cfg s) in
  let free := Z.max 0 (max_num_running_reqs cfg - Z.of_nat (length (running s))) in
  Z.of_nat (length sel) <= max_long_prefills_per_step cfg /\
  NoDup sel /\
  Forall (fun id => _is_long_prefill_request cfg (req s id) = true /\
            id ∈ running s ++ q_list (waiting s) ++ q_list (skipped_waiting s)) sel /\
  Z.of_nat (length (List.filter (fun id => bool_decide (id ∉ running_candidates cfg s)) sel)) <= free.
Proof.
  intros Hn Hk sel free. subst sel.
  destruct (enable_decode_aware_prefill cfg) eqn:He; [rewrite select_eq by done; simpl|].
  2:{ unfold _select_long_prefill_request_ids. rewrite He. simpl.
      repeat split; try lia; constructor. }
  pose proof (candidates_NoDup cfg s Hn) as Hc.
  set (s1 := prune_turns s). set (l := by_age s1 (candidates cfg s)).
  assert (NoDup l) as Hl by (unfold l, by_age; by rewrite sort_by_perm).
  assert (forall x, x ∈ slice_to (max_long_prefills_per_step cfg) l -> x ∈ candidates cfg s) as Hin.
  { intros x Hx%elem_of_slice_to. unfold l, by_age in Hx. by rewrite sort_by_perm in Hx. }
  assert (NoDup (slice_to (max_long_prefills_per_step cfg) l)) as Hs.
  { unfold slice_to. eapply sublist_NoDup; [exact Hl|]. apply sublist_take. }
  split; [rewrite slice_to_length by done; lia|]. split; [done|]. split.
  - apply Forall_forall. intros x Hx%Hin%candidates_all.
    apply elem_of_app in Hx as [Hx|Hx].
    + apply elem_of_filter_b in Hx as [Hr Hlong]. set_solver.
    + apply elem_of_collect in Hx as (Hx & _ & Hlong). set_solver.
  - set (f := fun id => bool_decide (id ∉ running_candidates cfg s)).
    assert (List.filter f (slice_to (max_long_prefills_per_step cfg) l) ⊆+
      slice_to free (by_age s1 (waiting_candidates cfg s))) as Hsub.
    { apply NoDup_submseteq; [by apply NoDup_filter_b|]. intros x.
      rewrite elem_of_filter_b. unfold f. rewrite bool_decide_eq_true. intros [Hx%Hin Hnr].
      unfold candidates in Hx. fold free in Hx.
      break_if; [|done]. apply elem_of_app in Hx as [Hx|Hx]; [done|].
      apply elem_of_filter_b in Hx as [_ Hx]. by apply bool_decide_eq_true in Hx. }
    apply submseteq_length in Hsub.
    pose proof (slice_to_length free (by_age s1 (waiting_candidates cfg s)) ltac:(lia)). lia.
Qed.

(** ** Turns *)

Definition selected cfg s : list string := snd (_select_long_prefill_request_ids cfg s).

(** All the long prefills a step can consider. *)
Definition pool cfg s : list string := running_candidates cfg s ++ waiting_candidates cfg s.

Lemma debit_fold_spec ns ids s :
  let s' := fold_left (debit ns) ids s in
  current_step s' = current_step s /\
  forall x, last_turn s' x =
    if bool_decide (x ∈ ids) && bool_decide (x ∉ dkeys ns) then current_step s else last_turn s x.
Proof.
  revert s; induction ids as [|y ids IH]; intros s; simpl; [done|].
  specialize (IH (debit ns s y)). simpl in IH. destruct IH as (H2 & H3).
  assert (current_step (debit ns s y) = current_step s) as Hc by (unfold debit; by case_bool_decide).
  split; [congruence|].
  intros x. rewrite H3, Hc. unfold debit, last_turn.
  destruct (decide (x = y)) as [->|Hne].
  - rewrite (bool_decide_eq_true_2 (y ∈ y :: ids)) by left. simpl.
    destruct (decide (y ∈ dkeys ns)).
    + rewrite (bool_decide_eq_false_2 (y ∉ _)), andb_false_r by tauto.
      by rewrite bool_decide_eq_true_2.
    + rewrite (bool_decide_eq_true_2 (y ∉ _)), andb_true_r,
        (bool_decide_eq_false_2 (y ∈ dkeys ns)) by done.
      simpl. rewrite lookup_insert_eq. by case_bool_decide.
  - replace (bool_decide (x ∈ y :: ids)) with (bool_decide (x ∈ ids))
      by (apply bool_decide_ext; set_solver).
    destruct (bool_decide (x ∈ ids) && _); [done|].
    case_bool_decide; [done|]. simpl. by rewrite lookup_insert_ne.
Qed.

(** The charge at the end of a step that deferred nothing and is not paused. *)
Lemma debit_spec cfg sel ns s :
  enable_decode_aware_prefill cfg = true -> _pause_state s <> PAUSED_ALL ->
  let s' := _debit_unused_long_prefill_turns cfg sel ns false s in
  current_step s' = current_step s /\
  forall x, last_turn s' x =
    if bool_decide (x ∈ sel) && bool_decide (x ∉ dkeys ns) then current_step s else last_turn s x.
Proof.
  intros He Hp. unfold _debit_unused_long_prefill_turns. rewrite He. simpl.
  rewrite bool_decide_eq_false_2 by done.
  destruct sel as [|y sel]; [done|]. apply debit_fold_spec.
Qed.

Lemma older_false_iff s a b :
  older s a b = false <->
  last_turn s b < last_turn s a \/
  (last_turn s b = last_turn s a /\ arrival_time (req s b) <= arrival_time (req s a)).
Proof. unfold older. rewrite orb_false_iff, andb_false_iff, !Z.ltb_ge, Z.eqb_neq. lia. Qed.

Lemma selected_in_pool cfg s x :
  x ∈ selected cfg s -> x ∈ pool cfg s /\ enable_decode_aware_prefill cfg = true.
Proof.
  unfold selected. destruct (enable_decode_aware_prefill cfg) eqn:He.
  - rewrite select_eq by done. simpl. intros Hx%elem_of_slice_to. unfold by_age in Hx.
    rewrite sort_by_perm in Hx. split; [by apply candidates_all|done].
  - unfold _select_long_prefill_request_ids. rewrite He. by intros ?%elem_of_nil.
Qed.

Lemma pool_long cfg s x :
  x ∈ pool cfg s -> _is_long_prefill_request cfg (req s x) = true /\
    x ∈ running s ++ q_list (waiting s) ++ q_list (skipped_waiting s).
Proof.
  unfold pool. intros [Hx|Hx]%elem_of_app.
  - apply elem_of_filter_b in Hx as [Hr Hl]. set_solver.
  - apply elem_of_collect in Hx as (Hx & _ & Hl). set_solver.
Qed.

Lemma selected_NoDup cfg s : NoDup (running s) -> NoDup (selected cfg s).
Proof.
  intros Hn. unfold selected. destruct (enable_decode_aware_prefill cfg) eqn:He.
  - rewrite select_eq by done. simpl. unfold slice_to. eapply sublist_NoDup; [|apply sublist_take].
    unfold by_age. rewrite sort_by_perm. by apply candidates_NoDup.
  - unfold _select_long_prefill_request_ids. rewrite He. constructor.
Qed.

(** A candidate that is passed over: all turns are given, to requests whose last
    turn is not later. *)
Lemma passed_over cfg s c :
  enable_decode_aware_prefill cfg = true -> 0 < max_long_prefills_per_step cfg ->
  c ∈ candidates cfg s -> c ∉ selected cfg s ->
  Z.of_nat (length (selected cfg s)) = max_long_prefills_per_step cfg /\
  forall x, x ∈ selected cfg s -> last_turn (prune_turns s) x <= last_turn (prune_turns s) c.
Proof.
  intros He Hk Hc. unfold selected. rewrite select_eq by done. simpl.
  unfold slice_to. rewrite (proj2 (Z.ltb_ge _ _)) by lia. unfold by_age. intros Hni.
  destruct (sort_by_take_before (older (prune_turns s)) (Z.to_nat (max_long_prefills_per_step cfg))
    (candidates cfg s) c) as [Hlen Hb];
    [apply older_trans|apply older_asym|done|done|].
  split; [rewrite Hlen; lia|]. rewrite Forall_forall in Hb. intros x Hx.
  specialize (Hb x Hx). apply older_false_iff in Hb. lia.
Qed.

End LongPrefill.

#[local] Existing Instances Mini.queue Mini.queue_laws.

(** Two long prefills that compete for one turn. *)
Definition example_cfg : config :=
  Mini.cfg <| enable_decode_aware_prefill := true |> <| long_prefill_token_threshold := 4 |>.
Definition example_state : sched Z (list string) :=
  Mini.sched_of 4 [Mini.request_of "a" RUNNING 9 2; Mini.request_of "b" RUNNING 9 2]
    [Mini.request_of "c" WAITING 9 0].

Lemma selection_bounds_witness :
  Z.of_nat (length (snd (_select_long_prefill_request_ids example_cfg example_state))) <= 1.
Proof.
  refine (proj1 (selection_bounds example_cfg example_state _ _)).
  - apply (bool_decide_unpack _). vm_compute. exact I.
  - vm_compute. congruence.
Defined.

End LongPrefill.

(** ** Speculative-decoding counters *)
Module Mtp.
Import Controller.

(** The per-position loop over [range(1, n + 1)] for one verified request,
    from position [pos] on. *)
Fixpoint count_positions (pos num_draft num_accepted : Z) (el ac : list Z) : list Z * list Z :=
  match el, ac with
  | e :: el', a :: ac' =>
      if num_draft <? pos then (el, ac)
      else
        let e := if (pos =? 1) || (pos - 1 <=? num_accepted) then e + 1 else e in
        let a := if pos <=? num_accepted then a + 1 else a in
        let '(el', ac') := count_positions (pos + 1) num_draft num_accepted el' ac' in
        (e :: el', a :: ac')
  | _, _ => (el, ac)
  end.

(** The counters [update_from_output] accumulates for the controller. *)
Record adaptive := mkAdaptive {
  ad_drafts : Z;
  ad_draft_tokens : Z;
  ad_accepted : Z;
  ad_eligible : list Z;
  ad_accepted_pos : list Z
}.

Definition adaptive0 (n : Z) : adaptive := mkAdaptive 0 0 0 (zeros n) (zeros n).

Definition add_sample (num_draft num_accepted : Z) (c : adaptive) : adaptive :=
  let '(el, ac) := count_positions 1 num_draft num_accepted (ad_eligible c) (ad_accepted_pos c) in
  mkAdaptive (ad_drafts c + 1) (ad_draft_tokens c + num_draft) (ad_accepted c + num_accepted) el ac.

(** [_reset_mtp_window]. *)
Definition _reset_mtp_window (n : Z) (w : mtp_window) : mtp_window :=
  mkMtp 0 0 0 0 0 None (zeros n) (zeros n) ∅ None (_mtp_window_index w) (_mtp_selected_k_run w).

(** A verified request: draft tokens, accepted, computed and output tokens. *)
Record sample := mkSample { s_draft : Z; s_accepted : Z; s_context : Z; s_output : Z }.

Definition record_sample (w : mtp_window) (x : sample) : mtp_window :=
  let '(el, ac) := count_positions 1 (s_draft x) (s_accepted x)
                     (_mtp_window_position_eligible w) (_mtp_window_position_accepted w) in
  w <| _mtp_window_draft_tokens ::= Z.add (s_draft x) |>
    <| _mtp_window_accepted_tokens ::= Z.add (s_accepted x) |>
    <| _mtp_window_output_tokens ::= Z.add (s_output x) |>
    <| _mtp_window_context := Some (match _mtp_window_context w with
         | None => (s_context x, s_context x)
         | Some (lo, hi) => (Z.min lo (s_context x), Z.max hi (s_context x))
         end) |>
    <| _mtp_window_position_eligible := el |>
    <| _mtp_window_position_accepted := ac |>.

(** The counts of the record logged at a window boundary. *)
Record mtp_record := mkRecord {
  r_window_index : Z;
  r_active_k : Z;
  r_active_k_at_window_start : option Z;
  r_verification_steps : Z;
  r_draft_batches : Z;
  r_drafts_attempted : Z;
  r_drafts_accepted : Z;
  r_acceptance_ratio : PyFloat.float;
  r_position_eligible : list Z;
  r_position_accepted : list Z;
  r_position_conditional_acceptance : list PyFloat.float;
  r_position_unconditional_gain : list PyFloat.float;
  r_tail_gain_23 : PyFloat.float;
  r_position_4_gain : PyFloat.float;
  r_output_tokens_emitted : Z;
  r_context_tokens : option (Z * Z);
  r_selected_k_window : gmap Z Z;
  r_selected_k_run : gmap Z Z
}.

Definition window_record (cfg : config) (active : Z) (w : mtp_window) : mtp_record :=
  let n := _mtp_num_positions cfg in
  let batches := _mtp_window_batches w in
  let acc := _mtp_window_position_accepted w in
  let el := _mtp_window_position_eligible w in
  {| r_window_index := _mtp_window_index w;
     r_active_k := active;
     r_active_k_at_window_start := _mtp_window_active_k_first w;
     r_verification_steps := _mtp_window_steps w;
     r_draft_batches := batches;
     r_drafts_attempted := _mtp_window_draft_tokens w;
     r_drafts_accepted := _mtp_window_accepted_tokens w;
     r_acceptance_ratio :=
       PyFloat.ratio (_mtp_window_accepted_tokens w) (_mtp_window_draft_tokens w);
     r_position_eligible := el;
     r_position_accepted := acc;
     r_position_conditional_acceptance :=
       map (fun i => PyFloat.ratio (at_pos (Z.to_nat i) acc) (at_pos (Z.to_nat i) el)) (range 0 n);
     r_position_unconditional_gain :=
       map (fun i => PyFloat.ratio (at_pos (Z.to_nat i) acc) batches) (range 0 n);
     r_tail_gain_23 :=
       if negb (batches =? 0) && (4 <=? n)
       then PyFloat.truediv (at_pos 2 acc + at_pos 3 acc) batches else S754_zero false;
     r_position_4_gain :=
       if negb (batches =? 0) && (5 <=? n)
       then PyFloat.truediv (at_pos 4 acc) batches else S754_zero false;
     r_output_tokens_emitted := _mtp_window_output_tokens w;
     r_context_tokens := _mtp_window_context w;
     r_selected_k_window := _mtp_window_selected_k w;
     r_selected_k_run := _mtp_selected_k_run w |}.

Definition bump (k : Z) (m : gmap Z Z) : gmap Z Z := <[k := default 0 (m !! k) + 1]> m.

(** [_record_mtp_instrumentation]: the window after the step, and the record
    it logs, if it closes the window.  Clock readings are left out. *)
Definition _record_mtp_instrumentation (cfg : config) (samples : list sample) (active : Z)
    (w : mtp_window) : mtp_window * option mtp_record :=
  if negb (mtp_instrument_enabled cfg) then (w, None)
  else
    let w := w <| _mtp_window_steps ::= Z.add 1 |>
               <| _mtp_window_active_k_first ::= fun o =>
                    match o with None => Some active | Some _ => o end |>
               <| _mtp_window_selected_k ::= bump active |>
               <| _mtp_selected_k_run ::= bump active |> in
    let w := fold_left record_sample samples
               (w <| _mtp_window_batches ::= Z.add (Z.of_nat (length samples)) |>) in
    if _mtp_window_steps w <? mtp_instrument_window cfg then (w, None)
    else (_reset_mtp_window (_mtp_num_positions cfg) (w <| _mtp_window_index ::= Z.add 1 |>),
          Some (window_record cfg active w)).

Lemma count_positions_spec pos d a el ac i :
  length el = length ac -> 0 < pos -> (i < length el)%nat ->
  let '(el', ac') := count_positions pos d a el ac in
  let p := pos + Z.of_nat i in
  nth i el' 0 = nth i el 0 +
    (if (p <=? d) && ((p =? 1) || (p - 1 <=? a)) then 1 else 0) /\
  nth i ac' 0 = nth i ac 0 + (if (p <=? d) && (p <=? a) then 1 else 0).
Proof.
  revert pos ac i; induction el as [|e el IH]; intros pos ac i Hl Hp Hi; simpl in *; [lia|].
  destruct ac as [|a0 ac]; simpl in *; [lia|].
  destruct (Z.ltb_spec d pos) as [Hd|Hd].
  { destruct (Z.leb_spec (pos + Z.of_nat i) d); [lia|]. cbn [andb]. rewrite !Z.add_0_r. done. }
  specialize (IH (pos + 1) ac). destruct (count_positions (pos + 1) d a el ac) as [el' ac'].
  destruct i as [|i]; simpl.
  - replace (pos + Z.of_nat 0) with pos by lia. destruct (Z.leb_spec pos d); [|lia]. simpl.
    clear IH. destruct (Z.eqb_spec pos 1), (Z.leb_spec (pos - 1) a), (Z.leb_spec pos a); simpl; lia.
  - specialize (IH i ltac:(lia) ltac:(lia) ltac:(lia)). cbv zeta in IH.
    replace (pos + 1 + Z.of_nat i) with (pos + Z.of_nat (S i)) in IH by lia.
    destruct IH as [-> ->]. split; done.
Qed.

Lemma count_positions_ok pos d a el ac :
  0 < pos -> Forall2 (fun e a => 0 <= a <= e) el ac ->
  let '(el', ac') := count_positions pos d a el ac in
  length el' = length el /\ Forall2 (fun e a => 0 <= a <= e) el' ac'.
Proof.
  intros Hp Hf. revert pos Hp. induction Hf as [|e a0 el ac H Hf IH]; intros pos Hp; simpl;
    [by split; [|constructor]|].
  destruct (Z.ltb_spec d pos); [split; [done|by constructor]|].
  specialize (IH (pos + 1) ltac:(lia)).
  destruct (count_positions (pos + 1) d a el ac). simpl. destruct IH as [IHl IH].
  split; [lia|]. constructor; [|done].
  destruct (Z.eqb_spec pos 1), (Z.leb_spec (pos - 1) a), (Z.leb_spec pos a); simpl; lia.
Qed.

Definition collect_samples (n : Z) (xs : list (Z * Z)) : adaptive :=
  fold_left (fun c '(d, a) => add_sample d a c) xs (adaptive0 n).

Record adaptive_ok (n : Z) (c : adaptive) : Prop := mkAdOk {
  ad_ok_drafts : 0 <= ad_drafts c;
  ad_ok_tokens : 0 <= ad_accepted c <= ad_draft_tokens c;
  ad_ok_zero : ad_drafts c = 0 -> ad_draft_tokens c = 0;
  ad_ok_pos : positions_ok n (ad_eligible c) (ad_accepted_pos c)
}.

Lemma adaptive0_ok n : 0 <= n -> adaptive_ok n (adaptive0 n).
Proof. intros Hn. constructor; simpl; try lia. split.
  - unfold zeros. rewrite length_replicate. lia.
  - apply Forall2_replicate. lia.
Qed.

Lemma add_sample_ok n d a c : 0 <= a <= d -> adaptive_ok n c -> adaptive_ok n (add_sample d a c).
Proof.
  intros Ha [H1 H2 H3 [H4 H5]]. unfold add_sample.
  pose proof (count_positions_ok 1 d a _ _ ltac:(lia) H5) as Hc.
  destruct (count_positions _ _ _ _ _) as [el ac]. destruct Hc as [Hl Hc].
  constructor; simpl; try lia. split; [lia|done].
Qed.

Lemma collect_samples_ok n xs :
  0 <= n -> Forall (fun '(d, a) => 0 <= a <= d) xs -> adaptive_ok n (collect_samples n xs).
Proof.
  intros Hn. unfold collect_samples.
  generalize (adaptive0 n), (adaptive0_ok n Hn). intros c Hc Hx. revert c Hc.
  induction Hx as [|[d a] xs Hda Hx IH]; intros c Hc; simpl; [done|].
  apply IH. by apply add_sample_ok.
Qed.

Lemma nth_zeros i n : nth i (zeros n) 0 = 0.
Proof.
  unfold zeros. generalize (Z.to_nat n) as k. intros k. revert i.
  induction k as [|k IH]; intros [|i]; simpl; auto.
Qed.

Definition count (f : Z * Z -> bool) (xs : list (Z * Z)) : Z := Z.of_nat (length (List.filter f xs)).

Lemma count_cons f x xs : count f (x :: xs) = (if f x then 1 else 0) + count f xs.
Proof. unfold count. simpl. destruct (f x); simpl; lia. Qed.

(** From any accumulator, the samples add their own counts. *)
Lemma collect_counts n xs c i :
  adaptive_ok n c -> Forall (fun '(d, a) => 0 <= a <= d) xs -> Z.of_nat i < n ->
  let c' := fold_left (fun c '(d, a) => add_sample d a c) xs c in
  nth i (ad_eligible c') 0 = nth i (ad_eligible c) 0 +
    count (fun '(d, a) => (Z.of_nat i <? d) && (Z.of_nat i <=? a)) xs /\
  nth i (ad_accepted_pos c') 0 = nth i (ad_accepted_pos c) 0 +
    count (fun '(d, a) => Z.of_nat i <? a) xs /\
  ad_drafts c' = ad_drafts c + Z.of_nat (length xs) /\
  ad_draft_tokens c' = ad_draft_tokens c + zsum xs.*1 /\
  ad_accepted c' = ad_accepted c + zsum xs.*2.
Proof.
  intros Hc Hx Hi. revert c Hc.
  induction Hx as [|[d a] xs Hda Hx IH]; intros c Hc; cbn [fold_left].
  { unfold count; simpl. repeat split; lia. }
  pose proof (add_sample_ok n d a c Hda Hc) as Hok.
  specialize (IH _ Hok). cbv zeta in IH. destruct IH as (-> & -> & -> & -> & ->).
  rewrite !count_cons, !fmap_cons.
  unfold zsum. cbn [foldr fst snd length]. fold (zsum xs.*1) (zsum xs.*2).
  destruct (ad_ok_pos _ _ Hc) as [Hl Hf]. pose proof (Forall2_length _ _ _ Hf) as Hl2.
  unfold add_sample.
  pose proof (count_positions_spec 1 d a _ _ i Hl2 ltac:(lia) ltac:(lia)) as Hs.
  destruct (count_positions _ _ _ _ _) as [el ac]. cbv zeta in Hs. destruct Hs as [He Ha].
  simpl. rewrite He, Ha.
  destruct (Z.leb_spec (1 + Z.of_nat i) d), (Z.eqb_spec (1 + Z.of_nat i) 1),
    (Z.leb_spec (1 + Z.of_nat i - 1) a), (Z.leb_spec (1 + Z.of_nat i) a),
    (Z.ltb_spec (Z.of_nat i) d), (Z.leb_spec (Z.of_nat i) a), (Z.ltb_spec (Z.of_nat i) a);
    cbn [andb orb]; lia.
Qed.

(** Functional: the counts a step hands to the controller.  For verified
    requests with [accepted <= drafted], position [i] (from 0) is eligible
    once per request that drafted more than [i] tokens and accepted at least
    [i], and accepted once per request that accepted more than [i]; and a
    controller of that many positions on a production ladder never raises on
    them, whatever its window holds. *)
Theorem adaptive_counts_exact n xs c :
  0 < n -> Forall (fun '(d, a) => 0 <= a <= d) xs ->
  inv c -> max_num_spec_tokens c = n -> production_ladder (depth_ladder c) ->
  let k := collect_samples n xs in
  (forall i, Z.of_nat i < n ->
     nth i (ad_eligible k) 0 =
       count (fun '(d, a) => (Z.of_nat i <? d) && (Z.of_nat i <=? a)) xs /\
     nth i (ad_accepted_pos k) 0 = count (fun '(d, a) => Z.of_nat i <? a) xs) /\
  ad_drafts k = Z.of_nat (length xs) /\
  is_ok (snd (observe_batch c (ad_drafts k) (ad_draft_tokens k) (ad_accepted k)
                (Some (ad_eligible k)) (Some (ad_accepted_pos k)))) = true.
Proof.
  intros Hn Hx Hc Hm Hl k.
  pose proof (collect_samples_ok n xs ltac:(lia) Hx) as Hok. fold k in Hok.
  pose proof (adaptive0_ok n ltac:(lia)) as H0.
  pose proof (fun i Hi => collect_counts n xs _ i H0 Hx Hi) as Hcnt. cbv zeta in Hcnt.
  fold (collect_samples n xs) in Hcnt. fold k in Hcnt.
  split; [|split].
  - intros i Hi. destruct (Hcnt i Hi) as (-> & -> & _). simpl.
    rewrite nth_zeros. lia.
  - destruct (Hcnt 0%nat ltac:(lia)) as (_ & _ & -> & _). simpl. lia.
  - destruct Hok as [H1 H2 H3 [H4 H5]].
    destruct (Z.eq_dec (ad_drafts k) 0) as [Hz|Hz].
    + specialize (H3 Hz). unfold observe_batch. rewrite Hz, H3.
      assert (ad_accepted k = 0) as -> by lia. done.
    + set (b := mkBatch (ad_drafts k) (ad_draft_tokens k) (ad_accepted k)
                  (Some (ad_eligible k)) (Some (ad_accepted_pos k))).
      destruct (call_valid c b Hc) as (c1 & (_ & _ & _ & _ & _ & Hlad & _) & _ & Heq).
      { unfold valid_batch; simpl. repeat split; try lia. done. }
      unfold call in Heq. simpl in Heq. rewrite Heq. break_if; [done|].
      destruct (decide_target_production c1
        (PyFloat.truediv (num_accepted_tokens c1) (num_drafts c1))
        (PyFloat.truediv (num_draft_tokens c1) (num_drafts c1))) as [[[kk r] t] Hk];
        [by rewrite Hlad|]. cbv zeta. rewrite Hk. done.
Qed.

Lemma adaptive_counts_exact_witness :
  exists c, init 5 8 (Some [2; 4; 5]) = Ok c /\
    ad_eligible (collect_samples 5 [(2, 1); (4, 4)]) = [2; 2; 1; 1; 0] /\
    ad_drafts (collect_samples 5 [(2, 1); (4, 4)]) = 2.
Proof.
  destruct (init 5 8 (Some [2; 4; 5])) as [c|] eqn:Ei; [|discriminate].
  exists c. split; [reflexivity|]. split; [reflexivity|].
  pose proof (init_inv _ _ _ _ Ei) as Hi. injection Ei as <-.
  refine (proj1 (proj2 (adaptive_counts_exact 5 [(2, 1); (4, 4)] _ _ _ Hi eq_refl _))).
  - lia.
  - repeat constructor; lia.
  - right; reflexivity.
Defined.

End Mtp.
