(* ===== verification/SchedEncoder.v ===== *)
(** * Encoder inputs of a scheduled chunk

    [scheduler.py]: [_try_schedule_encoder_inputs] and [_free_encoder_inputs].
    The window of features, the cache and the encoder connector are services. *)
From S2P Require Export SchedSelect.
Import PyDict PyList.

Section Encoder.
Context {E B : Type} `{Services E B}.
Implicit Types (cfg : config) (r : request).

(** The local variables of the loop. *)
Record enc_state := mkEnc {
  en_env : E;
  en_new : Z;                 (** [num_new_tokens] *)
  en_budget : Z;              (** [encoder_compute_budget] *)
  en_hashes : list string;    (** [mm_hashes_to_schedule] *)
  en_embeds : Z;              (** [num_embeds_to_schedule] *)
  en_sched : list Z;          (** [encoder_inputs_to_schedule] *)
  en_ext : list Z             (** [external_load_encoder_input] *)
}.
#[export] Instance enc_state_eta : Eta enc_state := fun s =>
  mkEnc (en_env s) (en_new s) (en_budget s) (en_hashes s) (en_embeds s) (en_sched s) (en_ext s).

Definition feature r (i : Z) : mm_feature := nth (Z.to_nat i) (mm_features r) inhabitant.

(** One iteration, for the feature [i]. *)
Definition encoder_item cfg r (num_computed shift : Z) (i : Z) (st : enc_state)
    : result (ctl enc_state) :=
  let f := feature r i in
  let start_pos := offset f in
  let num_encoder_tokens := mm_length f in
  if is_encoder_decoder cfg && (0 <? num_computed) then
    let* _ := require (start_pos =? 0) AssertionError in Ok (Continue st)
  else if negb (is_encoder_decoder cfg) && bool_decide (identifier f ∈ en_hashes st)
  then Ok (Continue st)
  else
    let '(e, cached) :=
      if is_encoder_decoder cfg then (en_env st, false)
      else enc_check_and_update_cache (en_env st) r i in
    let st := st <| en_env := e |> in
    if cached then Ok (Continue st)
    else if disable_chunked_mm_input cfg && (num_computed <? start_pos)
            && (num_computed + en_new st <? start_pos + num_encoder_tokens) then
      Ok (Break (st <| en_new := Z.max 0 (start_pos - (num_computed + shift)) |>))
    else if negb (enc_can_allocate e r i (en_budget st) (en_embeds st)) then
      Ok (Break (st <| en_new :=
            if num_computed + shift <? start_pos
            then start_pos - (num_computed + shift) else 0 |>))
    else
      let start_idx_rel := Z.max 0 (num_computed - start_pos) in
      let end_idx_rel := Z.min num_encoder_tokens (num_computed + en_new st - start_pos) in
      let '(es, ee) := get_embeds_indices_in_range f start_idx_rel end_idx_rel in
      if ee - es =? 0 then Ok (Continue st)
      else if ec_connector cfg && ec_has_cache_item e (identifier f) then
        Ok (Continue (st <| en_hashes ::= cons (identifier f) |>
                         <| en_ext ::= fun l => l ++ [i] |>
                         <| en_embeds ::= Z.add (num_embeds f) |>))
      else
        Ok (Continue (st <| en_embeds ::= Z.add (num_embeds f) |>
                         <| en_budget ::= fun b => b - num_embeds f |>
                         <| en_hashes ::= cons (identifier f) |>
                         <| en_sched ::= fun l => l ++ [i] |>)).

(** [_try_schedule_encoder_inputs]: the services' new state and the tuple
    (inputs to schedule, new tokens, budget left, inputs loaded externally). *)
Definition _try_schedule_encoder_inputs cfg (e : E) r
    (num_computed num_new budget shift : Z) : result (E * (list Z * Z * Z * list Z)) :=
  if (num_new =? 0) || negb (has_encoder_inputs r) then Ok (e, ([], num_new, budget, []))
  else
    let '(lo, hi) := get_mm_features_in_window (mm_features r) num_computed
                       (num_computed + num_new + shift) in
    let lo := if is_encoder_decoder cfg then 0 else lo in
    let* st := for_each (encoder_item cfg r num_computed shift) (range lo hi)
                 (mkEnc e num_new budget [] 0 [] []) in
    Ok (en_env st, (en_sched st, en_new st, en_budget st, en_ext st)).

(** [_free_encoder_inputs]. *)
Definition _free_encoder_inputs cfg (e : E) r : E :=
  let ids := enc_get_cached_input_ids e r in
  let spec_lookahead := if use_eagle cfg then 1 else 0 in
  fold_left (fun e i =>
    let f := feature r i in
    if is_encoder_decoder cfg && (0 <? num_computed_tokens r) then enc_free_encoder_input e r i
    else if offset f + mm_length f + spec_lookahead
              <=? num_computed_tokens r - num_output_placeholders r
    then enc_free_encoder_input e r i
    else e) ids e.

(** ** Lemmas *)

Definition embeds_of r (l : list Z) : Z := zsum (map (fun i => num_embeds (feature r i)) l).

Lemma embeds_of_snoc r l i : embeds_of r (l ++ [i]) = embeds_of r l + num_embeds (feature r i).
Proof. unfold embeds_of. rewrite map_app, zsum_app. unfold zsum at 2. simpl. lia. Qed.

Lemma range_cons a b : a < b -> range a b = a :: range (a + 1) b.
Proof.
  intros Hab. unfold range. rewrite seqZ_cons by lia. do 2 f_equal; lia.
Qed.

Context `{!ServicesLaws E B}.

(** What the request's features must satisfy: in order of their offsets. *)
Definition features_ok r : Prop :=
  forall i j, 0 <= i <= j -> j < Z.of_nat (length (mm_features r)) ->
    offset (feature r i) <= offset (feature r j).

(** The cache manager once the features [l] have been looked up, in that order. *)
Definition looked_up (e : E) r (l : list Z) : E :=
  fold_left (fun e i => fst (enc_check_and_update_cache e r i)) l e.

(** Feature [i] is in the cache: the call that starts with manager [e] and
    window [lo] looks it up, after some of the features before it, and finds it. *)
Definition in_cache (e : E) r (lo i : Z) : Prop :=
  exists l, l `sublist_of` range lo i /\ snd (enc_check_and_update_cache (looked_up e r l) r i) = true.

(** What [can_allocate] promises: no more embeddings than the budget left. *)
Definition allocates_within_budget r : Prop :=
  forall e i b n, enc_can_allocate e r i b n = true -> get_num_encoder_embeds r i <= b.

(** Input [i] needs nothing of this step, or its computation is arranged. *)
Definition settled (e : E) lo r (num_computed num_new : Z) (st : enc_state) (i : Z) : Prop :=
  i ∈ en_sched st \/ i ∈ en_ext st \/ identifier (feature r i) ∈ en_hashes st \/
  in_cache e r lo i \/
  (let f := feature r i in
   let '(es, ee) := get_embeds_indices_in_range f (Z.max 0 (num_computed - offset f))
                      (Z.min (mm_length f) (num_computed + num_new - offset f)) in ee = es).

(** The loop invariant while the indices [rest] remain. *)
Record enc_inv (e : E) r (num_computed num_new budget lo hi : Z) (rest : list Z) (st : enc_state)
    : Prop := mkEncInv {
  ei_rest : exists k, lo <= k <= Z.max lo hi /\ rest = range k hi /\
              (exists l, l `sublist_of` range lo k /\ en_env st = looked_up e r l) /\
              (forall i, lo <= i < k -> settled e lo r num_computed num_new st i) /\
              Forall (fun i => lo <= i < Z.min k hi) (en_sched st ++ en_ext st);
  ei_new : en_new st = num_new;
  ei_budget : en_budget st = budget - embeds_of r (en_sched st);
  ei_fits : allocates_within_budget r -> 0 <= budget -> 0 <= en_budget st;
  ei_sorted : NoDup (en_sched st);
  ei_hashes : forall h, h ∈ en_hashes st ->
                h ∈ map (fun i => identifier (feature r i)) (en_sched st ++ en_ext st)
}.

Lemma settled_mono e lo r nc nn st st' i :
  (forall x, x ∈ en_sched st -> x ∈ en_sched st') -> (forall x, x ∈ en_ext st -> x ∈ en_ext st') ->
  (forall x, x ∈ en_hashes st -> x ∈ en_hashes st') ->
  settled e lo r nc nn st i -> settled e lo r nc nn st' i.
Proof. unfold settled. intuition auto. Qed.

Lemma range_rest_inv (i : Z) rest k hi :
  i :: rest = range k hi -> i = k /\ rest = range (k + 1) hi /\ k < hi.
Proof.
  intros Hr. destruct (Z.lt_ge_cases k hi) as [Hlt|Hge].
  - rewrite range_cons in Hr by done. by injection Hr as -> ->.
  - unfold range in Hr. by rewrite seqZ_nil in Hr by lia.
Qed.

(** An iteration that settles its input keeps the invariant. *)
Lemma looked_up_snoc e r l i : looked_up e r (l ++ [i]) = fst (enc_check_and_update_cache (looked_up e r l) r i).
Proof. unfold looked_up. by rewrite fold_left_app. Qed.

Lemma sublist_range_S lo k l : lo <= k -> l `sublist_of` range lo k ->
  l `sublist_of` range lo (k + 1) /\ l ++ [k] `sublist_of` range lo (k + 1).
Proof.
  intros Hk Hl. assert (range lo (k + 1) = range lo k ++ [k]) as ->.
  { unfold range. replace (k + 1 - lo) with ((k - lo) + 1) by lia. rewrite seqZ_app by lia. do 2 f_equal.
    replace (lo + (k - lo)) with k by lia. done. }
  split; [by apply sublist_inserts_r|by apply sublist_app].
Qed.

Lemma enc_inv_step e r nc nn budget lo hi i rest st st' :
  enc_inv e r nc nn budget lo hi (i :: rest) st ->
  en_new st' = en_new st ->
  (en_env st' = en_env st \/ en_env st' = fst (enc_check_and_update_cache (en_env st) r i)) ->
  settled e lo r nc nn st' i ->
  (en_sched st' = en_sched st /\ en_budget st' = en_budget st \/
   en_sched st' = en_sched st ++ [i] /\ en_budget st' = en_budget st - num_embeds (feature r i) /\
     (allocates_within_budget r -> num_embeds (feature r i) <= en_budget st)) ->
  (en_ext st' = en_ext st \/ en_ext st' = en_ext st ++ [i]) ->
  (en_hashes st' = en_hashes st \/
   en_hashes st' = identifier (feature r i) :: en_hashes st /\
     (i ∈ en_sched st' \/ i ∈ en_ext st')) ->
  enc_inv e r nc nn budget lo hi rest st'.
Proof.
  intros [(k & Hk & Hrest & (l & Hl & Henv) & Hset & Hin) Hnew Hbud Hfit Hnd Hh] Hnew' Henv' Hs Hsched Hext Hhash.
  apply range_rest_inv in Hrest as (-> & -> & Hlt).
  assert (forall x, x ∈ en_sched st -> x ∈ en_sched st') as Hm1
    by (destruct Hsched as [[-> _]|(-> & _)]; set_solver).
  assert (forall x, x ∈ en_ext st -> x ∈ en_ext st') as Hm2
    by (destruct Hext as [->| ->]; set_solver).
  assert (forall x, x ∈ en_hashes st -> x ∈ en_hashes st') as Hm3
    by (destruct Hhash as [->|[-> _]]; set_solver).
  constructor.
  - destruct (sublist_range_S lo k l ltac:(lia) Hl) as [Hl1 Hl2]. exists (k + 1). split; [lia|]. split; [done|]. split_and!.
    + destruct Henv' as [->| ->]; [by exists l|]. exists (l ++ [k]). by rewrite looked_up_snoc, Henv.
    + intros i Hi. destruct (Z.eq_dec i k) as [->|]; [done|].
      eapply settled_mono; [exact Hm1|exact Hm2|exact Hm3|]. apply Hset; lia.
    + rewrite Forall_forall in Hin |- *. intros x Hx.
      assert (x ∈ en_sched st ++ en_ext st \/ x = k) as [Hx'| ->]; [|specialize (Hin x Hx')|]; [|lia..].
      destruct Hsched as [[E1 _]|(E1 & _)], Hext as [E2|E2]; rewrite E1, E2 in Hx; set_solver.
  - congruence.
  - destruct Hsched as [[-> ->]|(-> & -> & _)]; rewrite ?embeds_of_snoc; lia.
  - intros Ha Hb. destruct Hsched as [[_ ->]|(_ & -> & Hle)]; [auto|specialize (Hle Ha); lia].
  - destruct Hsched as [[-> _]|(-> & _)]; [done|].
    apply NoDup_app. split; [done|]. split; [|apply NoDup_singleton].
    rewrite Forall_forall in Hin. intros x Hx Hk'%list_elem_of_singleton. subst.
    specialize (Hin k ltac:(set_solver)). lia.
  - intros h Hh'. assert (h ∈ en_hashes st \/
      h = identifier (feature r k) /\ k ∈ en_sched st' ++ en_ext st') as [Hold|[-> Hi]].
    { destruct Hhash as [->|[-> Hi]] in Hh'; set_solver. }
    + apply Hh in Hold. apply list_elem_of_fmap in Hold as (x & -> & Hx).
      apply list_elem_of_fmap. exists x. split; [done|]. set_solver.
    + apply list_elem_of_fmap. by exists k.
Qed.

(** What holds when the loop ends, normally or by [break]. *)
Record enc_post (e : E) r (num_computed num_new shift budget lo hi : Z) (st : enc_state) : Prop := mkEncPost {
  ep_new : 0 <= en_new st <= num_new;
  ep_env : exists l, l `sublist_of` range lo hi /\ en_env st = looked_up e r l;
  ep_budget : en_budget st = budget - embeds_of r (en_sched st);
  ep_fits : allocates_within_budget r -> 0 <= budget -> 0 <= en_budget st;
  ep_nodup : NoDup (en_sched st);
  ep_range : Forall (fun i => lo <= i < hi) (en_sched st ++ en_ext st);
  ep_covered : forall i, lo <= i < hi ->
    settled e lo r num_computed num_new st i \/ en_new st = 0 \/
    num_computed + en_new st + shift <= offset (feature r i);
  ep_hashes : forall h, h ∈ en_hashes st ->
    h ∈ map (fun i => identifier (feature r i)) (en_sched st ++ en_ext st)
}.

(** The lookup of the iteration is one that [in_cache] speaks of. *)
Lemma current_lookup e r nc nn budget lo hi i rest st :
  enc_inv e r nc nn budget lo hi (i :: rest) st ->
  snd (enc_check_and_update_cache (en_env st) r i) = true -> in_cache e r lo i.
Proof.
  intros [(k & _ & Hrest & (l & Hl & ->) & _) _ _ _ _ _]. apply range_rest_inv in Hrest as (-> & _ & _).
  by exists l.
Qed.

Lemma encoder_item_continue cfg e0 r nc shift nn budget lo hi i rest st st' :
  is_encoder_decoder cfg = false ->
  enc_inv e0 r nc nn budget lo hi (i :: rest) st ->
  encoder_item cfg r nc shift i st = Ok (Continue st') ->
  enc_inv e0 r nc nn budget lo hi rest st'.
Proof.
  intros Hed Hinv. pose proof (ei_new _ _ _ _ _ _ _ _ _ Hinv) as Hnew.
  unfold encoder_item. rewrite Hed. cbn [andb negb].
  case_bool_decide as Hh.
  { intros [= <-]. eapply enc_inv_step; eauto. right; right; left. done. }
  pose proof (current_lookup _ _ _ _ _ _ _ _ _ _ Hinv) as Hcur.
  destruct (enc_check_and_update_cache (en_env st) r i) as [e c] eqn:Hc.
  assert (forall s, en_env s = e -> en_env s = en_env st \/ en_env s = fst (enc_check_and_update_cache (en_env st) r i)) as He
    by (intros s ->; right; by rewrite Hc).
  destruct c.
  { intros [= <-]. eapply enc_inv_step; eauto. right; right; right; left. by apply Hcur. }
  cbv zeta. break_if; [done|]. destruct (enc_can_allocate _ _ _ _ _) eqn:Hcan; [|done]. simpl.
  destruct (get_embeds_indices_in_range _ _ _) as [es ee] eqn:Hg.
  destruct (Z.eqb_spec (ee - es) 0) as [Hz|Hz].
  { intros [= <-]. eapply enc_inv_step; eauto. do 4 right. cbv zeta.
    rewrite <- Hnew, Hg. lia. }
  break_if; intros [= <-]; eapply enc_inv_step; eauto; simpl.
  - right; left. set_solver.
  - right. split; [done|]. right. set_solver.
  - left. set_solver.
  - right. split; [done|]. left. set_solver.
Qed.

Lemma enc_post_break e0 r nc shift nn budget lo hi i rest st n e :
  features_ok r -> 0 <= lo -> hi <= Z.of_nat (length (mm_features r)) ->
  enc_inv e0 r nc nn budget lo hi (i :: rest) st -> e = fst (enc_check_and_update_cache (en_env st) r i) ->
  0 <= n <= nn -> (n = 0 \/ nc + n + shift <= offset (feature r i)) ->
  enc_post e0 r nc nn shift budget lo hi (st <| en_env := e |> <| en_new := n |>).
Proof.
  intros Hf Hlo Hhi [(k & Hk & Hrest & (l & Hl & Henv) & Hset & Hin) Hnew Hbud Hfit Hnd Hh] He Hn Hc.
  apply range_rest_inv in Hrest as (-> & -> & Hlt).
  constructor; simpl; auto.
  - exists (l ++ [k]). rewrite looked_up_snoc, <-Henv. split; [|done].
    etransitivity; [exact (proj2 (sublist_range_S lo k l ltac:(lia) Hl))|]. unfold range.
    replace (hi - lo) with ((k + 1 - lo) + (hi - (k + 1))) by lia. rewrite seqZ_app by lia. by apply sublist_inserts_r.
  - eapply Forall_impl; [exact Hin|]. simpl. lia.
  - intros i Hi. destruct (Z.lt_ge_cases i k) as [Hik|Hik].
    + left. eapply settled_mono; [| | |apply Hset; lia]; done.
    + right. destruct Hc as [->|Hc]; [by left|]. right.
      pose proof (Hf k i ltac:(lia) ltac:(lia)). lia.
Qed.

Lemma encoder_item_break cfg e0 r nc shift nn budget lo hi i rest st st' :
  is_encoder_decoder cfg = false -> features_ok r -> 0 <= nn ->
  0 <= lo -> hi <= Z.of_nat (length (mm_features r)) ->
  (forall i, lo <= i < hi -> offset (feature r i) < nc + nn + shift) ->
  enc_inv e0 r nc nn budget lo hi (i :: rest) st ->
  encoder_item cfg r nc shift i st = Ok (Break st') ->
  enc_post e0 r nc nn shift budget lo hi st'.
Proof.
  intros Hed Hf Hnn Hlo Hhi Hw Hinv. unfold encoder_item. rewrite Hed. cbn [andb negb].
  assert (offset (feature r i) < nc + nn + shift) as Hoff.
  { destruct Hinv as [(k & Hk & Hrest & _) _ _ _ _ _].
    apply range_rest_inv in Hrest as (-> & _ & ?). apply Hw. lia. }
  case_bool_decide; [done|].
  destruct (enc_check_and_update_cache (en_env st) r i) as [e c] eqn:Hc. destruct c; [done|].
  cbv zeta. break_if.
  { intros [= <-]. eapply enc_post_break; eauto; rewrite ?Hc; simpl; done || lia. }
  break_if; [|simpl; destruct (get_embeds_indices_in_range _ _ _); repeat break_if; done].
  intros [= <-]. break_if; bool_prop; eapply enc_post_break; eauto; rewrite ?Hc; simpl; done || lia.
Qed.

Lemma enc_inv_post e0 r nc shift nn budget lo hi st :
  0 <= nn -> enc_inv e0 r nc nn budget lo hi [] st -> enc_post e0 r nc nn shift budget lo hi st.
Proof.
  intros Hnn [(k & Hk & Hrest & (l & Hl & Henv) & Hset & Hin) Hnew Hbud Hfit Hnd Hh].
  assert (hi <= k) as Hhk.
  { destruct (Z.lt_ge_cases k hi); [|lia]. by rewrite range_cons in Hrest. }
  constructor; auto; [lia| | |].
  - exists l. split; [|done]. destruct (Z.lt_ge_cases hi lo) as [Hh'|Hh'].
    + unfold range in *. rewrite seqZ_nil in Hl |- * by lia. done.
    + by replace hi with k by lia.
  - eapply Forall_impl; [exact Hin|]. simpl. lia.
  - intros i Hi. left. apply Hset. lia.
Qed.

(** Feature [i] needs nothing more: it is scheduled, loaded by the connector,
    a duplicate of one of those, found in the cache by this call, or the chunk
    holds none of its embeddings. *)
Definition arranged (e : E) r (lo nc nn : Z) (inputs ext : list Z) (i : Z) : Prop :=
  i ∈ inputs \/ i ∈ ext \/
  identifier (feature r i) ∈ map (fun j => identifier (feature r j)) (inputs ++ ext) \/
  in_cache e r lo i \/
  (let f := feature r i in
   let '(es, ee) := get_embeds_indices_in_range f (Z.max 0 (nc - offset f))
                      (Z.min (mm_length f) (nc + nn - offset f)) in ee = es).

Lemma try_schedule_post cfg (e : E) r nc nn budget shift e' inputs new budget' ext :
  is_encoder_decoder cfg = false -> features_ok r -> 0 < nn -> has_encoder_inputs r = true ->
  _try_schedule_encoder_inputs cfg e r nc nn budget shift = Ok (e', (inputs, new, budget', ext)) ->
  let '(lo, hi) := get_mm_features_in_window (mm_features r) nc (nc + nn + shift) in
  exists st, enc_post e r nc nn shift budget lo hi st /\ e' = en_env st /\
    inputs = en_sched st /\ new = en_new st /\ budget' = en_budget st /\ ext = en_ext st.
Proof.
  intros Hed Hf Hnn Hhas. unfold _try_schedule_encoder_inputs.
  rewrite Hhas, Hed. destruct (Z.eqb_spec nn 0); [lia|]. simpl.
  pose proof (window_range (mm_features r) nc (nc + nn + shift)) as Hw1.
  pose proof (window_start (mm_features r) nc (nc + nn + shift)) as Hw2.
  destruct (get_mm_features_in_window _ _ _) as [lo hi]. destruct Hw1 as [Hlo Hhi].
  destruct (for_each _ _ _) as [st|] eqn:E0; simpl; [|done]. intros [= <- <- <- <- <-].
  exists st. split; [|done].
  eapply (for_each_inv (enc_inv e r nc nn budget lo hi)); [| | | |exact E0].
  - constructor; simpl; [|done| |done|constructor|].
    + exists lo. split_and!; [lia|lia|done|exists []; split; [apply sublist_nil_l|done]|lia|constructor].
    + unfold embeds_of, zsum. simpl. lia.
    + intros h Hh. by apply not_elem_of_nil in Hh.
  - intros. by eapply encoder_item_continue.
  - intros. eapply encoder_item_break; eauto; lia.
  - intros. apply enc_inv_post; [lia|done].
Qed.

Lemma try_schedule_new_le cfg (e : E) r nc nn budget shift e' inputs new budget' ext :
  is_encoder_decoder cfg = false -> features_ok r -> 0 < nn ->
  _try_schedule_encoder_inputs cfg e r nc nn budget shift = Ok (e', (inputs, new, budget', ext)) ->
  0 <= new <= nn.
Proof.
  intros Hed Hf Hnn Hrun. destruct (has_encoder_inputs r) eqn:Hh.
  - pose proof (try_schedule_post _ _ _ _ _ _ _ _ _ _ _ _ Hed Hf Hnn Hh Hrun) as Hp.
    destruct (get_mm_features_in_window _ _ _) as [lo hi].
    destruct Hp as (st & Hp & _ & _ & -> & _). apply Hp.
  - unfold _try_schedule_encoder_inputs in Hrun. rewrite Hh, orb_true_r in Hrun.
    injection Hrun as _ _ <- _ _. lia.
Qed.

(** C9 (safety): the encoder inputs of a non-empty chunk of a decoder-only
    model, for a request whose features are in the order of their offsets.  The
    function only shortens the chunk and never makes it negative; the budget it
    returns is the budget minus the embeddings of the inputs it schedules, each
    scheduled once and inside the window, and is not negative (the inputs fit
    the budget) when the cache manager allocates only within the budget it is
    given; the cache manager has been asked about features of the window only;
    and every feature of the window is arranged (scheduled, loaded by the
    connector, a duplicate of such a one, found in the current cache, or without
    embeddings in the chunk), or the shortened chunk is empty or ends, with the
    drafter's look-ahead, before that feature starts. *)
Theorem encoder_inputs_cover cfg (e : E) r nc nn budget shift e' inputs new budget' ext :
  is_encoder_decoder cfg = false -> features_ok r -> 0 < nn -> has_encoder_inputs r = true ->
  _try_schedule_encoder_inputs cfg e r nc nn budget shift = Ok (e', (inputs, new, budget', ext)) ->
  0 <= new <= nn /\
  budget' = budget - embeds_of r inputs /\
  (allocates_within_budget r -> 0 <= budget -> embeds_of r inputs <= budget) /\ NoDup inputs /\
  let '(lo, hi) := get_mm_features_in_window (mm_features r) nc (nc + nn + shift) in
  (exists l, l `sublist_of` range lo hi /\ e' = looked_up e r l) /\
  Forall (fun i => lo <= i < hi) (inputs ++ ext) /\
  forall i, lo <= i < hi ->
    arranged e r lo nc nn inputs ext i \/ new = 0 \/ nc + new + shift <= offset (feature r i).
Proof.
  intros Hed Hf Hnn Hh Hrun.
  pose proof (try_schedule_post _ _ _ _ _ _ _ _ _ _ _ _ Hed Hf Hnn Hh Hrun) as Hp.
  destruct (get_mm_features_in_window _ _ _) as [lo hi].
  destruct Hp as (st & [P1 Pe P2 Pf P3 P4 P5 P6] & -> & -> & -> & -> & ->).
  split_and!; [apply P1|apply P1|done|intros Ha Hb; specialize (Pf Ha Hb); lia|done|done|done|].
  intros i Hi. destruct (P5 i Hi) as [Hs|Hs]; [left|by right].
  unfold settled in Hs. unfold arranged.
  destruct Hs as [Hs|[Hs|[Hs|Hs]]]; [auto..|auto using P6|by do 3 right].
Qed.

End Encoder.

#[local] Existing Instances Mini.services Mini.services_laws.

(** A request with two images, the second too big for the budget. *)
Definition example_mm : request :=
  (Mini.request_of "a" RUNNING 20 0) <| mm_features := [mkFeature 2 4 4 "x"; mkFeature 10 6 6 "y"] |>.

Lemma encoder_inputs_cover_witness :
  _try_schedule_encoder_inputs Mini.cfg 3 example_mm 0 16 7 0 = Ok (3, ([0], 10, 3, [])) /\
  embeds_of example_mm [0] <= 7.
Proof.
  split; [reflexivity|].
  refine (proj1 (proj2 (proj2 (encoder_inputs_cover Mini.cfg 3 example_mm 0 16 7 0 3 [0] 10 3 [] _ _ _ _ _))) _ _).
  - reflexivity.
  - intros i j Hij Hj. unfold feature. simpl in *.
    assert (i = 0 \/ i = 1) as [->| ->] by lia; assert (j = 0 \/ j = 1) as [->| ->] by lia;
      vm_compute; congruence || lia.
  - lia.
  - reflexivity.
  - reflexivity.
  - intros e i b n. simpl. apply Z.leb_le.
  - lia.
Defined.
