(* ===== verification/SchedBlocks.v ===== *)
(** * Freeing KV blocks and preempting requests

    [scheduler.py]: [_free_request_blocks], [_free_cow_retained_blocks],
    [_drain_deferred_frees], [_get_new_block_ids_to_zero] and
    [_preempt_request].  With overlapping batches the blocks of a request
    whose last step is still in flight are queued behind a fence, the number
    of the last scheduled step; section [Fences] shows that no queued block
    returns to the pool before its fence. *)
From S2P Require Export SchedEncoder.
Import PyDict PyList.

Section Blocks.
Context {E B Q : Type} `{RequestQueue Q} `{Services E B}.
Implicit Types (cfg : config) (s : sched E Q) (id : string).

Definition nonempty {A} (l : list A) : bool := negb (Nat.eqb (length l) 0).

Definition _free_request_blocks cfg id s : sched E Q :=
  let r := req s id in
  if negb (defer_block_free cfg) || (last_sched_seq r <=? processed_step_seq s)
  then s <| env := kv_free (env s) r |>
  else
    let '(e, blocks) := kv_pop_blocks_for_free (env s) r in
    let s := s <| env := e |> in
    if nonempty blocks
    then s <| deferred_frees ::= fun d => d ++ [(sched_step_seq s, blocks)] |>
    else s.

Definition _free_cow_retained_blocks cfg (blocks : list Z) (fence_seq : Z) s : sched E Q :=
  if negb (defer_block_free cfg) || (fence_seq <=? processed_step_seq s)
  then s <| env := pool_free_blocks (env s) blocks |>
  else s <| deferred_frees ::= fun d => d ++ [(fence_seq, rev blocks)] |>.

(** The loop of [_drain_deferred_frees] on the deque. *)
Fixpoint drain (processed : Z) (e : E) (d : list (Z * list Z)) : E * list (Z * list Z) :=
  match d with
  | [] => (e, [])
  | (fence, blocks) :: d' =>
      if processed <? fence then (e, d)
      else drain processed (pool_free_blocks e (rev blocks)) d'
  end.

Definition _drain_deferred_frees s : sched E Q :=
  let '(e, d) := drain (processed_step_seq s) (env s) (deferred_frees s) in
  s <| env := e |> <| deferred_frees := d |>.

Definition _get_new_block_ids_to_zero cfg s : sched E Q * option (list Z) :=
  let '(e, ids) := kv_take_new_block_ids (env s) in
  let s := s <| env := e |> in
  if negb (needs_kv_cache_zeroing cfg) then (s, None)
  else
    let ids := List.filter (fun b => bool_decide (b ∉ _skip_zero_block_ids s)) ids in
    (s <| _skip_zero_block_ids := ∅ |>, if nonempty ids then Some ids else None).

(** The attributes [_preempt_request] resets. *)
Definition preempted_fields (drop : bool) (r : request) : request :=
  r <| status := PREEMPTED |> <| num_computed_tokens := 0 |> <| spec_token_ids := [] |>
    <| drop_stale_output := drop || (drop_stale_output r && (0 <? num_stale_output_tokens r)) |>
    <| num_stale_output_tokens := num_in_flight_tokens r |>
    <| num_output_placeholders := 0 |> <| num_preemptions ::= Z.add 1 |>.

Definition _preempt_request cfg id (drop : bool) s : result (sched E Q) :=
  let* _ := require (bool_decide (status (req s id) = RUNNING)) AssertionError in
  let s := _free_request_blocks cfg id s in
  let s := s <| env := enc_free (env s) (req s id) |> in
  let s := s <| _inflight_prefills ::= fun X => X ∖ {[id]} |> in
  let s := upd_req id (preempted_fields drop) s in
  Ok (s <| waiting ::= q_prepend (req s id) |>
        <| reset_preempted_req_ids ::= union {[id]} |>).

(** [_free_request_blocks] touches the services and the deferred queue only. *)
Lemma free_request_blocks_spec cfg id s :
  exists e d, _free_request_blocks cfg id s = s <| env := e |> <| deferred_frees := d |> /\
    (d = deferred_frees s \/ exists bs, d = deferred_frees s ++ [(sched_step_seq s, bs)]).
Proof.
  unfold _free_request_blocks. break_if.
  { exists (kv_free (env s) (req s id)), (deferred_frees s). split; [|by left]. by destruct s. }
  destruct (kv_pop_blocks_for_free _ _) as [e bs]. destruct (nonempty bs).
  - exists e, (deferred_frees s ++ [(sched_step_seq s, bs)]). split; [by destruct s|].
    right. by exists bs.
  - exists e, (deferred_frees s). split; [by destruct s|by left].
Qed.

Lemma free_cow_spec cfg bs f s :
  exists e d, _free_cow_retained_blocks cfg bs f s = s <| env := e |> <| deferred_frees := d |> /\
    (d = deferred_frees s \/ exists bs', d = deferred_frees s ++ [(f, bs')]).
Proof.
  unfold _free_cow_retained_blocks. break_if.
  - exists (pool_free_blocks (env s) bs), (deferred_frees s). split; [by destruct s|by left].
  - exists (env s), (deferred_frees s ++ [(f, rev bs)]). split; [by destruct s|].
    right. by exists (rev bs).
Qed.

(** The drain frees a prefix of the queue, in order, every entry of it past
    its fence, and stops at the first pending fence. *)
Lemma drain_spec p e d :
  let '(e', d') := drain p e d in
  exists freed, d = freed ++ d' /\ Forall (fun x => x.1 <= p) freed /\
    e' = fold_left (fun e x => pool_free_blocks e (rev x.2)) freed e /\
    match d' with [] => True | x :: _ => p < x.1 end.
Proof.
  revert e; induction d as [|[f bs] d IH]; intros e; simpl.
  { by exists []. }
  destruct (Z.ltb_spec p f) as [Hf|Hf].
  { exists []. by repeat split. }
  specialize (IH (pool_free_blocks e (rev bs))). destruct (drain _ _ _) as [e' d'].
  destruct IH as (fr & -> & Hfr & -> & Hd). exists ((f, bs) :: fr).
  split; [done|]. split; [by constructor|]. done.
Qed.

(** ** Fences *)
Section Fences.

(** The counters of the deferred-free protocol and the requests' last steps. *)
Record fences_ok s : Prop := mkFences {
  fo_counts : processed_step_seq s <= sched_step_seq s;
  fo_last id : last_sched_seq (req s id) <= sched_step_seq s;
  fo_queue : Forall (fun x => x.1 <= sched_step_seq s + 1) (deferred_frees s)
}.

(** The moves of the protocol: a non-empty step is scheduled and stamps its
    requests, a request's blocks are freed, copy-on-write sources are released
    behind the next step, and an output is processed. *)
Inductive fence_step cfg : sched E Q -> sched E Q -> Prop :=
  | fs_schedule s ids :
      fence_step cfg s
        (fold_left (fun s id => upd_req id (fun r => r <| last_sched_seq := sched_step_seq s |>) s)
           ids (s <| sched_step_seq ::= Z.add 1 |>))
  | fs_free s id : fence_step cfg s (_free_request_blocks cfg id s)
  | fs_cow s bs :
      fence_step cfg s (_free_cow_retained_blocks cfg bs (sched_step_seq s + 1) s)
  | fs_output s :
      processed_step_seq s < sched_step_seq s ->
      fence_step cfg s (_drain_deferred_frees (s <| processed_step_seq ::= Z.add 1 |>)).

Lemma stamp_spec ids s :
  let s' := fold_left (fun s id => upd_req id (fun r => r <| last_sched_seq := sched_step_seq s |>) s)
              ids s in
  sched_step_seq s' = sched_step_seq s /\ processed_step_seq s' = processed_step_seq s /\
  deferred_frees s' = deferred_frees s /\
  forall id, last_sched_seq (req s' id) = sched_step_seq s \/
             last_sched_seq (req s' id) = last_sched_seq (req s id).
Proof.
  revert s; induction ids as [|i ids IH]; intros s; simpl; [auto|].
  specialize (IH (upd_req i (fun r => r <| last_sched_seq := sched_step_seq s |>) s)).
  simpl in IH. destruct IH as (H1 & H2 & H3 & H4).
  rewrite H1, H2, H3. repeat split. intros id. destruct (H4 id) as [->| ->]; [by left|].
  rewrite req_upd. case_bool_decide; simpl; auto.
Qed.

Lemma drain_fields s :
  let s' := _drain_deferred_frees s in
  sched_step_seq s' = sched_step_seq s /\ processed_step_seq s' = processed_step_seq s /\
  objs s' = objs s /\
  exists freed, deferred_frees s = freed ++ deferred_frees s' /\
    Forall (fun x => x.1 <= processed_step_seq s) freed /\
    env s' = fold_left (fun e x => pool_free_blocks e (rev x.2)) freed (env s) /\
    match deferred_frees s' with [] => True | x :: _ => processed_step_seq s < x.1 end.
Proof.
  unfold _drain_deferred_frees.
  pose proof (drain_spec (processed_step_seq s) (env s) (deferred_frees s)) as Hd.
  destruct (drain _ _ _) as [e d]. simpl. by repeat split.
Qed.

Lemma fence_step_ok cfg s s' : fences_ok s -> fence_step cfg s s' -> fences_ok s'.
Proof.
  intros [H1 H2 H3] Hstep. destruct Hstep as [s ids|s id|s bs|s Hlt].
  - pose proof (stamp_spec ids (s <| sched_step_seq ::= Z.add 1 |>)) as Hs. simpl in Hs.
    destruct Hs as (S1 & S2 & S3 & S4). constructor; rewrite ?S1, ?S2, ?S3; [lia| |].
    + intros id. specialize (H2 id). unfold req in *. simpl in *. destruct (S4 id) as [->| ->]; lia.
    + eapply Forall_impl; [exact H3|]. simpl. lia.
  - destruct (free_request_blocks_spec cfg id s) as (e & d & -> & Hd).
    constructor; simpl; auto. destruct Hd as [->|[bs ->]]; [done|].
    apply Forall_app. split; [done|]. repeat constructor. simpl. lia.
  - destruct (free_cow_spec cfg bs (sched_step_seq s + 1) s) as (e & d & -> & Hd).
    constructor; simpl; auto. destruct Hd as [->|[bs' ->]]; [done|].
    apply Forall_app. split; [done|]. repeat constructor. simpl. lia.
  - destruct (drain_fields (s <| processed_step_seq ::= Z.add 1 |>)) as (D1 & D2 & D3 & fr & D4 & _).
    simpl in *. constructor; rewrite ?D1, ?D2; [lia| |].
    + intros id. unfold req. rewrite D3. apply H2.
    + rewrite D4, Forall_app in H3. tauto.
Qed.

(** The blocks a step of the protocol gives back, with their fences. *)
Lemma fence_step_queue cfg s s' x :
  fence_step cfg s s' -> x ∈ deferred_frees s ->
  x ∈ deferred_frees s' \/ x.1 <= processed_step_seq s'.
Proof.
  intros Hstep Hx. destruct Hstep as [s ids|s id|s bs|s Hlt].
  - pose proof (stamp_spec ids (s <| sched_step_seq ::= Z.add 1 |>)) as Hs. simpl in Hs.
    destruct Hs as (_ & _ & -> & _). by left.
  - destruct (free_request_blocks_spec cfg id s) as (e & d & -> & [->|[bs ->]]); simpl; set_solver.
  - destruct (free_cow_spec cfg bs (sched_step_seq s + 1) s) as (e & d & -> & [->|[bs' ->]]);
      simpl; set_solver.
  - destruct (drain_fields (s <| processed_step_seq ::= Z.add 1 |>)) as (_ & D2 & _ & fr & D4 & D5 & _).
    simpl in *. rewrite D2. rewrite D4 in Hx. apply elem_of_app in Hx as [Hx|Hx]; [|by left].
    right. rewrite Forall_forall in D5. by apply D5.
Qed.

Lemma fence_steps_processed cfg s s' :
  rtc (fence_step cfg) s s' -> processed_step_seq s <= processed_step_seq s'.
Proof.
  induction 1 as [s|s s1 s2 Hstep _ IH]; [lia|]. etrans; [|exact IH].
  destruct Hstep as [s ids|s id|s bs|s Hlt].
  - pose proof (stamp_spec ids (s <| sched_step_seq ::= Z.add 1 |>)) as Hs. simpl in Hs.
    destruct Hs as (_ & -> & _). lia.
  - destruct (free_request_blocks_spec cfg id s) as (e & d & -> & _). simpl. lia.
  - destruct (free_cow_spec cfg bs (sched_step_seq s + 1) s) as (e & d & -> & _). simpl. lia.
  - destruct (drain_fields (s <| processed_step_seq ::= Z.add 1 |>)) as (_ & -> & _). simpl. lia.
Qed.

Lemma fence_steps_queue cfg s s' x :
  rtc (fence_step cfg) s s' -> x ∈ deferred_frees s ->
  x ∈ deferred_frees s' \/ x.1 <= processed_step_seq s'.
Proof.
  induction 1 as [s|s s1 s2 Hstep Hrest IH]; intros Hx; [by left|].
  destruct (fence_step_queue _ _ _ _ Hstep Hx) as [Hx'|Hx']; [auto|].
  right. pose proof (fence_steps_processed _ _ _ Hrest). lia.
Qed.

(** C5 (safety): no use after free across overlapping steps.  When a request
    whose last scheduled step is still in flight is freed, its blocks are not
    given to the pool but queued; along every run of the protocol that
    follows, while that step is unprocessed they are still queued; and a
    drain that finds every fence behind it empties the queue. *)
Theorem deferred_free_safe cfg s s' id :
  fences_ok s -> defer_block_free cfg = true ->
  processed_step_seq s < last_sched_seq (req s id) ->
  nonempty (snd (kv_pop_blocks_for_free (env s) (req s id))) = true ->
  let blocks := snd (kv_pop_blocks_for_free (env s) (req s id)) in
  let s1 := _free_request_blocks cfg id s in
  env s1 = fst (kv_pop_blocks_for_free (env s) (req s id)) /\
  (rtc (fence_step cfg) s1 s' -> processed_step_seq s' < last_sched_seq (req s id) ->
   (sched_step_seq s, blocks) ∈ deferred_frees s') /\
  (Forall (fun x => x.1 <= processed_step_seq s') (deferred_frees s') ->
   deferred_frees (_drain_deferred_frees s') = []).
Proof.
  intros Hok Hdef Hlast Hne blocks s1.
  assert (s1 = (s <| env := fst (kv_pop_blocks_for_free (env s) (req s id)) |>)
                 <| deferred_frees := deferred_frees s ++ [(sched_step_seq s, blocks)] |>) as Hs1.
  { unfold s1, blocks, _free_request_blocks in *. rewrite Hdef. simpl.
    destruct (Z.leb_spec (last_sched_seq (req s id)) (processed_step_seq s)); [lia|].
    destruct (kv_pop_blocks_for_free _ _) as [e bs]. simpl in *. rewrite Hne. by destruct s. }
  rewrite Hs1. split; [done|]. split.
  - intros Hrun Hp.
    destruct (fence_steps_queue cfg _ s' (sched_step_seq s, blocks) Hrun) as [Hin|Hin];
      [simpl; set_solver|done|].
    simpl in Hin. pose proof (fo_last _ Hok id). lia.
  - intros Hall. destruct (drain_fields s') as (_ & _ & _ & fr & D4 & _ & _ & D5).
    destruct (deferred_frees (_drain_deferred_frees s')) as [|x d]; [done|].
    rewrite D4, Forall_app in Hall. destruct Hall as [_ Hall].
    apply Forall_cons in Hall as [Hall _]. lia.
Qed.

End Fences.

(** What a preemption leaves behind. *)
Lemma preempt_request_spec cfg id drop s s' :
  _preempt_request cfg id drop s = Ok s' ->
  status (req s id) = RUNNING /\
  exists e d,
    s' = ((upd_req id (preempted_fields drop)
             (s <| env := e |> <| deferred_frees := d |>
                <| _inflight_prefills ::= fun X => X ∖ {[id]} |>))
            <| waiting := q_prepend (preempted_fields drop (req s id)) (waiting s) |>)
           <| reset_preempted_req_ids ::= union {[id]} |>.
Proof.
  unfold _preempt_request. intros Hrun. unfold require in Hrun.
  destruct (bool_decide (status (req s id) = RUNNING)) eqn:Hst; [|done]. bool_prop. split; [done|].
  destruct (free_request_blocks_spec cfg id s) as (e & d & Heq & _).
  simpl in Hrun. rewrite Heq in Hrun. injection Hrun as <-.
  eexists _, d. unfold upd_req, req. simpl. rewrite lookup_total_insert_eq. reflexivity.
Qed.

End Blocks.

#[local] Existing Instances Mini.queue Mini.services.

Definition example_defer_cfg : config := Mini.cfg <| defer_block_free := true |>.
(** Step 1 scheduled request "a" and is still in flight. *)
Definition example_inflight : sched Z (list string) :=
  (Mini.sched_of 4 [(Mini.request_of "a" RUNNING 9 4) <| last_sched_seq := 1 |>] [])
    <| sched_step_seq := 1 |>.

Lemma deferred_free_safe_witness :
  (1, [7]) ∈ deferred_frees (_free_request_blocks example_defer_cfg "a" example_inflight).
Proof.
  refine (proj1 (proj2 (deferred_free_safe example_defer_cfg example_inflight
    (_free_request_blocks example_defer_cfg "a" example_inflight) "a" _ _ _ _)) _ _).
  - constructor; [vm_compute; congruence| |constructor].
    intros id. unfold req, example_inflight. simpl. unfold lookup_total, map_lookup_total.
    destruct (decide (id = "a"%string)) as [->|Hne]; [vm_compute; congruence|].
    rewrite lookup_insert_ne by done. rewrite lookup_empty. vm_compute. congruence.
  - reflexivity.
  - reflexivity.
  - reflexivity.
  - apply rtc_refl.
  - reflexivity.
Defined.
