(* ===== verification/SchedStep.v ===== *)
(** * One step of the scheduler

    [scheduler.py]: [schedule] with the loop over the running requests
    ([running_body]), the loop over the waiting requests ([waiting_body]),
    the checks and the output at its end, [_update_after_schedule] and
    [_make_cached_request_data], and the promotion of blocked requests.  The
    local variables of [schedule] are the record [step].  Logging, statistics
    and the routed-experts buffers are left out. *)
From S2P Require Export SchedBlocks.
Import PyDict PyList LongPrefill Mamba.

Section Step.
Context {E B Q : Type} `{RequestQueue Q} `{Services E B}.
Implicit Types (cfg : config) (s : sched E Q) (id : string).

(** The local variables of [schedule]. *)
Record step := mkStep {
  scheduled_new_reqs : list string;
  scheduled_resumed_reqs : list string;
  scheduled_running_reqs : list string;
  preempted_reqs : list string;
  req_to_new_blocks : dict B;
  num_scheduled_tokens : dict Z;
  token_budget : Z;
  scheduled_encoder_inputs : dict (list Z);
  encoder_compute_budget : Z;
  scheduled_spec_decode_tokens : dict (list Z);
  prefill_scheduled : bool;
  prefill_tokens_scheduled : Z;
  gate_skipped_running : Z;
  scheduled_loras : gset Z;
  step_skipped_waiting : Q;
  req_index : Z;
  (* computed before the loops, and constant in them *)
  defer_prefills : bool;
  prefill_token_budget : Z;
  selected_long_prefill_ids : list string
}.
#[export] Instance step_eta : Eta step := fun t =>
  mkStep (scheduled_new_reqs t) (scheduled_resumed_reqs t) (scheduled_running_reqs t)
    (preempted_reqs t) (req_to_new_blocks t) (num_scheduled_tokens t) (token_budget t)
    (scheduled_encoder_inputs t) (encoder_compute_budget t) (scheduled_spec_decode_tokens t)
    (prefill_scheduled t) (prefill_tokens_scheduled t) (gate_skipped_running t)
    (scheduled_loras t) (step_skipped_waiting t) (req_index t) (defer_prefills t)
    (prefill_token_budget t) (selected_long_prefill_ids t).
Implicit Types (t : step).

(** ** The loop over the running requests *)

Inductive gate := Pass | SkipPlain | SkipLongPrefill.

(** The guards at the top of the loop body. *)
Definition running_gate cfg s t (r : request) : gate :=
  let is_prefill := is_prefill_chunk r in
  let remaining := prefill_token_budget t - prefill_tokens_scheduled t in
  if (0 <? num_output_placeholders r)
     && (num_prompt_tokens r + max_tokens r
         <=? num_computed_tokens r + 2 - num_output_placeholders r) then SkipPlain
  else if current_step s <? next_decode_eligible_step r then SkipPlain
  else if defer_prefills t && is_prefill then SkipPlain
  else if enable_decode_aware_prefill cfg && _is_long_prefill_request cfg r
          && bool_decide (request_id r ∉ selected_long_prefill_ids t) then SkipLongPrefill
  else if enable_decode_aware_prefill cfg && is_prefill && (remaining <=? 0) then SkipPlain
  else Pass.

(** [num_new_tokens] before the encoder and Mamba adjustments. *)
Definition running_num_new_tokens cfg t (r : request) : Z :=
  let aware := enable_decode_aware_prefill cfg && is_prefill_chunk r in
  let n := num_tokens_with_spec r + num_output_placeholders r - num_computed_tokens r in
  let n := if negb aware && (0 <? long_prefill_token_threshold cfg)
              && (long_prefill_token_threshold cfg <? n)
           then long_prefill_token_threshold cfg else n in
  let n := Z.min n (token_budget t) in
  let n := if aware then Z.min n (prefill_token_budget t - prefill_tokens_scheduled t) else n in
  Z.min n (max_model_len cfg - num_computed_tokens r - num_sampled_tokens_per_step cfg).

(** [_try_schedule_encoder_inputs] when the request has encoder inputs. *)
Definition encoder_adjust cfg (e : E) (r : request) (num_computed n budget : Z)
    : result (E * (list Z * Z * Z * list Z)) :=
  if has_encoder_inputs r
  then _try_schedule_encoder_inputs cfg e r num_computed n budget (if use_eagle cfg then 1 else 0)
  else Ok (e, ([], n, budget, [])).

(** Reserving the encoder cache for the inputs of a scheduled request. *)
Definition allocate_encoder cfg (r : request) (inputs : list Z) (e : E) : E :=
  fold_left (fun e i =>
    let e := enc_allocate e r i in
    if ec_connector cfg then ec_update_state_after_alloc e r i else e) inputs e.

(** The key (priority, arrival time) of the victim choice. *)
Definition lower_priority s (a b : string) : bool :=
  (priority (req s a) <? priority (req s b)) ||
  ((priority (req s a) =? priority (req s b)) && (arrival_time (req s a) <? arrival_time (req s b))).

(** Takes the request to preempt off [running] and, under the priority policy,
    takes back what it was given in this step. *)
Definition pop_victim cfg s t : result (string * sched E Q * step) :=
  match policy cfg with
  | PRIORITY =>
      match max_by (lower_priority s) (running s) with
      | None => Raise ValueError
      | Some v =>
          let s := s <| running := remove_first v (running s) |> in
          if bool_decide (v ∈ scheduled_running_reqs t) then
            let* n := dindex (num_scheduled_tokens t) v in
            let* _ := dindex (req_to_new_blocks t) v in
            let enc := default [] (dget (scheduled_encoder_inputs t) v) in
            let restored := zsum (map (get_num_encoder_embeds (req s v)) enc) in
            Ok (v, s,
                t <| scheduled_running_reqs := remove_first v (scheduled_running_reqs t) |>
                  <| token_budget ::= Z.add n |>
                  <| num_scheduled_tokens ::= fun d => ddel d v |>
                  <| req_to_new_blocks ::= fun d => ddel d v |>
                  <| scheduled_spec_decode_tokens ::= fun d => ddel d v |>
                  <| scheduled_encoder_inputs ::= fun d => ddel d v |>
                  <| encoder_compute_budget ::= Z.add restored |>
                  <| req_index ::= fun i => i - 1 |>)
          else Ok (v, s, t)
      end
  | FCFS =>
      match pop_last (running s) with
      | None => Raise IndexError
      | Some (rest, v) => Ok (v, s <| running := rest |>, t)
      end
  end.

Definition alloc_of (n lookahead : Z) : alloc_args B :=
  mkAlloc n 0 None lookahead 0 false 0 false 0 false.

(** One round of the allocation loop: allocate, or preempt and try again. *)
Definition allocate_body cfg id (n : Z) (x : sched E Q * step * option B)
    : result (ctl (sched E Q * step * option B)) :=
  let '(s, t, _) := x in
  let '(e, nb) := kv_allocate_slots (env s) (req s id) (alloc_of n (num_lookahead_tokens cfg)) in
  let s := s <| env := e |> in
  match nb with
  | Some b => Ok (Break (s, t, Some b))
  | None =>
      let* vst := pop_victim cfg s t in
      let '(v, s, t) := vst in
      let* s := _preempt_request cfg v (requires_kv_delivery cfg) s in
      let t := t <| preempted_reqs ::= fun l => l ++ [v] |> in
      if bool_decide (v = id) then Ok (Break (s, t, None)) else Ok (Continue (s, t, None))
  end.

(** What a scheduled running request adds to the step. *)
Definition commit_running cfg id (n : Z) (blocks : B) (inputs ext : list Z) (enc_budget : Z)
    (is_prefill is_long : bool) (x : sched E Q * step) : sched E Q * step :=
  let '(s, t) := x in
  let r := req s id in
  let t := t <| scheduled_running_reqs ::= fun l => l ++ [id] |>
             <| prefill_scheduled ::= fun b => b || is_prefill_chunk r |>
             <| req_to_new_blocks ::= fun d => dset d id blocks |>
             <| num_scheduled_tokens ::= fun d => dset d id n |>
             <| token_budget ::= fun b => b - n |>
             <| req_index ::= Z.add 1 |> in
  let aware := enable_decode_aware_prefill cfg && is_prefill in
  let t := if aware then t <| prefill_tokens_scheduled ::= Z.add n |> else t in
  let s := if aware && is_long
           then s <| _long_prefill_last_scheduled ::= <[id := current_step s]> |> else s in
  let num_spec := n + num_computed_tokens r - num_tokens r - num_output_placeholders r in
  let t := if nonempty (spec_token_ids r) && (0 <? num_spec)
           then t <| scheduled_spec_decode_tokens ::= fun d =>
                        dset d id (slice_to num_spec (spec_token_ids r)) |>
           else t in
  let s := upd_req id (fun r => r <| spec_token_ids := [] |>) s in
  let t := if nonempty inputs
           then t <| scheduled_encoder_inputs ::= fun d => dset d id inputs |>
                  <| encoder_compute_budget := enc_budget |>
           else t in
  let s := s <| env ::= allocate_encoder cfg (req s id) inputs |> in
  let s := s <| env ::= allocate_encoder cfg (req s id) ext |> in
  (s, t).

(** The body of [while req_index < len(self.running) and token_budget > 0]. *)
Definition running_body cfg (x : sched E Q * step) : result (ctl (sched E Q * step)) :=
  let '(s, t) := x in
  if negb ((req_index t <? Z.of_nat (length (running s))) && (0 <? token_budget t))
  then Ok (Break (s, t))
  else
    match running s !! Z.to_nat (req_index t) with
    | None => Raise IndexError
    | Some id =>
        let r := req s id in
        match running_gate cfg s t r with
        | SkipPlain => Ok (Continue (s, t <| req_index ::= Z.add 1 |>))
        | SkipLongPrefill =>
            Ok (Continue (s <| long_prefill_gate_skips ::= Z.add 1 |>,
                          t <| gate_skipped_running ::= Z.add 1 |> <| req_index ::= Z.add 1 |>))
        | Pass =>
            let n := running_num_new_tokens cfg t r in
            let* enc := encoder_adjust cfg (env s) r (num_computed_tokens r) n
                          (encoder_compute_budget t) in
            let '(e, (inputs, n, enc_budget, ext)) := enc in
            let s := s <| env := e |> in
            let n := if need_mamba_block_aligned_split cfg
                     then _mamba_block_aligned_split cfg r n 0 0 else n in
            if n =? 0 then Ok (Continue (s, t <| req_index ::= Z.add 1 |>))
            else
              let* st := while (S (length (running s))) (allocate_body cfg id n) (s, t, None) in
              let '(s, t, nb) := st in
              match nb with
              | None => Ok (Break (s, t))
              | Some blocks =>
                  Ok (Continue (commit_running cfg id n blocks inputs ext enc_budget
                        (is_prefill_chunk r) (_is_long_prefill_request cfg r) (s, t)))
              end
        end
    end.

Definition running_loop cfg (x : sched E Q * step) : result (sched E Q * step) :=
  while (S (length (running (fst x)))) (running_body cfg) x.

(** The LoRA adapters of the running requests, checked against [max_loras]. *)
Definition record_loras cfg s t : result step :=
  match max_loras cfg with
  | None => Ok t
  | Some m =>
      let ids := omap (fun id => lora_int_id (req s id)) (scheduled_running_reqs t) in
      let loras : gset Z := list_to_set (List.filter (fun l => 0 <? l) ids) in
      let* _ := require (Z.of_nat (size loras) <=? m) AssertionError in
      Ok (t <| scheduled_loras := loras |>)
  end.

(** ** Promotion of blocked requests *)

Definition _is_blocked_waiting_status (st : RequestStatus) : bool :=
  match st with
  | WAITING_FOR_STRUCTURED_OUTPUT_GRAMMAR | WAITING_FOR_REMOTE_KVS
  | WAITING_FOR_STREAMING_REQ => true
  | _ => false
  end.

Definition _update_waiting_for_remote_kv cfg id s : result (sched E Q) :=
  let* _ := require (connector cfg) AssertionError in
  let r := req s id in
  let s :=
    if bool_decide (id ∈ failed_recving_kv_req_ids s) then
      let s :=
        if negb (num_computed_tokens r =? 0) then
          let s := s <| env := kv_cache_blocks (env s) r (num_computed_tokens r) |> in
          if needs_kv_cache_zeroing cfg
          then s <| env := kv_record_blocks_for_zeroing (env s) id (num_computed_tokens r) |>
          else s
        else s <| env := kv_free (env s) r |> in
      s <| failed_recving_kv_req_ids ::= fun X => X ∖ {[id]} |>
    else
      let s := s <| env := kv_cache_blocks (env s) r (num_computed_tokens r) |> in
      if num_computed_tokens r =? num_tokens r
      then upd_req id (fun r => r <| num_computed_tokens := num_tokens r - 1 |>) s else s in
  let* _ := require (bool_decide (id ∈ finished_recving_kv_req_ids s)) KeyError in
  Ok (s <| finished_recving_kv_req_ids ::= fun X => X ∖ {[id]} |>).

Definition _try_promote_blocked_waiting_request cfg id s : result (sched E Q * bool) :=
  let r := req s id in
  match status r with
  | WAITING_FOR_REMOTE_KVS =>
      if bool_decide (id ∉ finished_recving_kv_req_ids s) then Ok (s, false)
      else
        let* s := _update_waiting_for_remote_kv cfg id s in
        Ok (upd_req id (fun r => r <| status :=
              if negb (num_preemptions r =? 0) then PREEMPTED else WAITING |>) s, true)
  | WAITING_FOR_STRUCTURED_OUTPUT_GRAMMAR =>
      match so_grammar (env s) r with
      | None => Ok (s, false)
      | Some false => Ok (s <| grammar_compile_error_reqs ::= union {[id]} |>, false)
      | Some true => Ok (upd_req id (fun r => r <| status := WAITING |>) s, true)
      end
  | WAITING_FOR_STREAMING_REQ =>
      let* _ := require (negb (nonempty (default [] (streaming_queue r)))) AssertionError in
      Ok (s, false)
  | _ => Raise AssertionError
  end.

(** ** The loop over the waiting requests *)

Inductive which_queue := WaitingQueue | SkippedQueue.

Definition get_queue (w : which_queue) s : Q :=
  match w with WaitingQueue => waiting s | SkippedQueue => skipped_waiting s end.

Definition set_queue (w : which_queue) (q : Q) s : sched E Q :=
  match w with
  | WaitingQueue => s <| waiting := q |>
  | SkippedQueue => s <| skipped_waiting := q |>
  end.

Definition _select_waiting_queue_for_scheduling cfg s : option which_queue :=
  let w := q_nonempty (waiting s) in
  let k := q_nonempty (skipped_waiting s) in
  match policy cfg with
  | FCFS => if k then Some SkippedQueue else if w then Some WaitingQueue else None
  | PRIORITY =>
      match q_peek (waiting s), q_peek (skipped_waiting s) with
      | Some a, Some b =>
          if request_lt (req s a) (req s b) then Some WaitingQueue else Some SkippedQueue
      | _, _ => if w then Some WaitingQueue else if k then Some SkippedQueue else None
      end
  end.

Definition pop_queue (w : which_queue) s : result (string * sched E Q) :=
  match q_pop (get_queue w s) with
  | None => Raise IndexError
  | Some (id, q) => Ok (id, set_queue w q s)
  end.

(** [request_queue.pop_request(); step_skipped_waiting.prepend_request(request)]. *)
Definition skip_waiting (w : which_queue) id s t : result (ctl (sched E Q * step)) :=
  let* p := pop_queue w s in
  let '(_, s) := p in
  Ok (Continue (s, t <| step_skipped_waiting ::= q_prepend (req s id) |>)).

(** What the prefix-cache lookups found. *)
Record lookup_result := mkLookup {
  l_blocks : B;
  l_local : Z;      (** [num_new_local_computed_tokens] *)
  l_external : Z;   (** [num_external_computed_tokens] *)
  l_async : bool;   (** [load_kv_async] *)
  l_computed : Z    (** [num_computed_tokens] *)
}.

Definition set_shared (n : Z) id s : sched E Q :=
  upd_req id (fun r => r <| shared_prefix_boundary := n |>) s.

(** The KV connector's part of the lookup; [None]: the request is skipped. *)
Definition connector_lookup cfg id (blocks : B) (local : Z) (hit_diverged : bool) s
    : sched E Q * option (B * Z * Z * bool) :=
  let partial_tail := local mod block_size cfg in
  let block_aligned_local := local - partial_tail in
  let '(e, (ext, async)) :=
    conn_get_num_new_matched_tokens (env s) (req s id) block_aligned_local in
  let s := s <| env := e |> in
  match ext with
  | None => (s, None)
  | Some ext =>
      let '(blocks, local, ext, async) :=
        if negb (partial_tail =? 0) && (partial_tail <? ext) then
          (kv_truncate_computed_blocks (env s) blocks block_aligned_local,
           block_aligned_local, ext, async)
        else if negb (partial_tail =? 0) then (blocks, local, 0, false)
        else (blocks, local, ext, async) in
      if hit_diverged && (ext =? 0) then
        let '(e, (blocks, local, shared)) := kv_get_computed_blocks (env s) (req s id) in
        (set_shared shared id (s <| env := e |>), Some (blocks, local, ext, async))
      else (s, Some (blocks, local, ext, async))
  end.

(** The branch [if request.num_computed_tokens == 0] and its [else]. *)
Definition lookup_computed cfg id s : result (sched E Q * option lookup_result) :=
  let r := req s id in
  if num_computed_tokens r =? 0 then
    let '(s, blocks, local, diverged) :=
      if connector cfg then
        let '(e, (blocks, local, shared, diverged)) :=
          kv_get_computed_blocks_for_connector (env s) r in
        (set_shared shared id (s <| env := e |>), blocks, local, diverged)
      else
        let '(e, (blocks, local, shared)) := kv_get_computed_blocks (env s) r in
        (set_shared shared id (s <| env := e |>), blocks, local, false) in
    let '(s, found) :=
      if connector cfg then connector_lookup cfg id blocks local diverged s
      else (s, Some (blocks, local, 0, false)) in
    match found with
    | None => Ok (s, None)
    | Some (blocks, local, ext, async) =>
        let computed := local + ext in
        let* _ := require (computed <=? num_tokens (req s id)) AssertionError in
        let '(s, available) :=
          if ec_connector cfg && nonempty (mm_features (req s id)) then
            let '(e, ok) := ec_ensure_cache_available (env s) (req s id) computed in
            (s <| env := e |>, ok)
          else (s, true) in
        if negb available then Ok (s, None)
        else
          let r := req s id in
          let* s :=
            match prefill_stats r with
            | Some _ =>
                if num_preemptions r <=? 0 then
                  let* _ := require (computed <=? num_prompt_tokens r) AssertionError in
                  Ok (upd_req id (fun r =>
                        r <| prefill_stats := Some (num_prompt_tokens r, local, ext) |>) s)
                else Ok s
            | None => Ok s
            end in
          Ok (s, Some (mkLookup blocks local ext async computed))
    end
  else Ok (s, Some (mkLookup kv_empty_blocks 0 0 false (num_computed_tokens r))).

Inductive token_verdict :=
  | Stop
  | Go (num_new : Z) (pad : bool) (inputs : list Z) (enc_budget : Z) (ext : list Z).

(** Whether a one-token request is padded to the speculative width. *)
Definition pads cfg t (n : Z) : bool :=
  (0 <? cfg_num_spec_tokens cfg) && bool_decide (dynamic_sd_lookup cfg = None)
  && (0 <? num_sampled_tokens_per_step cfg) && (n =? 1)
  && (nonempty (scheduled_running_reqs t) && negb (prefill_scheduled t)).

(** The number of tokens of a waiting request, up to the Mamba split. *)
Definition waiting_num_new_tokens cfg id (l : lookup_result) s t
    : result (sched E Q * token_verdict) :=
  let r := req s id in
  let computed := l_computed l in
  if l_async l then
    let* _ := require (0 <? l_external l) AssertionError in
    Ok (s, Go 0 false [] (encoder_compute_budget t) [])
  else if defer_prefills t && (computed <? num_tokens r - 1) then Ok (s, Stop)
  else
    let n := num_tokens r - computed in
    let pad := pads cfg t n in
    let n := if pad then 1 + cfg_num_spec_tokens cfg else n in
    if pad && ((token_budget t <? n) || (max_model_len cfg <? computed + n)) then Ok (s, Stop)
    else
      let thr := long_prefill_token_threshold cfg in
      let aware := enable_decode_aware_prefill cfg in
      let n := if negb aware && (0 <? thr) && (thr <? n) then thr else n in
      if negb (enable_chunked_prefill cfg) && (token_budget t <? n) then Ok (s, Stop)
      else
        let n := Z.min n (token_budget t) in
        let remaining := prefill_token_budget t - prefill_tokens_scheduled t in
        if aware && (remaining <=? 0) then Ok (s, Stop)
        else
          let n := if aware then Z.min n remaining else n in
          let* _ := require (0 <? n) AssertionError in
          if has_encoder_inputs r then
            let* enc := _try_schedule_encoder_inputs cfg (env s) r computed n
                          (encoder_compute_budget t) (if use_eagle cfg then 1 else 0) in
            let '(e, (inputs, n, enc_budget, ext)) := enc in
            let s := s <| env := e |> in
            if n =? 0 then Ok (s, Stop) else Ok (s, Go n pad inputs enc_budget ext)
          else Ok (s, Go n pad [] (encoder_compute_budget t) []).

Definition _request_remaining_blocks cfg s id : Z :=
  let r := req s id in
  coord_get_num_blocks_to_allocate (env s) id (Z.min (num_tokens r) (max_model_len cfg))
    (num_computed_tokens r).

Definition _inflight_prefill_reserved_blocks cfg s : Z :=
  zsum (map (_request_remaining_blocks cfg s) (elements (_inflight_prefills s))).

Definition waiting_alloc cfg id (n : Z) (inputs : list Z) (l : lookup_result) s : alloc_args B :=
  let r := req s id in
  {| a_num_new_tokens := n;
     a_num_new_computed_tokens := l_local l;
     a_new_computed_blocks := Some (l_blocks l);
     a_num_lookahead_tokens :=
       if l_async l && (0 <? num_lookahead_tokens cfg) then 0 else num_lookahead_tokens cfg;
     a_num_external_computed_tokens := l_external l;
     a_delay_cache_blocks := l_async l;
     a_num_encoder_tokens :=
       if is_encoder_decoder cfg && has_encoder_inputs r && nonempty inputs
       then zsum (map (get_num_encoder_embeds r) inputs) else 0;
     a_full_sequence_must_fit := scheduler_reserve_full_isl cfg;
     a_reserved_blocks := if l_async l then _inflight_prefill_reserved_blocks cfg s else 0;
     a_has_scheduled_reqs := nonempty (running s) |}.

(** A request whose KV is loaded asynchronously goes back to the queue. *)
Definition park_async cfg id (l : lookup_result) s t : sched E Q * step :=
  let s := upd_req id (fun r => r <| status := WAITING_FOR_REMOTE_KVS |>) s in
  let t := t <| step_skipped_waiting ::= q_prepend (req s id) |> in
  let s := upd_req id (fun r => r <| num_computed_tokens := l_computed l |>) s in
  let s := s <| _inflight_prefills ::= union {[id]} |> in
  let s :=
    if needs_kv_cache_zeroing cfg
    then s <| _skip_zero_block_ids ::= union (list_to_set
                (kv_get_zeroing_block_ids_in_range (env s) id (l_local l) (l_computed l))) |>
    else s in
  (s, t).

(** A request that starts running in this step. *)
Definition commit_waiting cfg id (n : Z) (pad : bool) (inputs ext : list Z) (enc_budget : Z)
    (l : lookup_result) s t : result (sched E Q * step) :=
  let s := s <| running ::= fun r => r ++ [id] |> in
  let r := req s id in
  let* t :=
    match status r with
    | WAITING => Ok (t <| scheduled_new_reqs ::= fun l => l ++ [id] |>)
    | PREEMPTED => Ok (t <| scheduled_resumed_reqs ::= fun l => l ++ [id] |>)
    | _ => Raise RuntimeError
    end in
  let t := match max_loras cfg, lora_int_id r with
           | Some _, Some a => t <| scheduled_loras ::= union {[a]} |>
           | _, _ => t
           end in
  let t := t <| req_to_new_blocks ::= fun d => dset d id (kv_get_blocks (env s) id) |>
             <| num_scheduled_tokens ::= fun d => dset d id n |>
             <| token_budget ::= fun b => b - n |> in
  let aware := enable_decode_aware_prefill cfg in
  let t := if aware then t <| prefill_tokens_scheduled ::= Z.add n |> else t in
  let s := if aware && _is_long_prefill_request cfg r
           then s <| _long_prefill_last_scheduled ::= <[id := current_step s]> |> else s in
  let s := upd_req id (fun r => r <| status := RUNNING |>
                                  <| num_computed_tokens := l_computed l |>) s in
  let t := if pad
           then t <| scheduled_spec_decode_tokens ::= fun d =>
                        dset d id (replicate (Z.to_nat (cfg_num_spec_tokens cfg)) (-1)) |>
           else t in
  let s := if l_computed l + n <? num_tokens r
           then s <| _inflight_prefills ::= union {[id]} |> else s in
  let t := if nonempty inputs
           then t <| scheduled_encoder_inputs ::= fun d => dset d id inputs |>
                  <| encoder_compute_budget := enc_budget |>
           else t in
  let s := s <| env ::= allocate_encoder cfg (req s id) inputs |> in
  let s := s <| env ::= allocate_encoder cfg (req s id) ext |> in
  Ok (s, t).

(** From the allocation to the end of the body. *)
Definition place_waiting cfg (w : which_queue) id (n : Z) (pad : bool) (inputs ext : list Z)
    (enc_budget : Z) (l : lookup_result) s t : result (ctl (sched E Q * step)) :=
  let '(e, nb) := kv_allocate_slots (env s) (req s id) (waiting_alloc cfg id n inputs l s) in
  let s := s <| env := e |> in
  match nb with
  | None =>
      let s := if has_encoder_inputs (req s id)
               then s <| env := enc_free (env s) (req s id) |> else s in
      Ok (Break (s, t))
  | Some _ =>
      let s := if connector cfg
               then s <| env := conn_update_state_after_alloc (env s) (req s id)
                                  (kv_get_blocks (env s) id) (l_external l) |> else s in
      let* p := pop_queue w s in
      let '(_, s) := p in
      if l_async l then Ok (Continue (park_async cfg id l s t))
      else
        let* st := commit_waiting cfg id n pad inputs ext enc_budget l s t in
        Ok (Continue st)
  end.

(** Admitting the request would exceed [max_loras]. *)
Definition lora_full cfg t (r : request) : bool :=
  match max_loras cfg, lora_int_id r with
  | Some m, Some a =>
      (Z.of_nat (size (scheduled_loras t)) =? m) && bool_decide (a ∉ scheduled_loras t)
  | _, _ => false
  end.

(** The body of [while (self.waiting or self.skipped_waiting) and
    token_budget > 0]. *)
Definition waiting_body cfg (x : sched E Q * step) : result (ctl (sched E Q * step)) :=
  let '(s, t) := x in
  if negb ((q_nonempty (waiting s) || q_nonempty (skipped_waiting s)) && (0 <? token_budget t))
  then Ok (Break (s, t))
  else if max_num_running_reqs cfg
          <=? Z.of_nat (length (running s)) + num_waiting_for_streaming_input s
  then Ok (Break (s, t))
  else
    match _select_waiting_queue_for_scheduling cfg s with
    | None => Raise AssertionError
    | Some w =>
        match q_peek (get_queue w s) with
        | None => Raise IndexError
        | Some id =>
            let* sp :=
              if _is_blocked_waiting_status (status (req s id))
              then _try_promote_blocked_waiting_request cfg id s else Ok (s, true) in
            let '(s, ready) := sp in
            let r := req s id in
            if negb ready then skip_waiting w id s t
            else if (0 <? num_stale_output_tokens r) && negb (drop_stale_output r)
            then skip_waiting w id s t
            else if lora_full cfg t r then skip_waiting w id s t
            else
              let* lk := lookup_computed cfg id s in
              let '(s, found) := lk in
              match found with
              | None => skip_waiting w id s t
              | Some l =>
                  let* tk := waiting_num_new_tokens cfg id l s t in
                  let '(s, v) := tk in
                  match v with
                  | Stop => Ok (Break (s, t))
                  | Go n pad inputs enc_budget ext =>
                      let split := need_mamba_block_aligned_split cfg && negb (l_async l) in
                      let n := if split
                               then _mamba_block_aligned_split cfg (req s id) n (l_local l)
                                      (l_external l)
                               else n in
                      if split && (n =? 0) then Ok (Break (s, t))
                      else place_waiting cfg w id n pad inputs ext enc_budget l s t
                  end
              end
        end
    end.

Definition waiting_loop cfg (x : sched E Q * step) : result (sched E Q * step) :=
  let '(s, t) := x in
  if bool_decide (preempted_reqs t = []) && bool_decide (_pause_state s = UNPAUSED) then
    let fuel := S (length (q_list (waiting s)) + length (q_list (skipped_waiting s))) in
    let* st := while fuel (waiting_body cfg)
                 (s, t <| step_skipped_waiting := create_request_queue (policy cfg) |>) in
    let '(s, t) := st in
    let s := if q_nonempty (step_skipped_waiting t)
             then s <| skipped_waiting ::= q_prepend_all (step_skipped_waiting t) |> else s in
    let s := if negb (defer_prefills t)
             then s <| prefill_capacity_bound := q_nonempty (waiting s) |> else s in
    Ok (s, t)
  else Ok (s, t).

(** ** The start of the step *)

Definition any_decode s : bool := existsb (fun id => negb (is_prefill_chunk (req s id))) (running s).

(** Everything [schedule] computes before its first loop. *)
Definition start_step cfg (throttle_prefills : bool) s : sched E Q * step :=
  let s := s <| current_step ::= Z.add 1 |> in
  let budget := if bool_decide (_pause_state s = PAUSED_ALL) then 0
                else max_num_scheduled_tokens cfg in
  let s := s <| env ::= kv_new_step_starts |> in
  let defer := throttle_prefills && negb (prefill_capacity_bound s) && any_decode s in
  let prefill_budget :=
    if enable_decode_aware_prefill cfg
    then Z.min (if any_decode s then decode_prefill_token_budget cfg
                else idle_prefill_token_budget cfg) (max_num_scheduled_tokens cfg)
    else budget in
  let '(s, sel) := _select_long_prefill_request_ids cfg s in
  (s, {| scheduled_new_reqs := []; scheduled_resumed_reqs := []; scheduled_running_reqs := [];
         preempted_reqs := []; req_to_new_blocks := []; num_scheduled_tokens := [];
         token_budget := budget; scheduled_encoder_inputs := [];
         encoder_compute_budget := max_num_encoder_input_tokens cfg;
         scheduled_spec_decode_tokens := []; prefill_scheduled := false;
         prefill_tokens_scheduled := 0; gate_skipped_running := 0; scheduled_loras := ∅;
         step_skipped_waiting := create_request_queue (policy cfg); req_index := 0;
         defer_prefills := defer; prefill_token_budget := prefill_budget;
         selected_long_prefill_ids := sel |}).

(** ** The end of the step *)

(** The assertions after the two loops; the value is the step's total. *)
Definition final_checks cfg s t : result Z :=
  let total := zsum (dvals (num_scheduled_tokens t)) in
  let* _ := require (total <=? max_num_scheduled_tokens cfg) AssertionError in
  let* _ := require (0 <=? token_budget t) AssertionError in
  let* _ := require (Z.of_nat (length (running s)) <=? max_num_running_reqs cfg) AssertionError in
  let* _ := require (Nat.leb (length (scheduled_new_reqs t) + length (scheduled_resumed_reqs t)
                      + length (scheduled_running_reqs t)) (length (running s))) AssertionError in
  Ok total.

(** One entry of [_make_cached_request_data]. *)
Definition cached_entry cfg s t (num_running : nat) (acc : CachedRequestData)
    (x : nat * string) : result CachedRequestData :=
  let '(idx, id) := x in
  let r := req s id in
  let* tokens :=
    if use_pp cfg && negb (async_scheduling cfg) then
      let* n := dindex (num_scheduled_tokens t) id in
      let n := n - Z.of_nat (length (default [] (dget (scheduled_spec_decode_tokens t) id))) in
      Ok (c_new_token_ids acc ++
            [slice (num_computed_tokens r) (num_computed_tokens r + n) (_all_token_ids r)])
    else Ok (c_new_token_ids acc) in
  let* blocks := dindex (req_to_new_blocks t) id in
  Ok {| c_req_ids := c_req_ids acc ++ [id];
        c_resumed_req_ids := if Nat.leb num_running idx
                             then {[id]} ∪ c_resumed_req_ids acc else c_resumed_req_ids acc;
        c_new_token_ids := tokens;
        c_all_token_ids :=
          if negb (use_v2_model_runner cfg) && bool_decide (id ∉ prev_step_scheduled_req_ids s)
          then c_all_token_ids acc ++ [(id, _all_token_ids r)] else c_all_token_ids acc;
        c_new_block_ids := c_new_block_ids acc ++ [blocks_get_block_ids_allow_none blocks];
        c_num_computed_tokens := c_num_computed_tokens acc ++ [num_computed_tokens r];
        c_num_output_tokens :=
          c_num_output_tokens acc ++ [num_output_tokens r + num_output_placeholders r] |}.

Definition _make_cached_request_data cfg (running_reqs resumed_reqs : list string) s t
    : result CachedRequestData :=
  let ids := running_reqs ++ resumed_reqs in
  rfold (cached_entry cfg s t (length running_reqs)) (mkCached [] ∅ [] [] [] [] [])
    (combine (seq 0 (length ids)) ids).

(** [num_spec_tokens_to_schedule]: the controller's depth, capped by the
    batch-size schedule. *)
Definition spec_tokens_to_schedule cfg s t : result Z :=
  let k := match acceptance_length_controller s with
           | Some c => Controller.num_spec_tokens c
           | None => cfg_num_spec_tokens cfg
           end in
  match dynamic_sd_lookup cfg with
  | Some table =>
      if nonempty (num_scheduled_tokens t) then
        match table !! length (num_scheduled_tokens t) with
        | Some k' => Ok (Z.min k k')
        | None => Raise IndexError
        end
      else Ok k
  | None => Ok k
  end.

(** The bookkeeping of one scheduled request after the step. *)
Definition advance_fields cfg (seq n : Z) (r : request) : request :=
  let r := r <| num_computed_tokens ::= Z.add n |> <| num_in_flight_tokens ::= Z.add n |> in
  let r := if defer_block_free cfg then r <| last_sched_seq := seq |> else r in
  r <| is_prefill_chunk :=
         num_computed_tokens r <? num_tokens r + num_output_placeholders r |>.

Definition advance_request cfg (x : sched E Q * bool) (item : string * Z)
    : result (sched E Q * bool) :=
  let '(s, structured) := x in
  let '(id, n) := item in
  let* _ := require (bool_decide (id ∈ requests s)) KeyError in
  let s := upd_req id (advance_fields cfg (sched_step_seq s) n) s in
  let r := req s id in
  let structured := structured || (use_structured_output r && negb (is_prefill_chunk r)) in
  let s := if negb (is_prefill_chunk r)
           then s <| _inflight_prefills ::= fun X => X ∖ {[id]} |> else s in
  Ok (s, structured).

Definition _update_after_schedule cfg (o : SchedulerOutput) s
    : result (sched E Q * SchedulerOutput) :=
  let* x := rfold (advance_request cfg) (s, o_has_structured_output_requests o)
              (o_num_scheduled_tokens o) in
  let '(s, structured) := x in
  Ok (s <| finished_req_ids := ∅ |> <| reset_preempted_req_ids := ∅ |>,
      o <| o_has_structured_output_requests := structured |>).

(** The data of the requests the workers see for the first time. *)
Definition new_request_data t (ids : list string) : result (list (string * list (list Z))) :=
  rmap (fun id => let* b := dindex (req_to_new_blocks t) id in
                  Ok (id, blocks_get_block_ids b)) ids.

(** From the assertions to the end of [schedule]. *)
Definition finish_step cfg s t : result (sched E Q * SchedulerOutput) :=
  let* total := final_checks cfg s t in
  let common := match running s with
                | [] => replicate (Z.to_nat (num_kv_cache_groups cfg)) 0
                | id :: _ => kv_get_num_common_prefix_blocks (env s) id
                end in
  let new_ids := if use_v2_model_runner cfg
                 then scheduled_new_reqs t ++ scheduled_resumed_reqs t
                 else scheduled_new_reqs t in
  let resumed := if use_v2_model_runner cfg then [] else scheduled_resumed_reqs t in
  let* new_reqs := new_request_data t new_ids in
  let* cached := _make_cached_request_data cfg (scheduled_running_reqs t) resumed s t in
  let s := if negb (use_v2_model_runner cfg)
           then s <| prev_step_scheduled_req_ids := list_to_set (dkeys (num_scheduled_tokens t)) |>
           else s in
  let s := if connector cfg && is_kv_producer cfg
           then s <| env ::= kv_take_partial_tail_offloads |> else s in
  let '(e, (copies, retained)) := kv_take_kv_cache_block_copies (env s) in
  let s := s <| env := e |> in
  let s := if nonempty copies
           then _free_cow_retained_blocks cfg retained (sched_step_seq s + 1) s else s in
  let* k := spec_tokens_to_schedule cfg s t in
  let s := _debit_unused_long_prefill_turns cfg (selected_long_prefill_ids t)
             (num_scheduled_tokens t) (defer_prefills t) s in
  let '(s, to_zero) := _get_new_block_ids_to_zero cfg s in
  let o := {| o_new_reqs := new_reqs; o_cached_reqs := cached;
              o_num_scheduled_tokens := num_scheduled_tokens t;
              o_total_num_scheduled_tokens := total;
              o_scheduled_spec_decode_tokens := scheduled_spec_decode_tokens t;
              o_scheduled_encoder_inputs := scheduled_encoder_inputs t;
              o_num_common_prefix_blocks := common;
              o_preempted_req_ids := reset_preempted_req_ids s;
              o_finished_req_ids := finished_req_ids s;
              o_new_block_ids_to_zero := to_zero;
              o_kv_cache_block_copies := if nonempty copies then Some copies else None;
              o_num_spec_tokens_to_schedule := k;
              o_has_structured_output_requests := false;
              o_num_invalid_spec_tokens := [] |} in
  let s := if connector cfg then s <| env := conn_build_connector_meta (env s) o |> else s in
  let s := if ec_connector cfg then s <| env := ec_build_connector_meta (env s) o |> else s in
  let s := if defer_block_free cfg && (0 <? total)
           then s <| sched_step_seq ::= Z.add 1 |> else s in
  _update_after_schedule cfg o s.

(** The two loops of [schedule]. *)
Definition schedule_loops cfg (throttle_prefills : bool) s : result (sched E Q * step) :=
  let '(s, t) := start_step cfg throttle_prefills s in
  let* st := running_loop cfg (s, t) in
  let '(s, t) := st in
  let* t := record_loras cfg s t in
  waiting_loop cfg (s, t).

Definition schedule cfg (throttle_prefills : bool) s : result (sched E Q * SchedulerOutput) :=
  let* st := schedule_loops cfg throttle_prefills s in
  let '(s, t) := st in
  finish_step cfg s t.

End Step.
Arguments step : clear implicits.

(** The steps are unfolded by name, never by [simpl]. *)
#[global] Arguments running_gate : simpl never.
#[global] Arguments running_num_new_tokens : simpl never.
#[global] Arguments encoder_adjust : simpl never.
#[global] Arguments pop_victim : simpl never.
#[global] Arguments allocate_body : simpl never.
#[global] Arguments commit_running : simpl never.
#[global] Arguments running_body : simpl never.
#[global] Arguments _try_promote_blocked_waiting_request : simpl never.
#[global] Arguments skip_waiting : simpl never.
#[global] Arguments lookup_computed : simpl never.
#[global] Arguments waiting_num_new_tokens : simpl never.
#[global] Arguments park_async : simpl never.
#[global] Arguments commit_waiting : simpl never.
#[global] Arguments place_waiting : simpl never.
#[global] Arguments waiting_body : simpl never.
#[global] Arguments finish_step : simpl never.
