(* ===== verification/SchedRunning.v ===== *)
(** * Correctness of the loop over the running requests

    The invariant [run_inv] of [running_body]: the queues hold the same
    requests, the step's dictionaries agree with the list of scheduled
    requests, and the token budget is what the scheduled tokens leave. *)
From S2P Require Export SchedStep.
Import PyDict PyList LongPrefill Mamba.

(** ** Dictionaries and lists of a step *)

Lemma dkeys_ddel {A} (d : dict A) v : dkeys (ddel d v) = remove_first v (dkeys d).
Proof.
  induction d as [|[k x] d IH]; simpl; [done|].
  case_bool_decide; simpl; [done|]. unfold dkeys in *. by rewrite IH.
Qed.

Lemma dkeys_dset_fresh {A} (d : dict A) k (v : A) : k ∉ dkeys d -> dkeys (dset d k v) = dkeys d ++ [k].
Proof. intros Hk. by rewrite dkeys_dset, bool_decide_eq_false_2. Qed.

Lemma Forall_dvals_ddel (P : Z -> Prop) (d : dict Z) v : Forall P (dvals d) -> Forall P (dvals (ddel d v)).
Proof.
  unfold dvals. induction d as [|[k x] d IH]; simpl; [done|]. intros Hf.
  apply Forall_cons in Hf as [Hx Hf]. case_bool_decide; [done|]. constructor; auto.
Qed.

Lemma Forall_dvals_dset (P : Z -> Prop) (d : dict Z) k v :
  k ∉ dkeys d -> P v -> Forall P (dvals d) -> Forall P (dvals (dset d k v)).
Proof.
  intros Hk Hv Hf. unfold dvals. rewrite dset_fresh, fmap_app by done.
  apply Forall_app. split; [done|]. by repeat constructor.
Qed.

Lemma elem_of_take_mono {A} (x : A) n m l : (n <= m)%nat -> x ∈ take n l -> x ∈ take m l.
Proof. rewrite !elem_of_take. intros Hnm (i & Hi & Hlt). exists i. split; [done|lia]. Qed.

Lemma elem_of_take_in {A} (x : A) n l : x ∈ take n l -> x ∈ l.
Proof. rewrite elem_of_take. intros (i & Hi & _). by eapply list_elem_of_lookup_2. Qed.

Lemma elem_of_take_S {A} (x : A) n l : x ∈ take n l -> x ∈ take (S n) l.
Proof. apply elem_of_take_mono. lia. Qed.

Lemma elem_of_take_remove x v n (l : list string) :
  x <> v -> x ∈ take n l -> x ∈ take n (remove_first v l).
Proof.
  intros Hne. revert n; induction l as [|y l IH]; intros n; simpl; [done|].
  destruct n as [|n]; simpl; [set_solver|]. intros Hx. case_bool_decide; subst.
  - apply elem_of_cons in Hx as [->|Hx]; [done|]. by eapply elem_of_take_S.
  - simpl. apply elem_of_cons in Hx as [->|Hx]; [left|right; auto].
Qed.

Lemma elem_of_take_remove_pred x v n (l : list string) :
  x <> v -> v ∈ take n l -> x ∈ take n l -> x ∈ take (n - 1) (remove_first v l).
Proof.
  intros Hne. revert n; induction l as [|y l IH]; intros n; simpl.
  { rewrite take_nil. set_solver. }
  destruct n as [|n]; simpl; [set_solver|]. rewrite Nat.sub_0_r.
  intros Hv Hx. case_bool_decide; subst; [set_solver|].
  apply elem_of_cons in Hv as [->|Hv]; [done|].
  destruct n as [|n]; simpl; [set_solver|].
  apply elem_of_cons in Hx as [->|Hx]; [left|right].
  specialize (IH (S n) Hv Hx). simpl in IH. by rewrite Nat.sub_0_r in IH.
Qed.

Lemma elem_of_take_app_ne x v n (l : list string) : x <> v -> x ∈ take n (l ++ [v]) -> x ∈ take n l.
Proof.
  intros Hne. revert n; induction l as [|y l IH]; intros [|n]; simpl; try set_solver.
  rewrite take_nil. set_solver.
Qed.

Section Frames.
Context {E B Q : Type} `{RequestQueue Q} `{Services E B}.
Implicit Types (cfg : config) (s : sched E Q) (t : step B Q) (id : string).

(** [s'] differs from [s] neither in its queues nor in what identifies a
    request. *)
Record framed s s' : Prop := mkFramed {
  fr_running : running s' = running s;
  fr_waiting : waiting s' = waiting s;
  fr_skipped : skipped_waiting s' = skipped_waiting s;
  fr_streaming : num_waiting_for_streaming_input s' = num_waiting_for_streaming_input s;
  fr_pause : _pause_state s' = _pause_state s;
  fr_id x : request_id (req s' x) = request_id (req s x);
  fr_features x : mm_features (req s' x) = mm_features (req s x)
}.

#[export] Instance framed_preorder : PreOrder framed.
Proof.
  split; [by constructor|]. intros s1 s2 s3 [] [].
  constructor; try congruence; intros; etrans; eauto.
Qed.

(** A state that shares the store and the queues is framed. *)
Lemma framed_fields s s' :
  objs s' = objs s -> running s' = running s -> waiting s' = waiting s ->
  skipped_waiting s' = skipped_waiting s ->
  num_waiting_for_streaming_input s' = num_waiting_for_streaming_input s ->
  _pause_state s' = _pause_state s -> framed s s'.
Proof. intros Ho. intros. constructor; auto; intros; unfold req; by rewrite Ho. Qed.

Lemma framed_upd id f s :
  (forall r, request_id (f r) = request_id r /\ mm_features (f r) = mm_features r) ->
  framed s (upd_req id f s).
Proof.
  intros Hf. constructor; try done; intros x; rewrite req_upd; case_bool_decide; subst; auto;
    by destruct (Hf (req s x)).
Qed.

(** A framed state in which, besides, no turn of a long prefill is recorded and
    a request changes its status only to wait again. *)
Record quiet s s' : Prop := mkQuiet {
  qu_framed : framed s s';
  qu_prompt x : num_prompt_tokens (req s' x) = num_prompt_tokens (req s x);
  qu_status x : status (req s' x) = status (req s x) \/ status (req s' x) ∈ [WAITING; PREEMPTED];
  qu_turns : _long_prefill_last_scheduled s' = _long_prefill_last_scheduled s;
  qu_step : current_step s' = current_step s
}.

#[export] Instance quiet_preorder : PreOrder quiet.
Proof.
  split; [by constructor; auto|]. intros s1 s2 s3 [F1 P1 S1 T1 C1] [F2 P2 S2 T2 C2].
  constructor; [by etrans|congruence| |congruence..].
  intros x. destruct (S2 x) as [E2|]; [|by right]. rewrite E2. apply S1.
Qed.

Lemma quiet_fields s s' :
  objs s' = objs s -> framed s s' -> _long_prefill_last_scheduled s' = _long_prefill_last_scheduled s ->
  current_step s' = current_step s -> quiet s s'.
Proof. intros Ho Hf Ht Hc. constructor; auto; intros; unfold req; rewrite Ho; auto. Qed.

Lemma quiet_upd id f s :
  (forall r, request_id (f r) = request_id r /\ mm_features (f r) = mm_features r) ->
  (forall r, num_prompt_tokens (f r) = num_prompt_tokens r) ->
  (forall r, status (f r) = status r \/ status (f r) ∈ [WAITING; PREEMPTED]) -> quiet s (upd_req id f s).
Proof.
  intros Hf Hp Hs. constructor; try done; [by apply framed_upd|..]; intros x; rewrite req_upd; case_bool_decide; subst; auto.
Qed.

End Frames.
#[export] Hint Extern 1 (framed _ _) => apply framed_fields; reflexivity : py.
#[export] Hint Extern 1 (quiet _ _) => apply quiet_fields; [reflexivity|apply framed_fields; reflexivity|reflexivity..] : py.
#[export] Hint Extern 1 (quiet _ (upd_req _ _ _)) =>
  apply quiet_upd; intros; [split; reflexivity|reflexivity|
    first [left; reflexivity|right; simpl; repeat break_if; set_solver]] : py.
#[export] Hint Extern 1 (framed _ (upd_req _ _ _)) =>
  apply framed_upd; intros; split; reflexivity : py.

Section Running.
Context {E B Q : Type} `{RequestQueueLaws Q} `{ServicesLaws E B}.
Implicit Types (cfg : config) (s : sched E Q) (t : step B Q) (id : string).

(** What the configuration must satisfy for the chunk arithmetic. *)
Record cfg_ok cfg : Prop := mkCfgOk {
  co_decoder : is_encoder_decoder cfg = false;
  co_block : 0 < cache_block_size cfg
}.

(** A running request the last step left in order: what it has computed is at
    most what it holds, and inside the model length. *)
Definition schedulable cfg (r : request) : Prop :=
  num_computed_tokens r <= num_tokens_with_spec r + num_output_placeholders r /\
  num_computed_tokens r + num_sampled_tokens_per_step cfg <= max_model_len cfg.

(** The requests the scheduler holds, in its three queues. *)
Definition held s : list string := running s ++ q_list (waiting s) ++ q_list (skipped_waiting s).

(** The state a step may start from. *)
Record state_ok cfg s : Prop := mkStateOk {
  so_nodup : NoDup (held s);
  so_ids id : id ∈ held s -> request_id (req s id) = id;
  so_features id : features_ok (req s id);
  so_schedulable id : id ∈ running s -> schedulable cfg (req s id);
  so_capacity : Z.of_nat (length (running s)) <= max_num_running_reqs cfg;
  so_streaming : 0 <= num_waiting_for_streaming_input s;
  so_tokens : 0 <= max_num_scheduled_tokens cfg
}.

Record run_inv cfg s0 (L : list string) s t : Prop := mkRunInv {
  ri_held : held s ≡ₚ L;
  ri_nodup : NoDup L;
  ri_stable x : request_id (req s x) = request_id (req s0 x) /\
                mm_features (req s x) = mm_features (req s0 x);
  ri_untouched x : x ∈ running s -> x ∉ scheduled_running_reqs t -> req s x = req s0 x;
  ri_index : 0 <= req_index t;
  ri_before x : x ∈ scheduled_running_reqs t -> x ∈ take (Z.to_nat (req_index t)) (running s);
  ri_sched : NoDup (scheduled_running_reqs t);
  ri_count : Z.of_nat (length (scheduled_running_reqs t)) <= req_index t;
  ri_keys : dkeys (num_scheduled_tokens t) = scheduled_running_reqs t;
  ri_blocks : dkeys (req_to_new_blocks t) = scheduled_running_reqs t;
  ri_budget : token_budget t + zsum (dvals (num_scheduled_tokens t))
              = if bool_decide (_pause_state s = PAUSED_ALL) then 0 else max_num_scheduled_tokens cfg;
  ri_nonneg : 0 <= token_budget t;
  ri_positive : Forall (fun n => 0 < n) (dvals (num_scheduled_tokens t));
  ri_preempted : Forall (fun v => v ∉ running s /\ status (req s v) = PREEMPTED) (preempted_reqs t);
  ri_running x : x ∈ running s -> x ∈ running s0;
  ri_length : (length (running s) <= length (running s0))%nat;
  ri_admitted : scheduled_new_reqs t = [] /\ scheduled_resumed_reqs t = [];
  ri_streaming : num_waiting_for_streaming_input s = num_waiting_for_streaming_input s0;
  ri_pause : _pause_state s = _pause_state s0
}.

(** Where the current request of the loop is while blocks are allocated. *)
Record current cfg id s t : Prop := mkCurrent {
  cu_fresh : id ∉ scheduled_running_reqs t;
  cu_place : id ∈ take (S (Z.to_nat (req_index t))) (running s);
  cu_fcfs : policy cfg = FCFS -> running s !! Z.to_nat (req_index t) = Some id
}.

Lemma NoDup_running s L : held s ≡ₚ L -> NoDup L -> NoDup (running s).
Proof. intros Hp Hn. rewrite <- Hp in Hn. unfold held in Hn. by apply NoDup_app in Hn as [? _]. Qed.

Lemma run_inv_env cfg s0 L s t e : run_inv cfg s0 L s t -> run_inv cfg s0 L (s <| env := e |>) t.
Proof. intros []. constructor; auto. Qed.

Lemma run_inv_skip cfg s0 L s t :
  run_inv cfg s0 L s t -> run_inv cfg s0 L s (t <| req_index ::= Z.add 1 |>).
Proof.
  intros []. constructor; simpl; auto; try lia.
  intros x Hx. specialize (ri_before0 x Hx).
  replace (Z.to_nat (1 + req_index t)) with (S (Z.to_nat (req_index t))) by lia.
  by apply elem_of_take_S.
Qed.

(** The victim leaves [running] and, if it was scheduled, the step's books. *)
Lemma pop_victim_inv cfg s0 L s t id v s' t' :
  run_inv cfg s0 L s t -> current cfg id s t ->
  pop_victim cfg s t = Ok (v, s', t') ->
  exists L', L ≡ₚ v :: L' /\ run_inv cfg s0 L' s' t' /\ v ∈ running s /\ v ∉ running s' /\
    v ∉ scheduled_running_reqs t' /\ (v <> id -> current cfg id s' t') /\
    objs s' = objs s /\ length (running s) = S (length (running s')) /\
    token_budget t <= token_budget t'.
Proof.
  intros Hinv [Hfresh Hplace Hfcfs].
  pose proof (NoDup_running _ _ (ri_held _ _ _ _ _ Hinv) (ri_nodup _ _ _ _ _ Hinv)) as Hnd.
  assert (forall run',  running s ≡ₚ v :: run' ->
    L ≡ₚ v :: held (s <| running := run' |>) /\ NoDup (held (s <| running := run' |>)) /\ v ∉ run') as Hheld.
  { intros run' Hp. destruct Hinv as [Hh Hl _ _ _ _ _ _ _ _ _ _ _ _ _ _ _ _ _].
    assert (held s ≡ₚ v :: held (s <| running := run' |>)) as Hh'.
    { unfold held at 1. rewrite Hp. done. }
    rewrite <- Hh, Hh' in Hl. apply NoDup_cons in Hl as [Hni Hl].
    rewrite <- Hh, Hh'. repeat split; auto. unfold held in Hni. simpl in Hni. set_solver. }
  unfold pop_victim. destruct (policy cfg) eqn:Hpol.
  - destruct (pop_last (running s)) as [[rest w]|] eqn:Hpop; [|done].
    intros [= -> <- <-]. apply pop_last_spec in Hpop.
    destruct (Hheld rest) as (HL & HnL & Hni); [rewrite Hpop; apply Permutation_app_comm|].
    specialize (Hfcfs eq_refl).
    assert (v ∉ scheduled_running_reqs t) as Hvs.
    { intros Hv. apply (ri_before _ _ _ _ _ Hinv) in Hv. apply lookup_lt_Some in Hfcfs.
      rewrite Hpop, length_app in Hfcfs. simpl in Hfcfs.
      rewrite Hpop, take_app_le in Hv by lia. by apply elem_of_take_in in Hv. }
    exists (held (s <| running := rest |>)). split; [done|].
    assert (forall x, x ∈ scheduled_running_reqs t -> x <> v) as Hne by naive_solver.
    split; [|split; [rewrite Hpop; set_solver|split; [done|split; [done|split]]]].
    + destruct Hinv. constructor; simpl; auto.
      * intros x Hx. apply ri_untouched0. rewrite Hpop. set_solver.
      * intros x Hx. apply elem_of_take_app_ne with v; [by apply Hne|]. rewrite <- Hpop. auto.
      * eapply Forall_impl; [exact ri_preempted0|]. simpl. intros y. rewrite Hpop. set_solver.
      * intros x Hx. apply ri_running0. rewrite Hpop. set_solver.
      * rewrite Hpop, length_app in ri_length0. simpl in ri_length0. lia.
    + intros Hvid. constructor; simpl; auto.
      * apply elem_of_take_app_ne with v; [done|]. by rewrite <- Hpop.
      * intros _. rewrite Hpop in Hfcfs. apply lookup_app_Some in Hfcfs as [Hl|[Hl Hv]]; [done|].
        apply list_lookup_singleton_Some in Hv as [_ ->]. done.
    + split; [done|]. rewrite Hpop, length_app. simpl. lia.
  - destruct (max_by (lower_priority s) (running s)) as [w|] eqn:Hmax; [|done].
    apply max_by_in in Hmax.
    case_bool_decide as Hsched.
    + unfold dindex. destruct (dget (num_scheduled_tokens t) w) as [n|] eqn:Hn; [|done].
      destruct (dget (req_to_new_blocks t) w) as [b|]; [|done]. simpl.
      intros [= -> <- <-].
      destruct (Hheld (remove_first v (running s))) as (HL & HnL & Hni);
        [by apply remove_first_perm|].
      exists (held (s <| running := remove_first v (running s) |>)). split; [done|].
      pose proof (ri_before _ _ _ _ _ Hinv v Hsched) as Hvt.
      pose proof (ri_sched _ _ _ _ _ Hinv) as Hsn.
      assert (1 <= req_index t) as Hidx.
      { pose proof (ri_count _ _ _ _ _ Hinv). destruct (scheduled_running_reqs t); simpl in *; [set_solver|lia]. }
      assert (Z.to_nat (req_index t - 1) = (Z.to_nat (req_index t) - 1)%nat) as Hpred by lia.
      pose proof (length_remove_first v _ Hsched) as Hlen.
      pose proof (length_remove_first v _ Hmax) as Hlen2.
      assert (0 < n) as Hpos.
      { pose proof (ri_positive _ _ _ _ _ Hinv) as Hp. rewrite Forall_forall in Hp. apply Hp.
        apply list_elem_of_fmap. exists (v, n). split; [done|].
        apply dget_elem_of; [|done]. unfold dwf. rewrite (ri_keys _ _ _ _ _ Hinv). done. }
      split; [|split; [done|split; [done|split; [|split; [|split; [done|simpl; lia]]]]]].
      * destruct Hinv. constructor; simpl; auto; try lia.
        -- intros x Hx Hxs. destruct (decide (x = v)) as [->|Hxv]; [done|].
           apply ri_untouched0; [by eapply elem_of_remove_first|].
           intros Hx'. apply Hxs. by apply elem_of_remove_first_ne.
        -- intros x Hx. apply elem_of_remove_first_ne in Hx as [Hx Hxv]; [|done].
           rewrite Hpred. apply elem_of_take_remove_pred; auto.
        -- by apply NoDup_remove_first.
        -- rewrite dkeys_ddel. congruence.
        -- rewrite dkeys_ddel. congruence.
        -- rewrite (zsum_ddel _ _ n) by done. lia.
        -- by apply Forall_dvals_ddel.
        -- eapply Forall_impl; [exact ri_preempted0|]. simpl. intros y [Hy1 Hy2].
           split; [|done]. intros Hy. by apply elem_of_remove_first in Hy.
        -- intros x Hx. apply ri_running0. by eapply elem_of_remove_first.
      * simpl. rewrite elem_of_remove_first_ne by done. tauto.
      * intros Hvid. constructor; simpl.
        -- rewrite elem_of_remove_first_ne by done. tauto.
        -- rewrite Hpred. replace (S (Z.to_nat (req_index t) - 1)) with
             (S (Z.to_nat (req_index t)) - 1)%nat by lia.
           apply elem_of_take_remove_pred; auto. by apply elem_of_take_S.
        -- congruence.
    + intros [= -> <- <-].
      destruct (Hheld (remove_first v (running s))) as (HL & HnL & Hni);
        [by apply remove_first_perm|].
      exists (held (s <| running := remove_first v (running s) |>)). split; [done|].
      pose proof (length_remove_first v _ Hmax) as Hlen2.
      split; [|split; [done|split; [done|split; [done|split; [|split; [done|simpl; lia]]]]]].
      * destruct Hinv. constructor; simpl; auto; try lia.
        -- intros x Hx. apply ri_untouched0. by eapply elem_of_remove_first.
        -- intros x Hx. apply elem_of_take_remove; [naive_solver|auto].
        -- eapply Forall_impl; [exact ri_preempted0|]. simpl. intros y [Hy1 Hy2].
           split; [|done]. intros Hy. by apply elem_of_remove_first in Hy.
        -- intros x Hx. apply ri_running0. by eapply elem_of_remove_first.
      * intros Hvid. constructor; simpl; [done| |congruence].
        by apply elem_of_take_remove.
Qed.

(** A preempted request goes back to the waiting queue. *)
Lemma preempt_inv cfg s0 L s t v drop s' :
  run_inv cfg s0 L s t -> v ∉ L -> v ∉ running s -> request_id (req s v) = v ->
  _preempt_request cfg v drop s = Ok s' ->
  run_inv cfg s0 (v :: L) s' (t <| preempted_reqs ::= fun l => l ++ [v] |>) /\
  running s' = running s /\ req s' v = preempted_fields drop (req s v).
Proof.
  intros Hinv HvL Hvr Hid Hrun.
  apply preempt_request_spec in Hrun as (Hst & e & d & ->).
  assert (forall x, req ((upd_req v (preempted_fields drop)
             (s <| env := e |> <| deferred_frees := d |>
                <| _inflight_prefills ::= fun X => X ∖ {[v]} |>))
            <| waiting := q_prepend (preempted_fields drop (req s v)) (waiting s) |>
           <| reset_preempted_req_ids ::= union {[v]} |>) x =
         if bool_decide (v = x) then preempted_fields drop (req s v) else req s x) as Hreq.
  { intros x. exact (req_upd (s <| env := e |> <| deferred_frees := d |>
                <| _inflight_prefills ::= fun X => X ∖ {[v]} |>) v x (preempted_fields drop)). }
  split; [|split; [done|by rewrite Hreq, bool_decide_eq_true_2]].
  destruct Hinv. constructor; simpl; auto.
  - unfold held. simpl. rewrite q_prepend_list. simpl. rewrite Hid.
    rewrite <- ri_held0. unfold held. symmetry. apply Permutation_middle.
  - by constructor.
  - intros x. rewrite Hreq. destruct (bool_decide_reflect (v = x)) as [<-|]; [|auto].
    apply ri_stable0.
  - intros x Hx Hxs. rewrite Hreq, bool_decide_eq_false_2 by naive_solver. auto.
  - apply Forall_app. split.
    + eapply Forall_impl; [exact ri_preempted0|]. intros y [Hy1 Hy2]. split; [done|].
      rewrite Hreq. by destruct (bool_decide_reflect (v = y)).
    + repeat constructor; [done|]. by rewrite Hreq, bool_decide_eq_true_2.
Qed.

(** The state while blocks are allocated for [id]. *)
Definition alloc_inv cfg s0 L id (b0 : Z) (x : sched E Q * step B Q * option B) : Prop :=
  let '(s, t, nb) := x in
  run_inv cfg s0 L s t /\ current cfg id s t /\ b0 <= token_budget t /\
  (forall v, v ∈ L -> request_id (req s v) = v) /\ nb = None.

(** After the loop: allocated, or the request itself was preempted. *)
Definition alloc_post cfg s0 L id (b0 : Z) (x : sched E Q * step B Q * option B) : Prop :=
  let '(s, t, nb) := x in
  run_inv cfg s0 L s t /\
  match nb with
  | Some _ => current cfg id s t /\ b0 <= token_budget t
  | None => preempted_reqs t <> []
  end.

Lemma run_inv_perm cfg s0 L L' s t :
  L ≡ₚ L' -> run_inv cfg s0 L s t -> run_inv cfg s0 L' s t.
Proof. intros Hp []. constructor; auto; [by rewrite <- Hp|by rewrite <- Hp]. Qed.

(** One failed allocation: the victim leaves and is preempted. *)
Lemma preempt_victim cfg s0 L id s t v s1 t1 s2 :
  run_inv cfg s0 L s t -> current cfg id s t ->
  (forall x, x ∈ L -> request_id (req s x) = x) ->
  pop_victim cfg s t = Ok (v, s1, t1) ->
  _preempt_request cfg v (requires_kv_delivery cfg) s1 = Ok s2 ->
  let t2 := t1 <| preempted_reqs ::= fun l => l ++ [v] |> in
  run_inv cfg s0 L s2 t2 /\ (v <> id -> current cfg id s2 t2) /\
  (forall x, x ∈ L -> request_id (req s2 x) = x) /\
  length (running s) = S (length (running s2)) /\ token_budget t <= token_budget t2 /\
  preempted_reqs t2 <> [].
Proof.
  intros Hinv Hcur Hids Hpop Hpre.
  destruct (pop_victim_inv _ _ _ _ _ _ _ _ _ Hinv Hcur Hpop)
    as (L' & HL & Hinv1 & Hvr & Hvr1 & Hvs1 & Hcur1 & Hobj & Hlen & Hbud).
  assert (v ∈ L) as HvL by (rewrite HL; left).
  assert (forall x, req s1 x = req s x) as Hreq by (intros x; unfold req; by rewrite Hobj).
  pose proof (ri_nodup _ _ _ _ _ Hinv) as HnL. rewrite HL in HnL.
  apply NoDup_cons in HnL as [HvL' HnL'].
  destruct (preempt_inv _ _ _ _ _ _ _ _ Hinv1 HvL' Hvr1 ltac:(rewrite Hreq; auto) Hpre)
    as (Hinv2 & Hrun2 & Hreq2).
  split; [by eapply run_inv_perm|]. split.
  - intros Hne. destruct (Hcur1 Hne). constructor; simpl; rewrite ?Hrun2; auto.
  - split; [|rewrite Hrun2; simpl; repeat split; auto; by destruct (preempted_reqs t1)].
    intros x Hx. rewrite (proj1 (ri_stable _ _ _ _ _ Hinv2 x)).
    rewrite <- (proj1 (ri_stable _ _ _ _ _ Hinv x)). auto.
Qed.

Lemma alloc_loop_inv cfg s0 L id n b0 k x x' :
  alloc_inv cfg s0 L id b0 x -> while k (allocate_body cfg id n) x = Ok x' ->
  alloc_post cfg s0 L id b0 x'.
Proof.
  intros Hx. apply (while_inv (alloc_inv cfg s0 L id b0)); [done| |]; clear x Hx;
    intros [[s t] nb] x1 (Hinv & Hcur & Hb & Hids & _); unfold allocate_body;
    destruct (kv_allocate_slots _ _ _) as [e [b|]]; try done.
  2:{ intros [= <-]. split; [by apply run_inv_env|]. split; [by destruct Hcur; constructor|done]. }
  all: destruct (pop_victim _ _ _) as [[[v s1] t1]|] eqn:Hpop; simpl; [|done].
  all: destruct (_preempt_request _ _ _ _) as [s2|] eqn:Hpre; simpl; [|done].
  all: case_bool_decide as Hv; try done.
  all: intros [= <-].
  all: destruct (preempt_victim cfg s0 L id _ t v s1 t1 s2 (run_inv_env _ _ _ _ _ e Hinv))
      as (P1 & P2 & P3 & P4 & P5 & P6); auto; [by destruct Hcur; constructor|].
  - split; [done|]. split; [by apply P2|]. split; [simpl in *; lia|]. split; [exact P3|done].
  - split; [done|]. done.
Qed.

(** What [commit_running] does to the fields of the invariant. *)
Lemma commit_running_fields cfg id n b inputs ext eb pf lg s t :
  let x := commit_running cfg id n b inputs ext eb pf lg (s, t) in
  framed s (fst x) /\ (forall y, y <> id -> req (fst x) y = req s y) /\
  scheduled_running_reqs (snd x) = scheduled_running_reqs t ++ [id] /\
  req_to_new_blocks (snd x) = dset (req_to_new_blocks t) id b /\
  num_scheduled_tokens (snd x) = dset (num_scheduled_tokens t) id n /\
  token_budget (snd x) = token_budget t - n /\
  req_index (snd x) = 1 + req_index t /\
  preempted_reqs (snd x) = preempted_reqs t /\
  scheduled_new_reqs (snd x) = scheduled_new_reqs t /\
  scheduled_resumed_reqs (snd x) = scheduled_resumed_reqs t /\
  status (req (fst x) id) = status (req s id).
Proof.
  unfold commit_running.
  set (c1 := enable_decode_aware_prefill cfg && pf). set (c2 := c1 && lg).
  set (c3 := nonempty (spec_token_ids (req s id)) && _).
  destruct c1, c2, c3, (nonempty inputs); cbn zeta;
    (split; [constructor; try reflexivity; intros y; simpl; unfold req; simpl;
       destruct (decide (id = y)) as [<-|Hne];
       rewrite ?lookup_total_insert_eq, ?lookup_total_insert_ne by done; reflexivity|]);
    (split; [intros y Hy; unfold req; simpl; by rewrite lookup_total_insert_ne|]);
    simpl; repeat (split; [reflexivity|]); unfold req; simpl; by rewrite lookup_total_insert_eq.
Qed.

Lemma commit_running_inv cfg s0 L id n b inputs ext eb pf lg s t :
  run_inv cfg s0 L s t -> current cfg id s t -> 0 < n <= token_budget t ->
  let x := commit_running cfg id n b inputs ext eb pf lg (s, t) in
  run_inv cfg s0 L (fst x) (snd x).
Proof.
  intros Hinv [Hfresh Hplace _] Hn x.
  destruct (commit_running_fields cfg id n b inputs ext eb pf lg s t)
    as ([F1 F2 F3 F4 F5 F6 F7] & Hne & T1 & T2 & T3 & T4 & T5 & T6 & T7 & T8 & T9).
  fold x in F1, F2, F3, F4, F5, F6, F7, Hne, T1, T2, T3, T4, T5, T6, T7, T8, T9.
  destruct Hinv. constructor; rewrite ?T1, ?T2, ?T3, ?T4, ?T5, ?T6, ?T7, ?T8, ?F1, ?F4, ?F5; auto.
  - unfold held. by rewrite F1, F2, F3.
  - intros y. rewrite F6, F7. apply ri_stable0.
  - intros y Hy Hs. rewrite Hne by set_solver. apply ri_untouched0; [done|set_solver].
  - lia.
  - intros y Hy. replace (Z.to_nat (1 + req_index t)) with (S (Z.to_nat (req_index t))) by lia.
    apply elem_of_app in Hy as [Hy|Hy%list_elem_of_singleton]; [|by subst].
    apply elem_of_take_S. auto.
  - apply NoDup_app. split; [done|]. split; [set_solver|apply NoDup_singleton].
  - rewrite length_app. simpl. lia.
  - rewrite dkeys_dset_fresh by by rewrite ri_keys0. by rewrite ri_keys0.
  - rewrite dkeys_dset_fresh by by rewrite ri_blocks0. by rewrite ri_blocks0.
  - rewrite zsum_dset_fresh by by rewrite ri_keys0. lia.
  - lia.
  - apply Forall_dvals_dset; [by rewrite ri_keys0|lia|done].
  - rewrite Forall_forall in ri_preempted0 |- *. intros y Hy.
    destruct (ri_preempted0 y Hy) as [Hy1 Hy2]. split; [done|].
    rewrite Hne; [done|]. intros ->. apply Hy1. by eapply elem_of_take_in.
Qed.

(** The chunk of a schedulable request fits the budget and is not negative. *)
Lemma running_num_new_tokens_bounds cfg s t r :
  schedulable cfg r -> 0 < token_budget t -> running_gate cfg s t r = Pass ->
  0 <= running_num_new_tokens cfg t r <= token_budget t.
Proof.
  intros [Hs1 Hs2] Hb Hg.
  assert (enable_decode_aware_prefill cfg && is_prefill_chunk r = true ->
    0 < prefill_token_budget t - prefill_tokens_scheduled t) as Hrem.
  { intros Ha. unfold running_gate in Hg. rewrite Ha in Hg. simpl in Hg.
    destruct (Z.leb_spec (prefill_token_budget t - prefill_tokens_scheduled t) 0); [|lia].
    repeat break_if; done. }
  unfold running_num_new_tokens.
  destruct (enable_decode_aware_prefill cfg && is_prefill_chunk r); [specialize (Hrem eq_refl)|];
    cbn [negb andb];
    destruct (Z.ltb_spec 0 (long_prefill_token_threshold cfg)); cbn [andb];
    try (break_if; bool_prop); lia.
Qed.

Lemma encoder_adjust_bounds cfg (e : E) r nc n budget e' inputs n' b' ext :
  is_encoder_decoder cfg = false -> features_ok r -> 0 <= n ->
  encoder_adjust cfg e r nc n budget = Ok (e', (inputs, n', b', ext)) -> 0 <= n' <= n.
Proof.
  intros Hed Hf Hn. unfold encoder_adjust. break_if; [|intros [= <- <- <- <- <-]; lia].
  intros Hrun. destruct (Z.eq_dec n 0) as [->|].
  - unfold _try_schedule_encoder_inputs in Hrun. simpl in Hrun. injection Hrun as _ _ <- _ _. lia.
  - eapply try_schedule_new_le; eauto; lia.
Qed.

Lemma features_ok_eq r r' : mm_features r' = mm_features r -> features_ok r -> features_ok r'.
Proof. unfold features_ok, feature. intros ->. done. Qed.

(** The token count of the chunk, as the body computes it. *)
Lemma chunk_bounds cfg s0 L s t id e inputs n eb ext :
  cfg_ok cfg -> state_ok cfg s0 -> run_inv cfg s0 L s t -> 0 < token_budget t ->
  running s !! Z.to_nat (req_index t) = Some id ->
  running_gate cfg s t (req s id) = Pass ->
  encoder_adjust cfg (env s) (req s id) (num_computed_tokens (req s id))
    (running_num_new_tokens cfg t (req s id)) (encoder_compute_budget t)
    = Ok (e, (inputs, n, eb, ext)) ->
  let n' := if need_mamba_block_aligned_split cfg
            then _mamba_block_aligned_split cfg (req s id) n 0 0 else n in
  current cfg id s t /\ 0 <= n' <= token_budget t.
Proof.
  intros Hcfg Hs0 Hinv Hb Hid Hg Henc n'.
  assert (id ∈ running s) as Hin by by eapply list_elem_of_lookup_2.
  assert (current cfg id s t) as Hcur.
  { constructor; [|apply elem_of_take; eauto|done].
    intros Hsch. apply (ri_before _ _ _ _ _ Hinv) in Hsch.
    apply elem_of_take in Hsch as (i & Hi & Hlt).
    pose proof (NoDup_running _ _ (ri_held _ _ _ _ _ Hinv) (ri_nodup _ _ _ _ _ Hinv)) as Hnd.
    pose proof (NoDup_lookup _ _ _ _ Hnd Hi Hid). lia. }
  split; [done|].
  assert (req s id = req s0 id) as Hreq by (apply (ri_untouched _ _ _ _ _ Hinv); [done|apply Hcur]).
  assert (schedulable cfg (req s id)) as Hsch.
  { rewrite Hreq. apply (so_schedulable _ _ Hs0). by apply (ri_running _ _ _ _ _ Hinv). }
  pose proof (running_num_new_tokens_bounds cfg s t _ Hsch Hb Hg) as Hn0.
  assert (0 <= n <= running_num_new_tokens cfg t (req s id)) as Hn.
  { eapply encoder_adjust_bounds; [apply Hcfg| |lia|exact Henc].
    eapply features_ok_eq; [|apply (so_features _ _ Hs0 id)]. by rewrite Hreq. }
  unfold n'. break_if; [|lia].
  pose proof (split_bounds cfg (req s id) n 0 0 (co_block _ Hcfg) ltac:(lia)). lia.
Qed.

(** The loop invariant of the running loop. *)
Definition run_state cfg s0 L (x : sched E Q * step B Q) : Prop := run_inv cfg s0 L (fst x) (snd x).

Lemma running_body_inv cfg s0 L x :
  cfg_ok cfg -> state_ok cfg s0 -> (forall v, v ∈ L -> request_id (req s0 v) = v) ->
  run_state cfg s0 L x ->
  (forall x', running_body cfg x = Ok (Continue x') -> run_state cfg s0 L x') /\
  (forall x', running_body cfg x = Ok (Break x') -> run_state cfg s0 L x').
Proof.
  intros Hcfg Hs0 Hids Hx. destruct x as [s t]. unfold run_state in *. simpl in Hx.
  unfold running_body. cbv beta iota.
  destruct (Z.ltb_spec (req_index t) (Z.of_nat (length (running s)))) as [Hlt|]; simpl;
    [|split; intros x' [=]; by subst].
  destruct (Z.ltb_spec 0 (token_budget t)) as [Hb|]; simpl; [|split; intros x' [=]; by subst].
  destruct (running s !! Z.to_nat (req_index t)) as [id|] eqn:Hid; [|done].
  destruct (running_gate cfg s t (req s id)) eqn:Hg.
  2:{ split; intros x' [=]. subst. by apply run_inv_skip. }
  2:{ split; intros x' [=]. subst. simpl.
      assert (run_inv cfg s0 L (s <| long_prefill_gate_skips ::= Z.add 1 |>)
                (t <| gate_skipped_running ::= Z.add 1 |>)) as Hx' by (destruct Hx; constructor; auto).
      exact (run_inv_skip _ _ _ _ _ Hx'). }
  destruct (encoder_adjust _ _ _ _ _ _) as [[e [[[inputs n] eb] ext]]|] eqn:Henc; cbn [rbind]; [|done].
  destruct (chunk_bounds cfg s0 L s t id e inputs n eb ext Hcfg Hs0 Hx Hb Hid Hg Henc) as [Hcur Hn].
  set (n' := if need_mamba_block_aligned_split cfg then _ else n) in *.
  pose proof (run_inv_env _ _ _ _ _ e Hx) as Hxe.
  cbv zeta. fold n'. destruct (Z.eqb_spec n' 0) as [|Hnz].
  { split; intros x' [=]. subst. simpl. by apply run_inv_skip. }
  destruct (while _ _ _) as [[[s1 t1] nb]|] eqn:Hloop; cbn [rbind]; [|done].
  assert (alloc_inv cfg s0 L id (token_budget t) (s <| env := e |>, t, None)) as Hai.
  { split; [exact Hxe|]. split; [by destruct Hcur; constructor|]. split; [lia|].
    split; [|done]. intros v Hv. rewrite (proj1 (ri_stable _ _ _ _ _ Hxe v)). auto. }
  pose proof (alloc_loop_inv _ _ _ _ _ _ _ _ _ Hai Hloop) as [Hinv1 Hpost].
  destruct nb as [b|]; split; intros x' Heq; try discriminate Heq;
    injection Heq as <-; [|done].
  apply commit_running_inv; [done|apply Hpost|lia].
Qed.

Lemma running_loop_inv cfg s0 L x x' :
  cfg_ok cfg -> state_ok cfg s0 -> (forall v, v ∈ L -> request_id (req s0 v) = v) ->
  run_state cfg s0 L x -> running_loop cfg x = Ok x' -> run_state cfg s0 L x'.
Proof.
  intros Hcfg Hs0 Hids Hx. unfold running_loop.
  apply (while_inv (run_state cfg s0 L)); [done| |];
    intros y y' Hy; destruct (running_body_inv cfg s0 L y Hcfg Hs0 Hids Hy); auto.
Qed.

End Running.
