(* ===== verification/SchedWaiting.v ===== *)
(** * Correctness of a scheduler step

    The invariant [wait_inv] of the loop over the waiting requests, and the
    theorems on [schedule]: the closing assertions hold, no request is lost
    or duplicated, and the loops end. *)
From S2P Require Export SchedRunning.
Import PyDict PyList LongPrefill Mamba.

Section Waiting.
Context {E B Q : Type} `{RequestQueueLaws Q} `{ServicesLaws E B}.
Implicit Types (cfg : config) (s : sched E Q) (t : step B Q) (id : string).

Definition admitted t : list string := scheduled_new_reqs t ++ scheduled_resumed_reqs t.

Record wait_inv cfg s0 (L : list string) s t : Prop := mkWaitInv {
  wi_held : held s ++ q_list (step_skipped_waiting t) ≡ₚ L;
  wi_nodup : NoDup L;
  wi_stable x : request_id (req s x) = request_id (req s0 x) /\
                mm_features (req s x) = mm_features (req s0 x);
  wi_keys : dkeys (num_scheduled_tokens t) ≡ₚ admitted t ++ scheduled_running_reqs t;
  wi_blocks : dkeys (req_to_new_blocks t) ≡ₚ admitted t ++ scheduled_running_reqs t;
  wi_sub : admitted t ++ scheduled_running_reqs t ⊆+ running s;
  wi_budget : token_budget t + zsum (dvals (num_scheduled_tokens t))
              = if bool_decide (_pause_state s = PAUSED_ALL) then 0 else max_num_scheduled_tokens cfg;
  wi_nonneg : 0 <= token_budget t;
  wi_positive : Forall (fun n => 0 < n) (dvals (num_scheduled_tokens t));
  wi_capacity : Z.of_nat (length (running s)) <= max_num_running_reqs cfg;
  wi_streaming : num_waiting_for_streaming_input s = num_waiting_for_streaming_input s0;
  wi_pause : _pause_state s = _pause_state s0
}.

Lemma wait_inv_framed cfg s0 L s s' t :
  framed s s' -> wait_inv cfg s0 L s t -> wait_inv cfg s0 L s' t.
Proof.
  intros [F1 F2 F3 F4 F5 F6 F7] [].
  constructor; rewrite ?F1, ?F4, ?F5; auto.
  - unfold held. by rewrite F1, F2, F3.
  - intros x. rewrite F6, F7. apply wi_stable0.
Qed.

(** ** Frames of the parts of the body *)

Lemma quiet_env s e : quiet s (s <| env := e |>).
Proof. auto with py. Qed.

Lemma update_remote_kv_quiet cfg id s s' :
  _update_waiting_for_remote_kv cfg id s = Ok s' -> quiet s s'.
Proof.
  unfold _update_waiting_for_remote_kv. destruct (connector cfg); simpl; [|done].
  set (s1 := if bool_decide (id ∈ failed_recving_kv_req_ids s) then _ else _).
  assert (quiet s s1) as Hf.
  { subst s1. repeat break_if; auto with py.
    etrans; [apply (quiet_env s (kv_cache_blocks (env s) (req s id)
                                    (num_computed_tokens (req s id))))|]. auto with py. }
  unfold require. break_if; simpl; [|done]. intros [= <-]. etrans; [exact Hf|]. auto with py.
Qed.

Lemma promote_quiet cfg id s s' b :
  _try_promote_blocked_waiting_request cfg id s = Ok (s', b) -> quiet s s'.
Proof.
  unfold _try_promote_blocked_waiting_request. destruct (status (req s id)); try done.
  - destruct (so_grammar _ _) as [[|]|]; intros [= <- _]; auto with py.
  - break_if; [intros [= <- _]; reflexivity|].
    destruct (_update_waiting_for_remote_kv cfg id s) as [s1|] eqn:Hu; simpl; [|done].
    intros [= <- _]. etrans; [by eapply update_remote_kv_quiet|]. auto with py.
  - destruct (require _ _); simpl; [|done]. intros [= <- _]. reflexivity.
Qed.

Lemma set_shared_quiet n id s : quiet s (set_shared n id s).
Proof. unfold set_shared. auto with py. Qed.

Lemma connector_lookup_quiet cfg id b l d s s' o :
  connector_lookup cfg id b l d s = (s', o) -> quiet s s'.
Proof.
  unfold connector_lookup. destruct (conn_get_num_new_matched_tokens _ _ _) as [e [[ext|] a]].
  2:{ intros [= <- _]. auto with py. }
  destruct (if negb _ && _ then _ else _) as [[[b' l'] x'] a'].
  break_if; [|intros [= <- _]; auto with py].
  destruct (kv_get_computed_blocks _ _) as [e' [[b2 l2] sh]]. intros [= <- _].
  etrans; [apply (quiet_env s e)|]. etrans; [apply (quiet_env _ e')|]. apply set_shared_quiet.
Qed.

Lemma lookup_computed_quiet cfg id s s' o :
  lookup_computed cfg id s = Ok (s', o) -> quiet s s'.
Proof.
  unfold lookup_computed. break_if; [|intros [= <- _]; reflexivity].
  set (first := if connector cfg then _ else _) at 1.
  destruct first as [[[s1 b] l] d] eqn:Hq1.
  assert (quiet s s1) as F1.
  { subst first. destruct (connector cfg).
    - destruct (kv_get_computed_blocks_for_connector _ _) as [e [[[b1 l1] sh] d1]].
      injection Hq1 as <- _ _ _. etrans; [apply (quiet_env s e)|]. apply set_shared_quiet.
    - destruct (kv_get_computed_blocks _ _) as [e [[b1 l1] sh]].
      injection Hq1 as <- _ _ _. etrans; [apply (quiet_env s e)|]. apply set_shared_quiet. }
  set (second := if connector cfg then _ else _).
  destruct second as [s2 o2] eqn:Hq2.
  assert (quiet s s2) as F2.
  { etrans; [exact F1|]. subst second. destruct (connector cfg).
    - by eapply connector_lookup_quiet.
    - injection Hq2 as <- _. reflexivity. }
  destruct o2 as [[[[b2 l2] x2] a2]|]; [|by intros [= <- _]].
  destruct (require _ _); simpl; [|done].
  set (third := if ec_connector cfg && _ then _ else _).
  destruct third as [s3 av] eqn:Hq3.
  assert (quiet s s3) as F3.
  { etrans; [exact F2|]. subst third. break_if.
    - destruct (ec_ensure_cache_available _ _ _) as [e ok]. injection Hq3 as <- _. auto with py.
    - injection Hq3 as <- _. reflexivity. }
  destruct av; simpl; [|by intros [= <- _]].
  destruct (prefill_stats (req s3 id)); [|simpl; by intros [= <- _]].
  break_if; [|simpl; by intros [= <- _]].
  destruct (require _ _); simpl; [|done]. intros [= <- _].
  etrans; [exact F3|]. auto with py.
Qed.

Lemma waiting_tokens_quiet cfg id l s t s' v :
  waiting_num_new_tokens cfg id l s t = Ok (s', v) -> quiet s s'.
Proof.
  unfold waiting_num_new_tokens.
  destruct (l_async l); [destruct (require _ _); simpl; [intros [= <- _]; reflexivity|done]|].
  repeat (break_if; [intros [= <- _]; reflexivity|]).
  destruct (require _ _); simpl; [|done].
  break_if; [|intros [= <- _]; reflexivity].
  destruct (_try_schedule_encoder_inputs _ _ _ _ _ _ _) as [[e [[[i n] b] x]]|]; simpl; [|done].
  break_if; intros [= <- _]; auto with py.
Qed.

Lemma promote_framed cfg id s s' b :
  _try_promote_blocked_waiting_request cfg id s = Ok (s', b) -> framed s s'.
Proof. intros Hr. by eapply qu_framed, promote_quiet. Qed.

Lemma lookup_computed_framed cfg id s s' o :
  lookup_computed cfg id s = Ok (s', o) -> framed s s'.
Proof. intros Hr. by eapply qu_framed, lookup_computed_quiet. Qed.

Lemma waiting_tokens_framed cfg id l s t s' v :
  waiting_num_new_tokens cfg id l s t = Ok (s', v) -> framed s s'.
Proof. intros Hr. by eapply qu_framed, waiting_tokens_quiet. Qed.

(** A synchronous request gets a positive number of tokens within the budget. *)
Lemma waiting_tokens_bounds cfg id l s t s' n pad inputs eb ext :
  cfg_ok cfg -> features_ok (req s id) -> 0 < token_budget t ->
  waiting_num_new_tokens cfg id l s t = Ok (s', Go n pad inputs eb ext) ->
  (l_async l = true /\ n = 0) \/ (l_async l = false /\ 0 < n <= token_budget t).
Proof.
  intros Hcfg Hf Hb. unfold waiting_num_new_tokens.
  destruct (l_async l); [destruct (require _ _); simpl; [intros [= _ <- _ _ _ _]; by left|done]|].
  intros Hrun. right. split; [done|]. revert Hrun.
  repeat (break_if; [done|]). unfold require.
  set (m := if enable_decode_aware_prefill cfg then _ else _).
  assert (m <= token_budget t) as Hm by (subst m; break_if; lia).
  destruct (Z.ltb_spec 0 m) as [Hpos|]; simpl; [|done].
  break_if; [|intros [= _ <- _ _ _ _]; lia].
  destruct (_try_schedule_encoder_inputs _ _ _ _ _ _ _) as [[e [[[i n'] b] x]]|] eqn:He; simpl; [|done].
  destruct (Z.eqb_spec n' 0); [done|]. intros [= _ <- _ _ _ _].
  apply try_schedule_new_le in He; [|apply Hcfg|done|done]. lia.
Qed.

(** ** Queue moves *)

(** Popping the head a peek announced. *)
Lemma pop_queue_spec w id s id' s' :
  q_peek (get_queue w s) = Some id -> pop_queue w s = Ok (id', s') ->
  id' = id /\ held s ≡ₚ id :: held s' /\ objs s' = objs s /\ running s' = running s /\
  num_waiting_for_streaming_input s' = num_waiting_for_streaming_input s /\
  _pause_state s' = _pause_state s /\ env s' = env s /\
  (length (q_list (waiting s')) + length (q_list (skipped_waiting s'))
    < length (q_list (waiting s)) + length (q_list (skipped_waiting s)))%nat.
Proof.
  intros Hpeek. unfold pop_queue. rewrite q_peek_pop in Hpeek.
  destruct (q_pop (get_queue w s)) as [[x q]|] eqn:Hpop; [|done].
  injection Hpeek as ->. intros [= <- <-].
  pose proof (q_pop_list _ _ _ Hpop) as Hl. split; [done|].
  destruct w; unfold held; simpl in *; rewrite Hl; simpl;
    (split; [|repeat (split; [done|]); lia]).
  - symmetry. apply Permutation_middle.
  - rewrite !app_assoc. symmetry. apply Permutation_middle.
Qed.

Lemma get_queue_framed w s s' : framed s s' -> get_queue w s' = get_queue w s.
Proof. intros []. by destruct w. Qed.

(** The candidate of a round is held. *)
Lemma peek_held w id s : q_peek (get_queue w s) = Some id -> id ∈ held s.
Proof.
  rewrite q_peek_pop. destruct (q_pop (get_queue w s)) as [[x q]|] eqn:Hpop; [|done].
  intros [= ->]. apply q_pop_list in Hpop. unfold held. rewrite !elem_of_app.
  destruct w; simpl in Hpop; rewrite Hpop; set_solver.
Qed.

Lemma wait_inv_requeue cfg s0 L s t s1 id :
  wait_inv cfg s0 L s t -> request_id (req s1 id) = id ->
  held s ≡ₚ id :: held s1 -> objs s1 = objs s -> running s1 = running s ->
  num_waiting_for_streaming_input s1 = num_waiting_for_streaming_input s ->
  _pause_state s1 = _pause_state s ->
  wait_inv cfg s0 L s1 (t <| step_skipped_waiting ::= q_prepend (req s1 id) |>).
Proof.
  intros [] Hid Hh Ho Hr Hn Hp. constructor; simpl; rewrite ?Hr, ?Hn, ?Hp; auto.
  - rewrite q_prepend_list, Hid, <- wi_held0, Hh. symmetry. apply Permutation_middle.
  - intros x. unfold req. rewrite Ho. apply wi_stable0.
Qed.

Lemma skip_waiting_inv cfg s0 L s t w id c :
  wait_inv cfg s0 L s t -> request_id (req s id) = id -> q_peek (get_queue w s) = Some id ->
  skip_waiting w id s t = Ok c ->
  exists s' t', c = Continue (s', t') /\ wait_inv cfg s0 L s' t' /\
    (length (q_list (waiting s')) + length (q_list (skipped_waiting s'))
      < length (q_list (waiting s)) + length (q_list (skipped_waiting s)))%nat.
Proof.
  intros Hinv Hid Hpeek. unfold skip_waiting.
  destruct (pop_queue w s) as [[id' s1]|] eqn:Hpop; simpl; [|done].
  destruct (pop_queue_spec _ _ _ _ _ Hpeek Hpop) as (-> & P1 & P2 & P3 & P4 & P5 & P6 & P7).
  intros [= <-]. do 2 eexists. split; [done|]. split; [|done].
  eapply wait_inv_requeue; eauto. unfold req in *. by rewrite P2.
Qed.

(** The fields of a request parked for an asynchronous load. *)
Lemma park_async_inv cfg s0 L s t id l :
  wait_inv cfg s0 L s (t <| step_skipped_waiting ::= q_prepend (req s id) |>) ->
  request_id (req s id) = id ->
  wait_inv cfg s0 L (fst (park_async cfg id l s t)) (snd (park_async cfg id l s t)).
Proof.
  intros Hinv Hid.
  set (x := park_async cfg id l s t).
  assert (framed s (fst x)) as Hf.
  { subst x. unfold park_async. cbv zeta.
    constructor; try (by break_if); intros y; break_if; cbn [fst]; unfold req; simpl;
      unfold req; simpl; destruct (decide (id = y)) as [<-|Hne];
      rewrite ?lookup_total_insert_eq, ?lookup_total_insert_ne by done; done. }
  assert (snd x = t <| step_skipped_waiting ::=
      q_prepend ((req s id) <| status := WAITING_FOR_REMOTE_KVS |>) |>) as Ht.
  { subst x. unfold park_async. cbn [snd]. by rewrite req_upd_eq. }
  rewrite Ht. apply (wait_inv_framed _ _ _ _ _ _ Hf) in Hinv.
  destruct Hinv. constructor; auto.
  simpl in *. rewrite <- wi_held0, !q_prepend_list. simpl. by rewrite Hid.
Qed.

(** What [commit_waiting] does to the fields of the invariant. *)
Lemma commit_waiting_fields cfg id n pad inputs ext eb l s t s' t' :
  commit_waiting cfg id n pad inputs ext eb l s t = Ok (s', t') ->
  running s' = running s ++ [id] /\ waiting s' = waiting s /\
  skipped_waiting s' = skipped_waiting s /\
  num_waiting_for_streaming_input s' = num_waiting_for_streaming_input s /\
  _pause_state s' = _pause_state s /\
  (forall x, request_id (req s' x) = request_id (req s x) /\
             mm_features (req s' x) = mm_features (req s x)) /\
  req_to_new_blocks t' = dset (req_to_new_blocks t) id (kv_get_blocks (env s) id) /\
  num_scheduled_tokens t' = dset (num_scheduled_tokens t) id n /\
  token_budget t' = token_budget t - n /\
  step_skipped_waiting t' = step_skipped_waiting t /\
  scheduled_running_reqs t' = scheduled_running_reqs t /\
  admitted t' ≡ₚ id :: admitted t.
Proof.
  unfold commit_waiting. cbn [rbind].
  set (r := req (s <| running ::= fun r => r ++ [id] |>) id).
  set (t1 := match status r with WAITING => _ | _ => _ end).
  destruct t1 as [t2|] eqn:Ht1; cbn [rbind]; [|done].
  assert (exists a b, t2 = t <| scheduled_new_reqs := a |> <| scheduled_resumed_reqs := b |> /\
    a ++ b ≡ₚ id :: admitted t) as (a & b & -> & Hab).
  { subst t1. unfold admitted. destruct (status r); try discriminate Ht1; injection Ht1 as <-.
    - exists (scheduled_new_reqs t ++ [id]), (scheduled_resumed_reqs t). split; [by destruct t|].
      rewrite <- app_assoc. symmetry. apply Permutation_middle.
    - exists (scheduled_new_reqs t), (scheduled_resumed_reqs t ++ [id]). split; [by destruct t|].
      rewrite app_assoc. rewrite Permutation_app_comm. done. }
  clear Ht1 t1. cbv zeta.
  set (c1 := enable_decode_aware_prefill cfg). set (c2 := c1 && _).
  set (c3 := l_computed l + n <? _).
  intros [= <- <-].
  assert (forall f x, (forall r, request_id (f r) = request_id r /\ mm_features (f r) = mm_features r) ->
    forall m : gmap string request, request_id ((<[id := f (m !!! id)]> m) !!! x) = request_id (m !!! x) /\
      mm_features ((<[id := f (m !!! id)]> m) !!! x) = mm_features (m !!! x)) as Hins.
  { intros f x Hf m. destruct (decide (id = x)) as [<-|Hne];
      rewrite ?lookup_total_insert_eq, ?lookup_total_insert_ne by done; auto. }
  destruct (max_loras cfg), (lora_int_id r), c1, c2, c3, pad, (nonempty inputs); simpl;
    do 5 (split; [reflexivity|]);
    (split; [intros x; unfold req; simpl;
       apply (Hins (fun r => r <| status := RUNNING |> <| num_computed_tokens := l_computed l |>) x);
       by split|]);
    repeat (split; [reflexivity|]); exact Hab.
Qed.

Lemma commit_waiting_inv cfg s0 L s t s1 id n pad inputs ext eb l s' t' :
  wait_inv cfg s0 L s t -> held s ≡ₚ id :: held s1 -> objs s1 = objs s -> running s1 = running s ->
  num_waiting_for_streaming_input s1 = num_waiting_for_streaming_input s ->
  _pause_state s1 = _pause_state s ->
  Z.of_nat (length (running s)) < max_num_running_reqs cfg ->
  0 < n <= token_budget t ->
  commit_waiting cfg id n pad inputs ext eb l s1 t = Ok (s', t') ->
  wait_inv cfg s0 L s' t'.
Proof.
  intros [] Hh Ho Hr Hn Hp Hcap Hb Hrun.
  apply commit_waiting_fields in Hrun
    as (C1 & C2 & C3 & C4 & C5 & C6 & C7 & C8 & C9 & C10 & C11 & C12).
  assert (id ∉ running s) as Hfresh.
  { pose proof wi_nodup0 as Hnd. rewrite <- wi_held0, Hh in Hnd. simpl in Hnd.
    apply NoDup_cons in Hnd as [Hni _]. unfold held in Hni. rewrite Hr in Hni. set_solver. }
  assert (id ∉ admitted t ++ scheduled_running_reqs t) as Hns.
  { intros Hin. apply Hfresh. by eapply elem_of_submseteq. }
  constructor; rewrite ?C1, ?C4, ?C5, ?C7, ?C8, ?C9, ?C10, ?C11, ?Hr, ?Hn, ?Hp; auto.
  - rewrite <- wi_held0, Hh. unfold held. rewrite C1, C2, C3, Hr, <- !app_assoc. simpl.
    rewrite <- !app_assoc. symmetry. apply Permutation_middle.
  - intros x. destruct (C6 x) as [-> ->]. unfold req. rewrite Ho. apply wi_stable0.
  - rewrite dkeys_dset_fresh by by rewrite wi_keys0. rewrite wi_keys0, C12. simpl.
    by rewrite Permutation_app_comm.
  - rewrite dkeys_dset_fresh by by rewrite wi_blocks0. rewrite wi_blocks0, C12. simpl.
    by rewrite Permutation_app_comm.
  - rewrite C12. simpl. rewrite (Permutation_app_comm (running s)). simpl. by apply submseteq_skip.
  - rewrite zsum_dset_fresh by by rewrite wi_keys0. lia.
  - lia.
  - apply Forall_dvals_dset; [by rewrite wi_keys0|lia|done].
  - rewrite length_app. simpl. lia.
Qed.

(** The number of requests the loop can still look at. *)
Definition queued s : nat := length (q_list (waiting s)) + length (q_list (skipped_waiting s)).

(** The outcome of a round: the invariant, and a shorter pair of queues when
    the loop goes on. *)
Definition round_ok cfg s0 L s (c : ctl (sched E Q * step B Q)) : Prop :=
  match c with
  | Continue (s', t') => wait_inv cfg s0 L s' t' /\ (queued s' < queued s)%nat
  | Break (s', t') => wait_inv cfg s0 L s' t'
  end.

Lemma queued_framed s s' : framed s s' -> queued s' = queued s.
Proof. intros []. unfold queued. congruence. Qed.

Lemma round_ok_framed cfg s0 L s s' c :
  framed s s' -> round_ok cfg s0 L s' c -> round_ok cfg s0 L s c.
Proof.
  intros Hf. unfold round_ok. rewrite (queued_framed _ _ Hf). done.
Qed.

Lemma place_waiting_inv cfg s0 L s t w id n pad inputs ext eb l c :
  wait_inv cfg s0 L s t -> request_id (req s id) = id -> q_peek (get_queue w s) = Some id ->
  Z.of_nat (length (running s)) < max_num_running_reqs cfg ->
  (l_async l = false -> 0 < n <= token_budget t) ->
  place_waiting cfg w id n pad inputs ext eb l s t = Ok c -> round_ok cfg s0 L s c.
Proof.
  intros Hinv Hid Hpeek Hcap Hn. unfold place_waiting.
  destruct (kv_allocate_slots _ _ _) as [e [b|]].
  2:{ intros [= <-]. simpl. eapply wait_inv_framed; [|exact Hinv].
      break_if; auto with py. }
  set (s1 := if connector cfg then _ else _).
  assert (framed s s1) as Hf by (subst s1; break_if; auto with py).
  apply (wait_inv_framed _ _ _ _ _ _ Hf) in Hinv.
  pose proof (fr_id _ _ Hf id) as Hid1. rewrite Hid in Hid1.
  rewrite <- (get_queue_framed w _ _ Hf) in Hpeek.
  rewrite <- (fr_running _ _ Hf) in Hcap.
  intros Hrun. apply (round_ok_framed _ _ _ _ _ _ Hf). revert Hrun. clearbody s1. clear Hf Hid.
  destruct (pop_queue w s1) as [[id' s2]|] eqn:Hpop; cbn [rbind]; [|done].
  destruct (pop_queue_spec _ _ _ _ _ Hpeek Hpop) as (-> & P1 & P2 & P3 & P4 & P5 & P6 & P7).
  assert (req s2 id = req s1 id) as Hreq by (unfold req; by rewrite P2).
  assert (request_id (req s2 id) = id) as Hid2 by by rewrite Hreq.
  destruct (l_async l) eqn:Ha.
  - intros [= <-].
    pose proof (wait_inv_requeue _ _ _ _ _ _ _ Hinv Hid2 P1 P2 P3 P4 P5) as Hre.
    pose proof (park_async_inv _ _ _ _ _ _ l Hre Hid2) as Hpark.
    assert (queued (fst (park_async cfg id l s2 t)) = queued s2) as Hq.
    { unfold park_async. cbn [fst]. by break_if. }
    unfold round_ok. destruct (park_async cfg id l s2 t) as [s3 t3]. simpl in *.
    split; [done|]. rewrite Hq. exact P7.
  - destruct (commit_waiting _ _ _ _ _ _ _ _ _ _) as [[s3 t3]|] eqn:Hc; cbn [rbind]; [|done].
    intros [= <-]. split.
    + by apply (commit_waiting_inv cfg s0 L s1 t s2 id n pad inputs ext eb l); auto.
    + apply commit_waiting_fields in Hc as (_ & C2 & C3 & _).
      unfold queued. rewrite C2, C3. exact P7.
Qed.

(** One round of the waiting loop. *)
Lemma waiting_body_inv cfg s0 L s t c :
  cfg_ok cfg -> state_ok cfg s0 -> (forall v, v ∈ L -> request_id (req s0 v) = v) ->
  wait_inv cfg s0 L s t -> waiting_body cfg (s, t) = Ok c -> round_ok cfg s0 L s c.
Proof.
  intros Hcfg Hs0 Hids Hinv. unfold waiting_body. cbv beta iota.
  destruct (q_nonempty (waiting s) || q_nonempty (skipped_waiting s)); cbn [andb negb];
    [|by intros [= <-]].
  destruct (Z.ltb_spec 0 (token_budget t)) as [Hb|]; cbn [negb]; [|by intros [= <-]].
  destruct (Z.leb_spec (max_num_running_reqs cfg)
    (Z.of_nat (length (running s)) + num_waiting_for_streaming_input s)) as [|Hcap];
    [by intros [= <-]|].
  assert (Z.of_nat (length (running s)) < max_num_running_reqs cfg) as Hcap'.
  { rewrite (wi_streaming _ _ _ _ _ Hinv) in Hcap. pose proof (so_streaming _ _ Hs0). lia. }
  destruct (_select_waiting_queue_for_scheduling cfg s) as [w|]; [|done].
  destruct (q_peek (get_queue w s)) as [id|] eqn:Hpeek; [|done].
  assert (request_id (req s0 id) = id) as Hid0.
  { apply Hids. rewrite <- (wi_held _ _ _ _ _ Hinv). apply elem_of_app. left. by eapply peek_held. }
  set (m := if _is_blocked_waiting_status _ then _ else _).
  destruct m as [[s1 ready]|] eqn:Hm; cbn [rbind]; [|done].
  assert (framed s s1) as F1.
  { subst m. break_if; [by eapply promote_framed|]. injection Hm as <- _. reflexivity. }
  clear Hm m. intros Hrun. apply (round_ok_framed _ _ _ _ _ _ F1).
  pose proof (wait_inv_framed _ _ _ _ _ _ F1 Hinv) as Hinv1.
  assert (forall s', framed s s' -> wait_inv cfg s0 L s' t -> request_id (req s' id) = id /\
    q_peek (get_queue w s') = Some id) as Hfacts.
  { intros s' Hf' Hi'. split.
    - by rewrite (proj1 (wi_stable _ _ _ _ _ Hi' id)).
    - by rewrite (get_queue_framed w _ _ Hf'). }
  assert (forall s' c', framed s s' -> framed s1 s' -> wait_inv cfg s0 L s' t ->
    skip_waiting w id s' t = Ok c' -> round_ok cfg s0 L s1 c') as Hskip.
  { intros s' c' Hf' Hf1' Hi' Hsk. destruct (Hfacts s' Hf' Hi') as [Hid' Hp'].
    destruct (skip_waiting_inv _ _ _ _ _ _ _ _ Hi' Hid' Hp' Hsk) as (s2 & t2 & -> & Hi2 & Hq).
    split; [done|]. rewrite <- (queued_framed _ _ Hf1'). exact Hq. }
  revert Hrun.
  destruct ready; cbn [negb]; [|intros; by eapply (Hskip s1)].
  destruct (_ && _); [intros; by eapply (Hskip s1)|].
  destruct (lora_full cfg t (req s1 id)); [intros; by eapply (Hskip s1)|].
  destruct (lookup_computed cfg id s1) as [[s2 found]|] eqn:Hlk; cbn [rbind]; [|done].
  apply lookup_computed_framed in Hlk.
  pose proof (wait_inv_framed _ _ _ _ _ _ Hlk Hinv1) as Hinv2.
  assert (framed s s2) as F2 by (etrans; eauto).
  destruct found as [l|]; [|intros; by eapply (Hskip s2)].
  destruct (waiting_num_new_tokens cfg id l s2 t) as [[s3 v]|] eqn:Hv; cbn [rbind]; [|done].
  pose proof (waiting_tokens_framed _ _ _ _ _ _ _ Hv) as F3.
  pose proof (wait_inv_framed _ _ _ _ _ _ F3 Hinv2) as Hinv3.
  assert (framed s s3) as F3' by (etrans; eauto).
  destruct v as [|n pad inputs eb ext]; [by intros [= <-]|].
  apply waiting_tokens_bounds in Hv; [|done| |done].
  2:{ eapply features_ok_eq; [|apply (so_features _ _ Hs0 id)].
      apply (wi_stable _ _ _ _ _ Hinv2). }
  set (split_ := need_mamba_block_aligned_split cfg && negb (l_async l)).
  set (n' := if split_ then _ else n).
  destruct (split_ && (n' =? 0)) eqn:Hz; [by intros [= <-]|].
  destruct (Hfacts s3 F3' Hinv3) as [Hid3 Hpeek3]. intros Hrun.
  eapply round_ok_framed; [etrans; [exact Hlk|exact F3]|].
  eapply place_waiting_inv; eauto.
  - by rewrite (fr_running _ _ F3').
  - intros Ha. destruct Hv as [[Ha' _]|[_ Hn]]; [congruence|].
    subst n'. destruct split_; [|done]. simpl in Hz. apply Z.eqb_neq in Hz.
    pose proof (split_bounds cfg (req s3 id) n (l_local l) (l_external l) (co_block _ Hcfg) ltac:(lia)).
    lia.
Qed.

Lemma waiting_while_inv cfg s0 L k x x' :
  cfg_ok cfg -> state_ok cfg s0 -> (forall v, v ∈ L -> request_id (req s0 v) = v) ->
  wait_inv cfg s0 L (fst x) (snd x) -> while k (waiting_body cfg) x = Ok x' ->
  wait_inv cfg s0 L (fst x') (snd x').
Proof.
  intros Hcfg Hs0 Hids Hx.
  set (P := fun x => wait_inv cfg s0 L (fst x) (snd x)).
  apply (while_inv P P); [exact Hx| |]; unfold P;
    intros [s t] [s' t'] Hi Hr; apply (waiting_body_inv cfg s0 L) in Hr; auto; apply Hr.
Qed.

(** ** The whole step *)

Lemma start_step_ok cfg thr s :
  cfg_ok cfg -> state_ok cfg s ->
  let '(s1, t) := start_step cfg thr s in
  framed s s1 /\ objs s1 = objs s /\ state_ok cfg s1 /\ run_inv cfg s1 (held s1) s1 t.
Proof.
  intros Hcfg Hs. unfold start_step.
  set (sa := (s <| current_step ::= Z.add 1 |>) <| env ::= kv_new_step_starts |>).
  destruct (_select_long_prefill_request_ids cfg sa) as [s1 sel] eqn:Hsel.
  assert (s1 = sa \/ s1 = prune_turns sa) as Hs1.
  { unfold _select_long_prefill_request_ids in Hsel.
    break_if; injection Hsel as <- _; auto. }
  assert (framed s s1 /\ objs s1 = objs s) as [Hf Ho].
  { destruct Hs1 as [->| ->]; split; auto with py. }
  assert (held s1 = held s) as Hh by (destruct Hf; unfold held; congruence).
  assert (forall id, req s1 id = req s id) as Hreq by (intros; unfold req; by rewrite Ho).
  assert (state_ok cfg s1) as Hs1ok.
  { destruct Hs. constructor; rewrite ?Hh; auto.
    - intros id Hid. rewrite Hreq. auto.
    - intros id. rewrite Hreq. auto.
    - intros id. rewrite Hreq, (fr_running _ _ Hf). auto.
    - by rewrite (fr_running _ _ Hf).
    - by rewrite (fr_streaming _ _ Hf). }
  do 3 (split; [done|]).
  pose proof (so_nodup _ _ Hs1ok) as Hn. pose proof (so_tokens _ _ Hs) as Hmax.
  assert (_pause_state s1 = _pause_state s) as Hp by apply Hf.
  constructor; simpl; auto; try set_solver; try lia; try constructor.
  - rewrite Hp. change (_pause_state sa) with (_pause_state s). unfold zsum. simpl. break_if; lia.
  - change (_pause_state sa) with (_pause_state s). break_if; lia.
Qed.

Lemma run_to_wait cfg s0 L s t :
  Z.of_nat (length (running s0)) <= max_num_running_reqs cfg ->
  run_inv cfg s0 L s t ->
  wait_inv cfg s0 L s (t <| step_skipped_waiting := create_request_queue (policy cfg) |>).
Proof.
  intros Hcap Hinv. destruct (ri_admitted _ _ _ _ _ Hinv) as [A1 A2].
  assert (scheduled_running_reqs t ⊆+ running s) as Hsub.
  { apply NoDup_submseteq; [apply Hinv|]. intros x Hx.
    eapply elem_of_take_in. by apply (ri_before _ _ _ _ _ Hinv). }
  destruct Hinv. constructor; unfold admitted; simpl; rewrite ?A1, ?A2; simpl; auto.
  - by rewrite q_create_list, app_nil_r.
  - by rewrite ri_keys.
  - by rewrite ri_blocks.
  - lia.
Qed.

Lemma waiting_loop_inv cfg s0 L s t s' t' :
  cfg_ok cfg -> state_ok cfg s0 -> (forall v, v ∈ L -> request_id (req s0 v) = v) ->
  run_inv cfg s0 L s t -> waiting_loop cfg (s, t) = Ok (s', t') ->
  exists u, wait_inv cfg s0 L s' u /\ q_list (step_skipped_waiting u) = [] /\
    num_scheduled_tokens t' = num_scheduled_tokens u /\ token_budget t' = token_budget u /\
    scheduled_new_reqs t' = scheduled_new_reqs u /\
    scheduled_resumed_reqs t' = scheduled_resumed_reqs u /\
    scheduled_running_reqs t' = scheduled_running_reqs u /\
    req_to_new_blocks t' = req_to_new_blocks u.
Proof.
  intros Hcfg Hs0 Hids Hinv. unfold waiting_loop.
  pose proof (run_to_wait cfg s0 L s t (so_capacity _ _ Hs0) Hinv) as Hw.
  break_if.
  2:{ intros [= <- <-]. exists (t <| step_skipped_waiting := create_request_queue (policy cfg) |>).
      split; [done|]. split; [apply q_create_list|]. done. }
  destruct (while _ _ _) as [[s1 t1]|] eqn:Hloop; cbn [rbind]; [|done].
  pose proof (waiting_while_inv cfg s0 L _ (s, _) (s1, t1) Hcfg Hs0 Hids Hw Hloop) as Hw1. simpl in Hw1.
  set (s2 := if q_nonempty _ then _ else _).
  set (s3 := if negb (defer_prefills t1) then _ else _).
  intros [= <- <-].
  assert (framed s2 s3) as F3 by (subst s3; break_if; auto with py).
  exists (t1 <| step_skipped_waiting := create_request_queue (policy cfg) |>).
  split; [|split; [apply q_create_list|done]].
  eapply wait_inv_framed; [exact F3|].
  subst s2. unfold q_nonempty. destruct (Nat.eqb_spec (length (q_list (step_skipped_waiting t1))) 0)
    as [Hz|Hz]; simpl.
  - apply length_zero_iff_nil in Hz. destruct Hw1. constructor; auto.
    simpl. rewrite q_create_list, <- wi_held0, Hz. done.
  - destruct Hw1. constructor; auto. simpl. rewrite q_create_list, <- wi_held0, app_nil_r.
    unfold held. simpl. rewrite q_prepend_all_list. rewrite <- !app_assoc.
    do 2 apply Permutation_app_head. apply Permutation_app_comm.
Qed.

(** Everything the two loops establish. *)
Lemma schedule_loops_inv cfg thr s s' t :
  cfg_ok cfg -> state_ok cfg s -> schedule_loops cfg thr s = Ok (s', t) ->
  exists u, wait_inv cfg s (held s) s' u /\ q_list (step_skipped_waiting u) = [] /\
    num_scheduled_tokens t = num_scheduled_tokens u /\ token_budget t = token_budget u /\
    scheduled_new_reqs t = scheduled_new_reqs u /\
    scheduled_resumed_reqs t = scheduled_resumed_reqs u /\
    scheduled_running_reqs t = scheduled_running_reqs u /\
    req_to_new_blocks t = req_to_new_blocks u.
Proof.
  intros Hcfg Hs. unfold schedule_loops.
  pose proof (start_step_ok cfg thr s Hcfg Hs) as Hstart.
  destruct (start_step cfg thr s) as [s1 t1]. destruct Hstart as (Hf & Ho & Hs1 & Hinv).
  destruct (running_loop cfg (s1, t1)) as [[s2 t2]|] eqn:Hrun; cbn [rbind]; [|done].
  assert (forall v, v ∈ held s1 -> request_id (req s1 v) = v) as Hids by apply Hs1.
  apply (running_loop_inv cfg s1 (held s1)) in Hrun; auto. unfold run_state in Hrun. simpl in Hrun.
  destruct (record_loras cfg s2 t2) as [t3|] eqn:Hl; cbn [rbind]; [|done].
  assert (run_inv cfg s1 (held s1) s2 t3) as Hinv3.
  { unfold record_loras in Hl. destruct (max_loras cfg); [|by injection Hl as <-].
    destruct (require _ _); simpl in Hl; [|done]. injection Hl as <-. by destruct Hrun; constructor. }
  intros Hwl. destruct (waiting_loop_inv _ _ _ _ _ _ _ Hcfg Hs1 Hids Hinv3 Hwl) as (u & Hw & Hrest).
  exists u. split; [|done].
  assert (held s1 = held s) as Hh by (destruct Hf; unfold held; congruence).
  destruct Hw. constructor; auto; rewrite <- ?Hh; auto.
  - intros x. rewrite <- (fr_id _ _ Hf), <- (fr_features _ _ Hf). auto.
  - by rewrite wi_streaming0, (fr_streaming _ _ Hf).
  - by rewrite wi_pause0, (fr_pause _ _ Hf).
Qed.

(** C2 (safety): the assertions at the end of [schedule] never fail.  From a
    state in order, whatever the services answer, when the loops end the
    scheduled tokens do not exceed [max_num_scheduled_tokens], the budget left
    is not negative, at most [max_num_running_reqs] requests run, and the
    requests scheduled are no more than those running; and every request in
    the output is running and has a positive number of tokens. *)
Theorem schedule_assertions_hold cfg thr s s' t :
  cfg_ok cfg -> state_ok cfg s -> schedule_loops cfg thr s = Ok (s', t) ->
  final_checks cfg s' t = Ok (zsum (dvals (num_scheduled_tokens t))) /\
  Forall (fun n => 0 < n) (dvals (num_scheduled_tokens t)) /\
  dkeys (num_scheduled_tokens t) ⊆+ running s'.
Proof.
  intros Hcfg Hs Hrun.
  destruct (schedule_loops_inv _ _ _ _ _ Hcfg Hs Hrun)
    as (u & Hw & _ & U1 & U2 & U3 & U4 & U5 & _).
  rewrite U1. destruct Hw. pose proof (so_tokens _ _ Hs).
  split; [|split; [done|by rewrite wi_keys0]].
  unfold final_checks. rewrite U1, U2, U3, U4, U5. unfold require.
  assert (zsum (dvals (num_scheduled_tokens u)) <= max_num_scheduled_tokens cfg) as Htot.
  { revert wi_budget0. break_if; lia. }
  destruct (Z.leb_spec (zsum (dvals (num_scheduled_tokens u))) (max_num_scheduled_tokens cfg)); [|lia].
  destruct (Z.leb_spec 0 (token_budget u)); [|lia].
  destruct (Z.leb_spec (Z.of_nat (length (running s'))) (max_num_running_reqs cfg)); [|lia].
  apply submseteq_length in wi_sub0. unfold admitted in wi_sub0. rewrite !length_app in wi_sub0.
  destruct (Nat.leb_spec (length (scheduled_new_reqs u) + length (scheduled_resumed_reqs u)
    + length (scheduled_running_reqs u)) (length (running s'))); [done|lia].
Qed.

(** C1 (invariant): a step neither loses nor duplicates a request.  The running,
    waiting and skipped queues together hold after the step exactly the
    requests they held before it, each in one queue, and no request appears
    twice in the step's output. *)
Theorem schedule_conserves_requests cfg thr s s' t :
  cfg_ok cfg -> state_ok cfg s -> schedule_loops cfg thr s = Ok (s', t) ->
  held s' ≡ₚ held s /\ NoDup (held s') /\
  NoDup (scheduled_new_reqs t ++ scheduled_resumed_reqs t ++ scheduled_running_reqs t).
Proof.
  intros Hcfg Hs Hrun.
  destruct (schedule_loops_inv _ _ _ _ _ Hcfg Hs Hrun)
    as (u & Hw & Hnil & U1 & U2 & U3 & U4 & U5 & _).
  destruct Hw. rewrite Hnil, app_nil_r in wi_held0.
  assert (NoDup (held s')) as Hn by by rewrite wi_held0.
  split; [done|]. split; [done|]. rewrite U3, U4, U5, app_assoc.
  assert (NoDup (running s')) as Hnr by (unfold held in Hn; by apply NoDup_app in Hn as [? _]).
  apply submseteq_Permutation in wi_sub0 as (k & Hk). rewrite Hk in Hnr.
  by apply NoDup_app in Hnr as [? _].
Qed.

Lemma commit_waiting_preempted cfg id n pad inputs ext eb l s t s' t' :
  commit_waiting cfg id n pad inputs ext eb l s t = Ok (s', t') ->
  preempted_reqs t' = preempted_reqs t.
Proof.
  unfold commit_waiting. cbv zeta.
  set (r := req (s <| running ::= fun r => r ++ [id] |>) id).
  set (m := match status r with WAITING => _ | _ => _ end).
  destruct m as [t1|] eqn:Hm; cbn [rbind]; [|done].
  assert (preempted_reqs t1 = preempted_reqs t) as <-.
  { subst m. destruct (status r); try discriminate Hm; by injection Hm as <-. }
  intros [= _ <-]. destruct (max_loras cfg), (lora_int_id r), (enable_decode_aware_prefill cfg),
    pad, (nonempty inputs); reflexivity.
Qed.

(** The waiting loop preempts nobody. *)
Lemma waiting_body_preempted cfg s t c :
  waiting_body cfg (s, t) = Ok c ->
  preempted_reqs (snd (match c with Continue x | Break x => x end)) = preempted_reqs t.
Proof.
  unfold waiting_body. cbv beta iota.
  break_if; [by intros [= <-]|]. break_if; [by intros [= <-]|].
  destruct (_select_waiting_queue_for_scheduling cfg s) as [w|]; [|done].
  destruct (q_peek _) as [id|]; [|done].
  set (m := if _is_blocked_waiting_status _ then _ else _).
  destruct m as [[s1 ready]|]; cbn [rbind]; [|done].
  assert (forall s' c', skip_waiting w id s' t = Ok c' ->
    preempted_reqs (snd (match c' with Continue x | Break x => x end)) = preempted_reqs t) as Hskip.
  { intros s' c'. unfold skip_waiting. destruct (pop_queue w s') as [[? ?]|]; simpl; [|done].
    by intros [= <-]. }
  repeat (break_if; [apply Hskip|]).
  destruct (lookup_computed cfg id s1) as [[s2 [l|]]|]; cbn [rbind]; [|apply Hskip|done].
  destruct (waiting_num_new_tokens cfg id l s2 t) as [[s3 [|n pad inputs eb ext]]|]; cbn [rbind];
    [by intros [= <-]| |done].
  break_if; [by intros [= <-]|]. unfold place_waiting.
  destruct (kv_allocate_slots _ _ _) as [e [b|]]; [|by intros [= <-]].
  destruct (pop_queue _ _) as [[id' s4]|]; cbn [rbind]; [|done].
  break_if; [by intros [= <-]|].
  destruct (commit_waiting _ _ _ _ _ _ _ _ _ _) as [[s5 t5]|] eqn:Hc; cbn [rbind]; [|done].
  intros [= <-]. simpl. eapply commit_waiting_preempted; eauto.
Qed.

(** Safety: a step that preempts admits nothing.  Once a request has been
    preempted the waiting queue is not touched: no request is started or
    resumed, and every preempted request is out of the running queue, marked
    PREEMPTED, kept in a queue, and absent from the step's output. *)
Theorem preemption_stops_admission cfg thr s s' t :
  cfg_ok cfg -> state_ok cfg s -> schedule_loops cfg thr s = Ok (s', t) ->
  preempted_reqs t <> [] ->
  scheduled_new_reqs t = [] /\ scheduled_resumed_reqs t = [] /\
  Forall (fun v => v ∉ running s' /\ status (req s' v) = PREEMPTED /\
                   v ∉ dkeys (num_scheduled_tokens t)) (preempted_reqs t).
Proof.
  intros Hcfg Hs. unfold schedule_loops.
  pose proof (start_step_ok cfg thr s Hcfg Hs) as Hstart.
  destruct (start_step cfg thr s) as [s1 t1]. destruct Hstart as (_ & _ & Hs1 & Hinv).
  destruct (running_loop cfg (s1, t1)) as [[s2 t2]|] eqn:Hrun; cbn [rbind]; [|done].
  assert (forall v, v ∈ held s1 -> request_id (req s1 v) = v) as Hids by apply Hs1.
  apply (running_loop_inv cfg s1 (held s1)) in Hrun; auto. unfold run_state in Hrun. simpl in Hrun.
  destruct (record_loras cfg s2 t2) as [t3|] eqn:Hl; cbn [rbind]; [|done].
  assert (run_inv cfg s1 (held s1) s2 t3) as Hinv3.
  { unfold record_loras in Hl. destruct (max_loras cfg); [|by injection Hl as <-].
    destruct (require _ _); simpl in Hl; [|done]. injection Hl as <-. by destruct Hrun; constructor. }
  unfold waiting_loop. break_if.
  - destruct (while _ _ _) as [[s4 t4]|] eqn:Hloop; cbn [rbind]; [|done].
    intros [= <- <-] Hne. exfalso. apply Hne. bool_prop.
    set (P := fun x : sched E Q * step B Q => preempted_reqs (snd x) = []).
    refine (while_inv P P _ _ (s2, _) (s4, t4) _ _ _ Hloop); [done| |]; unfold P; clear;
      intros [s t] [s' t'] Hp Hb; apply waiting_body_preempted in Hb; simpl in *; congruence.
  - intros [= <- <-] _. destruct (ri_admitted _ _ _ _ _ Hinv3) as [-> ->].
    do 2 (split; [done|]). rewrite Forall_forall.
    intros v Hv. pose proof (ri_preempted _ _ _ _ _ Hinv3) as Hp. rewrite Forall_forall in Hp.
    destruct (Hp v Hv) as [Hr Hst]. split; [done|]. split; [done|].
    rewrite (ri_keys _ _ _ _ _ Hinv3). intros Hk. apply Hr.
    eapply elem_of_take_in. by apply (ri_before _ _ _ _ _ Hinv3).
Qed.

End Waiting.
