(* ===== verification/SchedTermination.v ===== *)
(** * Termination of a scheduler step

    The three loops of [schedule] are bounded by fuel in the model; here the
    fuel is shown to be enough, from every state and whatever the services
    answer, so [schedule] always returns or raises one of its exceptions. *)
From S2P Require Export SchedWaiting.
Import PyDict PyList LongPrefill Mamba.

(** Closes the goals "this does not run out of fuel" of straight-line code. *)
Ltac never :=
  repeat first
    [ discriminate
    | apply require_never; discriminate
    | apply rbind_never; [|intros ? _]
    | progress (cbv beta iota zeta)
    | break_match ].

Section Termination.
Context {E B Q : Type} `{RequestQueueLaws Q} `{ServicesLaws E B}.
Implicit Types (cfg : config) (s : sched E Q) (t : step B Q) (id : string).

Lemma try_encoder_never cfg (e : E) r nc n b sh :
  _try_schedule_encoder_inputs cfg e r nc n b sh <> Raise OutOfFuel.
Proof.
  unfold _try_schedule_encoder_inputs. break_if; [done|].
  destruct (get_mm_features_in_window _ _ _) as [lo hi].
  apply rbind_never; [|done]. apply for_each_never. intros i st. unfold encoder_item. never.
Qed.

Lemma encoder_adjust_never cfg (e : E) r nc n b :
  encoder_adjust cfg e r nc n b <> Raise OutOfFuel.
Proof. unfold encoder_adjust. break_if; [apply try_encoder_never|done]. Qed.

Lemma dindex_never {A} (d : dict A) k : dindex d k <> Raise OutOfFuel.
Proof. unfold dindex. never. Qed.

Lemma pop_victim_never cfg s t : pop_victim cfg s t <> Raise OutOfFuel.
Proof.
  unfold pop_victim. destruct (policy cfg); [never|].
  destruct (max_by _ _); [|done]. break_if; [|done].
  apply rbind_never; [apply dindex_never|]. intros n _.
  apply rbind_never; [apply dindex_never|done].
Qed.

Lemma preempt_never cfg v d s : _preempt_request cfg v d s <> Raise OutOfFuel.
Proof. unfold _preempt_request. never. Qed.

Lemma allocate_body_never cfg id n x : allocate_body cfg id n x <> Raise OutOfFuel.
Proof.
  destruct x as [[s t] nb]. unfold allocate_body.
  destruct (kv_allocate_slots _ _ _) as [e [b|]]; [done|].
  apply rbind_never; [apply pop_victim_never|]. intros [[v s1] t1] _.
  apply rbind_never; [apply preempt_never|]. intros s2 _. by break_if.
Qed.

(** A victim leaves [running], and the loop index follows. *)
Lemma pop_victim_length cfg s t v s' t' :
  pop_victim cfg s t = Ok (v, s', t') ->
  length (running s) = S (length (running s')) /\ req_index t - 1 <= req_index t' <= req_index t.
Proof.
  unfold pop_victim. destruct (policy cfg).
  - destruct (pop_last (running s)) as [[l w]|] eqn:Hp; [|done]. intros [= <- <- <-].
    apply pop_last_spec in Hp. rewrite Hp, length_app. simpl. lia.
  - destruct (max_by _ _) as [w|] eqn:Hm; [|done]. apply max_by_in in Hm.
    pose proof (length_remove_first w _ Hm). break_if; [|intros [= <- <- <-]; simpl; lia].
    destruct (dindex (num_scheduled_tokens t) w); cbn [rbind]; [|done].
    destruct (dindex (req_to_new_blocks t) w); cbn [rbind]; [|done].
    intros [= <- <- <-]. simpl. lia.
Qed.

(** Positions left to the running loop, as an integer that may be negative. *)
Definition left_over s t : Z := Z.of_nat (length (running s)) - req_index t.

Lemma allocate_body_measure cfg id n s t nb c :
  allocate_body cfg id n (s, t, nb) = Ok c ->
  match c with
  | Continue (s', t', _) =>
      (length (running s') < length (running s))%nat /\ left_over s' t' <= left_over s t
  | Break (s', t', _) => left_over s' t' <= left_over s t
  end.
Proof.
  unfold allocate_body. destruct (kv_allocate_slots _ _ _) as [e [b|]]; [intros [= <-]; unfold left_over; simpl; lia|].
  destruct (pop_victim _ _ _) as [[[v s1] t1]|] eqn:Hp; cbn [rbind]; [|done].
  apply pop_victim_length in Hp as [Hl Hi].
  destruct (_preempt_request _ _ _ _) as [s2|] eqn:Hpre; cbn [rbind]; [|done].
  apply preempt_request_spec in Hpre as (_ & e' & d & ->). unfold left_over in *. simpl in *.
  break_if; intros [= <-]; simpl; lia.
Qed.

Lemma allocate_loop_never cfg id n s t :
  while (S (length (running s))) (allocate_body cfg id n) (s, t, None) <> Raise OutOfFuel.
Proof.
  apply (while_total (fun _ => True) (fun x => length (running (fst (fst x))))); simpl; auto.
  - intros [[s1 t1] nb1] [[s2 t2] nb2] _ Hb. apply allocate_body_measure in Hb. simpl in *. tauto.
  - intros x _. apply allocate_body_never.
Qed.

Lemma allocate_loop_left cfg id n k s t nb s' t' nb' :
  while k (allocate_body cfg id n) (s, t, nb) = Ok (s', t', nb') -> left_over s' t' <= left_over s t.
Proof.
  set (P := fun x : sched E Q * step B Q * option B =>
              left_over (fst (fst x)) (snd (fst x)) <= left_over s t).
  intros Hrun. change (P (s', t', nb')). revert Hrun.
  apply (while_inv P P); unfold P; simpl; [lia| |];
    intros [[s1 t1] nb1] [[s2 t2] nb2] Hle Hb; apply allocate_body_measure in Hb; simpl in *; lia.
Qed.

Lemma running_body_measure cfg s t s' t' :
  running_body cfg (s, t) = Ok (Continue (s', t')) ->
  req_index t < Z.of_nat (length (running s)) /\ left_over s' t' < left_over s t.
Proof.
  unfold running_body. cbv beta iota.
  destruct (Z.ltb_spec (req_index t) (Z.of_nat (length (running s)))) as [Hlt|]; cbn [andb negb]; [|done].
  break_if; [done|]. intros Hrun. split; [done|]. revert Hrun.
  destruct (running s !! _) as [id|]; [|done].
  destruct (running_gate _ _ _ _); [|intros [= <- <-]; unfold left_over; simpl; lia..].
  destruct (encoder_adjust _ _ _ _ _ _) as [[e [[[i m] eb] ext]]|]; cbn [rbind]; [|done].
  cbv zeta. break_if; [intros [= <- <-]; unfold left_over; simpl; lia|].
  destruct (while _ _ _) as [[[s1 t1] [b|]]|] eqn:Hl; cbn [rbind]; [|done|done].
  apply allocate_loop_left in Hl.
  match goal with |- Ok (Continue (commit_running _ _ ?n' _ _ _ _ ?pf ?lg _)) = _ -> _ =>
    destruct (commit_running_fields cfg id n' b i ext eb pf lg s1 t1)
      as (F & _ & _ & _ & _ & _ & T & _);
    destruct (commit_running cfg id n' b i ext eb pf lg (s1, t1)) as [s2 t2] end.
  simpl in F, T. destruct F as [F _ _ _ _ _ _]. intros [= <- <-].
  unfold left_over in *. rewrite F, T. simpl in *. lia.
Qed.

Lemma running_body_never cfg x : running_body cfg x <> Raise OutOfFuel.
Proof.
  destruct x as [s t]. unfold running_body. cbv beta iota. break_if; [done|].
  destruct (running s !! _) as [id|]; [|done]. destruct (running_gate _ _ _ _); [|done..].
  apply rbind_never; [apply encoder_adjust_never|]. intros [e [[[i m] eb] ext]] _.
  cbv zeta. break_if; [done|].
  apply rbind_never; [apply allocate_loop_never|]. intros [[s1 t1] [b|]] _; done.
Qed.

Lemma running_loop_never cfg s t : 0 <= req_index t -> running_loop cfg (s, t) <> Raise OutOfFuel.
Proof.
  intros Hi. unfold running_loop.
  apply (while_total (fun _ => True) (fun x => Z.to_nat (left_over (fst x) (snd x)))); auto.
  - intros [s1 t1] [s2 t2] _ Hb. apply running_body_measure in Hb. unfold left_over in *.
    simpl in *. split; [done|lia].
  - intros x _. apply running_body_never.
  - unfold left_over. simpl. lia.
Qed.

Lemma promote_never cfg id s : _try_promote_blocked_waiting_request cfg id s <> Raise OutOfFuel.
Proof.
  unfold _try_promote_blocked_waiting_request.
  destruct (status (req s id)); try done.
  - never.
  - break_if; [done|]. apply rbind_never; [|done].
    unfold _update_waiting_for_remote_kv. apply rbind_never; [apply require_never; done|].
    intros _ _. cbv zeta. apply rbind_never; [apply require_never; done|done].
  - apply rbind_never; [apply require_never; done|done].
Qed.

Lemma lookup_never cfg id s : lookup_computed cfg id s <> Raise OutOfFuel.
Proof.
  unfold lookup_computed. break_if; [|done].
  destruct (if connector cfg then _ else _) as [[[s1 b] l] d].
  destruct (if connector cfg then _ else _) as [s2 [[[[b2 l2] x2] a2]|]]; [|done].
  apply rbind_never; [apply require_never; done|]. intros _ _.
  destruct (if ec_connector cfg && _ then _ else _) as [s3 av]. break_if; [done|].
  apply rbind_never; [|done]. destruct (prefill_stats _); [|done]. break_if; [|done].
  apply rbind_never; [apply require_never; done|done].
Qed.

Lemma waiting_tokens_never cfg id l s t : waiting_num_new_tokens cfg id l s t <> Raise OutOfFuel.
Proof.
  unfold waiting_num_new_tokens.
  break_if; [apply rbind_never; [apply require_never; done|done]|].
  repeat (break_if; [done|]). apply rbind_never; [apply require_never; done|]. intros _ _.
  break_if; [|done]. apply rbind_never; [apply try_encoder_never|].
  intros [e [[[i n] b] x]] _. by break_if.
Qed.

Lemma pop_queue_never w s : pop_queue w s <> Raise OutOfFuel.
Proof. unfold pop_queue. never. Qed.

Lemma commit_waiting_never cfg id n pad i x eb l s t :
  commit_waiting cfg id n pad i x eb l s t <> Raise OutOfFuel.
Proof.
  unfold commit_waiting. apply rbind_never; [|done].
  by destruct (status _).
Qed.

Lemma waiting_body_never cfg x : waiting_body cfg x <> Raise OutOfFuel.
Proof.
  destruct x as [s t]. unfold waiting_body. cbv beta iota.
  break_if; [done|]. break_if; [done|].
  destruct (_select_waiting_queue_for_scheduling cfg s) as [w|]; [|done].
  destruct (q_peek _) as [id|]; [|done].
  apply rbind_never; [break_if; [apply promote_never|done]|]. intros [s1 ready] _.
  assert (forall s', skip_waiting w id s' t <> Raise OutOfFuel) as Hskip.
  { intros s'. unfold skip_waiting. apply rbind_never; [apply pop_queue_never|]. by intros [? ?]. }
  repeat (break_if; [apply Hskip|]).
  apply rbind_never; [apply lookup_never|]. intros [s2 [l|]] _; [|apply Hskip].
  apply rbind_never; [apply waiting_tokens_never|]. intros [s3 [|n pad i eb x]] _; [done|].
  cbv zeta. break_if; [done|]. unfold place_waiting.
  destruct (kv_allocate_slots _ _ _) as [e [b|]]; [|done].
  apply rbind_never; [apply pop_queue_never|]. intros [id' s4] _. break_if; [done|].
  apply rbind_never; [apply commit_waiting_never|done].
Qed.

(** A round that goes on has taken a request off a queue. *)
Lemma waiting_body_measure cfg s t s' t' :
  waiting_body cfg (s, t) = Ok (Continue (s', t')) -> (queued s' < queued s)%nat.
Proof.
  unfold waiting_body. cbv beta iota.
  break_if; [done|]. break_if; [done|].
  destruct (_select_waiting_queue_for_scheduling cfg s) as [w|]; [|done].
  destruct (q_peek _) as [id|] eqn:Hpeek; [|done].
  set (m := if _is_blocked_waiting_status _ then _ else _).
  destruct m as [[s1 ready]|] eqn:Hm; cbn [rbind]; [|done].
  assert (framed s s1) as F1.
  { subst m. break_if; [by eapply promote_framed|]. injection Hm as <- _. reflexivity. }
  assert (forall s', framed s s' -> forall x, pop_queue w s' = Ok x -> (queued (snd x) < queued s)%nat)
    as Hpopq.
  { intros s2 F2 [id' s3] Hp. rewrite <- (get_queue_framed w _ _ F2) in Hpeek.
    destruct (pop_queue_spec _ _ _ _ _ Hpeek Hp) as (_ & _ & _ & _ & _ & _ & _ & Hq).
    rewrite <- (queued_framed _ _ F2). exact Hq. }
  assert (forall s2, framed s s2 -> skip_waiting w id s2 t = Ok (Continue (s', t')) ->
    (queued s' < queued s)%nat) as Hskip.
  { intros s2 F2. unfold skip_waiting.
    destruct (pop_queue w s2) as [[id' s3]|] eqn:Hp; cbn [rbind]; [|done].
    intros [= <- _]. exact (Hpopq s2 F2 _ Hp). }
  repeat (break_if; [by apply Hskip|]).
  destruct (lookup_computed cfg id s1) as [[s2 found]|] eqn:Hlk; cbn [rbind]; [|done].
  apply lookup_computed_framed in Hlk. assert (framed s s2) as F2 by (etrans; eauto).
  destruct found as [l|]; [|by apply Hskip].
  destruct (waiting_num_new_tokens cfg id l s2 t) as [[s3 [|n pad i eb x]]|] eqn:Hv; cbn [rbind]; [done| |done].
  apply waiting_tokens_framed in Hv. assert (framed s s3) as F3 by (etrans; eauto).
  cbv zeta. break_if; [done|]. unfold place_waiting.
  destruct (kv_allocate_slots _ _ _) as [e [b|]]; [|done].
  set (s4 := if connector cfg then _ else _).
  assert (framed s s4) as F4 by (etrans; [exact F3|]; subst s4; break_if; auto with py).
  destruct (pop_queue w s4) as [[id' s5]|] eqn:Hp; cbn [rbind]; [|done].
  pose proof (Hpopq s4 F4 _ Hp) as Hq. simpl in Hq. break_if.
  - intros [= Heq _]. unfold park_async in Heq.
    assert (queued s' = queued s5) as ->; [|done]. rewrite <- Heq. by break_if.
  - destruct (commit_waiting _ _ _ _ _ _ _ _ _ _) as [[s6 t6]|] eqn:Hc; cbn [rbind]; [|done].
    intros [= <- _]. apply commit_waiting_fields in Hc as (_ & C2 & C3 & _).
    unfold queued. rewrite C2, C3. exact Hq.
Qed.

Lemma waiting_loop_never cfg x : waiting_loop cfg x <> Raise OutOfFuel.
Proof.
  destruct x as [s t]. unfold waiting_loop. break_if; [|done].
  apply rbind_never; [|by intros [? ?]].
  apply (while_total (fun _ => True) (fun x => queued (fst x))); auto.
  - intros [s1 t1] [s2 t2] _ Hb. apply waiting_body_measure in Hb. done.
  - intros y _. apply waiting_body_never.
Qed.

Lemma finish_step_never cfg s t : finish_step cfg s t <> Raise OutOfFuel.
Proof.
  unfold finish_step, final_checks, new_request_data, _make_cached_request_data,
    _update_after_schedule.
  apply rbind_never; [repeat (apply rbind_never; [apply require_never; done|intros _ _]); done|].
  intros total _. cbv zeta.
  apply rbind_never; [apply rmap_never; intros id; apply rbind_never; [apply dindex_never|done]|].
  intros nr _. apply rbind_never.
  { apply rfold_never. intros acc [idx id]. unfold cached_entry.
    apply rbind_never; [break_if; [apply rbind_never; [apply dindex_never|done]|done]|].
    intros tok _. apply rbind_never; [apply dindex_never|done]. }
  intros cached _. destruct (kv_take_kv_cache_block_copies _) as [e [copies retained]].
  apply rbind_never; [unfold spec_tokens_to_schedule; never|]. intros k _.
  destruct (_get_new_block_ids_to_zero _ _) as [s2 z].
  apply rbind_never; [|by intros [? ?]].
  apply rfold_never. intros [s3 b] [id n]. unfold advance_request.
  apply rbind_never; [apply require_never; done|done].
Qed.

(** C3 (termination): [schedule] ends.  From every state, for every answer of
    the services, including a pool that refuses every allocation, the loops
    over the running and the waiting requests and the allocation loop inside
    the first end within the fuel the model gives them, one round per request
    held. *)
Theorem schedule_terminates cfg thr s : schedule cfg thr s <> Raise OutOfFuel.
Proof.
  unfold schedule, schedule_loops.
  apply rbind_never; [|intros [s' t'] _; apply finish_step_never].
  assert (req_index (snd (start_step cfg thr s)) = 0) as Hz.
  { unfold start_step. by destruct (_select_long_prefill_request_ids _ _). }
  destruct (start_step cfg thr s) as [s1 t1]. simpl in Hz.
  apply rbind_never; [apply running_loop_never; lia|]. intros [s2 t2] _.
  apply rbind_never.
  { unfold record_loras. destruct (max_loras cfg); [|done].
    apply rbind_never; [apply require_never; done|done]. }
  intros t3 _. apply waiting_loop_never.
Qed.

End Termination.

(** ** Concrete steps *)

#[local] Existing Instances Mini.queue Mini.queue_laws Mini.services Mini.services_laws.

(** Two running requests and a waiting one; [free] KV blocks. *)
Definition example_step_state (free : Z) : sched Z (list string) :=
  Mini.sched_of free [Mini.request_of "a" RUNNING 9 8; Mini.request_of "b" RUNNING 9 4]
    [Mini.request_of "c" WAITING 9 0].

Lemma example_cfg_ok : cfg_ok Mini.cfg.
Proof. constructor; [reflexivity|vm_compute; reflexivity]. Qed.

Lemma example_state_ok free : state_ok Mini.cfg (example_step_state free).
Proof.
  assert (forall P : request -> Prop,
    P (Mini.request_of "a" RUNNING 9 8) -> P (Mini.request_of "b" RUNNING 9 4) ->
    P (Mini.request_of "c" WAITING 9 0) -> P inhabitant ->
    forall id, P (req (example_step_state free) id)) as Hcase.
  { intros P Pa Pb Pc Pi id. unfold req, example_step_state, Mini.sched_of. simpl.
    unfold lookup_total, map_lookup_total.
    destruct (decide ("a"%string = id)) as [<-|]; [by rewrite lookup_insert_eq|].
    rewrite lookup_insert_ne by done.
    destruct (decide ("b"%string = id)) as [<-|]; [by rewrite lookup_insert_eq|].
    rewrite lookup_insert_ne by done.
    destruct (decide ("c"%string = id)) as [<-|]; [by rewrite lookup_insert_eq|].
    by rewrite lookup_insert_ne, lookup_empty by done. }
  constructor; try (vm_compute; congruence).
  - apply (bool_decide_unpack _). vm_compute. exact I.
  - intros id Hid. change (id ∈ ["a"; "b"; "c"]%string) in Hid.
    repeat (apply elem_of_cons in Hid as [->|Hid]; [reflexivity|]). by apply not_elem_of_nil in Hid.
  - apply Hcase; intros i j Hij Hj; simpl in Hj; lia.
  - intros id Hid. change (id ∈ ["a"; "b"]%string) in Hid.
    repeat (apply elem_of_cons in Hid as [->|Hid]; [split; vm_compute; congruence|]).
    by apply not_elem_of_nil in Hid.
Qed.

(** The two loops on the example, as a computed value. *)
Definition example_loops (free : Z) : result (sched Z (list string) * step (list (list Z)) (list string)) :=
  schedule_loops Mini.cfg false (example_step_state free).

Lemma schedule_assertions_hold_witness :
  exists s' t, example_loops 3 = Ok (s', t) /\ final_checks Mini.cfg s' t = Ok 8.
Proof.
  destruct (example_loops 3) as [[s' t]|] eqn:E0; [|vm_compute in E0; discriminate].
  exists s', t. split; [reflexivity|].
  pose proof (proj1 (schedule_assertions_hold Mini.cfg false (example_step_state 3) s' t
    example_cfg_ok (example_state_ok 3) E0)) as Hf.
  vm_compute in E0. injection E0 as <- <-. exact Hf.
Defined.

Lemma schedule_conserves_requests_witness :
  exists s' t, example_loops 3 = Ok (s', t) /\ held s' ≡ₚ ["a"; "b"; "c"]%string.
Proof.
  destruct (example_loops 3) as [[s' t]|] eqn:E0; [|vm_compute in E0; discriminate].
  exists s', t. split; [reflexivity|].
  exact (proj1 (schedule_conserves_requests Mini.cfg false (example_step_state 3) s' t
    example_cfg_ok (example_state_ok 3) E0)).
Defined.

(** With one free block the second request is preempted. *)
Lemma preemption_stops_admission_witness :
  exists s' t, example_loops 1 = Ok (s', t) /\ preempted_reqs t = ["b"%string] /\
    scheduled_new_reqs t = [].
Proof.
  destruct (example_loops 1) as [[s' t]|] eqn:E0; [|vm_compute in E0; discriminate].
  exists s', t. split; [reflexivity|].
  assert (preempted_reqs t = ["b"%string]) as Hp by (vm_compute in E0; injection E0 as <- <-; reflexivity).
  split; [exact Hp|].
  refine (proj1 (preemption_stops_admission Mini.cfg false (example_step_state 1) s' t
    example_cfg_ok (example_state_ok 1) E0 _)).
  rewrite Hp. discriminate.
Defined.

Lemma schedule_terminates_witness :
  schedule (Q := list string) (B := list (list Z)) Mini.cfg false (example_step_state 3) <> Raise OutOfFuel.
Proof. exact (schedule_terminates Mini.cfg false (example_step_state 3)). Defined.
