(* ===== verification/SchedUpdate.v ===== *)
(** * Outputs, arrivals and departures

    [scheduler.py]: what happens between two steps.  [add_request],
    [finish_requests] and the freeing of a finished request; the streaming
    sessions ([_update_request_as_session], [_handle_stopped_request]); the
    draft tokens ([update_draft_token_ids] and its in-output variant); the KV
    load failures ([_update_requests_with_invalid_blocks],
    [_handle_invalid_blocks]) and finished transfers; [update_from_output];
    [reset_prefix_cache]; and the queries of the engine loop.  Log
    probabilities, routed experts, statistics and KV events are left out. *)
From S2P Require Export SchedTermination.
Import PyDict PyList.

Section Update.
Context {E B Q : Type} `{RequestQueue Q} `{Services E B}.
Implicit Types (cfg : config) (s : sched E Q) (id : string).

(** ** Finishing a request *)

(** [_connector_finished]: whether the connector delays the free. *)
Definition _connector_finished cfg id s : result (sched E Q * bool) :=
  if negb (connector cfg) then Ok (s, false)
  else
    let r := req s id in
    let processed := Z.max 0 (num_computed_tokens r - num_in_flight_tokens r) in
    let s := s <| env := kv_remove_skipped_blocks (env s) id processed (num_prompt_tokens r) |> in
    let blocks := kv_get_block_ids_for_computed_tokens (env s) id (num_computed_tokens r) in
    let* blocks :=
      if connector_supports_hma cfg then Ok blocks
      else
        let* _ := require (num_kv_cache_groups cfg =? 1) AssertionError in
        match blocks with b :: _ => Ok [b] | [] => Raise IndexError end in
    let '(e, delay) := conn_request_finished (env s) r blocks in
    Ok (s <| env := e |>, delay).

Definition _free_blocks cfg id s : result (sched E Q) :=
  let* _ := require (is_finished (status (req s id))) AssertionError in
  let s := _free_request_blocks cfg id s in
  let* _ := require (bool_decide (id ∈ requests s)) KeyError in
  Ok (s <| requests ::= fun X => X ∖ {[id]} |>).

Definition _free_request cfg id (delay_free_blocks : bool) s : result (sched E Q) :=
  let* _ := require (is_finished (status (req s id))) AssertionError in
  let s := s <| _inflight_prefills ::= fun X => X ∖ {[id]} |> in
  let* x := _connector_finished cfg id s in
  let '(s, connector_delay) := x in
  let '(s, connector_delay) :=
    if ec_connector cfg then
      let '(e, d) := ec_request_finished (env s) (req s id) in
      (s <| env := e |>, connector_delay || d)
    else (s, connector_delay) in
  let s := s <| env := enc_free (env s) (req s id) |> in
  let s := s <| finished_req_ids ::= union {[id]} |> in
  let c := client_index (req s id) in
  let s := s <| finished_req_ids_dict ::= fmap (fun m => <[c := {[id]} ∪ default ∅ (m !! c)]> m) |> in
  if delay_free_blocks || connector_delay then Ok s else _free_blocks cfg id s.

(** The first pass of [finish_requests]. *)
Record finish_acc := mkFinish {
  fa_running : list string;
  fa_waiting : list string;
  fa_valid : list string
}.

Definition finish_collect (x : sched E Q * finish_acc) id : sched E Q * finish_acc :=
  let '(s, a) := x in
  if bool_decide (id ∉ requests s) || is_finished (status (req s id)) then (s, a)
  else
    let valid := fa_valid a ++ [id] in
    if bool_decide (status (req s id) = RUNNING)
    then (s, mkFinish (fa_running a ++ [id]) (fa_waiting a) valid)
    else
      let s := if bool_decide (status (req s id) = WAITING_FOR_STREAMING_REQ)
               then s <| num_waiting_for_streaming_input ::= fun n => n - 1 |> else s in
      (s, mkFinish (fa_running a) (fa_waiting a ++ [id]) valid).

(** Takes the collected requests out of the queues. *)
Definition unqueue (run wait : list string) s : sched E Q :=
  let s := if nonempty run
           then s <| running := remove_all (running s) (list_to_set run) |> else s in
  if nonempty wait
  then s <| waiting ::= q_remove wait |> <| skipped_waiting ::= q_remove wait |> else s.

(** The second pass, one request. *)
Definition finish_one cfg (finished_status : RequestStatus) s id : result (sched E Q) :=
  let '(s, delay) :=
    if bool_decide (status (req s id) = WAITING_FOR_REMOTE_KVS) then
      let delay := bool_decide (id ∉ finished_recving_kv_req_ids s) in
      (s <| finished_recving_kv_req_ids ::= fun X => X ∖ {[id]} |>
         <| failed_recving_kv_req_ids ::= fun X => X ∖ {[id]} |>, delay)
    else (s, false) in
  let s := upd_req id (fun r => r <| status := finished_status |>) s in
  _free_request cfg id delay s.

(** [finish_requests]; [request_ids] is the sequence in which the set (or the
    key view) is iterated. *)
Definition finish_requests cfg (request_ids : list string) (finished_status : RequestStatus) s
    : result (sched E Q * list string) :=
  let* _ := require (is_finished finished_status) AssertionError in
  let '(s, a) := fold_left finish_collect request_ids (s, mkFinish [] [] []) in
  let s := unqueue (fa_running a) (fa_waiting a) s in
  let* s := rfold (finish_one cfg finished_status) s (fa_valid a) in
  Ok (s, fa_valid a).

(** ** Streaming sessions and new requests *)

Definition _enqueue_waiting_request id s : sched E Q :=
  if _is_blocked_waiting_status (status (req s id))
  then s <| skipped_waiting ::= q_add (req s id) |>
  else s <| waiting ::= q_add (req s id) |>.

(** The session object after the next input chunk. *)
Definition session_fields (u : StreamingUpdate) (r : request) : request :=
  let computed := num_computed_tokens r in
  let kept := slice (num_prompt_tokens r) computed (_all_token_ids r) in
  let all := slice_to computed (_all_token_ids r) in
  let prompt := prompt_token_ids r ++ kept in
  let base := Z.of_nat (length all) in
  let feats := mm_features r ++ map (fun f => f <| offset ::= Z.add base |>) (upd_mm_features u) in
  let all := all ++ upd_prompt_token_ids u in
  let prompt := prompt ++ upd_prompt_token_ids u in
  r <| _all_token_ids := all |> <| _output_token_ids := [] |> <| prompt_token_ids := prompt |>
    <| mm_features := feats |> <| num_prompt_tokens := Z.of_nat (length prompt) |>
    <| arrival_time := upd_arrival_time u |> <| sampling_params := upd_sampling_params u |>
    <| status := WAITING |>.

Definition _update_request_as_session id (u : StreamingUpdate) s : sched E Q :=
  let s := if bool_decide (status (req s id) = WAITING_FOR_STREAMING_REQ)
           then s <| num_waiting_for_streaming_input ::= fun n => n - 1 |> else s in
  upd_req id (session_fields u) s.

(** [_handle_stopped_request]: true when the request is finished. *)
Definition _handle_stopped_request id s : sched E Q * bool :=
  let r := req s id in
  if negb (resumable r) then (s, true)
  else
    match default [] (streaming_queue r) with
    | None :: rest => (upd_req id (fun r => r <| streaming_queue := Some rest |>) s, true)
    | Some u :: rest =>
        let s := upd_req id (fun r => r <| streaming_queue := Some rest |>) s in
        let s := _update_request_as_session id u s in
        (_enqueue_waiting_request id s, false)
    | [] =>
        let s := upd_req id (fun r => r <| status := WAITING_FOR_STREAMING_REQ |>) s in
        let s := s <| num_waiting_for_streaming_input ::= Z.add 1 |> in
        (_enqueue_waiting_request id s, false)
    end.

Definition add_request cfg (r : request) s : result (sched E Q) :=
  let id := request_id r in
  if bool_decide (id ∈ requests s) then
    let update := update_from_request r in
    let existing := req s id in
    if negb (bool_decide (status existing = WAITING_FOR_STREAMING_REQ)) then
      match streaming_queue existing with
      | None => Raise AssertionError
      | Some q => Ok (upd_req id (fun r => r <| streaming_queue := Some (q ++ [update]) |>) s)
      end
    else
      match update with
      | Some u => Ok (_update_request_as_session id u s)
      | None => let* x := finish_requests cfg [id] FINISHED_ABORTED s in Ok (fst x)
      end
  else
    let r := if resumable r then r <| streaming_queue := Some [] |> else r in
    let s := upd_req id (fun _ => r) s in
    let s := _enqueue_waiting_request id s in
    let s := s <| requests ::= union {[id]} |> in
    Ok (if connector cfg then s <| env := conn_on_new_request (env s) (req s id) |> else s).

(** ** Draft tokens *)

(** One pair of [zip(req_ids, draft_token_ids)]. *)
Definition set_draft s (x : string * list Z) : sched E Q :=
  let '(id, spec) := x in
  let r := req s id in
  if bool_decide (id ∉ requests s) || is_finished (status r) then s
  else if is_prefill_chunk r then upd_req id (fun r => r <| spec_token_ids := [] |>) s
  else
    let spec := if so_should_advance (env s) r then so_validate_tokens (env s) r spec else spec in
    upd_req id (fun r => r <| spec_token_ids := spec |>) s.

Definition update_draft_token_ids (drafts : list (string * list Z)) s : sched E Q :=
  fold_left set_draft drafts s.

(** The tokens put in the place of the scheduled ones. *)
Definition fit_draft s id (spec placeholders : list Z) : list Z :=
  let spec := take (length placeholders) spec in
  let spec := if so_should_advance (env s) (req s id)
              then so_validate_tokens (env s) (req s id) spec else spec in
  spec ++ replicate (length placeholders - length spec) (-1).

Definition num_invalid s id (spec placeholders : list Z) : Z :=
  let spec := take (length placeholders) spec in
  let spec := if so_should_advance (env s) (req s id)
              then so_validate_tokens (env s) (req s id) spec else spec in
  Z.of_nat (length placeholders) - Z.of_nat (length spec).

Definition set_draft_in_output s (acc : dict (list Z) * dict Z) (x : string * list Z)
    : dict (list Z) * dict Z :=
  let '(sched_spec, invalid) := acc in
  let '(id, spec) := x in
  if bool_decide (id ∉ requests s) || is_finished (status (req s id)) then acc
  else
    match dget sched_spec id with
    | None | Some [] => acc
    | Some ph =>
        let k := num_invalid s id spec ph in
        (dset sched_spec id (fit_draft s id spec ph),
         if negb (k =? 0) then dset invalid id k else invalid)
    end.

Definition update_draft_token_ids_in_output (drafts : list (string * list Z))
    (o : SchedulerOutput) s : SchedulerOutput :=
  let '(sched_spec, invalid) :=
    fold_left (set_draft_in_output s) drafts (o_scheduled_spec_decode_tokens o, []) in
  o <| o_scheduled_spec_decode_tokens := sched_spec |> <| o_num_invalid_spec_tokens := invalid |>.

(** ** KV transfers *)

Definition finish_recving cfg s id : result (sched E Q) :=
  let* _ := require (bool_decide (id ∈ requests s)) AssertionError in
  if bool_decide (status (req s id) = WAITING_FOR_REMOTE_KVS)
  then Ok (s <| finished_recving_kv_req_ids ::= union {[id]} |>)
  else
    let* _ := require (is_finished (status (req s id))) AssertionError in
    _free_blocks cfg id s.

Definition finish_sending cfg s id : result (sched E Q) :=
  let* _ := require (bool_decide (id ∈ requests s)) AssertionError in
  _free_blocks cfg id s.

Definition _update_from_kv_xfer_finished cfg (o : KVConnectorOutput) s : result (sched E Q) :=
  let s := if connector cfg then s <| env := conn_update_connector_output (env s) o |> else s in
  let* s := rfold (finish_recving cfg) s (finished_recving o) in
  rfold (finish_sending cfg) s (finished_sending o).

(** The locals of the loop over one request's blocks. *)
Record block_scan := mkScan {
  bs_affected : bool;            (** [is_affected] *)
  bs_marked : bool;              (** [marked_invalid_block] *)
  bs_marked_ids : gset Z;        (** [marked_invalid_block_ids] *)
  bs_computed : Z;               (** [request.num_computed_tokens] *)
  bs_tokens : Z;                 (** [total_affected_tokens] *)
  bs_evict : gset Z              (** [blocks_to_evict] *)
}.

Definition scan_block cfg (invalid : gset Z) (evict : bool) (computed : Z) (blocks : list Z)
    (st : block_scan) (x : nat * Z) : block_scan :=
  let '(idx, block_id) := x in
  if bool_decide (block_id ∉ invalid) then st
  else if bool_decide (block_id ∈ bs_marked_ids st)
  then mkScan true (bs_marked st) (bs_marked_ids st) (bs_computed st) (bs_tokens st) (bs_evict st)
  else
    let marked := {[block_id]} ∪ bs_marked_ids st in
    if bs_marked st
    then mkScan true true marked (bs_computed st) (bs_tokens st) (bs_evict st)
    else
      let c := Z.of_nat idx * block_size cfg in
      mkScan true true marked c (bs_tokens st + (computed - c))
        (if evict then list_to_set (drop idx blocks) ∪ bs_evict st else bs_evict st).

(** The accumulators over the requests. *)
Record invalid_acc := mkInvalid {
  ia_affected : gset string;
  ia_tokens : Z;
  ia_evict : gset Z;
  ia_marked : gset Z
}.

(** One request of [_update_requests_with_invalid_blocks]. *)
Definition scan_request cfg (invalid : gset Z) (num_scheduled : dict Z) (evict : bool)
    (x : sched E Q * invalid_acc) id : result (sched E Q * invalid_acc) :=
  let '(s, a) := x in
  match kv_get_block_ids (env s) id with
  | [blocks] =>
      let r := req s id in
      let computed := num_computed_tokens r - default 0 (dget num_scheduled id) in
      let n := (computed + block_size cfg - 1) / block_size cfg in
      let st := fold_left (scan_block cfg invalid evict computed blocks)
                  (combine (seq 0 (Z.to_nat n)) blocks)
                  (mkScan false false (ia_marked a) (num_computed_tokens r) (ia_tokens a) (ia_evict a)) in
      if bs_affected st then
        let '(c, tokens) :=
          if negb (bs_marked st)
          then (computed, bs_tokens st + (bs_computed st - computed))
          else (bs_computed st, bs_tokens st) in
        Ok (upd_req id (fun r => r <| num_computed_tokens := c |>) s,
            mkInvalid ({[id]} ∪ ia_affected a) tokens (bs_evict st) (bs_marked_ids st))
      else Ok (s, mkInvalid (ia_affected a) (bs_tokens st) (bs_evict st) (bs_marked_ids st))
  | _ => Raise ValueError
  end.

Definition _update_requests_with_invalid_blocks cfg (ids : list string) (invalid : gset Z)
    (num_scheduled : dict Z) (evict : bool) s : result (sched E Q * invalid_acc) :=
  rfold (scan_request cfg invalid num_scheduled evict) (s, mkInvalid ∅ 0 ∅ ∅) ids.

Definition _handle_invalid_blocks cfg (invalid : gset Z) (num_scheduled : dict Z) s
    : result (sched E Q * gset string) :=
  let async_ids := List.filter (fun id => bool_decide (status (req s id) = WAITING_FOR_REMOTE_KVS))
                     (q_list (skipped_waiting s)) in
  let* x := _update_requests_with_invalid_blocks cfg async_ids invalid num_scheduled false s in
  let '(s, a) := x in
  let* y := _update_requests_with_invalid_blocks cfg (running s) invalid num_scheduled true s in
  let '(s, b) := y in
  if Nat.eqb (size (ia_affected a) + size (ia_affected b)) 0 then Ok (s, ∅)
  else
    let s := if nonempty (elements (ia_evict b)) && negb (recompute_kv_load_failures cfg)
             then s <| env := kv_evict_blocks (env s) (elements (ia_evict b)) |> else s in
    if negb (recompute_kv_load_failures cfg) then Ok (s, ia_affected a ∪ ia_affected b)
    else Ok (s <| failed_recving_kv_req_ids ::= union (ia_affected a) |>, ia_affected b).

(** ** [update_from_output] *)

(** The parts of [ModelRunnerOutput] the scheduler's state depends on. *)
Record ModelRunnerOutput := mkModelOutput {
  m_sampled_token_ids : list (list Z);
  m_req_id_to_index : gmap string nat;
  m_pooler_outputs : list (option Z);
  m_kv_connector_output : option KVConnectorOutput
}.

Record EngineCoreOutput := mkEngineOut {
  e_client : Z;
  e_request_id : string;
  e_new_token_ids : list Z;
  e_finish_status : option RequestStatus;
  e_pooling_output : option Z
}.

(** The append-and-check loop of [_update_request_with_output]: the request,
    the tokens kept and whether it stopped. *)
Fixpoint append_tokens (max_len : Z) (r : request) (tokens : list Z) : request * list Z * bool :=
  match tokens with
  | [] => (r, [], false)
  | x :: tokens =>
      let r := r <| _output_token_ids ::= fun l => l ++ [x] |>
                 <| _all_token_ids ::= fun l => l ++ [x] |> in
      let '(r, stopped) := check_stop r max_len in
      if stopped then (r, [x], true)
      else
        let '(r, kept, stopped) := append_tokens max_len r tokens in
        (r, x :: kept, stopped)
  end.

Definition _update_request_with_output cfg id (tokens : list Z) s : sched E Q * list Z * bool :=
  let '(r, kept, stopped) := append_tokens (max_model_len cfg) (req s id) tokens in
  (upd_req id (fun _ => r) s, kept, stopped).

(** The in-flight and stale counts when a step's output returns. *)
Definition drain_stale (n : Z) (r : request) : result (request * bool) :=
  let r := r <| num_in_flight_tokens ::= fun k => k - n |> in
  if 0 <? num_stale_output_tokens r then
    let r := r <| num_stale_output_tokens ::= fun k => k - n |> in
    let* _ := require (0 <=? num_stale_output_tokens r) AssertionError in
    Ok (r, true)
  else Ok (r, false).

(** The locals of [update_from_output]. *)
Record update_acc := mkUpdateAcc {
  u_outputs : list EngineCoreOutput;
  u_stopped_running : list string;
  u_stopped_preempted : list string;
  u_adaptive : Mtp.adaptive;
  u_samples : list Mtp.sample
}.
#[export] Instance update_acc_eta : Eta update_acc := fun u =>
  mkUpdateAcc (u_outputs u) (u_stopped_running u) (u_stopped_preempted u) (u_adaptive u) (u_samples u).

(** The accounting of verified draft tokens. *)
Definition count_drafts cfg id (scheduled generated : list Z) (is_stale : bool)
    (x : sched E Q * update_acc) : sched E Q * update_acc :=
  let '(s, u) := x in
  if nonempty scheduled && (nonempty generated || (num_sampled_tokens_per_step cfg =? 0))
     && negb is_stale
  then
    let num_draft := Z.of_nat (length scheduled) in
    let num_sampled := num_sampled_tokens_per_step cfg in
    let num_accepted := Z.max (Z.of_nat (length generated) - num_sampled) 0 in
    let num_rejected := num_draft - num_accepted in
    let smp := Mtp.mkSample num_draft num_accepted (num_computed_tokens (req s id))
                 (num_sampled + num_accepted) in
    let u := u <| u_samples ::= fun l => l ++ [smp] |> in
    let u := match acceptance_length_controller s with
             | Some _ => u <| u_adaptive ::= Mtp.add_sample num_draft num_accepted |>
             | None => u
             end in
    (upd_req id (fun r =>
       let r := if 0 <? num_computed_tokens r
                then r <| num_computed_tokens ::= fun c => c - num_rejected |> else r in
       if 0 <? num_output_placeholders r
       then r <| num_output_placeholders ::= fun c => c - num_rejected |> else r) s, u)
  else (s, u).

(** The grammar's view of the new tokens: a rejection ends the request. *)
Definition advance_grammar id (tokens : list Z) (stopped : bool) s : sched E Q * bool :=
  if nonempty tokens && so_should_advance_with (env s) (req s id) tokens then
    let adv := so_trim_reasoning (env s) (req s id) tokens in
    if nonempty adv then
      let '(e, accepted) := so_accept_tokens (env s) id adv in
      let s := s <| env := e |> in
      if accepted then (s, stopped)
      else (upd_req id (fun r => r <| status := FINISHED_ERROR |> <| resumable := false |>) s, true)
    else (s, stopped)
  else (s, stopped).

(** A request that stopped leaves, or waits for more input. *)
Definition settle_stopped cfg id (before : RequestStatus) (x : sched E Q * update_acc)
    : result (sched E Q * update_acc) :=
  let '(s, u) := x in
  let '(s, finished) := _handle_stopped_request id s in
  let* s := if finished then _free_request cfg id false s else Ok s in
  Ok (s, if bool_decide (before = RUNNING)
         then u <| u_stopped_running ::= fun l => l ++ [id] |>
         else u <| u_stopped_preempted ::= fun l => l ++ [id] |>).

(** The loop body for a request whose output counts. *)
Definition process_output cfg (o : SchedulerOutput) (m : ModelRunnerOutput) id (is_stale : bool)
    (index : nat) (x : sched E Q * update_acc) : result (sched E Q * update_acc) :=
  let* generated :=
    match m_sampled_token_ids m with
    | [] => Ok []
    | l => match l !! index with Some g => Ok g | None => Raise IndexError end
    end in
  let scheduled := default [] (dget (o_scheduled_spec_decode_tokens o) id) in
  let '(s, u) := count_drafts cfg id scheduled generated is_stale x in
  let s := if has_encoder_inputs (req s id)
           then s <| env := _free_encoder_inputs cfg (env s) (req s id) |> else s in
  let* pooled :=
    match m_pooler_outputs m with
    | [] => Ok None
    | l => match l !! index with Some g => Ok g | None => Raise IndexError end
    end in
  let before := status (req s id) in
  let '(s, tokens, stopped) :=
    if nonempty generated then _update_request_with_output cfg id generated s
    else if pooling_params (req s id) && bool_decide (pooled <> None)
    then (upd_req id (fun r => r <| status := FINISHED_STOPPED |>) s, generated, true)
    else (s, generated, false) in
  let '(s, stopped) := advance_grammar id tokens stopped s in
  let emit := nonempty tokens || bool_decide (pooled <> None) || stopped in
  let s := if emit then upd_req id (fun r => r <| prefill_stats := None |>) s else s in
  let reason := if stopped then Some (status (req s id)) else None in
  let client := client_index (req s id) in
  let* su := if stopped then settle_stopped cfg id before (s, u) else Ok (s, u) in
  let '(s, u) := su in
  Ok (s, if emit then u <| u_outputs ::= fun l => l ++ [mkEngineOut client id tokens reason pooled] |>
         else u).

(** One entry of [num_scheduled_tokens]. *)
Definition update_one cfg (o : SchedulerOutput) (m : ModelRunnerOutput) (failed : gset string)
    (x : sched E Q * update_acc) (item : string * Z) : result (sched E Q * update_acc) :=
  let '(s, u) := x in
  let '(id, n) := item in
  let* _ := require (0 <? n) AssertionError in
  let tracked := bool_decide (id ∈ requests s) in
  let* y := if tracked then
              let* ry := drain_stale n (req s id) in
              Ok (upd_req id (fun _ => fst ry) s, snd ry)
            else Ok (s, false) in
  let '(s, is_stale) := y in
  if bool_decide (id ∈ failed) then Ok (s, u)
  else if negb tracked || is_finished (status (req s id)) then Ok (s, u)
  else if is_stale && drop_stale_output (req s id) then Ok (s, u)
  else
    match m_req_id_to_index m !! id with
    | None => Ok (s, u)
    | Some index => process_output cfg o m id is_stale index (s, u)
    end.

(** The controller and the instrumentation after the loop. *)
Definition observe_step cfg (o : SchedulerOutput) (u : update_acc) s : result (sched E Q) :=
  let active := if o_num_spec_tokens_to_schedule o =? 0 then cfg_num_spec_tokens cfg
                else o_num_spec_tokens_to_schedule o in
  let a := u_adaptive u in
  let* s :=
    match acceptance_length_controller s with
    | None => Ok s
    | Some c =>
        let '(c, r) := Controller.observe_batch c (Mtp.ad_drafts a) (Mtp.ad_draft_tokens a)
                         (Mtp.ad_accepted a) (Some (Mtp.ad_eligible a)) (Some (Mtp.ad_accepted_pos a)) in
        let* _ := r in
        Ok (s <| acceptance_length_controller := Some c |>)
    end in
  let '(w, _) := Mtp._record_mtp_instrumentation cfg (u_samples u) active (mtp s) in
  Ok (s <| mtp := w |>).

Definition update_from_output cfg (o : SchedulerOutput) (m : ModelRunnerOutput) s
    : result (sched E Q * list EngineCoreOutput * gmap Z (gset string)) :=
  let s := if defer_block_free cfg && (0 <? o_total_num_scheduled_tokens o)
           then _drain_deferred_frees (s <| processed_step_seq ::= Z.add 1 |>) else s in
  let* f :=
    match m_kv_connector_output m with
    | Some k => if nonempty (elements (invalid_block_ids k))
                then _handle_invalid_blocks cfg (invalid_block_ids k) (o_num_scheduled_tokens o) s
                else Ok (s, ∅)
    | None => Ok (s, ∅)
    end in
  let '(s, failed) := f in
  let u0 := mkUpdateAcc [] [] [] (Mtp.adaptive0 (_mtp_num_positions cfg)) [] in
  let* su := rfold (update_one cfg o m failed) (s, u0) (o_num_scheduled_tokens o) in
  let '(s, u) := su in
  let* s := observe_step cfg o u s in
  let s := unqueue (u_stopped_running u) (u_stopped_preempted u) s in
  let errors := grammar_compile_error_reqs s in
  let s := s <| grammar_compile_error_reqs := ∅ |> in
  let errors := if negb (recompute_kv_load_failures cfg) then errors ∪ failed else errors in
  let* fs := if nonempty (elements errors)
             then finish_requests cfg (elements errors) FINISHED_ERROR s else Ok (s, []) in
  let '(s, failed_reqs) := fs in
  let outputs := u_outputs u ++ map (fun id =>
    mkEngineOut (client_index (req s id)) id [] (Some (status (req s id))) None) failed_reqs in
  let* s := match m_kv_connector_output m with
            | Some k => _update_from_kv_xfer_finished cfg k s
            | None => Ok s
            end in
  Ok (s <| finished_req_ids_dict ::= fmap (fun _ => ∅) |>, outputs,
      default ∅ (finished_req_ids_dict s)).

(** ** Queries and the cache reset *)

Definition get_num_unfinished_requests s : Z :=
  match _pause_state s with
  | PAUSED_ALL => 0
  | PAUSED_NEW => Z.of_nat (length (running s))
  | UNPAUSED =>
      Z.of_nat (length (q_list (waiting s))) + Z.of_nat (length (q_list (skipped_waiting s)))
      - num_waiting_for_streaming_input s + Z.of_nat (length (running s))
  end.

Definition get_request_counts s : Z * Z :=
  (Z.of_nat (length (running s)),
   Z.of_nat (length (q_list (waiting s))) + Z.of_nat (length (q_list (skipped_waiting s)))).

Definition has_finished_requests cfg s : bool :=
  if bool_decide (finished_req_ids s <> ∅) then true
  else if negb (connector cfg) then false
  else Nat.ltb (length (q_list (waiting s)) + length (q_list (skipped_waiting s))
                + length (running s)) (size (requests s)).

(** [while self.running: self._preempt_request(self.running.pop(), ...)]. *)
Definition preempt_all_body cfg s : result (ctl (sched E Q)) :=
  match pop_last (running s) with
  | None => Ok (Break s)
  | Some (rest, id) =>
      let* s := _preempt_request cfg id true (s <| running := rest |>) in Ok (Continue s)
  end.

Definition reset_prefix_cache cfg (reset_running_requests reset_connector : bool) s
    : result (sched E Q * bool) :=
  let* s := if reset_running_requests then
              let* s := while (S (length (running s))) (preempt_all_body cfg) s in
              Ok (s <| prev_step_scheduled_req_ids := ∅ |>)
            else Ok s in
  let '(e, ok) := kv_reset_prefix_cache (env s) in
  let s := s <| env := e |> in
  if reset_running_requests && negb ok then Raise RuntimeError
  else if reset_connector then
    let '(e, cok) := if connector cfg then conn_reset_cache (env s) else (env s, true) in
    Ok (s <| env := e |>, cok && ok)
  else Ok (s, ok).

Definition get_grammar_bitmask (o : SchedulerOutput) s : option (list string) :=
  if negb (o_has_structured_output_requests o) then None
  else
    let ids := List.filter (fun id => bool_decide (id ∈ requests s) &&
                 (use_structured_output (req s id) && negb (is_prefill_chunk (req s id))))
                 (dkeys (o_num_scheduled_tokens o)) in
    if nonempty ids then Some ids else None.

End Update.
