(* ===== verification/SchedOutput.v ===== *)
(** * What the scheduler's bookkeeping between steps guarantees

    Theorems about [SchedUpdate]: the in-flight and stale token counts of a
    request under asynchronous scheduling, the tokens kept from an output, the
    truncation after a failed KV load, the draft tokens put into an output,
    streaming sessions and their count, and the cache reset. *)
From S2P Require Export SchedUpdate.
Import PyDict PyList.

(** ** In-flight and stale output

    A request's history between arrival and departure is a sequence of
    schedulings, preemptions and returning outputs; outputs return in the
    order of the steps that scheduled them. *)
Module Inflight.

Inductive event :=
  | Schedule (seq n : Z)        (** a step schedules [n] tokens of the request *)
  | Preempt (drop : bool)       (** [_preempt_request] *)
  | Output.                     (** the oldest outstanding output returns *)

(** An output that has not returned, as a reference counter sees it. *)
Record pending := mkPending {
  p_tokens : Z;
  p_stale : bool;     (** a preemption happened since its step *)
  p_drop : bool       (** one of them was in drop mode *)
}.

Definition mark_stale (drop : bool) (p : pending) : pending :=
  mkPending (p_tokens p) true (p_drop p || drop).

(** What the scheduler decides for a returning output: stale, and discarded. *)
Definition event_step cfg (x : request * list Z * list (bool * bool)) (e : event)
    : result (request * list Z * list (bool * bool)) :=
  let '(r, queue, seen) := x in
  match e with
  | Schedule seq n => Ok (advance_fields cfg seq n r, queue ++ [n], seen)
  | Preempt drop => Ok (preempted_fields drop r, queue, seen)
  | Output =>
      match queue with
      | [] => Ok (r, [], seen)
      | n :: queue =>
          let* x := drain_stale n r in
          Ok (fst x, queue, seen ++ [(snd x, snd x && drop_stale_output (fst x))])
      end
  end.

Definition reference_step (x : list pending * list pending) (e : event)
    : list pending * list pending :=
  let '(ps, returned) := x in
  match e with
  | Schedule _ n => (ps ++ [mkPending n false false], returned)
  | Preempt drop => (map (mark_stale drop) ps, returned)
  | Output => match ps with [] => ([], returned) | p :: ps => (ps, returned ++ [p]) end
  end.

(** The counters of the request against the reference's pending outputs. *)
Record counts_ok (r : request) (ps : list pending) : Prop := {
  co_in_flight : num_in_flight_tokens r = zsum (map p_tokens ps);
  co_positive : Forall (fun p => 0 < p_tokens p) ps;
  co_split : exists l1 l2, ps = l1 ++ l2 /\ Forall (fun p => p_stale p = true) l1 /\
    Forall (fun p => p_stale p = false /\ p_drop p = false) l2 /\
    num_stale_output_tokens r = zsum (map p_tokens l1);
  co_drop : Exists (fun p => p_drop p = true) ps -> drop_stale_output r = true
}.

Lemma stale_positive r ps :
  counts_ok r ps -> Exists (fun p => p_drop p = true) ps -> 0 < num_stale_output_tokens r.
Proof.
  intros [_ Hpos (l1 & l2 & -> & _ & Hl2 & ->) _] Hex.
  apply Exists_app in Hex as [Hex|Hex].
  - destruct l1 as [|p l1]; [by inversion Hex|]. apply Forall_app in Hpos as [Hpos _].
    inversion Hpos as [|? ? Hp Hl]; subst. simpl.
    assert (0 <= zsum (map p_tokens l1)); [|lia].
    apply zsum_nonneg, Forall_map. eapply Forall_impl; [exact Hl|]. simpl. lia.
  - exfalso. apply Exists_exists in Hex as (p & Hin & Hd). rewrite Forall_forall in Hl2.
    destruct (Hl2 p Hin) as [_ Hd']. congruence.
Qed.

Lemma counts_schedule cfg seq n r ps :
  0 < n -> counts_ok r ps ->
  counts_ok (advance_fields cfg seq n r) (ps ++ [mkPending n false false]).
Proof.
  intros Hn [Hf Hp (l1 & l2 & -> & Hl1 & Hl2 & Hs) Hd].
  assert (num_in_flight_tokens (advance_fields cfg seq n r) = n + num_in_flight_tokens r /\
          num_stale_output_tokens (advance_fields cfg seq n r) = num_stale_output_tokens r /\
          drop_stale_output (advance_fields cfg seq n r) = drop_stale_output r) as (E1 & E2 & E3)
    by (unfold advance_fields; by destruct (defer_block_free cfg)).
  constructor.
  - rewrite E1, Hf, !map_app, !zsum_app. simpl. lia.
  - apply Forall_app; split; [done|]. by repeat constructor.
  - exists l1, (l2 ++ [mkPending n false false]). rewrite E2. split_and!; auto.
    + by rewrite app_assoc.
    + apply Forall_app; split; [done|]. by repeat constructor.
  - rewrite E3, Exists_app. intros [He|He]; [auto|].
    inversion He as [? ? He'|? ? He']; [done|by inversion He'].
Qed.

Lemma counts_preempt drop r ps :
  counts_ok r ps -> counts_ok (preempted_fields drop r) (map (mark_stale drop) ps).
Proof.
  intros Hok. pose proof (stale_positive _ _ Hok) as Hstale. destruct Hok as [Hf Hp _ Hd].
  assert (map p_tokens (map (mark_stale drop) ps) = map p_tokens ps) as E.
  { rewrite map_map. by apply map_ext. }
  constructor.
  - by rewrite E.
  - apply Forall_map. by eapply Forall_impl.
  - exists (map (mark_stale drop) ps), []. rewrite app_nil_r, E. split_and!; auto.
    apply Forall_map. by apply Forall_forall.
  - simpl. rewrite Exists_exists. intros (p & Hin & Hp').
    apply list_elem_of_In, in_map_iff in Hin as (q & <- & Hq). simpl in Hp'.
    apply orb_true_iff in Hp' as [Hp'|Hp']; [|by rewrite Hp'].
    assert (Exists (fun p => p_drop p = true) ps) as Hex.
    { apply Exists_exists. exists q. by rewrite list_elem_of_In. }
    rewrite (Hd Hex). specialize (Hstale Hex).
    rewrite (proj2 (Z.ltb_lt _ _) Hstale). by destruct drop.
Qed.

Lemma counts_output r p ps :
  counts_ok r (p :: ps) ->
  exists r', drain_stale (p_tokens p) r = Ok (r', p_stale p) /\ counts_ok r' ps /\
    (p_drop p = true -> drop_stale_output r' = true).
Proof.
  intros [Hf Hp (l1 & l2 & Heq & Hl1 & Hl2 & Hs) Hd].
  inversion Hp as [|? ? Hn Hps]; subst. simpl in Hf.
  assert (Hrest : forall q, Exists (fun p => p_drop p = true) ps ->
                            Exists (fun p => p_drop p = true) (q :: ps)) by (intros; by right).
  unfold drain_stale. destruct l1 as [|q l1]; simpl in Heq.
  - simpl in Hs. cbn. rewrite Hs. cbn. destruct l2 as [|q l2]; [done|]. injection Heq as <- ->.
    inversion Hl2 as [|? ? [Hq Hq'] Hl2']; subst. rewrite Hq.
    eexists; split; [reflexivity|]. split; [|simpl; intros; apply Hd; by left].
    constructor; cbn; auto; [lia|]. by exists [], l2.
  - injection Heq as <- ->. inversion Hl1 as [|? ? Hq Hl1']; subst. simpl in Hs.
    apply Forall_app in Hps as [Hps1 Hps2].
    assert (0 <= zsum (map p_tokens l1)).
    { apply zsum_nonneg, Forall_map. eapply Forall_impl; [exact Hps1|]. simpl. lia. }
    cbn. rewrite (proj2 (Z.ltb_lt _ _)) by lia. unfold require. cbn.
    rewrite (proj2 (Z.leb_le _ _)) by lia. cbn. rewrite Hq.
    eexists; split; [reflexivity|]. split; [|simpl; intros; apply Hd; by left].
    constructor; cbn; auto; [lia|by apply Forall_app|].
    exists l1, l2. cbn. split_and!; auto. lia.
Qed.

(** The decisions match a reference history: same staleness, and every output
    of a step before a drop-mode preemption is discarded. *)
Definition decided (d : bool * bool) (p : pending) : Prop :=
  fst d = p_stale p /\ (p_drop p = true -> snd d = true) /\ (p_stale p = false -> snd d = false).

Lemma event_step_ok cfg e r ps seen returned :
  (forall seq n, e = Schedule seq n -> 0 < n) ->
  counts_ok r ps -> Forall2 decided seen returned ->
  let '(ps', returned') := reference_step (ps, returned) e in
  exists r' seen', event_step cfg (r, map p_tokens ps, seen) e = Ok (r', map p_tokens ps', seen') /\
    counts_ok r' ps' /\ Forall2 decided seen' returned'.
Proof.
  intros He Hok Hdec. destruct e as [seq n|drop|]; simpl.
  - do 2 eexists; split; [by rewrite map_app|]. eauto using counts_schedule.
  - do 2 eexists; split; [by rewrite map_map|]. eauto using counts_preempt.
  - destruct ps as [|p ps]; simpl; [by eauto|].
    destruct (counts_output r p ps Hok) as (r' & -> & Hok' & Hdrop). simpl.
    do 2 eexists; split; [reflexivity|]. split; [done|].
    apply Forall2_app; [done|]. constructor; [|constructor]. split_and!; simpl; auto.
    + intros Hd. destruct Hok as [_ _ (l1 & l2 & Heq & Hl1 & Hl2 & _) _].
      destruct l1 as [|q l1]; injection Heq as <- Heq || simpl in Heq.
      * subst l2. inversion Hl2 as [|? ? [_ Hd'] _]; subst. congruence.
      * inversion Hl1; subst. rewrite H1. auto.
    + by intros ->.
Qed.

Definition positive (e : event) : Prop :=
  match e with Schedule _ n => 0 < n | _ => True end.

(** C4 (stale outputs): for any history of schedulings, preemptions and
    returning outputs of a request that starts with nothing in flight, the
    assertion on the stale count never fires, an output is taken as stale
    exactly when a preemption happened after its step was scheduled, an
    output older than a drop-mode preemption is discarded, a fresh one never
    is, and the in-flight count is the sum of the outstanding outputs. *)
Theorem stale_outputs_exact cfg (events : list event) (r : request) :
  num_in_flight_tokens r = 0 -> num_stale_output_tokens r = 0 -> Forall positive events ->
  let '(ps, returned) := fold_left reference_step events ([], []) in
  exists r' seen, rfold (event_step cfg) (r, [], []) events = Ok (r', map p_tokens ps, seen) /\
    Forall2 decided seen returned /\ num_in_flight_tokens r' = zsum (map p_tokens ps).
Proof.
  intros Hf Hs Hpos.
  assert (Hgen : forall evs r ps seen returned,
    Forall positive evs -> counts_ok r ps -> Forall2 decided seen returned ->
    let '(ps', returned') := fold_left reference_step evs (ps, returned) in
    exists r' seen', rfold (event_step cfg) (r, map p_tokens ps, seen) evs = Ok (r', map p_tokens ps', seen') /\
      counts_ok r' ps' /\ Forall2 decided seen' returned').
  { induction evs as [|e evs IH]; intros r0 ps seen returned He Hok Hdec; [simpl; by eauto|].
    inversion He as [|? ? He1 He2]; subst.
    pose proof (event_step_ok cfg e r0 ps seen returned) as Hstep.
    cbn [fold_left]. destruct (reference_step (ps, returned) e) as [ps1 returned1].
    destruct Hstep as (r1 & seen1 & Hrun & Hok1 & Hdec1); [by intros ? ? ->|done|done|].
    cbn [rfold]. rewrite Hrun. by apply IH. }
  specialize (Hgen events r [] [] [] Hpos). simpl in Hgen.
  destruct (fold_left reference_step events ([], [])) as [ps returned].
  destruct Hgen as (r' & seen & Hrun & Hok & Hdec); [|constructor|].
  { constructor; simpl; auto; [|by inversion 1]. exists [], []. by rewrite Hs. }
  exists r', seen. split_and!; auto. apply Hok.
Qed.

Definition example_history : list event :=
  [Schedule 1 4; Schedule 2 1; Preempt false; Schedule 3 5; Output; Preempt true; Output; Output].

Lemma stale_outputs_exact_witness :
  exists r' seen, rfold (event_step Mini.cfg) (Mini.request_of "a" RUNNING 9 0, [], []) example_history
                    = Ok (r', [], seen) /\
    seen = [(true, false); (true, true); (true, true)] /\ num_in_flight_tokens r' = 0.
Proof.
  destruct (stale_outputs_exact Mini.cfg example_history (Mini.request_of "a" RUNNING 9 0))
    as (r' & seen & Hrun & _ & Hf); [reflexivity|reflexivity|by repeat constructor|].
  exists r', seen. split_and!; [exact Hrun| |exact Hf].
  vm_compute in Hrun. by injection Hrun as _ <-.
Defined.

End Inflight.

Section Output.
Context {E B Q : Type} `{RequestQueue Q} `{!RequestQueueLaws Q}.
Context `{Services E B} `{!ServicesLaws E B}.
Implicit Types (cfg : config) (s : sched E Q) (id : string).

(** ** The tokens kept from an output *)

(** The request after [tokens] were appended without a stop. *)
Definition extend (r : request) (tokens : list Z) : request :=
  r <| _output_token_ids ::= fun l => l ++ tokens |> <| _all_token_ids ::= fun l => l ++ tokens |>.

Lemma extend_extend r l k : extend (extend r l) k = extend r (l ++ k).
Proof.
  destruct r. cbv -[app]. by rewrite <-!List.app_assoc.
Qed.

Lemma extend_nil r : extend r [] = r.
Proof. unfold extend. destruct r. unfold setter. simpl. by rewrite !app_nil_r. Qed.

(** Appended output: the tokens kept from an output are its shortest
    non-empty prefix at which [check_stop] says stop, or all of them when it
    never does; exactly those are appended to the request, whose status
    changes, to a final one, only when it stopped. *)
Theorem output_keeps_shortest_stop max_len r tokens :
  let '(r', kept, stopped) := append_tokens max_len r tokens in
  kept `prefix_of` tokens /\
  (forall k, k <> [] -> k `prefix_of` kept -> k <> kept ->
     snd (check_stop (extend r k) max_len) = false) /\
  (if stopped : bool
   then kept <> [] /\ snd (check_stop (extend r kept) max_len) = true /\
        exists st, is_finished st = true /\ r' = (extend r kept) <| status := st |>
   else kept = tokens /\ r' = extend r tokens /\
        (tokens <> [] -> snd (check_stop (extend r tokens) max_len) = false)).
Proof.
  revert r. induction tokens as [|x tokens IH]; intros r; cbn [append_tokens].
  { rewrite extend_nil. split_and!; try done. intros k Hk Hp. by apply prefix_nil_inv in Hp. }
  change (r <| _output_token_ids ::= fun l => l ++ [x] |> <| _all_token_ids ::= fun l => l ++ [x] |>)
    with (extend r [x]).
  destruct (check_stop (extend r [x]) max_len) as [r1 stop1] eqn:E1. destruct stop1.
  - pose proof (check_stop_true (extend r [x]) max_len) as Ht. rewrite E1 in Ht.
    split_and!; [by apply prefix_cons, prefix_nil| |done|by rewrite E1|by apply Ht].
    intros k Hk Hp Hne. destruct k as [|y k]; [done|].
    apply prefix_cons_inv_1 in Hp as Hy. apply prefix_cons_inv_2 in Hp. subst y.
    apply prefix_nil_inv in Hp. by subst k.
  - pose proof (check_stop_false (extend r [x]) max_len) as Hf. rewrite E1 in Hf. simpl in Hf.
    rewrite Hf by done. specialize (IH (extend r [x])).
    destruct (append_tokens max_len (extend r [x]) tokens) as [[r' kept] stopped].
    destruct IH as (Hpre & Hshort & Hend).
    split_and!; [by apply prefix_cons| |].
    + intros k Hk Hp Hne. destruct k as [|y k]; [done|].
      apply prefix_cons_inv_1 in Hp as Hy. apply prefix_cons_inv_2 in Hp. subst y.
      destruct (decide (k = [])) as [->|Hk']; [by rewrite E1|].
      specialize (Hshort k Hk' Hp). rewrite extend_extend in Hshort. apply Hshort. congruence.
    + rewrite !extend_extend in Hend. destruct stopped.
      * destruct Hend as (? & ? & ?). split_and!; auto.
      * destruct Hend as (-> & -> & Hend). split_and!; auto. intros _.
        destruct (decide (tokens = [])) as [->|]; [by rewrite E1|auto].
Qed.

(** ** Draft tokens in an output *)

(** What the two updates of one draft amount to. *)
Lemma fit_draft_spec s id spec ph :
  (forall e r ts, so_validate_tokens e r ts `prefix_of` ts) ->
  exists ok, ok `prefix_of` spec /\ (length ok <= length ph)%nat /\
    fit_draft s id spec ph = ok ++ replicate (length ph - length ok) (-1) /\
    num_invalid s id spec ph = Z.of_nat (length ph - length ok).
Proof.
  intros Hv. unfold fit_draft, num_invalid.
  set (ok := if so_should_advance _ _ then _ else _).
  assert (ok `prefix_of` take (length ph) spec) as Hok.
  { unfold ok. break_if; [apply Hv|done]. }
  assert (length ok <= length ph)%nat.
  { apply prefix_length in Hok. rewrite length_take in Hok. lia. }
  exists ok. split_and!; [|done|done|lia].
  etransitivity; [exact Hok|]. apply prefix_take.
Qed.

(** The draft of [id] that counts: the request is tracked and live. *)
Definition draft_live s id : bool :=
  bool_decide (id ∈ requests s) && negb (is_finished (status (req s id))).

Lemma set_draft_in_output_get s d inv id spec id' :
  let '(d', inv') := set_draft_in_output s (d, inv) (id, spec) in
  dkeys d' = dkeys d /\
  dget d' id' = match dget d id' with
                | Some (p :: ph) => if bool_decide (id = id') && draft_live s id
                                    then Some (fit_draft s id spec (p :: ph)) else Some (p :: ph)
                | x => x
                end /\
  dget inv' id' = match dget d id' with
                  | Some (p :: ph) =>
                      if bool_decide (id = id') && draft_live s id
                         && negb (num_invalid s id spec (p :: ph) =? 0)
                      then Some (num_invalid s id spec (p :: ph)) else dget inv id'
                  | _ => dget inv id'
                  end.
Proof.
  unfold set_draft_in_output, draft_live.
  destruct (bool_decide_reflect (id ∈ requests s)) as [Hin|Hin];
    [rewrite (bool_decide_eq_false_2 (id ∉ requests s)) by (by intros ?)
    |rewrite (bool_decide_eq_true_2 (id ∉ requests s)) by done]; simpl;
    [|rewrite andb_false_r; simpl; split_and!; [done|by repeat case_match..]].
  destruct (is_finished (status (req s id))); simpl;
    [rewrite andb_false_r; simpl; split_and!; [done|by repeat case_match..]|].
  rewrite andb_true_r.
  destruct (dget d id) as [[|p ph]|] eqn:Ed.
  - split_and!; [done|..]; destruct (bool_decide_reflect (id = id')) as [<-|]; rewrite ?Ed; simpl;
      by repeat case_match.
  - split_and!.
    + rewrite dkeys_dset. rewrite bool_decide_eq_true_2; [done|]. apply dget_is_Some. by rewrite Ed.
    + rewrite dget_dset. destruct (bool_decide_reflect (id = id')) as [<-|Hne];
        [by rewrite Ed|by repeat case_match].
    + destruct (num_invalid s id spec (p :: ph) =? 0) eqn:En; simpl; [|rewrite dget_dset];
        destruct (bool_decide_reflect (id = id')) as [<-|Hne]; rewrite ?Ed, ?En; simpl;
        done || by repeat case_match.
  - split_and!; [done|..]; destruct (bool_decide_reflect (id = id')) as [<-|]; rewrite ?Ed; simpl;
      by repeat case_match.
Qed.

(** The draft that replaces the placeholders of [id], if there is one. *)
Definition draft_for s (drafts : dict (list Z)) id : option (list Z) :=
  if draft_live s id then dget drafts id else None.

Lemma set_drafts_get s (drafts : dict (list Z)) d inv id' :
  dwf drafts ->
  let '(d', inv') := fold_left (set_draft_in_output s) drafts (d, inv) in
  dkeys d' = dkeys d /\
  match dget d id', draft_for s drafts id' with
  | Some (p :: ph), Some spec =>
      dget d' id' = Some (fit_draft s id' spec (p :: ph)) /\
      dget inv' id' = let k := num_invalid s id' spec (p :: ph) in
                      if negb (k =? 0) then Some k else dget inv id'
  | x, _ => dget d' id' = x /\ dget inv' id' = dget inv id'
  end.
Proof.
  revert d inv. induction drafts as [|[id spec] drafts IH]; intros d inv Hwf.
  { cbn [fold_left]. split; [done|]. unfold draft_for. simpl. repeat case_match; done. }
  apply NoDup_cons in Hwf as [Hid Hwf]. change (id ∉ dkeys drafts) in Hid.
  apply dget_None in Hid. cbn [fold_left].
  pose proof (set_draft_in_output_get s d inv id spec id') as Hstep.
  destruct (set_draft_in_output s (d, inv) (id, spec)) as [d1 inv1].
  destruct Hstep as (Hk & Hd & Hi). specialize (IH d1 inv1 Hwf).
  destruct (fold_left (set_draft_in_output s) drafts (d1, inv1)) as [d' inv'].
  destruct IH as [IHk IH]. split; [congruence|].
  unfold draft_for in *. cbn [dget].
  destruct (bool_decide_reflect (id = id')) as [<-|Hne]; simpl in Hd, Hi.
  - rewrite Hid in IH. destruct (draft_live s id); simpl in Hd, Hi;
      destruct (dget d id) as [[|p ph]|]; rewrite Hd, ?Hi in IH; try destruct IH as [IH1 IH2];
      try (split; congruence).
    destruct (fit_draft s id spec (p :: ph)); exact IH.
  - assert (dget d1 id' = dget d id') as Hd' by (rewrite Hd; by repeat case_match).
    assert (dget inv1 id' = dget inv id') as Hi' by (rewrite Hi; by repeat case_match).
    rewrite Hd', Hi' in IH. exact IH.
Qed.

(** Draft shape: whatever the drafter returned, the step output keeps one
    draft list per request with the length it was scheduled with; the list of
    a live tracked request that has a draft becomes a prefix of that draft
    padded with -1, the number of padding entries is what the output reports
    as invalid, and every other list is untouched. *)
Theorem draft_output_keeps_shape (drafts : dict (list Z)) (o : SchedulerOutput) s id ph :
  (forall e r ts, so_validate_tokens e r ts `prefix_of` ts) -> dwf drafts ->
  dget (o_scheduled_spec_decode_tokens o) id = Some ph ->
  let o' := update_draft_token_ids_in_output drafts o s in
  dkeys (o_scheduled_spec_decode_tokens o') = dkeys (o_scheduled_spec_decode_tokens o) /\
  exists ph', dget (o_scheduled_spec_decode_tokens o') id = Some ph' /\ length ph' = length ph /\
    match draft_for s drafts id with
    | Some spec => exists ok, ok `prefix_of` spec /\
        ph' = ok ++ replicate (length ph - length ok) (-1) /\
        default 0 (dget (o_num_invalid_spec_tokens o') id) = Z.of_nat (length ph - length ok)
    | None => ph' = ph /\ dget (o_num_invalid_spec_tokens o') id = None
    end.
Proof.
  intros Hv Hwf Hph. unfold update_draft_token_ids_in_output.
  pose proof (set_drafts_get s drafts (o_scheduled_spec_decode_tokens o) [] id Hwf) as Hg.
  destruct (fold_left _ drafts _) as [d' inv']. simpl. destruct Hg as [Hk Hg].
  split; [exact Hk|]. rewrite Hph in Hg. destruct ph as [|p ph].
  { destruct Hg as [-> ->]. exists []. split_and!; auto.
    destruct (draft_for s drafts id) as [spec|]; [|done].
    exists []. split_and!; [apply prefix_nil|done..]. }
  destruct (draft_for s drafts id) as [spec|].
  - destruct Hg as [Hd Hi]. destruct (fit_draft_spec s id spec (p :: ph) Hv) as (ok & Hp & Hle & Hf & Hn).
    exists (fit_draft s id spec (p :: ph)). split_and!; [done| |].
    + rewrite Hf, length_app, length_replicate. lia.
    + exists ok. split_and!; [done|done|]. rewrite Hi. cbv zeta. rewrite Hn.
      destruct (Z.eqb_spec (Z.of_nat (length (p :: ph) - length ok)) 0) as [Hz|Hz]; [exact (eq_sym Hz)|done].
  - destruct Hg as [-> ->]. by exists (p :: ph).
Qed.

(** ** Failed KV loads *)

(** The tokens of a request computed before this step, and the blocks that
    hold them. *)
Definition external_tokens s (num_scheduled : dict Z) id : Z :=
  num_computed_tokens (req s id) - default 0 (dget num_scheduled id).

Definition scanned_blocks cfg s (num_scheduled : dict Z) id : list Z :=
  take (Z.to_nat ((external_tokens s num_scheduled id + block_size cfg - 1) / block_size cfg))
       (concat (kv_get_block_ids (env s) id)).

(** The state of the scan after the blocks [l]. *)
Record scan_ok cfg (invalid m0 : gset Z) (c0 : Z) (l : list Z) (st : block_scan) : Prop := {
  so_affected : bs_affected st = true <-> exists b, b ∈ l /\ b ∈ invalid;
  so_ids : forall b, b ∈ bs_marked_ids st <-> b ∈ m0 \/ (b ∈ l /\ b ∈ invalid);
  so_first : if bs_marked st
    then exists i b, l !! i = Some b /\ b ∈ invalid /\ b ∉ m0 /\
         (forall j b', (j < i)%nat -> l !! j = Some b' -> b' ∈ invalid -> b' ∈ m0) /\
         bs_computed st = Z.of_nat i * block_size cfg
    else bs_computed st = c0 /\ forall b, b ∈ l -> b ∈ invalid -> b ∈ m0
}.

Lemma scan_block_ok cfg invalid evict computed blocks m0 c0 l st b :
  scan_ok cfg invalid m0 c0 l st ->
  scan_ok cfg invalid m0 c0 (l ++ [b]) (scan_block cfg invalid evict computed blocks st (length l, b)).
Proof.
  intros [Ha Hi Hf].
  assert (Hkeep : b ∉ invalid \/ b ∈ bs_marked_ids st \/ bs_marked st = true ->
    if bs_marked st
    then exists i b0, (l ++ [b]) !! i = Some b0 /\ b0 ∈ invalid /\ b0 ∉ m0 /\
         (forall j b', (j < i)%nat -> (l ++ [b]) !! j = Some b' -> b' ∈ invalid -> b' ∈ m0) /\
         bs_computed st = Z.of_nat i * block_size cfg
    else bs_computed st = c0 /\ forall b0, b0 ∈ l ++ [b] -> b0 ∈ invalid -> b0 ∈ m0).
  { intros Hcase. destruct (bs_marked st).
    - destruct Hf as (i & b0 & Hl & Hb & Hm & Hj & Hc). exists i, b0. split_and!; auto.
      + by apply lookup_app_l_Some.
      + intros j b' Hlt Hl'. apply lookup_lt_Some in Hl as Hlen.
        rewrite lookup_app_l in Hl' by lia. by apply Hj with j.
    - destruct Hf as [Hc Hall]. split; [done|]. intros b0 Hin Hb0.
      apply elem_of_app in Hin as [Hin|Hin]; [auto|]. apply list_elem_of_singleton in Hin as ->.
      destruct Hcase as [Hn|[Hin|]]; [done| |done].
      apply Hi in Hin as [|[Hin _]]; auto. }
  unfold scan_block. destruct (bool_decide_reflect (b ∉ invalid)) as [Hn|Hn]; simpl.
  - constructor; [| |by apply Hkeep; left]; intros *; [rewrite Ha|rewrite Hi]; set_solver.
  - destruct (decide (b ∈ invalid)) as [Hb|]; [|done]. clear Hn.
    destruct (bool_decide_reflect (b ∈ bs_marked_ids st)) as [Hin|Hin]; simpl.
    + constructor; simpl; [set_solver| |by apply Hkeep; right; left].
      intros b0. apply Hi in Hin as Hin'. rewrite Hi. set_solver.
    + destruct (bs_marked st) eqn:Em; simpl.
      * constructor; simpl; [set_solver| |by apply Hkeep; right; right].
        intros b0. rewrite elem_of_union, Hi. set_solver.
      * constructor; simpl; [set_solver| |].
        { intros b0. rewrite elem_of_union, Hi. set_solver. }
        destruct Hf as [_ Hall]. exists (length l), b. split_and!; auto.
        -- by rewrite lookup_app_r, Nat.sub_diag by lia.
        -- rewrite Hi in Hin. tauto.
        -- intros j b' Hlt Hl'. rewrite lookup_app_l in Hl' by lia.
           apply Hall. by eapply list_elem_of_lookup_2.
Qed.

Lemma scan_blocks_ok cfg invalid evict computed blocks m0 c0 pre n l st :
  scan_ok cfg invalid m0 c0 pre st ->
  scan_ok cfg invalid m0 c0 (pre ++ take n l)
    (fold_left (scan_block cfg invalid evict computed blocks) (combine (seq (length pre) n) l) st).
Proof.
  revert pre l st. induction n as [|n IH]; intros pre l st Hok; [by rewrite app_nil_r|].
  destruct l as [|b l]; [by rewrite app_nil_r|]. cbn [seq combine fold_left take].
  specialize (IH (pre ++ [b]) l _ (scan_block_ok _ _ evict computed blocks _ _ _ _ b Hok)).
  rewrite length_app, <-List.app_assoc in IH. simpl in IH. by rewrite Nat.add_1_r in IH.
Qed.

(** The state after the requests [ids] were scanned from [s0]. *)
Record scanned cfg (invalid : gset Z) num_scheduled s0 (ids : list string)
    (x : sched E Q * invalid_acc) : Prop := {
  sc_env : env (fst x) = env s0;
  sc_rest : forall id, id ∉ ids -> req (fst x) id = req s0 id;
  sc_affected : forall id, id ∈ ia_affected (snd x) <->
    id ∈ ids /\ exists b, b ∈ scanned_blocks cfg s0 num_scheduled id /\ b ∈ invalid;
  sc_computed : forall id, id ∈ ids ->
    if bool_decide (id ∈ ia_affected (snd x))
    then num_computed_tokens (req (fst x) id) <= external_tokens s0 num_scheduled id
    else req (fst x) id = req s0 id;
  sc_marked : forall id b, id ∈ ids -> b ∈ scanned_blocks cfg s0 num_scheduled id -> b ∈ invalid ->
    b ∈ ia_marked (snd x);
  sc_recompute : forall b, b ∈ ia_marked (snd x) ->
    exists id k, id ∈ ia_affected (snd x) /\ scanned_blocks cfg s0 num_scheduled id !! k = Some b /\
      num_computed_tokens (req (fst x) id) <= Z.of_nat k * block_size cfg
}.

Lemma block_before_end (e bs : Z) i n :
  0 < bs -> (i < n)%nat -> (n <= Z.to_nat ((e + bs - 1) / bs))%nat -> Z.of_nat i * bs < e.
Proof.
  intros Hbs Hi Hn. assert (Z.of_nat i + 1 <= (e + bs - 1) / bs) by lia.
  pose proof (Z.mul_div_le (e + bs - 1) bs Hbs). nia.
Qed.

(** One request: what the scan leaves in the request and the accumulators. *)
Lemma scan_request_spec cfg invalid ns evict s a id s' a' :
  0 < block_size cfg -> scan_request cfg invalid ns evict (s, a) id = Ok (s', a') ->
  let blocks := scanned_blocks cfg s ns id in
  env s' = env s /\ (forall id', id' <> id -> req s' id' = req s id') /\
  (forall b, b ∈ ia_marked a' <-> b ∈ ia_marked a \/ (b ∈ blocks /\ b ∈ invalid)) /\
  if bool_decide (Exists (fun b => b ∈ invalid) blocks)
  then ia_affected a' = {[id]} ∪ ia_affected a /\
       num_computed_tokens (req s' id) <= external_tokens s ns id /\
       ((forall b, b ∈ blocks -> b ∈ invalid -> b ∈ ia_marked a) \/
        exists i, num_computed_tokens (req s' id) = Z.of_nat i * block_size cfg /\
          forall j b, blocks !! j = Some b -> b ∈ invalid -> b ∉ ia_marked a -> (i <= j)%nat)
  else s' = s /\ ia_affected a' = ia_affected a.
Proof.
  intros Hbs Hrun blocks. unfold scan_request in Hrun.
  destruct (kv_get_block_ids (env s) id) as [|bl [|]] eqn:Ebl; try done.
  set (n := Z.to_nat ((external_tokens s ns id + block_size cfg - 1) / block_size cfg)).
  assert (blocks = take n bl) as Eblocks.
  { unfold blocks, scanned_blocks. rewrite Ebl. simpl. by rewrite app_nil_r. }
  change (num_computed_tokens (req s id) - default 0 (dget ns id)) with (external_tokens s ns id) in Hrun.
  pose proof (scan_blocks_ok cfg invalid evict (external_tokens s ns id) bl (ia_marked a)
    (num_computed_tokens (req s id)) [] n bl
    (mkScan false false (ia_marked a) (num_computed_tokens (req s id)) (ia_tokens a) (ia_evict a))) as Hok.
  simpl length in Hok. fold n in Hrun.
  set (st := fold_left _ _ _) in Hok, Hrun.
  rewrite app_nil_l, <-Eblocks in Hok.
  destruct Hok as [Haff Hids Hfirst].
  { clear. constructor; simpl; [|set_solver|split; [done|set_solver]].
    split; [done|]. intros (? & Hin & _). by apply not_elem_of_nil in Hin. }
  rewrite <-list.Exists_exists in Haff.
  destruct (bool_decide_reflect (Exists (fun b => b ∈ invalid) blocks)) as [Hex|Hex].
  - rewrite (proj2 Haff Hex) in Hrun.
    destruct (bs_marked st) eqn:Em; simpl in Hrun; injection Hrun as <- <-; simpl.
    + destruct Hfirst as (i & b & Hl & Hb & Hm & Hj & Hc).
      split_and!; [done|by intros; apply req_upd_ne|done|done| |].
      * rewrite req_upd_eq. simpl. rewrite Hc.
        assert (i < length blocks)%nat as Hi by (by apply lookup_lt_Some in Hl).
        assert (length blocks <= n)%nat as Hn by (rewrite Eblocks, length_take; lia).
        pose proof (block_before_end _ _ _ _ Hbs Hi Hn). lia.
      * right. exists i. rewrite req_upd_eq. split; [exact Hc|].
        intros j b' Hlj Hb' Hm'. destruct (decide (i <= j)%nat); [done|].
        exfalso. apply Hm', (Hj j); [lia|done|done].
    + split_and!; [done|by intros; apply req_upd_ne|done|done| |].
      * rewrite req_upd_eq. simpl. lia.
      * left. apply Hfirst.
  - destruct (bs_affected st) eqn:Eaff; [by destruct Hex; apply Haff|].
    injection Hrun as <- <-. simpl. split_and!; auto.
Qed.

Lemma scan_request_scanned cfg invalid ns evict s0 ids x id x' :
  0 < block_size cfg -> id ∉ ids -> scanned cfg invalid ns s0 ids x ->
  scan_request cfg invalid ns evict x id = Ok x' -> scanned cfg invalid ns s0 (ids ++ [id]) x'.
Proof.
  destruct x as [s a], x' as [s' a']. intros Hbs Hid [He Hr Ha Hc Hm Hrec] Hrun. simpl in *.
  destruct (scan_request_spec _ _ _ _ _ _ _ _ _ Hbs Hrun) as (He' & Hne & Hmk & Hcase). clear Hrun.
  assert (scanned_blocks cfg s ns id = scanned_blocks cfg s0 ns id) as Eb.
  { unfold scanned_blocks, external_tokens. by rewrite He, (Hr id Hid). }
  assert (external_tokens s ns id = external_tokens s0 ns id) as Ee.
  { unfold external_tokens. by rewrite (Hr id Hid). }
  rewrite Eb, Ee in *.
  assert (id ∉ ia_affected a) as Hna by (rewrite Ha; tauto).
  assert (forall id', id' ∈ ids -> id' <> id) as Hneq by (intros ? ? ->; done).
  constructor; simpl.
  - congruence.
  - intros id' [Hid' Hn]%not_elem_of_app. rewrite Hne; [by apply Hr|].
    intros ->. apply Hn. left.
  - intros id'. rewrite elem_of_app, list_elem_of_singleton.
    destruct (bool_decide_reflect (Exists (fun b => b ∈ invalid) (scanned_blocks cfg s0 ns id))) as [Hex|Hex];
      rewrite list.Exists_exists in Hex.
    + destruct Hcase as [-> _]. rewrite elem_of_union, elem_of_singleton, Ha.
      clear -Hex. naive_solver.
    + destruct Hcase as [_ ->]. rewrite Ha. clear -Hex. naive_solver.
  - intros id' Hid'. apply elem_of_app in Hid' as [Hid'|Hid'].
    + specialize (Hc id' Hid'). rewrite (Hne id' (Hneq _ Hid')).
      assert (id' ∈ ia_affected a' <-> id' ∈ ia_affected a) as Heq.
      { specialize (Hneq _ Hid'). destruct (bool_decide (Exists _ _)); [destruct Hcase as [-> _]|destruct Hcase as [_ ->]]; set_solver. }
      by rewrite (bool_decide_ext _ _ Heq).
    + apply list_elem_of_singleton in Hid' as ->. destruct (bool_decide (Exists _ _)).
      * destruct Hcase as (-> & Hle & _). by rewrite bool_decide_eq_true_2 by set_solver.
      * destruct Hcase as [-> ->]. rewrite bool_decide_eq_false_2 by done. by apply Hr.
  - intros id' b Hid' Hb Hinv. apply Hmk. apply elem_of_app in Hid' as [Hid'|Hid'].
    + left. by apply (Hm id').
    + apply list_elem_of_singleton in Hid' as ->. by right.
  - intros b Hb. apply Hmk in Hb.
    assert (b ∈ ia_marked a \/ (b ∉ ia_marked a /\ b ∈ scanned_blocks cfg s0 ns id /\ b ∈ invalid)) as Hb'
      by (destruct (decide (b ∈ ia_marked a)); tauto). clear Hb. destruct Hb' as [Hb|(Hnb & Hb & Hinv)].
    + destruct (Hrec b Hb) as (id' & k & Haff & Hk & Hle).
      exists id', k. assert (id' ∈ ids) as Hin by (by apply Ha in Haff as [? _]).
      split_and!; [|done|by rewrite (Hne id' (Hneq _ Hin))].
      destruct (bool_decide (Exists _ _)); [destruct Hcase as [-> _]|destruct Hcase as [_ ->]]; set_solver.
    + assert (Exists (fun b => b ∈ invalid) (scanned_blocks cfg s0 ns id)) as Hex
        by (apply list.Exists_exists; eauto).
      rewrite bool_decide_eq_true_2 in Hcase by done.
      destruct Hcase as (-> & _ & [Hall|(i & Hi & Hall)]); [by specialize (Hall b Hb Hinv)|].
      apply list_elem_of_lookup_1 in Hb as [k Hk]. exists id, k.
      split_and!; [set_solver|done|]. rewrite Hi. specialize (Hall k b Hk Hinv Hnb). nia.
Qed.

Lemma scanned_nil cfg invalid ns s : scanned cfg invalid ns s [] (s, mkInvalid ∅ 0 ∅ ∅).
Proof. constructor; simpl; try done; set_solver. Qed.

(** C6 (invalid blocks): after blocks failed to load, exactly the scanned
    requests that use one of them are affected; an unaffected request is
    untouched and an affected one claims at most the tokens computed before
    this step; and every failed block in use lies at or beyond the computed
    tokens of some affected request that uses it, so it is recomputed. *)
Theorem invalid_blocks_recomputed cfg ids invalid ns evict s s' a :
  0 < block_size cfg -> NoDup ids ->
  _update_requests_with_invalid_blocks cfg ids invalid ns evict s = Ok (s', a) ->
  (forall id, id ∈ ia_affected a <->
     id ∈ ids /\ exists b, b ∈ scanned_blocks cfg s ns id /\ b ∈ invalid) /\
  (forall id, id ∉ ia_affected a -> req s' id = req s id) /\
  (forall id, id ∈ ia_affected a -> num_computed_tokens (req s' id) <= external_tokens s ns id) /\
  (forall id b, id ∈ ids -> b ∈ scanned_blocks cfg s ns id -> b ∈ invalid ->
     exists id' k, id' ∈ ia_affected a /\ scanned_blocks cfg s ns id' !! k = Some b /\
       num_computed_tokens (req s' id') <= Z.of_nat k * block_size cfg).
Proof.
  intros Hbs Hnd Hrun. unfold _update_requests_with_invalid_blocks in Hrun.
  assert (Hgen : forall todo done x x', NoDup (done ++ todo) -> scanned cfg invalid ns s done x ->
    rfold (scan_request cfg invalid ns evict) x todo = Ok x' -> scanned cfg invalid ns s (done ++ todo) x').
  { induction todo as [|id todo IH]; intros done x x' Hn Hx; simpl; [intros [= <-]; by rewrite app_nil_r|].
    destruct (scan_request cfg invalid ns evict x id) as [x1|] eqn:E1; simpl; [|done]. intros Hx'.
    replace (done ++ id :: todo) with ((done ++ [id]) ++ todo) in * by (by rewrite <-List.app_assoc).
    eapply IH; [done| |exact Hx'].
    apply NoDup_app in Hn as (Hn & _ & _). apply NoDup_app in Hn as (_ & Hn & _).
    eapply scan_request_scanned; [done| |exact Hx|exact E1].
    intros Hin. apply (Hn id Hin). by left. }
  destruct (Hgen ids [] _ _ Hnd (scanned_nil cfg invalid ns s) Hrun)
    as [_ Hr Ha Hc Hm Hrec].
  simpl in *. split_and!.
  - exact Ha.
  - intros id Hid. destruct (decide (id ∈ ids)) as [Hin|]; [|by apply Hr].
    specialize (Hc id Hin). by rewrite bool_decide_eq_false_2 in Hc by done.
  - intros id Hid. apply Ha in Hid as Hin. specialize (Hc id (proj1 Hin)).
    by rewrite bool_decide_eq_true_2 in Hc by done.
  - intros id b Hin Hb Hinv. apply Hrec, (Hm id); done.
Qed.

End Output.

#[local] Existing Instances Mini.queue Mini.queue_laws Mini.services Mini.services_laws.

(** Both requests hold the blocks 10 to 13; block 11 fails to load. *)
Definition example_failed : sched Z (list string) :=
  Mini.sched_of 3 [Mini.request_of "a" RUNNING 20 16; Mini.request_of "b" RUNNING 20 18] [].

Lemma invalid_blocks_recomputed_witness :
  exists s' a,
    _update_requests_with_invalid_blocks (B := list (list Z)) Mini.cfg ["a"; "b"]%string {[11]} [("b"%string, 2)] true example_failed
      = Ok (s', a) /\
    (forall id, id ∉ ia_affected a -> req s' id = req example_failed id) /\
    num_computed_tokens (req s' "a") = 4 /\ num_computed_tokens (req s' "b") = 16.
Proof.
  destruct (_update_requests_with_invalid_blocks (B := list (list Z)) Mini.cfg ["a"; "b"]%string {[11]} [("b"%string, 2)] true example_failed)
    as [[s' a]|] eqn:E0; [|vm_compute in E0; discriminate].
  exists s', a. split; [reflexivity|]. split.
  - exact (proj1 (proj2 (invalid_blocks_recomputed Mini.cfg ["a"; "b"]%string {[11]} [("b"%string, 2)] true
      example_failed s' a ltac:(reflexivity) ltac:(apply (bool_decide_unpack _); vm_compute; exact I) E0))).
  - vm_compute in E0. injection E0 as <- _. split; reflexivity.
Defined.

Lemma draft_output_keeps_shape_witness :
  let o := mkOutput [] (mkCached [] ∅ [] [] [] [] []) [] 0 [("a"%string, [0; 0; 0])] [] [] ∅ ∅ None None 0 false [] in
  let o' := update_draft_token_ids_in_output (B := list (list Z)) [("a"%string, [7; 8])] o example_failed in
  dget (o_scheduled_spec_decode_tokens o') "a" = Some [7; 8; -1] /\
  dkeys (o_scheduled_spec_decode_tokens o') = ["a"%string].
Proof.
  intros o o'. split; [vm_compute; reflexivity|].
  refine (proj1 (draft_output_keeps_shape [("a"%string, [7; 8])] o example_failed "a" [0; 0; 0] _ _ _)).
  - intros e r ts. exact (reflexivity ts).
  - apply (bool_decide_unpack _). vm_compute. exact I.
  - reflexivity.
Defined.

(** A request of three tokens stops at a length of five. *)
Lemma output_keeps_shortest_stop_witness :
  let '(r, kept, stopped) := append_tokens (B := list (list Z)) 5 (Mini.request_of "a" RUNNING 3 3) [7; 8; 9] in
  kept = [7; 8] /\ stopped = true /\ kept `prefix_of` [7; 8; 9].
Proof.
  pose proof (output_keeps_shortest_stop (B := list (list Z)) 5 (Mini.request_of "a" RUNNING 3 3) [7; 8; 9]) as Ho.
  destruct (append_tokens (B := list (list Z)) 5 (Mini.request_of "a" RUNNING 3 3) [7; 8; 9])
    as [[r kept] stopped] eqn:E0.
  split; [|split]; [..|exact (proj1 Ho)]; vm_compute in E0; by injection E0 as _ <- <-.
Defined.
