(* ===== verification/SchedSessions.v ===== *)
(** * Requests that end and sessions that go on

    Theorems about [SchedUpdate]: [finish_requests] takes exactly the live
    tracked requests out of every queue; the next input chunk of a streaming
    session; the count of sessions that wait for input; the reset of the
    prefix cache. *)
From S2P Require Export SchedOutput.
Import PyDict PyList.

Section Sessions.
Context {E B Q : Type} `{RequestQueue Q} `{!RequestQueueLaws Q}.
Context `{Services E B} `{!ServicesLaws E B}.
Implicit Types (cfg : config) (s : sched E Q) (id : string).

(** ** [_free_request] touches neither the objects nor the queues *)

Record freed id s s' : Prop := {
  fr_objs : objs s' = objs s;
  fr_running : running s' = running s;
  fr_waiting : waiting s' = waiting s;
  fr_skipped : skipped_waiting s' = skipped_waiting s;
  fr_streaming : num_waiting_for_streaming_input s' = num_waiting_for_streaming_input s;
  fr_requests : requests s' = requests s \/ requests s' = requests s ∖ {[id]};
  fr_finished : finished_req_ids s' = {[id]} ∪ finished_req_ids s
}.

Lemma connector_finished_env cfg id s s' d :
  _connector_finished cfg id s = Ok (s', d) -> exists e, s' = s <| env := e |>.
Proof.
  unfold _connector_finished. destruct (connector cfg); simpl.
  - intros Hrun. destruct (connector_supports_hma cfg); simpl in Hrun.
    + destruct (conn_request_finished _ _ _) as [e d']. injection Hrun as <- _. by eexists.
    + unfold require in Hrun. destruct (_ =? 1); simpl in Hrun; [|done].
      destruct (kv_get_block_ids_for_computed_tokens _ _ _); simpl in Hrun; [done|].
      destruct (conn_request_finished _ _ _) as [e d']. injection Hrun as <- _. by eexists.
  - intros [= <- _]. exists (env s). by destruct s.
Qed.

Lemma free_blocks_spec cfg id s s' :
  _free_blocks cfg id s = Ok s' ->
  exists e d, s' = s <| env := e |> <| deferred_frees := d |> <| requests ::= fun X => X ∖ {[id]} |>.
Proof.
  unfold _free_blocks, require. destruct (is_finished _); simpl; [|done].
  destruct (free_request_blocks_spec cfg id s) as (e & d & -> & _).
  destruct (bool_decide _); simpl; [|done]. intros [= <-]. by exists e, d.
Qed.

Lemma free_request_freed cfg id d s s' :
  _free_request cfg id d s = Ok s' -> is_finished (status (req s id)) = true /\ freed id s s'.
Proof.
  unfold _free_request, require. destruct (is_finished (status (req s id))) eqn:Hfin; simpl; [|done].
  intros Hrun. split; [done|].
  destruct (_connector_finished _ _ _) as [[s1 d1]|] eqn:E1; simpl in Hrun; [|done].
  apply connector_finished_env in E1 as (e & ->).
  set (x := if ec_connector cfg then _ else _) in Hrun.
  assert (exists e' d', x = ((s <| _inflight_prefills ::= fun X => X ∖ {[id]} |>) <| env := e' |>, d'))
    as (e' & d' & ->).
  { unfold x. destruct (ec_connector cfg); [|by do 2 eexists].
    destruct (ec_request_finished _ _). by do 2 eexists. }
  simpl in Hrun. destruct (d || d').
  - injection Hrun as <-. constructor; simpl; auto.
  - apply free_blocks_spec in Hrun as (e2 & d2 & ->). constructor; simpl; auto.
Qed.

Lemma freed_req id s s' id' : freed id s s' -> req s' id' = req s id'.
Proof. intros [Ho]. unfold req. by rewrite Ho. Qed.

(** ** [finish_requests] *)

Definition live s id : bool := bool_decide (id ∈ requests s) && negb (is_finished (status (req s id))).

Definition awaits_input s id : bool := bool_decide (status (req s id) = WAITING_FOR_STREAMING_REQ).

Definition count_if (p : string -> bool) (ids : list string) : Z :=
  Z.of_nat (length (List.filter p ids)).

Lemma dead_live s id :
  bool_decide (id ∉ requests s) || is_finished (status (req s id)) = negb (live s id).
Proof.
  unfold live. destruct (bool_decide_reflect (id ∈ requests s));
    [rewrite bool_decide_eq_false_2 by (by intros ?)|rewrite bool_decide_eq_true_2 by done]; simpl;
    [by rewrite negb_involutive|done].
Qed.

Lemma count_if_cons p id ids : count_if p (id :: ids) = (if p id then 1 else 0) + count_if p ids.
Proof. unfold count_if. simpl. destruct (p id); simpl; lia. Qed.

(** The first pass: what it collects, and the count it lowers. *)
Lemma finish_collect_spec ids s a :
  fold_left finish_collect ids (s, a) =
  (s <| num_waiting_for_streaming_input ::=
          fun n => n - count_if (fun id => live s id && awaits_input s id) ids |>,
   mkFinish (fa_running a ++ List.filter (fun id => live s id && bool_decide (status (req s id) = RUNNING)) ids)
            (fa_waiting a ++ List.filter (fun id => live s id && negb (bool_decide (status (req s id) = RUNNING))) ids)
            (fa_valid a ++ List.filter (live s) ids)).
Proof.
  revert s a. induction ids as [|id ids IH]; intros s a.
  { unfold count_if. simpl. rewrite !app_nil_r. destruct a, s; unfold setter; simpl.
    f_equal. f_equal. lia. }
  cbn [fold_left]. rewrite count_if_cons. unfold finish_collect at 2. rewrite dead_live.
  cbn [List.filter]. unfold awaits_input. destruct (live s id) eqn:Elive; simpl.
  - destruct (bool_decide_reflect (status (req s id) = RUNNING)) as [Hr|Hr]; simpl.
    + rewrite IH. rewrite bool_decide_eq_false_2 by congruence. simpl.
      rewrite <-!List.app_assoc. done.
    + destruct (bool_decide (status (req s id) = WAITING_FOR_STREAMING_REQ)) eqn:Ew; simpl;
        rewrite IH; simpl; rewrite <-!List.app_assoc; [|done].
      set (k := count_if (fun id => live s id && bool_decide (status (req s id) = WAITING_FOR_STREAMING_REQ)) ids).
      match goal with |- context [setter (fun n => n - count_if ?p ids) (setter _ _)] =>
        change (count_if p ids) with k end.
      f_equal. destruct s; unfold setter; simpl. f_equal. lia.
  - rewrite IH. done.
Qed.

(** What the second pass does to the rest of the state. *)
Record finished_all cfg (st : RequestStatus) (ids : list string) s s' : Prop := {
  fa_queues : running s' = running s /\ waiting s' = waiting s /\ skipped_waiting s' = skipped_waiting s;
  fa_count : num_waiting_for_streaming_input s' = num_waiting_for_streaming_input s;
  fa_req : forall id, req s' id = if bool_decide (id ∈ ids) then (req s id) <| status := st |> else req s id;
  fa_tracked : forall id, id ∈ requests s' -> id ∈ requests s;
  fa_others : forall id, id ∈ requests s -> id ∉ ids -> id ∈ requests s';
  fa_reported : finished_req_ids s' = list_to_set ids ∪ finished_req_ids s
}.

Lemma finish_one_spec cfg st s id s' :
  finish_one cfg st s id = Ok s' -> finished_all cfg st [id] s s'.
Proof.
  unfold finish_one. set (x := if bool_decide _ then _ else _).
  assert (exists A F d, x = ((s <| finished_recving_kv_req_ids := A |>) <| failed_recving_kv_req_ids := F |>, d))
    as (A & F & d & ->).
  { unfold x. destruct (bool_decide _); [by do 3 eexists|].
    exists (finished_recving_kv_req_ids s), (failed_recving_kv_req_ids s), false. by destruct s. }
  intros Hrun. apply free_request_freed in Hrun as (_ & Hfr).
  pose proof (freed_req _ _ _ id Hfr) as Hid.
  assert (forall id', id' <> id -> req s' id' = req s id') as Hne.
  { intros id' Hn. rewrite (freed_req _ _ _ id' Hfr). by rewrite req_upd_ne by done. }
  rewrite req_upd_eq in Hid. destruct Hfr as [_ Hr Hw Hs Hn Hreq Hfin]. simpl in *.
  constructor; [done|done| | | |].
  - intros id'. destruct (bool_decide_reflect (id' ∈ [id])) as [Hin|Hin].
    + by apply list_elem_of_singleton in Hin as ->.
    + apply Hne. set_solver.
  - intros id'. destruct Hreq as [-> | ->]; set_solver.
  - intros id'. destruct Hreq as [-> | ->]; set_solver.
  - rewrite Hfin. set_solver.
Qed.

Lemma finish_all_spec cfg st ids s s' :
  rfold (finish_one cfg st) s ids = Ok s' -> finished_all cfg st ids s s'.
Proof.
  revert s. induction ids as [|id ids IH]; intros s; simpl.
  { intros [= <-]. constructor; auto. set_solver. }
  destruct (finish_one cfg st s id) as [s1|] eqn:E1; simpl; [|done].
  apply finish_one_spec in E1 as [(Q1 & Q2 & Q3) C1 R1 T1 O1 F1].
  intros Hrun. apply IH in Hrun as [(Q1' & Q2' & Q3') C2 R2 T2 O2 F2].
  constructor.
  - split_and!; congruence.
  - congruence.
  - intros id'. rewrite R2, R1.
    destruct (bool_decide_reflect (id' ∈ ids)) as [Hin|Hin].
    + rewrite (bool_decide_eq_true_2 (id' ∈ id :: ids)) by (by right). by destruct (bool_decide _).
    + destruct (bool_decide_reflect (id' ∈ [id])) as [Hx|Hx].
      * apply list_elem_of_singleton in Hx as ->.
        by rewrite (bool_decide_eq_true_2 (id ∈ id :: ids)) by left.
      * rewrite (bool_decide_eq_false_2 (id' ∈ id :: ids)); [done|].
        intros [->|?]%elem_of_cons; [|done]. apply Hx. left.
  - auto.
  - intros id' Hin Hni. apply O2; [apply O1|]; set_solver.
  - rewrite F2, F1. simpl. set_solver.
Qed.

(** The queues hold running requests in [running] and no other there. *)
Definition queues_by_status s : Prop :=
  (forall id, id ∈ running s -> status (req s id) = RUNNING) /\
  (forall id, id ∈ q_list (waiting s) ++ q_list (skipped_waiting s) -> status (req s id) <> RUNNING).

Lemma filter_perm (p : string -> bool) l k : l ≡ₚ k -> List.filter p l ≡ₚ List.filter p k.
Proof.
  induction 1 as [|x l k ? IH|x y l|l1 l2 l3 ? IH1 ? IH2]; simpl; [done| | |by rewrite IH1].
  - by destruct (p x); [constructor|].
  - destruct (p x), (p y); try done. apply perm_swap.
Qed.

Lemma filter_swap (p q : string -> bool) l :
  (forall x, x ∈ l -> p x = q x) -> List.filter p l = List.filter q l.
Proof. intros Hpq. apply List.filter_ext_in. intros x Hx. by apply Hpq, list_elem_of_In. Qed.

Lemma filter_all (p : string -> bool) l : (forall x, x ∈ l -> p x = true) -> List.filter p l = l.
Proof.
  induction l as [|x l IH]; intros Hp; simpl; [done|].
  rewrite (Hp x) by left. f_equal. apply IH. intros y Hy. apply Hp. by right.
Qed.

Lemma unqueue_frame (R W : list string) s :
  objs (unqueue R W s) = objs s /\ requests (unqueue R W s) = requests s /\
  num_waiting_for_streaming_input (unqueue R W s) = num_waiting_for_streaming_input s.
Proof. unfold unqueue. by destruct (nonempty R), (nonempty W). Qed.

Lemma unqueue_running (R W : list string) s :
  running (unqueue R W s) = List.filter (fun id => bool_decide (id ∉ R)) (running s).
Proof.
  transitivity (if nonempty R then remove_all (running s) (list_to_set R) else running s).
  { unfold unqueue. by destruct (nonempty R), (nonempty W). }
  destruct R as [|x R]; simpl; [by rewrite filter_all|].
  rewrite remove_all_spec. apply filter_swap. intros y _. apply bool_decide_ext. set_solver.
Qed.

Lemma unqueue_waiting (R W : list string) s :
  q_list (waiting (unqueue R W s)) ≡ₚ List.filter (fun id => bool_decide (id ∉ W)) (q_list (waiting s)) /\
  q_list (skipped_waiting (unqueue R W s))
    ≡ₚ List.filter (fun id => bool_decide (id ∉ W)) (q_list (skipped_waiting s)).
Proof.
  unfold unqueue. destruct W as [|x W]; simpl.
  - by destruct (nonempty R); rewrite !filter_all.
  - destruct (nonempty R); split; apply q_remove_list.
Qed.

(** Running ids and waiting ids taken out of the queues where they are. *)
Lemma unqueue_held (ids R W : list string) s :
  queues_by_status s ->
  (forall id, id ∈ R <-> id ∈ ids /\ status (req s id) = RUNNING) ->
  (forall id, id ∈ W <-> id ∈ ids /\ status (req s id) <> RUNNING) ->
  held (unqueue R W s) ≡ₚ List.filter (fun id => bool_decide (id ∉ ids)) (held s).
Proof.
  intros [Hrun Hwait] HR HW. unfold held. rewrite !List.filter_app.
  destruct (unqueue_waiting R W s) as [-> ->]. rewrite unqueue_running.
  assert (forall x, x ∈ q_list (waiting s) ++ q_list (skipped_waiting s) ->
    bool_decide (x ∉ W) = bool_decide (x ∉ ids)) as Heq.
  { intros x Hx. apply bool_decide_ext. rewrite HW. specialize (Hwait x Hx). tauto. }
  setoid_rewrite elem_of_app in Heq.
  rewrite (filter_swap _ _ (q_list (waiting s)) (fun x Hx => Heq x (or_introl Hx))).
  rewrite (filter_swap _ _ (q_list (skipped_waiting s)) (fun x Hx => Heq x (or_intror Hx))).
  erewrite (filter_swap _ _ (running s)); [done|].
  intros x Hx. apply bool_decide_ext. rewrite HR. specialize (Hrun x Hx). tauto.
Qed.

(** C7 (finishing): [finish_requests] finishes exactly the live tracked requests
    among the given ones: their status becomes the given final one, they are
    reported as finished and are in no queue any more; every other request and
    every other queue position is left alone. *)
Theorem finish_requests_exact cfg ids st s s' valid :
  queues_by_status s -> finish_requests cfg ids st s = Ok (s', valid) ->
  is_finished st = true /\
  valid = List.filter (live s) ids /\
  (forall id, id ∈ valid -> status (req s' id) = st /\ id ∈ finished_req_ids s' /\ id ∉ held s') /\
  (forall id, id ∉ valid -> req s' id = req s id /\ (id ∈ requests s' <-> id ∈ requests s)) /\
  held s' ≡ₚ List.filter (fun id => bool_decide (id ∉ valid)) (held s).
Proof.
  intros Hqs. unfold finish_requests, require.
  destruct (is_finished st); simpl; [|done]. rewrite finish_collect_spec.
  cbn [fa_running fa_waiting fa_valid app].
  set (R := List.filter (fun id => live s id && bool_decide (status (req s id) = RUNNING)) ids).
  set (W := List.filter (fun id => live s id && negb (bool_decide (status (req s id) = RUNNING))) ids).
  set (V := List.filter (live s) ids).
  set (s1 := s <| num_waiting_for_streaming_input ::= _ |>).
  destruct (rfold (finish_one cfg st) (unqueue R W s1) V) as [s4|] eqn:E4; simpl; [|done].
  intros [= -> <-].
  apply finish_all_spec in E4 as [(Q1 & Q2 & Q3) _ Hreq Ht Ho Hrep].
  destruct (unqueue_frame R W s1) as (Eo & Et & _).
  assert (Hheld : held s' ≡ₚ List.filter (fun id => bool_decide (id ∉ V)) (held s)).
  { unfold held at 1. rewrite Q1, Q2, Q3. apply (unqueue_held V R W s1); [exact Hqs|..]; intros id.
    - unfold R, V. rewrite !list_elem_of_In, !filter_In, andb_true_iff, bool_decide_eq_true. simpl. tauto.
    - unfold W, V. rewrite !list_elem_of_In, !filter_In, andb_true_iff, negb_true_iff, bool_decide_eq_false.
      simpl. tauto. }
  assert (Hreq' : forall id, req s' id = if bool_decide (id ∈ V) then (req s id) <| status := st |> else req s id).
  { intros id. rewrite Hreq. unfold req at 1 2. by rewrite Eo. }
  split_and!; [done|done| | |exact Hheld].
  - intros id Hid. rewrite Hreq', bool_decide_eq_true_2 by done. simpl. split_and!; [done| |].
    + rewrite Hrep. set_solver.
    + rewrite Hheld, list_elem_of_In, filter_In. intros [_ Hn]. bool_prop. done.
  - intros id Hid. rewrite Hreq', bool_decide_eq_false_2 by done. split; [done|].
    change (requests s) with (requests s1). rewrite <-Et. split; [apply Ht|intros; by apply Ho].
Qed.

(** ** Sessions waiting for input *)

(** The tracked requests whose status says they wait for their next chunk. *)
Definition awaiting s : gset string :=
  filter (fun id => status (req s id) = WAITING_FOR_STREAMING_REQ) (requests s).

Definition streaming_ok s : Prop := num_waiting_for_streaming_input s = Z.of_nat (size (awaiting s)).

Lemma elem_of_awaiting s id :
  id ∈ awaiting s <-> status (req s id) = WAITING_FOR_STREAMING_REQ /\ id ∈ requests s.
Proof. unfold awaiting. by rewrite elem_of_filter. Qed.

Lemma size_remove (id : string) (X : gset string) :
  Z.of_nat (size (X ∖ {[id]})) = Z.of_nat (size X) - Z.b2z (bool_decide (id ∈ X)).
Proof.
  destruct (bool_decide_reflect (id ∈ X)) as [Hin|Hin]; simpl.
  - pose proof (size_union {[id]} (X ∖ {[id]}) ltac:(set_solver)) as Hs.
    rewrite size_singleton in Hs. replace ({[id]} ∪ X ∖ {[id]}) with X in Hs; [lia|].
    by apply union_difference_singleton_L.
  - replace (X ∖ {[id]}) with X by set_solver. lia.
Qed.

Lemma size_insert (id : string) (X : gset string) :
  Z.of_nat (size ({[id]} ∪ X)) = Z.of_nat (size X) + 1 - Z.b2z (bool_decide (id ∈ X)).
Proof.
  destruct (bool_decide_reflect (id ∈ X)) as [Hin|Hin]; simpl.
  - replace ({[id]} ∪ X) with X by set_solver. lia.
  - rewrite size_union by set_solver. rewrite size_singleton. lia.
Qed.

(** How one assignment moves the number of waiting sessions. *)
Lemma awaiting_upd id f s :
  id ∈ requests s ->
  Z.of_nat (size (awaiting (upd_req id f s))) =
    Z.of_nat (size (awaiting s)) - Z.b2z (awaits_input s id)
    + Z.b2z (bool_decide (status (f (req s id)) = WAITING_FOR_STREAMING_REQ)).
Proof.
  intros Hin. assert (awaits_input s id = bool_decide (id ∈ awaiting s)) as Haw.
  { apply bool_decide_ext. rewrite elem_of_awaiting. tauto. }
  assert (forall id', id' ∈ awaiting (upd_req id f s) <->
    if decide (id = id') then status (f (req s id)) = WAITING_FOR_STREAMING_REQ else id' ∈ awaiting s) as Hel.
  { intros id'. rewrite elem_of_awaiting, req_upd. simpl.
    destruct (decide (id = id')) as [<-|Hne]; [rewrite bool_decide_eq_true_2 by done; tauto|].
    rewrite bool_decide_eq_false_2 by done. by rewrite elem_of_awaiting. }
  rewrite Haw. destruct (bool_decide_reflect (status (f (req s id)) = WAITING_FOR_STREAMING_REQ)) as [Hs|Hs].
  - replace (awaiting (upd_req id f s)) with ({[id]} ∪ awaiting s).
    { rewrite size_insert. simpl. lia. }
    apply set_eq. intros id'. rewrite Hel. destruct (decide (id = id')); set_solver.
  - replace (awaiting (upd_req id f s)) with (awaiting s ∖ {[id]}).
    { rewrite size_remove. simpl. lia. }
    apply set_eq. intros id'. rewrite Hel. destruct (decide (id = id')); set_solver.
Qed.

(** The count, as the state stores it and as it should be. *)
Definition surplus s : Z := num_waiting_for_streaming_input s - Z.of_nat (size (awaiting s)).

Lemma surplus_ok s : streaming_ok s <-> surplus s = 0.
Proof. unfold streaming_ok, surplus. lia. Qed.

Lemma enqueue_surplus id s : surplus (_enqueue_waiting_request id s) = surplus s.
Proof. unfold _enqueue_waiting_request. by destruct (_is_blocked_waiting_status _). Qed.

Lemma session_surplus id u s :
  id ∈ requests s -> surplus (_update_request_as_session id u s) = surplus s.
Proof.
  intros Hin. unfold _update_request_as_session, surplus.
  destruct (bool_decide (status (req s id) = WAITING_FOR_STREAMING_REQ)) eqn:Ew.
  - rewrite awaiting_upd by done. unfold awaits_input.
    match goal with |- context [awaiting ?x] => change (awaiting x) with (awaiting s) end.
    match goal with |- context [Z.b2z (bool_decide (status (req ?x id) = _))] =>
      change (req x id) with (req s id) end.
    rewrite Ew. simpl. lia.
  - rewrite awaiting_upd by done. unfold awaits_input. rewrite Ew. simpl. lia.
Qed.

Lemma handle_stopped_surplus id s :
  id ∈ requests s -> awaits_input s id = false ->
  surplus (fst (_handle_stopped_request id s)) = surplus s.
Proof.
  intros Hin Hw. unfold _handle_stopped_request. destruct (resumable (req s id)); [|done]. simpl.
  assert (forall rest, surplus (upd_req id (fun r => r <| streaming_queue := Some rest |>) s) = surplus s) as Hq.
  { intros rest. unfold surplus. rewrite awaiting_upd, Hw by done. simpl.
    unfold awaits_input in Hw. rewrite Hw. simpl. lia. }
  destruct (default [] (streaming_queue (req s id))) as [|[u|] rest]; simpl.
  - rewrite enqueue_surplus. unfold surplus. simpl.
    match goal with |- context [awaiting ?x] =>
      change (awaiting x) with (awaiting (upd_req id (fun r => r <| status := WAITING_FOR_STREAMING_REQ |>) s)) end.
    rewrite awaiting_upd, Hw by done. simpl. lia.
  - rewrite enqueue_surplus, session_surplus by done. apply Hq.
  - apply Hq.
Qed.

Lemma freed_surplus id s s' :
  freed id s s' -> awaits_input s id = false -> surplus s' = surplus s.
Proof.
  intros Hfr Hw. unfold surplus. rewrite (fr_streaming _ _ _ Hfr). do 2 f_equal. f_equal.
  apply set_eq. intros id'. rewrite !elem_of_awaiting, (freed_req _ _ _ _ Hfr).
  destruct (fr_requests _ _ _ Hfr) as [-> | ->]; [done|].
  unfold awaits_input in Hw. bool_prop. destruct (decide (id' = id)) as [->|]; [tauto|set_solver].
Qed.

Lemma finish_surplus cfg ids st s s' valid :
  NoDup ids -> finish_requests cfg ids st s = Ok (s', valid) -> surplus s' = surplus s.
Proof.
  intros Hnd. unfold finish_requests, require.
  destruct (is_finished st) eqn:Hfin; simpl; [|done]. rewrite finish_collect_spec.
  cbn [fa_running fa_waiting fa_valid app].
  set (p := fun id => live s id && awaits_input s id).
  set (R := List.filter _ _). set (W := List.filter _ _). set (V := List.filter (live s) ids).
  set (s1 := s <| num_waiting_for_streaming_input ::= _ |>).
  destruct (rfold (finish_one cfg st) (unqueue R W s1) V) as [s4|] eqn:E4; simpl; [|done].
  intros [= -> <-].
  apply finish_all_spec in E4 as [_ Hn Hreq Ht Ho _].
  destruct (unqueue_frame R W s1) as (Eo & Et & En).
  unfold surplus. rewrite Hn, En. simpl.
  assert (Hp : forall id, p id = true <-> id ∈ awaiting s).
  { intros id. unfold p, live, awaits_input. rewrite elem_of_awaiting.
    rewrite !andb_true_iff, !bool_decide_eq_true, negb_true_iff. split; [tauto|].
    intros [Hst Hin]. split_and!; try done. rewrite Hst. apply is_finished_live. set_solver. }
  assert (Hst : st <> WAITING_FOR_STREAMING_REQ).
  { intros ->. rewrite is_finished_live in Hfin; [done|set_solver]. }
  set (F := List.filter p ids). unfold count_if. fold F.
  assert (HF : forall id, id ∈ F <-> id ∈ ids /\ id ∈ awaiting s).
  { intros id. unfold F. by rewrite list_elem_of_In, filter_In, <-list_elem_of_In, Hp. }
  assert (awaiting s = awaiting s' ∪ list_to_set F) as HA.
  { apply set_eq. intros id. rewrite elem_of_union, elem_of_list_to_set, HF.
    rewrite (elem_of_awaiting s'), Hreq. unfold req at 1 2. rewrite Eo.
    change (objs s1 !!! id) with (req s id).
    assert (id ∈ V <-> id ∈ ids /\ live s id = true) as HV.
    { unfold V. by rewrite list_elem_of_In, filter_In, <-list_elem_of_In. }
    assert (id ∈ awaiting s -> live s id = true) as Hl.
    { intros Hin. apply Hp in Hin. unfold p in Hin. by bool_prop. }
    specialize (Ht id). specialize (Ho id). rewrite Et in Ht, Ho.
    change (requests s1) with (requests s) in *.
    destruct (bool_decide_reflect (id ∈ V)) as [HiV|HiV]; simpl.
    - rewrite elem_of_awaiting in *. tauto.
    - rewrite elem_of_awaiting in *. destruct (decide (id ∈ ids)); tauto. }
  rewrite HA, size_union, size_list_to_set.
  - lia.
  - by apply NoDup_ListNoDup, List.NoDup_filter, NoDup_ListNoDup.
  - intros id Hin HinF. rewrite elem_of_list_to_set, HF in HinF. destruct HinF as [HinI Haw].
    rewrite elem_of_awaiting, Hreq in Hin. apply Hp in Haw as Hpt. unfold p in Hpt.
    apply andb_true_iff in Hpt as [Hl _].
    rewrite bool_decide_eq_true_2 in Hin; [by destruct Hin|].
    unfold V. by rewrite list_elem_of_In, filter_In, <-list_elem_of_In.
Qed.

Lemma track_surplus id s s' :
  requests s' = {[id]} ∪ requests s ->
  (forall id', id' <> id -> req s' id' = req s id') ->
  status (req s' id) <> WAITING_FOR_STREAMING_REQ -> id ∉ requests s ->
  num_waiting_for_streaming_input s' = num_waiting_for_streaming_input s -> surplus s' = surplus s.
Proof.
  intros Hreq Hne Hst Hid Hn. unfold surplus. rewrite Hn. do 2 f_equal. f_equal.
  apply set_eq. intros id'. rewrite !elem_of_awaiting, Hreq.
  destruct (decide (id' = id)) as [->|Hd]; [tauto|]. rewrite Hne by done. set_solver.
Qed.

(** A stop that finishes the request leaves its status alone. *)
Lemma handle_stopped_status id s :
  snd (_handle_stopped_request id s) = true ->
  status (req (fst (_handle_stopped_request id s)) id) = status (req s id).
Proof.
  unfold _handle_stopped_request. destruct (resumable (req s id)); [|done]. simpl.
  destruct (default [] _) as [|[u|] rest]; simpl; [done|done|]. by rewrite req_upd_eq.
Qed.

Lemma add_surplus cfg r s s' :
  status r <> WAITING_FOR_STREAMING_REQ -> add_request cfg r s = Ok s' -> surplus s' = surplus s.
Proof.
  intros Hr. unfold add_request. destruct (bool_decide_reflect (request_id r ∈ requests s)) as [Hin|Hin].
  - destruct (bool_decide (status (req s (request_id r)) = WAITING_FOR_STREAMING_REQ)) eqn:Ew; simpl.
    + destruct (update_from_request r) as [u|]; [intros [= <-]; by apply session_surplus|].
      destruct (finish_requests _ _ _ _) as [[s1 v]|] eqn:E1; simpl; [|done].
      intros [= <-]. eapply finish_surplus; [|exact E1]. apply NoDup_singleton.
    + destruct (streaming_queue _); [|done]. intros [= <-]. unfold surplus.
      rewrite awaiting_upd by done. unfold awaits_input. simpl. rewrite Ew. simpl. lia.
  - intros [= <-].
    set (r1 := if resumable r then _ else r).
    assert (status r1 <> WAITING_FOR_STREAMING_REQ) as Hr1 by (unfold r1; by destruct (resumable r)).
    set (s1 := upd_req (request_id r) (fun _ => r1) s).
    apply (track_surplus (request_id r)); [| | |done|].
    + unfold _enqueue_waiting_request. by destruct (connector cfg), (_is_blocked_waiting_status _).
    + intros id Hne. transitivity (req s1 id); [|by apply req_upd_ne].
      unfold req, _enqueue_waiting_request. by destruct (connector cfg), (_is_blocked_waiting_status _).
    + replace (req _ (request_id r)) with (req s1 (request_id r)); [unfold s1; by rewrite req_upd_eq|].
      unfold req at 2, _enqueue_waiting_request. by destruct (connector cfg), (_is_blocked_waiting_status _).
    + unfold _enqueue_waiting_request. by destruct (connector cfg), (_is_blocked_waiting_status _).
Qed.

(** ** The output of a step *)

(** No request is tracked or untracked, and none begins or ends to wait for its
    next chunk. *)
Definition same_sessions s s' : Prop :=
  requests s' = requests s /\ num_waiting_for_streaming_input s' = num_waiting_for_streaming_input s /\
  forall id, awaits_input s' id = awaits_input s id.

Lemma same_sessions_refl s : same_sessions s s.
Proof. by split_and!. Qed.

Lemma same_sessions_trans s1 s2 s3 : same_sessions s1 s2 -> same_sessions s2 s3 -> same_sessions s1 s3.
Proof. intros (R1 & N1 & A1) (R2 & N2 & A2). split_and!; [congruence..|]. intros id. by rewrite A2. Qed.

Lemma same_sessions_objs s s' :
  requests s' = requests s -> num_waiting_for_streaming_input s' = num_waiting_for_streaming_input s ->
  objs s' = objs s -> same_sessions s s'.
Proof. intros Hr Hn Ho. split_and!; [done|done|]. intros id. unfold awaits_input, req. by rewrite Ho. Qed.

Lemma same_sessions_upd id f s :
  bool_decide (status (f (req s id)) = WAITING_FOR_STREAMING_REQ) = awaits_input s id ->
  same_sessions s (upd_req id f s).
Proof.
  intros Hf. split_and!; [done|done|]. intros id'. unfold awaits_input. rewrite req_upd.
  destruct (bool_decide_reflect (id = id')) as [<-|]; [exact Hf|done].
Qed.

Lemma same_sessions_surplus s s' : same_sessions s s' -> surplus s' = surplus s.
Proof.
  intros (Hr & Hn & Ha). unfold surplus. rewrite Hn. do 2 f_equal. f_equal. apply set_eq. intros id.
  rewrite !elem_of_awaiting, Hr. specialize (Ha id). unfold awaits_input in Ha.
  split; intros [Hst Hin]; (split; [|done]); apply (bool_decide_eq_true _); [rewrite <-Ha|rewrite Ha]; by apply bool_decide_eq_true.
Qed.

(** What the output of request [id] does to the sessions. *)
Definition output_of id s s' : Prop :=
  surplus s' = surplus s /\ forall id', id' <> id -> awaits_input s' id' = awaits_input s id'.

Lemma same_output id s s' : same_sessions s s' -> output_of id s s'.
Proof. intros Hs. split; [by apply same_sessions_surplus|]. intros id' _. apply Hs. Qed.

Lemma output_of_trans id s1 s2 s3 : output_of id s1 s2 -> output_of id s2 s3 -> output_of id s1 s3.
Proof. intros [H1 A1] [H2 A2]. split; [congruence|]. intros id' Hne. by rewrite A2, A1. Qed.

Lemma append_tokens_status n r tokens :
  status (fst (fst (append_tokens n r tokens))) = status r \/
  is_finished (status (fst (fst (append_tokens n r tokens)))) = true.
Proof.
  revert r. induction tokens as [|x tokens IH]; intros r; simpl; [by left|].
  set (r1 := r <| _output_token_ids ::= _ |> <| _all_token_ids ::= _ |>).
  pose proof (check_stop_true r1 n) as Ht. pose proof (check_stop_false r1 n) as Hf.
  destruct (check_stop r1 n) as [r2 [|]]; simpl in *.
  - destruct (Ht eq_refl) as (st & Hst & ->). by right.
  - rewrite (Hf eq_refl). specialize (IH r1). destruct (append_tokens n r1 tokens) as [[r3 kept] stopped]. exact IH.
Qed.

Lemma count_drafts_same cfg id sch gen stale s u :
  same_sessions s (fst (count_drafts cfg id sch gen stale (s, u))).
Proof.
  unfold count_drafts. destruct (_ && _ && _); [|apply same_sessions_refl]. simpl. apply same_sessions_upd.
  by destruct (0 <? num_computed_tokens _), (0 <? num_output_placeholders _).
Qed.

Lemma finished_not_awaiting st : is_finished st = true -> st <> WAITING_FOR_STREAMING_REQ.
Proof. intros Hf ->. rewrite is_finished_live in Hf; [done|set_solver]. Qed.

Lemma update_output_same cfg id tokens s :
  awaits_input s id = false -> same_sessions s (fst (fst (_update_request_with_output cfg id tokens s))).
Proof.
  intros Hw. unfold _update_request_with_output.
  pose proof (append_tokens_status (max_model_len cfg) (req s id) tokens) as Ha.
  destruct (append_tokens _ _ _) as [[r kept] stopped]. simpl in *. apply same_sessions_upd. rewrite Hw.
  unfold awaits_input in Hw. destruct Ha as [-> |Hf%finished_not_awaiting]; [done|by apply bool_decide_eq_false_2].
Qed.

Lemma advance_grammar_same id tokens stopped s :
  awaits_input s id = false -> same_sessions s (fst (advance_grammar id tokens stopped s)).
Proof.
  intros Hw. unfold advance_grammar. destruct (_ && _); [|apply same_sessions_refl].
  destruct (nonempty _); [|apply same_sessions_refl]. destruct (so_accept_tokens _ _ _) as [e [|]]; simpl;
    [by apply same_sessions_objs|].
  eapply same_sessions_trans; [by apply (same_sessions_objs s (s <| env := e |>))|]. apply same_sessions_upd. simpl.
  unfold awaits_input in *. change (req (s <| env := e |>) id) with (req s id). by rewrite Hw.
Qed.

Lemma handle_stopped_ne id s id' : id' <> id -> req (fst (_handle_stopped_request id s)) id' = req s id'.
Proof.
  intros Hne. unfold _handle_stopped_request. destruct (resumable (req s id)); [|done]. simpl.
  assert (forall x : sched E Q, req (_enqueue_waiting_request id x) id' = req x id') as Henq.
  { intros x. unfold _enqueue_waiting_request. by destruct (_is_blocked_waiting_status _). }
  destruct (default [] _) as [|[u|] rest]; simpl.
  - rewrite Henq. by apply (req_upd_ne s id id').
  - rewrite Henq. unfold _update_request_as_session. destruct (bool_decide _); rewrite req_upd_ne by done;
      by apply (req_upd_ne s id id').
  - by apply req_upd_ne.
Qed.

(** A stop, of a request that does not wait for its next chunk yet. *)
Lemma settle_output cfg id before s u s' u' :
  id ∈ requests s -> awaits_input s id = false ->
  settle_stopped cfg id before (s, u) = Ok (s', u') -> output_of id s s'.
Proof.
  intros Hin Hw. unfold settle_stopped. pose proof (handle_stopped_surplus id s Hin Hw) as Hh.
  pose proof (handle_stopped_status id s) as Hk. pose proof (handle_stopped_ne id s) as Hne.
  destruct (_handle_stopped_request id s) as [s1 fin]. simpl in *.
  assert (output_of id s s1) as H1.
  { split; [done|]. intros id' Hd. unfold awaits_input. by rewrite Hne. }
  destruct fin; simpl; [|by intros [= <- _]].
  destruct (_free_request cfg id false s1) as [s2|] eqn:E2; simpl; [|done]. intros [= <- _].
  apply free_request_freed in E2 as [Hf2 Hfr]. eapply output_of_trans; [exact H1|]. split.
  - apply (freed_surplus id); [exact Hfr|]. unfold awaits_input. by rewrite Hk.
  - intros id' _. unfold awaits_input. by rewrite (freed_req _ _ _ id' Hfr).
Qed.

Lemma process_output_sessions cfg o m id stale index s u s' u' :
  id ∈ requests s -> awaits_input s id = false ->
  process_output cfg o m id stale index (s, u) = Ok (s', u') -> output_of id s s'.
Proof.
  intros Hin Hw. unfold process_output. intros Hrun. apply rbind_ok in Hrun as (gen & _ & Hrun).
  set (sch := default [] _) in Hrun. pose proof (count_drafts_same cfg id sch gen stale s u) as H1.
  destruct (count_drafts cfg id sch gen stale (s, u)) as [s1 u1]. simpl in H1.
  set (s2 := if has_encoder_inputs _ then _ else s1) in Hrun.
  assert (same_sessions s s2) as H2.
  { eapply same_sessions_trans; [exact H1|]. unfold s2. destruct (has_encoder_inputs _); by apply same_sessions_objs. }
  clearbody s2. apply rbind_ok in Hrun as (pooled & _ & Hrun).
  set (x := if nonempty gen then _ else _) in Hrun.
  assert (same_sessions s (fst (fst x))) as H3.
  { eapply same_sessions_trans; [exact H2|]. pose proof H2 as (_ & _ & Ha2). rewrite <-Ha2 in Hw. unfold x.
    destruct (nonempty gen); [by apply update_output_same|]. destruct (_ && _); [|apply same_sessions_refl].
    apply same_sessions_upd. simpl. by rewrite Hw. }
  clearbody x. destruct x as [[s3 tokens] stopped]. cbn [fst] in H3. pose proof H3 as (Hr3 & _ & Ha3).
  pose proof (advance_grammar_same id tokens stopped s3 ltac:(by rewrite Ha3)) as H4.
  destruct (advance_grammar id tokens stopped s3) as [s4 stopped4]. cbn [fst] in H4.
  cbv zeta in Hrun. set (emit := _ || _ || _) in Hrun. set (s5 := if emit then _ else s4) in Hrun.
  assert (same_sessions s s5) as H5.
  { do 2 (eapply same_sessions_trans; [eassumption|]). unfold s5. destruct emit; [|apply same_sessions_refl].
    by apply same_sessions_upd. }
  clearbody s5. pose proof H5 as (Hr5 & _ & Ha5).
  apply rbind_ok in Hrun as ([s6 u6] & Hset & [= <- _]).
  eapply output_of_trans; [by apply same_output, H5|].
  destruct stopped4; [|injection Hset as <- _; apply same_output, same_sessions_refl].
  eapply settle_output; [|by rewrite Ha5|exact Hset]. by rewrite Hr5.
Qed.

Lemma drain_stale_status n r r' b : drain_stale n r = Ok (r', b) -> status r' = status r.
Proof.
  unfold drain_stale. destruct (0 <? _); [|by intros [= <- _]].
  intros Hr. apply rbind_ok in Hr as (u & _ & [= <- _]). done.
Qed.

Lemma update_one_sessions cfg o m failed s u id n s' u' :
  awaits_input s id = false -> update_one cfg o m failed (s, u) (id, n) = Ok (s', u') -> output_of id s s'.
Proof.
  intros Hw. unfold update_one. intros Hrun. apply rbind_ok in Hrun as (v & _ & Hrun). clear v.
  apply rbind_ok in Hrun as ([s1 stale] & H1 & Hrun).
  assert (same_sessions s s1) as Hs1.
  { destruct (bool_decide (id ∈ requests s)); [|injection H1 as <- _; apply same_sessions_refl].
    apply rbind_ok in H1 as ([r b] & Hd & [= <- _]). apply drain_stale_status in Hd.
    apply same_sessions_upd. simpl. by rewrite Hd. }
  assert (output_of id s s1) as Ho1 by by apply same_output.
  destruct (bool_decide (id ∈ failed)); [by injection Hrun as <- _|].
  destruct (bool_decide_reflect (id ∈ requests s)) as [Hin|Hin]; simpl in Hrun; [|by injection Hrun as <- _].
  destruct (is_finished _); [by injection Hrun as <- _|].
  destruct (_ && _); [by injection Hrun as <- _|].
  destruct (m_req_id_to_index m !! id) as [index|]; [|by injection Hrun as <- _].
  destruct Hs1 as (Hr1 & _ & Ha1). eapply output_of_trans; [exact Ho1|].
  eapply process_output_sessions; [|by rewrite Ha1|exact Hrun]. by rewrite Hr1.
Qed.

Lemma update_loop_sessions cfg o m failed items s u s' u' :
  NoDup (dkeys items) -> (forall id, id ∈ dkeys items -> awaits_input s id = false) ->
  rfold (update_one cfg o m failed) (s, u) items = Ok (s', u') -> surplus s' = surplus s.
Proof.
  revert s u. induction items as [|[id n] items IH]; intros s u Hnd Hw; simpl; [by intros [= <- _]|].
  intros Hrun. apply rbind_ok in Hrun as ([s1 u1] & H1 & Hrun).
  apply NoDup_cons in Hnd as [Hni Hnd]. cbn [fst] in Hni.
  apply update_one_sessions in H1 as [Hs1 Ha1]; [|apply Hw; left].
  rewrite <-Hs1. apply (IH s1 u1); [done| |done]. intros id' Hid'. rewrite Ha1; [apply Hw; by right|].
  intros ->. done.
Qed.

Lemma scan_request_same cfg invalid ns evict s a id s' a' :
  scan_request cfg invalid ns evict (s, a) id = Ok (s', a') -> same_sessions s s'.
Proof.
  unfold scan_request. destruct (kv_get_block_ids _ _) as [|blocks [|? ?]]; [done| |done].
  set (st := fold_left _ _ _). destruct (bs_affected st); [|intros [= <- _]; apply same_sessions_refl].
  destruct (negb (bs_marked st)); intros [= <- _]; by apply same_sessions_upd.
Qed.

Lemma scan_requests_same cfg ids invalid ns evict s s' a :
  _update_requests_with_invalid_blocks cfg ids invalid ns evict s = Ok (s', a) -> same_sessions s s'.
Proof.
  unfold _update_requests_with_invalid_blocks. intros Hrun.
  apply (rfold_inv (fun x => same_sessions s (fst x))) in Hrun; [exact Hrun|apply same_sessions_refl|].
  intros [s1 a1] id [s2 a2] _ H1 H2. apply scan_request_same in H2. by eapply same_sessions_trans.
Qed.

Lemma handle_invalid_same cfg invalid ns s s' failed :
  _handle_invalid_blocks cfg invalid ns s = Ok (s', failed) -> same_sessions s s'.
Proof.
  unfold _handle_invalid_blocks. intros Hrun. apply rbind_ok in Hrun as ([s1 a] & H1 & Hrun).
  apply rbind_ok in Hrun as ([s2 b] & H2 & Hrun).
  apply scan_requests_same in H1, H2. pose proof (same_sessions_trans _ _ _ H1 H2) as H12.
  destruct (Nat.eqb _ 0); [by injection Hrun as <- _|].
  destruct (_ && _), (negb (recompute_kv_load_failures cfg)); injection Hrun as <- _;
    (eapply same_sessions_trans; [exact H12|]); by apply same_sessions_objs.
Qed.

Lemma observe_step_same cfg o u s s' : observe_step cfg o u s = Ok s' -> same_sessions s s'.
Proof.
  unfold observe_step. intros Hrun. apply rbind_ok in Hrun as (s1 & H1 & Hrun).
  assert (same_sessions s s1) as Hs1.
  { destruct (acceptance_length_controller s) as [c|]; [|injection H1 as <-; apply same_sessions_refl].
    destruct (Controller.observe_batch _ _ _ _ _ _) as [c' r]. apply rbind_ok in H1 as (v & _ & [= <-]).
    by apply same_sessions_objs. }
  destruct (Mtp._record_mtp_instrumentation _ _ _ _) as [w x]. injection Hrun as <-.
  eapply same_sessions_trans; [exact Hs1|]. by apply same_sessions_objs.
Qed.

(** The blocks of a finished request go back: it did not wait for a chunk. *)
Lemma free_blocks_surplus cfg id s s' : _free_blocks cfg id s = Ok s' -> surplus s' = surplus s.
Proof.
  intros Hrun. assert (is_finished (status (req s id)) = true) as Hfin.
  { unfold _free_blocks in Hrun. apply rbind_ok in Hrun as (u & Hreq & _). by apply require_ok in Hreq. }
  apply free_blocks_spec in Hrun as (e & d & ->). unfold surplus. simpl. do 2 f_equal. f_equal.
  apply set_eq. intros id'. rewrite !elem_of_awaiting. simpl.
  change (req (_ <| requests ::= _ |>) id') with (req s id').
  apply finished_not_awaiting in Hfin. destruct (decide (id' = id)) as [->|]; [tauto|set_solver].
Qed.

Lemma kv_xfer_surplus cfg o s s' : _update_from_kv_xfer_finished cfg o s = Ok s' -> surplus s' = surplus s.
Proof.
  unfold _update_from_kv_xfer_finished. set (s0 := if connector cfg then _ else s). intros Hrun.
  assert (surplus s0 = surplus s) as <- by (unfold s0; by destruct (connector cfg)). clearbody s0.
  apply rbind_ok in Hrun as (s1 & H1 & H2). transitivity (surplus s1).
  - apply (rfold_inv (fun x => surplus x = surplus s1)) in H2; [exact H2|done|]. intros x id y _ <- Hf.
    unfold finish_sending in Hf. apply rbind_ok in Hf as (u & _ & Hf). by eapply free_blocks_surplus.
  - apply (rfold_inv (fun x => surplus x = surplus s0)) in H1; [exact H1|done|]. intros x id y _ <- Hf.
    unfold finish_recving in Hf. apply rbind_ok in Hf as (u & _ & Hf).
    destruct (bool_decide _); [by injection Hf as <-|]. apply rbind_ok in Hf as (v & _ & Hf).
    by eapply free_blocks_surplus.
Qed.

(** The output of a whole step: no request of it waits for its next chunk when
    the output comes. *)
Lemma output_surplus cfg o m s s' outs ended :
  NoDup (dkeys (o_num_scheduled_tokens o)) ->
  (forall id, id ∈ dkeys (o_num_scheduled_tokens o) -> awaits_input s id = false) ->
  update_from_output cfg o m s = Ok (s', outs, ended) -> surplus s' = surplus s.
Proof.
  intros Hnd Hw. unfold update_from_output. set (s0 := if _ && _ then _ else s). intros Hrun.
  assert (same_sessions s s0) as Hsd.
  { unfold s0. destruct (_ && _); [|apply same_sessions_refl]. unfold _drain_deferred_frees.
    destruct (drain _ _ _). by apply same_sessions_objs. }
  clearbody s0. apply rbind_ok in Hrun as ([s1 failed] & H1 & Hrun).
  assert (same_sessions s s1) as Hs1.
  { eapply same_sessions_trans; [exact Hsd|]. destruct (m_kv_connector_output m) as [k|]; [|injection H1 as <- _; apply same_sessions_refl].
    destruct (nonempty _); [by eapply handle_invalid_same|injection H1 as <- _; apply same_sessions_refl]. }
  apply rbind_ok in Hrun as ([s2 u] & H2 & Hrun).
  apply update_loop_sessions in H2; [|done|intros id Hid; rewrite (proj2 (proj2 Hs1)); by apply Hw].
  rewrite (same_sessions_surplus _ _ Hs1) in H2.
  apply rbind_ok in Hrun as (s3 & H3 & Hrun). apply observe_step_same, same_sessions_surplus in H3.
  cbv zeta in Hrun. set (s4 := unqueue _ _ s3) in Hrun.
  assert (surplus s4 = surplus s3) as H4.
  { apply same_sessions_surplus. destruct (unqueue_frame (u_stopped_running u) (u_stopped_preempted u) s3) as (Eo & Et & En).
    by apply same_sessions_objs. }
  clearbody s4. apply rbind_ok in Hrun as ([s5 fs] & H5 & Hrun).
  assert (surplus s5 = surplus s4) as Hs5.
  { destruct (nonempty _); [|by injection H5 as <- _]. apply finish_surplus in H5; [done|apply NoDup_elements]. }
  apply rbind_ok in Hrun as (s6 & H6 & [= <- _ _]).
  assert (surplus s6 = surplus s5) as Hs6.
  { destruct (m_kv_connector_output m); [by eapply kv_xfer_surplus|by injection H6 as <-]. }
  transitivity (surplus s6); [done|congruence].
Qed.

(** What happens to requests between two steps: an arrival or a new input
    chunk, a finish from outside, and the output of a step. *)
Inductive session_step cfg : sched E Q -> sched E Q -> Prop :=
  | Step_add r s s' :
      status r <> WAITING_FOR_STREAMING_REQ -> add_request cfg r s = Ok s' -> session_step cfg s s'
  | Step_finish ids st s s' valid :
      NoDup ids -> finish_requests cfg ids st s = Ok (s', valid) -> session_step cfg s s'
  | Step_output o m s s' outs ended :
      NoDup (dkeys (o_num_scheduled_tokens o)) ->
      (forall id, id ∈ dkeys (o_num_scheduled_tokens o) -> awaits_input s id = false) ->
      update_from_output cfg o m s = Ok (s', outs, ended) -> session_step cfg s s'.

(** C8 (waiting sessions): [num_waiting_for_streaming_input] stays equal to the
    number of tracked requests that wait for their next input chunk, through any
    sequence of arrivals, finishes from outside and outputs of steps, as long
    as no request of an output waits for its next chunk already when the output
    comes (double_stop_miscounts). *)
Theorem streaming_count_exact cfg s s' :
  streaming_ok s -> rtc (session_step cfg) s s' -> streaming_ok s'.
Proof.
  rewrite !surplus_ok. intros Hs Hsteps. rewrite <-Hs. clear Hs.
  induction Hsteps as [s|s s1 s2 Hstep _ IH]; [done|]. rewrite IH. clear IH.
  destruct Hstep as [r s s' Hr Ha|ids st s s' valid Hnd Hf|o m s s' outs ended Hnd Hw Hout].
  - by apply (add_surplus cfg r).
  - by apply (finish_surplus cfg ids st s s' valid).
  - by apply (output_surplus cfg o m s s' outs ended).
Qed.

(** ** The next chunk of a session *)

(** A session that is not preempted: the prompt is computed, and is a prefix
    of the tokens. *)
Definition session_wf (r : request) : Prop :=
  prompt_token_ids r = take (Z.to_nat (num_prompt_tokens r)) (_all_token_ids r) /\
  0 <= num_prompt_tokens r <= num_computed_tokens r /\ num_computed_tokens r <= num_tokens r.

(** Next chunk: a session's next chunk is appended to exactly its computed
    tokens: the last sampled, not yet computed token is discarded, the prompt
    becomes all tokens, nothing that was computed is lost, and the positions
    of the chunk's multimodal features are moved past the computed tokens. *)
Theorem session_continues (u : StreamingUpdate) (r : request) :
  session_wf r ->
  let r' := session_fields u r in
  _all_token_ids r' = take (Z.to_nat (num_computed_tokens r)) (_all_token_ids r) ++ upd_prompt_token_ids u /\
  prompt_token_ids r' = _all_token_ids r' /\
  num_prompt_tokens r' = num_tokens r' /\
  num_tokens r' = num_computed_tokens r + Z.of_nat (length (upd_prompt_token_ids u)) /\
  num_computed_tokens r' = num_computed_tokens r /\ _output_token_ids r' = [] /\
  mm_features r' = mm_features r ++
    map (fun f => f <| offset := num_computed_tokens r + offset f |>) (upd_mm_features u).
Proof.
  intros (Hp & Hn & Hc). unfold session_fields, slice, slice_to. simpl.
  rewrite (proj2 (Z.ltb_ge _ _)) by lia.
  unfold num_tokens in *. simpl.
  assert (length (take (Z.to_nat (num_computed_tokens r)) (_all_token_ids r))
          = Z.to_nat (num_computed_tokens r)) as Hl by (rewrite length_take; lia).
  assert (prompt_token_ids r ++
    take (Z.to_nat (num_computed_tokens r) - Z.to_nat (num_prompt_tokens r))
      (drop (Z.to_nat (num_prompt_tokens r)) (_all_token_ids r))
    = take (Z.to_nat (num_computed_tokens r)) (_all_token_ids r)) as Hpre.
  { rewrite Hp, <-(take_drop (Z.to_nat (num_prompt_tokens r)) (take (Z.to_nat (num_computed_tokens r)) _)).
    rewrite take_take, skipn_firstn_comm. f_equal. f_equal. lia. }
  rewrite Hpre. split_and!; try done.
  - rewrite length_app, Hl. lia.
  - f_equal. apply map_ext. intros f. rewrite Hl, Z2Nat.id by lia. done.
Qed.

(** ** Resetting the prefix cache *)

Lemma while_round {S} n (body : S -> result (ctl S)) (x : S) :
  while (Datatypes.S n) body x =
  (let* c := body x in match c with Continue y => while n body y | Break y => Ok y end).
Proof. reflexivity. Qed.

Lemma preempt_all cfg n s :
  NoDup (running s) ->
  (forall id, id ∈ running s -> status (req s id) = RUNNING /\ request_id (req s id) = id) ->
  (length (running s) < n)%nat ->
  exists s', while n (preempt_all_body cfg) s = Ok s' /\
    running s' = [] /\ q_list (waiting s') ≡ₚ running s ++ q_list (waiting s) /\
    skipped_waiting s' = skipped_waiting s /\ requests s' = requests s /\
    forall id, req s' id = if bool_decide (id ∈ running s) then preempted_fields true (req s id)
                           else req s id.
Proof.
  revert s. induction n as [|n IH]; intros s Hnd Hok Hlen; [lia|].
  destruct (pop_last (running s)) as [[rest id]|] eqn:Epop.
  - apply pop_last_spec in Epop as Erun.
    assert (id ∈ running s) as Hin by (rewrite Erun; set_solver).
    destruct (Hok id Hin) as [Hst Hid].
    set (s0 := s <| running := rest |>).
    destruct (_preempt_request cfg id true s0) as [s1|] eqn:E1.
    2: { exfalso. unfold _preempt_request, require in E1. change (req s0 id) with (req s id) in E1.
         by rewrite Hst in E1. }
    pose proof (preempt_request_spec _ _ _ _ _ E1) as (_ & e & d & Hs1).
    assert (Hr1 : forall id', req s1 id' = if bool_decide (id = id') then preempted_fields true (req s id)
                                           else req s id').
    { intros id'. rewrite Hs1. etransitivity; [apply (req_upd _ id id' (preempted_fields true))|done]. }
    assert (running s1 = rest /\ waiting s1 = q_prepend (preempted_fields true (req s id)) (waiting s) /\
      skipped_waiting s1 = skipped_waiting s /\ requests s1 = requests s) as (Er & Ew & Es & Et) by by rewrite Hs1.
    clear Hs1. rewrite Erun in Hnd, Hok, Hlen. apply NoDup_app in Hnd as (Hnd & Hdisj & _).
    assert (id ∉ rest) as Hni by (intros Hx; apply (Hdisj id Hx); left).
    rewrite length_app in Hlen. simpl in Hlen.
    destruct (IH s1) as (s' & Hrun & R & W & S & T & O); [by rewrite Er| |rewrite Er; lia|].
    { intros id' Hid'. rewrite Er in Hid'. rewrite Hr1, bool_decide_eq_false_2 by (by intros ->).
      apply Hok, elem_of_app. by left. }
    exists s'. rewrite while_round. unfold preempt_all_body at 1. rewrite Epop. fold s0. rewrite E1. simpl.
    split_and!; [exact Hrun|done| |congruence|congruence|].
    + rewrite W, Er, Ew, q_prepend_list, Erun. simpl. rewrite Hid. by rewrite <-List.app_assoc.
    + intros id'. rewrite O, Er, Erun, Hr1.
      destruct (bool_decide_reflect (id = id')) as [<-|Hne].
      * rewrite bool_decide_eq_false_2 by done. by rewrite bool_decide_eq_true_2 by set_solver.
      * erewrite (bool_decide_ext (id' ∈ rest)); [done|]. set_solver.
  - apply pop_last_None in Epop as Erun. exists s. rewrite while_round. unfold preempt_all_body at 1. rewrite Epop. simpl.
    rewrite Erun. split_and!; done.
Qed.

(** Cache reset: with [reset_running_requests] every running request is
    preempted and queued to wait, with its computed tokens forgotten and its
    outstanding output to be dropped; no other request changes; the call
    returns, unless the cache itself refuses the reset. *)
Theorem reset_preempts_all_running cfg reset_connector s :
  NoDup (running s) ->
  (forall id, id ∈ running s -> status (req s id) = RUNNING /\ request_id (req s id) = id) ->
  match reset_prefix_cache cfg true reset_connector s with
  | Ok (s', _) =>
      running s' = [] /\ q_list (waiting s') ≡ₚ running s ++ q_list (waiting s) /\
      skipped_waiting s' = skipped_waiting s /\ prev_step_scheduled_req_ids s' = ∅ /\
      (forall id, id ∈ running s ->
         status (req s' id) = PREEMPTED /\ num_computed_tokens (req s' id) = 0 /\
         drop_stale_output (req s' id) = true /\
         num_stale_output_tokens (req s' id) = num_in_flight_tokens (req s id)) /\
      (forall id, id ∉ running s -> req s' id = req s id)
  | Raise e => e = RuntimeError
  end.
Proof.
  intros Hnd Hok. unfold reset_prefix_cache.
  destruct (preempt_all cfg (S (length (running s))) s Hnd Hok ltac:(lia))
    as (s1 & -> & R & W & S1 & T & O). simpl.
  destruct (kv_reset_prefix_cache _) as [e ok]. simpl. destruct ok; simpl; [|done].
  assert (Hfin : forall e', let s' := (s1 <| prev_step_scheduled_req_ids := ∅ |>) <| env := e' |> in
    running s' = [] /\ q_list (waiting s') ≡ₚ running s ++ q_list (waiting s) /\
    skipped_waiting s' = skipped_waiting s /\ prev_step_scheduled_req_ids s' = ∅ /\
    (forall id, id ∈ running s ->
       status (req s' id) = PREEMPTED /\ num_computed_tokens (req s' id) = 0 /\
       drop_stale_output (req s' id) = true /\
       num_stale_output_tokens (req s' id) = num_in_flight_tokens (req s id)) /\
    (forall id, id ∉ running s -> req s' id = req s id)).
  { intros e' s'. split_and!; try done; intros id Hid; change (req s' id) with (req s1 id); rewrite O;
      [rewrite bool_decide_eq_true_2 by done|by rewrite bool_decide_eq_false_2 by done].
    by split_and!. }
  destruct reset_connector; [|apply (Hfin e)].
  destruct (connector cfg); [destruct (conn_reset_cache _) as [e2 cok]|]; apply Hfin.
Qed.

End Sessions.

#[local] Existing Instances Mini.queue Mini.queue_laws Mini.services Mini.services_laws.

(** Request "a" runs, "b" waits, "c" has finished already. *)
Definition example_mixed : sched Z (list string) :=
  Mini.sched_of 3 [Mini.request_of "a" RUNNING 9 8] [Mini.request_of "b" WAITING 9 0].

Lemma finish_requests_exact_witness :
  exists s', finish_requests (B := list (list Z)) Mini.cfg ["a"; "zz"]%string FINISHED_ABORTED example_mixed
               = Ok (s', ["a"%string]) /\ held s' ≡ₚ ["b"%string].
Proof.
  destruct (finish_requests (B := list (list Z)) Mini.cfg ["a"; "zz"]%string FINISHED_ABORTED example_mixed)
    as [[s' v]|] eqn:E0; [|vm_compute in E0; discriminate].
  assert (v = ["a"%string]) as -> by (vm_compute in E0; by injection E0 as _ <-).
  exists s'. split; [reflexivity|].
  refine (proj2 (proj2 (proj2 (proj2 (finish_requests_exact Mini.cfg ["a"; "zz"]%string FINISHED_ABORTED
    example_mixed s' ["a"%string] _ E0))))).
  split; intros id Hid; apply list_elem_of_singleton in Hid as ->; vm_compute; congruence.
Defined.

Definition example_chunk : StreamingUpdate := mkUpdate [7; 7] [mkFeature 1 1 1 "img"] 5 0.
(** Three prompt tokens and two computed output tokens of three sampled. *)
Definition example_session : request :=
  inhabitant <| prompt_token_ids := [1; 2; 3] |> <| _all_token_ids := [1; 2; 3; 4; 5; 6] |>
    <| _output_token_ids := [4; 5; 6] |> <| num_prompt_tokens := 3 |> <| num_computed_tokens := 5 |>.

Lemma session_continues_witness :
  _all_token_ids (session_fields example_chunk example_session) = [1; 2; 3; 4; 5; 7; 7] /\
  prompt_token_ids (session_fields example_chunk example_session) =
    _all_token_ids (session_fields example_chunk example_session).
Proof.
  split; [reflexivity|].
  refine (proj1 (proj2 (session_continues example_chunk example_session _))).
  split; [reflexivity|]. vm_compute. repeat split; congruence.
Defined.

Lemma example_reset :
  exists s', reset_prefix_cache (B := list (list Z)) Mini.cfg true true example_mixed = Ok (s', true).
Proof.
  eexists. vm_compute. reflexivity.
Qed.

Lemma reset_preempts_all_running_witness :
  exists s', reset_prefix_cache (B := list (list Z)) Mini.cfg true true example_mixed = Ok (s', true) /\
    running s' = [] /\ q_list (waiting s') ≡ₚ ["a"; "b"]%string.
Proof.
  assert (NoDup (running example_mixed)) as Hnd by apply NoDup_singleton.
  assert (forall id, id ∈ running example_mixed ->
    status (req example_mixed id) = RUNNING /\ request_id (req example_mixed id) = id) as Hok
    by (intros id Hid; change (id ∈ ["a"%string]) in Hid; apply list_elem_of_singleton in Hid as ->;
        split; vm_compute; reflexivity).
  pose proof (reset_preempts_all_running (B := list (list Z)) Mini.cfg true example_mixed Hnd Hok) as Hr.
  destruct example_reset as [s' E0]. exists s'. rewrite E0 in Hr |- *. split; [reflexivity|].
  split; [exact (proj1 Hr)|exact (proj1 (proj2 Hr))].
Defined.

(** ** A preempted session that stops

    A streaming session is preempted while a step is in flight; the returning
    output stops it and another chunk is queued.  [_handle_stopped_request]
    queues it again, and the removal of the stopped, non-running requests
    then takes both entries out: the session stays tracked and unfinished but
    is in no queue. *)
Definition example_preempted_session : sched Z (list string) :=
  let r := Mini.request_of "s" PREEMPTED 3 0 in
  let r := r <| num_in_flight_tokens := 3 |> <| num_stale_output_tokens := 3 |>
             <| resumable := true |> <| streaming_queue := Some [Some example_chunk] |> in
  Mini.sched_of 3 [] [r].

Definition example_step_output : SchedulerOutput :=
  mkOutput [] (mkCached [] ∅ [] [] [] [] []) [("s"%string, 3)] 3 [] [] [] ∅ ∅ None None 0 false [].

Definition example_runner_output : ModelRunnerOutput :=
  mkModelOutput [[9]] {["s"%string := 0%nat]} [] None.

(** What is observed of the result: tracked, finished, in a queue, and the
    lengths of its tokens and of its prompt. *)
Definition observe_session (x : result (sched Z (list string) * list EngineCoreOutput * gmap Z (gset string)))
    : option (bool * bool * list string * nat * Z) :=
  match x with
  | Ok (s, _, _) =>
      Some (bool_decide ("s"%string ∈ requests s), is_finished (status (req s "s")), held s,
            length (_all_token_ids (req s "s")), num_prompt_tokens (req s "s"))
  | Raise _ => None
  end.

Example preempted_session_lost :
  observe_session (update_from_output (B := list (list Z)) (Mini.cfg <| max_model_len := 4 |>)
    example_step_output example_runner_output example_preempted_session)
  = Some (true, false, [], 2%nat, 5).
Proof. vm_compute. reflexivity. Qed.

(** ** The count of waiting sessions *)

(** A session that runs: its output stops it, and no further chunk is queued. *)
Definition example_stopping : sched Z (list string) :=
  let r := Mini.request_of "s" RUNNING 3 3 in
  Mini.sched_of 3 [r <| num_in_flight_tokens := 3 |> <| resumable := true |> <| streaming_queue := Some [] |>] [].

Definition example_cfg4 : config := Mini.cfg <| max_model_len := 4 |>.

(** The session stops and waits for input; then it is finished from outside. *)
Lemma streaming_count_exact_witness :
  exists s1 s2 outs ended v,
    update_from_output (B := list (list Z)) example_cfg4 example_step_output example_runner_output example_stopping
      = Ok (s1, outs, ended) /\
    finish_requests (B := list (list Z)) example_cfg4 ["s"%string] FINISHED_ABORTED s1 = Ok (s2, v) /\
    num_waiting_for_streaming_input s1 = 1 /\ streaming_ok s1 /\ streaming_ok s2.
Proof.
  destruct (update_from_output (B := list (list Z)) example_cfg4 example_step_output example_runner_output example_stopping)
    as [[[s1 outs] ended]|] eqn:E1; [|vm_compute in E1; discriminate].
  destruct (finish_requests (B := list (list Z)) example_cfg4 ["s"%string] FINISHED_ABORTED s1) as [[s2 v]|] eqn:E2;
    [|vm_compute in E1; injection E1 as <- _ _; vm_compute in E2; discriminate].
  exists s1, s2, outs, ended, v. split; [reflexivity|]. split; [exact E2|].
  assert (session_step (B := list (list Z)) example_cfg4 example_stopping s1) as H1.
  { refine (Step_output _ example_step_output _ _ _ _ _ _ _ E1); [exact (NoDup_singleton "s"%string)|].
    intros id Hid. apply list_elem_of_singleton in Hid as ->. reflexivity. }
  assert (session_step (B := list (list Z)) example_cfg4 s1 s2) as H2
    by exact (Step_finish _ _ _ _ _ _ (NoDup_singleton _) E2).
  split; [vm_compute in E1; injection E1 as <- _ _; reflexivity|].
  split; apply (streaming_count_exact (B := list (list Z)) example_cfg4 example_stopping); [reflexivity| |reflexivity|].
  - by apply rtc_once.
  - eapply rtc_l; [exact H1|]. by apply rtc_once.
Defined.

(** A session that waits for its next chunk while an output of an overlapping
    step is still in flight: the output stops it again and it is counted twice. *)
Definition example_double_stop : sched Z (list string) :=
  let r := Mini.request_of "s" WAITING_FOR_STREAMING_REQ 3 3 in
  (Mini.sched_of 3 [] [r <| num_in_flight_tokens := 3 |> <| resumable := true |> <| streaming_queue := Some [] |>])
    <| num_waiting_for_streaming_input := 1 |>.

Example double_stop_miscounts :
  streaming_ok example_double_stop /\
  match update_from_output (B := list (list Z)) example_cfg4 example_step_output example_runner_output example_double_stop with
  | Ok (s, _, _) => num_waiting_for_streaming_input s = 2 /\ size (awaiting s) = 1%nat
  | Raise _ => False
  end.
Proof. split; [reflexivity|]. vm_compute. split; reflexivity. Qed.
