(* ===== verification/SchedTurns.v ===== *)
(** * The turns of the long prefills through [schedule]

    What one call of [schedule] does to the turns that
    [_select_long_prefill_request_ids] hands out: every selected request is
    charged, by the loop that schedules it or by the debit at the end of the
    step, and a running candidate that was passed over keeps its turn.  From
    this, and from the operations between two steps leaving the turns alone,
    a running long prefill is selected within a bounded number of steps. *)
From S2P Require Export SchedSessions.
Import PyDict PyList LongPrefill Mamba.

Section Turns.
Context {E B Q : Type} `{RequestQueueLaws Q} `{ServicesLaws E B}.
Implicit Types (cfg : config) (s : sched E Q) (t : step B Q) (id : string).

(** ** The invariant of the two loops *)

Section Loops.
(** The state the loops start from, the selected requests, and whether the step
    defers its prefills. *)
Context (cfg : config) (s1 : sched E Q) (sel : list string) (defer : bool).
Hypothesis Hcfg : cfg_ok cfg.
Hypothesis Hstate : state_ok cfg s1.
Hypothesis Hstatus : queues_by_status s1.
Hypothesis Hsel : forall x, x ∈ sel -> x ∈ pool cfg s1 /\ enable_decode_aware_prefill cfg = true.

(** What the loops keep of the turns. *)
Record turn_core s t : Prop := mkTurnCore {
  tc_step : current_step s = current_step s1;
  tc_sel : selected_long_prefill_ids t = sel;
  tc_defer : defer_prefills t = defer;
  tc_old x : last_turn s x = current_step s1 \/ last_turn s x = last_turn s1 x;
  tc_charged x : x ∈ sel -> x ∈ dkeys (num_scheduled_tokens t) -> last_turn s x = current_step s1;
  tc_passed x : x ∉ sel -> last_turn s x = last_turn s1 x \/ x ∈ admitted t
}.

(** With what identifies a selected request that waits as a long prefill. *)
Record turn_inv s t : Prop := mkTurnInv {
  ti_core : turn_core s t;
  ti_id x : request_id (req s x) = request_id (req s1 x);
  ti_prompt x : num_prompt_tokens (req s x) = num_prompt_tokens (req s1 x);
  ti_status x : x ∈ sel -> x ∈ q_list (waiting s) ++ q_list (skipped_waiting s) ->
                status (req s x) ∈ [WAITING; PREEMPTED]
}.

Lemma sel_long x : x ∈ sel -> (num_prompt_tokens (req s1 x) <=? long_prefill_token_threshold cfg) = false.
Proof.
  intros Hx. destruct (Hsel x Hx) as [Hp _]. apply pool_long in Hp as [Hl _].
  unfold _is_long_prefill_request in Hl. by destruct (num_prompt_tokens (req s1 x) <=? _).
Qed.

(** A selected running request is in its prefill. *)
Lemma sel_running x :
  x ∈ sel -> x ∈ running s1 ->
  is_prefill_chunk (req s1 x) = true /\ _is_long_prefill_request cfg (req s1 x) = true.
Proof.
  intros Hx Hr. destruct (Hsel x Hx) as [Hp _]. apply pool_long in Hp as [Hl _]. split; [|done].
  unfold _is_long_prefill_request in Hl. rewrite (sel_long x Hx) in Hl.
  rewrite bool_decide_eq_true_2 in Hl; [done|]. by apply Hstatus.
Qed.

Lemma turn_start t :
  selected_long_prefill_ids t = sel -> defer_prefills t = defer -> num_scheduled_tokens t = [] ->
  turn_inv s1 t.
Proof.
  intros Hs Hd Hn. constructor; auto.
  - constructor; auto. intros x _. rewrite Hn. by intros ?%elem_of_nil.
  - intros x Hx Hq. destruct (Hsel x Hx) as [Hp _]. apply pool_long in Hp as [Hl _].
    unfold _is_long_prefill_request in Hl. rewrite (sel_long x Hx) in Hl.
    rewrite bool_decide_eq_false_2 in Hl by by apply Hstatus.
    apply orb_true_iff in Hl as [Hl|Hl]; bool_prop; set_solver.
Qed.

(** Steps that touch neither the turns nor the requests. *)
Lemma turn_core_fields s s' t t' :
  _long_prefill_last_scheduled s' = _long_prefill_last_scheduled s -> current_step s' = current_step s ->
  selected_long_prefill_ids t' = selected_long_prefill_ids t -> defer_prefills t' = defer_prefills t ->
  (forall x, x ∈ dkeys (num_scheduled_tokens t') -> x ∈ dkeys (num_scheduled_tokens t)) ->
  admitted t' = admitted t ->
  turn_core s t -> turn_core s' t'.
Proof.
  intros Ht Hc Hs Hd Hk Ha []. constructor; unfold last_turn in *; rewrite ?Ht, ?Hc, ?Hs, ?Hd, ?Ha; auto.
Qed.

Lemma turn_inv_fields s s' t t' :
  _long_prefill_last_scheduled s' = _long_prefill_last_scheduled s -> current_step s' = current_step s ->
  objs s' = objs s ->
  (forall x, x ∈ q_list (waiting s') ++ q_list (skipped_waiting s') ->
             x ∈ q_list (waiting s) ++ q_list (skipped_waiting s)) ->
  selected_long_prefill_ids t' = selected_long_prefill_ids t -> defer_prefills t' = defer_prefills t ->
  (forall x, x ∈ dkeys (num_scheduled_tokens t') -> x ∈ dkeys (num_scheduled_tokens t)) ->
  admitted t' = admitted t ->
  turn_inv s t -> turn_inv s' t'.
Proof.
  intros Ht Hc Ho Hq Hs Hd Hk Had [Hcore Hi Hp Hst].
  assert (forall x, req s' x = req s x) as Hr by (intros x; unfold req; by rewrite Ho).
  constructor; [by apply (turn_core_fields s s' t t')|..]; intros x; rewrite Hr; auto.
Qed.

Lemma turn_inv_quiet s s' t : quiet s s' -> turn_inv s t -> turn_inv s' t.
Proof.
  intros [[F1 F2 F3 F4 F5 F6 F7] P S T C] [Hcore Hi Hp Hst].
  constructor; [by apply (turn_core_fields s s' t t)|..]; intros x; [by rewrite F6|by rewrite P|].
  rewrite F2, F3. intros Hx Hq. destruct (S x) as [->|]; [by apply Hst|done].
Qed.

(** ** The loop over the running requests *)

(** The invariant there: the running requests are some of those at the start,
    all of them until one is preempted. *)
Record run_turns s t : Prop := mkRunTurns {
  rt_inv : turn_inv s t;
  rt_running x : x ∈ running s -> x ∈ running s1;
  rt_all : preempted_reqs t = [] -> running s = running s1
}.

Lemma pop_victim_fields s t v s' t' :
  pop_victim cfg s t = Ok (v, s', t') ->
  (exists l, s' = s <| running := l |> /\ forall x, x ∈ l -> x ∈ running s) /\ v ∈ running s /\
  selected_long_prefill_ids t' = selected_long_prefill_ids t /\ defer_prefills t' = defer_prefills t /\
  admitted t' = admitted t /\
  forall x, x ∈ dkeys (num_scheduled_tokens t') -> x ∈ dkeys (num_scheduled_tokens t).
Proof.
  unfold pop_victim. destruct (policy cfg).
  - destruct (pop_last (running s)) as [[rest w]|] eqn:Hp; [|done]. intros [= -> <- <-].
    apply pop_last_spec in Hp. split_and!; try done; [exists rest; split; [done|]|]; rewrite Hp; set_solver.
  - destruct (max_by _ _) as [w|] eqn:Hm; [|done]. apply max_by_in in Hm.
    assert (forall x, x ∈ remove_first w (running s) -> x ∈ running s) as Hr
      by (intros x; apply elem_of_remove_first).
    break_if; [|intros [= -> <- <-]; by split_and!; try eexists].
    destruct (dindex (num_scheduled_tokens t) w); cbn [rbind]; [|done].
    destruct (dindex (req_to_new_blocks t) w); cbn [rbind]; [|done].
    intros [= -> <- <-]. split_and!; try done; [by eexists|].
    intros x. simpl. rewrite dkeys_ddel. apply elem_of_remove_first.
Qed.

(** A victim is preempted: it waits at the head of its queue. *)
Lemma preempt_turns s t v drop s' :
  turn_inv s t -> request_id (req s v) = v -> _preempt_request cfg v drop s = Ok s' ->
  turn_inv s' t /\ running s' = running s.
Proof.
  intros [Hcore Hi Hp Hst] Hid Hrun. apply preempt_request_spec in Hrun as (_ & e & d & ->).
  set (s0 := s <| env := e |> <| deferred_frees := d |> <| _inflight_prefills ::= fun X => X ∖ {[v]} |>).
  assert (forall x, req ((upd_req v (preempted_fields drop) s0)
            <| waiting := q_prepend (preempted_fields drop (req s v)) (waiting s) |>
            <| reset_preempted_req_ids ::= union {[v]} |>) x =
         if bool_decide (v = x) then preempted_fields drop (req s v) else req s x) as Hreq.
  { intros x. exact (req_upd s0 v x (preempted_fields drop)). }
  split; [|done]. constructor; [by apply (turn_core_fields s _ t t)|..].
  - intros x. rewrite Hreq. destruct (bool_decide_reflect (v = x)) as [<-|]; [apply Hi|apply Hi].
  - intros x. rewrite Hreq. destruct (bool_decide_reflect (v = x)) as [<-|]; [apply Hp|apply Hp].
  - intros x Hx. rewrite Hreq. simpl. rewrite q_prepend_list. simpl. rewrite Hid.
    destruct (bool_decide_reflect (v = x)) as [<-|Hne]; [intros _; simpl; set_solver|].
    intros [->|Hq]%elem_of_cons; [done|]. by apply Hst.
Qed.

Lemma run_turns_id s t v : run_turns s t -> v ∈ running s -> request_id (req s v) = v.
Proof.
  intros [[_ Hi _ _] Hr _] Hv. rewrite Hi. apply (SchedRunning.so_ids _ _ Hstate). unfold held.
  apply Hr in Hv. set_solver.
Qed.

(** The allocation loop of one request. *)
Lemma alloc_loop_turns id n k s t s' t' nb :
  run_turns s t -> while k (allocate_body cfg id n) (s, t, None) = Ok (s', t', nb) -> run_turns s' t'.
Proof.
  set (P := fun x : sched E Q * step B Q * option B => let '(s, t, _) := x in run_turns s t).
  intros Hx Hrun. change (P (s', t', nb)). revert Hrun. apply (while_inv P); [exact Hx|..]; clear s t s' t' nb Hx;
    unfold P; intros [[s t] nb] [[s' t'] nb'] Hx; unfold allocate_body;
    destruct (kv_allocate_slots _ _ _) as [e [b|]]; try done.
  2:{ intros [= <- <- <-]. destruct Hx as [Hx Hr Ha]. constructor; auto.
      exact (turn_inv_quiet _ _ _ (quiet_env s e) Hx). }
  all: destruct (pop_victim _ _ _) as [[[v sa] ta]|] eqn:Hpop; cbn [rbind]; [|done].
  all: destruct (_preempt_request _ _ _ _) as [sb|] eqn:Hpre; cbn [rbind]; [|done].
  all: destruct (bool_decide_reflect (v = id)) as [Hvid|Hvid]; intros Heq; try discriminate Heq; injection Heq as <- <- <-; clear Hvid.
  all: apply pop_victim_fields in Hpop as ((l & -> & Hl) & Hv & P1 & P2 & P4 & P3).
  all: pose proof (run_turns_id _ _ v Hx Hv) as Hid.
  all: destruct Hx as [Hx Hr Ha].
  all: assert (turn_inv (s <| env := e |> <| running := l |>) ta) as Hx'
      by (apply (turn_inv_fields s _ t ta); auto).
  all: destruct (preempt_turns _ _ v _ _ Hx' Hid Hpre) as [Hinv' Hrun'].
  all: constructor; [|intros x; rewrite Hrun'; simpl; auto|simpl; intros Hnil; by apply app_nil in Hnil as [_ ?]].
  all: apply (turn_inv_fields sb _ ta _); auto.
Qed.

Lemma commit_running_turns id n b inputs ext eb pf lg s t :
  let x := commit_running cfg id n b inputs ext eb pf lg (s, t) in
  current_step (fst x) = current_step s /\
  selected_long_prefill_ids (snd x) = selected_long_prefill_ids t /\
  defer_prefills (snd x) = defer_prefills t /\
  (forall y, last_turn (fst x) y =
     if enable_decode_aware_prefill cfg && pf && lg && bool_decide (y = id)
     then current_step s else last_turn s y) /\
  (forall y, num_prompt_tokens (req (fst x) y) = num_prompt_tokens (req s y) /\
             status (req (fst x) y) = status (req s y)).
Proof.
  unfold commit_running.
  set (c1 := enable_decode_aware_prefill cfg && pf). set (c2 := c1 && lg).
  set (c3 := nonempty (spec_token_ids (req s id)) && _).
  cbv zeta. split_and!.
  1-3: destruct c1, c2, c3, (nonempty inputs); reflexivity.
  - intros y. destruct (bool_decide_reflect (y = id)) as [->|Hne];
      destruct c2; unfold last_turn; simpl; rewrite ?lookup_insert_eq, ?lookup_insert_ne by done; done.
  - intros y. destruct c2; unfold req; simpl; destruct (decide (id = y)) as [<-|Hne];
      rewrite ?lookup_total_insert_eq, ?lookup_total_insert_ne by done; done.
Qed.

(** Committing a request charges it if it is selected, and leaves the turn of a
    candidate that was passed over. *)
Lemma commit_run_turns id n b inputs ext eb pf lg s t :
  run_turns s t ->
  (id ∈ sel -> enable_decode_aware_prefill cfg && pf && lg = true) ->
  (id ∉ sel -> enable_decode_aware_prefill cfg && pf && lg = false) ->
  let x := commit_running cfg id n b inputs ext eb pf lg (s, t) in run_turns (fst x) (snd x).
Proof.
  intros [[[C1 C2 C3 C4 C5 C6] Hi Hp Hst] Hr Ha] Hsel1 Hsel2 x.
  pose proof (commit_running_fields cfg id n b inputs ext eb pf lg s t) as Hf.
  pose proof (commit_running_turns id n b inputs ext eb pf lg s t) as Ht.
  cbv zeta in Hf, Ht. fold x in Hf, Ht.
  destruct Hf as ([F1 F2 F3 F4 F5 F6 F7] & _ & _ & _ & K & _ & _ & Pr & A1 & A2 & _).
  assert (admitted (snd x) = admitted t) as Ad by (unfold admitted; by rewrite A1, A2).
  destruct Ht as (T1 & T2 & T3 & T4 & T5).
  constructor; rewrite ?F1, ?Pr; auto. constructor; rewrite ?F2, ?F3.
  - constructor; rewrite ?T1, ?T2, ?T3, ?Ad; auto.
    + intros y. rewrite T4. break_if; [left; done|done].
    + intros y Hy. rewrite K, dkeys_dset, T4. intros Hk.
      destruct (bool_decide_reflect (y = id)) as [->|Hne]; [by rewrite Hsel1|].
      rewrite andb_false_r. apply C5; [done|]. case_bool_decide; [done|set_solver].
    + intros y Hy. rewrite T4. destruct (bool_decide_reflect (y = id)) as [->|Hne].
      * rewrite Hsel2 by done. by apply C6.
      * rewrite andb_false_r. auto.
  - intros y. by rewrite F6.
  - intros y. by rewrite (proj1 (T5 y)).
  - intros y. rewrite (proj2 (T5 y)). auto.
Qed.

(** Both invariants of the loop. *)
Definition run_both (x : sched E Q * step B Q) : Prop :=
  run_state cfg s1 (held s1) x /\ run_turns (fst x) (snd x).

Lemma running_body_turns x c :
  run_both x -> running_body cfg x = Ok c ->
  run_turns (fst (match c with Continue y | Break y => y end))
            (snd (match c with Continue y | Break y => y end)).
Proof.
  destruct x as [s t]. intros [Hinv Hx]. unfold run_state in Hinv. simpl in Hinv, Hx.
  unfold running_body. cbv beta iota.
  destruct ((req_index t <? Z.of_nat (length (running s))) && (0 <? token_budget t)) eqn:Hc; simpl;
    [|by intros [= <-]].
  apply andb_true_iff in Hc as [_ Hb%Z.ltb_lt].
  destruct (running s !! Z.to_nat (req_index t)) as [id|] eqn:Hid; [|done].
  assert (forall s' t', objs s' = objs s -> framed s s' ->
    _long_prefill_last_scheduled s' = _long_prefill_last_scheduled s -> current_step s' = current_step s ->
    selected_long_prefill_ids t' = selected_long_prefill_ids t -> defer_prefills t' = defer_prefills t ->
    num_scheduled_tokens t' = num_scheduled_tokens t -> preempted_reqs t' = preempted_reqs t ->
    admitted t' = admitted t ->
    run_turns s' t') as Hsame.
  { intros s' t' E1 F E2 E3 E4 E5 E6 E7 E8. destruct Hx as [Hx Hr Ha]. destruct F as [F1 F2 F3 _ _ _ _].
    constructor; rewrite ?F1, ?E7; auto.
    apply (turn_inv_fields s s' t t'); rewrite ?F2, ?F3, ?E6; auto. }
  destruct (running_gate cfg s t (req s id)) eqn:Hg.
  2-3: intros [= <-]; simpl; apply Hsame; auto with py.
  destruct (encoder_adjust _ _ _ _ _ _) as [[e [[[inputs n] eb] ext]]|] eqn:Henc; cbn [rbind]; [|done].
  destruct (chunk_bounds cfg s1 (held s1) s t id e inputs n eb ext Hcfg Hstate Hinv Hb Hid Hg Henc)
    as [Hcur Hn].
  set (n' := if need_mamba_block_aligned_split cfg then _ else n) in *.
  cbv zeta. fold n'. destruct (Z.eqb_spec n' 0) as [|Hnz].
  { intros [= <-]. simpl. apply Hsame; auto with py. }
  destruct (while _ _ _) as [[[s2 t2] nb]|] eqn:Hloop; cbn [rbind]; [|done].
  apply alloc_loop_turns in Hloop; [|apply Hsame; auto with py].
  destruct nb as [b|]; intros [= <-]; [|done].
  assert (id ∈ running s) as Hin by by eapply list_elem_of_lookup_2.
  assert (id ∈ running s1) as Hin1 by by apply (rt_running _ _ Hx).
  assert (req s id = req s1 id) as Hreq by (apply (ri_untouched _ _ _ _ _ Hinv); [done|apply Hcur]).
  apply commit_run_turns; [done|..]; rewrite Hreq.
  - intros Hs. destruct (sel_running id Hs Hin1) as [-> ->]. by destruct (Hsel id Hs) as [_ ->].
  - intros Hs. destruct (enable_decode_aware_prefill cfg) eqn:He; [|done].
    destruct (_is_long_prefill_request cfg (req s1 id)) eqn:Hl; [|by rewrite andb_false_r].
    exfalso. unfold running_gate in Hg.
    rewrite He, Hreq, Hl, (tc_sel _ _ (ti_core _ _ (rt_inv _ _ Hx))) in Hg.
    rewrite (SchedRunning.so_ids _ _ Hstate id) in Hg by (unfold held; set_solver).
    rewrite (bool_decide_eq_true_2 (id ∉ sel)) in Hg by done. simpl in Hg.
    repeat break_if; done.
Qed.

Lemma running_loop_turns x x' :
  run_both x -> running_loop cfg x = Ok x' -> run_both x'.
Proof.
  intros Hx. unfold running_loop. apply (while_inv run_both run_both); [done|..];
    intros y y' Hy Hb; split; try (by apply (running_body_turns y _ Hy Hb));
    destruct (running_body_inv cfg s1 (held s1) y Hcfg Hstate (SchedRunning.so_ids _ _ Hstate) (proj1 Hy)); auto.
Qed.

(** ** The loop over the waiting requests *)

Definition queued_ids s : list string := q_list (waiting s) ++ q_list (skipped_waiting s).

(** The invariant there: what ran when the step started still runs. *)
Record wait_turns s t : Prop := mkWaitTurns {
  wt_inv : turn_inv s t;
  wt_running x : x ∈ running s1 -> x ∈ running s
}.

Lemma wait_turns_quiet s s' t : quiet s s' -> wait_turns s t -> wait_turns s' t.
Proof.
  intros Hq [Hx Hr]. constructor; [by eapply turn_inv_quiet|].
  intros x. rewrite (SchedRunning.fr_running _ _ (qu_framed _ _ Hq)). auto.
Qed.

(** The popped request has left the two queues. *)
Lemma pop_queue_fields w id s id' s' L t :
  wait_inv cfg s1 L s t -> q_peek (get_queue w s) = Some id -> pop_queue w s = Ok (id', s') ->
  running s' = running s /\ objs s' = objs s /\ current_step s' = current_step s /\
  _long_prefill_last_scheduled s' = _long_prefill_last_scheduled s /\
  (forall x, x ∈ queued_ids s' -> x ∈ queued_ids s /\ x <> id) /\ id ∈ queued_ids s /\ id ∉ running s.
Proof.
  intros Hinv Hpeek Hpop.
  destruct (pop_queue_spec _ _ _ _ _ Hpeek Hpop) as (-> & Hh & Ho & Hr & _).
  pose proof (wi_nodup _ _ _ _ _ Hinv) as Hn. rewrite <- (wi_held _ _ _ _ _ Hinv), Hh in Hn.
  simpl in Hn. apply NoDup_cons in Hn as [Hni _]. unfold held in Hni. rewrite Hr in Hni.
  rewrite !elem_of_app in Hni.
  do 2 (split; [done|]). unfold pop_queue in Hpop. rewrite q_peek_pop in Hpeek.
  destruct (q_pop (get_queue w s)) as [[y q]|] eqn:Hq; [|done]. injection Hpeek as ->.
  injection Hpop as <-. apply q_pop_list in Hq.
  assert (id ∉ queued_ids (set_queue w q s)) as Hniq.
  { intros Hx. apply Hni. unfold queued_ids in Hx. rewrite elem_of_app in Hx. tauto. }
  do 2 (split; [by destruct w|]). split.
  - intros x Hx. split; [|by intros ->]. revert Hx. unfold queued_ids.
    destruct w; simpl in *; rewrite Hq, !elem_of_app, elem_of_cons; tauto.
  - split; [|tauto]. unfold queued_ids. destruct w; simpl in *; rewrite Hq, elem_of_app, elem_of_cons; tauto.
Qed.

Lemma skip_waiting_turns w id s t c :
  wait_inv cfg s1 (held s1) s t -> wait_turns s t -> q_peek (get_queue w s) = Some id ->
  skip_waiting w id s t = Ok c ->
  exists s' t', c = Continue (s', t') /\ wait_turns s' t'.
Proof.
  intros Hinv [Hx Hr] Hpeek. unfold skip_waiting.
  destruct (pop_queue w s) as [[id' s2]|] eqn:Hpop; cbn [rbind]; [|done].
  destruct (pop_queue_fields _ _ _ _ _ _ _ Hinv Hpeek Hpop) as (P1 & P2 & P3 & P4 & P5 & _).
  intros [= <-]. do 2 eexists. split; [done|]. constructor; [|by rewrite P1].
  apply (turn_inv_fields s s2 t _); auto. intros x Hq. by apply P5.
Qed.

(** Parking changes the status of the request it parks, which has left the
    queues. *)
Lemma park_turns id l s t :
  wait_turns s t -> id ∉ queued_ids s ->
  wait_turns (fst (park_async cfg id l s t)) (snd (park_async cfg id l s t)).
Proof.
  intros [[Hcore Hi Hp Hst] Hr] Hni. set (x := park_async cfg id l s t).
  assert (running (fst x) = running s /\ queued_ids (fst x) = queued_ids s) as [Er Eq]
    by (split; unfold x, park_async; cbv zeta; by break_if).
  assert (forall y, request_id (req (fst x) y) = request_id (req s y) /\
    num_prompt_tokens (req (fst x) y) = num_prompt_tokens (req s y) /\
    (y <> id -> status (req (fst x) y) = status (req s y))) as Hreq.
  { intros y. unfold x, park_async. cbv zeta. break_if; cbn [fst]; unfold req; simpl;
      unfold req; simpl; destruct (decide (id = y)) as [<-|Hne];
      rewrite ?lookup_total_insert_eq, ?lookup_total_insert_ne by done; done. }
  constructor; [|by rewrite Er]. constructor.
  - apply (turn_core_fields s _ t _); [..|exact Hcore]; unfold x, park_async; cbv zeta; by break_if.
  - intros y. by rewrite (proj1 (Hreq y)).
  - intros y. by rewrite (proj1 (proj2 (Hreq y))).
  - intros y Hy Hq. fold (queued_ids (fst x)) in Hq. rewrite Eq in Hq.
    rewrite (proj2 (proj2 (Hreq y))) by naive_solver. by apply Hst.
Qed.

Lemma commit_waiting_turns id n pad inputs ext eb l s t s' t' :
  commit_waiting cfg id n pad inputs ext eb l s t = Ok (s', t') ->
  current_step s' = current_step s /\
  selected_long_prefill_ids t' = selected_long_prefill_ids t /\ defer_prefills t' = defer_prefills t /\
  (forall y, last_turn s' y =
     if enable_decode_aware_prefill cfg && _is_long_prefill_request cfg (req s id) && bool_decide (y = id)
     then current_step s else last_turn s y) /\
  (forall y, num_prompt_tokens (req s' y) = num_prompt_tokens (req s y) /\
             (y <> id -> status (req s' y) = status (req s y))).
Proof.
  unfold commit_waiting. cbn [rbind].
  change (req (s <| running ::= fun r => r ++ [id] |>) id) with (req s id).
  set (t1 := match status (req s id) with WAITING => _ | _ => _ end).
  destruct t1 as [t2|] eqn:Ht1; cbn [rbind]; [|done].
  assert (selected_long_prefill_ids t2 = selected_long_prefill_ids t /\
          defer_prefills t2 = defer_prefills t) as [<- <-].
  { subst t1. destruct (status (req s id)); try discriminate Ht1; by injection Ht1 as <-. }
  clear Ht1 t1. cbv zeta.
  set (c1 := enable_decode_aware_prefill cfg). set (c2 := c1 && _).
  set (c3 := l_computed l + n <? _). intros [= <- <-]. split_and!.
  1-3: destruct (max_loras cfg), (lora_int_id (req s id)), c1, c2, c3, pad, (nonempty inputs); reflexivity.
  - intros y. destruct (bool_decide_reflect (y = id)) as [->|Hne];
      destruct c2, c3; unfold last_turn; simpl; rewrite ?lookup_insert_eq, ?lookup_insert_ne by done; done.
  - intros y. destruct c2, c3; unfold req; simpl; destruct (decide (id = y)) as [<-|Hne];
      rewrite ?lookup_total_insert_eq, ?lookup_total_insert_ne by done; done.
Qed.

(** Admitting a queued request charges it if it is selected. *)
Lemma commit_wait_turns id n pad inputs ext eb l s t s' t' :
  wait_turns s t -> id ∉ queued_ids s -> id ∉ running s ->
  (id ∈ sel -> status (req s id) ∈ [WAITING; PREEMPTED]) ->
  commit_waiting cfg id n pad inputs ext eb l s t = Ok (s', t') -> wait_turns s' t'.
Proof.
  intros [[[C1 C2 C3 C4 C5 C6] Hi Hp Hst] Hr] Hni Hnr Hid Hrun.
  pose proof (commit_waiting_turns _ _ _ _ _ _ _ _ _ _ _ Hrun) as (T1 & T2 & T3 & T4 & T5).
  apply commit_waiting_fields in Hrun as (F1 & F2 & F3 & _ & _ & F6 & _ & K & _ & _ & _ & Ad).
  assert (id ∈ sel -> _is_long_prefill_request cfg (req s id) = true) as Hlong.
  { intros Hs. unfold _is_long_prefill_request. rewrite Hp, (sel_long _ Hs).
    specialize (Hid Hs). apply elem_of_cons in Hid as [-> | ->%list_elem_of_singleton]; done. }
  constructor; [|intros x Hx; rewrite F1; apply elem_of_app; auto]. constructor; rewrite ?F2, ?F3.
  - constructor; rewrite ?T1, ?T2, ?T3; auto.
    + intros y. rewrite T4. break_if; auto.
    + intros y Hy. rewrite K, dkeys_dset, T4. intros Hk.
      destruct (bool_decide_reflect (y = id)) as [->|Hne].
      * destruct (Hsel id Hy) as [_ ->]. by rewrite Hlong.
      * rewrite andb_false_r. apply C5; [done|]. case_bool_decide; [done|set_solver].
    + intros y Hy. rewrite T4, Ad. destruct (bool_decide_reflect (y = id)) as [->|Hne];
        [right; left|].
      rewrite andb_false_r. destruct (C6 y Hy); [by left|by right; right].
  - intros y. by rewrite (proj1 (F6 y)).
  - intros y. by rewrite (proj1 (T5 y)).
  - intros y Hy Hq. rewrite (proj2 (T5 y)); [by apply Hst|]. intros ->. by apply Hni.
Qed.

Lemma place_waiting_turns w id n pad inputs ext eb l s t c :
  wait_inv cfg s1 (held s1) s t -> wait_turns s t -> q_peek (get_queue w s) = Some id ->
  place_waiting cfg w id n pad inputs ext eb l s t = Ok c ->
  match c with Continue x | Break x => wait_turns (fst x) (snd x) end.
Proof.
  intros Hinv Hx Hpeek. unfold place_waiting.
  destruct (kv_allocate_slots _ _ _) as [e [b|]].
  2:{ intros [= <-]. simpl. eapply wait_turns_quiet; [|exact Hx]. break_if; auto with py. }
  set (sa := if connector cfg then _ else _).
  assert (quiet s sa) as Hq by (subst sa; break_if; auto with py).
  apply (wait_turns_quiet _ _ _ Hq) in Hx.
  apply (wait_inv_framed _ _ _ _ _ _ (qu_framed _ _ Hq)) in Hinv.
  rewrite <- (get_queue_framed w _ _ (qu_framed _ _ Hq)) in Hpeek.
  clearbody sa. clear Hq. destruct (pop_queue w sa) as [[id' s2]|] eqn:Hpop; cbn [rbind]; [|done].
  destruct (pop_queue_fields _ _ _ _ _ _ _ Hinv Hpeek Hpop) as (P1 & P2 & P3 & P4 & P5 & P6 & P7).
  assert (id ∉ queued_ids s2) as Hni by (intros Hq; by apply P5 in Hq as [_ ?]).
  assert (wait_turns s2 t) as Hx2.
  { destruct Hx as [Hx Hr]. constructor; [|by rewrite P1].
    apply (turn_inv_fields sa s2 t t); auto. intros x Hq. by apply P5. }
  destruct (l_async l).
  - intros [= <-]. pose proof (park_turns id l s2 t Hx2 Hni) as Hpark.
    by destruct (park_async cfg id l s2 t).
  - destruct (commit_waiting _ _ _ _ _ _ _ _ _ _) as [[s3 t3]|] eqn:Hc; cbn [rbind]; [|done].
    intros [= <-]. apply commit_wait_turns in Hc; [done|done|done|by rewrite P1|].
    intros Hs. unfold req. rewrite P2. by apply (ti_status _ _ (wt_inv _ _ Hx)).
Qed.

(** One round of the waiting loop. *)
Lemma waiting_body_turns s t c :
  wait_inv cfg s1 (held s1) s t -> wait_turns s t -> waiting_body cfg (s, t) = Ok c ->
  match c with Continue x | Break x => wait_turns (fst x) (snd x) end.
Proof.
  intros Hinv Hx. unfold waiting_body. cbv beta iota.
  break_if; [by intros [= <-]|]. break_if; [by intros [= <-]|].
  destruct (_select_waiting_queue_for_scheduling cfg s) as [w|]; [|done].
  destruct (q_peek (get_queue w s)) as [id|] eqn:Hpeek; [|done].
  set (m := if _is_blocked_waiting_status _ then _ else _).
  destruct m as [[sa ready]|] eqn:Hm; cbn [rbind]; [|done].
  assert (quiet s sa) as Q1.
  { subst m. break_if; [by eapply promote_quiet|]. injection Hm as <- _. reflexivity. }
  clear Hm m.
  assert (forall s', quiet s s' -> wait_inv cfg s1 (held s1) s' t /\ wait_turns s' t /\
    q_peek (get_queue w s') = Some id) as Hfacts.
  { intros s' Hq. split; [by apply (wait_inv_framed _ _ _ _ _ _ (qu_framed _ _ Hq))|].
    split; [by eapply wait_turns_quiet|]. by rewrite (get_queue_framed w _ _ (qu_framed _ _ Hq)). }
  assert (forall s' c', quiet s s' -> skip_waiting w id s' t = Ok c' ->
    match c' with Continue x | Break x => wait_turns (fst x) (snd x) end) as Hskip.
  { intros s' c' Hq Hsk. destruct (Hfacts s' Hq) as (Hi' & Hx' & Hp').
    by destruct (skip_waiting_turns _ _ _ _ _ Hi' Hx' Hp' Hsk) as (s2 & t2 & -> & Hx2). }
  repeat (break_if; [by apply Hskip|]).
  destruct (lookup_computed cfg id sa) as [[sb found]|] eqn:Hlk; cbn [rbind]; [|done].
  assert (quiet s sb) as Q2 by (etrans; [exact Q1|]; by eapply lookup_computed_quiet).
  destruct found as [l|]; [|by apply Hskip].
  destruct (waiting_num_new_tokens cfg id l sb t) as [[sc v]|] eqn:Hv; cbn [rbind]; [|done].
  assert (quiet s sc) as Q3 by (etrans; [exact Q2|]; by eapply waiting_tokens_quiet).
  destruct (Hfacts sc Q3) as (Hi3 & Hx3 & Hp3).
  destruct v as [|n pad inputs eb ext]; [by intros [= <-]|].
  break_if; [by intros [= <-]|]. by apply place_waiting_turns.
Qed.

(** What the waiting loop leaves of the turns. *)
Lemma waiting_loop_turns s t s' t' :
  run_both (s, t) -> waiting_loop cfg (s, t) = Ok (s', t') ->
  turn_core s' t' /\ _pause_state s' = _pause_state s1.
Proof.
  intros [Hinv [Hx Hr Ha]]. unfold run_state in Hinv. simpl in *. unfold waiting_loop. break_if.
  2:{ intros [= <- <-]. split; [apply Hx|apply Hinv]. }
  bool_prop.
  destruct (while _ _ _) as [[sa ta]|] eqn:Hloop; cbn [rbind]; [|done].
  set (P := fun x : sched E Q * step B Q =>
    wait_inv cfg s1 (held s1) (fst x) (snd x) /\ wait_turns (fst x) (snd x)).
  assert (P (sa, ta)) as [Hw [Hy _]].
  { revert Hloop. apply (while_inv P).
    - split; [by apply run_to_wait; [apply Hstate|]|]. constructor; [|intros x; simpl; by rewrite Ha].
      by apply (turn_inv_fields s s t _).
    - intros [sb tb] [sc tc] [Hi Ht] Hb. split; [|by apply (waiting_body_turns sb tb _ Hi Ht Hb)].
      apply (waiting_body_inv cfg s1 (held s1)) in Hb; [apply Hb|..]; auto. apply Hstate.
    - intros [sb tb] [sc tc] [Hi Ht] Hb. split; [|by apply (waiting_body_turns sb tb _ Hi Ht Hb)].
      apply (waiting_body_inv cfg s1 (held s1)) in Hb; [apply Hb|..]; auto. apply Hstate. }
  intros [= <- <-]. split.
  - apply (turn_core_fields sa _ ta ta); [by repeat break_if..|apply Hy].
  - rewrite <- (wi_pause _ _ _ _ _ Hw). by repeat break_if.
Qed.
End Loops.

(** ** The operations between two steps *)

Section Between.

(** What selects a request: its last turn, and the number of the step. *)
Definition turns_of s : gmap string Z * Z := (_long_prefill_last_scheduled s, current_step s).

Lemma free_request_turns cfg id d s s' : _free_request cfg id d s = Ok s' -> turns_of s' = turns_of s.
Proof.
  unfold _free_request, require. break_if; cbn [rbind]; [|done].
  destruct (_connector_finished _ _ _) as [[sa da]|] eqn:E1; cbn [rbind]; [|done].
  apply connector_finished_env in E1 as (e & ->).
  destruct (ec_connector cfg); [destruct (ec_request_finished _ _) as [e' d']|]; cbv zeta;
    (break_if; [by intros [= <-]|]); intros Hrun;
    by apply free_blocks_spec in Hrun as (e2 & d2 & ->).
Qed.

Lemma unqueue_turns R W s : turns_of (unqueue R W s) = turns_of s.
Proof. unfold unqueue. by repeat break_if. Qed.

Lemma finish_one_turns cfg st s id s' : finish_one cfg st s id = Ok s' -> turns_of s' = turns_of s.
Proof. unfold finish_one. break_if; intros Hrun; by apply free_request_turns in Hrun. Qed.

Lemma finish_requests_turns cfg ids st s s' valid :
  finish_requests cfg ids st s = Ok (s', valid) -> turns_of s' = turns_of s.
Proof.
  unfold finish_requests, require. break_if; cbn [rbind]; [|done]. rewrite finish_collect_spec.
  destruct (rfold _ _ _) as [sb|] eqn:Ef; cbn [rbind]; [|done]. intros [= <- _].
  apply (rfold_inv (fun s' => turns_of s' = turns_of s)) in Ef; [done|by rewrite unqueue_turns|].
  intros sa id sc _ Ha Hf. apply finish_one_turns in Hf. congruence.
Qed.

Lemma enqueue_turns id s : turns_of (_enqueue_waiting_request id s) = turns_of s.
Proof. unfold _enqueue_waiting_request. by break_if. Qed.

Lemma session_turns id u s : turns_of (_update_request_as_session id u s) = turns_of s.
Proof. unfold _update_request_as_session. by break_if. Qed.

Lemma handle_stopped_turns id s : turns_of (fst (_handle_stopped_request id s)) = turns_of s.
Proof.
  unfold _handle_stopped_request. break_if; [done|].
  destruct (default [] _) as [|[u|] rest]; cbn [fst]; rewrite ?enqueue_turns, ?session_turns; done.
Qed.

Lemma add_request_turns cfg r s s' : add_request cfg r s = Ok s' -> turns_of s' = turns_of s.
Proof.
  unfold add_request. break_if.
  - break_if; [destruct (streaming_queue _); [by intros [= <-]|done]|].
    destruct (update_from_request r) as [u|]; [intros [= <-]; apply session_turns|].
    destruct (finish_requests _ _ _ _) as [[sa v]|] eqn:Hf; cbn [rbind]; [|done].
    intros [= <-]. by apply finish_requests_turns in Hf.
  - intros [= <-]. set (r' := if resumable r then _ else r).
    transitivity (turns_of (_enqueue_waiting_request (request_id r) (upd_req (request_id r) (fun _ => r') s))).
    + by break_if.
    + by rewrite enqueue_turns.
Qed.

Lemma set_draft_turns s x : turns_of (set_draft s x) = turns_of s.
Proof. destruct x as [id spec]. unfold set_draft. by repeat break_if. Qed.

Lemma update_draft_turns drafts s : turns_of (update_draft_token_ids drafts s) = turns_of s.
Proof.
  unfold update_draft_token_ids. revert s. induction drafts as [|x drafts IH]; intros s; simpl; [done|].
  by rewrite IH, set_draft_turns.
Qed.

Lemma free_blocks_turns cfg id s s' : _free_blocks cfg id s = Ok s' -> turns_of s' = turns_of s.
Proof. intros Hrun. by apply free_blocks_spec in Hrun as (e & d & ->). Qed.

Lemma kv_xfer_turns cfg o s s' : _update_from_kv_xfer_finished cfg o s = Ok s' -> turns_of s' = turns_of s.
Proof.
  unfold _update_from_kv_xfer_finished. set (sa := if connector cfg then _ else s).
  assert (turns_of sa = turns_of s) as Ha by (subst sa; by break_if). clearbody sa.
  destruct (rfold (finish_recving cfg) sa _) as [sb|] eqn:Ef; cbn [rbind]; [|done].
  apply (rfold_inv (fun s' => turns_of s' = turns_of s)) in Ef; [|done|].
  - apply (rfold_inv (fun s' => turns_of s' = turns_of s)); [done|].
    intros sb' id s2 _ Hb Hf. unfold finish_sending, require in Hf.
    revert Hf. break_if; cbn [rbind]; [|done]. intros Hf%free_blocks_turns. congruence.
  - intros sb' id s2 _ Hb Hf. unfold finish_recving, require in Hf.
    revert Hf. break_if; cbn [rbind]; [|done]. break_if; [by intros [= <-]|].
    break_if; cbn [rbind]; [|done]. intros Hf%free_blocks_turns. congruence.
Qed.

Lemma scan_turns cfg ids invalid ns evict s s' a :
  _update_requests_with_invalid_blocks cfg ids invalid ns evict s = Ok (s', a) ->
  turns_of s' = turns_of s.
Proof.
  unfold _update_requests_with_invalid_blocks. intros Ef.
  apply (rfold_inv (fun x => turns_of (fst x) = turns_of s)) in Ef; [done|done|].
  intros [s1 a1] id [s2 a2] _ Hb. simpl in Hb. unfold scan_request.
  destruct (kv_get_block_ids _ _) as [|blocks [|? ?]]; try done.
  break_if; [break_if|]; by intros [= <- _].
Qed.

Lemma handle_invalid_turns cfg invalid ns s s' failed :
  _handle_invalid_blocks cfg invalid ns s = Ok (s', failed) -> turns_of s' = turns_of s.
Proof.
  unfold _handle_invalid_blocks.
  destruct (_update_requests_with_invalid_blocks _ _ _ _ false s) as [[sa a]|] eqn:Ea; cbn [rbind]; [|done].
  destruct (_update_requests_with_invalid_blocks _ _ _ _ true sa) as [[sb b]|] eqn:Eb; cbn [rbind]; [|done].
  apply scan_turns in Ea, Eb. rewrite <- Ea, <- Eb. by repeat break_if; intros [= <- _].
Qed.

Lemma count_drafts_turns cfg id sch gen stale s u :
  turns_of (fst (count_drafts cfg id sch gen stale (s, u))) = turns_of s.
Proof. unfold count_drafts. by break_if. Qed.

Lemma advance_grammar_turns id tokens stopped s :
  turns_of (fst (advance_grammar id tokens stopped s)) = turns_of s.
Proof.
  unfold advance_grammar. repeat (break_if; [|done]). destruct (so_accept_tokens _ _ _) as [e [|]]; done.
Qed.

Lemma settle_turns cfg id before s u s' u' :
  settle_stopped cfg id before (s, u) = Ok (s', u') -> turns_of s' = turns_of s.
Proof.
  unfold settle_stopped. pose proof (handle_stopped_turns id s) as Hs.
  destruct (_handle_stopped_request id s) as [sa [|]]; cbn [rbind fst] in *; [|by intros [= <- _]].
  destruct (_free_request cfg id false sa) as [sb|] eqn:Hf; cbn [rbind]; [|done].
  intros [= <- _]. apply free_request_turns in Hf. congruence.
Qed.

Lemma process_output_turns cfg o m id stale index s u s' u' :
  process_output cfg o m id stale index (s, u) = Ok (s', u') -> turns_of s' = turns_of s.
Proof.
  unfold process_output. destruct (match m_sampled_token_ids m with [] => _ | _ => _ end) as [gen|];
    cbn [rbind]; [|done].
  set (sched := default [] _). pose proof (count_drafts_turns cfg id sched gen stale s u) as H1'.
  destruct (count_drafts cfg id sched gen stale (s, u)) as [s1 u1]. cbn [fst] in H1'.
  set (s2 := if has_encoder_inputs (req s1 id) then _ else s1).
  assert (turns_of s2 = turns_of s) as H2' by (subst s2; break_if; exact H1').
  destruct (match m_pooler_outputs m with [] => _ | _ => _ end) as [pooled|]; cbn [rbind]; [|done].
  set (x := if nonempty gen then _ else _).
  destruct x as [[s3 tokens] stopped] eqn:Hx.
  assert (turns_of s3 = turns_of s) as H3'.
  { subst x. rewrite <- H2'. revert Hx. break_if; [|break_if; by intros [= <- _ _]].
    unfold _update_request_with_output. destruct (append_tokens _ _ _) as [[r k] b].
    by intros [= <- _ _]. }
  pose proof (advance_grammar_turns id tokens stopped s3) as H4'.
  destruct (advance_grammar id tokens stopped s3) as [s4 stopped']. cbn [fst] in H4'.
  set (emit := nonempty tokens || _ || _). set (s5 := if emit then _ else s4).
  assert (turns_of s5 = turns_of s) as H5' by (rewrite <- H3', <- H4'; subst s5; by break_if).
  destruct (if stopped' then _ else _) as [[s6 u6]|] eqn:Hs; cbn [rbind]; [|done].
  intros [= <- _]. rewrite <- H5'. destruct stopped'; [by apply settle_turns in Hs|].
  by injection Hs as <- _.
Qed.

Lemma update_one_turns cfg o m failed x item x' :
  update_one cfg o m failed x item = Ok x' -> turns_of (fst x') = turns_of (fst x).
Proof.
  destruct x as [s u], item as [id n], x' as [s' u']. unfold update_one, require. cbn [fst].
  break_if; cbn [rbind]; [|done].
  destruct (if bool_decide _ then _ else _) as [[s1 stale]|] eqn:Hy; cbn [rbind]; [|done].
  assert (turns_of s1 = turns_of s) as <-.
  { revert Hy. break_if; [|by intros [= <- _]].
    destruct (drain_stale n (req s id)) as [ry|]; cbn [rbind]; [by intros [= <- _]|done]. }
  repeat (break_if; [by intros [= <- _]|]).
  destruct (m_req_id_to_index m !! id); [apply process_output_turns|by intros [= <- _]].
Qed.

Lemma observe_step_turns cfg o u s s' : observe_step cfg o u s = Ok s' -> turns_of s' = turns_of s.
Proof.
  unfold observe_step. destruct (acceptance_length_controller s) as [c|]; cbn [rbind].
  - destruct (Controller.observe_batch _ _ _ _ _ _) as [c' [r|]]; cbn [rbind]; [|done].
    destruct (Mtp._record_mtp_instrumentation _ _ _ _) as [w ?]. by intros [= <-].
  - destruct (Mtp._record_mtp_instrumentation _ _ _ _) as [w ?]. by intros [= <-].
Qed.

Lemma update_turns cfg o m s s' outs ended :
  update_from_output cfg o m s = Ok (s', outs, ended) -> turns_of s' = turns_of s.
Proof.
  unfold update_from_output. set (s0 := if defer_block_free cfg && _ then _ else s).
  assert (turns_of s0 = turns_of s) as <-.
  { subst s0. break_if; [|done]. unfold _drain_deferred_frees. by destruct (drain _ _ _). }
  clearbody s0. destruct (match m_kv_connector_output m with Some _ => _ | None => _ end)
    as [[s1 failed]|] eqn:Hf; cbn [rbind]; [|done].
  assert (turns_of s1 = turns_of s0) as <-.
  { destruct (m_kv_connector_output m); [|by injection Hf as <- _].
    revert Hf. break_if; [apply handle_invalid_turns|by intros [= <- _]]. }
  clear Hf. destruct (rfold _ _ _) as [[s2 u2]|] eqn:Hl; cbn [rbind]; [|done].
  apply (rfold_inv (fun x => turns_of (fst x) = turns_of s1)) in Hl; [|done|].
  2:{ intros x i x' _ Hx Hr. apply update_one_turns in Hr. congruence. }
  cbn [fst] in Hl. destruct (observe_step cfg o u2 s2) as [s3|] eqn:Ho; cbn [rbind]; [|done].
  apply observe_step_turns in Ho.
  set (s4 := unqueue _ _ s3). assert (turns_of s4 = turns_of s1) as H4'
    by (subst s4; rewrite unqueue_turns; congruence).
  destruct (if nonempty _ then _ else _) as [[s5 fin]|] eqn:Hfin; cbn [rbind]; [|done].
  assert (turns_of s5 = turns_of s1) as H5'.
  { rewrite <- H4'. revert Hfin. break_if; [intros Hr; by apply finish_requests_turns in Hr|].
    by intros [= <- _]. }
  destruct (match m_kv_connector_output m with Some _ => _ | None => _ end) as [s6|] eqn:Hk;
    cbn [rbind]; [|done].
  intros [= <- _ _]. rewrite <- H5'. destruct (m_kv_connector_output m); [by apply kv_xfer_turns in Hk|].
  by injection Hk as <-.
Qed.

Lemma preempt_request_turns cfg id drop s s' :
  _preempt_request cfg id drop s = Ok s' -> turns_of s' = turns_of s.
Proof. intros Hp. by apply preempt_request_spec in Hp as (_ & e & d & ->). Qed.

Lemma reset_turns cfg b1 b2 s s' ok :
  reset_prefix_cache cfg b1 b2 s = Ok (s', ok) -> turns_of s' = turns_of s.
Proof.
  unfold reset_prefix_cache. destruct (if b1 then _ else _) as [s1|] eqn:Hr; cbn [rbind]; [|done].
  assert (turns_of s1 = turns_of s) as <-.
  { destruct b1; [|by injection Hr as <-].
    destruct (while _ _ s) as [sa|] eqn:Hw; cbn [rbind] in Hr; [|done]. injection Hr as <-.
    change (turns_of sa = turns_of s). revert Hw. set (P := fun s' => turns_of s' = turns_of s).
    apply (while_inv P P); [done|..]; unfold P; intros sb sc Hb; unfold preempt_all_body;
      (destruct (pop_last (running sb)) as [[rest id]|]; [|by intros [= <-]]);
      (destruct (_preempt_request _ _ _ _) as [sd|] eqn:Hp; cbn [rbind]; [|done]); intros [= <-];
      apply preempt_request_turns in Hp; by rewrite <- Hb. }
  destruct (kv_reset_prefix_cache _) as [e k]. break_if; [done|].
  break_if; [|by intros [= <- _]]. destruct (if connector cfg then _ else _) as [e' k'].
  by intros [= <- _].
Qed.

(** An operation of the engine between two steps. *)
Inductive engine_op cfg : sched E Q -> sched E Q -> Prop :=
  | Op_add r s s' : add_request cfg r s = Ok s' -> engine_op cfg s s'
  | Op_finish ids st s s' valid : finish_requests cfg ids st s = Ok (s', valid) -> engine_op cfg s s'
  | Op_output o m s s' outs ended :
      update_from_output cfg o m s = Ok (s', outs, ended) -> engine_op cfg s s'
  | Op_drafts drafts s : engine_op cfg s (update_draft_token_ids drafts s)
  | Op_reset b1 b2 s s' ok : reset_prefix_cache cfg b1 b2 s = Ok (s', ok) -> engine_op cfg s s'
  | Op_pause p s : engine_op cfg s (s <| _pause_state := p |>).

(** No operation between two steps moves a turn. *)
Lemma engine_ops_turns cfg s s' : rtc (engine_op cfg) s s' -> turns_of s' = turns_of s.
Proof.
  induction 1 as [s|s1 s2 s3 Hop _ IH]; [done|]. rewrite IH. destruct Hop.
  - by eapply add_request_turns.
  - by eapply finish_requests_turns.
  - by eapply update_turns.
  - apply update_draft_turns.
  - by eapply reset_turns.
  - done.
Qed.
End Between.

(** ** A whole step *)

Lemma last_turn_of s s' x : turns_of s' = turns_of s -> last_turn s' x = last_turn s x.
Proof. unfold turns_of, last_turn. by intros [= -> _]. Qed.

Lemma current_step_of s s' : turns_of s' = turns_of s -> current_step s' = current_step s.
Proof. by intros [= _ ->]. Qed.

Lemma after_schedule_turns cfg o s s' o' :
  _update_after_schedule cfg o s = Ok (s', o') ->
  turns_of s' = turns_of s /\ o_num_scheduled_tokens o' = o_num_scheduled_tokens o.
Proof.
  unfold _update_after_schedule. destruct (rfold _ _ _) as [[sa b]|] eqn:Hl; cbn [rbind]; [|done].
  apply (rfold_inv (fun x => turns_of (fst x) = turns_of s)) in Hl; [|done|].
  - intros [= <- <-]. split; [exact Hl|done].
  - intros [sb b1] [id n] [sc b2] _ Hb. unfold advance_request, require.
    break_if; cbn [rbind]; [|done]. intros [= <- _]. cbn [fst] in *. rewrite <- Hb. by break_if.
Qed.

(** The end of the step charges the selected requests that got no token. *)
Lemma finish_step_turns cfg s t s' o :
  enable_decode_aware_prefill cfg = true -> _pause_state s <> PAUSED_ALL -> defer_prefills t = false ->
  finish_step cfg s t = Ok (s', o) ->
  current_step s' = current_step s /\ o_num_scheduled_tokens o = num_scheduled_tokens t /\
  forall x, last_turn s' x =
    if bool_decide (x ∈ selected_long_prefill_ids t) && bool_decide (x ∉ dkeys (num_scheduled_tokens t))
    then current_step s else last_turn s x.
Proof.
  intros He Hp Hd. unfold finish_step.
  destruct (final_checks cfg s t) as [total|]; cbn [rbind]; [|done]. cbv zeta.
  destruct (new_request_data t _) as [nr|]; cbn [rbind]; [|done].
  destruct (_make_cached_request_data _ _ _ _ _) as [cr|]; cbn [rbind]; [|done].
  set (sa := if connector cfg && is_kv_producer cfg then _ else _).
  assert (turns_of sa = turns_of s /\ _pause_state sa = _pause_state s) as [Ta Pa]
    by (subst sa; by repeat break_if).
  clearbody sa. destruct (kv_take_kv_cache_block_copies (env sa)) as [e [copies retained]].
  set (sb := if nonempty copies then _ else _).
  assert (turns_of sb = turns_of sa /\ _pause_state sb = _pause_state sa) as [Tb Pb].
  { subst sb. break_if; [|done]. unfold _free_cow_retained_blocks. by break_if. }
  clearbody sb. destruct (spec_tokens_to_schedule cfg sb t) as [k|]; cbn [rbind]; [|done].
  rewrite Hd. destruct (debit_spec cfg (selected_long_prefill_ids t) (num_scheduled_tokens t) sb)
    as [Hc Hl]; [done|congruence|].
  set (sd := _debit_unused_long_prefill_turns _ _ _ _ sb) in *.
  destruct (_get_new_block_ids_to_zero cfg sd) as [sz to_zero] eqn:Hz.
  assert (turns_of sz = turns_of sd) as Tz.
  { revert Hz. unfold _get_new_block_ids_to_zero. destruct (kv_take_new_block_ids _) as [e' ids].
    break_if; by intros [= <- _]. }
  clear Hz. set (o1 := mkOutput _ _ _ _ _ _ _ _ _ _ _ _ _ _).
  intros Hrun. apply after_schedule_turns in Hrun as [Hrun Ho].
  assert (turns_of s' = turns_of sd) as Hs by (rewrite Hrun; by repeat break_if).
  rewrite (current_step_of _ _ Hs), Hc, (current_step_of _ _ Tb), (current_step_of _ _ Ta).
  split; [done|]. split; [exact Ho|]. intros x.
  rewrite (last_turn_of _ _ x Hs), Hl, (current_step_of _ _ Tb), (current_step_of _ _ Ta),
    (last_turn_of _ _ x Tb), (last_turn_of _ _ x Ta). done.
Qed.

(** The step defers the prefills of the requests that have started. *)
Definition defers (throttle : bool) s : bool := throttle && negb (prefill_capacity_bound s) && any_decode s.

(** A state the rotation speaks of. *)
Record turn_ready cfg (throttle : bool) s : Prop := mkTurnReady {
  tr_state : state_ok cfg s;
  tr_status : queues_by_status s;
  tr_running : _pause_state s <> PAUSED_ALL;
  tr_prefills : defers throttle s = false
}.

Lemma start_step_turns cfg thr s :
  enable_decode_aware_prefill cfg = true ->
  let '(s1, t) := start_step cfg thr s in
  selected_long_prefill_ids t = selected cfg s /\ defer_prefills t = defers thr s /\
  current_step s1 = 1 + current_step s /\ (forall x, last_turn s1 x = last_turn (prune_turns s) x) /\
  objs s1 = objs s /\ running s1 = running s /\ waiting s1 = waiting s /\
  skipped_waiting s1 = skipped_waiting s /\ num_scheduled_tokens t = [] /\ pool cfg s1 = pool cfg s /\
  _pause_state s1 = _pause_state s.
Proof.
  intros He. unfold start_step, selected, _select_long_prefill_request_ids. rewrite He. simpl.
  split_and!; reflexivity.
Qed.

(** What one [schedule] does to the turns. *)
Lemma schedule_turns cfg thr s s' o :
  cfg_ok cfg -> enable_decode_aware_prefill cfg = true -> turn_ready cfg thr s ->
  schedule cfg thr s = Ok (s', o) ->
  current_step s' = 1 + current_step s /\
  (forall x, x ∈ selected cfg s -> last_turn s' x = 1 + current_step s) /\
  (forall x, last_turn s' x = 1 + current_step s \/ last_turn s' x = last_turn (prune_turns s) x) /\
  (forall x, x ∉ selected cfg s ->
     last_turn s' x = last_turn (prune_turns s) x \/ x ∈ dkeys (o_num_scheduled_tokens o)).
Proof.
  intros Hcfg He [Hs Hst Hp Hd]. unfold schedule, schedule_loops.
  pose proof (start_step_ok cfg thr s Hcfg Hs) as Hstart.
  pose proof (start_step_turns cfg thr s He) as Htstart.
  destruct (start_step cfg thr s) as [s1 t1]. destruct Hstart as (_ & _ & Hs1 & Hinv).
  destruct Htstart as (S1 & S2 & S3 & S4 & S5 & S6 & S7 & S8 & S9 & S10 & S11).
  assert (queues_by_status s1) as Hst1.
  { destruct Hst as [Q1 Q2]. unfold queues_by_status, req. rewrite S5, S6, S7, S8. done. }
  assert (forall x, x ∈ selected cfg s -> x ∈ pool cfg s1 /\ enable_decode_aware_prefill cfg = true) as Hsel.
  { intros x Hx. rewrite S10. by apply selected_in_pool. }
  assert (run_both cfg s1 (selected cfg s) false (s1, t1)) as Hboth.
  { split; [exact Hinv|]. constructor; auto. simpl. rewrite Hd in S2.
    by eapply turn_start; eauto. }
  destruct (running_loop cfg (s1, t1)) as [[s2 t2]|] eqn:Hrun; cbn [rbind]; [|done].
  apply (running_loop_turns cfg s1 (selected cfg s) false Hcfg Hs1 Hst1 Hsel) in Hrun; [|exact Hboth].
  destruct (record_loras cfg s2 t2) as [t3|] eqn:Hl; cbn [rbind]; [|done].
  assert (run_both cfg s1 (selected cfg s) false (s2, t3)) as Hrun3.
  { unfold record_loras in Hl. destruct (max_loras cfg); [|by injection Hl as <-].
    revert Hl. unfold require. break_if; cbn [rbind]; [|done]. intros [= <-].
    destruct Hrun as [Hi [[[C1 C2 C3 C4 C5 C6] I1 I2 I3] Hr Ha]].
    split; [by destruct Hi; constructor|]. constructor; auto. constructor; auto. by constructor. }
  destruct (waiting_loop cfg (s2, t3)) as [[s4 t4]|] eqn:Hw; cbn [rbind]; [|done].
  destruct (waiting_loop_inv _ _ _ _ _ _ _ Hcfg Hs1 (SchedRunning.so_ids _ _ Hs1) (proj1 Hrun3) Hw)
    as (u & Hu & _ & U1 & _ & U3 & U4 & _).
  apply (waiting_loop_turns cfg s1 (selected cfg s) false Hcfg Hs1 Hst1 Hsel) in Hw
    as [[T1 T2 T3 T4 T5 T6] Hpause]; [|exact Hrun3].
  intros Hfin. apply finish_step_turns in Hfin as (F1 & F2 & F3); [|done|congruence|done].
  rewrite T1, S3 in F1. split; [done|]. rewrite F2.
  setoid_rewrite F3. rewrite T1, T2, S3 in *. setoid_rewrite S4 in T4. setoid_rewrite S4 in T6.
  split_and!; intros x.
  - intros Hx. rewrite bool_decide_eq_true_2 by done. simpl.
    destruct (bool_decide_reflect (x ∉ dkeys (num_scheduled_tokens t4))) as [|Hk]; [done|].
    apply T5; [done|]. by destruct (decide (x ∈ dkeys (num_scheduled_tokens t4))).
  - break_if; [by left|]. apply T4.
  - intros Hx. rewrite bool_decide_eq_false_2 by done. simpl. destruct (T6 x Hx) as [|Ha]; [by left|].
    right. rewrite U1. rewrite (wi_keys _ _ _ _ _ Hu). apply elem_of_app. left.
    unfold admitted in *. by rewrite <- U3, <- U4.
Qed.

(** ** Rotation *)

(** A run: every step with the state it starts from and its output, and any
    operations of the engine in between. *)
Inductive turn_steps cfg : sched E Q -> list (sched E Q * SchedulerOutput) -> Prop :=
  | Steps_nil s : turn_steps cfg s []
  | Steps_cons thr s s1 o s2 ps :
      turn_ready cfg thr s -> schedule cfg thr s = Ok (s1, o) -> rtc (engine_op cfg) s1 s2 ->
      turn_steps cfg s2 ps -> turn_steps cfg s ((s, o) :: ps).

(** The ids considered at some step of the run. *)
Definition considered cfg (ps : list (sched E Q * SchedulerOutput)) : list string :=
  concat (map (fun p => pool cfg (fst p)) ps).

(** An id is not given to a new request: one that was considered before, or is
    now, and is considered now or later, is tracked now. *)
Fixpoint ids_kept cfg (seen : list string) (ps : list (sched E Q * SchedulerOutput)) : Prop :=
  match ps with
  | [] => True
  | (s, _) :: rest =>
      (forall x, x ∈ seen ++ pool cfg s -> x ∈ considered cfg ps -> x ∈ requests s) /\
      ids_kept cfg (seen ++ pool cfg s) rest
  end.

(** As long as [c] is passed over, every step serves ids not served before. *)
Lemma passed_over_fresh cfg c (P : list string) s ps :
  cfg_ok cfg -> enable_decode_aware_prefill cfg = true -> 0 < max_long_prefills_per_step cfg -> c ∈ P ->
  turn_steps cfg s ps ->
  forall used seen, ids_kept cfg seen ps -> used ⊆ seen -> NoDup used -> c ∉ used -> used ⊆ P ->
  last_turn s c <= current_step s ->
  (forall x, x ∈ used -> x ∈ considered cfg ps -> last_turn s c < last_turn s x) ->
  (forall p, p ∈ ps -> c ∈ candidates cfg (fst p) /\ pool cfg (fst p) ⊆ P) ->
  (forall p, p ∈ ps -> c ∉ selected cfg (fst p) /\ c ∉ dkeys (o_num_scheduled_tokens (snd p))) ->
  Z.of_nat (length used) + Z.of_nat (length ps) * max_long_prefills_per_step cfg < Z.of_nat (length P).
Proof.
  intros Hcfg He Hk HcP Hrun.
  induction Hrun as [s|thr s s1 o s2 ps Hready Hsched Hops Hrun IH]; intros used seen Hids Hus Hnd Hcu HuP
    Hpast Hlater Hcand Hnot.
  { assert (NoDup (c :: used)) as Hn by by constructor.
    apply NoDup_submseteq with (k := P) in Hn; [|set_solver].
    apply submseteq_length in Hn. simpl in *. lia. }
  destruct (schedule_turns cfg thr s s1 o Hcfg He Hready Hsched) as (E1 & E2 & E3 & E4).
  apply engine_ops_turns in Hops.
  destruct Hids as [Htracked Hids].
  destruct (Hcand _ ltac:(left)) as [Hc HpP]. destruct (Hnot _ ltac:(left)) as [Hcs Hco].
  cbn [fst snd] in Hc, HpP, Hcs, Hco.
  destruct (passed_over cfg s c He Hk Hc Hcs) as [Hlen Holder].
  assert (forall x, x ∈ pool cfg s -> x ∈ considered cfg ((s, o) :: ps)) as Hnow.
  { intros x Hx. unfold considered. simpl. apply elem_of_app. by left. }
  assert (forall x, x ∈ seen ++ pool cfg s -> x ∈ considered cfg ((s, o) :: ps) ->
    last_turn (prune_turns s) x = last_turn s x) as Hkeep.
  { intros x Hx Hx'. rewrite last_turn_prune, bool_decide_eq_true_2; [done|]. by apply Htracked. }
  assert (c ∈ pool cfg s) as Hcp by by apply candidates_all.
  assert (forall x, x ∈ selected cfg s -> x ∈ pool cfg s) as Hsp by (intros x Hx; by apply selected_in_pool).
  assert (forall x, x ∈ selected cfg s -> last_turn s x <= last_turn s c) as Hold.
  { intros x Hx. rewrite <- (Hkeep x), <- (Hkeep c) by (rewrite ?elem_of_app; auto). by apply Holder. }
  assert (last_turn s2 c = last_turn s c) as Hc2.
  { rewrite (last_turn_of _ _ c Hops). destruct (E4 c Hcs) as [->|]; [|done].
    apply Hkeep; [rewrite elem_of_app|]; auto. }
  assert (current_step s2 = 1 + current_step s) as Hcur by (by rewrite (current_step_of _ _ Hops)).
  cut (Z.of_nat (length (selected cfg s ++ used)) + Z.of_nat (length ps) * max_long_prefills_per_step cfg
    < Z.of_nat (length P)); [rewrite length_app; cbn [length]; lia|].
  apply (IH _ (seen ++ pool cfg s)).
  - exact Hids.
  - intros x [Hx|Hx]%elem_of_app; apply elem_of_app; auto.
  - apply NoDup_app. split; [apply selected_NoDup, (NoDup_running s (held s)); [done|apply Hready]|].
    split; [|done]. intros x Hx Hxu. specialize (Hold x Hx).
    specialize (Hlater x Hxu (Hnow x (Hsp x Hx))). lia.
  - intros [Hx|Hx]%elem_of_app; [by apply Hcs|by apply Hcu].
  - intros x [Hx|Hx]%elem_of_app; [by apply HpP, Hsp|by apply HuP].
  - rewrite Hc2, Hcur. lia.
  - intros x Hx Hxl. rewrite Hc2, (last_turn_of _ _ x Hops).
    apply elem_of_app in Hx as [Hx|Hx]; [rewrite E2 by done; lia|].
    assert (x ∈ considered cfg ((s, o) :: ps)) as Hxc
      by (unfold considered in *; simpl; apply elem_of_app; by right).
    destruct (E3 x) as [->| ->]; [lia|]. rewrite Hkeep; auto. apply elem_of_app. auto.
  - intros p Hp. apply Hcand. by right.
  - intros p Hp. apply Hnot. by right.
Qed.

(** C10 (liveness): the turns of the long prefills rotate.  Over any sequence of
    calls of [schedule], with arrivals, finishes, step outputs, drafts, cache
    resets and pauses in between, a long prefill that is a candidate at every
    call (a running one always is; a waiting one is when it is among the oldest
    that the free slots admit) is selected or given tokens within
    [length P / max_long_prefills_per_step] calls, where [P] lists the long
    prefills considered on the way.  Every call starts from a state in order,
    is not paused and defers no prefills; its recorded turn is not in the future;
    and no considered id is given to a new request. *)
Theorem long_prefill_rotation cfg c (P : list string) s ps :
  cfg_ok cfg -> enable_decode_aware_prefill cfg = true -> 0 < max_long_prefills_per_step cfg ->
  turn_steps cfg s ps -> last_turn s c <= current_step s -> ids_kept cfg [] ps -> c ∈ P ->
  (forall p, p ∈ ps -> c ∈ candidates cfg (fst p) /\ pool cfg (fst p) ⊆ P) ->
  Z.of_nat (length P) <= Z.of_nat (length ps) * max_long_prefills_per_step cfg ->
  exists p, p ∈ ps /\ (c ∈ selected cfg (fst p) \/ c ∈ dkeys (o_num_scheduled_tokens (snd p))).
Proof.
  intros Hcfg He Hk Hrun Hpast Hids HcP Hcand Hlen.
  destruct (decide (Exists (fun p => c ∈ selected cfg (fst p) \/ c ∈ dkeys (o_num_scheduled_tokens (snd p))) ps))
    as [Hex|Hno]; [by apply Exists_exists|].
  exfalso. rewrite <- Forall_Exists_neg, Forall_forall in Hno.
  pose proof (passed_over_fresh cfg c P s ps Hcfg He Hk HcP Hrun [] [] Hids) as Hlt.
  simpl in Hlt. enough (Z.of_nat (length ps) * max_long_prefills_per_step cfg < Z.of_nat (length P)) by lia.
  apply Hlt; auto; [by constructor|set_solver..|].
  intros p Hp. specialize (Hno p Hp). simpl in Hno. tauto.
Qed.
End Turns.

(** ** An example

    Three long prefills, one turn a step and three sequence slots: "c" waits,
    and gets its turn at the third step.  Each output returns before the next
    step, and a short request arrives after the first. *)

#[local] Existing Instances Mini.queue Mini.queue_laws Mini.services Mini.services_laws.

(** What has to be evaluated to see that a state is ready. *)
Definition ready_facts (cfg : config) (s : sched Z (list string)) : Prop :=
  NoDup (held s) /\ Forall (fun id => request_id (req s id) = id) (held s) /\
  map_Forall (fun _ r => length (mm_features r) = 0%nat) (objs s) /\
  Forall (fun id => num_computed_tokens (req s id) <= num_tokens_with_spec (req s id) + num_output_placeholders (req s id) /\
    num_computed_tokens (req s id) + num_sampled_tokens_per_step cfg <= max_model_len cfg /\
    status (req s id) = RUNNING) (running s) /\
  Forall (fun id => status (req s id) <> RUNNING) (q_list (waiting s) ++ q_list (skipped_waiting s)) /\
  Z.of_nat (length (running s)) <= max_num_running_reqs cfg /\
  0 <= num_waiting_for_streaming_input s /\ 0 <= max_num_scheduled_tokens cfg /\ _pause_state s = UNPAUSED.

#[local] Instance ready_facts_dec cfg s : Decision (ready_facts cfg s).
Proof. unfold ready_facts. apply _. Defined.

Lemma ready_facts_ready cfg s : ready_facts cfg s -> turn_ready cfg false s.
Proof.
  intros (R1 & R2 & R3 & R4 & R5 & R6 & R7 & R8 & R9). rewrite Forall_forall in R2, R4, R5.
  constructor; [|split; [|done]|congruence|done].
  - constructor; auto; [|intros id Hid; by split; apply R4].
    intros id i j Hij Hj. exfalso. enough (length (mm_features (req s id)) = 0%nat) by lia.
    unfold req, lookup_total, map_lookup_total. destruct (objs s !! id) as [r|] eqn:Hr; [|done].
    by apply (R3 id r).
  - intros id Hid. by apply R4.
Qed.

Definition rotation_cfg : config := example_cfg <| max_num_running_reqs := 3 |>.

Definition rotation_start : sched Z (list string) :=
  Mini.sched_of 9 [Mini.request_of "a" RUNNING 30 2; Mini.request_of "b" RUNNING 30 2]
    [Mini.request_of "c" WAITING 30 0].

Definition rotation_step (s : sched Z (list string)) : sched Z (list string) * SchedulerOutput :=
  match schedule (B := list (list Z)) rotation_cfg false s with
  | Ok x => x
  | Raise _ => (s, example_step_output)
  end.

(** The step's output returns: the prefill chunk of [id] sampled nothing. *)
Definition rotation_return (id : string) (x : sched Z (list string) * SchedulerOutput) : sched Z (list string) :=
  match update_from_output (B := list (list Z)) rotation_cfg (snd x)
          (mkModelOutput [[]] {[id := 0%nat]} [] None) (fst x) with
  | Ok (s, _, _) => s
  | Raise _ => fst x
  end.

Definition rotation_arrival (s : sched Z (list string)) : sched Z (list string) :=
  match add_request (B := list (list Z)) rotation_cfg (Mini.request_of "d" WAITING 3 0) s with
  | Ok s => s
  | Raise _ => s
  end.

Definition rotation_second : sched Z (list string) :=
  rotation_arrival (rotation_return "a" (rotation_step rotation_start)).
Definition rotation_third : sched Z (list string) := rotation_return "b" (rotation_step rotation_second).

Definition rotation_run : list (sched Z (list string) * SchedulerOutput) :=
  [(rotation_start, snd (rotation_step rotation_start));
   (rotation_second, snd (rotation_step rotation_second));
   (rotation_third, snd (rotation_step rotation_third))].

Lemma rotation_cfg_ok : cfg_ok rotation_cfg.
Proof. constructor; [reflexivity|vm_compute; reflexivity]. Qed.

(** The calls of the example succeed. *)
Lemma rotation_step_eq s :
  is_ok (schedule (B := list (list Z)) rotation_cfg false s) = true ->
  schedule (B := list (list Z)) rotation_cfg false s = Ok (fst (rotation_step s), snd (rotation_step s)).
Proof. unfold rotation_step. by destruct (schedule _ _ _) as [[s' o]|]. Qed.

Lemma rotation_return_op id x :
  is_ok (update_from_output (B := list (list Z)) rotation_cfg (snd x)
           (mkModelOutput [[]] {[id := 0%nat]} [] None) (fst x)) = true ->
  engine_op (B := list (list Z)) rotation_cfg (fst x) (rotation_return id x).
Proof.
  unfold rotation_return. destruct (update_from_output _ _ _ _) as [[[s outs] ended]|] eqn:Hu; [|done].
  intros _. by eapply Op_output.
Qed.

Lemma rotation_arrival_op s :
  is_ok (add_request (B := list (list Z)) rotation_cfg (Mini.request_of "d" WAITING 3 0) s) = true ->
  engine_op (B := list (list Z)) rotation_cfg s (rotation_arrival s).
Proof.
  unfold rotation_arrival. destruct (add_request _ _ _) as [s'|] eqn:Ha; [|done].
  intros _. by eapply Op_add.
Qed.

Lemma rotation_ready s : bool_decide (ready_facts rotation_cfg s) = true -> turn_ready rotation_cfg false s.
Proof. intros Hs. apply ready_facts_ready. revert Hs. apply bool_decide_eq_true_1. Qed.

Lemma rotation_run_steps : turn_steps (B := list (list Z)) rotation_cfg rotation_start rotation_run.
Proof.
  apply (Steps_cons _ false _ (fst (rotation_step rotation_start)) _ rotation_second).
  { apply rotation_ready. vm_compute. reflexivity. }
  { apply rotation_step_eq. vm_compute. reflexivity. }
  { eapply rtc_l; [apply (rotation_return_op "a")|apply rtc_once, rotation_arrival_op];
      vm_compute; reflexivity. }
  apply (Steps_cons _ false _ (fst (rotation_step rotation_second)) _ rotation_third).
  { apply rotation_ready. vm_compute. reflexivity. }
  { apply rotation_step_eq. vm_compute. reflexivity. }
  { apply rtc_once, rotation_return_op. vm_compute. reflexivity. }
  apply (Steps_cons _ false _ (fst (rotation_step rotation_third)) _ (fst (rotation_step rotation_third))).
  { apply rotation_ready. vm_compute. reflexivity. }
  { apply rotation_step_eq. vm_compute. reflexivity. }
  { reflexivity. }
  constructor.
Qed.

Lemma long_prefill_rotation_witness :
  exists p, p ∈ rotation_run /\
    ("c" ∈ selected rotation_cfg (fst p) \/ "c" ∈ dkeys (o_num_scheduled_tokens (snd p)))%string.
Proof.
  refine (long_prefill_rotation (B := list (list Z)) rotation_cfg "c"%string ["a"; "b"; "c"]%string rotation_start
    rotation_run rotation_cfg_ok eq_refl _ rotation_run_steps _ _ _ _ _).
  - vm_compute. reflexivity.
  - vm_compute. discriminate.
  - assert (forall (l m : list string) (X : gset string),
      bool_decide (Forall (fun x => x ∈ m -> x ∈ X) l) = true -> forall x, x ∈ l -> x ∈ m -> x ∈ X) as Hall.
    { intros l m X Hl. rewrite bool_decide_eq_true, Forall_forall in Hl. exact Hl. }
    repeat (split; [apply Hall; vm_compute; reflexivity|]). exact I.
  - right; right; left.
  - assert (bool_decide (Forall (fun p => "c"%string ∈ candidates rotation_cfg (fst p) /\
      Forall (fun x => x ∈ ["a"; "b"; "c"]%string) (pool rotation_cfg (fst p))) rotation_run) = true) as Hall
      by (vm_compute; reflexivity).
    rewrite bool_decide_eq_true, Forall_forall in Hall. intros p Hp. destruct (Hall p Hp) as [Hc Hpool].
    split; [exact Hc|]. intros x Hx. rewrite Forall_forall in Hpool. by apply Hpool.
  - vm_compute. discriminate.
Defined.
