(* ===== verification/ShmFrame.v ===== *)
(** * The bytes of a message in the shared-memory ring

    [vllm/distributed/device_communicators/shm_broadcast.py]: the layout of
    [ShmRingBuffer], the framing that [MessageQueue.enqueue] writes into a chunk
    and [MessageQueue.dequeue] reads back, and the choice between a chunk and
    the socket.  A byte is a [Z]; pickling is not modelled: a message is the
    list of buffers it produces, the main one first. *)
From S2P Require Export Prelude.

Definition bytes := list Z.

(** ** [to_bytes_big], [from_bytes_big] *)

(** The big-endian digits of [v], [n] of them. *)
Fixpoint big_endian (n : nat) (v : Z) : bytes :=
  match n with
  | O => []
  | S n => (v / 256 ^ Z.of_nat n) mod 256 :: big_endian n v
  end.

Definition to_bytes_big (value : Z) (size : nat) : result bytes :=
  if (0 <=? value) && (value <? 256 ^ Z.of_nat size) then Ok (big_endian size value)
  else Raise OverflowError.

Definition from_bytes_big (l : bytes) : Z := fold_left (fun acc b => acc * 256 + b) l 0.

(** ** The layout of the buffer *)

Record ShmRingBuffer := mkBuffer {
  n_reader : nat;
  max_chunk_bytes : nat;
  max_chunks : nat
}.

Definition metadata_size (b : ShmRingBuffer) : nat := 1 + n_reader b.
Definition total_bytes_of_buffer (b : ShmRingBuffer) : nat :=
  (max_chunk_bytes b + metadata_size b) * max_chunks b.
Definition metadata_offset (b : ShmRingBuffer) : nat := max_chunk_bytes b * max_chunks b.

(** The byte ranges handed out by [get_data] and [get_metadata]. *)
Definition get_data (b : ShmRingBuffer) (current_idx : nat) : nat * nat :=
  let start := (0 + current_idx * max_chunk_bytes b)%nat in (start, (start + max_chunk_bytes b)%nat).
Definition get_metadata (b : ShmRingBuffer) (current_idx : nat) : nat * nat :=
  let start := (metadata_offset b + current_idx * metadata_size b)%nat in
  (start, (start + metadata_size b)%nat).

(** ** Slices of a [memoryview] *)

(** [buf[a:b]]: clipped to the buffer. *)
Definition view (buf : bytes) (a b : nat) : bytes := take (b - a) (drop a buf).

(** [buf[off : off + len(v)] = v]: the slice, clipped, must have that length. *)
Definition assign (buf : bytes) (off : nat) (v : bytes) : result bytes :=
  if Nat.leb (off + length v) (length buf)
  then Ok (take off buf ++ v ++ drop (off + length v) buf)
  else Raise ValueError.

(** ** [enqueue] *)

(** Buffers below 1 MiB stay in the pickle stream; the others are collected,
    with four bytes each for their length. *)
Definition oob_callback (acc : list bytes * Z) (raw : bytes) : (list bytes * Z) * bool :=
  let '(oob, total_bytes) := acc in
  if Z.of_nat (length raw) <? 1024 * 1024 then (acc, true)
  else ((oob ++ [raw], total_bytes + Z.of_nat (length raw) + 4), false).

(** The out-of-band buffers and [total_bytes] after pickling offered [raws]. *)
Definition collect_oob (raws : list bytes) : list bytes * Z :=
  fold_left (fun acc raw => fst (oob_callback acc raw)) raws ([], 6).

(** The condition under which the message does not go into the chunk. *)
Definition overflows (max_chunk_bytes : nat) (total_bytes : Z) (main : bytes) : bool :=
  Z.of_nat max_chunk_bytes <=? total_bytes + Z.of_nat (length main).

(** The assignments that write the buffers from [offset] on. *)
Fixpoint buffer_writes (offset : nat) (bufs : list bytes) : list (nat * result bytes) :=
  match bufs with
  | [] => []
  | b :: bufs =>
      (offset, to_bytes_big (Z.of_nat (length b)) 4)
      :: ((offset + 4)%nat, Ok b)
      :: buffer_writes (offset + 4 + length b) bufs
  end.

(** The assignments of the [with] body of [enqueue], in order. *)
Definition chunk_writes (all_buffers : list bytes) : list (nat * result bytes) :=
  (0%nat, Ok [0])
  :: (1%nat, to_bytes_big (Z.of_nat (length all_buffers)) 2)
  :: buffer_writes 3 all_buffers.

Definition overflow_writes : list (nat * result bytes) := [(0%nat, Ok [1])].

Definition write_one (buf : bytes) (w : nat * result bytes) : result bytes :=
  let* v := snd w in assign buf (fst w) v.

Definition write_all (buf : bytes) (ws : list (nat * result bytes)) : result bytes :=
  rfold write_one buf ws.

(** ** [dequeue] *)

(** The loop over [buf_count]. *)
Fixpoint read_buffers (buf : bytes) (count : nat) (offset : nat) : list bytes :=
  match count with
  | O => []
  | S count =>
      let buf_offset := (offset + 4)%nat in
      let buf_len := Z.to_nat (from_bytes_big (view buf offset buf_offset)) in
      let offset := (buf_offset + buf_len)%nat in
      view buf buf_offset offset :: read_buffers buf count offset
  end.

(** What a chunk says: look at the socket, or these buffers. *)
Definition read_chunk (buf : bytes) : option (list bytes) :=
  if nth 0 buf 0 =? 1 then None
  else Some (read_buffers buf (Z.to_nat (from_bytes_big (view buf 1 3))) 3).

(** ** Big-endian lemmas *)

Lemma length_big_endian n v : length (big_endian n v) = n.
Proof. induction n; simpl; congruence. Qed.

Lemma from_bytes_app l k :
  fold_left (fun acc b => acc * 256 + b) (l ++ k) 0
  = fold_left (fun acc b => acc * 256 + b) k (from_bytes_big l).
Proof. unfold from_bytes_big. by rewrite fold_left_app. Qed.

Lemma from_big_endian_acc n v acc :
  0 <= v -> fold_left (fun acc b => acc * 256 + b) (big_endian n v) acc
            = acc * 256 ^ Z.of_nat n + v mod 256 ^ Z.of_nat n.
Proof.
  intros Hv. revert acc. induction n as [|n IH]; intros acc; simpl big_endian; simpl fold_left.
  - rewrite Z.mod_1_r. lia.
  - rewrite IH. rewrite Nat2Z.inj_succ, Z.pow_succ_r by lia.
    rewrite (Z.mul_comm 256 (256 ^ Z.of_nat n)), Z.rem_mul_r by lia. lia.
Qed.

Lemma from_to_bytes_big v size l :
  to_bytes_big v size = Ok l -> length l = size /\ from_bytes_big l = v.
Proof.
  unfold to_bytes_big. destruct (_ && _) eqn:E; [|done]. intros [= <-]. bool_prop.
  split; [apply length_big_endian|]. unfold from_bytes_big.
  rewrite from_big_endian_acc by done. rewrite Z.mod_small by lia. lia.
Qed.

(** ** Slice lemmas *)

Lemma assign_ok buf off v buf' :
  assign buf off v = Ok buf' ->
  length buf' = length buf /\ (off + length v <= length buf)%nat /\
  view buf' off (off + length v) = v /\
  (forall a b, (b <= off)%nat -> view buf' a b = view buf a b).
Proof.
  unfold assign, view. destruct (Nat.leb_spec (off + length v) (length buf)) as [Hle|]; [|done].
  intros [= <-].
  assert (Ht : length (take off buf) = off) by (rewrite length_take; lia).
  split_and!; [|done| |].
  - rewrite !length_app, Ht, length_drop. lia.
  - rewrite drop_app_length' by done. rewrite take_app_length' by lia. done.
  - intros a b Hb. destruct (decide (a <= b)%nat); [|by rewrite (proj2 (Nat.sub_0_le b a)) by lia].
    rewrite drop_app_le by lia. rewrite take_app_le by (rewrite length_drop; lia).
    rewrite skipn_firstn_comm, take_take. f_equal. lia.
Qed.

(** Room is all an assignment needs. *)
Lemma assign_total buf off v :
  (off + length v <= length buf)%nat -> exists buf', assign buf off v = Ok buf'.
Proof. intros Hle. unfold assign. rewrite (proj2 (Nat.leb_le _ _)) by done. eauto. Qed.

(** The bytes a frame of these buffers takes from [offset] on. *)
Definition frame_end (offset : nat) (bufs : list bytes) : nat :=
  foldl (fun o b => o + 4 + length b)%nat offset bufs.

Lemma frame_end_ge offset bufs : (offset <= frame_end offset bufs)%nat.
Proof.
  revert offset. induction bufs as [|b bufs IH]; intros offset; simpl; [done|].
  specialize (IH (offset + 4 + length b)%nat). lia.
Qed.

Lemma buffer_writes_ok bufs offset buf buf' :
  write_all buf (buffer_writes offset bufs) = Ok buf' ->
  length buf' = length buf /\
  (forall a b, (b <= offset)%nat -> view buf' a b = view buf a b) /\
  read_buffers buf' (length bufs) offset = bufs.
Proof.
  revert offset buf. induction bufs as [|b bufs IH]; intros offset buf; cbn -[to_bytes_big].
  { intros [= <-]. done. }
  unfold write_one at 1. cbn [fst snd].
  destruct (to_bytes_big (Z.of_nat (length b)) 4) as [l|] eqn:El; cbn [rbind]; [|done].
  destruct (assign buf offset l) as [buf1|] eqn:E1; cbn [rbind]; [|done].
  unfold write_one at 1. cbn [fst snd rbind].
  destruct (assign buf1 (offset + 4) b) as [buf2|] eqn:E2; cbn [rbind]; [|done].
  intros Hrest. apply from_to_bytes_big in El as [Hl Hv].
  apply assign_ok in E1 as (L1 & _ & V1 & K1). apply assign_ok in E2 as (L2 & _ & V2 & K2).
  destruct (IH _ _ Hrest) as (L3 & K3 & Hread). rewrite Hl in V1. split_and!.
  - congruence.
  - intros a c Hc. rewrite K3, K2, K1 by lia. done.
  - rewrite (K3 offset (offset + 4)%nat), (K2 offset (offset + 4)%nat), V1, Hv by lia.
    rewrite Nat2Z.id, (K3 (offset + 4)%nat (offset + 4 + length b)%nat), V2 by lia. by rewrite Hread.
Qed.

Lemma buffer_writes_total bufs offset buf :
  (frame_end offset bufs <= length buf)%nat ->
  Forall (fun b => Z.of_nat (length b) < 2 ^ 32) bufs ->
  exists buf', write_all buf (buffer_writes offset bufs) = Ok buf'.
Proof.
  revert offset buf. induction bufs as [|b bufs IH]; intros offset buf Hend Hall; [by eexists|].
  apply Forall_cons in Hall as [Hb Hall]. cbn -[to_bytes_big] in *.
  change (frame_end (offset + 4 + length b) bufs <= length buf)%nat in Hend.
  pose proof (frame_end_ge (offset + 4 + length b) bufs) as Hge.
  unfold to_bytes_big. rewrite (proj2 (Z.leb_le _ _)), (proj2 (Z.ltb_lt _ _)) by lia. cbn [andb].
  unfold write_one at 1. cbn [fst snd rbind].
  set (l := big_endian 4 _). assert (Hl : length l = 4%nat) by apply length_big_endian.
  destruct (assign_total buf offset l ltac:(lia)) as [buf1 E1]. rewrite E1. cbn [rbind].
  apply assign_ok in E1 as (L1 & _).
  unfold write_one at 1. cbn [fst snd rbind].
  destruct (assign_total buf1 (offset + 4) b ltac:(lia)) as [buf2 E2]. rewrite E2. cbn [rbind].
  apply assign_ok in E2 as (L2 & _). apply IH; [|done]. lia.
Qed.

Lemma frame_end_total oob offset :
  Z.of_nat (frame_end offset oob)
  = Z.of_nat offset + fold_right (fun b n => n + Z.of_nat (length b) + 4) 0 oob.
Proof. revert offset. induction oob as [|b oob IH]; intros offset; simpl; [lia|]. rewrite IH. lia. Qed.

Lemma collect_oob_spec raws oob n :
  collect_oob raws = (oob, n) ->
  oob = List.filter (fun raw => 1024 * 1024 <=? Z.of_nat (length raw)) raws /\
  n = 6 + fold_right (fun b n => n + Z.of_nat (length b) + 4) 0 oob.
Proof.
  unfold collect_oob.
  assert (Hgen : forall acc, fold_left (fun acc raw => fst (oob_callback acc raw)) raws acc =
    let new := List.filter (fun raw => 1024 * 1024 <=? Z.of_nat (length raw)) raws in
    (fst acc ++ new, snd acc + fold_right (fun b n => n + Z.of_nat (length b) + 4) 0 new)).
  { induction raws as [|raw raws IH]; intros [o t]; cbn [fold_left List.filter fst snd].
    - rewrite app_nil_r. simpl. f_equal. lia.
    - rewrite IH. unfold oob_callback. rewrite Z.ltb_antisym.
      destruct (1024 * 1024 <=? Z.of_nat (length raw)); cbn [negb fst snd]; [|done].
      rewrite <-List.app_assoc. cbn [fold_right app]. f_equal. lia. }
  rewrite Hgen. cbn [fst snd app]. intros [= <- <-]. done.
Qed.

(** ** Properties *)

(** Chunk bounds: a message that is not sent through the socket takes
    exactly one byte more than the computed size and so ends within the chunk;
    with at most 65535 buffers of less than 4 GiB each every assignment of the
    framing succeeds. *)
Theorem inline_frame_fits b raws main oob total buf :
  collect_oob raws = (oob, total) -> overflows (max_chunk_bytes b) total main = false ->
  length buf = max_chunk_bytes b ->
  Z.of_nat (frame_end 3 (main :: oob)) = total + Z.of_nat (length main) + 1 /\
  (frame_end 3 (main :: oob) <= max_chunk_bytes b)%nat /\
  (Z.of_nat (length (main :: oob)) < 2 ^ 16 ->
   Forall (fun x => Z.of_nat (length x) < 2 ^ 32) (main :: oob) ->
   exists buf', write_all buf (chunk_writes (main :: oob)) = Ok buf').
Proof.
  intros Hc Ho Hlen. apply collect_oob_spec in Hc as [_ Ht]. unfold overflows in Ho. bool_prop.
  assert (Hend : Z.of_nat (frame_end 3 (main :: oob)) = total + Z.of_nat (length main) + 1).
  { rewrite frame_end_total. cbn [fold_right]. lia. }
  assert (Hfit : (frame_end 3 (main :: oob) <= max_chunk_bytes b)%nat) by lia.
  split_and!; [done|done|]. intros Hn Hall.
  pose proof (frame_end_ge 3 (main :: oob)) as Hge.
  unfold chunk_writes, write_all. cbn [rfold].
  unfold write_one at 1. cbn [fst snd rbind].
  destruct (assign_total buf 0 [0] ltac:(simpl; lia)) as [buf1 E1]. rewrite E1. cbn [rbind].
  apply assign_ok in E1 as (L1 & _). unfold write_one at 1. cbn [fst snd rbind].
  unfold to_bytes_big at 1. rewrite (proj2 (Z.leb_le _ _)), (proj2 (Z.ltb_lt _ _)) by lia. cbn [andb rbind].
  destruct (assign_total buf1 1 (big_endian 2 (Z.of_nat (length (main :: oob)))) ) as [buf2 E2].
  { rewrite length_big_endian. lia. }
  rewrite E2. cbn [rbind]. apply assign_ok in E2 as (L2 & _).
  apply buffer_writes_total; [lia|done].
Qed.

Lemma head_of_view buf x : view buf 0 1 = [x] -> nth 0 buf 0 = x.
Proof. destruct buf; [done|]. unfold view. simpl. by intros [= ->]. Qed.

(** C15 (framing): whatever the chunk held before, a reader of a completely
    written chunk gets back exactly the buffers that were written, and a chunk
    marked as overflowed sends it to the socket. *)
Theorem frame_roundtrip buf bufs buf' :
  (write_all buf (chunk_writes bufs) = Ok buf' -> read_chunk buf' = Some bufs) /\
  (write_all buf overflow_writes = Ok buf' -> read_chunk buf' = None).
Proof.
  split; unfold write_all.
  - unfold chunk_writes. cbn [rfold]. unfold write_one at 1. cbn [fst snd rbind].
    destruct (assign buf 0 [0]) as [buf1|] eqn:E1; cbn [rbind]; [|done].
    unfold write_one at 1. cbn [fst snd].
    destruct (to_bytes_big (Z.of_nat (length bufs)) 2) as [l|] eqn:El; cbn [rbind]; [|done].
    destruct (assign buf1 1 l) as [buf2|] eqn:E2; cbn [rbind]; [|done].
    intros Hrest. apply from_to_bytes_big in El as [Hl Hv].
    apply assign_ok in E1 as (_ & _ & V1 & _). apply assign_ok in E2 as (_ & _ & V2 & K2).
    apply buffer_writes_ok in Hrest as (_ & K3 & Hread).
    unfold read_chunk. rewrite (head_of_view buf' 0).
    + simpl (_ =? _). cbv iota. rewrite Hl in V2. change (1 + 2)%nat with 3%nat in V2.
      rewrite (K3 1%nat 3%nat), V2, Hv, Nat2Z.id by lia.
      by rewrite Hread.
    + by rewrite (K3 0%nat 1%nat), (K2 0%nat 1%nat) by lia.
  - unfold overflow_writes. cbn [rfold]. unfold write_one. cbn [fst snd rbind].
    destruct (assign buf 0 [1]) as [buf1|] eqn:E1; cbn [rbind]; [|done]. intros [= <-].
    apply assign_ok in E1 as (_ & _ & V1 & _). unfold read_chunk. by rewrite (head_of_view buf1 1).
Qed.

(** Layout: the data chunks and the metadata blocks are disjoint ranges of
    bytes inside the shared memory. *)
Theorem regions_disjoint b i j :
  (i < max_chunks b)%nat -> (j < max_chunks b)%nat ->
  (snd (get_data b i) <= fst (get_metadata b j))%nat /\
  (snd (get_metadata b j) <= total_bytes_of_buffer b)%nat /\
  (i <> j -> (snd (get_data b i) <= fst (get_data b j) \/ snd (get_data b j) <= fst (get_data b i)) /\
    (snd (get_metadata b i) <= fst (get_metadata b j) \/
     snd (get_metadata b j) <= fst (get_metadata b i)))%nat.
Proof.
  intros Hi Hj. unfold get_data, get_metadata, total_bytes_of_buffer, metadata_offset. cbn [fst snd].
  set (c := max_chunk_bytes b). set (m := metadata_size b). set (k := max_chunks b) in *.
  split_and!; [nia|nia|]. intros Hne. assert (i < j \/ j < i)%nat as [|] by lia; nia.
Qed.

(** Two buffers, the second out of band would have to be large; here the frame
    of a message with three payload bytes in a chunk of 24. *)
Definition example_buffer : ShmRingBuffer := mkBuffer 2 24 10.
Definition example_chunk : bytes := replicate 24 255.

Lemma inline_frame_fits_witness :
  overflows 24 6 [1; 2; 3] = false /\
  exists buf', write_all example_chunk (chunk_writes [[1; 2; 3]]) = Ok buf'.
Proof.
  split; [reflexivity|].
  refine (proj2 (proj2 (inline_frame_fits example_buffer [] [1; 2; 3] [] 6 example_chunk
    eq_refl eq_refl eq_refl)) _ _); [reflexivity|]. repeat constructor.
Defined.

Lemma frame_roundtrip_witness :
  exists buf', write_all example_chunk (chunk_writes [[1; 2; 3]; [9]]) = Ok buf' /\
    read_chunk buf' = Some [[1; 2; 3]; [9]].
Proof.
  destruct (write_all example_chunk (chunk_writes [[1; 2; 3]; [9]])) as [buf'|] eqn:E0;
    [|vm_compute in E0; discriminate].
  exists buf'. split; [reflexivity|].
  exact (proj1 (frame_roundtrip example_chunk [[1; 2; 3]; [9]] buf') E0).
Defined.

Lemma regions_disjoint_witness : (snd (get_data example_buffer 9) <= fst (get_metadata example_buffer 0))%nat.
Proof. refine (proj1 (regions_disjoint example_buffer 9 0 _ _)); simpl; lia. Defined.
