(* ===== verification/ShmRing.v ===== *)
(** * The broadcast protocol of the shared-memory ring

    [shm_broadcast.py]: [MessageQueue.enqueue] with [acquire_write] on one side,
    [dequeue] with [acquire_read] and [recv] on the other, as a step relation
    whose steps are the single accesses to shared memory: one flag read, one
    flag write, one slice assignment.  [memory_fence] is what makes the
    accesses of different processes sequentially consistent.  A wait that goes
    round again is a step that changes nothing shared; the writer's
    [TimeoutError] and an exception in its [with] body end the call.  The
    publish/subscribe socket delivers to each reader in order and without loss
    (the ring bounds what is outstanding).  A reader's [TimeoutError] in
    [acquire_read] leaves everything as it was; one in [recv] ends a call of
    [dequeue] whose chunk is released already, so its message stays on the
    socket for a later call ([recv_timeout]).  Pickling is outside the model. *)
From S2P Require Export ShmFrame.

(** ** State *)

(** A chunk with its metadata block: written flag, one flag per reader. *)
Record chunk := mkChunk {
  written : bool;
  read_flags : list bool;
  data : bytes
}.
#[export] Instance chunk_eta : Eta chunk := fun c => mkChunk (written c) (read_flags c) (data c).

(** A message is [all_buffers]. *)
Definition message := list bytes.

(** Where the writer is: in [acquire_write]'s check (readers summed so far and
    the sum), in the [with] body (assignments to go), resetting reader flags,
    about to set the written flag, about to send on the socket. *)
Inductive wpc :=
  | WIdle
  | WCheck (m : message) (k count : nat)
  | WBody (m : message) (todo : list (nat * result bytes))
  | WFlags (m : message) (k : nat)
  | WMark (m : message)
  | WSend (m : message).

(** Where a reader is: before reading its flag, before reading the written
    flag, in the [with] body, about to set its flag with what it read, in
    [recv]. *)
Inductive rpc :=
  | RStart
  | RFlag (flag : bool)
  | RBody
  | RGot (m : option message)
  | RSock.

Record reader := mkReader {
  r_idx : nat;            (** [current_idx] *)
  r_pc : rpc;
  inbox : list message;   (** what its socket holds *)
  got : list message;     (** what its calls of [dequeue] returned *)
  late : nat              (** how many calls raised [TimeoutError] in [recv] *)
}.
#[export] Instance reader_eta : Eta reader := fun r =>
  mkReader (r_idx r) (r_pc r) (inbox r) (got r) (late r).

Record ring := mkRing {
  chunks : list chunk;
  w_idx : nat;            (** the writer's [current_idx] *)
  w_pc : wpc;
  readers : list reader;
  hist : list message     (** the messages marked as written, in order *)
}.
#[export] Instance ring_eta : Eta ring := fun s =>
  mkRing (chunks s) (w_idx s) (w_pc s) (readers s) (hist s).

Section Ring.
Context (b : ShmRingBuffer).

(** [total_bytes] of a message with these out-of-band buffers; it is what
    [collect_oob] counts (message_total_collected). *)
Definition message_total (oob : list bytes) : Z :=
  6 + fold_right (fun x n => n + Z.of_nat (length x) + 4) 0 oob.

(** Whether the message goes through its chunk. *)
Definition inline (m : message) : bool :=
  match m with
  | [] => false
  | main :: oob => negb (overflows (max_chunk_bytes b) (message_total oob) main)
  end.

Lemma message_total_collected raws oob total : collect_oob raws = (oob, total) -> total = message_total oob.
Proof. intros [_ ->]%collect_oob_spec. reflexivity. Qed.

Definition body_writes (m : message) : list (nat * result bytes) :=
  if inline m then chunk_writes m else overflow_writes.

(** ** Steps *)

Definition upd_chunk (k : nat) (f : chunk -> chunk) (s : ring) : ring :=
  s <| chunks ::= alter f k |>.

Definition upd_reader (i : nat) (f : reader -> reader) (s : ring) : ring :=
  s <| readers ::= alter f i |>.

Definition next (i : nat) : nat := ((i + 1) mod max_chunks b)%nat.

(** The writer's condition for going round again. *)
Definition blocked (c : chunk) (count : nat) : bool := written c && negb (Nat.eqb count (n_reader b)).

(** One step of the writer inside [enqueue]. *)
Definition writer_step (s : ring) : option ring :=
  c ← chunks s !! w_idx s;
  match w_pc s with
  | WIdle => None
  | WCheck m k count =>
      if Nat.ltb k (n_reader b) then
        flag ← read_flags c !! k;
        Some (s <| w_pc := WCheck m (k + 1) (if flag : bool then count + 1 else count)%nat |>)
      else if blocked c count then Some (s <| w_pc := WCheck m 0 0 |>)
      else Some ((upd_chunk (w_idx s) (fun c => c <| written := false |>) s)
                   <| w_pc := WBody m (body_writes m) |>)
  | WBody m [] => Some (s <| w_pc := WFlags m 0 |>)
  | WBody m (x :: todo) =>
      match write_one (data c) x with
      | Ok d => Some ((upd_chunk (w_idx s) (fun c => c <| data := d |>) s) <| w_pc := WBody m todo |>)
      | Raise _ => Some (s <| w_pc := WIdle |>)
      end
  | WFlags m k =>
      if Nat.ltb k (n_reader b) then
        Some ((upd_chunk (w_idx s) (fun c => c <| read_flags ::= insert k false |>) s)
                <| w_pc := WFlags m (k + 1) |>)
      else Some (s <| w_pc := WMark m |>)
  | WMark m =>
      Some ((upd_chunk (w_idx s) (fun c => c <| written := true |>) s)
              <| w_idx ::= next |> <| hist ::= fun h => h ++ [m] |>
              <| w_pc := if inline m then WIdle else WSend m |>)
  | WSend m =>
      Some (s <| readers ::= fmap (fun r => r <| inbox ::= fun q => q ++ [m] |>) |> <| w_pc := WIdle |>)
  end.

(** The reader past its chunk: it returns the message or goes to the socket. *)
Definition release (m : option message) (r : reader) : reader :=
  let r := r <| r_idx ::= next |> in
  match m with
  | Some m => r <| got ::= fun l => l ++ [m] |> <| r_pc := RStart |>
  | None => r <| r_pc := RSock |>
  end.

(** One step of reader [i] inside [dequeue]. *)
Definition reader_step (i : nat) (s : ring) : option ring :=
  r ← readers s !! i;
  c ← chunks s !! r_idx r;
  match r_pc r with
  | RStart => flag ← read_flags c !! i; Some (upd_reader i (fun r => r <| r_pc := RFlag flag |>) s)
  | RFlag flag =>
      Some (upd_reader i (fun r => r <| r_pc := if written c && negb flag then RBody else RStart |>) s)
  | RBody => Some (upd_reader i (fun r => r <| r_pc := RGot (read_chunk (data c)) |>) s)
  | RGot m =>
      let s := upd_chunk (r_idx r) (fun c => c <| read_flags ::= insert i true |>) s in
      Some (upd_reader i (release m) s)
  | RSock =>
      match inbox r with
      | [] => None
      | m :: q => Some (upd_reader i (fun r => r <| inbox := q |> <| got ::= fun l => l ++ [m] |>
                                                <| r_pc := RStart |>) s)
      end
  end.

(** [recv]'s wait of reader [i] times out: nothing arrived in time, whatever
    is on its way, and [dequeue] raises. *)
Definition recv_timeout (i : nat) (s : ring) : option ring :=
  r ← readers s !! i;
  match r_pc r with
  | RSock => Some (upd_reader i (fun r => r <| late ::= S |> <| r_pc := RStart |>) s)
  | _ => None
  end.

Inductive step : ring -> ring -> Prop :=
  | S_enqueue s m : w_pc s = WIdle -> m <> [] -> step s (s <| w_pc := WCheck m 0 0 |>)
  | S_timeout s m count c :
      w_pc s = WCheck m (n_reader b) count -> chunks s !! w_idx s = Some c -> blocked c count = true ->
      step s (s <| w_pc := WIdle |>)
  | S_writer s s' : writer_step s = Some s' -> step s s'
  | S_reader s s' i : reader_step i s = Some s' -> step s s'
  | S_recv_timeout s s' i : recv_timeout i s = Some s' -> step s s'.

(** The state after [create_from_handle] on every side. *)
Definition init : ring := {|
  chunks := replicate (max_chunks b)
    (mkChunk false (replicate (n_reader b) false) (replicate (max_chunk_bytes b) 0));
  w_idx := 0; w_pc := WIdle;
  readers := replicate (n_reader b) (mkReader 0 RStart [] [] 0); hist := [] |}.

Definition reachable (s : ring) : Prop := rtc step init s.

(** ** The invariant *)

(** The messages a reader's finished calls were for: those that returned and
    those that timed out on the socket. *)
Definition passed (r : reader) : nat := (length (got r) + late r)%nat.

(** Chunks a reader is done with: the one it is waiting for on the socket
    counts. *)
Definition consumed (r : reader) : nat :=
  (passed r + match r_pc r with RSock => 1 | _ => 0 end)%nat.

Definition shows (c : chunk) (m : message) : Prop :=
  read_chunk (data c) = if inline m then Some m else None.

(** The chunk holds message [j], and every flag says whether its reader is
    past it. *)
Record intact (s : ring) (j : nat) (c : chunk) : Prop := {
  in_written : written c = true;
  in_shows : exists m, hist s !! j = Some m /\ shows c m;
  in_flags : forall i r, readers s !! i = Some r -> read_flags c !! i = Some (bool_decide (j < consumed r)%nat)
}.

(** The chunk may be written: not marked, and no reader needs its content. *)
Definition open (s : ring) (c : chunk) : Prop :=
  written c = false /\ forall i r, readers s !! i = Some r -> (length (hist s) < consumed r + max_chunks b)%nat.

(** The messages sent on the socket are the overflowed ones of these. *)
Definition sent (s : ring) : list message :=
  match w_pc s with WSend _ => removelast (hist s) | _ => hist s end.

Definition overflowed (l : list message) : list message := List.filter (fun m => negb (inline m)) l.

(** What the writer's position says of its chunk. *)
Definition writer_ok (s : ring) (c : chunk) : Prop :=
  match w_pc s with
  | WIdle => True
  | WCheck m k count => (count <= k)%nat /\ (k <= n_reader b)%nat /\
      (count = k -> forall i, (i < k)%nat -> read_flags c !! i = Some true)
  | WBody m todo => open s c /\ forall d, write_all (data c) todo = Ok d -> shows (mkChunk false [] d) m
  | WFlags m k => open s c /\ shows c m /\ (k <= n_reader b)%nat /\
      forall i, (i < k)%nat -> read_flags c !! i = Some false
  | WMark m => open s c /\ shows c m /\ forall i, (i < n_reader b)%nat -> read_flags c !! i = Some false
  | WSend m => inline m = false /\ exists h, hist s = h ++ [m]
  end.

Record reader_ok (s : ring) (i : nat) (r : reader) : Prop := {
  rk_idx : r_idx r = (consumed r mod max_chunks b)%nat;
  rk_behind : (consumed r <= length (hist s))%nat;
  rk_window : (length (hist s) <= consumed r + max_chunks b)%nat;
  rk_got : late r = 0%nat -> got r = take (length (got r)) (hist s);
  rk_inline : List.filter inline (got r) = List.filter inline (take (passed r) (hist s));
  rk_late : (length (overflowed (got r)) + late r = length (overflowed (take (passed r) (hist s))))%nat;
  rk_inbox : overflowed (sent s) = overflowed (got r) ++ inbox r;
  rk_pc : match r_pc r with
          | RStart => True
          | RFlag flag => flag = false -> forall c, chunks s !! r_idx r = Some c -> read_flags c !! i = Some false
          | RBody => (consumed r < length (hist s))%nat
          | RGot m => exists x, hist s !! consumed r = Some x /\ m = if inline x then Some x else None
          | RSock => exists x, hist s !! passed r = Some x /\ inline x = false
          end
}.

Record inv (s : ring) : Prop := {
  iv_chunks : length (chunks s) = max_chunks b;
  iv_flags : forall k c, chunks s !! k = Some c -> length (read_flags c) = n_reader b;
  iv_readers : length (readers s) = n_reader b;
  iv_idx : w_idx s = (length (hist s) mod max_chunks b)%nat;
  iv_fresh : forall k c, (length (hist s) < k)%nat -> chunks s !! k = Some c -> written c = false;
  iv_live : forall j c, (j < length (hist s) < j + max_chunks b)%nat ->
    chunks s !! (j mod max_chunks b)%nat = Some c -> intact s j c;
  iv_head : forall c, chunks s !! w_idx s = Some c ->
    ((exists j, length (hist s) = (j + max_chunks b)%nat /\ intact s j c) \/ open s c) /\ writer_ok s c;
  iv_reader : forall i r, readers s !! i = Some r -> reader_ok s i r
}.

(** ** Preservation *)

Hypothesis Hpos : (0 < max_chunks b)%nat.

Lemma mod_window (i j : nat) :
  (i <= j < i + max_chunks b)%nat -> (i mod max_chunks b = j mod max_chunks b)%nat -> i = j.
Proof.
  intros Hij Hmod. pose proof (Nat.div_mod_eq i (max_chunks b)) as Hi.
  pose proof (Nat.div_mod_eq j (max_chunks b)) as Hj. rewrite Hmod in Hi.
  set (q := (i / max_chunks b)%nat) in *. set (p := (j / max_chunks b)%nat) in *.
  assert (q = p) as Hqp; [|rewrite Hqp in Hi; lia].
  destruct (Nat.lt_trichotomy q p) as [Hlt|[Heq|Hlt]]; [exfalso|done|exfalso]; clear Hmod; nia.
Qed.

Lemma next_mod (i : nat) : next (i mod max_chunks b)%nat = (S i mod max_chunks b)%nat.
Proof. unfold next. by rewrite Nat.Div0.add_mod_idemp_l, Nat.add_1_r. Qed.

Lemma lookup_readers_upd i j f s r :
  readers (upd_reader i f s) !! j = Some r <->
  exists r0, readers s !! j = Some r0 /\ r = if decide (i = j) then f r0 else r0.
Proof.
  unfold upd_reader. simpl. destruct (decide (i = j)) as [<-|Hne].
  - rewrite list_lookup_alter_eq, fmap_Some. naive_solver.
  - rewrite list_lookup_alter_ne by done. naive_solver.
Qed.

Lemma lookup_chunks_upd k j f s c :
  chunks (upd_chunk k f s) !! j = Some c <->
  exists c0, chunks s !! j = Some c0 /\ c = if decide (k = j) then f c0 else c0.
Proof.
  unfold upd_chunk. simpl. destruct (decide (k = j)) as [<-|Hne].
  - rewrite list_lookup_alter_eq, fmap_Some. naive_solver.
  - rewrite list_lookup_alter_ne by done. naive_solver.
Qed.

(** [intact], [open] and [writer_ok] see readers through what they consumed. *)
Definition same_progress (s s' : ring) : Prop :=
  hist s' = hist s /\ w_pc s' = w_pc s /\
  forall i r', readers s' !! i = Some r' -> exists r, readers s !! i = Some r /\ consumed r' = consumed r.

Lemma intact_progress s s' j c : same_progress s s' -> intact s j c -> intact s' j c.
Proof.
  intros (Hh & _ & Hr) [Hw Hs Hf]. constructor; [done|by rewrite Hh|].
  intros i r' Hi. destruct (Hr i r' Hi) as (r & Hr' & ->). by apply Hf.
Qed.

Lemma open_progress s s' c : same_progress s s' -> open s c -> open s' c.
Proof.
  intros (Hh & _ & Hr) [Hw Ho]. split; [done|]. rewrite Hh.
  intros i r' Hi. destruct (Hr i r' Hi) as (r & Hr' & ->). eauto.
Qed.

Lemma writer_progress s s' c : same_progress s s' -> writer_ok s c -> writer_ok s' c.
Proof.
  intros Hp. pose proof Hp as (Hh & Hw & _). unfold writer_ok. rewrite Hw, Hh.
  destruct (w_pc s); try done; intros (Ho & Hrest); (split; [by eapply open_progress|done]).
Qed.

Lemma passed_le r : (passed r <= consumed r)%nat.
Proof. unfold consumed. lia. Qed.

Lemma overflowed_snoc l m : overflowed (l ++ [m]) = overflowed l ++ if inline m then [] else [m].
Proof. unfold overflowed. rewrite List.filter_app. simpl. by destruct (inline m). Qed.

Lemma sent_prefix s : sent s `prefix_of` hist s.
Proof. unfold sent. destruct (w_pc s); try done. rewrite removelast_firstn_len. apply prefix_take. Qed.

Lemma sent_all s : (forall m, w_pc s <> WSend m) -> sent s = hist s.
Proof. intros Hn. unfold sent. destruct (w_pc s); try done. by destruct (Hn m). Qed.

(** A reader moves without finishing a chunk. *)
Lemma reader_local s i f r :
  inv s -> readers s !! i = Some r -> consumed (f r) = consumed r -> reader_ok s i (f r) ->
  inv (upd_reader i f s).
Proof.
  intros [Hc Hfl Hr Hi Hfr Hlive Hhead Hrd] Hri Hcons Hok.
  assert (Hp : same_progress s (upd_reader i f s)).
  { split_and!; [done|done|]. intros j r' Hj. apply lookup_readers_upd in Hj as (r0 & Hj & ->).
    exists r0. split; [done|]. destruct (decide (i = j)) as [<-|]; congruence. }
  constructor; try done.
  - simpl. by rewrite length_alter.
  - intros j c Hj Hjc. eapply intact_progress; [exact Hp|]. by apply Hlive.
  - intros c Hcc. destruct (Hhead c Hcc) as [Hio Hw]. split; [|by eapply writer_progress].
    destruct Hio as [(j & Hj & Hin)|Ho]; [left; exists j; split; [done|]; by eapply intact_progress|].
    right. by eapply open_progress.
  - intros j r' Hj. apply lookup_readers_upd in Hj as (r0 & Hj & ->).
    assert (reader_ok s j (if decide (i = j) then f r0 else r0)) as [].
    { destruct (decide (i = j)) as [<-|]; [|by apply Hrd]. by rewrite Hri in Hj; injection Hj as <-. }
    by constructor.
Qed.

(** The writer moves without touching the ring. *)
Lemma writer_local s p :
  inv s -> (forall m, w_pc s <> WSend m) -> (forall m, p <> WSend m) ->
  (forall c, chunks s !! w_idx s = Some c -> writer_ok s c -> writer_ok (s <| w_pc := p |>) c) ->
  inv (s <| w_pc := p |>).
Proof.
  intros [Hc Hfl Hr Hi Hfr Hlive Hhead Hrd] Hns Hnp Hok.
  assert (sent (s <| w_pc := p |>) = sent s) as Hsent.
  { by rewrite !sent_all. }
  constructor; try done.
  - intros j c Hj Hjc. destruct (Hlive j c Hj Hjc). by constructor.
  - intros c Hcc. destruct (Hhead c Hcc) as [Hio Hw]. split; [|by apply Hok].
    destruct Hio as [(j & Hj & [])|Ho]; [left; exists j; split; [done|by constructor]|by right].
  - intros j r Hj. destruct (Hrd j r Hj). constructor; by rewrite ?Hsent.
Qed.

(** The writer changes its chunk, which no reader may read. *)
Lemma head_update s f p c :
  inv s -> chunks s !! w_idx s = Some c -> (forall m, w_pc s <> WSend m) -> (forall m, p <> WSend m) ->
  written (f c) = false -> length (read_flags (f c)) = length (read_flags c) ->
  (forall i, read_flags c !! i = Some false -> read_flags (f c) !! i = Some false) ->
  (forall i r, readers s !! i = Some r -> (length (hist s) < consumed r + max_chunks b)%nat) ->
  writer_ok ((upd_chunk (w_idx s) f s) <| w_pc := p |>) (f c) ->
  inv ((upd_chunk (w_idx s) f s) <| w_pc := p |>).
Proof.
  intros [Hc Hfl Hr Hi Hfr Hlive Hhead Hrd] Hcc Hns Hnp Hwf Hlen Hkeep Hfree Hok.
  set (s' := (upd_chunk (w_idx s) f s) <| w_pc := p |>).
  assert (sent s' = sent s) as Hsent.
  { by rewrite !sent_all. }
  constructor; try done.
  - simpl. by rewrite length_alter.
  - intros k c' Hk. apply lookup_chunks_upd in Hk as (c0 & Hk & ->).
    destruct (decide (w_idx s = k)) as [<-|]; [|by eapply Hfl]. rewrite Hcc in Hk. injection Hk as <-.
    rewrite Hlen. by eapply Hfl.
  - intros k c' Hk Hkc. apply lookup_chunks_upd in Hkc as (c0 & Hkc & ->).
    destruct (decide (w_idx s = k)) as [<-|]; [|by eapply Hfr]. by rewrite Hcc in Hkc; injection Hkc as <-.
  - intros j c' Hj Hjc. apply lookup_chunks_upd in Hjc as (c0 & Hjc & ->).
    destruct (decide (w_idx s = j mod max_chunks b)%nat) as [Heq|].
    + exfalso. rewrite Hi in Heq. assert (j = length (hist s)); [|simpl in Hj; lia].
      apply mod_window; [simpl in Hj; lia|done].
    + destruct (Hlive j c0 Hj Hjc). by constructor.
  - intros c' Hcc'. apply lookup_chunks_upd in Hcc' as (c0 & Hc0 & ->).
    change (w_idx s') with (w_idx s) in *. rewrite decide_True by done.
    rewrite Hcc in Hc0. injection Hc0 as <-. split; [|exact Hok]. right. by split.
  - intros j r Hj. destruct (Hrd j r Hj) as [? ? ? ? ? ? ? Hpc]. constructor; rewrite ?Hsent; try done.
    destruct (r_pc r); try done. intros Hff c' Hc'. apply lookup_chunks_upd in Hc' as (c0 & Hc0 & ->).
    specialize (Hpc Hff c0 Hc0). destruct (decide (w_idx s = r_idx r)) as [Heq|]; [|done].
    rewrite <-Heq, Hcc in Hc0. injection Hc0 as <-. by apply Hkeep.
Qed.

(** What the whole body leaves in the chunk, whatever was there before. *)
Lemma body_shows m buf d : write_all buf (body_writes m) = Ok d -> shows (mkChunk false [] d) m.
Proof.
  intros Hrun. unfold shows, body_writes in *. simpl.
  destruct (inline m); by apply frame_roundtrip in Hrun.
Qed.

(** The chunk the writer is about to mark becomes message [length hist]. *)
Lemma mark_inv s m c :
  inv s -> chunks s !! w_idx s = Some c -> w_pc s = WMark m ->
  inv ((upd_chunk (w_idx s) (fun c => c <| written := true |>) s)
         <| w_idx ::= next |> <| hist ::= fun h => h ++ [m] |>
         <| w_pc := if inline m then WIdle else WSend m |>).
Proof.
  intros [Hc Hfl Hr Hi Hfr Hlive Hhead Hrd] Hcc Hpc.
  set (s' := _ <| w_pc := _ |>). set (w := length (hist s)) in *.
  destruct (Hhead c Hcc) as [_ Hok]. unfold writer_ok in Hok. rewrite Hpc in Hok.
  destruct Hok as ([Hwf Hfree] & Hshow & Hflags). fold w in Hfree.
  assert (Hw' : length (hist s') = S w) by (simpl; rewrite length_app; simpl; lia).
  assert (Hsent : sent s' = if inline m then hist s ++ [m] else hist s).
  { unfold sent. simpl. destruct (inline m); [done|]. by rewrite removelast_last. }
  assert (Hnew : intact s' w (c <| written := true |>)).
  { constructor; [done| |].
    - exists m. split; [|done]. simpl. rewrite lookup_app_r by done. by rewrite Nat.sub_diag.
    - intros i r Hir. simpl. change (readers s' !! i) with (readers s !! i) in Hir.
      destruct (Hrd i r Hir) as [_ Hle _ _ _ _ _ _]. fold w in Hle.
      rewrite bool_decide_eq_false_2 by lia. apply Hflags. rewrite <-Hr. by apply lookup_lt_Some in Hir. }
  assert (Hold : forall j c', (j < w < j + max_chunks b)%nat -> chunks s !! (j mod max_chunks b)%nat = Some c' ->
    intact s' j c').
  { intros j c' Hj Hjc. destruct (Hlive j c' Hj Hjc) as [? (x & Hx & ?) ?]. constructor; [done| |done].
    exists x. split; [|done]. simpl. by apply lookup_app_l_Some. }
  assert (Hother : forall j, (j < w < j + max_chunks b)%nat -> w_idx s <> (j mod max_chunks b)%nat).
  { intros j Hj Heq. rewrite Hi in Heq. assert (j = w); [|lia]. apply mod_window; [lia|done]. }
  constructor.
  - simpl. by rewrite length_alter.
  - intros k c' Hk. apply lookup_chunks_upd in Hk as (c0 & Hk & ->).
    destruct (decide (w_idx s = k)); exact (Hfl _ _ Hk).
  - done.
  - rewrite Hw'. simpl. rewrite Hi. by rewrite next_mod.
  - intros k c' Hk Hkc. rewrite Hw' in Hk. apply lookup_chunks_upd in Hkc as (c0 & Hkc & ->).
    rewrite decide_False; [eapply Hfr; [|exact Hkc]; fold w; lia|].
    rewrite Hi. pose proof (Nat.Div0.mod_le w (max_chunks b)). lia.
  - intros j c' Hj Hjc. rewrite Hw' in Hj. apply lookup_chunks_upd in Hjc as (c0 & Hjc & ->).
    destruct (decide (j = w)) as [->|Hjw].
    + rewrite Hi in *. rewrite decide_True by done. rewrite Hcc in Hjc. by injection Hjc as <-.
    + rewrite decide_False by (apply Hother; lia). apply Hold; [lia|done].
  - intros c' Hc'. split.
    + apply lookup_chunks_upd in Hc' as (c0 & Hc0 & ->).
      change (w_idx s') with (next (w_idx s)) in *. rewrite Hw'.
      assert (Hnx : next (w_idx s) = (S w mod max_chunks b)%nat) by (rewrite Hi; apply next_mod).
      rewrite Hnx in Hc0 |- *.
      destruct (decide (max_chunks b <= S w)%nat) as [Hge|Hlt].
      * left. exists (S w - max_chunks b)%nat. split; [lia|].
        assert (Hmod : (S w mod max_chunks b = (S w - max_chunks b) mod max_chunks b)%nat).
        { replace (S w) with ((S w - max_chunks b) + 1 * max_chunks b)%nat at 1 by lia.
          apply Nat.Div0.mod_add. }
        rewrite Hmod in Hc0 |- *. destruct (decide (S w - max_chunks b = w)%nat) as [He|].
        -- rewrite He, <-Hi in Hc0 |- *. rewrite decide_True by done.
           rewrite Hcc in Hc0. by injection Hc0 as <-.
        -- rewrite decide_False by (apply Hother; lia). apply Hold; [lia|done].
      * right. rewrite (Nat.mod_small (S w)) in Hc0 |- * by lia. split.
        -- rewrite decide_False; [eapply Hfr; [|exact Hc0]; fold w; lia|].
           rewrite Hi, Nat.mod_small by lia. lia.
        -- intros i r Hir. rewrite Hw'. lia.
    + unfold writer_ok. simpl. destruct (inline m) eqn:Ei; [done|]. split; [done|]. by exists (hist s).
  - intros i r Hir. change (readers s' !! i) with (readers s !! i) in Hir.
    destruct (Hrd i r Hir) as [Hidx Hbeh Hwin Hgot Hinl Hlate Hin Hp]. fold w in Hbeh, Hwin.
    pose proof (Hfree i r Hir) as Hfr'. rewrite sent_all in Hin by (by rewrite Hpc).
    pose proof (passed_le r) as Hple.
    constructor; rewrite ?Hw', ?Hsent; change (hist s') with (hist s ++ [m]);
      rewrite ?take_app_le by (fold w; unfold passed in *; lia); try done; try lia.
    + destruct (inline m) eqn:Ei; [|done]. by rewrite overflowed_snoc, Ei, app_nil_r.
    + destruct (r_pc r); try done.
      * intros Hff c' Hc'. apply lookup_chunks_upd in Hc' as (c0 & Hc0 & ->).
        specialize (Hp Hff c0 Hc0). by destruct (decide _).
      * fold w in Hp. lia.
      * destruct Hp as (x & Hx & ->). exists x. split; [by apply lookup_app_l_Some|done].
      * destruct Hp as (x & Hx & ?). exists x. split; [by apply lookup_app_l_Some|done].
Qed.

(** The message reaches every socket. *)
Lemma send_inv s m :
  inv s -> w_pc s = WSend m ->
  inv (s <| readers ::= fmap (fun r => r <| inbox ::= fun q => q ++ [m] |>) |> <| w_pc := WIdle |>).
Proof.
  intros [Hc Hfl Hr Hi Hfr Hlive Hhead Hrd] Hpc. set (s' := _ <| w_pc := _ |>).
  assert (Hlook : forall i r', readers s' !! i = Some r' -> exists r, readers s !! i = Some r /\
    r' = r <| inbox ::= fun q => q ++ [m] |>).
  { intros i r' Hi'. simpl in Hi'. rewrite list_lookup_fmap, fmap_Some in Hi'. naive_solver. }
  assert (Hint : forall j c, intact s j c -> intact s' j c).
  { intros j c [? ? Hf]. constructor; [done..|]. intros i r' Hi'. destruct (Hlook i r' Hi') as (r & Hr' & ->).
    exact (Hf i r Hr'). }
  constructor; try done.
  - simpl. by rewrite length_fmap.
  - intros j c Hj Hjc. apply Hint. by apply Hlive.
  - intros c Hcc. split; [|done]. destruct (Hhead c Hcc) as [[(j & Hj & Hin)|[Hwf Ho]] _].
    + left. exists j. split; [done|]. by apply Hint.
    + right. split; [done|]. intros i r' Hi'. destruct (Hlook i r' Hi') as (r & Hr' & ->). exact (Ho i r Hr').
  - intros i r' Hi'. destruct (Hlook i r' Hi') as (r & Hir & ->).
    destruct (Hrd i r Hir) as [Hidx Hbeh Hwin Hgot Hinl Hlate Hin Hp].
    assert (exists c, chunks s !! w_idx s = Some c) as [c Hcc].
    { apply lookup_lt_is_Some. rewrite Hc, Hi. by apply Nat.mod_upper_bound, Nat.neq_0_lt_0. }
    destruct (Hhead c Hcc) as [_ Hok]. unfold writer_ok in Hok. rewrite Hpc in Hok.
    destruct Hok as [Hm (h & Hh)].
    assert (sent s = h) as Hsh by (unfold sent; by rewrite Hpc, Hh, removelast_last).
    assert (sent s' = h ++ [m]) as Hsh' by (unfold sent; simpl; exact Hh).
    rewrite Hsh in Hin. constructor; try done.
    rewrite Hsh', overflowed_snoc, Hm, Hin. simpl. by rewrite app_assoc.
Qed.

(** The reader marks its chunk as read and moves on. *)
Section Release.
Context (s : ring) (i : nat) (r : reader) (m : option message).
Hypothesis Hinv : inv s.
Hypothesis Hir : readers s !! i = Some r.
Hypothesis Hpc : r_pc r = RGot m.

Definition set_flag (c : chunk) : chunk := c <| read_flags ::= insert i true |>.
Definition released : ring := upd_reader i (release m) (upd_chunk (r_idx r) set_flag s).

Lemma released_readers j r' :
  readers released !! j = Some r' <->
  exists r0, readers s !! j = Some r0 /\ r' = if decide (i = j) then release m r0 else r0.
Proof. apply (lookup_readers_upd i j (release m) (upd_chunk (r_idx r) set_flag s)). Qed.

Lemma released_chunks j c' :
  chunks released !! j = Some c' <->
  exists c0, chunks s !! j = Some c0 /\ c' = if decide (r_idx r = j) then set_flag c0 else c0.
Proof. apply (lookup_chunks_upd (r_idx r) j set_flag s). Qed.

Lemma release_behind : (consumed r < length (hist s))%nat.
Proof.
  destruct (iv_reader _ Hinv i r Hir) as [_ _ _ _ _ _ _ Hp]. rewrite Hpc in Hp.
  destruct Hp as (x & Hx & _). by apply lookup_lt_Some in Hx.
Qed.

Lemma release_consumed : consumed (release m r) = S (consumed r).
Proof. unfold consumed at 2. rewrite Hpc. unfold consumed, passed. destruct m; simpl; rewrite ?length_app; simpl; lia. Qed.

(** Only message [consumed r] can sit in the reader's chunk. *)
Lemma release_index j :
  (j < length (hist s) <= j + max_chunks b)%nat -> r_idx r = (j mod max_chunks b)%nat -> j = consumed r.
Proof.
  intros Hj Heq. pose proof release_behind as Hlt.
  destruct (iv_reader _ Hinv i r Hir) as [Hidx _ Hwin _ _ _ _ _]. rewrite Hidx in Heq.
  destruct (decide (j <= consumed r)%nat).
  - apply mod_window; [lia|done].
  - symmetry. apply mod_window; [lia|done].
Qed.

Lemma release_intact j c :
  (j < length (hist s) <= j + max_chunks b)%nat -> intact s j c ->
  intact released j (if decide (r_idx r = (j mod max_chunks b)%nat) then set_flag c else c).
Proof.
  intros Hj [Hw Hs Hf].
  assert (Hflag : forall j' r0, readers s !! j' = Some r0 -> i <> j' \/ j <> consumed r ->
    bool_decide (j < consumed r0)%nat = bool_decide (j < consumed (if decide (i = j') then release m r0 else r0))%nat).
  { intros j' r0 Hr0 Hcase. apply bool_decide_ext. destruct (decide (i = j')) as [<-|]; [|done].
    rewrite Hir in Hr0. injection Hr0 as <-. rewrite release_consumed. destruct Hcase; [done|lia]. }
  destruct (decide (r_idx r = (j mod max_chunks b)%nat)) as [Heq|Hne].
  - apply release_index in Heq; [|done]. constructor; [done|done|]. intros j' r' Hj'.
    apply released_readers in Hj' as (r0 & Hr0 & ->). simpl.
    destruct (decide (i = j')) as [<-|Hij].
    + rewrite list_lookup_insert_eq by (apply lookup_lt_is_Some; by eexists; apply (Hf i r)).
      rewrite Hir in Hr0. injection Hr0 as <-. rewrite release_consumed. by rewrite bool_decide_eq_true_2 by lia.
    + rewrite list_lookup_insert_ne by done. by apply Hf.
  - constructor; [done|done|]. intros j' r' Hj'. apply released_readers in Hj' as (r0 & Hr0 & ->).
    rewrite (Hf j' r0 Hr0). f_equal. apply Hflag; [done|]. right. intros ->. apply Hne.
    by destruct (iv_reader _ Hinv i r Hir).
Qed.

(** A chunk that may be written is not the reader's. *)
Lemma release_open c : open s c -> r_idx r <> w_idx s /\ open released c.
Proof.
  intros [Hw Ho]. pose proof (Ho i r Hir) as Hoi. pose proof release_behind as Hlt. split.
  - destruct (iv_reader _ Hinv i r Hir) as [-> _ _ _ _ _ _ _]. rewrite (iv_idx _ Hinv). intros Heq.
    apply mod_window in Heq; lia.
  - split; [done|]. intros j r' Hj. apply released_readers in Hj as (r0 & Hr0 & ->).
    specialize (Ho j r0 Hr0). change (hist released) with (hist s).
    destruct (decide (i = j)) as [<-|]; [|done]. rewrite Hir in Hr0. injection Hr0 as <-.
    rewrite release_consumed. lia.
Qed.

Lemma release_writer c :
  chunks s !! w_idx s = Some c -> writer_ok s c ->
  writer_ok released (if decide (r_idx r = w_idx s) then set_flag c else c).
Proof.
  intros Hc Hok. unfold writer_ok in *. change (w_pc released) with (w_pc s).
  destruct (w_pc s) as [|m0 k0 n0|m0 t0|m0 k0|m0|m0]; try done.
  2-4: destruct Hok as (Ho & Hrest); destruct (release_open c Ho) as [Hne Ho'];
    rewrite decide_False by done; by split.
  destruct Hok as (? & ? & Hall). split_and!; [done|done|]. intros Hk j Hj. specialize (Hall Hk j Hj).
  destruct (decide _); [|done]. simpl. destruct (decide (i = j)) as [<-|].
  - apply list_lookup_insert_eq. by apply lookup_lt_Some in Hall.
  - by rewrite list_lookup_insert_ne.
Qed.

Lemma release_reader j r0 :
  readers s !! j = Some r0 -> reader_ok released j (if decide (i = j) then release m r0 else r0).
Proof.
  intros Hj. destruct (iv_reader _ Hinv j r0 Hj) as [Hidx Hbeh Hwin Hgot Hinl Hlate Hin Hp].
  pose proof release_behind as Hlt.
  destruct (decide (i = j)) as [<-|Hij].
  - rewrite Hir in Hj. injection Hj as <-. rewrite Hpc in Hp. destruct Hp as (x & Hx & Hm).
    assert (Hg : consumed r = passed r) by (unfold consumed; rewrite Hpc; lia).
    rewrite Hg in Hx. destruct (inline x) eqn:Ex.
    + assert (Hpas : passed (release m r) = S (passed r)).
      { unfold passed. rewrite Hm. simpl. rewrite length_app. simpl. lia. }
      constructor; change (hist released) with (hist s); change (sent released) with (sent s);
        rewrite ?release_consumed, ?Hpas, ?(take_S_r _ _ _ Hx), ?overflowed_snoc, ?List.filter_app,
          ?length_app; rewrite ?Hm; simpl; rewrite ?overflowed_snoc, ?List.filter_app, ?Ex, ?app_nil_r; try done.
      * rewrite Hidx. apply next_mod.
      * lia.
      * intros Hl. unfold passed in Hx. rewrite Hl, Nat.add_0_r in Hx.
        rewrite length_app, Nat.add_1_r, (take_S_r _ _ _ Hx), <-Hgot by done. done.
      * rewrite Hinl. simpl. by rewrite Ex.
      * simpl. lia.
    + constructor; change (hist released) with (hist s); change (sent released) with (sent s);
        rewrite ?release_consumed, ?Hm; simpl; try done.
      * rewrite Hidx. apply next_mod.
      * lia.
      * by exists x.
  - constructor; try done. destruct (r_pc r0); try done. intros Hff c' Hc'.
    apply released_chunks in Hc' as (c0 & Hc0 & ->). specialize (Hp Hff c0 Hc0).
    destruct (decide _); [|done]. simpl. by rewrite list_lookup_insert_ne.
Qed.

Lemma release_inv : inv released.
Proof.
  pose proof Hinv as [Hc Hfl Hr Hi Hfr Hlive Hhead Hrd]. constructor.
  - simpl. by rewrite length_alter.
  - intros j c' Hj. apply released_chunks in Hj as (c0 & Hj & ->).
    destruct (decide _); simpl; rewrite ?length_insert; exact (Hfl _ _ Hj).
  - simpl. by rewrite length_alter.
  - done.
  - intros j c' Hj Hjc. apply released_chunks in Hjc as (c0 & Hjc & ->).
    pose proof (Hfr j c0 Hj Hjc). by destruct (decide _).
  - intros j c' Hj Hjc. apply released_chunks in Hjc as (c0 & Hjc & ->).
    change (hist released) with (hist s) in Hj. apply release_intact; [lia|]. by apply Hlive.
  - intros c' Hc'. apply released_chunks in Hc' as (c0 & Hc0 & ->). change (w_idx released) with (w_idx s) in *.
    destruct (Hhead c0 Hc0) as [Hio Hok]. split; [|by apply release_writer].
    destruct Hio as [(j & Hj & Hin0)|Ho].
    + left. exists j. split; [done|].
      assert (Hwj : w_idx s = (j mod max_chunks b)%nat).
      { rewrite Hi, Hj. replace (j + max_chunks b)%nat with (j + 1 * max_chunks b)%nat by lia.
        apply Nat.Div0.mod_add. }
      rewrite Hwj. apply release_intact; [lia|done].
    + right. destruct (release_open c0 Ho) as [Hne Ho']. by rewrite decide_False.
  - intros j r' Hj. apply released_readers in Hj as (r0 & Hr0 & ->). by apply release_reader.
Qed.

End Release.

Lemma ring_init_inv : inv init.
Proof.
  assert (Hc : forall k c, chunks init !! k = Some c -> written c = false /\ length (read_flags c) = n_reader b).
  { intros k c Hk. apply lookup_replicate in Hk as [-> _]. simpl. by rewrite length_replicate. }
  constructor; simpl.
  - apply length_replicate.
  - intros k c Hk. by apply (Hc k).
  - apply length_replicate.
  - by rewrite Nat.Div0.mod_0_l.
  - intros k c _ Hk. by apply (Hc k).
  - intros j c Hj. lia.
  - intros c Hk. split; [|done]. right. split; [by apply (Hc 0%nat)|]. simpl. intros. lia.
  - intros i r Hi. apply lookup_replicate in Hi as [-> _]. constructor; simpl; try done; try lia.
    by rewrite Nat.Div0.mod_0_l.
Qed.

(** The check succeeded: every reader is past what the chunk holds. *)
Lemma check_free s m k count c :
  inv s -> chunks s !! w_idx s = Some c -> w_pc s = WCheck m k count -> (n_reader b <= k)%nat ->
  blocked c count = false ->
  forall i r, readers s !! i = Some r -> (length (hist s) < consumed r + max_chunks b)%nat.
Proof.
  intros Hinv Hc Hpc Hk Hb i r Hir. destruct (iv_head _ Hinv c Hc) as [[(j & Hj & [Hw _ Hf])|[_ Ho]] Hok];
    [|by apply (Ho i)].
  unfold blocked in Hb. rewrite Hw in Hb. simpl in Hb. apply negb_false_iff, Nat.eqb_eq in Hb.
  unfold writer_ok in Hok. rewrite Hpc in Hok. destruct Hok as (H1 & H2 & Hall).
  assert (i < n_reader b)%nat as Hi by (rewrite <-(iv_readers _ Hinv); by apply lookup_lt_Some in Hir).
  specialize (Hall ltac:(lia) i ltac:(lia)). rewrite (Hf i r Hir) in Hall. injection Hall as Hall.
  bool_prop. lia.
Qed.

Lemma check_step_inv s m k count c s' :
  inv s -> chunks s !! w_idx s = Some c -> w_pc s = WCheck m k count -> writer_step s = Some s' -> inv s'.
Proof.
  intros Hinv Hc Hpc. unfold writer_step. rewrite Hc, Hpc. simpl.
  destruct (iv_head _ Hinv c Hc) as [_ Hok]. unfold writer_ok in Hok. rewrite Hpc in Hok.
  destruct Hok as (H1 & H2 & Hall).
  destruct (Nat.ltb_spec k (n_reader b)).
  - destruct (read_flags c !! k) as [flag|] eqn:Ef; simpl; [|done]. intros [= <-].
    apply writer_local; [done|by rewrite Hpc|done|]. intros c' Hc' _. rewrite Hc in Hc'. injection Hc' as <-.
    unfold writer_ok. simpl. split_and!; [destruct flag; lia|lia|].
    intros Heq i Hi. destruct flag; [|lia].
    destruct (decide (i = k)) as [->|]; [done|]. apply Hall; lia.
  - destruct (blocked c count) eqn:Eb; intros [= <-].
    + apply writer_local; [done|by rewrite Hpc|done|]. intros c' _ _. unfold writer_ok. simpl.
      split_and!; [lia|lia|]. intros _ i Hi. lia.
    + pose proof (check_free s m k count c Hinv Hc Hpc ltac:(lia) Eb) as Hfree.
      eapply head_update; [done|done|by rewrite Hpc|done|done|done|done|exact Hfree|].
      unfold writer_ok. simpl. split; [by split|]. intros d. apply body_shows.
Qed.

Lemma writer_step_inv s s' : inv s -> writer_step s = Some s' -> inv s'.
Proof.
  intros Hinv Hstep. destruct (chunks s !! w_idx s) as [c|] eqn:Hc; [|by unfold writer_step in Hstep; rewrite Hc in Hstep].
  destruct (iv_head _ Hinv c Hc) as [_ Hok]. unfold writer_ok in Hok.
  destruct (w_pc s) as [|m k count|m todo|m k|m|m] eqn:Hpc.
  - unfold writer_step in Hstep. by rewrite Hc, Hpc in Hstep.
  - by eapply check_step_inv.
  - unfold writer_step in Hstep. rewrite Hc, Hpc in Hstep. simpl in Hstep.
    destruct Hok as [[Hw Ho] Hshow]. destruct todo as [|x todo].
    + injection Hstep as <-. apply writer_local; [done|by rewrite Hpc|done|]. intros c' Hc' _.
      rewrite Hc in Hc'. injection Hc' as <-. unfold writer_ok. simpl.
      split_and!; [by split|by apply (Hshow (data c))|lia|]. intros i Hi. lia.
    + destruct (write_one (data c) x) as [d|e] eqn:Ex; injection Hstep as <-.
      * eapply head_update; [done|done|by rewrite Hpc|done|done|done|done|exact Ho|].
        unfold writer_ok. simpl. split; [by split|]. intros d' Hd'. apply Hshow.
        unfold write_all. simpl. by rewrite Ex.
      * apply writer_local; [done|by rewrite Hpc|done|done].
  - unfold writer_step in Hstep. rewrite Hc, Hpc in Hstep. simpl in Hstep.
    destruct Hok as ([Hw Ho] & Hshow & Hk & Hall). destruct (Nat.ltb_spec k (n_reader b)); injection Hstep as <-.
    + eapply head_update; [done|done|by rewrite Hpc|done|done|by simpl; rewrite length_insert| |exact Ho|].
      * intros i Hi. simpl. destruct (decide (k = i)) as [<-|].
        -- apply list_lookup_insert_eq. by apply lookup_lt_Some in Hi.
        -- by rewrite list_lookup_insert_ne.
      * unfold writer_ok. simpl. split_and!; [by split|done|lia|]. intros i Hi.
        destruct (decide (k = i)) as [<-|].
        -- apply list_lookup_insert_eq. by rewrite (iv_flags _ Hinv _ _ Hc).
        -- rewrite list_lookup_insert_ne by done. apply Hall. lia.
    + apply writer_local; [done|by rewrite Hpc|done|]. intros c' Hc' _. rewrite Hc in Hc'. injection Hc' as <-.
      unfold writer_ok. simpl. split_and!; [by split|done|]. intros i Hi. apply Hall. lia.
  - unfold writer_step in Hstep. rewrite Hc, Hpc in Hstep. injection Hstep as <-. by eapply mark_inv.
  - unfold writer_step in Hstep. rewrite Hc, Hpc in Hstep. injection Hstep as <-. by apply send_inv.
Qed.

(** A reader's chunk exists, and shows message [consumed r] once written and
    not marked by the reader. *)
Lemma reader_chunk s i r c :
  inv s -> readers s !! i = Some r -> chunks s !! r_idx r = Some c ->
  (consumed r < length (hist s))%nat -> intact s (consumed r) c.
Proof.
  intros Hinv Hir Hc Hlt. destruct (iv_reader _ Hinv i r Hir) as [Hidx _ Hwin _ _ _ _ _]. rewrite Hidx in Hc.
  destruct (decide (length (hist s) < consumed r + max_chunks b)%nat); [by apply (iv_live _ Hinv)|].
  assert (Hl : length (hist s) = (consumed r + 1 * max_chunks b)%nat) by lia.
  assert (Hwi : w_idx s = (consumed r mod max_chunks b)%nat) by (rewrite (iv_idx _ Hinv), Hl; apply Nat.Div0.mod_add).
  rewrite <-Hwi in Hc. destruct (iv_head _ Hinv c Hc) as [[(j & Hj & Hin)|[_ Ho]] _].
  - assert (j = consumed r) as <- by lia. done.
  - specialize (Ho i r Hir). lia.
Qed.

Lemma reader_ready s i r c :
  inv s -> readers s !! i = Some r -> chunks s !! r_idx r = Some c -> written c = true ->
  read_flags c !! i = Some false -> (consumed r < length (hist s))%nat.
Proof.
  intros Hinv Hir Hc Hw Hf. destruct (iv_reader _ Hinv i r Hir) as [Hidx Hbeh Hwin _ _ _ _ _].
  destruct (decide (consumed r < length (hist s))%nat) as [|Hge]; [done|exfalso].
  assert (Heq : consumed r = length (hist s)) by lia.
  rewrite Hidx, Heq, <-(iv_idx _ Hinv) in Hc.
  destruct (iv_head _ Hinv c Hc) as [[(j & Hj & [_ _ Hfl])|[Ho _]] _]; [|congruence].
  specialize (Hfl i r Hir). rewrite Hf in Hfl. injection Hfl as Hfl. symmetry in Hfl. bool_prop. lia.
Qed.

(** The overflowed message a reader waits for is the next of its socket, unless
    a call timed out before. *)
Lemma recv_inv s i r x y q :
  inv s -> readers s !! i = Some r -> r_pc r = RSock -> hist s !! passed r = Some x -> inline x = false ->
  inbox r = y :: q ->
  inv (upd_reader i (fun r => r <| inbox := q |> <| got ::= fun l => l ++ [y] |> <| r_pc := RStart |>) s).
Proof.
  intros Hinv Hir Hpc Hx Hix Einb.
  destruct (iv_reader _ Hinv i r Hir) as [Hidx Hbeh Hwin Hgot Hinl Hlate Hin Hp].
  set (f := fun r : reader => _). assert (Hpas : passed (f r) = S (passed r)).
  { unfold passed. simpl. rewrite length_app. simpl. lia. }
  assert (Hcons : consumed (f r) = consumed r) by (unfold consumed; rewrite Hpc, Hpas; simpl; lia).
  assert (Hy : inline y = false).
  { assert (In y (overflowed (sent s))) as Hy by (rewrite Hin, Einb; apply in_app_iff; right; by left).
    apply List.filter_In in Hy as [_ Hy]. by destruct (inline y). }
  eapply reader_local; [done|exact Hir|exact Hcons|].
  change (reader_ok s i (f r)).
  constructor; rewrite ?Hcons, ?Hpas, ?(take_S_r _ _ _ Hx), ?List.filter_app, ?overflowed_snoc, ?Hix;
    simpl; rewrite ?List.filter_app, ?overflowed_snoc, ?Hy; simpl; rewrite ?Hy, ?Hix, ?app_nil_r; try done.
  - intros Hl. unfold passed in Hx. rewrite Hl, Nat.add_0_r in Hx.
    rewrite length_app, Nat.add_1_r, (take_S_r _ _ _ Hx), <-Hgot by done. f_equal. f_equal.
    destruct (sent_prefix s) as [k Hk].
    rewrite <-(take_drop_middle _ _ _ Hx), <-Hgot in Hk by done. apply (f_equal overflowed) in Hk.
    unfold overflowed in Hk, Hin. rewrite !List.filter_app, Hin, Einb in Hk. simpl in Hk. rewrite Hix in Hk.
    simpl in Hk. rewrite <-app_assoc in Hk. apply app_inv_head in Hk. by injection Hk as -> _.
  - rewrite !length_app. simpl. lia.
  - by rewrite Hin, Einb, <-app_assoc.
Qed.

Lemma reader_step_inv i s s' : inv s -> reader_step i s = Some s' -> inv s'.
Proof.
  intros Hinv. unfold reader_step. destruct (readers s !! i) as [r|] eqn:Hir; simpl; [|done].
  destruct (chunks s !! r_idx r) as [c|] eqn:Hc; simpl; [|done].
  destruct (iv_reader _ Hinv i r Hir) as [Hidx Hbeh Hwin Hgot Hinl Hlate Hin Hp].
  destruct (r_pc r) as [|flag| |m|] eqn:Hpc.
  - destruct (read_flags c !! i) as [flag|] eqn:Ef; simpl; [|done]. intros [= <-].
    assert (consumed (r <| r_pc := RFlag flag |>) = consumed r) as Hcons by (unfold consumed; by rewrite Hpc).
    eapply reader_local; [done|exact Hir|done|]. constructor; rewrite ?Hcons; try done. simpl.
    intros -> c' Hc'. rewrite Hc in Hc'. by injection Hc' as <-.
  - intros [= <-]. set (p := if _ : bool then _ else _).
    assert (consumed (r <| r_pc := p |>) = consumed r) as Hcons
      by (unfold consumed, p; simpl; rewrite Hpc; by destruct (_ && _)).
    eapply reader_local; [done|exact Hir|done|]. constructor; rewrite ?Hcons; try done. simpl. unfold p.
    destruct (written c && negb flag) eqn:E; [|done]. bool_prop. subst flag.
    eapply reader_ready; [done|exact Hir|exact Hc|done|]. by apply Hp.
  - intros [= <-].
    assert (consumed (r <| r_pc := RGot (read_chunk (data c)) |>) = consumed r) as Hcons
      by (unfold consumed; by rewrite Hpc).
    eapply reader_local; [done|exact Hir|done|]. constructor; rewrite ?Hcons; try done. simpl.
    destruct (reader_chunk s i r c Hinv Hir Hc Hp) as [_ (x & Hx & Hsh) _]. by exists x.
  - intros [= <-]. by apply (release_inv s i r m).
  - destruct (inbox r) as [|y q] eqn:Einb; [done|]. intros [= <-]. destruct Hp as (x & Hx & Hix).
    by apply (recv_inv s i r x y q).
Qed.

Lemma recv_timeout_inv i s s' : inv s -> recv_timeout i s = Some s' -> inv s'.
Proof.
  intros Hinv. unfold recv_timeout. destruct (readers s !! i) as [r|] eqn:Hir; simpl; [|done].
  destruct (r_pc r) eqn:Hpc; try done. intros [= <-].
  destruct (iv_reader _ Hinv i r Hir) as [Hidx Hbeh Hwin Hgot Hinl Hlate Hin Hp].
  rewrite Hpc in Hp. destruct Hp as (x & Hx & Hix). set (r' := r <| late ::= S |> <| r_pc := RStart |>).
  assert (Hpas : passed r' = S (passed r)) by (unfold passed; simpl; lia).
  assert (Hcons : consumed r' = consumed r) by (unfold consumed; rewrite Hpc, Hpas; simpl; lia).
  eapply reader_local; [done|exact Hir|exact Hcons|]. change (reader_ok s i r').
  constructor; rewrite ?Hcons, ?Hpas, ?(take_S_r _ _ _ Hx), ?List.filter_app, ?overflowed_snoc, ?Hix; try done.
  - simpl. by rewrite Hix, app_nil_r.
  - rewrite length_app. simpl. lia.
Qed.

Lemma step_inv s s' : inv s -> step s s' -> inv s'.
Proof.
  intros Hinv Hst. destruct Hst as [s m Hpc|s m count c Hpc|s s1 Hw|s s1 i Hr|s s1 i Hr].
  - apply writer_local; [done|by rewrite Hpc|done|]. intros c _ _. unfold writer_ok. simpl.
    split_and!; [lia|lia|]. intros _ i Hi. lia.
  - apply writer_local; [done|by rewrite Hpc|done|]. done.
  - by eapply writer_step_inv.
  - by eapply reader_step_inv.
  - by eapply recv_timeout_inv.
Qed.

Lemma reachable_inv s : reachable s -> inv s.
Proof.
  intros Hr. assert (forall x y, rtc step x y -> inv x -> inv y) as Hgen.
  { induction 1; eauto using step_inv. }
  eapply Hgen; [exact Hr|apply ring_init_inv].
Qed.

(** ** Properties *)

(** C12 (broadcast order): in every reachable state, whatever the interleaving
    and whichever calls time out, each reader has received the in-chunk
    messages among the first [passed] ones in order and without loss, and the
    overflowed ones as a prefix of those enqueued, one behind for every call
    that timed out in [recv]; it is at most [max_chunks] messages behind.  A
    reader none of whose calls timed out in [recv] has received exactly a
    prefix of the enqueued messages, in order. *)
Theorem ring_broadcast_fifo s i r :
  reachable s -> readers s !! i = Some r ->
  List.filter inline (got r) = List.filter inline (take (passed r) (hist s)) /\
  overflowed (got r) `prefix_of` overflowed (hist s) /\
  (length (overflowed (got r)) + late r = length (overflowed (take (passed r) (hist s))))%nat /\
  (passed r <= length (hist s) <= passed r + max_chunks b + 1)%nat /\
  (late r = 0%nat -> got r `prefix_of` hist s).
Proof.
  intros Hs Hir. destruct (iv_reader _ (reachable_inv s Hs) i r Hir) as [_ Hbeh Hwin Hgot Hinl Hlate Hin _].
  split_and!; [done| |done| | |].
  - transitivity (overflowed (sent s)); [rewrite Hin; by apply prefix_app_r|].
    destruct (sent_prefix s) as [k ->]. unfold overflowed. rewrite List.filter_app. by apply prefix_app_r.
  - pose proof (passed_le r). lia.
  - unfold consumed in Hwin. destruct (r_pc r); lia.
  - intros Hl. rewrite Hgot by done. apply prefix_take.
Qed.

(** C13 (no torn reads): whenever a reader is in the body of [acquire_read] its
    chunk is completely written with the message that is next for that reader,
    and the writer is not writing to it. *)
Theorem ring_reads_complete_chunks s i r c :
  reachable s -> readers s !! i = Some r -> r_pc r = RBody -> chunks s !! r_idx r = Some c ->
  written c = true /\ (exists m, hist s !! passed r = Some m /\ shows c m) /\
  (w_idx s = r_idx r -> match w_pc s with WBody _ _ | WFlags _ _ | WMark _ => False | _ => True end).
Proof.
  intros Hs Hir Hpc Hc. apply reachable_inv in Hs as Hinv.
  destruct (iv_reader _ Hinv i r Hir) as [_ _ _ _ _ _ _ Hp]. rewrite Hpc in Hp.
  destruct (reader_chunk s i r c Hinv Hir Hc Hp) as [Hw Hm Hf].
  assert (consumed r = passed r) as Hcg by (unfold consumed; rewrite Hpc; lia).
  split_and!; [done|by rewrite <-Hcg|]. intros Heq. rewrite <-Heq in Hc.
  destruct (iv_head _ Hinv c Hc) as [_ Hok]. unfold writer_ok in Hok.
  destruct (w_pc s); try done; destruct Hok as [[Hopen _] _]; congruence.
Qed.

(** Whether reader [i]'s check in [acquire_read] would succeed now. *)
Definition can_read (s : ring) (i : nat) (r : reader) : Prop :=
  exists c, chunks s !! r_idx r = Some c /\ written c = true /\ read_flags c !! i = Some false.

(** C14 (no deadlock): when the writer's check fails, some reader that has not
    read the writer's chunk can read it; a reader whose check fails is past
    every message, and has them all if none of its calls timed out in [recv];
    and a reader that waits on an empty socket waits for a message
    the writer is about to send. *)
Theorem ring_never_deadlocks s :
  reachable s ->
  (forall c, chunks s !! w_idx s = Some c -> written c = true ->
     (exists i, (i < n_reader b)%nat /\ read_flags c !! i = Some false) ->
     exists i r, readers s !! i = Some r /\ r_idx r = w_idx s /\
       (r_pc r = RBody \/ (exists m, r_pc r = RGot m) \/ can_read s i r)) /\
  (forall i r, readers s !! i = Some r -> r_pc r = RStart -> ~ can_read s i r ->
     passed r = length (hist s) /\ (late r = 0%nat -> got r = hist s)) /\
  (forall i r, readers s !! i = Some r -> r_pc r = RSock -> inbox r = [] -> exists m, w_pc s = WSend m).
Proof.
  intros Hs. apply reachable_inv in Hs as Hinv. split_and!.
  - intros c Hc Hw (i & Hi & Hf). rewrite <-(iv_readers _ Hinv) in Hi.
    apply lookup_lt_is_Some in Hi as [r Hir]. exists i, r.
    destruct (iv_head _ Hinv c Hc) as [[(j & Hj & [_ _ Hfl])|[Ho _]] _]; [|congruence].
    specialize (Hfl i r Hir). rewrite Hf in Hfl. injection Hfl as Hfl. symmetry in Hfl. bool_prop.
    destruct (iv_reader _ Hinv i r Hir) as [Hidx _ Hwin _ _ _ _ _].
    assert (consumed r = j) as Hcj by lia.
    assert (r_idx r = w_idx s) as Heq.
    { rewrite Hidx, (iv_idx _ Hinv), Hcj, Hj. symmetry.
      replace (j + max_chunks b)%nat with (j + 1 * max_chunks b)%nat by lia. apply Nat.Div0.mod_add. }
    split_and!; [done|done|]. right; right. exists c. by rewrite Heq.
  - intros i r Hir Hpc Hcan. destruct (iv_reader _ Hinv i r Hir) as [Hidx Hbeh _ Hgot _ _ _ _].
    assert (consumed r = passed r) as Hcg by (unfold consumed; rewrite Hpc; lia).
    destruct (decide (consumed r < length (hist s))%nat) as [Hlt|].
    + exfalso. apply Hcan. assert (exists c, chunks s !! r_idx r = Some c) as [c Hc].
      { apply lookup_lt_is_Some. rewrite (iv_chunks _ Hinv), Hidx. apply Nat.mod_upper_bound. lia. }
      destruct (reader_chunk s i r c Hinv Hir Hc Hlt) as [Hw _ Hf]. exists c. split_and!; [done|done|].
      rewrite (Hf i r Hir). f_equal. by apply bool_decide_eq_false_2; lia.
    + split; [lia|]. intros Hl. rewrite Hgot by done. apply take_ge. unfold passed in *. lia.
  - intros i r Hir Hpc Hemp. destruct (iv_reader _ Hinv i r Hir) as [_ _ _ _ _ Hlate Hin Hp].
    rewrite Hpc in Hp. destruct Hp as (x & Hx & Hix). rewrite Hemp, app_nil_r in Hin.
    destruct (w_pc s) as [| | | | |m] eqn:Ew; [..|by exists m].
    all: exfalso; rewrite sent_all in Hin by (by rewrite Ew);
      rewrite <-(take_drop_middle _ _ _ Hx) in Hin; apply (f_equal length) in Hin;
      unfold overflowed in *; rewrite List.filter_app in Hin; simpl in Hin; rewrite Hix in Hin;
      rewrite length_app in Hin; simpl in Hin; lia.
Qed.

End Ring.

(** ** A run: two chunks, two readers *)

Definition example_ring : ShmRingBuffer := mkBuffer 2 16 2.

(** A move runs the writer (0) or a reader (1, 2, ...), starts [enqueue] of a
    message when the writer is idle, or lets a reader's [recv] time out. *)
Inductive move := Run (i : nat) | Enqueue (m : message) | TimeOut (i : nat).

Definition run_step (s : ring) (x : move) : option ring :=
  match x with
  | Run 0 => writer_step example_ring s
  | Run (S i) => reader_step example_ring i s
  | Enqueue m => match w_pc s, m with
                 | WIdle, _ :: _ => Some (s <| w_pc := WCheck m 0 0 |>)
                 | _, _ => None
                 end
  | TimeOut i => recv_timeout i s
  end.

Fixpoint run (s : ring) (xs : list move) : option ring :=
  match xs with [] => Some s | x :: xs => s' ← run_step s x; run s' xs end.

Lemma run_reachable s xs s' : reachable example_ring s -> run s xs = Some s' -> reachable example_ring s'.
Proof.
  revert s. induction xs as [|x xs IH]; intros s Hs; simpl; [by intros [= <-]|].
  destruct (run_step s x) as [s1|] eqn:E1; simpl; [|done]. apply IH.
  eapply rtc_r; [exact Hs|]. destruct x as [[|i]|m|i]; simpl in E1.
  - by apply S_writer.
  - by eapply S_reader.
  - destruct (w_pc s) eqn:Ew; try done. destruct m; [done|]. injection E1 as <-. by apply S_enqueue.
  - by eapply S_recv_timeout.
Qed.

(** The writer enqueues two messages, the second too large for a chunk; reader
    0 then receives both, reader 1 enters the body of its first read. *)
Definition example_schedule : list move :=
  [Enqueue [[7; 8]]] ++ replicate 12 (Run 0) ++ [Enqueue [replicate 20 1]] ++ replicate 10 (Run 0)
  ++ replicate 9 (Run 1) ++ [Run 2; Run 2].

Definition example_state : ring := default (init example_ring) (run (init example_ring) example_schedule).

Lemma example_reachable : reachable example_ring example_state.
Proof.
  eapply (run_reachable _ example_schedule); [apply rtc_refl|]. vm_compute. reflexivity.
Qed.

(** Reader 0 times out in [recv] before the writer sends the first overflowed
    message, and its call for the second one returns the first. *)
Definition shifted_schedule : list move :=
  [Enqueue [replicate 20 1]] ++ replicate 9 (Run 0) ++ replicate 4 (Run 1) ++ [TimeOut 0] ++ [Run 0]
  ++ [Enqueue [replicate 30 2]] ++ replicate 9 (Run 0) ++ replicate 5 (Run 1).

Definition shifted_state : ring := default (init example_ring) (run (init example_ring) shifted_schedule).

Lemma shifted_reachable : reachable example_ring shifted_state.
Proof.
  eapply (run_reachable _ shifted_schedule); [apply rtc_refl|]. vm_compute. reflexivity.
Qed.

(** A timeout in [recv] shifts the reader's stream for good: it has read both
    chunks and holds the first message only. *)
Example recv_timeout_shifts :
  hist shifted_state = [[replicate 20 1]; [replicate 30 2]] /\
  (fun r => (got r, late r, r_pc r)) <$> readers shifted_state !! 0%nat = Some ([[replicate 20 1]], 1%nat, RStart).
Proof. split; reflexivity. Qed.

Lemma ring_broadcast_fifo_witness :
  (exists r, readers example_state !! 0%nat = Some r /\ got r = [[[7; 8]]; [replicate 20 1]] /\
    got r `prefix_of` hist example_state) /\
  (exists r, readers shifted_state !! 0%nat = Some r /\ late r = 1%nat /\
    overflowed example_ring (got r) `prefix_of` overflowed example_ring (hist shifted_state)).
Proof.
  split.
  - destruct (readers example_state !! 0%nat) as [r|] eqn:Er; [|vm_compute in Er; discriminate].
    exists r. split; [reflexivity|]. split.
    + vm_compute in Er. injection Er as <-. reflexivity.
    + apply (ring_broadcast_fifo example_ring ltac:(simpl; lia) _ 0 r example_reachable Er).
      vm_compute in Er. injection Er as <-. reflexivity.
  - destruct (readers shifted_state !! 0%nat) as [r|] eqn:Er; [|vm_compute in Er; discriminate].
    exists r. split; [reflexivity|]. split.
    + vm_compute in Er. injection Er as <-. reflexivity.
    + exact (proj1 (proj2 (ring_broadcast_fifo example_ring ltac:(simpl; lia) _ 0 r shifted_reachable Er))).
Defined.

Lemma ring_reads_complete_chunks_witness :
  exists r c, readers example_state !! 1%nat = Some r /\ r_pc r = RBody /\
    chunks example_state !! r_idx r = Some c /\ written c = true.
Proof.
  destruct (readers example_state !! 1%nat) as [r|] eqn:Er; [|vm_compute in Er; discriminate].
  assert (Hpc : r_pc r = RBody) by (vm_compute in Er; injection Er as <-; reflexivity).
  destruct (chunks example_state !! r_idx r) as [c|] eqn:Ec;
    [|vm_compute in Er; injection Er as <-; vm_compute in Ec; discriminate].
  exists r, c. split; [reflexivity|]. split; [exact Hpc|]. split; [exact Ec|].
  exact (proj1 (ring_reads_complete_chunks example_ring ltac:(simpl; lia) _ 1 r c example_reachable Er Hpc Ec)).
Defined.

(** Both chunks are full and reader 1 has read neither: the writer is blocked. *)
Lemma ring_never_deadlocks_witness :
  exists i r, readers example_state !! i = Some r /\ r_idx r = w_idx example_state.
Proof.
  destruct (chunks example_state !! w_idx example_state) as [c|] eqn:Ec; [|vm_compute in Ec; discriminate].
  destruct (proj1 (ring_never_deadlocks example_ring ltac:(simpl; lia) _ example_reachable) c Ec)
    as (i & r & Hir & Hidx & _).
  - vm_compute in Ec. injection Ec as <-. reflexivity.
  - exists 1%nat. split; [simpl; lia|]. vm_compute in Ec. injection Ec as <-. reflexivity.
  - exists i, r. split; [exact Hir|exact Hidx].
Defined.
