(* ===== verification/MathUtils.v ===== *)
(** * [vllm.utils.math_utils], which the sources import

    [cdiv] and [round_up] are not part of this repository: they are an
    interface with their documented behaviour as its laws. *)
From S2P Require Export Prelude.

Class MathUtils := {
  cdiv : Z -> Z -> Z;
  round_up : Z -> Z -> Z
}.

Class MathUtilsLaws `{!MathUtils} : Prop := {
  cdiv_up a b : 0 < b -> cdiv a b = - (- a / b);
  round_up_cdiv x y : 0 < y -> round_up x y = cdiv x y * y
}.

Section Laws.
Context `{MathUtilsLaws}.

Lemma cdiv_least a b : 0 < b -> a <= cdiv a b * b < a + b.
Proof.
  intros Hb. rewrite cdiv_up by done. pose proof (Z.div_mod (- a) b ltac:(lia)).
  pose proof (Z.mod_pos_bound (- a) b Hb). nia.
Qed.

Lemma cdiv_le a b q : 0 < b -> cdiv a b <= q <-> a <= q * b.
Proof. intros Hb. pose proof (cdiv_least a b Hb). split; intros; nia. Qed.

Lemma cdiv_nonneg a b : 0 < b -> 0 <= a -> 0 <= cdiv a b.
Proof. intros Hb Ha. pose proof (cdiv_least a b Hb). nia. Qed.

Lemma cdiv_mono a a' b : 0 < b -> a <= a' -> cdiv a b <= cdiv a' b.
Proof. intros Hb Ha. apply cdiv_le; [done|]. pose proof (cdiv_least a' b Hb). lia. Qed.

Lemma cdiv_exact q b : 0 < b -> cdiv (q * b) b = q.
Proof. intros Hb. pose proof (cdiv_least (q * b) b Hb). nia. Qed.

Lemma round_up_least x y : 0 < y -> x <= round_up x y < x + y /\ (y | round_up x y).
Proof.
  intros Hy. rewrite round_up_cdiv by done. split; [by apply cdiv_least|]. by exists (cdiv x y).
Qed.

End Laws.

(** The interface as [math_utils.py] documents it. *)
Definition std_math : MathUtils := {|
  cdiv a b := - (- a / b);
  round_up x y := - (- x / y) * y
|}.

Lemma std_math_laws : @MathUtilsLaws std_math.
Proof. by split. Qed.
