(* ===== verification/CudaGraph.v ===== *)
(** * CUDA graph capture and dispatch

    [vllm/v1/worker/gpu/cudagraph_utils.py]: the descriptors a manager
    captures, the candidate table [dispatch] looks batches up in, the graphs of
    every rung of the adaptive depth ladder and the checks that refuse to run
    the ladder without them.  [CUDAGraphMode] is defined elsewhere and is an
    interface here; running the model, the graph objects and log messages are
    left out, and [capture] returns the calls it makes. *)
From S2P Require Export Prelude MathUtils.
From S2P Require Import PyLib PyDict AcceptanceLength.

Class CUDAGraphMode := {
  mode : Type;
  mode_eq_dec :: EqDecision mode;
  mode_countable :: Countable mode;
  NONE : mode;
  PIECEWISE : mode;
  FULL : mode;
  mode_bool : mode -> bool;
  decode_mode : mode -> mode;
  mixed_mode : mode -> mode;
  separate_routine : mode -> bool;
  has_full_cudagraphs : mode -> bool
}.

Class CUDAGraphModeLaws `{!CUDAGraphMode} : Prop := {
  modes_distinct : NoDup [NONE; PIECEWISE; FULL]
}.

Section CudaGraph.
Context `{!CUDAGraphMode, !MathUtils}.

(** ** Descriptors *)

Record BatchExecutionDescriptor := mkDesc {
  cg_mode : mode;
  num_tokens : Z;
  num_reqs : option Z;
  uniform_token_count : option Z;
  num_active_loras : Z
}.

#[export] Instance desc_eq_dec : EqDecision BatchExecutionDescriptor.
Proof. solve_decision. Defined.

Definition _is_compatible (desc : BatchExecutionDescriptor) (reqs tokens : Z)
    (uniform : option Z) (loras : Z) : bool :=
  (match uniform_token_count desc with
   | None => true
   | Some u => bool_decide (Some u = uniform)
   end)
  && (match num_reqs desc with None => true | Some n => reqs <=? n end)
  && (tokens <=? num_tokens desc)
  && (num_active_loras desc =? loras).

Definition get_uniform_token_count (reqs tokens max_query_len : Z) : result (option Z) :=
  if reqs =? 0 then Raise ZeroDivisionError
  else if (max_query_len =? tokens / reqs) && (tokens =? max_query_len * reqs)
       then Ok (Some max_query_len)
       else Ok None.

(** ** Configuration *)

Record SpeculativeConfig := mkSpeculativeConfig {
  num_speculative_tokens_per_batch_size : option (list (Z * Z * Z));
  adaptive_speculative_tokens_window : option Z
}.

Definition uses_batch_size_dynamic_speculative_decoding (c : SpeculativeConfig) : bool :=
  match num_speculative_tokens_per_batch_size c with Some _ => true | None => false end.

Definition uses_acceptance_length_adaptation (c : SpeculativeConfig) : bool :=
  match adaptive_speculative_tokens_window c with Some _ => true | None => false end.

(** What [vllm_config] and the environment say; a missing list of capture
    sizes is the empty one. *)
Record VllmConfig := mkConfig {
  max_num_seqs : Z;
  num_speculative_tokens : Z;
  speculative_config : option SpeculativeConfig;
  cudagraph_capture_sizes : list Z;
  max_cudagraph_capture_size : option Z;
  getenv : string -> option (list ascii)
}.

Local Notation desc_table := (gmap (Z * Z) (list BatchExecutionDescriptor)).
Local Notation mode_table := (gmap mode (list BatchExecutionDescriptor)).

Record CudaGraphManager := mkManager {
  vllm_config : VllmConfig;
  max_num_reqs : Z;
  cudagraph_mode : mode;
  decode_query_len : Z;
  lora_capture_cases : list Z;
  _lora_dispatch_map : gmap Z Z;
  _max_lora_case : Z;
  _candidates : desc_table;
  _capture_descs : mode_table;
  graphs : list BatchExecutionDescriptor;
  _graphs_captured : bool
}.

#[export] Instance manager_eta : Eta CudaGraphManager := fun m =>
  mkManager (vllm_config m) (max_num_reqs m) (cudagraph_mode m) (decode_query_len m)
    (lora_capture_cases m) (_lora_dispatch_map m) (_max_lora_case m) (_candidates m)
    (_capture_descs m) (graphs m) (_graphs_captured m).

(** ** LoRA cases *)

Definition sorted (l : list Z) : list Z := PyList.sort_by Z.ltb l.

(** The inner loop: [rest] is [captured_with_lora[case_idx:]]. *)
Fixpoint skip_cases (n : Z) (rest : list Z) : result (list Z) :=
  match rest with
  | [] => Raise IndexError
  | c :: rest' => if c <? n then skip_cases n rest' else Ok rest
  end.

Definition map_lora (acc : gmap Z Z * list Z) (n : Z) : result (gmap Z Z * list Z) :=
  let '(dispatch_map, rest) := acc in
  let* rest := skip_cases n rest in
  match rest with
  | [] => Raise IndexError
  | c :: _ => Ok (<[n := c]> dispatch_map, rest)
  end.

Definition _build_lora_dispatch_map (lora_capture_cases : list Z) : result (gmap Z Z * Z) :=
  let captured_with_lora := sorted (List.filter (fun c => 0 <? c) lora_capture_cases) in
  match captured_with_lora with
  | [] => Ok (∅, 0)
  | _ =>
      let last := List.last captured_with_lora 0 in
      let* acc := rfold map_lora (∅, captured_with_lora) (range 1 (last + 1)) in
      Ok (fst acc, last)
  end.

Definition _resolve_effective_loras (m : CudaGraphManager) (n : Z) : Z :=
  if (n <=? 0) || bool_decide (_lora_dispatch_map m = ∅) then n
  else default (_max_lora_case m) (_lora_dispatch_map m !! n).

(** ** The adaptive ladder *)

Definition adaptive_spec_decode_query_lens (m : CudaGraphManager) : result (list Z) :=
  match speculative_config (vllm_config m) with
  | None => Ok []
  | Some sc =>
      if decode_query_len m <=? 1 then Ok []
      else if negb (uses_acceptance_length_adaptation sc) then Ok []
      else
        let max_num_spec_tokens := num_speculative_tokens (vllm_config m) in
        let* _ := require (negb (max_num_spec_tokens <=? 0)) RuntimeError in
        let num_new_sampled_tokens_per_step := decode_query_len m - max_num_spec_tokens in
        let* _ := require (negb (num_new_sampled_tokens_per_step <? 1)) RuntimeError in
        let* ladder :=
          DepthLadder.parse_adaptive_spec_depth_ladder (getenv (vllm_config m)) max_num_spec_tokens None in
        let decode_query_lens := map (fun depth => depth + num_new_sampled_tokens_per_step) ladder in
        let* _ := require (negb (bool_decide (decode_query_lens = []))) RuntimeError in
        Ok decode_query_lens
  end.

(** What identifies the shape of a descriptor. *)
Definition shape (d : BatchExecutionDescriptor) : Z * option Z * option Z * Z :=
  (num_tokens d, num_reqs d, uniform_token_count d, num_active_loras d).

Definition max_captured_reqs (m : CudaGraphManager) : Z := Z.min (max_num_reqs m) 32.

(** The reachable verification shapes, in the order the code enumerates them. *)
Definition adaptive_shapes (m : CudaGraphManager) (lens : list Z) : list (Z * Z * Z) :=
  product (product lens (range 1 (max_captured_reqs m + 1))) (lora_capture_cases m).

Definition shape_of (s : Z * Z * Z) : Z * option Z * option Z * Z :=
  let '(query_len, reqs, loras) := s in (query_len * reqs, Some reqs, Some query_len, loras).

Definition adaptive_state : Type :=
  list (Z * option Z * option Z * Z) * mode_table * desc_table.

Definition adaptive_item (m : CudaGraphManager) (max_decode_tokens : Z) (dmode : mode)
    (st : adaptive_state) (s : Z * Z * Z) : adaptive_state :=
  let '(existing, by_mode, adaptive) := st in
  let '(query_len, reqs, loras) := s in
  let tokens := query_len * reqs in
  if (max_decode_tokens <? tokens)
     || match max_cudagraph_capture_size (vllm_config m) with
        | Some size => size <? tokens
        | None => false
        end
  then st
  else
    let key := (tokens, Some reqs, Some query_len, loras) in
    if bool_decide (key ∈ existing) then st
    else
      let desc := mkDesc dmode tokens (Some reqs) (Some query_len) loras in
      (key :: existing, push dmode desc by_mode, push (tokens, loras) desc adaptive).

(** Returns [descs_by_mode] (updated) and the new table. *)
Definition _init_adaptive_spec_candidates (m : CudaGraphManager) (max_decode_tokens : Z)
    (dmode : mode) (separate_decode_routine : bool) (by_mode : mode_table)
    : result (mode_table * desc_table) :=
  let* decode_query_lens := adaptive_spec_decode_query_lens m in
  if negb (negb (bool_decide (decode_query_lens = [])) && separate_decode_routine && mode_bool dmode)
  then Ok (by_mode, ∅)
  else
    let descs := default [] (by_mode !! dmode) in
    let by_mode := <[dmode := descs]> by_mode in
    let '(_, by_mode, adaptive) :=
      fold_left (adaptive_item m max_decode_tokens dmode)
        (adaptive_shapes m decode_query_lens) (map shape descs, by_mode, ∅) in
    Ok (by_mode, adaptive).

Definition _assert_adaptive_spec_graphs_possible (m : CudaGraphManager) : result unit :=
  let* decode_query_lens := adaptive_spec_decode_query_lens m in
  require (bool_decide (decode_query_lens = [])) RuntimeError.

Definition _assert_adaptive_spec_graph_coverage (m : CudaGraphManager)
    (separate_decode_routine : bool) : result unit :=
  let* decode_query_lens := adaptive_spec_decode_query_lens m in
  if bool_decide (decode_query_lens = []) then Ok tt
  else
    let* _ := require (has_full_cudagraphs (cudagraph_mode m)) RuntimeError in
    if negb separate_decode_routine then Ok tt
    else
      let covered := map shape (default [] (_capture_descs m !! FULL)) in
      let missing := List.filter (fun s => negb (bool_decide (shape_of s ∈ covered)))
                       (adaptive_shapes m decode_query_lens) in
      require (bool_decide (missing = [])) RuntimeError.

(** ** Candidates *)

Definition range_entry (descs : desc_table) (size : Z) (candidates : desc_table) (k : Z * Z)
    : desc_table :=
  match descs !! (size, snd k) with
  | Some l => <[k := l]> candidates
  | None => candidates
  end.

(** One bucket: [(start, candidates)] to the next start and table. *)
Definition range_bucket (m : CudaGraphManager) (descs : desc_table) (st : Z * desc_table)
    (size : Z) : Z * desc_table :=
  let '(start, candidates) := st in
  (size + 1,
   fold_left (range_entry descs size) (product (range start (size + 1)) (lora_capture_cases m))
     candidates).

Definition all_token_counts (descs : desc_table) : list Z :=
  sorted_set (map (fun e => fst (fst e)) (map_to_list descs)).

Definition _build_candidate_ranges (m : CudaGraphManager) (descs : desc_table) : desc_table :=
  snd (fold_left (range_bucket m descs) (all_token_counts descs) (0, ∅)).

(** [merged.extend(desc for desc in base_descs if desc not in merged)]: the
    generator sees what has been appended. *)
Definition extend_new (merged base_descs : list BatchExecutionDescriptor) : list BatchExecutionDescriptor :=
  fold_left (fun merged d => if bool_decide (d ∈ merged) then merged else merged ++ [d]) base_descs merged.

(** The layering of the adaptive table over the base one, for one key. *)
Definition layer_entry (k : Z * Z) (adaptive : list BatchExecutionDescriptor)
    (candidates : desc_table) : desc_table :=
  let base := default [] (candidates !! k) in
  <[k := extend_new adaptive base]> candidates.

Definition base_state : Type := mode_table * desc_table.

(** One decode descriptor of the fixed or static schedule. *)
Definition decode_item (m : CudaGraphManager) (max_decode_tokens : Z) (dmode : mode)
    (tokens loras : Z) (st : base_state) (query_len : Z) : result base_state :=
  let '(by_mode, by_token) := st in
  let rounded_num_tokens := round_up tokens query_len in
  let* rounded_num_reqs :=
    if query_len =? 0 then Raise ZeroDivisionError else Ok (rounded_num_tokens / query_len) in
  let* too_big :=
    if max_decode_tokens <? rounded_num_tokens then Ok true
    else match max_cudagraph_capture_size (vllm_config m) with
         | None => Raise TypeError
         | Some size => Ok ((size <? rounded_num_tokens) || (max_num_reqs m <? rounded_num_reqs))
         end in
  if too_big : bool then Ok st
  else
    let desc := mkDesc dmode rounded_num_tokens (Some rounded_num_reqs) (Some query_len) loras in
    let descs := default [] (by_mode !! dmode) in
    if bool_decide (desc ∈ descs) then Ok (<[dmode := descs]> by_mode, by_token)
    else Ok (push dmode desc by_mode, push (rounded_num_tokens, loras) desc by_token).

Definition mixed_item (m : CudaGraphManager) (mmode : mode) (tokens loras : Z) (st : base_state)
    : base_state :=
  let '(by_mode, by_token) := st in
  let reqs := if bool_decide (mmode = FULL) then Some (Z.min tokens (max_num_reqs m)) else None in
  let desc := mkDesc mmode tokens reqs None loras in
  (push mmode desc by_mode, push (tokens, loras) desc by_token).

Definition base_item (m : CudaGraphManager) (max_decode_tokens : Z) (lens : list Z)
    (st : base_state) (x : Z * Z) : result base_state :=
  let '(tokens, loras) := x in
  let dmode := decode_mode (cudagraph_mode m) in
  let mmode := mixed_mode (cudagraph_mode m) in
  let* st :=
    if separate_routine (cudagraph_mode m) && mode_bool dmode
    then rfold (decode_item m max_decode_tokens dmode tokens loras) st lens
    else Ok st in
  Ok (if mode_bool mmode then mixed_item m mmode tokens loras st else st).

(** The query lengths of the static schedule, or the fixed one. *)
Definition base_query_lens (m : CudaGraphManager) : result (list Z) :=
  match speculative_config (vllm_config m) with
  | Some sc =>
      if uses_batch_size_dynamic_speculative_decoding sc then
        match num_speculative_tokens_per_batch_size sc with
        | None => Raise AssertionError
        | Some entries =>
            let new_sampled := decode_query_len m - num_speculative_tokens (vllm_config m) in
            Ok (map (fun x => snd x + new_sampled) entries)
        end
      else Ok [decode_query_len m]
  | None => Ok [decode_query_len m]
  end.

(** [descs_by_mode] and [descs_by_token_lora] before the adaptive layer. *)
Definition base_descs (m : CudaGraphManager) : result base_state :=
  let* decode_query_lens := base_query_lens m in
  rfold (base_item m (max_num_reqs m * decode_query_len m) decode_query_lens) (∅, ∅)
    (product (sorted (cudagraph_capture_sizes (vllm_config m))) (lora_capture_cases m)).

Definition adaptive_descs (m : CudaGraphManager) (by_mode : mode_table) : result (mode_table * desc_table) :=
  _init_adaptive_spec_candidates m (max_num_reqs m * decode_query_len m)
    (decode_mode (cudagraph_mode m)) (separate_routine (cudagraph_mode m)) by_mode.

Definition by_num_tokens_desc (l : list BatchExecutionDescriptor) : list BatchExecutionDescriptor :=
  PyList.sort_by (fun x y => num_tokens y <? num_tokens x) l.

Definition _init_candidates (m : CudaGraphManager) : result CudaGraphManager :=
  let capture_sizes := cudagraph_capture_sizes (vllm_config m) in
  if negb (mode_bool (cudagraph_mode m) && negb (bool_decide (capture_sizes = []))) then
    let* _ := _assert_adaptive_spec_graphs_possible m in Ok m
  else
    let* base := base_descs m in
    let '(by_mode, by_token) := base in
    let* adaptive := adaptive_descs m by_mode in
    let '(by_mode, adaptive) := adaptive in
    if bool_decide (by_token = ∅) && bool_decide (adaptive = ∅) then
      let* _ := _assert_adaptive_spec_graphs_possible m in Ok m
    else
      let candidates :=
        map_fold layer_entry (_build_candidate_ranges m by_token)
          (_build_candidate_ranges m adaptive) in
      let m := m <| _candidates := candidates |>
                 <| _capture_descs := by_num_tokens_desc <$> by_mode |> in
      let* _ := _assert_adaptive_spec_graph_coverage m (separate_routine (cudagraph_mode m)) in
      Ok m.

Definition init (cfg : VllmConfig) (cudagraph_mode : mode) (decode_query_len : Z)
    (lora_capture_cases : option (list Z)) : result CudaGraphManager :=
  let lora_capture_cases :=
    match lora_capture_cases with None | Some [] => [0] | Some l => l end in
  let* dm := _build_lora_dispatch_map lora_capture_cases in
  _init_candidates
    (mkManager cfg (max_num_seqs cfg) cudagraph_mode decode_query_len lora_capture_cases
       (fst dm) (snd dm) ∅ ∅ [] false).

(** ** Capture and dispatch *)

Definition needs_capture (m : CudaGraphManager) : bool := Nat.ltb 0 (size (_capture_descs m)).

(** The calls [capture] makes: [create_forward_fn], the forward function it
    returned, and the recording of a graph. *)
Inductive event :=
  | CreateForward (d : BatchExecutionDescriptor) (warmup : bool)
  | Forward (d : BatchExecutionDescriptor) (m : mode)
  | Record_graph (d : BatchExecutionDescriptor).

Definition capture_one (use_breakable_cg : bool) (st : list BatchExecutionDescriptor * list event)
    (d : BatchExecutionDescriptor) : result (list BatchExecutionDescriptor * list event) :=
  let '(graphs, trace) := st in
  let trace := trace ++ [CreateForward d true; Forward d NONE] in
  let piecewise := bool_decide (cg_mode d = PIECEWISE) in
  if piecewise && negb use_breakable_cg then Ok (graphs, trace ++ [Forward d PIECEWISE])
  else
    let trace := trace ++ [CreateForward d false] in
    if piecewise then Ok (graphs, trace ++ [Forward d PIECEWISE])
    else
      let* _ := require (negb (bool_decide (d ∈ graphs))) AssertionError in
      Ok (graphs ++ [d], trace ++ [Forward d NONE; Record_graph d]).

Definition capture (use_breakable_cg : bool) (m : CudaGraphManager)
    : result (CudaGraphManager * list event) :=
  let* st := rfold (fun st md => match _capture_descs m !! md with
                                 | None => Ok st
                                 | Some descs => rfold (capture_one use_breakable_cg) st descs
                                 end)
               (graphs m, []) [PIECEWISE; FULL] in
  Ok (m <| graphs := fst st |> <| _graphs_captured := true |>, snd st).

Definition dispatch (m : CudaGraphManager) (reqs tokens : Z) (uniform : option Z) (loras : Z)
    : BatchExecutionDescriptor :=
  let effective_loras := _resolve_effective_loras m loras in
  let key := (tokens, effective_loras) in
  let eager := mkDesc NONE tokens (Some reqs) None effective_loras in
  if _graphs_captured m && (0 <? tokens) then
    match _candidates m !! key with
    | Some descs =>
        default eager
          (List.find (fun d => _is_compatible d reqs tokens uniform effective_loras) descs)
    | None => eager
    end
  else eager.

(** The base [run_fullgraph]; the replay itself is left out. *)
Definition run_fullgraph (m : CudaGraphManager) (d : BatchExecutionDescriptor) : result unit :=
  let* _ := require (bool_decide (cg_mode d = FULL)) AssertionError in
  require (bool_decide (d ∈ graphs m)) AssertionError.

(** ** The output buffer of [ModelCudaGraphManager] *)

(** The rows of the persistent output buffer after one store of [tokens] rows:
    it is allocated like the first output and later outputs are copied into its
    first rows, which fails when there are too few. *)
Definition store_output (rows : option Z) (tokens : Z) : result (option Z) :=
  let size := default tokens rows in
  if tokens <=? size then Ok (Some size) else Raise RuntimeError.

(** The forward function keeps its output unless it runs piecewise. *)
Definition forward_fn (rows : option Z) (e : event) : result (option Z) :=
  match e with
  | Forward d md => if bool_decide (md = PIECEWISE) then Ok rows else store_output rows (num_tokens d)
  | _ => Ok rows
  end.

Definition output_rows (trace : list event) : result (option Z) := rfold forward_fn None trace.

(** The rows [run_fullgraph] returns: a slice of the buffer. *)
Definition model_run_fullgraph (m : CudaGraphManager) (rows : option Z) (d : BatchExecutionDescriptor)
    : result Z :=
  let* _ := run_fullgraph m d in
  match rows with
  | None => Raise AssertionError
  | Some size => Ok (Z.min (num_tokens d) size)
  end.

End CudaGraph.
