(* ===== verification/CudaTables.v ===== *)
(** * The tables of the CUDA graph manager: lemmas

    The candidate ranges as a smallest-bucket lookup, the layering of the
    adaptive table over the base one, and the invariants of the two tables while
    [_init_candidates] fills them. *)
From S2P Require Import PyLib PyDict AcceptanceLength.
From S2P Require Export CudaGraph.

Section Tables.
Context `{!CUDAGraphMode, !MathUtils}.
Local Notation desc_table := (gmap (Z * Z) (list BatchExecutionDescriptor)).
Local Notation mode_table := (gmap mode (list BatchExecutionDescriptor)).

(** ** Candidate ranges *)

(** The descriptors of the smallest bucket that holds [tokens]. *)
Definition lookup_bucket (descs : desc_table) (tokens loras : Z) : option (list BatchExecutionDescriptor) :=
  t ← List.find (fun t => tokens <=? t) (all_token_counts descs); descs !! (t, loras).

Lemma all_token_counts_lt descs : StronglySorted Z.lt (all_token_counts descs).
Proof. apply sorted_set_sorted. Qed.

Lemma all_token_counts_sorted descs : StronglySorted Z.le (all_token_counts descs).
Proof.
  rewrite <-(list_fmap_id (all_token_counts descs)).
  eapply StronglySorted_fmap; [|apply all_token_counts_lt]. simpl. lia.
Qed.

Lemma elem_of_all_token_counts descs t :
  t ∈ all_token_counts descs <-> exists lo l, descs !! (t, lo) = Some l.
Proof.
  unfold all_token_counts. rewrite elem_of_sorted_set, list_elem_of_fmap. split.
  - intros ([[t' lo] l] & -> & Hin). apply (elem_of_map_to_list) in Hin. simpl. eauto.
  - intros (lo & l & Hl). exists (t, lo, l). split; [done|]. by apply (elem_of_map_to_list).
Qed.

Lemma range_entry_fold descs size ks c k :
  fold_left (range_entry descs size) ks c !! k
  = if decide (k ∈ ks)
    then match descs !! (size, snd k) with Some l => Some l | None => c !! k end
    else c !! k.
Proof.
  revert c. induction ks as [|k' ks IH]; intros c; simpl.
  { destruct (decide (k ∈ [])); [set_solver|done]. }
  rewrite IH. unfold range_entry.
  destruct (decide (k = k')) as [->|Hne].
  - rewrite (decide_True (P := k' ∈ k' :: ks)) by left.
    destruct (descs !! (size, snd k')); [rewrite lookup_insert_eq|]; by destruct (decide _).
  - rewrite (decide_ext (k ∈ k' :: ks) (k ∈ ks)) by set_solver.
    destruct (descs !! (size, snd k')); [rewrite lookup_insert_ne by congruence|]; done.
Qed.

Lemma build_fold m descs counts start c i lo :
  0 <= i -> start <= 0 \/ Forall (fun t => start <= t) counts -> StronglySorted Z.lt counts ->
  snd (fold_left (range_bucket m descs) counts (start, c)) !! (i, lo)
  = match (if start <=? i then List.find (fun t => i <=? t) counts else None) with
    | Some t => match (if decide (lo ∈ lora_capture_cases m) then descs !! (t, lo) else None) with
                | Some l => Some l
                | None => c !! (i, lo)
                end
    | None => c !! (i, lo)
    end.
Proof.
  intros Hi Hst Hs. revert start c Hst. induction Hs as [|size counts Hs IH Hx]; intros start c Hst; simpl.
  { by destruct (start <=? i). }
  rewrite IH.
  2: { right. eapply Forall_impl; [exact Hx|]. simpl. lia. }
  rewrite range_entry_fold. cbn [snd].
  assert (Hin : (i, lo) ∈ product (range start (size + 1)) (lora_capture_cases m)
                <-> (start <= i <= size) /\ lo ∈ lora_capture_cases m).
  { rewrite elem_of_product, elem_of_range. split; intros [? ?]; split; (done || lia). }
  rewrite (decide_ext _ _ _ _ Hin). clear Hin IH.
  assert (Hge : start <= 0 \/ start <= size) by (destruct Hst as [|Hst]; [by left|right; by inversion Hst]).
  destruct (Z.leb_spec (size + 1) i), (Z.leb_spec i size), (Z.leb_spec start i); try lia.
  - rewrite (decide_False (P := _ /\ _)) by lia. done.
  - destruct (decide (lo ∈ lora_capture_cases m)).
    + rewrite decide_True by (split; [lia|done]). done.
    + rewrite decide_False by tauto. done.
  - rewrite decide_False by lia. done.
Qed.

(** The table built from the ranges is the lookup of the smallest bucket. *)
Lemma build_candidate_ranges_lookup m descs i lo :
  0 <= i -> lo ∈ lora_capture_cases m ->
  _build_candidate_ranges m descs !! (i, lo) = lookup_bucket descs i lo.
Proof.
  intros Hi Hlo. unfold _build_candidate_ranges.
  rewrite build_fold; [|done|left; lia|apply all_token_counts_lt].
  rewrite (proj2 (Z.leb_le 0 i)) by done. unfold lookup_bucket.
  destruct (List.find _ _) as [t|]; simpl; [|apply lookup_empty]. rewrite decide_True by done.
  destruct (descs !! (t, lo)); [done|]. apply lookup_empty.
Qed.

(** Extending changes neither what the list holds nor the first hit in it. *)
Lemma elem_of_extend_new merged l d : d ∈ extend_new merged l <-> d ∈ merged \/ d ∈ l.
Proof.
  unfold extend_new. revert merged. induction l as [|x l IH]; intros merged; simpl; [set_solver|].
  rewrite IH. case_bool_decide; set_solver.
Qed.

Lemma find_extend_new f merged l :
  List.find f (extend_new merged l)
  = match List.find f merged with Some d => Some d | None => List.find f l end.
Proof.
  unfold extend_new. revert merged. induction l as [|x l IH]; intros merged; simpl; [by destruct (List.find f merged)|].
  rewrite IH. case_bool_decide as Hx.
  - destruct (List.find f merged) eqn:Hm; [done|].
    by rewrite (List.find_none _ _ Hm x (proj1 (list_elem_of_In _ _) Hx)).
  - rewrite find_app. destruct (List.find f merged); [done|]. simpl. by destruct (f x).
Qed.

Lemma layered_lookup (base adaptive : desc_table) k :
  map_fold layer_entry base adaptive !! k
  = match adaptive !! k with
    | Some a => Some (extend_new a (default [] (base !! k)))
    | None => base !! k
    end.
Proof.
  revert k. apply (map_fold_weak_ind (fun r adaptive => forall k, r !! k
    = match adaptive !! k with
      | Some a => Some (extend_new a (default [] (base !! k)))
      | None => base !! k
      end)); [done|].
  intros k a m r Hk IH k'. unfold layer_entry. destruct (decide (k' = k)) as [->|Hne].
  - rewrite !lookup_insert_eq. by rewrite IH, Hk.
  - by rewrite !lookup_insert_ne by congruence.
Qed.

(** ** Dispatch *)

Lemma compatible_spec d reqs tokens uniform loras :
  _is_compatible d reqs tokens uniform loras = true <->
  (forall u, uniform_token_count d = Some u -> uniform = Some u) /\
  (forall n, num_reqs d = Some n -> reqs <= n) /\ tokens <= num_tokens d /\ num_active_loras d = loras.
Proof.
  unfold _is_compatible. rewrite !andb_true_iff, Z.leb_le, Z.eqb_eq.
  destruct (uniform_token_count d), (num_reqs d); rewrite ?bool_decide_eq_true, ?Z.leb_le; naive_solver.
Qed.

Lemma layered_dispatch m base adaptive reqs tokens uniform loras :
  _candidates m = map_fold layer_entry (_build_candidate_ranges m base) (_build_candidate_ranges m adaptive) ->
  _graphs_captured m = true -> 0 < tokens -> _resolve_effective_loras m loras ∈ lora_capture_cases m ->
  let eff := _resolve_effective_loras m loras in
  let first descs := List.find (fun d => _is_compatible d reqs tokens uniform eff)
                       (default [] (lookup_bucket descs tokens eff)) in
  let base_only := m <| _candidates := _build_candidate_ranges m base |> in
  dispatch m reqs tokens uniform loras
    = default (dispatch base_only reqs tokens uniform loras) (first adaptive) /\
  dispatch base_only reqs tokens uniform loras
    = default (mkDesc NONE tokens (Some reqs) None eff) (first base).
Proof.
  intros Hc Hg Ht Heff. cbv zeta. unfold dispatch. simpl.
  change (_resolve_effective_loras (m <| _candidates := _ |>) loras) with (_resolve_effective_loras m loras).
  rewrite Hg, (proj2 (Z.ltb_lt 0 tokens)) by done. cbn [andb].
  rewrite Hc, layered_lookup, !build_candidate_ranges_lookup by (done || lia).
  split; [|by destruct (lookup_bucket base _ _)].
  destruct (lookup_bucket adaptive tokens _) as [a|]; [|done]. cbn [default from_option id].
  rewrite find_extend_new. destruct (List.find _ a) as [d|]; [done|]. cbn [default from_option].
  by destruct (lookup_bucket base _ _).
Qed.

(** ** The tables of [_init_candidates] *)

Definition is_decode (d : BatchExecutionDescriptor) : Prop := uniform_token_count d <> None.
Definition key_of (d : BatchExecutionDescriptor) : Z * Z := (num_tokens d, num_active_loras d).
Definition in_table {K} `{Countable K} (k : K) (d : BatchExecutionDescriptor)
    (t : gmap K (list BatchExecutionDescriptor)) : Prop := exists l, t !! k = Some l /\ d ∈ l.

(** Decode descriptors come before the mixed one in a bucket. *)
Definition decode_first (l : list BatchExecutionDescriptor) : Prop :=
  exists ds ms, l = ds ++ ms /\ Forall is_decode ds /\ Forall (fun d => ~ is_decode d) ms.

(** The invariant while the capture sizes and LoRA cases [pre] are done. *)
Record base_inv (m : CudaGraphManager) (pre : list (Z * Z)) (by_mode : mode_table)
    (by_token : desc_table) : Prop := {
  bi_mode md d : in_table md d by_mode -> cg_mode d = md /\ in_table (key_of d) d by_token;
  bi_token k d : in_table k d by_token -> key_of d = k /\ in_table (cg_mode d) d by_mode;
  bi_kind k d : in_table k d by_token ->
    cg_mode d = (if uniform_token_count d then decode_mode else mixed_mode) (cudagraph_mode m);
  bi_split k l : by_token !! k = Some l -> decode_first l;
  bi_mixed k d : in_table k d by_token -> ~ is_decode d -> k ∈ pre;
  bi_nodup md l : by_mode !! md = Some l -> NoDup l
}.

Lemma in_table_push {K} `{Countable K} (k k' : K) x d t :
  in_table k' d (push k x t) <-> (k' = k /\ d = x) \/ in_table k' d t.
Proof.
  split.
  - intros (l & Hl & Hd). by eapply push_elem.
  - intros [[-> ->]|(l & Hl & Hd)]; [apply push_has|by eapply push_keeps].
Qed.

Lemma base_inv_nil m : base_inv m [] ∅ ∅.
Proof. constructor; try (intros ? ? (l & Hl & _)); try intros ? l Hl; by rewrite lookup_empty in Hl. Qed.

Lemma base_inv_push m pre pre' by_mode by_token d :
  base_inv m pre by_mode by_token -> ~ in_table (cg_mode d) d by_mode ->
  cg_mode d = (if uniform_token_count d then decode_mode else mixed_mode) (cudagraph_mode m) ->
  (is_decode d -> key_of d ∉ pre) -> (~ is_decode d -> key_of d ∈ pre') -> (forall k, k ∈ pre -> k ∈ pre') ->
  base_inv m pre' (push (cg_mode d) d by_mode) (push (key_of d) d by_token).
Proof.
  intros [Hm Ht Hk Hs Hx Hn] Hnew Hkind Hdec Hmix Hsub. constructor.
  - intros md x. rewrite !in_table_push. intros [[-> ->]|Hin]; [by eauto|]. destruct (Hm _ _ Hin). by eauto.
  - intros k x. rewrite !in_table_push. intros [[-> ->]|Hin]; [by eauto|]. destruct (Ht _ _ Hin). by eauto.
  - intros k x. rewrite in_table_push. intros [[-> ->]|Hin]; [done|by eapply Hk].
  - intros k l. rewrite lookup_push. case_decide as E; [subst|by apply Hs]. intros [= <-].
    assert (Hold : decode_first (default [] (by_token !! key_of d))).
    { destruct (by_token !! key_of d) eqn:E; [by eapply Hs|]. exists [], []. split_and!; constructor. }
    destruct Hold as (ds & ms & Heq & Hds & Hms). rewrite Heq.
    destruct (decide (uniform_token_count d = None)) as [Hu|Hu].
    + exists ds, (ms ++ [d]). rewrite <-List.app_assoc. split_and!; [done|done|].
      apply Forall_app_2; [done|]. constructor; [unfold is_decode; by rewrite Hu; auto|constructor].
    + assert (ms = []) as ->.
      { destruct ms as [|y ms]; [done|]. exfalso. apply (Hdec Hu). eapply (Hx _ y); [|by inversion Hms].
        destruct (by_token !! key_of d) as [l|] eqn:El; [|by destruct ds].
        exists l. split; [done|]. simpl in Heq. rewrite Heq. set_solver. }
      exists (ds ++ [d]), []. rewrite !app_nil_r. split_and!; [done| |constructor].
      apply Forall_app_2; [done|]. by repeat constructor.
  - intros k x. rewrite in_table_push. intros [[-> ->]|Hin]; [auto|]. intros Hd. apply Hsub. by eapply Hx.
  - intros md l. rewrite lookup_push. case_decide as E; [subst|by apply Hn]. intros [= <-].
    apply NoDup_app. split_and!; [| |apply NoDup_singleton].
    + destruct (by_mode !! cg_mode d) eqn:E; [by eapply Hn|constructor].
    + intros y Hy Hyd. apply list_elem_of_singleton in Hyd as ->. apply Hnew.
      destruct (by_mode !! cg_mode d) as [l|] eqn:E; [by exists l|]. by apply elem_of_nil in Hy.
Qed.

Section Base.
Context `{!MathUtilsLaws}.

Lemma decode_item_inv m pre tokens loras q by_mode by_token st' :
  0 < q -> (tokens, loras) ∉ pre -> (forall x, x ∈ pre -> fst x <= tokens) ->
  base_inv m pre by_mode by_token ->
  decode_item m (max_num_reqs m * decode_query_len m) (decode_mode (cudagraph_mode m)) tokens loras
    (by_mode, by_token) q = Ok st' ->
  base_inv m pre (fst st') (snd st').
Proof.
  intros Hq Hnew Hle Hinv. unfold decode_item. rewrite (proj2 (Z.eqb_neq q 0)) by lia. cbn [rbind].
  destruct (if _ <? _ then _ else _) as [[|]|e]; cbn [rbind]; [by intros [= <-]| |done].
  set (d := mkDesc _ _ _ _ _). destruct (bool_decide_reflect (d ∈ default [] (by_mode !! decode_mode (cudagraph_mode m)))) as [Hin|Hin].
  - intros [= <-]. simpl. rewrite insert_id; [done|].
    by destruct (by_mode !! _); [|apply elem_of_nil in Hin].
  - intros [= <-]. simpl. apply (base_inv_push m pre pre by_mode by_token d); try done.
    + intros (l & Hl & Hd). apply Hin. change (cg_mode d) with (decode_mode (cudagraph_mode m)) in Hl. by rewrite Hl.
    + intros _ Hpre. apply Hnew. pose proof (round_up_least tokens q Hq) as [Hr _].
      specialize (Hle _ Hpre). simpl in Hle. unfold key_of in Hpre. simpl in Hpre.
      assert (round_up tokens q = tokens) as Heq by lia. by rewrite Heq in Hpre.
    + intros Hd. exfalso. by apply Hd.
Qed.

Lemma mixed_item_inv m pre tokens loras by_mode by_token :
  (tokens, loras) ∉ pre -> base_inv m pre by_mode by_token ->
  let st' := mixed_item m (mixed_mode (cudagraph_mode m)) tokens loras (by_mode, by_token) in
  base_inv m (pre ++ [(tokens, loras)]) (fst st') (snd st').
Proof.
  intros Hnew Hinv. unfold mixed_item. set (d := mkDesc _ _ _ _ _). simpl.
  apply (base_inv_push m pre _ by_mode by_token d); [done| |done| | |set_solver].
  - intros Hin. apply (bi_mode _ _ _ _ Hinv) in Hin as [_ Hin].
    apply Hnew. eapply (bi_mixed _ _ _ _ Hinv _ d); [exact Hin|by auto].
  - intros Hd. exfalso. by apply Hd.
  - intros _. unfold key_of. simpl. set_solver.
Qed.

Lemma base_inv_weaken m pre pre' by_mode by_token :
  (forall k, k ∈ pre -> k ∈ pre') -> base_inv m pre by_mode by_token -> base_inv m pre' by_mode by_token.
Proof. intros Hsub [? ? ? ? Hx ?]. constructor; eauto. Qed.

Lemma base_item_inv m lens pre x st st' :
  Forall (fun q => 0 < q) lens -> x ∉ pre -> (forall y, y ∈ pre -> fst y <= fst x) ->
  base_inv m pre (fst st) (snd st) ->
  base_item m (max_num_reqs m * decode_query_len m) lens st x = Ok st' ->
  base_inv m (pre ++ [x]) (fst st') (snd st').
Proof.
  intros Hlens Hnew Hle Hinv. destruct x as [tokens loras]. unfold base_item.
  intros (st1 & Hdec & Heq)%rbind_ok.
  assert (Hinv1 : base_inv m pre (fst st1) (snd st1)).
  { destruct (_ && _); [|by injection Hdec as <-].
    eapply (rfold_inv (fun s => base_inv m pre (fst s) (snd s))); [exact Hinv| |exact Hdec].
    intros [bm bt] q s' Hq Hs Hrun. eapply decode_item_inv; [|exact Hnew|exact Hle|exact Hs|exact Hrun].
    rewrite Forall_forall in Hlens. by apply Hlens. }
  injection Heq as <-. destruct (mode_bool (mixed_mode _)).
  - destruct st1. by apply mixed_item_inv.
  - eapply base_inv_weaken; [|exact Hinv1]. set_solver.
Qed.

Lemma base_fold_inv m lens pre suf st st' :
  Forall (fun q => 0 < q) lens -> NoDup (pre ++ suf) ->
  StronglySorted (fun x y => fst x <= fst y) (pre ++ suf) -> base_inv m pre (fst st) (snd st) ->
  rfold (base_item m (max_num_reqs m * decode_query_len m) lens) st suf = Ok st' ->
  base_inv m (pre ++ suf) (fst st') (snd st').
Proof.
  intros Hlens. revert pre st. induction suf as [|x suf IH]; intros pre st Hnd Hs Hinv; simpl.
  - intros [= <-]. by rewrite app_nil_r.
  - intros (st1 & Hst1 & Hrun)%rbind_ok.
    change (pre ++ x :: suf) with (pre ++ [x] ++ suf) in *. rewrite List.app_assoc in *.
    apply (IH _ st1); [done|done| |done].
    apply (base_item_inv m lens pre x st st1 Hlens); [..|done|done].
    + apply NoDup_app in Hnd as (Hnd & _). apply NoDup_app in Hnd as (_ & Hd & _). set_solver.
    + intros y Hy. apply StronglySorted_app in Hs as (_ & Hs & _).
      apply (StronglySorted_app_1_elem_of _ _ _ y x Hs Hy). set_solver.
Qed.

Lemma sorted_perm l : sorted l ≡ₚ l.
Proof. apply PyList.sort_by_perm. Qed.

Lemma sorted_ordered l : StronglySorted Z.le (sorted l).
Proof.
  rewrite <-(list_fmap_id (sorted l)). eapply StronglySorted_fmap; [|apply (PyList.sort_by_ordered Z.ltb)]; simpl; lia.
Qed.

Lemma base_descs_inv m lens by_mode by_token :
  base_query_lens m = Ok lens -> Forall (fun q => 0 < q) lens ->
  NoDup (cudagraph_capture_sizes (vllm_config m)) -> NoDup (lora_capture_cases m) ->
  base_descs m = Ok (by_mode, by_token) -> exists pre, base_inv m pre by_mode by_token.
Proof.
  intros Hl Hlens Hs Hc. unfold base_descs. rewrite Hl. cbn [rbind]. intros Hrun.
  eexists. eapply (base_fold_inv m lens [] _ (∅, ∅) (by_mode, by_token)); [done|..|exact Hrun].
  - apply NoDup_product; [by rewrite sorted_perm|done].
  - apply product_ordered, sorted_ordered.
  - apply base_inv_nil.
Qed.

End Base.

(** ** The adaptive layer *)

Record adaptive_inv (m : CudaGraphManager) (base_mode : mode_table) (base : desc_table)
    (st : adaptive_state) : Prop := {
  ai_existing d : in_table (decode_mode (cudagraph_mode m)) d (snd (fst st)) -> shape d ∈ fst (fst st);
  ai_mode md d : in_table md d (snd (fst st)) ->
    cg_mode d = md /\ (in_table (key_of d) d base \/ in_table (key_of d) d (snd st));
  ai_base md d : in_table md d base_mode -> in_table md d (snd (fst st));
  ai_token k d : in_table k d (snd st) -> key_of d = k /\ in_table (cg_mode d) d (snd (fst st)) /\
    is_decode d /\ cg_mode d = decode_mode (cudagraph_mode m);
  ai_nodup md l : snd (fst st) !! md = Some l -> NoDup l
}.

Lemma adaptive_item_inv m base_mode base max_decode_tokens st s :
  adaptive_inv m base_mode base st ->
  adaptive_inv m base_mode base (adaptive_item m max_decode_tokens (decode_mode (cudagraph_mode m)) st s).
Proof.
  intros Hinv. destruct st as [[existing by_mode] adaptive], s as [[q n] lo]. unfold adaptive_item.
  destruct (_ || _); [done|]. set (d := mkDesc _ _ _ _ _).
  destruct (bool_decide_reflect ((q * n, Some n, Some q, lo) ∈ existing)) as [|Hnew]; [done|].
  destruct Hinv as [He Hm Hb Ht Hn]. constructor; simpl in *.
  - intros x. rewrite in_table_push. intros [[_ ->]|Hin]; [left|right; by apply He].
  - intros md x. rewrite !in_table_push. intros [[-> ->]|Hin].
    + split; [done|]. right. by left.
    + destruct (Hm _ _ Hin) as [? [|]]; auto.
  - intros md x Hin. apply in_table_push. right. by apply Hb.
  - intros k x. rewrite !in_table_push. intros [[-> ->]|Hin].
    + split_and!; [done|by left|done|done].
    + destruct (Ht _ _ Hin) as (? & ? & ? & ?). split_and!; auto.
  - intros md l. rewrite lookup_push. case_decide as E; [subst|by apply Hn]. intros [= <-].
    apply NoDup_app. split_and!; [| |apply NoDup_singleton].
    + destruct (by_mode !! _) eqn:E; [by eapply Hn|constructor].
    + intros y Hy Hyd. apply list_elem_of_singleton in Hyd as ->. apply Hnew.
      apply (He d). destruct (by_mode !! _) as [l|] eqn:E; [by exists l|]. by apply elem_of_nil in Hy.
Qed.

(** Everything about the two layers that capture and dispatch need. *)
Record layers_inv (m : CudaGraphManager) (base adaptive : desc_table) (by_mode : mode_table) : Prop := {
  li_mode md d : in_table md d by_mode ->
    cg_mode d = md /\ (in_table (key_of d) d base \/ in_table (key_of d) d adaptive);
  li_token k d : in_table k d base \/ in_table k d adaptive ->
    key_of d = k /\ in_table (cg_mode d) d by_mode;
  li_kind k d : in_table k d base \/ in_table k d adaptive ->
    cg_mode d = (if uniform_token_count d then decode_mode else mixed_mode) (cudagraph_mode m);
  li_base k l : base !! k = Some l -> decode_first l;
  li_adaptive k d : in_table k d adaptive -> is_decode d;
  li_nodup md l : by_mode !! md = Some l -> NoDup l
}.

Lemma default_in_table md d (by_mode : mode_table) :
  in_table md d (<[md := default [] (by_mode !! md)]> by_mode) -> in_table md d by_mode.
Proof.
  intros (l & Hl & Hd). rewrite lookup_insert_eq in Hl. injection Hl as <-.
  destruct (by_mode !! md) as [l|] eqn:E; [by exists l|]. by apply elem_of_nil in Hd.
Qed.

Lemma adaptive_start m pre base_mode base :
  let dmode := decode_mode (cudagraph_mode m) in
  let descs := default [] (base_mode !! dmode) in
  base_inv m pre base_mode base ->
  adaptive_inv m base_mode base (map shape descs, <[dmode := descs]> base_mode, ∅).
Proof.
  intros dmode descs [Hm Ht Hk Hs Hx Hn].
  assert (Hsame : forall md d, in_table md d (<[dmode := descs]> base_mode) <-> in_table md d base_mode).
  { intros md d. destruct (decide (md = dmode)) as [->|Hne].
    - split; [apply default_in_table|]. intros (l & Hl & Hd). exists l. rewrite lookup_insert_eq.
      unfold descs. by rewrite Hl.
    - unfold in_table. by rewrite lookup_insert_ne by congruence. }
  constructor; simpl.
  - intros d (l & Hl & Hd). rewrite lookup_insert_eq in Hl. injection Hl as <-. by apply list_elem_of_fmap_2.
  - intros md d. rewrite Hsame. intros Hin. destruct (Hm _ _ Hin). auto.
  - intros md d. by rewrite Hsame.
  - intros k d (l & Hl & _). by rewrite lookup_empty in Hl.
  - intros md l. destruct (decide (md = dmode)) as [->|Hne].
    + rewrite lookup_insert_eq. intros [= <-]. unfold descs.
      destruct (base_mode !! dmode) eqn:E; [by eapply Hn|constructor].
    + rewrite lookup_insert_ne by congruence. apply Hn.
Qed.

Lemma adaptive_layers m pre base_mode base st :
  base_inv m pre base_mode base -> adaptive_inv m base_mode base st ->
  layers_inv m base (snd st) (snd (fst st)).
Proof.
  intros [Hm Ht Hk Hs Hx Hn] [Ae Am Ab At An]. constructor; [done| | |done| |done].
  - intros k d [Hin|Hin]; [destruct (Ht _ _ Hin); auto|destruct (At _ _ Hin) as (? & ? & _); auto].
  - intros k d [Hin|Hin]; [by eapply Hk|]. destruct (At _ _ Hin) as (_ & _ & Hd & ->).
    unfold is_decode in Hd. by destruct (uniform_token_count d).
  - intros k d Hin. by destruct (At _ _ Hin) as (_ & _ & Hd & _).
Qed.

Lemma layers_base m pre base_mode base : base_inv m pre base_mode base -> layers_inv m base ∅ base_mode.
Proof.
  assert (Hno : forall k d, ~ in_table k d (∅ : desc_table)) by (intros k d (l & Hl & _); by rewrite lookup_empty in Hl).
  intros [Hm Ht Hk Hs Hx Hn]. constructor; [..|done].
  - intros md d Hin. destruct (Hm _ _ Hin). auto.
  - intros k d [Hin|Hin]; [by apply Ht|by apply Hno in Hin].
  - intros k d [Hin|Hin]; [by eapply Hk|by apply Hno in Hin].
  - done.
  - intros k d Hin. by apply Hno in Hin.
Qed.

Lemma adaptive_descs_inv m pre base_mode base by_mode adaptive :
  base_inv m pre base_mode base -> adaptive_descs m base_mode = Ok (by_mode, adaptive) ->
  layers_inv m base adaptive by_mode.
Proof.
  intros Hinv. unfold adaptive_descs, _init_adaptive_spec_candidates.
  intros (lens & _ & Hrun)%rbind_ok. destruct (negb _).
  { injection Hrun as <- <-. by eapply layers_base. }
  destruct (fold_left _ _ _) as [[existing bm] ad] eqn:Efold. injection Hrun as <- <-.
  apply (adaptive_layers m pre base_mode base (existing, bm, ad)); [done|]. rewrite <-Efold.
  generalize (adaptive_start m pre base_mode base Hinv). cbv zeta.
  generalize (map shape (default [] (base_mode !! decode_mode (cudagraph_mode m))),
    <[decode_mode (cudagraph_mode m) := default [] (base_mode !! decode_mode (cudagraph_mode m))]> base_mode,
    ∅ : desc_table).
  clear. induction (adaptive_shapes m lens) as [|s ss IH]; intros st Hst; simpl; [done|].
  apply IH. by apply adaptive_item_inv.
Qed.

End Tables.
