(* ===== verification/CudaDispatch.v ===== *)
(** * Capture and dispatch: theorems

    What [init], [capture], [dispatch] and [run_fullgraph] guarantee together:
    the layered lookup, the LoRA cases, the coverage of the adaptive ladder and
    its refusal when it cannot be covered; concrete managers at the end. *)
From S2P Require Import PyLib PyDict AcceptanceLength.
From S2P Require Export CudaTables.

Section Dispatch.
Context `{!CUDAGraphMode, !MathUtils}.
Local Notation desc_table := (gmap (Z * Z) (list BatchExecutionDescriptor)).
Local Notation mode_table := (gmap mode (list BatchExecutionDescriptor)).

(** ** The manager [init] returns *)

(** The result of the constructor: either nothing is captured and no adaptive
    depth is served, or the tables are the two layers. *)
Inductive initialised (m : CudaGraphManager) : Prop :=
  | Init_eager :
      _candidates m = ∅ -> _capture_descs m = ∅ -> graphs m = [] ->
      adaptive_spec_decode_query_lens m = Ok [] -> initialised m
  | Init_graphs base_mode base by_mode adaptive :
      mode_bool (cudagraph_mode m) = true ->
      base_descs m = Ok (base_mode, base) -> adaptive_descs m base_mode = Ok (by_mode, adaptive) ->
      _candidates m = map_fold layer_entry (_build_candidate_ranges m base) (_build_candidate_ranges m adaptive) ->
      _capture_descs m = by_num_tokens_desc <$> by_mode -> graphs m = [] ->
      _assert_adaptive_spec_graph_coverage m (separate_routine (cudagraph_mode m)) = Ok tt -> initialised m.

Lemma possible_ok m u : _assert_adaptive_spec_graphs_possible m = Ok u -> adaptive_spec_decode_query_lens m = Ok [].
Proof.
  unfold _assert_adaptive_spec_graphs_possible. intros (lens & Hl & Hr)%rbind_ok.
  apply require_ok, bool_decide_eq_true in Hr. by subst.
Qed.

Lemma init_candidates_ok m0 m :
  _candidates m0 = ∅ -> _capture_descs m0 = ∅ -> graphs m0 = [] -> _init_candidates m0 = Ok m -> initialised m.
Proof.
  intros Hc Hd Hg. unfold _init_candidates. destruct (negb _) eqn:Em.
  { intros (u & Hp%possible_ok & Hm)%rbind_ok. injection Hm as <-. by apply Init_eager. }
  apply negb_false_iff, andb_true_iff in Em as [Em _].
  intros ([bm bt] & Hb & Hrun)%rbind_ok. apply rbind_ok in Hrun as ([bm' ad] & Ha & Hrun).
  destruct (_ && _).
  { apply rbind_ok in Hrun as (u & Hp%possible_ok & Hm). injection Hm as <-. by apply Init_eager. }
  apply rbind_ok in Hrun as ([] & Hcov & Hm). injection Hm as <-.
  by apply (Init_graphs _ bm bt bm' ad).
Qed.

Lemma init_ok cfg md dql cases m : init cfg md dql cases = Ok m ->
  initialised m /\ vllm_config m = cfg /\ cudagraph_mode m = md /\ decode_query_len m = dql /\
  max_num_reqs m = max_num_seqs cfg.
Proof.
  unfold init. intros (dm & _ & Hrun)%rbind_ok.
  split; [eapply init_candidates_ok; [..|exact Hrun]; done|].
  unfold _init_candidates in Hrun. destruct (negb _).
  { apply rbind_ok in Hrun as (u & _ & Hm). by injection Hm as <-. }
  apply rbind_ok in Hrun as ([bm bt] & _ & Hrun). apply rbind_ok in Hrun as ([bm' ad] & _ & Hrun).
  destruct (_ && _); apply rbind_ok in Hrun as (u & _ & Hm); by injection Hm as <-.
Qed.

Lemma build_lookup_inv m descs i lo l :
  0 <= i -> _build_candidate_ranges m descs !! (i, lo) = Some l ->
  lo ∈ lora_capture_cases m /\ lookup_bucket descs i lo = Some l.
Proof.
  intros Hi Hl. destruct (decide (lo ∈ lora_capture_cases m)) as [Hlo|Hlo].
  { split; [done|]. by rewrite <-(build_candidate_ranges_lookup m). }
  exfalso. unfold _build_candidate_ranges in Hl.
  rewrite build_fold in Hl; [|done|left; lia|apply all_token_counts_lt].
  destruct (if _ <=? _ then _ else _) as [t|]; [rewrite decide_False in Hl by done|]; by rewrite lookup_empty in Hl.
Qed.

Lemma lookup_bucket_in descs tokens lo l d :
  lookup_bucket descs tokens lo = Some l -> d ∈ l ->
  exists t, tokens <= t /\ in_table (t, lo) d descs /\
    forall t' lo' l', descs !! (t', lo') = Some l' -> tokens <= t' -> t <= t'.
Proof.
  unfold lookup_bucket. intros (t & Ht & Hl)%bind_Some Hd.
  apply find_least in Ht as (_ & Hle & Hleast); [|apply all_token_counts_sorted].
  exists t. split_and!; [done|by exists l|]. intros t' lo' l' Hl' Hle'. apply Hleast; [|done].
  apply elem_of_all_token_counts. eauto.
Qed.

(** What a looked-up candidate is. *)
Lemma candidate_in m base adaptive by_mode tokens lo l d :
  layers_inv m base adaptive by_mode ->
  _candidates m = map_fold layer_entry (_build_candidate_ranges m base) (_build_candidate_ranges m adaptive) ->
  0 <= tokens -> _candidates m !! (tokens, lo) = Some l -> d ∈ l ->
  in_table (cg_mode d) d by_mode.
Proof.
  intros Hinv Hc Ht. rewrite Hc, layered_lookup.
  assert (Hone : forall descs l, _build_candidate_ranges m descs !! (tokens, lo) = Some l -> d ∈ l ->
            exists k, in_table k d descs).
  { intros descs k Hk Hd. apply build_lookup_inv in Hk as [_ Hk]; [|done].
    apply lookup_bucket_in with (d := d) in Hk as (t & _ & Hin & _); [|done]. eauto. }
  destruct (_build_candidate_ranges m adaptive !! (tokens, lo)) as [a|] eqn:Ea.
  - intros [= <-] [Hd|Hd]%elem_of_extend_new.
    + destruct (Hone _ _ Ea Hd) as [k Hk]. by apply (li_token _ _ _ _ Hinv k d); right.
    + destruct (_build_candidate_ranges m base !! (tokens, lo)) as [b|] eqn:Eb; [|by apply elem_of_nil in Hd].
      destruct (Hone _ _ Eb Hd) as [k Hk]. by apply (li_token _ _ _ _ Hinv k d); left.
  - intros Eb Hd. destruct (Hone _ _ Eb Hd) as [k Hk]. by apply (li_token _ _ _ _ Hinv k d); left.
Qed.

(** ** Capture *)

Lemma capture_piecewise b graphs trace descs :
  Forall (fun d => cg_mode d = PIECEWISE) descs ->
  exists trace', rfold (capture_one b) (graphs, trace) descs = Ok (graphs, trace').
Proof.
  intros Hall. revert trace. induction Hall as [|d descs Hd Hall IH]; intros trace; simpl; [by eexists|].
  rewrite bool_decide_eq_true_2 by done. destruct b; simpl; apply IH.
Qed.

Lemma capture_full b graphs trace descs :
  Forall (fun d => cg_mode d <> PIECEWISE) descs -> NoDup (graphs ++ descs) ->
  exists trace', rfold (capture_one b) (graphs, trace) descs = Ok (graphs ++ descs, trace').
Proof.
  intros Hall. revert graphs trace.
  induction Hall as [|d descs Hd Hall IH]; intros graphs trace Hnd; simpl.
  { rewrite app_nil_r. by eexists. }
  rewrite bool_decide_eq_false_2 by done. cbn [andb negb rbind].
  assert (Hin : d ∉ graphs).
  { apply NoDup_app in Hnd as (_ & Hdis & _). intros Hg. apply (Hdis d Hg). left. }
  unfold require. rewrite bool_decide_eq_false_2 by done. cbn [negb rbind].
  change (graphs ++ d :: descs) with (graphs ++ [d] ++ descs) in *. rewrite List.app_assoc in *. by apply IH.
Qed.

(** ** The ladder *)

(** The query lengths of a configured ladder, or the error. *)
Lemma adaptive_lens_ok m0 sc :
  speculative_config (vllm_config m0) = Some sc -> 1 < decode_query_len m0 ->
  uses_acceptance_length_adaptation sc = true ->
  (exists lens, adaptive_spec_decode_query_lens m0 = Ok lens /\ lens <> [] /\ Forall (fun q => 0 < q) lens /\
     1 <= num_speculative_tokens (vllm_config m0) < decode_query_len m0) \/
  adaptive_spec_decode_query_lens m0 = Raise RuntimeError.
Proof.
  intros Hsc Hdql Huse. unfold adaptive_spec_decode_query_lens.
  rewrite Hsc, (proj2 (Z.leb_gt _ 1)), Huse by lia. cbn [negb].
  set (k := num_speculative_tokens _). destruct (Z.leb_spec k 0); [by right|]. cbn [negb require rbind].
  destruct (Z.ltb_spec (decode_query_len m0 - k) 1); [by right|]. cbn [negb require rbind].
  destruct (DepthLadder.parse_is_ladder (getenv (vllm_config m0)) k None ltac:(lia)) as (l & -> & Hlad).
  cbn [rbind]. left. pose proof (DepthLadder.is_ladder_nonempty _ _ Hlad) as Hne.
  rewrite bool_decide_eq_false_2 by (intros ?%map_eq_nil; done).
  eexists. split_and!; [done|by intros ?%map_eq_nil| |lia|lia].
  destruct Hlad as (_ & _ & Hall). apply Forall_map. eapply Forall_impl; [exact Hall|]. simpl. lia.
Qed.

Lemma adaptive_lens_positive m0 lens :
  adaptive_spec_decode_query_lens m0 = Ok lens -> Forall (fun q => 0 < q) lens.
Proof.
  intros Hl. destruct (speculative_config (vllm_config m0)) as [sc|] eqn:Hsc.
  2: { unfold adaptive_spec_decode_query_lens in Hl. rewrite Hsc in Hl. by injection Hl as <-. }
  destruct (Z.leb_spec (decode_query_len m0) 1) as [Hle|Hgt].
  { unfold adaptive_spec_decode_query_lens in Hl. rewrite Hsc, (proj2 (Z.leb_le _ 1)) in Hl by done.
    by injection Hl as <-. }
  destruct (uses_acceptance_length_adaptation sc) eqn:Hu.
  - destruct (adaptive_lens_ok m0 sc Hsc Hgt Hu) as [(l & Hl' & _ & Hp & _)|Hr]; congruence.
  - unfold adaptive_spec_decode_query_lens in Hl. rewrite Hsc, (proj2 (Z.leb_gt _ 1)), Hu in Hl by done.
    by injection Hl as <-.
Qed.

(** ** The layers of a captured manager *)

Lemma capture_fields b m m' trace : capture b m = Ok (m', trace) ->
  exists g, m' = m <| graphs := g |> <| _graphs_captured := true |>.
Proof. unfold capture. intros (st & _ & Hm)%rbind_ok. injection Hm as <- _. by eexists. Qed.

(** Layered dispatch: the adaptive descriptors come first and hide none of
    the base ones.  Either nothing was captured and no adaptive depth is served,
    or a batch gets the first compatible descriptor of the smallest adaptive
    bucket that holds it if there is one, and otherwise exactly what it would get
    from the base table alone: the first compatible descriptor of the smallest
    base bucket, or eager execution. *)
Theorem dispatch_layers cfg md dql cases m use_breakable_cg m' trace :
  init cfg md dql cases = Ok m -> capture use_breakable_cg m = Ok (m', trace) ->
  (_candidates m' = ∅ /\ adaptive_spec_decode_query_lens m = Ok []) \/
  exists base_mode base by_mode adaptive,
    base_descs m = Ok (base_mode, base) /\ adaptive_descs m base_mode = Ok (by_mode, adaptive) /\
    forall reqs tokens uniform loras,
      0 < tokens -> _resolve_effective_loras m' loras ∈ lora_capture_cases m' ->
      let eff := _resolve_effective_loras m' loras in
      let first descs := List.find (fun d => _is_compatible d reqs tokens uniform eff)
                           (default [] (lookup_bucket descs tokens eff)) in
      let base_only := m' <| _candidates := _build_candidate_ranges m' base |> in
      dispatch m' reqs tokens uniform loras
        = default (dispatch base_only reqs tokens uniform loras) (first adaptive) /\
      dispatch base_only reqs tokens uniform loras
        = default (mkDesc NONE tokens (Some reqs) None eff) (first base).
Proof.
  intros Hrun (g & Hm')%capture_fields.
  destruct (init_ok _ _ _ _ _ Hrun) as ([Hc _ _ Hno|bm b by_mode ad _ Hb Ha Hc _ _ _] & _); [left; by subst m'|right].
  exists bm, b, by_mode, ad. split; [done|]. split; [done|]. intros reqs tokens uniform loras Ht Heff.
  apply (layered_dispatch m' b ad reqs tokens uniform loras); [by subst m'|by subst m'|done|by subst m'].
Qed.

(** ** LoRA cases *)

(** While [n] is next: [rest] is what is left of the captured cases, the
    skipped ones are too small, the counts below [n] are mapped. *)
Definition lora_inv (captured : list Z) (n : Z) (st : gmap Z Z * list Z) : Prop :=
  (exists skipped, captured = skipped ++ snd st /\ Forall (fun c => c < n) skipped) /\
  forall k, fst st !! k = if (1 <=? k) && (k <? n) then List.find (fun c => k <=? c) captured else None.

Lemma skip_cases_spec n rest : (exists c, c ∈ rest /\ n <= c) ->
  exists skipped c rest', rest = skipped ++ c :: rest' /\ Forall (fun c => c < n) skipped /\ n <= c /\
    skip_cases n rest = Ok (c :: rest').
Proof.
  induction rest as [|x rest IH]; intros (c & Hc & Hn); simpl; [by apply elem_of_nil in Hc|].
  destruct (Z.ltb_spec x n).
  - destruct IH as (sk & c' & rest' & -> & Hsk & Hc' & ->).
    { apply elem_of_cons in Hc as [->|Hc]; [lia|]. by exists c. }
    exists (x :: sk), c', rest'. split_and!; [done|by constructor|done|done].
  - exists [], x, rest. split_and!; [done|constructor|done|done].
Qed.

Lemma map_lora_step captured n st :
  1 <= n -> (exists c, c ∈ captured /\ n <= c) -> lora_inv captured n st ->
  exists st', map_lora st n = Ok st' /\ lora_inv captured (n + 1) st'.
Proof.
  intros Hn1 (c & Hc & Hn) [(skipped & Heq & Hsk) Hmap]. destruct st as [dm rest]. simpl in *.
  assert (Hrest : exists c, c ∈ rest /\ n <= c).
  { exists c. split; [|done]. rewrite Heq in Hc. apply elem_of_app in Hc as [Hc|Hc]; [|done].
    rewrite Forall_forall in Hsk. specialize (Hsk c Hc). simpl in Hsk. lia. }
  destruct (skip_cases_spec n rest Hrest) as (sk & c' & rest' & Hr & Hsk' & Hc' & ->). cbn [rbind].
  eexists. split; [done|]. subst rest captured. split; simpl.
  - exists (skipped ++ sk). split; [by rewrite <-List.app_assoc|].
    apply Forall_app_2; (eapply Forall_impl; [eassumption|]); simpl; lia.
  - intros k. destruct (decide (k = n)) as [->|Hne].
    + rewrite lookup_insert_eq, (proj2 (Z.leb_le 1 n)), (proj2 (Z.ltb_lt n (n + 1))) by lia. cbn [andb].
      rewrite List.app_assoc, find_app.
      destruct (List.find _ (skipped ++ sk)) as [x|] eqn:E; [exfalso|simpl; by rewrite (proj2 (Z.leb_le n c'))].
      apply find_elem in E as [Hx Hle]. apply elem_of_app in Hx as [Hx|Hx]; rewrite Forall_forall in Hsk, Hsk';
        [specialize (Hsk _ Hx)|specialize (Hsk' _ Hx)]; simpl in *; lia.
    + rewrite lookup_insert_ne by congruence. rewrite Hmap.
      destruct (Z.leb_spec 1 k), (Z.ltb_spec k n), (Z.ltb_spec k (n + 1)); try lia; done.
Qed.

Lemma sorted_last_max l d : l <> [] -> StronglySorted Z.le l ->
  List.last l d ∈ l /\ forall c, c ∈ l -> c <= List.last l d.
Proof.
  intros Hne Hs. destruct (exists_last Hne) as (l' & x & ->). rewrite last_last. split; [set_solver|].
  intros c [Hc|Hc]%elem_of_app; [|by apply list_elem_of_singleton in Hc as ->].
  apply (StronglySorted_app_1_elem_of _ _ _ c x Hs Hc). left.
Qed.

Lemma lora_map_spec cases : exists dm last,
  _build_lora_dispatch_map cases = Ok (dm, last) /\
  let captured := sorted (List.filter (fun c => 0 <? c) cases) in
  (captured = [] -> dm = ∅) /\
  (captured <> [] -> last ∈ captured /\ (forall c, c ∈ captured -> c <= last) /\
     forall k, dm !! k = if (1 <=? k) && (k <? last + 1) then List.find (fun c => k <=? c) captured else None).
Proof.
  unfold _build_lora_dispatch_map. cbv zeta.
  assert (Hpos : forall c, c ∈ sorted (List.filter (fun c => 0 <? c) cases) -> 0 < c).
  { intros c Hc. unfold sorted in Hc. rewrite PyList.elem_of_sort_by in Hc.
    apply list_elem_of_In, List.filter_In in Hc as [_ Hc]. lia. }
  pose proof (sorted_ordered (List.filter (fun c => 0 <? c) cases)) as Hs.
  destruct (sorted (List.filter (fun c => 0 <? c) cases)) as [|x captured] eqn:E.
  { exists ∅, 0. split_and!; done. }
  destruct (sorted_last_max (x :: captured) 0 ltac:(done) Hs) as [Hin Hmax].
  set (last := List.last (x :: captured) 0) in *. pose proof (Hpos _ Hin) as Hl0.
  destruct (rfold_range (lora_inv (x :: captured)) map_lora 1 (last + 1) (∅, x :: captured)) as (st & Hrun & _ & Hmap).
  - lia.
  - split; [by exists []|]. intros k. simpl. destruct (Z.leb_spec 1 k), (Z.ltb_spec k 1); try lia; done.
  - intros i s Hi Hs'. apply map_lora_step; [lia| |done]. exists last. split; [done|lia].
  - rewrite Hrun. cbn [rbind]. eexists _, _. split; [done|]. split; [done|]. intros _. by split_and!.
Qed.

Lemma init_lora cfg md dql cases m : init cfg md dql cases = Ok m ->
  let l := match cases with None | Some [] => [0] | Some l => l end in
  lora_capture_cases m = l /\ l <> [] /\ _build_lora_dispatch_map l = Ok (_lora_dispatch_map m, _max_lora_case m).
Proof.
  intros Hrun. cbv zeta. unfold init in Hrun.
  set (l := match cases with None | Some [] => [0] | Some l => l end) in *.
  assert (Hne : l <> []) by by destruct cases as [[|]|].
  apply rbind_ok in Hrun as ([dm last] & Hdm & Hrun). rewrite Hdm. simpl in Hrun. unfold _init_candidates in Hrun.
  destruct (negb _).
  { apply rbind_ok in Hrun as (u & _ & Hm). by injection Hm as <-. }
  apply rbind_ok in Hrun as ([bm bt] & _ & Hrun). apply rbind_ok in Hrun as ([bm' ad] & _ & Hrun).
  destruct (_ && _); apply rbind_ok in Hrun as (u & _ & Hm); by injection Hm as <-.
Qed.

(** LoRA cases: the number of active adapters is mapped to the smallest
    captured case that can serve it, and to the largest one when there is none;
    building the map never runs past the captured cases. *)
Theorem lora_case_least cfg md dql cases m n :
  init cfg md dql cases = Ok m -> 0 < n -> (exists c, c ∈ lora_capture_cases m /\ 0 < c) ->
  let e := _resolve_effective_loras m n in
  e ∈ lora_capture_cases m /\
  ((n <= e /\ forall c, c ∈ lora_capture_cases m -> n <= c -> e <= c) \/
   (forall c, c ∈ lora_capture_cases m -> c < n /\ c <= e)).
Proof.
  intros Hrun Hn (c0 & Hc0 & Hc0p). destruct (init_lora _ _ _ _ _ Hrun) as (Hcm & _ & Hbuild).
  rewrite Hcm in *. set (l := match cases with None | Some [] => [0] | Some l => l end) in *.
  destruct (lora_map_spec l) as (dm & last & Hdm & Hempty & Hmap).
  rewrite Hdm in Hbuild. injection Hbuild as Hmm Hlast. symmetry in Hmm, Hlast.
  set (captured := sorted (List.filter (fun c => 0 <? c) l)) in *.
  assert (Hcap : forall c, c ∈ captured <-> c ∈ l /\ 0 < c).
  { intros c. unfold captured, sorted. rewrite PyList.elem_of_sort_by, list_elem_of_In, List.filter_In, <-list_elem_of_In, Z.ltb_lt. done. }
  assert (Hc0' : c0 ∈ captured) by by apply Hcap.
  destruct Hmap as (Hlin & Hmax & Hmap); [by intros E; rewrite E in Hc0'; apply elem_of_nil in Hc0'|].
  cbv zeta. unfold _resolve_effective_loras. rewrite Hmm, Hlast, (proj2 (Z.leb_gt n 0)) by done. cbn [orb].
  rewrite bool_decide_eq_false_2.
  2: { intros E. specialize (Hmap last). rewrite E, lookup_empty in Hmap.
       apply Hcap in Hlin as Hlin0. destruct Hlin0 as [_ Hlp].
       rewrite (proj2 (Z.leb_le 1 last)), (proj2 (Z.ltb_lt last (last + 1))) in Hmap by lia. cbn [andb] in Hmap.
       symmetry in Hmap. pose proof (List.find_none _ _ Hmap last (proj1 (list_elem_of_In _ _) Hlin)). simpl in *. lia. }
  rewrite Hmap, (proj2 (Z.leb_le 1 n)) by lia. cbn [andb]. destruct (Z.ltb_spec n (last + 1)).
  - destruct (List.find _ captured) as [e|] eqn:Ef; simpl.
    + apply find_least in Ef as (He & Hne & Hleast); [|apply sorted_ordered].
      split; [by apply Hcap|]. left. split; [done|]. intros c Hc Hnc. apply Hleast; [|done]. apply Hcap. split; [done|lia].
    + exfalso. pose proof (List.find_none _ _ Ef last (proj1 (list_elem_of_In _ _) Hlin)). simpl in *. lia.
  - simpl. split; [by apply Hcap|]. right. intros c Hc. destruct (decide (0 < c)) as [Hcp|].
    + assert (c <= last) by by apply Hmax, Hcap. lia.
    + apply Hcap in Hlin as [_ ?]. lia.
Qed.

Lemma adaptive_lens_raise m0 sc e :
  speculative_config (vllm_config m0) = Some sc -> 1 < decode_query_len m0 ->
  uses_acceptance_length_adaptation sc = true -> adaptive_spec_decode_query_lens m0 = Raise e -> e = RuntimeError.
Proof. intros Hsc Hq Hu Hr. destruct (adaptive_lens_ok m0 sc Hsc Hq Hu) as [(lens & Hl & _)|Hl]; congruence. Qed.

(** What the base schedule can raise: the comparison with a capture size that
    is not set, and the division by a query length of zero. *)
Lemma base_descs_raise m0 e : base_descs m0 = Raise e ->
  (e = TypeError /\ max_cudagraph_capture_size (vllm_config m0) = None) \/
  (e = ZeroDivisionError /\ exists lens, base_query_lens m0 = Ok lens /\ 0 ∈ lens).
Proof.
  unfold base_descs. intros [Hb|(lens & Hl & (st & [t lo] & _ & Hitem)%rfold_raise)]%rbind_raise.
  { unfold base_query_lens in Hb. destruct (speculative_config _) as [sc|]; [|done].
    destruct (uses_batch_size_dynamic_speculative_decoding sc) eqn:Ed; [|done].
    unfold uses_batch_size_dynamic_speculative_decoding in Ed.
    by destruct (num_speculative_tokens_per_batch_size sc). }
  unfold base_item in Hitem. apply rbind_raise in Hitem as [Hitem|(st' & _ & Hm)]; [|done].
  destruct (_ && _); [|done]. apply rfold_raise in Hitem as ([bm bt] & q & Hq & Hitem).
  unfold decode_item in Hitem. apply rbind_raise in Hitem as [Hz|(n & _ & Hitem)].
  { destruct (Z.eqb_spec q 0) as [->|]; [|done]. injection Hz as <-. right. split; [done|]. by exists lens. }
  apply rbind_raise in Hitem as [Hb|(big & _ & Hitem)].
  - destruct (_ <? _); [done|]. destruct (max_cudagraph_capture_size _); [done|]. injection Hb as <-. by left.
  - destruct big; [done|]. by destruct (bool_decide _).
Qed.

Lemma init_raise cfg md dql cases sc e :
  speculative_config cfg = Some sc -> uses_acceptance_length_adaptation sc = true -> 1 < dql ->
  init cfg md dql cases = Raise e ->
  e = RuntimeError \/ (e = TypeError /\ max_cudagraph_capture_size cfg = None) \/
  (e = ZeroDivisionError /\ exists entries x, num_speculative_tokens_per_batch_size sc = Some entries /\
     x ∈ entries /\ snd x + (dql - num_speculative_tokens cfg) = 0).
Proof.
  intros Hsc Hu Hdql. unfold init.
  destruct (lora_map_spec (match cases with None | Some [] => [0] | Some l => l end)) as (dm & last & -> & _).
  cbn [rbind fst snd]. set (m0 := mkManager _ _ _ _ _ _ _ _ _ _ _). unfold _init_candidates.
  assert (Hpos : forall (m1 x : CudaGraphManager), vllm_config m1 = cfg -> decode_query_len m1 = dql ->
    (let* _ := _assert_adaptive_spec_graphs_possible m1 in Ok x) = Raise e -> e = RuntimeError).
  { intros m1 x H1 H2 [Hr|(u & _ & Hr)]%rbind_raise; [|done]. unfold _assert_adaptive_spec_graphs_possible in Hr.
    apply rbind_raise in Hr as [Hr|(l & _ & Hr)]; [|by apply require_raise in Hr].
    eapply (adaptive_lens_raise m1 sc); [by rewrite H1|rewrite H2; exact Hdql|done|done]. }
  destruct (negb _); [intros Hr; left; exact (Hpos m0 m0 eq_refl eq_refl Hr)|].
  intros [Hb|([bm bt] & _ & Hr)]%rbind_raise.
  { apply base_descs_raise in Hb as [Hb|(-> & lens & Hl & Hz)]; [auto|]. right; right. split; [done|].
    unfold base_query_lens in Hl. simpl in Hl. rewrite Hsc in Hl.
    destruct (uses_batch_size_dynamic_speculative_decoding sc);
      [destruct (num_speculative_tokens_per_batch_size sc) as [entries|]; [|done]|];
      injection Hl as <-; [|apply list_elem_of_singleton in Hz; lia].
    apply list_elem_of_In, in_map_iff in Hz as (x & Hx & Hin). exists entries, x. split_and!; [done| |lia].
    by apply list_elem_of_In. }
  left. apply rbind_raise in Hr as [Ha|([bm' ad] & _ & Hr)].
  { unfold adaptive_descs, _init_adaptive_spec_candidates in Ha.
    apply rbind_raise in Ha as [Ha|(lens & _ & Ha)]; [by eapply (adaptive_lens_raise m0 sc)|].
    destruct (negb _); [done|]. by destruct (fold_left _ _ _) as [[]]. }
  destruct (_ && _); [exact (Hpos m0 m0 eq_refl eq_refl Hr)|].
  apply rbind_raise in Hr as [Hr|(u & _ & Hr)]; [|done]. unfold _assert_adaptive_spec_graph_coverage in Hr.
  apply rbind_raise in Hr as [Ha|(lens & _ & Hr)]; [by eapply (adaptive_lens_raise _ sc) in Ha|].
  destruct (bool_decide _); [done|]. apply rbind_raise in Hr as [Hr|(u & _ & Hr)]; [by apply require_raise in Hr|].
  destruct (negb _); [done|]. by apply require_raise in Hr.
Qed.

(** C19 (fail closed): with acceptance-length adaptation configured and more
    than one token per request to verify ([decode_query_len]), the constructor
    returns only managers whose mode has FULL graphs, for between one
    speculative token and fewer than [decode_query_len], and refuses a mode
    without graphs and an empty list of capture sizes with [RuntimeError].
    Whatever else it raises is [RuntimeError] too, but for two malformed
    configurations: no largest capture size ([TypeError]), and a static
    schedule with an entry whose query length is zero ([ZeroDivisionError]).
    A [decode_query_len] of one counts as no speculation
    (single_query_not_refused). *)
Theorem adaptive_fails_closed cfg md dql cases sc :
  speculative_config cfg = Some sc -> uses_acceptance_length_adaptation sc = true -> 1 < dql ->
  (forall m, init cfg md dql cases = Ok m ->
     mode_bool md = true /\ cudagraph_capture_sizes cfg <> [] /\ has_full_cudagraphs md = true /\
     1 <= num_speculative_tokens cfg < dql) /\
  (mode_bool md = false \/ cudagraph_capture_sizes cfg = [] -> init cfg md dql cases = Raise RuntimeError) /\
  (forall e, init cfg md dql cases = Raise e ->
     e = RuntimeError \/ (e = TypeError /\ max_cudagraph_capture_size cfg = None) \/
     (e = ZeroDivisionError /\ exists entries x, num_speculative_tokens_per_batch_size sc = Some entries /\
        x ∈ entries /\ snd x + (dql - num_speculative_tokens cfg) = 0)).
Proof.
  intros Hsc Hu Hdql.
  assert (Hraise : mode_bool md = false \/ cudagraph_capture_sizes cfg = [] -> init cfg md dql cases = Raise RuntimeError).
  { intros Hno. unfold init. destruct (lora_map_spec (match cases with None | Some [] => [0] | Some l => l end)) as (dm & last & -> & _).
    cbn [rbind fst snd]. unfold _init_candidates. simpl.
    replace (negb _) with true by (destruct Hno as [->| ->]; [done|by rewrite andb_false_r]).
    unfold _assert_adaptive_spec_graphs_possible. set (m0 := mkManager _ _ _ _ _ _ _ _ _ _ _).
    destruct (adaptive_lens_ok m0 sc Hsc Hdql Hu) as [(lens & -> & Hne & _)| ->]; [|done]. cbn [rbind].
    unfold require. by rewrite bool_decide_eq_false_2. }
  split_and!; [|exact Hraise|intros e; by apply (init_raise cfg md dql cases sc e)]. intros m Hrun.
  destruct (init_ok _ _ _ _ _ Hrun) as (Hi & Hcfg & Hmd & Hq & _). rewrite <-Hcfg in Hsc. rewrite <-Hq in Hdql.
  destruct (adaptive_lens_ok m sc Hsc Hdql Hu) as [(lens & Hl & Hne & _ & Hk)|Hr];
    destruct Hi as [_ _ _ Hno|bm b by_mode ad Hmode Hb Ha Hc Hd Hg Hcov]; try congruence.
  - rewrite Hcfg, Hq in Hk. rewrite Hmd in Hmode. split_and!; [done| | |lia|lia].
    + intros Hnil. rewrite Hraise in Hrun by by right. done.
    + unfold _assert_adaptive_spec_graph_coverage in Hcov. rewrite Hl in Hcov. cbn [rbind] in Hcov.
      rewrite bool_decide_eq_false_2 in Hcov by done. apply rbind_ok in Hcov as (u & Hfull & _).
      apply require_ok in Hfull. by rewrite <-Hmd.
  - unfold _assert_adaptive_spec_graph_coverage in Hcov. by rewrite Hr in Hcov.
Qed.


Section Laws.
Context `{!CUDAGraphModeLaws}.

Lemma capture_ok b m by_mode :
  _capture_descs m = by_num_tokens_desc <$> by_mode -> graphs m = [] ->
  (forall md l, by_mode !! md = Some l -> NoDup l /\ Forall (fun d => cg_mode d = md) l) ->
  exists trace, capture b m = Ok (m <| graphs := by_num_tokens_desc (default [] (by_mode !! FULL)) |>
                                    <| _graphs_captured := true |>, trace).
Proof.
  intros Hc Hg Hok. unfold capture. rewrite Hg, Hc. cbn [rfold]. rewrite !lookup_fmap.
  assert (Hsort : forall md l, by_mode !! md = Some l ->
    NoDup (by_num_tokens_desc l) /\ Forall (fun d => cg_mode d = md) (by_num_tokens_desc l)).
  { intros md l Hl. destruct (Hok md l Hl) as [Hn Hf].
    pose proof (PyList.sort_by_perm (fun x y => num_tokens y <? num_tokens x) l) as Hp.
    unfold by_num_tokens_desc. by rewrite Hp. }
  assert (Hpf : PIECEWISE <> FULL).
  { pose proof modes_distinct as Hd. apply NoDup_cons in Hd as [_ Hd]. apply NoDup_cons in Hd as [Hd _]. set_solver. }
  assert (Hpw : exists trace, match by_num_tokens_desc <$> by_mode !! PIECEWISE with
                | None => Ok ([], []) | Some descs => rfold (capture_one b) ([], []) descs end = Ok ([], trace)).
  { destruct (by_mode !! PIECEWISE) as [l|] eqn:E; simpl; [|by eexists].
    apply capture_piecewise. by apply (Hsort PIECEWISE). }
  destruct Hpw as [trace Hpw]. rewrite Hpw. cbn [rbind].
  destruct (by_mode !! FULL) as [l|] eqn:E; simpl; [|by eexists].
  destruct (Hsort FULL l E) as [Hn Hf].
  destruct (capture_full b [] trace (by_num_tokens_desc l)) as [trace' Hrun]; [|done|].
  { eapply Forall_impl; [exact Hf|]. intros d ->. congruence. }
  rewrite Hrun. cbn [rbind fst snd app]. by eexists.
Qed.

Lemma find_in_decodes f l d :
  decode_first l -> d ∈ l -> is_decode d -> f d = true ->
  exists d', List.find f l = Some d' /\ is_decode d' /\ f d' = true /\ d' ∈ l.
Proof.
  intros (ds & ms & -> & Hds & Hms) Hd Hdec Hf. rewrite find_app.
  apply elem_of_app in Hd as [Hd|Hd].
  - destruct (List.find f ds) as [d'|] eqn:E.
    + apply find_elem in E as [Hin Hf']. exists d'. rewrite Forall_forall in Hds. split_and!; [done|by apply Hds|done|].
      apply elem_of_app. by left.
    + pose proof (List.find_none _ _ E d (proj1 (list_elem_of_In _ _) Hd)). congruence.
  - rewrite Forall_forall in Hms. by apply Hms in Hd.
Qed.

Lemma exact_bucket descs t lo d : in_table (t, lo) d descs ->
  exists l, lookup_bucket descs t lo = Some l /\ descs !! (t, lo) = Some l /\ d ∈ l.
Proof.
  intros (l & Hl & Hd). unfold lookup_bucket.
  assert (Ht : t ∈ all_token_counts descs) by (apply elem_of_all_token_counts; eauto).
  destruct (List.find _ _) as [t'|] eqn:E.
  - apply find_least in E as (_ & Hle & Hleast); [|apply all_token_counts_sorted].
    specialize (Hleast t Ht ltac:(lia)). assert (t' = t) as -> by lia. by exists l.
  - pose proof (List.find_none _ _ E t (proj1 (list_elem_of_In _ _) Ht)) as Hf. simpl in Hf. lia.
Qed.

Lemma bucket_elem descs tokens lo d :
  d ∈ default [] (lookup_bucket descs tokens lo) -> exists k, in_table k d descs.
Proof.
  destruct (lookup_bucket descs tokens lo) as [l|] eqn:E; simpl; [|by intros ?%elem_of_nil].
  intros Hd. apply lookup_bucket_in with (d := d) in E as (t & _ & Hin & _); eauto.
Qed.

Section Manager.
Context `{!MathUtilsLaws} (cfg : VllmConfig) (md : mode) (dql : Z) (cases : option (list Z)) (m : CudaGraphManager).
Hypothesis Hinit : init cfg md dql cases = Ok m.
Hypothesis Hsizes : NoDup (cudagraph_capture_sizes cfg).
Hypothesis Hcases : NoDup (lora_capture_cases m).
Hypothesis Hlens : forall lens, base_query_lens m = Ok lens -> Forall (fun q => 0 < q) lens.

Lemma init_layers base_mode base by_mode adaptive :
  base_descs m = Ok (base_mode, base) -> adaptive_descs m base_mode = Ok (by_mode, adaptive) ->
  layers_inv m base adaptive by_mode.
Proof.
  intros Hb Ha. destruct (init_ok _ _ _ _ _ Hinit) as (_ & Hcfg & _).
  destruct (base_query_lens m) as [lens|e] eqn:El; [|unfold base_descs in Hb; by rewrite El in Hb].
  destruct (base_descs_inv m lens base_mode base El) as [pre Hpre]; [by apply Hlens|by rewrite Hcfg|done|done|].
  by eapply adaptive_descs_inv.
Qed.

Lemma layers_modes base adaptive by_mode : layers_inv m base adaptive by_mode ->
  forall md l, by_mode !! md = Some l -> NoDup l /\ Forall (fun d => cg_mode d = md) l.
Proof.
  intros Hinv k l Hl. split; [by eapply (li_nodup _ _ _ _ Hinv)|]. apply Forall_forall. intros d Hd.
  apply (li_mode _ _ _ _ Hinv k d). by exists l.
Qed.

Lemma in_sorted_full d (by_mode : mode_table) :
  d ∈ by_num_tokens_desc (default [] (by_mode !! FULL)) <-> in_table FULL d by_mode.
Proof.
  unfold by_num_tokens_desc. rewrite PyList.elem_of_sort_by. split.
  - destruct (by_mode !! FULL) as [l|] eqn:E; [by exists l|by intros ?%elem_of_nil].
  - intros (l & -> & Hd). done.
Qed.

Lemma none_not_full : NONE <> FULL.
Proof. pose proof modes_distinct as Hd. apply NoDup_cons in Hd as [Hd _]. set_solver. Qed.

Lemma dispatch_full m' reqs tokens uniform loras :
  let d := dispatch m' reqs tokens uniform loras in
  cg_mode d = FULL -> exists lo l, 0 < tokens /\ _candidates m' !! (tokens, lo) = Some l /\ d ∈ l.
Proof.
  cbv zeta. unfold dispatch. destruct (_ && _) eqn:E; [|by intros ?%none_not_full].
  apply andb_true_iff in E as [_ E%Z.ltb_lt].
  destruct (_candidates m' !! _) as [l|] eqn:El; [|by intros ?%none_not_full].
  destruct (List.find _ l) as [d|] eqn:Ef; [|by intros ?%none_not_full].
  intros _. apply find_elem in Ef as [Hd _]. eauto.
Qed.

(** C17 (capture and replay): [capture] never meets a descriptor it has already
    captured, and afterwards every FULL descriptor [dispatch] can return, for
    any batch, has its graph, so [run_fullgraph] never fails on it. *)
Theorem captured_graphs_replay (use_breakable_cg : bool) :
  exists m' trace, capture use_breakable_cg m = Ok (m', trace) /\ NoDup (graphs m') /\
    forall reqs tokens uniform loras,
      let d := dispatch m' reqs tokens uniform loras in
      cg_mode d = FULL -> run_fullgraph m' d = Ok tt.
Proof.
  destruct (init_ok _ _ _ _ _ Hinit) as ([Hc Hd Hg _|bm b by_mode ad Hmode Hb Ha Hc Hd Hg Hcov] & _).
  - destruct (capture_ok use_breakable_cg m ∅) as [trace Hrun]; [by rewrite Hd, fmap_empty|done|by intros ? ? ?|].
    eexists _, trace. split; [exact Hrun|]. split; [constructor|]. intros reqs tokens uniform loras d Hfull.
    apply dispatch_full in Hfull as (lo & l & _ & Hl & _). simpl in Hl. by rewrite Hc, lookup_empty in Hl.
  - pose proof (init_layers bm b by_mode ad Hb Ha) as Hinv.
    destruct (capture_ok use_breakable_cg m by_mode Hd Hg (layers_modes _ _ _ Hinv)) as [trace Hrun].
    eexists _, trace. split; [exact Hrun|]. split.
    + simpl. unfold by_num_tokens_desc. rewrite PyList.sort_by_perm.
      destruct (by_mode !! FULL) as [l|] eqn:E; [by eapply (li_nodup _ _ _ _ Hinv)|constructor].
    + intros reqs tokens uniform loras d Hfull. unfold run_fullgraph, require.
      rewrite bool_decide_eq_true_2 by done. cbn [rbind]. rewrite bool_decide_eq_true_2; [done|].
      simpl. apply in_sorted_full. apply dispatch_full in Hfull as Hin. destruct Hin as (lo & l & Ht & Hl & Hin).
      pose proof (candidate_in m b ad by_mode tokens lo l d Hinv Hc ltac:(lia) Hl Hin) as Hk. by rewrite Hfull in Hk.
Qed.

Lemma covered_shape lens s base_mode by_mode adaptive :
  adaptive_spec_decode_query_lens m = Ok lens -> separate_routine md = true ->
  _assert_adaptive_spec_graph_coverage m (separate_routine (cudagraph_mode m)) = Ok tt ->
  adaptive_descs m base_mode = Ok (by_mode, adaptive) ->
  _capture_descs m = by_num_tokens_desc <$> by_mode -> s ∈ adaptive_shapes m lens ->
  exists d, in_table FULL d by_mode /\ shape d = shape_of s.
Proof.
  intros Hl Hsep Hcov Ha Hd Hs. destruct (init_ok _ _ _ _ _ Hinit) as (_ & _ & Hmd & _).
  unfold _assert_adaptive_spec_graph_coverage in Hcov. rewrite Hl, Hmd, Hsep in Hcov. cbn [rbind negb] in Hcov.
  destruct (bool_decide_reflect (lens = [])) as [->|_].
  { unfold adaptive_shapes in Hs. simpl in Hs. by apply elem_of_nil in Hs. }
  apply rbind_ok in Hcov as (u & _ & Hmiss). apply require_ok, bool_decide_eq_true in Hmiss.
  destruct (bool_decide_reflect (shape_of s ∈ map shape (default [] (_capture_descs m !! FULL)))) as [Hin|Hn].
  - apply list_elem_of_fmap in Hin as (d & -> & Hin). exists d. split; [|done].
    rewrite Hd, lookup_fmap in Hin. apply in_sorted_full. by destruct (by_mode !! FULL).
  - exfalso. assert (Hf : s ∈ ([] : list (Z * Z * Z))); [|by apply elem_of_nil in Hf].
    rewrite <-Hmiss. apply list_elem_of_In, List.filter_In. split; [by apply list_elem_of_In|].
    by rewrite bool_decide_eq_false_2.
Qed.

(** Any compatible decode descriptor will do once FULL is the decode mode. *)
Lemma decode_answer base adaptive by_mode m' reqs tokens q lo loras d :
  layers_inv m base adaptive by_mode -> decode_mode (cudagraph_mode m) = FULL ->
  (forall d, dispatch m' reqs tokens (Some q) loras = d -> cg_mode d = FULL -> run_fullgraph m' d = Ok tt) ->
  (exists k, in_table k d base \/ in_table k d adaptive) -> is_decode d ->
  _is_compatible d reqs tokens (Some q) lo = true -> dispatch m' reqs tokens (Some q) loras = d ->
  cg_mode d = FULL /\ uniform_token_count d = Some q /\ tokens <= num_tokens d /\
  (forall n, num_reqs d = Some n -> reqs <= n) /\ num_active_loras d = lo /\ run_fullgraph m' d = Ok tt.
Proof.
  intros Hinv Hdm Hreplay [k Hk] Hdec (Hu & Hn & Ht & Hlo)%compatible_spec Heq.
  assert (Hfull : cg_mode d = FULL).
  { rewrite (li_kind _ _ _ _ Hinv k d Hk). unfold is_decode in Hdec. by destruct (uniform_token_count d). }
  unfold is_decode in Hdec. destruct (uniform_token_count d) as [u|]; [|done].
  specialize (Hu u eq_refl). split_and!; try done. by apply Hreplay.
Qed.

(** C16 (adaptive coverage): once a manager that serves the adaptive ladder, in
    a mode with a separate routine for decode batches, has been built and has
    captured, every uniform verification batch the scheduler can form, any rung
    with up to 32 requests and a captured LoRA case, is dispatched to a FULL
    graph of that rung which is large enough and has been captured: it never
    runs eagerly or piecewise.  In a mode with one routine for all batches this
    fails (answer_single_mode).  Throughout, no capture size and no LoRA case
    is listed twice and the query lengths of the schedule are positive. *)
Theorem adaptive_dispatch_full (use_breakable_cg : bool) m' trace lens query_len reqs loras :
  adaptive_spec_decode_query_lens m = Ok lens -> separate_routine md = true ->
  capture use_breakable_cg m = Ok (m', trace) ->
  query_len ∈ lens -> 1 <= reqs <= Z.min (max_num_seqs cfg) 32 ->
  _resolve_effective_loras m loras ∈ lora_capture_cases m ->
  let d := dispatch m' reqs (query_len * reqs) (Some query_len) loras in
  cg_mode d = FULL /\ uniform_token_count d = Some query_len /\ query_len * reqs <= num_tokens d /\
  (forall n, num_reqs d = Some n -> reqs <= n) /\
  num_active_loras d = _resolve_effective_loras m loras /\ run_fullgraph m' d = Ok tt.
Proof.
  intros Hl Hsep Hcap Hq Hreqs Heff.
  assert (Hq0 : 0 < query_len) by (eapply Forall_forall; [by eapply adaptive_lens_positive|done]).
  set (eff := _resolve_effective_loras m loras) in *. set (tokens := query_len * reqs).
  destruct (captured_graphs_replay use_breakable_cg) as (m1 & trace1 & Hcap1 & _ & Hreplay).
  rewrite Hcap in Hcap1. injection Hcap1 as <- <-. cbv zeta in Hreplay.
  destruct (init_ok _ _ _ _ _ Hinit) as ([Hc Hd Hg Hno|bm b by_mode ad Hmode Hb Ha Hc Hd Hg Hcov] & Hcfg & Hmd & _ & Hmax).
  { rewrite Hl in Hno. injection Hno as ->. by apply elem_of_nil in Hq. }
  pose proof (init_layers bm b by_mode ad Hb Ha) as Hinv.
  destruct (capture_ok use_breakable_cg m by_mode Hd Hg (layers_modes _ _ _ Hinv)) as [trace' Hrun].
  rewrite Hcap in Hrun. injection Hrun as Hm' _.
  destruct (covered_shape lens (query_len, reqs, eff) bm by_mode ad Hl Hsep Hcov Ha Hd) as (d0 & Hd0 & Hshape).
  { apply elem_of_product. split; [|done]. apply elem_of_product. split; [done|].
    apply elem_of_range. unfold max_captured_reqs. rewrite Hmax. lia. }
  injection Hshape as Ht0 Hn0 Hu0 Hlo0.
  destruct (li_mode _ _ _ _ Hinv FULL d0 Hd0) as [Hfull0 Hwhere].
  assert (Hkey0 : key_of d0 = (tokens, eff)) by (unfold key_of; by rewrite Ht0, Hlo0).
  assert (Hdecmode : decode_mode (cudagraph_mode m) = FULL).
  { rewrite Hkey0 in Hwhere. rewrite <-Hfull0, (li_kind _ _ _ _ Hinv _ _ Hwhere). by rewrite Hu0. }
  assert (Hcompat0 : _is_compatible d0 reqs tokens (Some query_len) eff = true).
  { apply compatible_spec. rewrite Hn0, Hu0, Ht0, Hlo0. unfold tokens. naive_solver lia. }
  set (ok := fun d => _is_compatible d reqs tokens (Some query_len) eff).
  assert (Hgood := fun d => decode_answer b ad by_mode m' reqs tokens query_len eff loras d Hinv Hdecmode
                              ltac:(intros ? <-; apply Hreplay)).
  assert (Hc' : _candidates m' = map_fold layer_entry (_build_candidate_ranges m' b) (_build_candidate_ranges m' ad))
    by (subst m'; exact Hc).
  assert (Heff' : _resolve_effective_loras m' loras = eff) by (subst m'; done).
  destruct (layered_dispatch m' b ad reqs tokens (Some query_len) loras Hc') as [Hdisp Hbase];
    [by subst m'|unfold tokens; lia|rewrite Heff'; by subst m'|].
  cbv zeta in Hdisp, Hbase. rewrite Heff' in Hdisp, Hbase. cbv zeta. fold tokens.
  change (fun d => _is_compatible d reqs tokens (Some query_len) eff) with ok in Hdisp, Hbase.
  destruct (List.find ok (default [] (lookup_bucket ad tokens eff))) as [d|] eqn:Ead; cbn [default from_option id] in Hdisp.
  - apply find_elem in Ead as [Hin Hok]. apply bucket_elem in Hin as [k Hin]. rewrite Hdisp.
    apply (Hgood d); [eauto|by eapply (li_adaptive _ _ _ _ Hinv)|done|done].
  - rewrite Hkey0 in Hwhere. destruct Hwhere as [Hin|Hin].
    + destruct (exact_bucket _ _ _ _ Hin) as (l & El & Hbl & Hdl). rewrite El in Hbase.
      destruct (find_in_decodes ok l d0 (li_base _ _ _ _ Hinv _ _ Hbl) Hdl) as (d & Ef & Hdec & Hok & Hd'l);
        [unfold is_decode; by rewrite Hu0|done|].
      cbn [default from_option id] in Hbase. rewrite Ef in Hbase. simpl in Hbase. rewrite Hdisp, Hbase.
      apply (Hgood d); [|done|done|congruence]. exists (tokens, eff). left. by exists l.
    + exfalso. destruct (exact_bucket _ _ _ _ Hin) as (l & El & _ & Hdl). rewrite El in Ead.
      pose proof (List.find_none _ _ Ead d0 (proj1 (list_elem_of_In _ _) Hdl)) as Hno. unfold ok in Hno. congruence.
Qed.

End Manager.


End Laws.

End Dispatch.

(** ** Concrete managers *)

Inductive example_mode := ENone | EPiecewise | EFull | EFullAndPiecewise.
#[export] Instance example_mode_eq_dec : EqDecision example_mode.
Proof. solve_decision. Defined.

Definition mode_code (m : example_mode) : nat :=
  match m with ENone => 0 | EPiecewise => 1 | EFull => 2 | EFullAndPiecewise => 3 end.
Definition code_mode (n : nat) : example_mode :=
  match n with 0%nat => ENone | 1%nat => EPiecewise | 2%nat => EFull | _ => EFullAndPiecewise end.

#[export] Instance example_mode_countable : Countable example_mode.
Proof. apply (inj_countable' mode_code code_mode). by intros []. Defined.

(** The members of the mode enumeration this repository uses. *)
Definition example_modes : CUDAGraphMode := {|
  NONE := ENone; PIECEWISE := EPiecewise; FULL := EFull;
  mode_bool m := negb (bool_decide (m = ENone));
  decode_mode m := match m with EFullAndPiecewise => EFull | m => m end;
  mixed_mode m := match m with EFullAndPiecewise => EPiecewise | m => m end;
  separate_routine m := bool_decide (m = EFullAndPiecewise);
  has_full_cudagraphs m := match m with EFull | EFullAndPiecewise => true | _ => false end
|}.
#[local] Existing Instance example_modes.
#[local] Existing Instance std_math.

Lemma example_modes_laws : CUDAGraphModeLaws.
Proof. constructor. apply (bool_decide_unpack _). vm_compute. exact I. Qed.
#[local] Existing Instance example_modes_laws.
#[local] Existing Instance std_math_laws.

Definition example_config (seqs : Z) (sizes : list Z) : VllmConfig := {|
  max_num_seqs := seqs; num_speculative_tokens := 5;
  speculative_config := Some (mkSpeculativeConfig None (Some 64));
  cudagraph_capture_sizes := sizes; max_cudagraph_capture_size := Some (List.last sizes 0);
  getenv _ := None
|}.

(** The mode a captured manager gives to a uniform batch. *)
Definition answer (cfg : VllmConfig) (md : example_mode) (reqs query_len : Z)
    : result (example_mode * option Z * option Z) :=
  let* m := init cfg md 6 None in
  let* c := capture false m in
  let d := dispatch (fst c) reqs (query_len * reqs) (Some query_len) 0 in
  Ok (cg_mode d, num_reqs d, uniform_token_count d).

(** Depths 2, 4 and 5 (query lengths 3, 5 and 6) with two requests. *)
Example answer_depths :
  map (answer (example_config 2 [1; 2; 4; 8; 16]) EFullAndPiecewise 2) [3; 5; 6]
  = [Ok (EFull, Some 2, Some 3); Ok (EFull, Some 2, Some 5); Ok (EFull, Some 2, Some 6)].
Proof. vm_compute. reflexivity. Qed.

(** With more than 32 requests a rung below the top is not covered by the
    fixed-length descriptors: their query length differs. *)
Example answer_many_requests :
  answer (example_config 40 [1; 2; 4; 8; 16; 256]) EFullAndPiecewise 33 3 = Ok (EPiecewise, None, None).
Proof. vm_compute. reflexivity. Qed.

(** With one mode for all batches the check accepts a configuration in which a
    reachable batch is larger than every captured one and runs eagerly. *)
Example answer_single_mode :
  answer (example_config 4 [1; 2; 4; 8]) EFull 2 6 = Ok (ENone, Some 2, None).
Proof. vm_compute. reflexivity. Qed.

Definition example_cfg : VllmConfig := example_config 2 [1; 2; 4; 8; 16].
Definition example_init : result CudaGraphManager := init example_cfg EFullAndPiecewise 6 None.


Lemma example_sizes : NoDup (cudagraph_capture_sizes example_cfg).
Proof. apply (bool_decide_unpack _). vm_compute. exact I. Qed.

(** A property of the manager that evaluation decides. *)
Definition holds (f : CudaGraphManager -> bool) : bool :=
  match example_init with Ok m => f m | Raise _ => false end.

Lemma example_holds f m : holds f = true -> example_init = Ok m -> f m = true.
Proof. unfold holds. intros Hf E. by rewrite E in Hf. Qed.

Definition single_case (m : CudaGraphManager) : bool := bool_decide (lora_capture_cases m = [0]).
Definition single_length (m : CudaGraphManager) : bool :=
  match base_query_lens m with Ok l => bool_decide (l = [6]) | Raise _ => false end.
Definition captures (m : CudaGraphManager) : bool := is_ok (capture false m).

Lemma example_cases m : example_init = Ok m -> lora_capture_cases m = [0].
Proof.
  intros E. pose proof (example_holds single_case m ltac:(vm_compute; reflexivity) E) as Hb.
  by apply bool_decide_eq_true in Hb.
Qed.

Lemma example_lens m : example_init = Ok m ->
  forall lens, base_query_lens m = Ok lens -> Forall (fun q => 0 < q) lens.
Proof.
  intros E lens Hl. pose proof (example_holds single_length m ltac:(vm_compute; reflexivity) E) as Hb.
  unfold single_length in Hb. rewrite Hl in Hb. apply bool_decide_eq_true in Hb as ->. by repeat constructor.
Qed.

Lemma example_cases_nodup m : example_init = Ok m -> NoDup (lora_capture_cases m).
Proof. intros E. rewrite (example_cases m E). apply NoDup_singleton. Qed.

Lemma example_init_ok : is_ok example_init = true.
Proof. vm_compute. reflexivity. Qed.

Lemma captured_graphs_replay_witness :
  exists m m' trace, example_init = Ok m /\ capture false m = Ok (m', trace) /\
    NoDup (graphs m').
Proof.
  destruct example_init as [m|] eqn:E0; [|exfalso; pose proof example_init_ok as Hok; rewrite E0 in Hok; discriminate Hok].
  destruct (@captured_graphs_replay example_modes std_math example_modes_laws std_math_laws example_cfg
    EFullAndPiecewise 6 None m E0 example_sizes (example_cases_nodup m E0) (example_lens m E0) false)
    as (m' & trace & Hcap & Hnd & _).
  exists m, m', trace. split; [reflexivity|]. split; [exact Hcap|exact Hnd].
Defined.

Lemma adaptive_dispatch_full_witness :
  exists m m' trace, example_init = Ok m /\ capture false m = Ok (m', trace) /\
    cg_mode (dispatch m' 2 (5 * 2) (Some 5) 0) = EFull.
Proof.
  destruct example_init as [m|] eqn:E0; [|exfalso; pose proof example_init_ok as Hok; rewrite E0 in Hok; discriminate Hok].
  assert (Hl : adaptive_spec_decode_query_lens m = Ok [3; 5; 6]).
  { destruct (@init_ok example_modes std_math example_cfg EFullAndPiecewise 6 None m E0) as (_ & Hc & _ & Hq & _).
    unfold adaptive_spec_decode_query_lens. rewrite Hc, Hq. vm_compute. reflexivity. }
  destruct (capture false m) as [[m' trace]|] eqn:Ec.
  2: { exfalso. assert (Hok : is_ok (capture false m) = true); [|rewrite Ec in Hok; discriminate].
       exact (example_holds captures m ltac:(vm_compute; reflexivity) E0). }
  exists m, m', trace. split; [reflexivity|]. split; [exact Ec|].
  refine (proj1 (@adaptive_dispatch_full example_modes std_math example_modes_laws std_math_laws example_cfg
    EFullAndPiecewise 6 None m E0 example_sizes (example_cases_nodup m E0) (example_lens m E0) false
    m' trace [3; 5; 6] 5 2 0 Hl eq_refl Ec _ _ _)).
  - right. left.
  - simpl. lia.
  - rewrite (example_cases m E0). left.
Defined.

Lemma dispatch_layers_witness :
  exists m m' trace, example_init = Ok m /\ capture false m = Ok (m', trace) /\
    ((_candidates m' = ∅ /\ adaptive_spec_decode_query_lens m = Ok []) \/
     exists base_mode base, base_descs m = Ok (base_mode, base)).
Proof.
  destruct example_init as [m|] eqn:E0; [|exfalso; pose proof example_init_ok as Hok; rewrite E0 in Hok; discriminate Hok].
  destruct (capture false m) as [[m' trace]|] eqn:Ec.
  2: { exfalso. assert (Hok : is_ok (capture false m) = true); [|rewrite Ec in Hok; discriminate].
       exact (example_holds captures m ltac:(vm_compute; reflexivity) E0). }
  exists m, m', trace. split; [reflexivity|]. split; [exact Ec|].
  destruct (@dispatch_layers example_modes std_math example_cfg EFullAndPiecewise 6 None m false m' trace E0 Ec)
    as [Hl|(bm & b & _ & _ & Hb & _)]; [left; exact Hl|right; exists bm, b; exact Hb].
Defined.

Definition example_lora_init : result CudaGraphManager := init example_cfg EFullAndPiecewise 6 (Some [0; 4; 2]).

Lemma lora_case_least_witness :
  exists m, example_lora_init = Ok m /\
    _resolve_effective_loras m 3 ∈ lora_capture_cases m.
Proof.
  destruct example_lora_init as [m|] eqn:E0;
    [|exfalso; assert (Hok : is_ok example_lora_init = true) by (vm_compute; reflexivity); rewrite E0 in Hok; discriminate Hok].
  exists m. split; [reflexivity|].
  refine (proj1 (@lora_case_least example_modes std_math example_cfg EFullAndPiecewise 6 (Some [0; 4; 2]) m 3 E0 _ _)); [reflexivity|].
  assert (Hc : (match example_lora_init with
    | Ok m => lora_capture_cases m | Raise _ => [] end) = [0; 4; 2]) by (vm_compute; reflexivity).
  rewrite E0 in Hc. rewrite Hc. exists 4. split; [right; left|reflexivity].
Defined.

(** With one token per request adaptation is not looked at. *)
Example single_query_not_refused :
  is_ok (init (example_config 2 []) ENone 1 None) = true.
Proof. vm_compute. reflexivity. Qed.

Lemma adaptive_fails_closed_witness :
  init (example_config 2 []) EFullAndPiecewise 6 None = Raise RuntimeError.
Proof.
  refine (proj1 (proj2 (@adaptive_fails_closed example_modes std_math (example_config 2 []) EFullAndPiecewise 6 None
    (mkSpeculativeConfig None (Some 64)) eq_refl eq_refl _)) _); [reflexivity|right; reflexivity].
Defined.
