(* ===== verification/CudaOutput.v ===== *)
(** * The output buffer across captures

    [ModelCudaGraphManager] allocates its output buffer in the first forward
    pass of [capture]; the order of capture makes it large enough for all. *)
From S2P Require Import PyLib PyDict AcceptanceLength.
From S2P Require Export CudaDispatch.

Section Output.
Context `{!CUDAGraphMode, !CUDAGraphModeLaws, !MathUtils, !MathUtilsLaws}.
Local Notation desc_table := (gmap (Z * Z) (list BatchExecutionDescriptor)).
Local Notation mode_table := (gmap mode (list BatchExecutionDescriptor)).

(** ** Sizes of the descriptors *)

Definition bounded (size : Z) (by_mode : mode_table) : Prop :=
  forall md d, in_table md d by_mode -> num_tokens d <= size.

Lemma bounded_push size md d by_mode : bounded size by_mode -> num_tokens d <= size -> bounded size (push md d by_mode).
Proof. intros Hb Hd md' d' [[_ ->]|Hin]%in_table_push; [done|by eapply Hb]. Qed.

Lemma bounded_default size md by_mode :
  bounded size by_mode -> bounded size (<[md := default [] (by_mode !! md)]> by_mode).
Proof.
  intros Hb md' d' Hin. destruct (decide (md' = md)) as [->|Hne]; [apply (Hb md), default_in_table, Hin|].
  apply (Hb md'). unfold in_table in *. by rewrite lookup_insert_ne in Hin by congruence.
Qed.

Lemma decode_item_bounded m size max_decode tokens loras st q st' :
  max_cudagraph_capture_size (vllm_config m) = Some size -> bounded size (fst st) ->
  decode_item m max_decode (decode_mode (cudagraph_mode m)) tokens loras st q = Ok st' ->
  bounded size (fst st').
Proof.
  intros Hsize Hb. destruct st as [by_mode by_token]. unfold decode_item. rewrite Hsize.
  destruct (if q =? 0 then _ else _) as [n|]; cbn [rbind]; [|done].
  destruct (max_decode <? round_up tokens q); cbn [rbind]; [by intros [= <-]|].
  destruct (_ || _) eqn:Ebig; cbn [rbind]; [by intros [= <-]|].
  apply orb_false_iff in Ebig as [Ebig%Z.ltb_ge _].
  destruct (bool_decide _); intros [= <-]; simpl; [by apply bounded_default|by apply bounded_push].
Qed.

Lemma decode_item_keeps m max_decode tokens loras st q st' md d :
  decode_item m max_decode (decode_mode (cudagraph_mode m)) tokens loras st q = Ok st' ->
  in_table md d (fst st) -> in_table md d (fst st').
Proof.
  destruct st as [by_mode by_token]. unfold decode_item.
  destruct (if q =? 0 then _ else _) as [n|]; cbn [rbind]; [|done].
  destruct (if _ <? _ then _ else _) as [[|]|]; cbn [rbind]; [by intros [= <-]| |done].
  intros Hrun Hin. destruct (bool_decide _); injection Hrun as <-; simpl; [|apply in_table_push; by right].
  destruct (decide (md = decode_mode (cudagraph_mode m))) as [->|Hne].
  - destruct Hin as (l & Hl & Hd). simpl in Hl. exists l. by rewrite lookup_insert_eq, Hl.
  - unfold in_table. by rewrite lookup_insert_ne by congruence.
Qed.

Lemma base_item_bounded m size max_decode lens st x st' :
  max_cudagraph_capture_size (vllm_config m) = Some size -> fst x <= size -> bounded size (fst st) ->
  base_item m max_decode lens st x = Ok st' ->
  bounded size (fst st') /\ (forall md d, in_table md d (fst st) -> in_table md d (fst st')) /\
  (mode_bool (mixed_mode (cudagraph_mode m)) = true ->
   exists d, in_table (mixed_mode (cudagraph_mode m)) d (fst st') /\ num_tokens d = fst x).
Proof.
  intros Hsize Hx Hb. destruct x as [tokens loras]. unfold base_item. intros (st1 & Hdec & Heq)%rbind_ok.
  assert (Hst1 : bounded size (fst st1) /\ forall md d, in_table md d (fst st) -> in_table md d (fst st1)).
  { destruct (_ && _); [|by injection Hdec as <-].
    eapply (rfold_inv (fun s => bounded size (fst s) /\ forall md d, in_table md d (fst st) -> in_table md d (fst s)));
      [done| |exact Hdec].
    intros s q s' _ [Hs Hk] Hrun. split; [by eapply decode_item_bounded|]. intros md d Hin.
    eapply decode_item_keeps; [exact Hrun|by apply Hk]. }
  injection Heq as <-. destruct Hst1 as [Hb1 Hk1]. destruct (mode_bool (mixed_mode _)); [|done].
  destruct st1 as [by_mode by_token]. simpl in *. split_and!.
  - by apply bounded_push.
  - intros md d Hin. apply in_table_push. right. by apply Hk1.
  - intros _. eexists. split; [apply push_has|done].
Qed.

Lemma base_fold_bounded m size max_decode lens xs st st' :
  max_cudagraph_capture_size (vllm_config m) = Some size ->
  Forall (fun x => fst x <= size) xs -> bounded size (fst st) ->
  rfold (base_item m max_decode lens) st xs = Ok st' ->
  bounded size (fst st') /\ (forall md d, in_table md d (fst st) -> in_table md d (fst st')) /\
  (mode_bool (mixed_mode (cudagraph_mode m)) = true -> forall x, x ∈ xs ->
   exists d, in_table (mixed_mode (cudagraph_mode m)) d (fst st') /\ num_tokens d = fst x).
Proof.
  intros Hsize Hxs. revert st. induction Hxs as [|x xs Hx Hxs IH]; intros st Hb; simpl.
  - intros [= <-]. split_and!; [done|done|]. by intros _ x ?%elem_of_nil.
  - intros (st1 & Hst1 & Hrun)%rbind_ok.
    destruct (base_item_bounded _ _ _ _ _ _ _ Hsize Hx Hb Hst1) as (Hb1 & Hk1 & Hm1).
    destruct (IH st1 Hb1 Hrun) as (Hb2 & Hk2 & Hm2). split_and!; [done|eauto|].
    intros Hmode y [->|Hy]%elem_of_cons; [|by apply Hm2].
    destruct (Hm1 Hmode) as (d & Hd & Ht). exists d. eauto.
Qed.

Lemma adaptive_bounded m size base_mode by_mode adaptive :
  max_cudagraph_capture_size (vllm_config m) = Some size -> bounded size base_mode ->
  adaptive_descs m base_mode = Ok (by_mode, adaptive) ->
  bounded size by_mode /\ forall md d, in_table md d base_mode -> in_table md d by_mode.
Proof.
  intros Hsize Hb. unfold adaptive_descs, _init_adaptive_spec_candidates.
  intros (lens & _ & Hrun)%rbind_ok. destruct (negb _); [by injection Hrun as <- _|].
  destruct (fold_left _ _ _) as [[existing bm] ad] eqn:Efold. injection Hrun as <- _.
  set (dmode := decode_mode (cudagraph_mode m)) in *.
  assert (Hgen : forall ss st, bounded size (snd (fst st)) ->
    let st' := fold_left (adaptive_item m (max_num_reqs m * decode_query_len m) dmode) ss st in
    bounded size (snd (fst st')) /\ forall md d, in_table md d (snd (fst st)) -> in_table md d (snd (fst st'))).
  { clear Efold. induction ss as [|s ss IH]; intros st Hst; simpl; [done|].
    destruct (IH (adaptive_item m (max_num_reqs m * decode_query_len m) dmode st s)) as [Hb' Hk'].
    - destruct st as [[ex bm'] ad'], s as [[q n] lo]. unfold adaptive_item. rewrite Hsize.
      destruct (_ || _) eqn:Ebig; [done|]. apply orb_false_iff in Ebig as [_ Ebig%Z.ltb_ge].
      destruct (bool_decide _); [done|]. by apply bounded_push.
    - split; [done|]. intros md d Hin. apply Hk'.
      destruct st as [[ex bm'] ad'], s as [[q n] lo]. unfold adaptive_item.
      destruct (_ || _); [done|]. destruct (bool_decide _); [done|]. simpl. apply in_table_push. by right. }
  match type of Efold with fold_left _ _ ?st = _ => specialize (Hgen (adaptive_shapes m lens) st) end.
  cbv zeta in Hgen. rewrite Efold in Hgen. simpl in Hgen. destruct Hgen as [Hb' Hk']; [by apply bounded_default|].
  split; [done|]. intros md d Hin. apply Hk'. destruct (decide (md = dmode)) as [->|Hne].
  - destruct Hin as (l & Hl & Hd). exists l. by rewrite lookup_insert_eq, Hl.
  - unfold in_table. by rewrite lookup_insert_ne by congruence.
Qed.

(** ** The trace of a capture *)

(** The forward passes of one descriptor keep a buffer that is large enough. *)
Lemma capture_one_output b gs tr d gs' tr' :
  capture_one b (gs, tr) d = Ok (gs', tr') -> exists ev, tr' = tr ++ ev /\
    forall rows, (forall size, rows = Some size -> num_tokens d <= size) ->
      rfold forward_fn rows ev = Ok (Some (default (num_tokens d) rows)).
Proof.
  assert (Hpm : NONE <> PIECEWISE).
  { pose proof modes_distinct as Hd. apply NoDup_cons in Hd as [Hd _]. set_solver. }
  assert (Hstore : forall rows, (forall size, rows = Some size -> num_tokens d <= size) ->
    forward_fn rows (Forward d NONE) = Ok (Some (default (num_tokens d) rows))).
  { intros rows Hrows. unfold forward_fn, store_output. rewrite bool_decide_eq_false_2 by done.
    destruct rows as [size|]; simpl; rewrite (proj2 (Z.leb_le _ _)); [done|by apply Hrows|done|lia]. }
  assert (Hagain : forall rows, (forall size, rows = Some size -> num_tokens d <= size) ->
    forward_fn (Some (default (num_tokens d) rows)) (Forward d NONE) = Ok (Some (default (num_tokens d) rows))).
  { intros rows Hrows. rewrite Hstore; [done|]. intros size [= <-]. destruct rows; simpl; [by apply Hrows|lia]. }
  unfold capture_one. destruct (bool_decide_reflect (cg_mode d = PIECEWISE)) as [Hp|Hp]; simpl.
  - destruct b; simpl; intros [= <- <-]; rewrite <-?List.app_assoc; eexists; (split; [done|]);
      intros rows Hrows; cbn [app rfold]; simpl (forward_fn _ (CreateForward _ _)); cbn [rbind];
      rewrite Hstore by done; cbn [rbind]; unfold forward_fn; by rewrite !bool_decide_eq_true_2 by done.
  - intros (u & _ & Hrun)%rbind_ok. injection Hrun as <- <-. rewrite <-?List.app_assoc. eexists. split; [done|].
    intros rows Hrows. cbn [app rfold]. simpl (forward_fn _ (CreateForward _ _)). cbn [rbind].
    rewrite Hstore by done. cbn [rbind]. by rewrite Hagain.
Qed.

(** A run of descriptors none of which is larger than the first. *)
Lemma capture_run_output b descs gs tr gs' tr' rows :
  rfold (capture_one b) (gs, tr) descs = Ok (gs', tr') ->
  (forall d size, d ∈ descs -> rows = Some size -> num_tokens d <= size) ->
  (rows = None -> forall d, head descs = Some d -> Forall (fun d' => num_tokens d' <= num_tokens d) descs) ->
  output_rows tr = Ok rows ->
  output_rows tr' = Ok (match rows with Some size => Some size | None => num_tokens <$> head descs end).
Proof.
  revert gs tr rows. induction descs as [|d descs IH]; intros gs tr rows; simpl.
  { intros [= <- <-] _ _ ->. by destruct rows. }
  intros ([gs1 tr1] & Hone & Hrun)%rbind_ok Hfit Hfirst Hout.
  apply capture_one_output in Hone as (ev & -> & Hev).
  assert (Hout1 : output_rows (tr ++ ev) = Ok (Some (default (num_tokens d) rows))).
  { unfold output_rows in *. rewrite rfold_app, Hout. cbn [rbind]. apply Hev. intros size Hs. apply (Hfit d); [left|done]. }
  rewrite (IH _ _ (Some (default (num_tokens d) rows)) Hrun); [by destruct rows| |done|done].
  intros d' size Hd' [= <-]. destruct rows as [size|]; simpl; [apply (Hfit d'); [by right|done]|].
  specialize (Hfirst eq_refl d eq_refl). inversion Hfirst as [|? ? _ Hall]; subst. rewrite Forall_forall in Hall. by apply Hall.
Qed.

Lemma sorted_head l d : head (by_num_tokens_desc l) = Some d ->
  d ∈ l /\ Forall (fun d' => num_tokens d' <= num_tokens d) (by_num_tokens_desc l).
Proof.
  intros Hh. pose proof (PyList.sort_by_ordered (fun x y => num_tokens y <? num_tokens x) l) as Hs.
  unfold by_num_tokens_desc in *. destruct (PyList.sort_by _ l) as [|d' l'] eqn:E; [done|]. injection Hh as ->.
  split; [apply (PyList.elem_of_sort_by (fun x y => num_tokens y <? num_tokens x)); rewrite E; left|].
  assert (Ho : PyList.ordered (fun x y => num_tokens y <? num_tokens x) (d :: l')).
  { apply Hs; simpl; intros; lia. }
  inversion Ho as [|? ? _ Hall]; subst. constructor; [lia|]. eapply Forall_impl; [exact Hall|]. simpl. lia.
Qed.

Lemma capture_split b m m' trace : capture b m = Ok (m', trace) ->
  exists st1 st2, rfold (capture_one b) (graphs m, []) (default [] (_capture_descs m !! PIECEWISE)) = Ok st1 /\
    rfold (capture_one b) st1 (default [] (_capture_descs m !! FULL)) = Ok st2 /\ trace = snd st2.
Proof.
  unfold capture. cbn [rfold]. intros (st2 & Hrun & Hm)%rbind_ok. injection Hm as _ <-.
  apply rbind_ok in Hrun as (st1 & H1' & Hrun). apply rbind_ok in Hrun as (st2' & H2' & [= <-]).
  exists st1, st2'. split_and!; [|by destruct (_capture_descs m !! FULL)|done].
  by destruct (_capture_descs m !! PIECEWISE).
Qed.

(** The first piecewise descriptor has the largest size. *)
Lemma first_piecewise cfg md dql cases m size base_mode base by_mode adaptive d :
  init cfg md dql cases = Ok m -> layers_inv m base adaptive by_mode ->
  base_descs m = Ok (base_mode, base) -> adaptive_descs m base_mode = Ok (by_mode, adaptive) ->
  max_cudagraph_capture_size cfg = Some size -> size ∈ cudagraph_capture_sizes cfg ->
  Forall (fun s => s <= size) (cudagraph_capture_sizes cfg) ->
  (decode_mode md = PIECEWISE -> mixed_mode md = PIECEWISE) -> mode_bool PIECEWISE = true ->
  bounded size by_mode /\
  (head (by_num_tokens_desc (default [] (by_mode !! PIECEWISE))) = Some d -> num_tokens d = size).
Proof.
  intros Hinit Hinv Hb Ha Hmax Hin Hall Hpw Hpwb.
  destruct (init_ok _ _ _ _ _ Hinit) as (_ & Hcfg & Hmd & _). destruct (init_lora _ _ _ _ _ Hinit) as (Hl & Hne & _).
  unfold base_descs in Hb. apply rbind_ok in Hb as (lens & _ & Hb). rewrite <-Hcfg in Hmax.
  assert (Hsmall : Forall (fun x => fst x <= size)
    (product (sorted (cudagraph_capture_sizes (vllm_config m))) (lora_capture_cases m))).
  { apply Forall_forall. intros [s lo] [Hs _]%elem_of_product. simpl.
    rewrite sorted_perm, Hcfg in Hs. rewrite Forall_forall in Hall. by apply Hall. }
  assert (Hnone : bounded size (fst ((∅, ∅) : mode_table * desc_table))).
  { intros k x (l & Hk & _). simpl in Hk. by rewrite lookup_empty in Hk. }
  destruct (base_fold_bounded m size _ lens _ (∅, ∅) _ Hmax Hsmall Hnone Hb) as (Hbound & _ & Hmixed).
  destruct (adaptive_bounded m size base_mode by_mode adaptive Hmax Hbound Ha) as [Hbound' Hkeep].
  split; [done|]. intros (Hd & Hmaxd)%sorted_head.
  assert (Hdin : in_table PIECEWISE d by_mode).
  { destruct (by_mode !! PIECEWISE) as [l|] eqn:E; [by exists l|by apply elem_of_nil in Hd]. }
  destruct (li_mode _ _ _ _ Hinv _ _ Hdin) as [Hcg Hwhere].
  assert (Hmix : mixed_mode (cudagraph_mode m) = PIECEWISE).
  { rewrite (li_kind _ _ _ _ Hinv _ _ Hwhere) in Hcg. rewrite Hmd in *. destruct (uniform_token_count d); auto. }
  rewrite Hmix in Hmixed. destruct (lora_capture_cases m) as [|lo los] eqn:El; [by rewrite <-Hl in Hne|].
  destruct (Hmixed Hpwb (size, lo)) as (d1 & Hd1 & Ht1).
  { apply elem_of_product. split; [by rewrite sorted_perm, Hcfg|left]. }
  apply Hkeep in Hd1. assert (num_tokens d1 <= num_tokens d).
  { destruct Hd1 as (l & El1 & Hd1). rewrite El1 in Hmaxd. rewrite Forall_forall in Hmaxd. apply Hmaxd.
    unfold by_num_tokens_desc. simpl. by rewrite PyList.elem_of_sort_by. }
  specialize (Hbound' _ _ Hdin). simpl in Ht1. lia.
Qed.

(** C18 (output buffer): with the largest capture size as the configured maximum
    the order of capture, piecewise before full and large before small, makes
    the first forward pass allocate an output buffer every later pass fits in,
    and every captured graph returns exactly its number of rows. *)
Theorem captured_outputs_fit cfg md dql cases m use_breakable_cg size :
  init cfg md dql cases = Ok m ->
  NoDup (cudagraph_capture_sizes cfg) -> NoDup (lora_capture_cases m) ->
  (forall lens, base_query_lens m = Ok lens -> Forall (fun q => 0 < q) lens) ->
  max_cudagraph_capture_size cfg = Some size -> size ∈ cudagraph_capture_sizes cfg ->
  Forall (fun s => s <= size) (cudagraph_capture_sizes cfg) ->
  (decode_mode md = PIECEWISE -> mixed_mode md = PIECEWISE) -> mode_bool PIECEWISE = true ->
  exists m' trace rows, capture use_breakable_cg m = Ok (m', trace) /\ output_rows trace = Ok rows /\
    forall d, d ∈ graphs m' -> model_run_fullgraph m' rows d = Ok (num_tokens d).
Proof.
  intros Hinit Hsizes Hcases Hlens Hmax Hin Hall Hpw Hpwb.
  destruct (init_ok _ _ _ _ _ Hinit) as ([Hc Hd Hg _|bm b by_mode ad Hmode Hb Ha Hc Hd Hg Hcov] & _).
  { destruct (capture_ok use_breakable_cg m ∅) as [trace Hrun]; [by rewrite Hd, fmap_empty|done|by intros ? ? ?|].
    eexists _, trace, None. split; [exact Hrun|]. apply capture_split in Hrun as (st1 & st2 & H1' & H2' & ->).
    rewrite Hd, lookup_empty in H1', H2'. injection H1' as <-. injection H2' as <-.
    split; [done|]. by intros d ?%elem_of_nil. }
  pose proof (init_layers cfg md dql cases m Hinit Hsizes Hcases Hlens bm b by_mode ad Hb Ha) as Hinv.
  pose proof (layers_modes m _ _ _ Hinv) as Hmodes.
  destruct (capture_ok use_breakable_cg m by_mode Hd Hg Hmodes) as [trace Hrun].
  apply capture_split in Hrun as Hsplit. destruct Hsplit as ([gs1 tr1] & [gs2 tr2] & Hrun1 & Hrun2 & ->).
  assert (Hlist : forall k, default [] (_capture_descs m !! k) = by_num_tokens_desc (default [] (by_mode !! k))).
  { intros k. rewrite Hd, lookup_fmap. by destruct (by_mode !! k). }
  rewrite Hlist in Hrun1, Hrun2. set (pw := by_num_tokens_desc (default [] (by_mode !! PIECEWISE))) in *.
  set (fl := by_num_tokens_desc (default [] (by_mode !! FULL))) in *.
  pose proof (fun d => first_piecewise cfg md dql cases m size bm b by_mode ad d Hinit Hinv Hb Ha Hmax Hin Hall Hpw Hpwb) as Hfirst.
  assert (Hout1 : output_rows tr1 = Ok (num_tokens <$> head pw)).
  { apply (capture_run_output _ _ _ _ _ _ None Hrun1); [done| |done]. intros _ d Hh. by apply sorted_head in Hh as [_ ?]. }
  assert (Hfl : forall d, d ∈ fl -> in_table FULL d by_mode) by (intros d; apply in_sorted_full).
  assert (Hout2 : output_rows tr2 = Ok (match num_tokens <$> head pw with Some s => Some s | None => num_tokens <$> head fl end)).
  { apply (capture_run_output _ _ _ _ _ _ _ Hrun2); [..|done].
    - intros d s Hdin Hs. destruct (head pw) as [d0|] eqn:Eh; [|done]. injection Hs as <-.
      destruct (Hfirst d0) as [Hbound Hsize]. rewrite Hsize by done. by apply (Hbound FULL), Hfl.
    - intros _ d Hh. by apply sorted_head in Hh as [_ ?]. }
  eexists _, tr2, _. split; [exact Hrun|]. split; [exact Hout2|]. simpl. intros d Hdin.
  assert (Hcg : cg_mode d = FULL) by by apply (li_mode _ _ _ _ Hinv), Hfl.
  unfold model_run_fullgraph, run_fullgraph, require. rewrite bool_decide_eq_true_2 by done. cbn [rbind].
  rewrite bool_decide_eq_true_2 by done. cbn [rbind]. destruct (head pw) as [d0|] eqn:Eh; simpl.
  - destruct (Hfirst d0) as [Hbound Hsize]. rewrite Hsize by done.
    specialize (Hbound FULL d (Hfl d Hdin)). f_equal. lia.
  - destruct (head fl) as [d1|] eqn:Eh1; simpl.
    + apply sorted_head in Eh1 as [_ Hmax1]. rewrite Forall_forall in Hmax1. specialize (Hmax1 d Hdin). simpl in Hmax1.
      f_equal. lia.
    + exfalso. destruct fl; [by apply elem_of_nil in Hdin|done].
Qed.

End Output.

#[local] Existing Instance example_modes.
#[local] Existing Instance std_math.

Lemma captured_outputs_fit_witness :
  exists m m' trace rows, example_init = Ok m /\ capture false m = Ok (m', trace) /\ output_rows trace = Ok rows.
Proof.
  destruct example_init as [m|] eqn:E0; [|exfalso; pose proof example_init_ok as Hok; rewrite E0 in Hok; discriminate Hok].
  destruct (@captured_outputs_fit example_modes example_modes_laws std_math std_math_laws example_cfg
    EFullAndPiecewise 6 None m false 16 E0 example_sizes (example_cases_nodup m E0) (example_lens m E0) eq_refl)
    as (m' & trace & rows & Hcap & Hout & _).
  - simpl. do 4 right. left.
  - repeat constructor; simpl; lia.
  - simpl. discriminate.
  - reflexivity.
  - exists m, m', trace, rows. split; [reflexivity|]. split; [exact Hcap|exact Hout].
Defined.
