(* ===== verification/SirclContracts.v ===== *)
(** * SIRCL: row, bucket and output-slot contracts

    [campaign-2026-08/sircl/upstream/integrations/vllm]: the query-row contract
    ([spark_tp4_query_contract.py]), the row-policy resolver
    ([spark_tp4_query_row_provider.py]), the CUDA-graph bucket contract
    ([spark_cudagraph_bucket_contract.py]) and the persistent output ring
    ([spark_persistent_output_ring.py]).  The process environment is a function
    from names to ASCII text; a row provider is a module outside this
    repository and so a parameter. *)
From S2P Require Export Prelude PyLib PyDict.

Definition environment : Type := string -> option (list ascii).

(** [environ.get(name, default)]. *)
Definition env_get (environ : environment) (name : string) (default_text : list ascii) : list ascii :=
  default default_text (environ name).

(** A Python value that should be an integer: [bool] is not accepted as one. *)
Inductive pyval :=
  | VInt (n : Z)
  | VBool (b : bool)
  | VOther.

Definition int_of_value (v : pyval) : option Z := match v with VInt n => Some n | _ => None end.

(** ** [spark_tp4_query_contract.py] *)
Module QueryContract.

Definition MAX_CONCURRENT_SEQUENCES : Z := 8.
Definition MAX_SPECULATIVE_TOKENS : Z := 4.
Definition ABSOLUTE_MAX_QUERY_ROWS : Z := MAX_CONCURRENT_SEQUENCES * (MAX_SPECULATIVE_TOKENS + 1).
Definition _DEFAULT_MAX_QUERY_ROWS : Z := 6.
Definition _BASE_CAPTURE_BUCKETS : list Z := [1; 2; 3; 4; 5; 6; 8; 10; 12; 16; 20; 24; 32; 40].

(** [MAX_QUERY_ROWS], computed when the module is imported. *)
Definition _configured_max_query_rows (getenv : environment) : result Z :=
  let raw := env_get getenv "VLLM_SPARK_MAX_QUERY_ROWS" (PyStr.str_of _DEFAULT_MAX_QUERY_ROWS) in
  match PyStr.int_of raw with
  | None => Raise ValueError
  | Some value =>
      if negb ((1 <=? value) && (value <=? ABSOLUTE_MAX_QUERY_ROWS)) then Raise ValueError else Ok value
  end.

(** [range(a, b, step)] for a positive step. *)
Definition range_step (a b step : Z) : list Z := (fun i => a + i * step) <$> range 0 ((b - a + step - 1) / step).

Definition capture_buckets (max_query_rows uniform_query_rows : Z) : result (list Z) :=
  if negb ((1 <=? max_query_rows) && (max_query_rows <=? ABSOLUTE_MAX_QUERY_ROWS)) then Raise ValueError
  else if negb ((1 <=? uniform_query_rows) && (uniform_query_rows <=? max_query_rows)) then Raise ValueError
  else
    let buckets := List.filter (fun value => value <=? max_query_rows) _BASE_CAPTURE_BUCKETS in
    Ok (sorted_set (buckets ++ [max_query_rows]
                    ++ range_step uniform_query_rows (max_query_rows + 1) uniform_query_rows)).

Definition capture_sizes (max_num_seqs : pyval) : result (list Z) :=
  match int_of_value max_num_seqs with
  | None => Raise ValueError
  | Some n =>
      if negb ((1 <=? n) && (n <=? MAX_CONCURRENT_SEQUENCES)) then Raise ValueError
      else
        let maximum_q := n * (MAX_SPECULATIVE_TOKENS + 1) in
        if n =? 1 then Ok [1; 3; 5] else capture_buckets maximum_q 5
  end.

Lemma elem_of_range_step a b step x :
  0 < step -> x ∈ range_step a b step <-> a <= x < b /\ exists i, 0 <= i /\ x = a + i * step.
Proof.
  intros Hs. unfold range_step. rewrite list_elem_of_fmap. split.
  - intros (i & -> & [Hi0 Hi]%elem_of_range). split; [|by exists i].
    split; [nia|]. pose proof (Z.div_mod (b - a + step - 1) step ltac:(lia)).
    pose proof (Z.mod_pos_bound (b - a + step - 1) step Hs). nia.
  - intros [[Ha Hb] (i & Hi & ->)]. exists i. split; [done|]. apply elem_of_range. split; [done|].
    apply Z.lt_le_trans with (i + 1); [lia|]. apply Z.div_le_lower_bound; nia.
Qed.

(** Capture sizes: the graph sizes are strictly increasing, end exactly at
    the widest legal step, five rows per sequence, contain the width of a full
    decode step for every number of sequences, and so cover every legal width. *)
Theorem capture_sizes_cover n l :
  capture_sizes (VInt n) = Ok l ->
  1 <= n <= 8 /\ StronglySorted Z.lt l /\ Forall (fun b => 1 <= b <= 5 * n) l /\
  (forall k, 1 <= k <= n -> 5 * k ∈ l) /\
  (forall q, 1 <= q <= 5 * n -> exists b, b ∈ l /\ q <= b).
Proof.
  unfold capture_sizes. cbn [int_of_value]. unfold MAX_CONCURRENT_SEQUENCES, MAX_SPECULATIVE_TOKENS.
  destruct (negb _) eqn:En; [done|]. bool_prop. destruct (Z.eqb_spec n 1) as [->|Hn1].
  - intros [= <-]. split_and!; [lia|lia|repeat constructor| | |].
    + repeat constructor; lia.
    + intros k Hk. assert (k = 1) as -> by lia. do 2 right. left.
    + intros q Hq. exists 5. split; [do 2 right; left|lia].
  - unfold capture_buckets, ABSOLUTE_MAX_QUERY_ROWS, MAX_CONCURRENT_SEQUENCES, MAX_SPECULATIVE_TOKENS.
    destruct (negb _) eqn:E1; [done|]. bool_prop. destruct (negb _) eqn:E2 in |- *; [done|].
    set (base := List.filter _ _BASE_CAPTURE_BUCKETS). intros [= <-].
    assert (Hmul : forall k, 1 <= k <= n -> 5 * k ∈ range_step 5 (n * (4 + 1) + 1) 5).
    { intros k Hk. apply elem_of_range_step; [lia|]. split; [lia|]. exists (k - 1). lia. }
    split_and!; [lia|lia|apply sorted_set_sorted| | |].
    + apply Forall_forall. intros b Hb. rewrite elem_of_sorted_set in Hb.
      apply elem_of_app in Hb as [Hb|[->|Hb]%elem_of_cons].
      * unfold base in Hb. apply elem_of_lfilter in Hb as [Hb Hle]. bool_prop.
        assert (Hpos : Forall (fun b => 1 <= b) _BASE_CAPTURE_BUCKETS) by (repeat constructor; lia).
        rewrite Forall_forall in Hpos. specialize (Hpos _ Hb). simpl in Hpos. lia.
      * lia.
      * apply elem_of_range_step in Hb as [Hb _]; lia.
    + intros k Hk. rewrite elem_of_sorted_set. apply elem_of_app. right. right. by apply Hmul.
    + intros q Hq. exists (n * (4 + 1)). split; [|lia]. rewrite elem_of_sorted_set. apply elem_of_app. right. left.
Qed.

Lemma capture_sizes_cover_witness :
  capture_sizes (VInt 3) = Ok [1; 2; 3; 4; 5; 6; 8; 10; 12; 15] /\ 10 ∈ [1; 2; 3; 4; 5; 6; 8; 10; 12; 15].
Proof.
  split; [vm_compute; reflexivity|].
  refine (proj1 (proj2 (proj2 (proj2 (capture_sizes_cover 3 _ _)))) 2 _); [vm_compute; reflexivity|lia].
Defined.

End QueryContract.

(** ** [spark_tp4_query_row_provider.py] *)
Module RowProvider.

Definition PROVIDER_ENV : string := "VLLM_SPARK_TP4_QUERY_ROW_PROVIDER".
Definition _PREFILL_Q512_ENV : string := "VLLM_SPARK_TP4_PREFILL_Q512".
Definition MAX_PROVIDER_QUERY_ROW : Z := 512.
Definition _PREFILL_Q512_ROWS : list Z := range 1 513.

(** What importing a provider module gives; a provider returns the rows it
    admits or something that is not iterable. *)
Inductive import :=
  | NotImportable
  | NoInterface
  | Interface (provider_query_rows : environment -> option (list pyval)).

(** The modules that can be imported, and [MAX_QUERY_ROWS] of this process. *)
Class Provider := {
  import_module : list ascii -> import;
  MAX_QUERY_ROWS : Z
}.

Section Provider.
Context `{Provider}.

Definition is_zero_one (value : list ascii) : bool :=
  bool_decide (value = PyStr.text "0") || bool_decide (value = PyStr.text "1").

Definition _prefill_q512 (environ : environment) : result bool :=
  let value := env_get environ _PREFILL_Q512_ENV (PyStr.text "0") in
  let* _ := require (is_zero_one value) ValueError in
  Ok (bool_decide (value = PyStr.text "1")).

Definition provider_module_name (environ : environment) : option (list ascii) :=
  match PyStr.strip (env_get environ PROVIDER_ENV []) with [] => None | name => Some name end.

Definition valid_row (row : pyval) : result Z :=
  match int_of_value row with
  | None => Raise ValueError
  | Some n => if (1 <=? n) && (n <=? MAX_PROVIDER_QUERY_ROW) then Ok n else Raise ValueError
  end.

Definition _validated_rows (rows : option (list pyval)) : result (list Z) :=
  match rows with
  | None => Raise ValueError
  | Some candidates =>
      let* _ := require (negb (Nat.eqb (length candidates) 0)) ValueError in
      let* values := rmap valid_row candidates in
      let* _ := require (Nat.eqb (length (sorted_set values)) (length values)) ValueError in
      Ok (PyList.sortedZ values)
  end.

Definition _provider_rows (module_name : list ascii) (environ : environment) : result (list Z) :=
  match import_module module_name with
  | NotImportable => Raise ValueError
  | NoInterface => Raise ValueError
  | Interface provider_query_rows => _validated_rows (provider_query_rows environ)
  end.

(** The key of [_ambient_cache] without its constant third part. *)
Notation cache_key := (option (list ascii) * bool)%type.
Definition ambient_cache : Type := list (cache_key * list Z).

Fixpoint cache_get (cache : ambient_cache) (key : cache_key) : option (list Z) :=
  match cache with
  | [] => None
  | (k, rows) :: cache => if bool_decide (k = key) then Some rows else cache_get cache key
  end.

(** The rows of an explicit environment. *)
Definition fresh_rows (q512 : bool) (module_name : option (list ascii)) (environ : environment) : result (list Z) :=
  if q512 then Ok _PREFILL_Q512_ROWS
  else match module_name with
       | Some name => _provider_rows name environ
       | None => Ok (range 1 (MAX_QUERY_ROWS + 1))
       end.

(** [resolve_query_rows(environ)]; [None] is the process environment
    [os_environ], whose resolutions go through the cache. *)
Definition resolve_query_rows (os_environ : environment) (environ : option environment) (cache : ambient_cache)
    : result (list Z) * ambient_cache :=
  let env := default os_environ environ in
  match _prefill_q512 env with
  | Raise e => (Raise e, cache)
  | Ok q512 =>
      let module_name := provider_module_name env in
      if q512 && bool_decide (module_name <> None) then (Raise ValueError, cache)
      else
        let key := (module_name, q512) in
        match (if environ then None else cache_get cache key) with
        | Some rows => (Ok rows, cache)
        | None =>
            match fresh_rows q512 module_name env with
            | Raise e => (Raise e, cache)
            | Ok rows => (Ok rows, if environ then cache else (key, rows) :: cache)
            end
        end
  end.

(** For an explicit environment: no cache involved. *)
Definition query_rows (environ : environment) : result (list Z) :=
  fst (resolve_query_rows environ (Some environ) []).

Definition maximum_query_rows (environ : environment) : result Z :=
  let* rows := query_rows environ in
  match rows with [] => Raise IndexError | _ => Ok (List.last rows 0) end.

(** What the cache may hold: the fresh answer of the process environment. *)
Definition cache_ok (os_environ : environment) (cache : ambient_cache) : Prop :=
  forall key rows, cache_get cache key = Some rows ->
    _prefill_q512 os_environ = Ok (snd key) -> provider_module_name os_environ = fst key ->
    query_rows os_environ = Ok rows.

Lemma resolve_explicit os_environ environ cache :
  fst (resolve_query_rows os_environ (Some environ) cache) = query_rows environ /\
  snd (resolve_query_rows os_environ (Some environ) cache) = cache.
Proof.
  unfold query_rows, resolve_query_rows. simpl. destruct (_prefill_q512 environ) as [q|]; [|done].
  destruct (_ && _); [done|]. by destruct (fresh_rows _ _ _).
Qed.

(** Row cache: the cache of the process environment is transparent: with a
    cache that earlier calls filled, a call for the process environment or for
    an explicit one gives exactly the uncached answer, and the cache stays
    correct. *)
Theorem row_cache_transparent os_environ environ cache :
  cache_ok os_environ cache ->
  fst (resolve_query_rows os_environ environ cache) = query_rows (default os_environ environ) /\
  cache_ok os_environ (snd (resolve_query_rows os_environ environ cache)).
Proof.
  intros Hok. destruct environ as [environ|]; cbn [default from_option id].
  { by destruct (resolve_explicit os_environ environ cache) as [-> ->]. }
  unfold resolve_query_rows at 1 2. simpl. unfold query_rows at 1. unfold resolve_query_rows. simpl.
  destruct (_prefill_q512 os_environ) as [q|] eqn:Eq; [|done].
  destruct (_ && _) eqn:Econf; [done|].
  set (key := (provider_module_name os_environ, q)) in *.
  destruct (cache_get cache key) as [rows|] eqn:Eget; simpl.
  - pose proof (Hok key rows Eget Eq eq_refl) as Hrows. unfold query_rows, resolve_query_rows in Hrows. simpl in Hrows.
    rewrite Eq, Econf in Hrows. by rewrite Hrows.
  - destruct (fresh_rows q (provider_module_name os_environ) os_environ) as [rows|] eqn:Ef; simpl; [|done].
    split; [done|]. intros k rs. cbn [cache_get]. destruct (bool_decide_reflect (key = k)) as [<-|]; [|exact (Hok k rs)].
    intros [= <-] _ _. unfold query_rows, resolve_query_rows. simpl. by rewrite Eq, Econf, Ef.
Qed.

Lemma range_rows_valid a b : 1 <= a -> a < b <= 513 ->
  StronglySorted Z.lt (range a b) /\ Forall (fun r => 1 <= r <= 512) (range a b) /\ range a b <> [].
Proof.
  intros Ha Hb. split_and!.
  - apply PyList.range_sorted.
  - apply Forall_forall. intros x Hx. apply elem_of_range in Hx. simpl. lia.
  - intros Hnil. assert (Hx : a ∈ range a b) by (apply elem_of_range; lia). rewrite Hnil in Hx. by apply elem_of_nil in Hx.
Qed.

Lemma validated_rows_valid rows l : _validated_rows rows = Ok l ->
  StronglySorted Z.lt l /\ Forall (fun r => 1 <= r <= 512) l /\ l <> [].
Proof.
  unfold _validated_rows. destruct rows as [candidates|]; [|done]. intros (u & Hne & Hrun)%rbind_ok.
  apply rbind_ok in Hrun as (values & Hv & Hrun). apply rbind_ok in Hrun as (u' & Hd & Hrun). injection Hrun as <-.
  apply require_ok, negb_true_iff, Nat.eqb_neq in Hne. apply require_ok, Nat.eqb_eq in Hd.
  apply PyList.length_sorted_set in Hd. apply rmap_ok in Hv.
  pose proof (PyList.sort_by_perm Z.ltb values) as Hp. fold (PyList.sortedZ values) in Hp. split_and!.
  - apply PyList.le_nodup_lt; [apply PyList.sortedZ_ordered|]. by rewrite Hp.
  - rewrite Hp. clear -Hv. induction Hv as [|row n rows ns Hr _ IH]; constructor; [|done].
    unfold valid_row in Hr. destruct (int_of_value row) as [k|]; [|done].
    destruct ((1 <=? k) && (k <=? MAX_PROVIDER_QUERY_ROW)) eqn:E; [|done]. injection Hr as <-.
    unfold MAX_PROVIDER_QUERY_ROW in E. bool_prop. simpl. lia.
  - intros Hnil. rewrite Hnil in Hp. apply Permutation_nil in Hp. subst values.
    apply Forall2_length in Hv. simpl in Hv. lia.
Qed.

(** Admitted rows: whatever the source, the admitted rows are a non-empty
    strictly increasing list within the slots of the port plan, whose last
    element is the reported maximum, if the process admits between 1 and 512
    rows by itself. *)
Theorem admitted_rows_valid environ rows :
  1 <= MAX_QUERY_ROWS <= 512 -> query_rows environ = Ok rows ->
  StronglySorted Z.lt rows /\ Forall (fun r => 1 <= r <= 512) rows /\
  exists r, r ∈ rows /\ maximum_query_rows environ = Ok r /\ Forall (fun r' => r' <= r) rows.
Proof.
  intros Hmax Hrows.
  assert (Hrun : exists q, fresh_rows q (provider_module_name environ) environ = Ok rows).
  { unfold query_rows, resolve_query_rows in Hrows. simpl in Hrows.
    destruct (_prefill_q512 environ) as [q|]; [|done]. destruct (_ && _); [done|].
    exists q. by destruct (fresh_rows _ _ _). }
  assert (Hvalid : StronglySorted Z.lt rows /\ Forall (fun r => 1 <= r <= 512) rows /\ rows <> []).
  { destruct Hrun as [[|] Hrun]; simpl in Hrun.
    - injection Hrun as <-. by apply range_rows_valid.
    - destruct (provider_module_name environ) as [name|]; [|injection Hrun as <-; apply range_rows_valid; lia].
      unfold _provider_rows in Hrun. destruct (import_module name); [done|done|]. by eapply validated_rows_valid. }
  destruct Hvalid as (Hs & Hb & Hne). split_and!; [done|done|].
  destruct (exists_last Hne) as (l & r & ->). exists r. split_and!; [set_solver| |].
  - unfold maximum_query_rows. rewrite Hrows. cbn [rbind]. rewrite last_last. by destruct l.
  - apply Forall_forall. intros x [Hx|Hx]%elem_of_app; [|apply list_elem_of_singleton in Hx as ->; simpl; lia].
    assert (x < r); [|simpl; lia]. apply (StronglySorted_app_1_elem_of _ _ _ x r Hs Hx). left.
Qed.

End Provider.

(** A provider that admits two widths, and an environment that names it. *)
Definition example_provider : Provider := {|
  import_module _ := Interface (fun _ => Some [VInt 4; VInt 2]);
  MAX_QUERY_ROWS := 6
|}.
Definition example_environ : environment := fun name =>
  if bool_decide (name = PROVIDER_ENV) then Some (PyStr.text "rows_mod") else None.

Lemma row_cache_transparent_witness :
  let '(r, cache) := @resolve_query_rows example_provider example_environ None [] in
  r = Ok [2; 4] /\ length cache = 1%nat /\
  fst (@resolve_query_rows example_provider example_environ None cache) = Ok [2; 4].
Proof.
  assert (Hok : @cache_ok example_provider example_environ []) by done.
  destruct (@row_cache_transparent example_provider example_environ None [] Hok) as [H0 Hc].
  destruct (@resolve_query_rows example_provider example_environ None []) as [r cache] eqn:E.
  simpl in H0, Hc. split; [rewrite H0; vm_compute; reflexivity|]. split; [vm_compute in E; injection E as _ <-; reflexivity|].
  destruct (@row_cache_transparent example_provider example_environ None cache Hc) as [-> _]. vm_compute. reflexivity.
Defined.

Lemma admitted_rows_valid_witness :
  @query_rows example_provider example_environ = Ok [2; 4] /\ StronglySorted Z.lt [2; 4].
Proof.
  split; [vm_compute; reflexivity|].
  refine (proj1 (@admitted_rows_valid example_provider example_environ [2; 4] _ _)); [simpl; lia|vm_compute; reflexivity].
Defined.

End RowProvider.

(** ** [spark_cudagraph_bucket_contract.py] *)
Module BucketContract.

Definition DECODE_CAPTURE_ENV : string := "VLLM_SPARK_DECODE_CAPTURE_SIZES".
Definition FULL_DECODE_CAPTURE_ENV : string := "VLLM_SPARK_FULL_DECODE_CAPTURE_SIZES".
Definition PREFILL_PIECEWISE_CAPTURE_ENV : string := "VLLM_SPARK_PREFILL_PIECEWISE_CAPTURE_SIZES".
Definition COMBINED_CAPTURE_ENV : string := "VLLM_SPARK_GRAPH_CAPTURE_SIZES".

Definition MAX_FULL_DECODE_QUERY_ROWS : Z := 40.
Definition MAX_PREFILL_PIECEWISE_QUERY_ROWS : Z := 512.
Definition MAX_PREFILL_BUCKET_COUNT : Z := 16.
Definition MAX_OBSERVED_PREFILL_PADDING_ROWS : Z := 32.

Definition DECODE_CAPTURE_BUCKETS : list Z :=
  [1; 2; 3; 4; 5; 6; 8; 10; 12; 15; 16; 20; 24; 25; 30; 32; 35; 40].
Definition FULL_SPECULATIVE_DECODE_BUCKETS : list Z :=
  QueryContract.range_step 5 (MAX_FULL_DECODE_QUERY_ROWS + 1) 5.
Definition OBSERVED_PREFILL_QUERY_ROWS : list Z := [48; 69; 72; 143; 210; 279; 348; 417; 486].
Definition DEFAULT_PREFILL_PIECEWISE_BUCKETS : list Z := [48; 72; 144; 224; 288; 352; 432; 512].

Record CUDAGraphBucketContract := mkContract {
  decode : list Z;
  full_speculative_decode : list Z;
  prefill_piecewise : list Z;
  combined : list Z
}.

(** The elements are integers here: [parse_bucket_csv] makes no others. *)
Definition _strict_ordered_buckets (values : list Z) : result (list Z) :=
  if bool_decide (values = []) || negb (bool_decide (sorted_set values = values))
  then Raise ValueError else Ok values.

Definition validate_full_speculative_decode_buckets (buckets : list Z) : result (list Z) :=
  let* values := _strict_ordered_buckets buckets in
  if negb (bool_decide (values = FULL_SPECULATIVE_DECODE_BUCKETS)) then Raise ValueError else Ok values.

(** The plan, in the order of the observed rows. *)
Definition prefill_padding_plan (values : list Z) : result (list (Z * Z)) :=
  rmap (fun query_rows =>
    match List.find (fun bucket => query_rows <=? bucket) values with
    | None => Raise ValueError
    | Some padded => Ok (query_rows, padded)
    end) OBSERVED_PREFILL_QUERY_ROWS.

Definition maximum_observed_padding (buckets : list Z) : result Z :=
  let* plan := prefill_padding_plan buckets in
  match map (fun p => snd p - fst p) plan with
  | [] => Raise ValueError
  | d :: ds => Ok (fold_left Z.max ds d)
  end.

Definition validate_prefill_piecewise_buckets (buckets : list Z) : result (list Z) :=
  let* values := _strict_ordered_buckets buckets in
  let* _ := require (negb (MAX_PREFILL_BUCKET_COUNT <? Z.of_nat (length values))) ValueError in
  let* _ := require (negb (hd 0 values <=? MAX_FULL_DECODE_QUERY_ROWS)) ValueError in
  let* _ := require (List.last values 0 =? MAX_PREFILL_PIECEWISE_QUERY_ROWS) ValueError in
  let* _ := require (negb (existsb (fun value => MAX_PREFILL_PIECEWISE_QUERY_ROWS <? value) values)) ValueError in
  let* padding := maximum_observed_padding values in
  let* _ := require (negb (MAX_OBSERVED_PREFILL_PADDING_ROWS <? padding)) ValueError in
  Ok values.

Definition combined_capture_buckets (prefill_piecewise : list Z) : result (list Z) :=
  let* prefill := validate_prefill_piecewise_buckets prefill_piecewise in
  Ok (DECODE_CAPTURE_BUCKETS ++ prefill).

Definition format_buckets (buckets : list Z) : list ascii := PyStr.join "," (map PyStr.str_of buckets).

Definition parse_bucket_csv (raw : option (list ascii)) : result (list Z) :=
  match raw with
  | None | Some [] => Raise ValueError
  | Some raw =>
      match mapM PyStr.int_of (PyStr.split "," raw) with
      | None => Raise ValueError
      | Some values => if negb (bool_decide (format_buckets values = raw)) then Raise ValueError else Ok values
      end
  end.

Definition contract_from_environment (env : environment) : result CUDAGraphBucketContract :=
  let* decode := parse_bucket_csv (env DECODE_CAPTURE_ENV) in
  let* _ := require (bool_decide (decode = DECODE_CAPTURE_BUCKETS)) ValueError in
  let* full := parse_bucket_csv (env FULL_DECODE_CAPTURE_ENV) in
  let* full := validate_full_speculative_decode_buckets full in
  let* prefill := parse_bucket_csv (env PREFILL_PIECEWISE_CAPTURE_ENV) in
  let* prefill := validate_prefill_piecewise_buckets prefill in
  let* combined := parse_bucket_csv (env COMBINED_CAPTURE_ENV) in
  let* expected_combined := combined_capture_buckets prefill in
  let* _ := require (bool_decide (combined = expected_combined)) ValueError in
  Ok (mkContract decode full prefill combined).

(** ** Text *)

Lemma mapM_int_str l : mapM PyStr.int_of (map PyStr.str_of l) = Some l.
Proof. induction l as [|n l IH]; simpl; [done|]. by rewrite PyStr.int_of_str_of, IH. Qed.

Lemma split_format l : l <> [] -> PyStr.split "," (format_buckets l) = map PyStr.str_of l.
Proof.
  intros Hne. unfold format_buckets. apply PyStr.split_join; [by intros ?%map_eq_nil|].
  apply Forall_forall. intros t Ht. apply list_elem_of_fmap in Ht as (n & -> & _). apply PyStr.comma_not_in_str.
Qed.

(** Bucket text: exactly the canonical text of a non-empty list of
    integers is accepted, and it is read back as that list: parsing and printing
    are inverse to each other, and every other text is refused. *)
Theorem bucket_csv_roundtrip raw l :
  parse_bucket_csv raw = Ok l <-> raw = Some (format_buckets l) /\ l <> [].
Proof.
  assert (Hne : forall l, l <> [] -> format_buckets l <> []).
  { intros k Hk Hnil. pose proof (split_format k Hk) as Hs. rewrite Hnil in Hs. simpl in Hs.
    destruct k as [|n k]; [done|]. injection Hs as Hn _. pose proof (PyStr.int_of_str_of n) as Hi.
    rewrite <-Hn in Hi. vm_compute in Hi. discriminate. }
  split.
  - destruct raw as [[|c raw]|]; simpl; [done| |done].
    destruct (mapM _ _) as [values|] eqn:Em; [|done]. case_bool_decide as Ef; [|done]. intros [= <-]. split; [by rewrite Ef|].
    by intros ->.
  - intros [-> Hl]. unfold parse_bucket_csv. pose proof (split_format l Hl) as Hs. pose proof (Hne l Hl) as Hf.
    destruct (format_buckets l) as [|c t] eqn:E; [done|]. rewrite Hs, mapM_int_str, E. by rewrite bool_decide_eq_true_2.
Qed.

(** ** What the contract accepts *)

(** The prefill buckets a launch may configure. *)
Record valid_prefill (l : list Z) : Prop := {
  vp_sorted : StronglySorted Z.lt l;
  vp_count : Z.of_nat (length l) <= 16;
  vp_range : Forall (fun b => 40 < b <= 512) l;
  vp_last : List.last l 0 = 512;
  vp_padding : forall q, q ∈ OBSERVED_PREFILL_QUERY_ROWS -> exists b, b ∈ l /\ q <= b <= q + 32
}.

Lemma strict_ordered_ok l v : _strict_ordered_buckets l = Ok v <-> v = l /\ l <> [] /\ StronglySorted Z.lt l.
Proof.
  unfold _strict_ordered_buckets. case_bool_decide as E1; simpl; [naive_solver|]. case_bool_decide as E2; simpl.
  - split; [intros [= <-]|naive_solver]. split_and!; [done|done|]. rewrite <-E2. apply sorted_set_sorted.
  - split; [done|]. intros (_ & _ & Hs). by apply sorted_set_id in Hs.
Qed.

Lemma find_sorted_padding q (l : list Z) : StronglySorted Z.lt l ->
  (exists b, List.find (fun b => q <=? b) l = Some b /\ b - q <= 32) <-> exists b, b ∈ l /\ q <= b <= q + 32.
Proof.
  intros Hs. split.
  - intros (b & Hf & Hb). apply List.find_some in Hf as [Hin Hle%Z.leb_le]. exists b. split; [by apply list_elem_of_In|lia].
  - intros (b & Hb & Hq). induction Hs as [|x l Hs IH Hx]; [by apply elem_of_nil in Hb|]. simpl.
    destruct (Z.leb_spec q x).
    + exists x. split; [done|]. apply elem_of_cons in Hb as [->|Hb]; [lia|].
      rewrite Forall_forall in Hx. specialize (Hx b Hb). simpl in Hx. lia.
    + apply IH. apply elem_of_cons in Hb as [->|Hb]; [lia|done].
Qed.

Lemma fold_max_le ds d n : fold_left Z.max ds d <= n <-> d <= n /\ Forall (fun x => x <= n) ds.
Proof.
  revert d. induction ds as [|x ds IH]; intros d; simpl; [by split; [|intros [? _]]|].
  rewrite IH, Forall_cons. rewrite Z.max_lub_iff. tauto.
Qed.

Lemma padding_ok (l : list Z) : StronglySorted Z.lt l ->
  (exists p, maximum_observed_padding l = Ok p /\ p <= 32) <->
  forall q, q ∈ OBSERVED_PREFILL_QUERY_ROWS -> exists b, b ∈ l /\ q <= b <= q + 32.
Proof.
  intros Hs. setoid_rewrite <-(fun q => find_sorted_padding q l Hs).
  unfold maximum_observed_padding, prefill_padding_plan. split.
  - intros (p & Hp & Hle). apply rbind_ok in Hp as (plan & Hplan & Hp). apply rmap_ok in Hplan.
    assert (Hall : Forall (fun x => snd x - fst x <= 32) plan).
    { destruct plan as [|x plan]; [constructor|]. simpl in Hp. injection Hp as <-.
      apply fold_max_le in Hle as [Hx Hxs]. constructor; [done|]. by rewrite List.Forall_map in Hxs. }
    intros q Hq. apply list_elem_of_lookup in Hq as [i Hi].
    destruct (Forall2_lookup_l _ _ _ _ _ Hplan Hi) as (x & Hx & Hf).
    destruct (List.find _ l) as [b|]; [|done]. injection Hf as <-. exists b. split; [done|].
    apply (Forall_lookup_1 _ _ _ _ Hall Hx).
  - intros Hall. assert (Hplan : exists plan, rmap (fun query_rows =>
      match List.find (fun bucket => query_rows <=? bucket) l with
      | None => Raise ValueError
      | Some padded => Ok (query_rows, padded)
      end) OBSERVED_PREFILL_QUERY_ROWS = Ok plan /\ Forall (fun x => snd x - fst x <= 32) plan /\
      length plan = length OBSERVED_PREFILL_QUERY_ROWS).
    { revert Hall. generalize OBSERVED_PREFILL_QUERY_ROWS. induction l0 as [|q qs IH]; intros Hall; simpl.
      - exists []. split_and!; [done|constructor|done].
      - destruct (Hall q) as (b & -> & Hb); [left|]. destruct IH as (plan & -> & Hp & Hlen); [intros; apply Hall; by right|].
        exists ((q, b) :: plan). split_and!; [done|by constructor|simpl; by rewrite Hlen]. }
    destruct Hplan as (plan & -> & Hp & Hlen). cbn [rbind]. destruct plan as [|x plan]; [done|]. simpl.
    eexists. split; [done|]. apply fold_max_le. apply Forall_cons in Hp as [Hx Hp]. split; [done|]. by rewrite List.Forall_map.
Qed.

Lemma last_in_range (l : list Z) : l <> [] -> List.last l 0 = 512 -> StronglySorted Z.lt l -> Forall (fun b => b <= 512) l.
Proof.
  intros Hne Hl Hs. destruct (exists_last Hne) as (k & x & ->). rewrite last_last in Hl. subst x.
  apply Forall_forall. intros b [Hb|Hb]%elem_of_app; [|apply list_elem_of_singleton in Hb; simpl; lia].
  assert (b < 512); [|simpl; lia]. apply (StronglySorted_app_1_elem_of _ _ _ b 512 Hs Hb). left.
Qed.

Lemma validate_prefill_ok l v : validate_prefill_piecewise_buckets l = Ok v <-> v = l /\ valid_prefill l.
Proof.
  unfold validate_prefill_piecewise_buckets, MAX_PREFILL_BUCKET_COUNT, MAX_FULL_DECODE_QUERY_ROWS,
    MAX_PREFILL_PIECEWISE_QUERY_ROWS, MAX_OBSERVED_PREFILL_PADDING_ROWS. split.
  - intros (w & (-> & Hne & Hs)%strict_ordered_ok & Hrun)%rbind_ok.
    apply rbind_ok in Hrun as ([] & Hc%require_ok & Hrun). apply rbind_ok in Hrun as ([] & Hh%require_ok & Hrun).
    apply rbind_ok in Hrun as ([] & Hl%require_ok & Hrun). apply rbind_ok in Hrun as ([] & Hm%require_ok & Hrun).
    apply rbind_ok in Hrun as (p & Hp & Hrun). apply rbind_ok in Hrun as ([] & Hle%require_ok & Hrun). injection Hrun as <-.
    split; [done|]. bool_prop. pose proof (last_in_range l Hne ltac:(done) Hs) as Hup.
    constructor; try done.
    + destruct l as [|x l]; [done|]. inversion Hs as [|? ? _ Hx]; subst. simpl in *. apply Forall_forall. intros b Hb.
      rewrite Forall_forall in Hup. specialize (Hup b Hb). simpl in Hup. split; [|done].
      apply elem_of_cons in Hb as [->|Hb]; [lia|]. rewrite Forall_forall in Hx. specialize (Hx b Hb). simpl in Hx. lia.
    + apply padding_ok; [done|]. exists p. split; [done|lia].
  - intros [-> [Hs Hc Hr Hl Hp]]. assert (Hne : l <> []) by by intros ->.
    rewrite (proj2 (strict_ordered_ok l l)) by done. cbn [rbind]. unfold require.
    rewrite (proj2 (Z.ltb_ge 16 _)) by done. cbn [negb rbind].
    assert (Hhd : 40 < hd 0 l) by (destruct Hr; [done|simpl; lia]).
    rewrite (proj2 (Z.leb_gt (hd 0 l) 40)) by done. cbn [negb rbind]. rewrite Hl. cbn [Z.eqb rbind].
    replace (existsb _ l) with false.
    2: { symmetry. apply existsb_false. eapply Forall_impl; [exact Hr|]. simpl. lia. }
    cbn [negb rbind]. apply padding_ok in Hp as (p & -> & Hle); [|done]. cbn [rbind].
    by rewrite (proj2 (Z.ltb_ge 32 p)).
Qed.

Lemma full_sorted : StronglySorted Z.lt FULL_SPECULATIVE_DECODE_BUCKETS.
Proof. unfold FULL_SPECULATIVE_DECODE_BUCKETS. vm_compute. by repeat constructor. Qed.

Lemma combined_sorted l : valid_prefill l -> StronglySorted Z.lt (DECODE_CAPTURE_BUCKETS ++ l).
Proof.
  intros [Hs _ Hr _ _]. apply StronglySorted_app_2; [|by repeat constructor|done].
  intros x y Hx Hy. rewrite Forall_forall in Hr. specialize (Hr y Hy). simpl in Hr.
  assert (Hdec : Forall (fun b => b <= 40) DECODE_CAPTURE_BUCKETS) by (repeat constructor; lia).
  rewrite Forall_forall in Hdec. specialize (Hdec x Hx). simpl in Hdec. lia.
Qed.

(** C21 (bucket contract): an environment is accepted exactly when its four
    variables hold the canonical texts of the fixed decode buckets, the fixed
    FULL decode widths, a valid list of prefill buckets (above every decode
    width, ending at 512, at most 32 rows of padding for every observed shape)
    and the decode buckets followed by it; that combined list is increasing. *)
Theorem contract_accepts_exactly env c :
  contract_from_environment env = Ok c <->
  env DECODE_CAPTURE_ENV = Some (format_buckets DECODE_CAPTURE_BUCKETS) /\
  env FULL_DECODE_CAPTURE_ENV = Some (format_buckets FULL_SPECULATIVE_DECODE_BUCKETS) /\
  env PREFILL_PIECEWISE_CAPTURE_ENV = Some (format_buckets (prefill_piecewise c)) /\
  env COMBINED_CAPTURE_ENV = Some (format_buckets (combined c)) /\
  valid_prefill (prefill_piecewise c) /\ decode c = DECODE_CAPTURE_BUCKETS /\
  full_speculative_decode c = FULL_SPECULATIVE_DECODE_BUCKETS /\
  combined c = decode c ++ prefill_piecewise c /\ StronglySorted Z.lt (combined c).
Proof.
  unfold contract_from_environment, validate_full_speculative_decode_buckets, combined_capture_buckets. split.
  - intros (d & [Hd _]%bucket_csv_roundtrip & Hrun)%rbind_ok.
    apply rbind_ok in Hrun as (u & Hdec%require_ok & Hrun). apply bool_decide_eq_true in Hdec as ->.
    apply rbind_ok in Hrun as (f & [Hf _]%bucket_csv_roundtrip & Hrun).
    apply rbind_ok in Hrun as (f' & Hfull & Hrun). apply rbind_ok in Hfull as (f2 & (-> & _ & _)%strict_ordered_ok & Hfull).
    destruct (bool_decide_reflect (f = FULL_SPECULATIVE_DECODE_BUCKETS)) as [->|]; [|done]. injection Hfull as <-.
    apply rbind_ok in Hrun as (p & [Hp _]%bucket_csv_roundtrip & Hrun).
    apply rbind_ok in Hrun as (p' & [-> Hvalid]%validate_prefill_ok & Hrun).
    apply rbind_ok in Hrun as (cb & [Hc _]%bucket_csv_roundtrip & Hrun).
    rewrite (proj2 (validate_prefill_ok p p)) in Hrun by done. cbn [rbind] in Hrun.
    apply rbind_ok in Hrun as (u' & Heq%require_ok & Hrun). apply bool_decide_eq_true in Heq as ->.
    injection Hrun as <-. cbn [decode full_speculative_decode prefill_piecewise combined].
    split_and!; try done. by apply combined_sorted.
  - intros (Hd & Hf & Hp & Hc & Hv & Hdec & Hfull & Hcomb & _). rewrite Hd, Hf, Hp, Hc.
    assert (Hne : prefill_piecewise c <> []) by (destruct Hv; by intros E; rewrite E in *).
    rewrite (proj2 (bucket_csv_roundtrip _ DECODE_CAPTURE_BUCKETS)) by done. cbn [rbind].
    unfold require at 1. rewrite bool_decide_eq_true_2 by done. cbn [rbind].
    rewrite (proj2 (bucket_csv_roundtrip _ FULL_SPECULATIVE_DECODE_BUCKETS)) by done. cbn [rbind].
    rewrite (proj2 (strict_ordered_ok _ FULL_SPECULATIVE_DECODE_BUCKETS)) by (split_and!; [done|done|apply full_sorted]).
    cbn [rbind]. rewrite (bool_decide_eq_true_2 (FULL_SPECULATIVE_DECODE_BUCKETS = _)) by done. cbn [negb rbind].
    rewrite (proj2 (bucket_csv_roundtrip _ (prefill_piecewise c))) by done. cbn [rbind].
    rewrite (proj2 (validate_prefill_ok _ (prefill_piecewise c))) by done. cbn [rbind].
    rewrite (proj2 (bucket_csv_roundtrip _ (combined c))) by (split; [done|by rewrite Hcomb, Hdec]). cbn [rbind].
    rewrite (proj2 (validate_prefill_ok _ (prefill_piecewise c))) by done. cbn [rbind].
    unfold require. rewrite bool_decide_eq_true_2 by (by rewrite Hcomb, Hdec). cbn [rbind].
    destruct c as [d f p cb]. simpl in *. by subst.
Qed.

(** The default buckets are accepted. *)
Definition example_env : environment := fun name =>
  if bool_decide (name = DECODE_CAPTURE_ENV) then Some (format_buckets DECODE_CAPTURE_BUCKETS)
  else if bool_decide (name = FULL_DECODE_CAPTURE_ENV) then Some (format_buckets FULL_SPECULATIVE_DECODE_BUCKETS)
  else if bool_decide (name = PREFILL_PIECEWISE_CAPTURE_ENV) then Some (format_buckets DEFAULT_PREFILL_PIECEWISE_BUCKETS)
  else if bool_decide (name = COMBINED_CAPTURE_ENV)
       then Some (format_buckets (DECODE_CAPTURE_BUCKETS ++ DEFAULT_PREFILL_PIECEWISE_BUCKETS))
  else None.

Example default_contract : contract_from_environment example_env =
  Ok (mkContract DECODE_CAPTURE_BUCKETS FULL_SPECULATIVE_DECODE_BUCKETS DEFAULT_PREFILL_PIECEWISE_BUCKETS
        (DECODE_CAPTURE_BUCKETS ++ DEFAULT_PREFILL_PIECEWISE_BUCKETS)).
Proof. vm_compute. reflexivity. Qed.

End BucketContract.

(** ** [spark_persistent_output_ring.py] *)
Module OutputRing.

Section Ring.
(** Tensors with their dtypes and devices, and what [torch.empty] and [unbind]
    give for a shape: the slots of one allocation. *)
Context {tensor dtype device : Type} `{EqDecision dtype, EqDecision device}.

Record OutputSignature := mkSignature {
  shape : list Z;
  sig_dtype : dtype;
  sig_device : device
}.

#[export] Instance signature_eq_dec : EqDecision OutputSignature.
Proof. solve_decision. Defined.

Context (_signature_for : tensor -> OutputSignature) (empty_unbind : Z -> OutputSignature -> list tensor).

Record PersistentOutputRing := mkRing {
  _slots : Z;
  _signature : option OutputSignature;
  _outputs : list tensor;
  _next : Z;
  _acquires : Z
}.

Definition init (slots : Z) : result PersistentOutputRing :=
  if slots <=? 0 then Raise ValueError else Ok (mkRing slots None [] 0 0).

Definition wraps (r : PersistentOutputRing) : Z := _acquires r / _slots r.

(** The outputs [acquire] uses, allocated by the first call. *)
Definition outputs_for (r : PersistentOutputRing) (signature : OutputSignature)
    : result (OutputSignature * list tensor) :=
  match _signature r with
  | None =>
      let outputs := empty_unbind (_slots r) signature in
      let* _ := require (Z.of_nat (length outputs) =? _slots r) RuntimeError in
      Ok (signature, outputs)
  | Some s => let* _ := require (bool_decide (signature = s)) RuntimeError in Ok (s, _outputs r)
  end.

Definition acquire (r : PersistentOutputRing) (t : tensor) : PersistentOutputRing * result tensor :=
  match outputs_for r (_signature_for t) with
  | Raise e => (r, Raise e)
  | Ok (signature, outputs) =>
      match outputs !! Z.to_nat (_next r) with
      | None => (mkRing (_slots r) (Some signature) outputs (_next r) (_acquires r), Raise IndexError)
      | Some output =>
          (mkRing (_slots r) (Some signature) outputs ((_next r + 1) mod _slots r) (_acquires r + 1), Ok output)
      end
  end.

(** Acquiring for a list of tensors of one signature. *)
Fixpoint acquire_all (r : PersistentOutputRing) (ts : list tensor) : PersistentOutputRing * list (result tensor) :=
  match ts with
  | [] => (r, [])
  | t :: ts => let '(r, x) := acquire r t in let '(r, xs) := acquire_all r ts in (r, x :: xs)
  end.

(** [empty] followed by [unbind] gives as many outputs as slots. *)
Definition unbind_law : Prop := forall slots s, 0 < slots -> Z.of_nat (length (empty_unbind slots s)) = slots.

(** The state after [k] acquires of one signature. *)
Definition ring_after (slots : Z) (s : OutputSignature) (k : Z) (r : PersistentOutputRing) : Prop :=
  _slots r = slots /\ _acquires r = k /\ _next r = k mod slots /\
  (_signature r = None /\ k = 0 \/ _signature r = Some s /\ _outputs r = empty_unbind slots s).

Lemma acquire_step slots s k r t :
  unbind_law -> 0 < slots -> 0 <= k -> ring_after slots s k r -> _signature_for t = s ->
  exists x, empty_unbind slots s !! Z.to_nat (k mod slots) = Some x /\
    snd (acquire r t) = Ok x /\ ring_after slots s (k + 1) (fst (acquire r t)).
Proof.
  intros Hlaw Hpos Hk (Hs & Ha & Hn & Hsig) Ht.
  assert (Hout : outputs_for r (_signature_for t) = Ok (s, empty_unbind slots s)).
  { unfold outputs_for. rewrite Ht. destruct Hsig as [[-> ->]|[-> ->]].
    - rewrite Hs, Hlaw by done. unfold require. by rewrite Z.eqb_refl.
    - unfold require. by rewrite bool_decide_eq_true_2. }
  unfold acquire. rewrite Hout, Hn. pose proof (Z.mod_pos_bound k slots Hpos) as Hb.
  destruct (empty_unbind slots s !! Z.to_nat (k mod slots)) as [x|] eqn:Ex.
  - exists x. split_and!; [done|done|]. unfold ring_after. simpl. rewrite Hs, Ha.
    split_and!; [done|done| |by right]. by rewrite Z.add_mod_idemp_l by lia.
  - apply lookup_ge_None in Ex. pose proof (Hlaw slots s Hpos). lia.
Qed.

Lemma acquire_all_spec slots s k r ts :
  unbind_law -> 0 < slots -> 0 <= k -> ring_after slots s k r -> Forall (fun t => _signature_for t = s) ts ->
  let '(r', xs) := acquire_all r ts in
  ring_after slots s (k + Z.of_nat (length ts)) r' /\ length xs = length ts /\
  forall i x, xs !! i = Some x -> exists o, x = Ok o /\
    empty_unbind slots s !! Z.to_nat ((k + Z.of_nat i) mod slots) = Some o.
Proof.
  intros Hlaw Hpos Hk Hr Hall. revert k r Hk Hr. induction Hall as [|t ts Ht Hall IH]; intros k r Hk Hr; simpl.
  { split_and!; [by rewrite Z.add_0_r|done|]. intros i x Hx. by rewrite lookup_nil in Hx. }
  destruct (acquire_step slots s k r t Hlaw Hpos Hk Hr Ht) as (o & Ho & Hx & Hr').
  destruct (acquire r t) as [r1 x1]. simpl in Hx, Hr'. subst x1.
  specialize (IH (k + 1) r1 ltac:(lia) Hr'). destruct (acquire_all r1 ts) as [r2 xs]. destruct IH as (Hr2 & Hlen & Hxs).
  split_and!; [|simpl; by rewrite Hlen|].
  - replace (k + Z.of_nat (S (length ts))) with (k + 1 + Z.of_nat (length ts)) by lia. done.
  - intros [|i] x; simpl.
    + intros [= <-]. exists o. by rewrite Z.add_0_r.
    + intros Hi. destruct (Hxs i x Hi) as (o' & -> & Ho'). exists o'. split; [done|]. rewrite <-Ho'. f_equal. f_equal. f_equal. lia.
Qed.

(** Output slots: the slots are allocated once and handed out in turn: the
    [k]-th acquire returns slot [k mod slots] of that allocation, the counters
    count the acquires and the completed rounds, and a tensor of another
    signature is refused and changes nothing. *)
Theorem output_ring_cycles slots s r ts :
  unbind_law -> init slots = Ok r -> Forall (fun t => _signature_for t = s) ts ->
  let '(r', xs) := acquire_all r ts in
  _acquires r' = Z.of_nat (length ts) /\ wraps r' = Z.of_nat (length ts) / slots /\
  (forall k x, xs !! k = Some x -> exists o, x = Ok o /\
     empty_unbind slots s !! Z.to_nat (Z.of_nat k mod slots) = Some o) /\
  (forall t, ts <> [] -> _signature_for t <> s -> acquire r' t = (r', Raise RuntimeError)).
Proof.
  intros Hlaw Hinit Hall. unfold init in Hinit. destruct (Z.leb_spec slots 0) as [|Hpos]; [done|]. injection Hinit as <-.
  assert (H0 : ring_after slots s 0 (mkRing slots None [] 0 0)) by (unfold ring_after; simpl; rewrite Z.mod_0_l by lia; split_and!; [done..|by left]).
  pose proof (acquire_all_spec slots s 0 _ ts Hlaw Hpos ltac:(lia) H0 Hall) as Hrun.
  destruct (acquire_all _ ts) as [r' xs]. rewrite Z.add_0_l in Hrun. destruct Hrun as ((Hs & Ha & Hn & Hsig) & _ & Hxs).
  split_and!; [done|unfold wraps; by rewrite Ha, Hs|by intros k x; rewrite <-(Z.add_0_l (Z.of_nat k)); apply Hxs|].
  intros t Hne Ht. destruct Hsig as [[_ Hlen]|[Hsig _]].
  { destruct ts; [done|simpl in Hlen; lia]. }
  unfold acquire, outputs_for. rewrite Hsig. by rewrite bool_decide_eq_false_2.
Qed.

End Ring.

(** Tensors are numbers, slot [i] of an allocation is [i]. *)
Definition example_unbind (slots : Z) (s : @OutputSignature unit unit) : list Z := range 0 slots.
Definition example_signature (t : Z) : @OutputSignature unit unit := mkSignature [t mod 10] tt tt.

Lemma output_ring_cycles_witness :
  acquire_all example_signature example_unbind (mkRing 2 None [] 0 0) [13; 23; 3] =
    (mkRing 2 (Some (mkSignature [3] tt tt)) [0; 1] 1 3, [Ok 0; Ok 1; Ok 0]) /\
  acquire example_signature example_unbind (mkRing 2 (Some (mkSignature [3] tt tt)) [0; 1] 1 3) 4 =
    (mkRing 2 (Some (mkSignature [3] tt tt)) [0; 1] 1 3, Raise RuntimeError).
Proof.
  assert (Hlaw : unbind_law example_unbind).
  { intros slots s Hs. unfold example_unbind, range. rewrite length_seqZ. lia. }
  pose proof (output_ring_cycles example_signature example_unbind 2 (mkSignature [3] tt tt) (mkRing 2 None [] 0 0)
    [13; 23; 3] Hlaw eq_refl ltac:(repeat constructor)) as Hc.
  split; [vm_compute; reflexivity|].
  destruct (acquire_all _ _ _ _) as [r' xs] eqn:E. destruct Hc as (_ & _ & _ & Hc).
  vm_compute in E. injection E as <- _. apply (Hc 4); [discriminate|]. vm_compute. discriminate.
Defined.

End OutputRing.
