(* ===== verification/SirclPorts.v ===== *)
(** * SIRCL: the control-port namespace

    [spark_tp4_port_namespace.py]: which TCP control ports the native sessions
    of one process may bind, derived from the environment before any of them is
    created, and the check that no port is reserved twice. *)
From S2P Require Export SirclContracts.
Import RowProvider.

Section Ports.
Context `{Provider}.

Definition _MIN_CONTROL_PORT : Z := 1.
Definition _MAX_CONTROL_PORT : Z := 65535.

Definition _EAGER_ALLREDUCE_DEFAULT_PORTS : Z * Z := (11000, 11001).
Definition _EAGER_ALLREDUCE_PORT_STRIDE : Z := 2.
Definition _EAGER_ALLREDUCE_PREFILL_MAX_QUERY_ROWS : Z := 512.
Definition _EAGER_ALLREDUCE_DEFAULT_WIDTH_ELEMENTS : Z := 6144.
Definition _GRAPH_ALLREDUCE_DEFAULT_PORTS : Z * Z := (9970, 9971).
Definition _GRAPH_DUAL_PORT_Q40_DEFAULT_PORTS : Z * Z := (9972, 9973).
Definition _EAGER_VOCAB_DEFAULT_PORTS : Z * Z := (9990, 9991).
Definition _GRAPH_VOCAB_DEFAULT_PORTS : Z * Z := (10110, 10111).

Record PortReservation := mkReservation {
  owner : list ascii;
  ports : Z * Z
}.

(** ** Reading the environment *)

Definition _integer (environ : environment) (name : string) (default_value : Z) : result Z :=
  match PyStr.int_of (env_get environ name (PyStr.str_of default_value)) with
  | None => Raise ValueError
  | Some n => Ok n
  end.

Definition _flag (environ : environment) (name : string) : result bool :=
  let value := env_get environ name (PyStr.text "0") in
  let* _ := require (is_zero_one value) ValueError in
  Ok (bool_decide (value = PyStr.text "1")).

(** [str.lower] on ASCII. *)
Definition lower_chr (c : ascii) : ascii :=
  if (65 <=? PyStr.code c) && (PyStr.code c <=? 90) then ascii_of_N (Z.to_N (PyStr.code c + 32)) else c.
Definition lower (s : list ascii) : list ascii := map lower_chr s.

Definition _mode (environ : environment) (name : string) (allowed : list string) : result (list ascii) :=
  let value := lower (env_get environ name []) in
  if negb (bool_decide (value = [])) && negb (bool_decide (value ∈ map PyStr.text allowed))
  then Raise ValueError else Ok value.

Definition valid_port (port : Z) : bool := (_MIN_CONTROL_PORT <=? port) && (port <=? _MAX_CONTROL_PORT).

Definition validate_control_port_pair (ports : Z * Z) : result (Z * Z) :=
  let '(port0, port1) := ports in
  let* _ := require (valid_port port0 && valid_port port1) ValueError in
  let* _ := require (negb (port0 =? port1)) ValueError in
  Ok ports.

Definition _configured_pair (environ : environment) (name0 name1 : string) (defaults : Z * Z) : result (Z * Z) :=
  let* port0 := _integer environ name0 (fst defaults) in
  let* port1 := _integer environ name1 (snd defaults) in
  validate_control_port_pair (port0, port1).

(** ** Payload sizes *)

Definition _extension_maximum_query_rows (environ : environment) : result Z :=
  let* q512 := _flag environ "VLLM_SPARK_TP4_PREFILL_Q512" in
  Ok (if q512 : bool then _EAGER_ALLREDUCE_PREFILL_MAX_QUERY_ROWS else MAX_QUERY_ROWS).

Definition _supported_allreduce_query_rows (environ : environment) : result (list Z) := query_rows environ.

Definition _EAGER_ALLREDUCE_WIDTH_ENV : string := "VLLM_SPARK_TP4_EAGER_WIDTHS".
Definition _EAGER_ALLREDUCE_MAX_WIDTH_ELEMENTS : Z := 1048576.
Definition _EAGER_ALLREDUCE_BF16_BYTES : Z := 2.

(** One round of the loop over the tokens; [widths] is also [seen]. *)
Definition admit_width (widths : list Z) (token : list ascii) : result (list Z) :=
  if bool_decide (token = []) then Raise ValueError
  else match PyStr.int_of token with
       | None => Raise ValueError
       | Some width =>
           if (width <? 1) || (_EAGER_ALLREDUCE_MAX_WIDTH_ELEMENTS <? width) then Raise ValueError
           else if bool_decide (width ∈ widths) then Raise ValueError
           else Ok (widths ++ [width])
       end.

Definition eager_allreduce_admitted_widths (environ : environment) : result (list Z) :=
  match env_get environ _EAGER_ALLREDUCE_WIDTH_ENV [] with
  | [] => Ok [_EAGER_ALLREDUCE_DEFAULT_WIDTH_ELEMENTS]
  | raw =>
      let tokens := map PyStr.strip (PyStr.split "," raw) in
      let* widths := rfold admit_width [] tokens in
      Ok (PyList.sortedZ widths)
  end.

Definition default_bytes_per_row : Z := _EAGER_ALLREDUCE_DEFAULT_WIDTH_ELEMENTS * _EAGER_ALLREDUCE_BF16_BYTES.

(** The sizes one width adds. *)
Definition width_sizes (legacy : list Z) (maximum width : Z) : list Z :=
  if width =? _EAGER_ALLREDUCE_DEFAULT_WIDTH_ELEMENTS then []
  else
    let bytes_per_row := width * _EAGER_ALLREDUCE_BF16_BYTES in
    List.filter (fun size => negb (bool_decide (size ∈ legacy)))
      (map (fun rows => rows * bytes_per_row) (range 1 (maximum + 1))).

(** The legacy sizes (a set; here in the order of the rows) and the sorted
    extension sizes. *)
Definition _eager_allreduce_size_regimes (environ : environment) : result (list Z * list Z) :=
  let* supported := _supported_allreduce_query_rows environ in
  let legacy := map (fun rows => rows * default_bytes_per_row) supported in
  let* maximum := _extension_maximum_query_rows environ in
  let* widths := eager_allreduce_admitted_widths environ in
  Ok (legacy, sorted_set (List.concat (map (width_sizes legacy maximum) widths))).

Definition eager_allreduce_payload_sizes (environ : environment) : result (list Z) :=
  let* regimes := _eager_allreduce_size_regimes environ in
  Ok (sorted_set (fst regimes ++ snd regimes)).

(** [extensions.index(payload)]. *)
Fixpoint index (l : list Z) (x : Z) : option Z :=
  match l with
  | [] => None
  | y :: l => if y =? x then Some 0 else Z.succ <$> index l x
  end.

Definition payload_slot (legacy extensions : list Z) (payload_bytes : Z) : result Z :=
  if bool_decide (payload_bytes ∈ legacy) then Ok (payload_bytes / default_bytes_per_row - 1)
  else match index extensions payload_bytes with
       | Some i => Ok (_EAGER_ALLREDUCE_PREFILL_MAX_QUERY_ROWS + i)
       | None => Raise ValueError
       end.

Definition eager_allreduce_ports_for_payload (payload_bytes : Z) (environ : environment) : result (Z * Z) :=
  let* regimes := _eager_allreduce_size_regimes environ in
  let* slot := payload_slot (fst regimes) (snd regimes) payload_bytes in
  let* base0 := _integer environ "SPARK_TP4_CONTROL_PORT0" (fst _EAGER_ALLREDUCE_DEFAULT_PORTS) in
  let* base1 := _integer environ "SPARK_TP4_CONTROL_PORT1" (snd _EAGER_ALLREDUCE_DEFAULT_PORTS) in
  let offset := slot * _EAGER_ALLREDUCE_PORT_STRIDE in
  validate_control_port_pair (base0 + offset, base1 + offset).

Definition _eager_allreduce_pair (rows : Z) (environ : environment) : result (Z * Z) :=
  let* supported := _supported_allreduce_query_rows environ in
  if bool_decide (rows ∉ supported) then Raise ValueError
  else eager_allreduce_ports_for_payload
         (rows * _EAGER_ALLREDUCE_DEFAULT_WIDTH_ELEMENTS * _EAGER_ALLREDUCE_BF16_BYTES) environ.

Definition _graph_allreduce_pair (environ : environment) : result (Z * Z) :=
  _configured_pair environ "SPARK_TP4_GRAPH_CONTROL_PORT0" "SPARK_TP4_GRAPH_CONTROL_PORT1"
    _GRAPH_ALLREDUCE_DEFAULT_PORTS.

Definition _graph_dual_port_q40_pair (environ : environment) : result (Z * Z) :=
  _configured_pair environ "SPARK_TP4_GRAPH_DUAL_PORT_Q40_CONTROL_PORT0"
    "SPARK_TP4_GRAPH_DUAL_PORT_Q40_CONTROL_PORT1" _GRAPH_DUAL_PORT_Q40_DEFAULT_PORTS.

Definition _eager_vocab_pair (environ : environment) : result (Z * Z) :=
  _configured_pair environ "SPARK_TP4_VOCAB_CONTROL_PORT0" "SPARK_TP4_VOCAB_CONTROL_PORT1"
    _EAGER_VOCAB_DEFAULT_PORTS.

Definition _graph_vocab_pair (environ : environment) : result (Z * Z) :=
  _configured_pair environ "SPARK_TP4_GRAPH_VOCAB_CONTROL_PORT0" "SPARK_TP4_GRAPH_VOCAB_CONTROL_PORT1"
    _GRAPH_VOCAB_DEFAULT_PORTS.

(** ** Reservations *)

Definition reserve (owner : list ascii) (pair : result (Z * Z)) : result PortReservation :=
  let* p := pair in Ok (mkReservation owner p).

Definition is_mode (value : list ascii) (name : string) : bool := bool_decide (value = PyStr.text name).

Definition eager_reservations (environ : environment) : result (list PortReservation) :=
  let* rows := _supported_allreduce_query_rows environ in
  let* legacy := rmap (fun q => reserve (PyStr.text "eager_allreduce:q=" ++ PyStr.str_of q)
                                  (_eager_allreduce_pair q environ)) rows in
  let* regimes := _eager_allreduce_size_regimes environ in
  let* extensions := rmap (fun payload => reserve (PyStr.text "eager_allreduce:payload=" ++ PyStr.str_of payload)
                             (eager_allreduce_ports_for_payload payload environ)) (snd regimes) in
  Ok (legacy ++ extensions).

(** The graph families, reserved in custom mode with the graph flag on. *)
Definition graph_reservations (environ : environment) (custom : bool) : result (list PortReservation) :=
  if negb custom then Ok []
  else
    let* graph := _flag environ "VLLM_SPARK_TP4_GRAPH_Q1" in
    if negb graph then Ok []
    else
      let* r := reserve (PyStr.text "graph_allreduce") (_graph_allreduce_pair environ) in
      let* dual := _flag environ "VLLM_SPARK_TP4_GRAPH_DUAL_PORT_Q40" in
      if negb dual then Ok [r]
      else let* d := reserve (PyStr.text "graph_dual_port_q40_allreduce") (_graph_dual_port_q40_pair environ) in
           Ok [r; d].

Definition vocab_reservations (environ : environment) (vocab_mode : list ascii) : result (list PortReservation) :=
  if bool_decide (vocab_mode = []) then Ok []
  else
    let* e := reserve (PyStr.text "eager_vocab") (_eager_vocab_pair environ) in
    let* graph := if is_mode vocab_mode "custom" then _flag environ "VLLM_SPARK_TP4_GRAPH_Q1" else Ok false in
    if negb graph then Ok [e]
    else let* g := reserve (PyStr.text "graph_vocab") (_graph_vocab_pair environ) in Ok [e; g].

Definition allreduce_reservations (environ : environment) (allreduce_mode : list ascii)
    : result (list PortReservation) :=
  if is_mode allreduce_mode "custom" || is_mode allreduce_mode "shadow" then
    let* eager := eager_reservations environ in
    let* graph := graph_reservations environ (is_mode allreduce_mode "custom") in
    Ok (eager ++ graph)
  else Ok [].

Definition active_port_reservations (environ : environment) : result (list PortReservation) :=
  let* allreduce_mode := _mode environ "VLLM_SPARK_TP4_MODE" ["custom"; "disabled"; "shadow"] in
  let* allreduce := allreduce_reservations environ allreduce_mode in
  let* vocab_mode := _mode environ "VLLM_SPARK_TP4_VOCAB_MODE" ["custom"; "shadow"] in
  let* vocab := vocab_reservations environ vocab_mode in
  Ok (allreduce ++ vocab).

(** [owners_by_port] after one reservation has been validated. *)
Definition add_owner (owners_by_port : gmap Z (list (list ascii))) (r : PortReservation)
    : result (gmap Z (list (list ascii))) :=
  let* p := validate_control_port_pair (ports r) in
  Ok (push (snd p) (owner r) (push (fst p) (owner r) owners_by_port)).

Definition validate_active_port_namespace (environ : environment) : result (list PortReservation) :=
  let* reservations := active_port_reservations environ in
  let* owners_by_port := rfold add_owner ∅ reservations in
  let collisions := List.filter (fun e => Nat.ltb 1 (length (snd e))) (map_to_list owners_by_port) in
  let* _ := require (bool_decide (length collisions = 0%nat)) ValueError in
  Ok reservations.

(** ** What the adapters ask for *)

Definition checked (environ : environment) (pair : result (Z * Z)) : result (Z * Z) :=
  let* p := pair in
  let* _ := validate_active_port_namespace environ in
  Ok p.

Definition eager_allreduce_control_ports (rows : Z) (environ : environment) : result (Z * Z) :=
  checked environ (_eager_allreduce_pair rows environ).
Definition graph_allreduce_control_ports (environ : environment) : result (Z * Z) :=
  checked environ (_graph_allreduce_pair environ).
Definition graph_dual_port_q40_control_ports (environ : environment) : result (Z * Z) :=
  checked environ (_graph_dual_port_q40_pair environ).
Definition eager_vocab_control_ports (environ : environment) : result (Z * Z) :=
  checked environ (_eager_vocab_pair environ).
Definition graph_vocab_control_ports (environ : environment) : result (Z * Z) :=
  checked environ (_graph_vocab_pair environ).

(** ** Collisions *)

Definition pair_ports (p : Z * Z) : list Z := [fst p; snd p].
Definition all_ports (rs : list PortReservation) : list Z := List.concat (map (fun r => pair_ports (ports r)) rs).

Lemma validate_pair_ok p q : validate_control_port_pair p = Ok q <->
  q = p /\ 1 <= fst p <= 65535 /\ 1 <= snd p <= 65535 /\ fst p <> snd p.
Proof.
  destruct p as [p0 p1]. unfold validate_control_port_pair, valid_port, _MIN_CONTROL_PORT, _MAX_CONTROL_PORT, require. simpl.
  destruct (_ && _) eqn:E1; simpl.
  - bool_prop. destruct (Z.eqb_spec p0 p1); simpl; naive_solver lia.
  - split; [done|]. intros (_ & ? & ? & _). bool_prop. destruct E1 as [E1|E1]; bool_prop; lia.
Qed.

(** The table while the ports [done] have been entered: no port has two owners
    as long as [done] has no duplicate. *)
Definition owners_inv (seen : list Z) (m : gmap Z (list (list ascii))) : Prop :=
  forall p, length (default [] (m !! p)) = length (List.filter (Z.eqb p) seen).

Lemma owners_push seen m p o : owners_inv seen m -> owners_inv (seen ++ [p]) (push p o m).
Proof.
  intros Hinv q. rewrite lookup_push, List.filter_app, length_app, <-Hinv. simpl. case_decide as E.
  - subst q. rewrite Z.eqb_refl. simpl. by rewrite length_app.
  - rewrite (proj2 (Z.eqb_neq q p)) by done. simpl. lia.
Qed.

Lemma add_owners_ok rs : forall seen m, owners_inv seen m ->
  (forall r, r ∈ rs -> validate_control_port_pair (ports r) = Ok (ports r)) ->
  exists m', rfold add_owner m rs = Ok m' /\ owners_inv (seen ++ all_ports rs) m'.
Proof.
  induction rs as [|r rs IH]; intros seen m Hm Hok; simpl.
  { exists m. by rewrite app_nil_r. }
  unfold add_owner at 1. rewrite Hok by left. cbn [rbind].
  destruct (IH ((seen ++ [fst (ports r)]) ++ [snd (ports r)])
    (push (snd (ports r)) (owner r) (push (fst (ports r)) (owner r) m))) as (m' & Hrun & Hm').
  - by do 2 apply owners_push.
  - intros r' Hr'. apply Hok. by right.
  - exists m'. split; [done|]. by rewrite <-!List.app_assoc in Hm'.
Qed.

Lemma add_owners_valid rs m m' : rfold add_owner m rs = Ok m' ->
  forall r, r ∈ rs -> validate_control_port_pair (ports r) = Ok (ports r).
Proof.
  revert m. induction rs as [|r rs IH]; intros m; simpl; [by intros _ r ?%elem_of_nil|].
  intros (m1 & Hone & Hrun)%rbind_ok r' [->|Hr']%elem_of_cons; [|by eapply IH].
  unfold add_owner in Hone. apply rbind_ok in Hone as (p & Hp & _). apply validate_pair_ok in Hp as Hp'.
  destruct Hp' as [-> _]. done.
Qed.

Lemma filter_eqb_nodup (l : list Z) :
  NoDup l <-> forall p, (length (List.filter (Z.eqb p) l) <= 1)%nat.
Proof.
  assert (Hnone : forall l p, p ∉ l <-> length (List.filter (Z.eqb p) l) = 0%nat).
  { clear. intros l p. induction l as [|x l IH]; simpl; [split; [done|by intros _ ?%elem_of_nil]|].
    rewrite not_elem_of_cons, IH. destruct (Z.eqb_spec p x); simpl; [split; [by intros [? _]|done]|].
    split; [by intros [_ ?]|done]. }
  induction l as [|x l IH]; simpl; [split; [intros _ p; simpl; lia|constructor]|].
  rewrite NoDup_cons, IH. split.
  - intros [Hx Hl] p. destruct (Z.eqb_spec p x) as [->|]; simpl; [|apply Hl]. apply Hnone in Hx. lia.
  - intros Hp. split.
    + apply Hnone. specialize (Hp x). rewrite Z.eqb_refl in Hp. simpl in Hp. lia.
    + intros p. specialize (Hp p). destruct (p =? x); simpl in Hp; lia.
Qed.

(** The namespace is accepted exactly when no port is reserved twice. *)
Lemma validate_namespace_ok environ rs :
  validate_active_port_namespace environ = Ok rs <->
  active_port_reservations environ = Ok rs /\ NoDup (all_ports rs) /\
  forall r, r ∈ rs -> validate_control_port_pair (ports r) = Ok (ports r).
Proof.
  unfold validate_active_port_namespace.
  assert (Hcoll : forall rs m, owners_inv (all_ports rs) m ->
    length (List.filter (fun e => Nat.ltb 1 (length (snd e))) (map_to_list m)) = 0%nat <-> NoDup (all_ports rs)).
  { intros ks m Hm. rewrite filter_eqb_nodup. setoid_rewrite <-Hm. split.
    - intros Hnil p. destruct (m !! p) as [l|] eqn:El; simpl; [|lia].
      destruct (Nat.ltb 1 (length l)) eqn:E; [|apply Nat.ltb_ge in E; lia]. exfalso.
      apply length_zero_iff_nil in Hnil. assert (Hin : (p, l) ∈ ([] : list (Z * list (list ascii)))); [|by apply elem_of_nil in Hin].
      rewrite <-Hnil. apply elem_of_lfilter. split; [by apply elem_of_map_to_list|done].
    - intros Hp. apply length_zero_iff_nil. destruct (List.filter _ _) as [|[p l] es] eqn:E; [done|]. exfalso.
      assert (Hin : (p, l) ∈ (p, l) :: es) by left. rewrite <-E in Hin. apply elem_of_lfilter in Hin as [Hin Hlt].
      apply elem_of_map_to_list in Hin. specialize (Hp p). rewrite Hin in Hp. simpl in *. apply Nat.ltb_lt in Hlt. lia. }
  split.
  - intros (rs' & Ha & Hrun)%rbind_ok. apply rbind_ok in Hrun as (m & Hm & Hrun).
    apply rbind_ok in Hrun as (u & Hc%require_ok & [= <-]). pose proof (add_owners_valid _ _ _ Hm) as Hv.
    destruct (add_owners_ok rs' [] ∅) as (m' & Hm' & Hinv); [done|done|]. assert (m' = m) as -> by congruence.
    split_and!; [done| |done]. apply (Hcoll rs' m Hinv). by apply bool_decide_eq_true in Hc.
  - intros (Ha & Hnd & Hv). rewrite Ha. cbn [rbind]. destruct (add_owners_ok rs [] ∅) as (m' & -> & Hinv); [done|done|].
    cbn [rbind]. unfold require. rewrite bool_decide_eq_true_2; [done|]. by apply (Hcoll rs m' Hinv).
Qed.

(** ** Slots *)

Lemma index_spec l x i : index l x = Some i -> l !! Z.to_nat i = Some x /\ 0 <= i.
Proof.
  revert i. induction l as [|y l IH]; intros i; simpl; [done|]. destruct (Z.eqb_spec y x) as [->|].
  - intros [= <-]. done.
  - destruct (index l x) as [j|]; simpl; [|done]. intros [= <-]. destruct (IH j eq_refl) as [Hj Hp].
    split; [|lia]. rewrite Z2Nat.inj_succ by done. done.
Qed.

Lemma index_elem l x : x ∈ l -> exists i, index l x = Some i.
Proof.
  induction l as [|y l IH]; intros Hx; [by apply elem_of_nil in Hx|]. simpl.
  destruct (Z.eqb_spec y x) as [->|]; [by exists 0|]. apply elem_of_cons in Hx as [->|Hx]; [done|].
  destruct (IH Hx) as [i ->]. by eexists.
Qed.

Lemma regimes_ok environ legacy extensions :
  1 <= MAX_QUERY_ROWS <= 512 -> _eager_allreduce_size_regimes environ = Ok (legacy, extensions) ->
  exists rows, query_rows environ = Ok rows /\ legacy = map (fun rows => rows * default_bytes_per_row) rows /\
    Forall (fun r => 1 <= r <= 512) rows /\ forall size, size ∈ extensions -> size ∉ legacy.
Proof.
  intros Hmax. unfold _eager_allreduce_size_regimes, _supported_allreduce_query_rows.
  intros (rows & Hrows & Hrun)%rbind_ok. apply rbind_ok in Hrun as (maximum & _ & Hrun).
  apply rbind_ok in Hrun as (widths & _ & Hrun). injection Hrun as <- <-. exists rows.
  destruct (admitted_rows_valid environ rows Hmax Hrows) as (_ & Hr & _). split_and!; [done|done|done|].
  intros size. rewrite elem_of_sorted_set, list_elem_of_In, in_concat. intros (l & Hl & Hin).
  apply in_map_iff in Hl as (w & <- & _). unfold width_sizes in Hin. destruct (_ =? _); [done|].
  apply List.filter_In in Hin as [_ Hin]. apply negb_true_iff in Hin. by apply bool_decide_eq_false in Hin.
Qed.

(** Distinct payloads have distinct slots; a legacy payload has the slot of its
    row. *)
Lemma payload_slot_spec environ legacy extensions x slot :
  1 <= MAX_QUERY_ROWS <= 512 -> _eager_allreduce_size_regimes environ = Ok (legacy, extensions) ->
  payload_slot legacy extensions x = Ok slot ->
  (0 <= slot < 512 /\ x = (slot + 1) * default_bytes_per_row /\ x ∈ legacy) \/
  (512 <= slot /\ extensions !! Z.to_nat (slot - 512) = Some x /\ x ∉ legacy).
Proof.
  intros Hmax Hreg. destruct (regimes_ok _ _ _ Hmax Hreg) as (rows & _ & Hleg & Hr & _).
  unfold payload_slot, default_bytes_per_row, _EAGER_ALLREDUCE_DEFAULT_WIDTH_ELEMENTS, _EAGER_ALLREDUCE_BF16_BYTES,
    _EAGER_ALLREDUCE_PREFILL_MAX_QUERY_ROWS in *.
  case_bool_decide as Hin.
  - intros [= <-]. left. pose proof Hin as Hin'. rewrite Hleg in Hin. apply list_elem_of_fmap in Hin as (r & -> & Hrow).
    rewrite Forall_forall in Hr. specialize (Hr r Hrow). simpl in Hr. rewrite Z.div_mul by lia. split_and!; (lia || done).
  - destruct (index extensions x) as [i|] eqn:E; [|done]. intros [= <-]. apply index_spec in E as [Hi Hp].
    right. replace (512 + i - 512) with i by lia. split_and!; (lia || done).
Qed.

Definition selected (environ : environment) : Prop :=
  exists md, _mode environ "VLLM_SPARK_TP4_MODE" ["custom"; "disabled"; "shadow"] = Ok md /\
    is_mode md "custom" || is_mode md "shadow" = true.

Lemma rmap_reserve {A} (name : A -> list ascii) (pair : A -> result (Z * Z)) l rs :
  rmap (fun x => reserve (name x) (pair x)) l = Ok rs ->
  forall x, x ∈ l -> exists r, r ∈ rs /\ pair x = Ok (ports r).
Proof.
  intros Hrun%rmap_ok x Hx. apply list_elem_of_lookup in Hx as [i Hi].
  destruct (Forall2_lookup_l _ _ _ _ _ Hrun Hi) as (r & Hr & Hres). exists r. split; [by eapply list_elem_of_lookup_2|].
  unfold reserve in Hres. apply rbind_ok in Hres as (p & Hp & Heq). by injection Heq as <-.
Qed.

(** The reservations of the eager family hold every admissible payload. *)
Lemma eager_reserved environ rs sizes x :
  eager_reservations environ = Ok rs -> eager_allreduce_payload_sizes environ = Ok sizes -> x ∈ sizes ->
  exists r, r ∈ rs /\ eager_allreduce_ports_for_payload x environ = Ok (ports r).
Proof.
  unfold eager_reservations, eager_allreduce_payload_sizes.
  intros (rows & Hrows & Hrun)%rbind_ok. apply rbind_ok in Hrun as (l & Hl & Hrun).
  apply rbind_ok in Hrun as (regimes & Hreg & Hrun). apply rbind_ok in Hrun as (e & He & Hrun). injection Hrun as <-.
  rewrite Hreg. cbn [rbind]. intros Hs Hx. injection Hs as <-. rewrite elem_of_sorted_set in Hx.
  apply elem_of_app in Hx as [Hx|Hx].
  - assert (Hleg : fst regimes = map (fun rows => rows * default_bytes_per_row) rows).
    { unfold _eager_allreduce_size_regimes in Hreg. rewrite Hrows in Hreg. cbn [rbind] in Hreg.
      apply rbind_ok in Hreg as (mx & _ & Hreg). apply rbind_ok in Hreg as (w & _ & Hreg). by injection Hreg as <-. }
    rewrite Hleg in Hx. apply list_elem_of_fmap in Hx as (q & -> & Hq).
    destruct (rmap_reserve _ _ _ _ Hl q Hq) as (r & Hr & Hp). exists r. split; [apply elem_of_app; by left|].
    unfold _eager_allreduce_pair in Hp. rewrite Hrows in Hp. cbn [rbind] in Hp.
    rewrite bool_decide_eq_false_2 in Hp by (intros ?; done).
    unfold default_bytes_per_row. by rewrite Z.mul_assoc.
  - destruct (rmap_reserve _ _ _ _ He x Hx) as (r & Hr & Hp). exists r. split; [apply elem_of_app; by right|done].
Qed.

(** C20 (port namespace): when the namespace check accepts, all reserved ports are
    legal and pairwise different, within and across families, and with the
    all-reduce family selected every payload size that can be admitted has
    its pair of ports among the reservations: no session that is opened later can
    collide with another one. *)
Theorem namespace_reserves_every_payload environ rs :
  validate_active_port_namespace environ = Ok rs ->
  NoDup (all_ports rs) /\ Forall (fun p => 1 <= p <= 65535) (all_ports rs) /\
  (selected environ -> forall sizes x, eager_allreduce_payload_sizes environ = Ok sizes -> x ∈ sizes ->
     exists r, r ∈ rs /\ eager_allreduce_ports_for_payload x environ = Ok (ports r)).
Proof.
  intros (Ha & Hnd & Hv)%validate_namespace_ok. split_and!; [done| |].
  - apply Forall_forall. intros p Hp. unfold all_ports in Hp. apply list_elem_of_In, in_concat in Hp as (l & Hl & Hp).
    apply in_map_iff in Hl as (r & <- & Hr%list_elem_of_In). apply Hv, validate_pair_ok in Hr as (_ & H0 & H1 & _).
    destruct Hp as [<-|[<-|[]]]; done.
  - intros (md & Hmd & Hsel) sizes x Hs Hx. unfold active_port_reservations in Ha. rewrite Hmd in Ha. cbn [rbind] in Ha.
    apply rbind_ok in Ha as (al & Hal & Ha). apply rbind_ok in Ha as (vm & _ & Ha). apply rbind_ok in Ha as (vo & _ & Ha).
    injection Ha as <-. unfold allreduce_reservations in Hal. rewrite Hsel in Hal.
    apply rbind_ok in Hal as (e & He & Hal). apply rbind_ok in Hal as (g & _ & Hal). injection Hal as <-.
    destruct (eager_reserved environ e sizes x He Hs Hx) as (r & Hr & Hp). exists r. split; [|done].
    apply elem_of_app. left. apply elem_of_app. by left.
Qed.

(** Port slots: with base ports of different parity two different payload
    sizes never share a port, and the pair of a default-width payload is a
    function of its row count and the base ports alone, whatever widths, row
    provider or Q512 setting the environment has. *)
Theorem payload_ports_injective environ base0 base1 :
  1 <= MAX_QUERY_ROWS <= 512 ->
  _integer environ "SPARK_TP4_CONTROL_PORT0" 11000 = Ok base0 ->
  _integer environ "SPARK_TP4_CONTROL_PORT1" 11001 = Ok base1 -> Z.odd (base1 - base0) = true ->
  (forall x y p q, eager_allreduce_ports_for_payload x environ = Ok p ->
     eager_allreduce_ports_for_payload y environ = Ok q -> x <> y ->
     forall n, n ∈ pair_ports p -> n ∉ pair_ports q) /\
  (forall r p, _eager_allreduce_pair r environ = Ok p -> p = (base0 + 2 * (r - 1), base1 + 2 * (r - 1))).
Proof.
  intros Hmax H0 H1 Hodd.
  assert (Hslot : forall x p, eager_allreduce_ports_for_payload x environ = Ok p ->
    exists legacy extensions slot, _eager_allreduce_size_regimes environ = Ok (legacy, extensions) /\
      payload_slot legacy extensions x = Ok slot /\ p = (base0 + 2 * slot, base1 + 2 * slot)).
  { intros x p. unfold eager_allreduce_ports_for_payload. intros ([legacy extensions] & Hreg & Hrun)%rbind_ok.
    apply rbind_ok in Hrun as (slot & Hs & Hrun). simpl in Hs.
    change (fst _EAGER_ALLREDUCE_DEFAULT_PORTS) with 11000 in Hrun.
    change (snd _EAGER_ALLREDUCE_DEFAULT_PORTS) with 11001 in Hrun. rewrite H0, H1 in Hrun. cbn [rbind] in Hrun.
    apply validate_pair_ok in Hrun as [-> _]. exists legacy, extensions, slot. split_and!; [done|done|].
    unfold _EAGER_ALLREDUCE_PORT_STRIDE. f_equal; lia. }
  apply Z.odd_spec in Hodd as [d Hd]. split.
  - intros x y p q (l & e & sx & Hreg & Hsx & ->)%Hslot (l' & e' & sy & Hreg' & Hsy & ->)%Hslot Hne n.
    assert ((l', e') = (l, e)) as [= -> ->] by congruence.
    assert (sx <> sy).
    { intros <-. destruct (payload_slot_spec _ _ _ _ _ Hmax Hreg Hsx) as [(Hx & Hxe & _)|(Hx & Hxe & _)],
        (payload_slot_spec _ _ _ _ _ Hmax Hreg Hsy) as [(Hy & Hye & _)|(Hy & Hye & _)]; (lia || congruence). }
    unfold pair_ports. simpl. rewrite !elem_of_cons, elem_of_nil. intros [->|[->|[]]] [Hn|[Hn|[]]]; lia.
  - intros r p. unfold _eager_allreduce_pair. intros (rows & Hrows & Hrun)%rbind_ok. case_bool_decide as Hin; [done|].
    apply Hslot in Hrun as (l & e & slot & Hreg & Hs & ->).
    assert (Hl : r * 6144 * 2 ∈ l).
    { destruct (regimes_ok _ _ _ Hmax Hreg) as (rows' & Hrows' & -> & _).
      unfold _supported_allreduce_query_rows in Hrows. assert (rows' = rows) as -> by congruence.
      replace (r * 6144 * 2) with (r * default_bytes_per_row) by (unfold default_bytes_per_row,
        _EAGER_ALLREDUCE_DEFAULT_WIDTH_ELEMENTS, _EAGER_ALLREDUCE_BF16_BYTES; lia).
      by apply (list_elem_of_fmap_2 (fun rows => rows * default_bytes_per_row)). }
    unfold payload_slot in Hs. rewrite bool_decide_eq_true_2 in Hs by done. injection Hs as <-.
    unfold default_bytes_per_row, _EAGER_ALLREDUCE_DEFAULT_WIDTH_ELEMENTS, _EAGER_ALLREDUCE_BF16_BYTES.
    rewrite <-Z.mul_assoc, Z.div_mul by lia. done.
Qed.

End Ports.

(** ** Concrete environments *)

Definition vars (l : list (string * string)) : environment := fun name =>
  PyStr.text <$> PyDict.dget l name.

(** Custom mode with the graph family, the vocabulary family and one extra
    width: 6 + 4 eager pairs and 4 others. *)
Definition example_vars : environment := vars
  [("VLLM_SPARK_TP4_MODE", "custom"); ("VLLM_SPARK_TP4_GRAPH_Q1", "1"); ("VLLM_SPARK_TP4_VOCAB_MODE", "Custom");
   ("VLLM_SPARK_TP4_EAGER_WIDTHS", "6144, 4096")]%string.

Definition no_provider : Provider := {| import_module _ := NotImportable; MAX_QUERY_ROWS := 6 |}.
Definition row_provider : Provider := {| import_module _ := Interface (fun _ => Some [VInt 1]); MAX_QUERY_ROWS := 6 |}.

Definition example_reservations : result (list PortReservation) :=
  @validate_active_port_namespace no_provider example_vars.

Example example_ports : (map ports <$> match example_reservations with Ok l => Some l | Raise _ => None end) =
  Some [(11000, 11001); (11002, 11003); (11004, 11005); (11006, 11007); (11008, 11009); (11010, 11011);
        (12024, 12025); (12026, 12027); (12028, 12029); (12030, 12031); (9970, 9971); (9990, 9991); (10110, 10111)].
Proof. vm_compute. reflexivity. Qed.

(** Graph ports inside the eager range are refused. *)
Example example_collision :
  @validate_active_port_namespace no_provider
    (vars [("VLLM_SPARK_TP4_MODE", "custom"); ("VLLM_SPARK_TP4_GRAPH_Q1", "1");
           ("SPARK_TP4_GRAPH_CONTROL_PORT0", "11003")]%string) = Raise ValueError.
Proof. vm_compute. reflexivity. Qed.

(** A row provider does move the ports of a width extension: sizes it takes out
    of the legacy set become extensions in front of others. *)
Example extension_ports_move :
  @eager_allreduce_ports_for_payload no_provider (4 * 8192)
    (vars [("VLLM_SPARK_TP4_EAGER_WIDTHS", "4096")]%string) = Ok (12028, 12029) /\
  @eager_allreduce_ports_for_payload row_provider (4 * 8192)
    (vars [("VLLM_SPARK_TP4_EAGER_WIDTHS", "4096"); ("VLLM_SPARK_TP4_QUERY_ROW_PROVIDER", "rows")]%string)
  = Ok (12030, 12031).
Proof. vm_compute. split; reflexivity. Qed.

Lemma namespace_reserves_every_payload_witness :
  exists rs, example_reservations = Ok rs /\ NoDup (all_ports rs) /\
    exists r, r ∈ rs /\ @eager_allreduce_ports_for_payload no_provider 8192 example_vars = Ok (ports r).
Proof.
  destruct example_reservations as [rs|] eqn:E; [|vm_compute in E; discriminate].
  destruct (@namespace_reserves_every_payload no_provider example_vars rs E) as (Hnd & _ & Hall).
  exists rs. split; [reflexivity|]. split; [exact Hnd|].
  apply (Hall ltac:(exists (PyStr.text "custom"); split; vm_compute; reflexivity)
    [8192; 12288; 16384; 24576; 32768; 36864; 40960; 49152; 61440; 73728] 8192); [vm_compute; reflexivity|left].
Defined.

Lemma payload_ports_injective_witness :
  @_eager_allreduce_pair no_provider 3 example_vars = Ok (11004, 11005) /\ (11004, 11005) = (11000 + 2 * (3 - 1), 11001 + 2 * (3 - 1)).
Proof.
  assert (Hp : @_eager_allreduce_pair no_provider 3 example_vars = Ok (11004, 11005)) by (vm_compute; reflexivity).
  split; [exact Hp|].
  refine (proj2 (@payload_ports_injective no_provider example_vars 11000 11001 _ _ _ _) 3 (11004, 11005) Hp);
    [simpl; lia|vm_compute; reflexivity|vm_compute; reflexivity|reflexivity].
Defined.
