(* ===== verification/Backends.v ===== *)
(** * The registry of attention backends

    [overlays/vllm/v1/attention/backends/registry.py]: the two enumerations of
    backends with their default class paths, the overrides that
    [register_backend] keeps for each of them, and the lookups by name and by
    path.  Importing the class a path names is not modelled. *)
From S2P Require Export PyDict.
From Stdlib Require Import Ascii String.
#[local] Open Scope string_scope.

(** ** [AttentionBackendEnum] *)
Module Attention.

Inductive AttentionBackendEnum :=
  | FLASH_ATTN
  | FLASH_ATTN_DIFFKV
  | TRITON_ATTN
  | TRITON_ATTN_DIFFKV
  | ROCM_ATTN
  | ROCM_AITER_MLA
  | ROCM_AITER_TRITON_MLA
  | ROCM_AITER_FA
  | ROCM_AITER_MLA_SPARSE
  | XPU_MLA_SPARSE
  | B12X_MLA_SPARSE
  | TORCH_SDPA
  | FLASHINFER
  | FLASHINFER_MLA
  | TOKENSPEED_MLA
  | FLASHINFER_MLA_SPARSE
  | FLASHINFER_MLA_SPARSE_SM120
  | TRITON_MLA
  | CUTLASS_MLA
  | FLASHMLA
  | FLASHMLA_SPARSE
  | FLASHMLA_SPARSE_DSV4
  | FLASHINFER_MLA_SPARSE_DSV4
  | ROCM_FLASHMLA_SPARSE_DSV4
  | FLASH_ATTN_MLA
  | FLASH_ATTN_MLA_SPARSE
  | MINIMAX_M3_SPARSE
  | CUTLASS_MSA
  | TRITON_MSA
  | NO_ATTENTION
  | FLEX_ATTENTION
  | HPC_ATTN
  | ROCM_AITER_UNIFIED_ATTN
  | CPU_ATTN
  | TURBOQUANT
  | CUSTOM.
#[global] Instance AttentionBackendEnum_eq_dec : EqDecision AttentionBackendEnum.
Proof. solve_decision. Defined.

(** The members in the order of their definition, with their values. *)
Definition members : list (string * (AttentionBackendEnum * option string)) := [
  ("FLASH_ATTN", (FLASH_ATTN, Some "vllm.v1.attention.backends.flash_attn.FlashAttentionBackend"));
  ("FLASH_ATTN_DIFFKV", (FLASH_ATTN_DIFFKV, Some "vllm.v1.attention.backends.flash_attn_diffkv.FlashAttentionDiffKVBackend"));
  ("TRITON_ATTN", (TRITON_ATTN, Some "vllm.v1.attention.backends.triton_attn.TritonAttentionBackend"));
  ("TRITON_ATTN_DIFFKV", (TRITON_ATTN_DIFFKV, Some "vllm.v1.attention.backends.triton_attn_diffkv.TritonAttentionDiffKVBackend"));
  ("ROCM_ATTN", (ROCM_ATTN, Some "vllm.v1.attention.backends.rocm_attn.RocmAttentionBackend"));
  ("ROCM_AITER_MLA", (ROCM_AITER_MLA, Some "vllm.v1.attention.backends.mla.rocm_aiter_mla.AiterMLABackend"));
  ("ROCM_AITER_TRITON_MLA", (ROCM_AITER_TRITON_MLA, Some "vllm.v1.attention.backends.mla.aiter_triton_mla.AiterTritonMLABackend"));
  ("ROCM_AITER_FA", (ROCM_AITER_FA, Some "vllm.v1.attention.backends.rocm_aiter_fa.AiterFlashAttentionBackend"));
  ("ROCM_AITER_MLA_SPARSE", (ROCM_AITER_MLA_SPARSE, Some "vllm.v1.attention.backends.mla.rocm_aiter_mla_sparse.ROCMAiterMLASparseBackend"));
  ("XPU_MLA_SPARSE", (XPU_MLA_SPARSE, Some "vllm.v1.attention.backends.mla.xpu_mla_sparse.XPUMLASparseBackend"));
  ("B12X_MLA_SPARSE", (B12X_MLA_SPARSE, Some "vllm.v1.attention.backends.mla.b12x_mla_sparse.B12xMLASparseBackend"));
  ("TORCH_SDPA", (TORCH_SDPA, Some ""));
  ("FLASHINFER", (FLASHINFER, Some "vllm.v1.attention.backends.flashinfer.FlashInferBackend"));
  ("FLASHINFER_MLA", (FLASHINFER_MLA, Some "vllm.v1.attention.backends.mla.flashinfer_mla.FlashInferMLABackend"));
  ("TOKENSPEED_MLA", (TOKENSPEED_MLA, Some "vllm.v1.attention.backends.mla.tokenspeed_mla.TokenspeedMLABackend"));
  ("FLASHINFER_MLA_SPARSE", (FLASHINFER_MLA_SPARSE, Some "vllm.v1.attention.backends.mla.flashinfer_mla_sparse.FlashInferMLASparseTRTLLMBackend"));
  ("FLASHINFER_MLA_SPARSE_SM120", (FLASHINFER_MLA_SPARSE_SM120, Some "vllm.v1.attention.backends.mla.flashinfer_mla_sparse.FlashInferMLASparseSM120Backend"));
  ("TRITON_MLA", (TRITON_MLA, Some "vllm.v1.attention.backends.mla.triton_mla.TritonMLABackend"));
  ("CUTLASS_MLA", (CUTLASS_MLA, Some "vllm.v1.attention.backends.mla.cutlass_mla.CutlassMLABackend"));
  ("FLASHMLA", (FLASHMLA, Some "vllm.v1.attention.backends.mla.flashmla.FlashMLABackend"));
  ("FLASHMLA_SPARSE", (FLASHMLA_SPARSE, Some "vllm.v1.attention.backends.mla.flashmla_sparse.FlashMLASparseBackend"));
  ("FLASHMLA_SPARSE_DSV4", (FLASHMLA_SPARSE_DSV4, Some "vllm.models.deepseek_v4.sparse_mla.DeepseekV4FlashMLABackend"));
  ("FLASHINFER_MLA_SPARSE_DSV4", (FLASHINFER_MLA_SPARSE_DSV4, Some "vllm.models.deepseek_v4.nvidia.flashinfer_sparse.DeepseekV4FlashInferMLASparseBackend"));
  ("ROCM_FLASHMLA_SPARSE_DSV4", (ROCM_FLASHMLA_SPARSE_DSV4, Some "vllm.models.deepseek_v4.amd.rocm.DeepseekV4ROCMAiterMLASparseBackend"));
  ("FLASH_ATTN_MLA", (FLASH_ATTN_MLA, Some "vllm.v1.attention.backends.mla.flashattn_mla.FlashAttnMLABackend"));
  ("FLASH_ATTN_MLA_SPARSE", (FLASH_ATTN_MLA_SPARSE, Some "vllm.v1.attention.backends.mla.flashattn_mla_sparse.FlashAttnMLASparseBackend"));
  ("MINIMAX_M3_SPARSE", (MINIMAX_M3_SPARSE, Some "vllm.models.minimax_m3.common.sparse_attention.MiniMaxM3SparseBackend"));
  ("CUTLASS_MSA", (CUTLASS_MSA, Some "vllm.models.minimax_m3.nvidia.sparse_attention_msa.MiniMaxM3SparseCutlassBackend"));
  ("TRITON_MSA", (TRITON_MSA, Some "vllm.models.minimax_m3.nvidia.sparse_attention_msa.MiniMaxM3SparseTritonBackend"));
  ("NO_ATTENTION", (NO_ATTENTION, Some "vllm.v1.attention.backends.no_attention.NoAttentionBackend"));
  ("FLEX_ATTENTION", (FLEX_ATTENTION, Some "vllm.v1.attention.backends.flex_attention.FlexAttentionBackend"));
  ("HPC_ATTN", (HPC_ATTN, Some "vllm.v1.attention.backends.hpc_attn.HpcAttentionBackend"));
  ("ROCM_AITER_UNIFIED_ATTN", (ROCM_AITER_UNIFIED_ATTN, Some "vllm.v1.attention.backends.rocm_aiter_unified_attn.RocmAiterUnifiedAttentionBackend"));
  ("CPU_ATTN", (CPU_ATTN, Some "vllm.v1.attention.backends.cpu_attn.CPUAttentionBackend"));
  ("TURBOQUANT", (TURBOQUANT, Some "vllm.v1.attention.backends.turboquant_attn.TurboQuantAttentionBackend"));
  ("CUSTOM", (CUSTOM, None))].

End Attention.

(** ** [MambaAttentionBackendEnum] *)
Module MambaBackend.

Inductive MambaAttentionBackendEnum :=
  | MAMBA1
  | MAMBA2
  | SHORT_CONV
  | LINEAR
  | GDN_ATTN
  | CUSTOM.
#[global] Instance MambaAttentionBackendEnum_eq_dec : EqDecision MambaAttentionBackendEnum.
Proof. solve_decision. Defined.

(** The members in the order of their definition, with their values. *)
Definition members : list (string * (MambaAttentionBackendEnum * option string)) := [
  ("MAMBA1", (MAMBA1, Some "vllm.v1.attention.backends.mamba1_attn.Mamba1AttentionBackend"));
  ("MAMBA2", (MAMBA2, Some "vllm.v1.attention.backends.mamba2_attn.Mamba2AttentionBackend"));
  ("SHORT_CONV", (SHORT_CONV, Some "vllm.v1.attention.backends.short_conv_attn.ShortConvAttentionBackend"));
  ("LINEAR", (LINEAR, Some "vllm.v1.attention.backends.linear_attn.LinearAttentionBackend"));
  ("GDN_ATTN", (GDN_ATTN, Some "vllm.v1.attention.backends.gdn_attn.GDNAttentionBackend"));
  ("CUSTOM", (CUSTOM, None))].

End MambaBackend.

(** ** Paths and overrides *)
Module Registry.

(** A member of either enumeration, and the key of an override. *)
Inductive backend :=
  | Attn (b : Attention.AttentionBackendEnum)
  | Mamba (b : MambaBackend.MambaAttentionBackendEnum).
#[global] Instance backend_eq_dec : EqDecision backend.
Proof. solve_decision. Defined.

(** [member.value] and [member.name]. *)
Definition member_of {A} `{EqDecision A} (b : A) (l : list (string * (A * option string)))
    : option (string * option string) :=
  option_map (fun m => (m.1, m.2.2)) (List.find (fun m => bool_decide (m.2.1 = b)) l).

Definition member (b : backend) : option (string * option string) :=
  match b with
  | Attn b => member_of b Attention.members
  | Mamba b => member_of b MambaBackend.members
  end.
Definition name (b : backend) : string := default "" (option_map fst (member b)).
Definition value (b : backend) : option string := mjoin (option_map snd (member b)).

(** [AttentionBackendEnum[name]]: the metaclass turns [KeyError] into [ValueError]. *)
Definition getitem {A} (l : list (string * (A * option string))) (key : string) : result A :=
  match List.find (fun m => bool_decide (m.1 = key)) l with
  | Some m => Ok m.2.1
  | None => Raise ValueError
  end.

(** The two module-level dictionaries. *)
Record overrides := mkOverrides {
  _ATTN_OVERRIDES : backend -> option string;
  _MAMBA_ATTN_OVERRIDES : backend -> option string
}.
#[global] Instance overrides_eta : Eta overrides := fun o =>
  mkOverrides (_ATTN_OVERRIDES o) (_MAMBA_ATTN_OVERRIDES o).

Definition no_overrides : overrides := mkOverrides (fun _ => None) (fun _ => None).

(** [d[key] = value] and [d.pop(key, None)]. *)
Definition assign (b : backend) (v : option string) (d : backend -> option string) : backend -> option string :=
  fun b' => if bool_decide (b' = b) then v else d b'.

(** The dictionary the methods of a member's class read. *)
Definition own_overrides (o : overrides) (b : backend) : backend -> option string :=
  match b with Attn _ => _ATTN_OVERRIDES o | Mamba _ => _MAMBA_ATTN_OVERRIDES o end.

(** [path.rsplit(".", 1)[0]]: the text before the last dot, all of it without one. *)
Fixpoint before_last_dot (s : string) : option string :=
  match s with
  | EmptyString => None
  | String c s =>
      match before_last_dot s with
      | Some p => Some (String c p)
      | None => if bool_decide (c = "."%char) then Some EmptyString else None
      end
  end.

Definition get_path (o : overrides) (b : backend) (include_classname : bool) : result string :=
  let path := match own_overrides o b b with Some p => Some p | None => value b end in
  match path with
  | None | Some EmptyString => Raise ValueError
  | Some path => Ok (if include_classname then path else default path (before_last_dot path))
  end.

Definition is_overridden (o : overrides) (b : backend) : bool :=
  bool_decide (is_Some (own_overrides o b b)).

Definition clear_override (o : overrides) (b : backend) : overrides :=
  match b with
  | Attn _ => o <| _ATTN_OVERRIDES ::= assign b None |>
  | Mamba _ => o <| _MAMBA_ATTN_OVERRIDES ::= assign b None |>
  end.

(** [register_backend] with a path, or its decorator applied to a class of that
    path: the flag, not the member, chooses the dictionary. *)
Definition register_backend (o : overrides) (b : backend) (class_path : string) (is_mamba : bool) : overrides :=
  if is_mamba then o <| _MAMBA_ATTN_OVERRIDES ::= assign b (Some class_path) |>
  else o <| _ATTN_OVERRIDES ::= assign b (Some class_path) |>.

(** ** Lookups *)

Definition is_mamba_member (b : backend) : bool := match b with Mamba _ => true | Attn _ => false end.

Lemma assign_eq b v d b' : assign b v d b' = if decide (b' = b) then v else d b'.
Proof. unfold assign. by case_bool_decide; case_decide. Qed.

(** Every member is found under its name, and no two members share a name or a
    value, so none is an alias of another. *)
Theorem members_distinct :
  NoDup (map fst Attention.members) /\ NoDup (map (fun m => m.2.2) Attention.members) /\
  NoDup (map fst MambaBackend.members) /\ NoDup (map (fun m => m.2.2) MambaBackend.members) /\
  (forall b, getitem Attention.members (name (Attn b)) = Ok b) /\
  (forall b, getitem MambaBackend.members (name (Mamba b)) = Ok b).
Proof.
  do 4 (split; [apply (bool_decide_unpack _); vm_compute; exact I|]). split; by intros [].
Qed.

(** Registering with the flag of the member's enumeration makes its path the
    given one and changes no other member's; clearing restores the default;
    without an override reading the path fails exactly for the placeholder
    [CUSTOM] and the ViT tag [TORCH_SDPA]. *)
Theorem registered_path o b p b' c :
  p <> "" ->
  let o' := register_backend o b p (is_mamba_member b) in
  get_path o' b true = Ok p /\ is_overridden o' b = true /\
  (b' <> b -> get_path o' b' c = get_path o b' c /\ is_overridden o' b' = is_overridden o b') /\
  is_overridden (clear_override o' b) b = false /\
  (is_ok (get_path (clear_override o' b) b c) = false <->
     b ∈ [Attn Attention.CUSTOM; Attn Attention.TORCH_SDPA; Mamba MambaBackend.CUSTOM]).
Proof.
  intros Hp o'. subst o'.
  assert (forall d, own_overrides (register_backend o b p (is_mamba_member b)) d d =
    if decide (d = b) then Some p else own_overrides o d d) as Hreg.
  { intros d. destruct b, d; cbn; rewrite ?assign_eq; try done; by case_decide. }
  assert (own_overrides (clear_override (register_backend o b p (is_mamba_member b)) b) b b = None) as Hclear.
  { destruct b; simpl; unfold setter; simpl; by rewrite !assign_eq, decide_True. }
  set (o' := register_backend o b p (is_mamba_member b)) in *. clearbody o'.
  unfold get_path, is_overridden. rewrite Hclear, !Hreg, decide_True by done.
  split; [by destruct p|]. split; [done|]. split; [|split; [done|]].
  - intros Hne. by rewrite decide_False.
  - destruct b as [[]|[]]; cbn; split; intros Hin; try done;
      try (repeat constructor; done); exfalso;
      repeat (apply elem_of_cons in Hin as [Hin|Hin]; [done|]); by apply elem_of_nil in Hin.
Qed.

Lemma registered_path_witness :
  get_path (register_backend no_overrides (Attn Attention.CUSTOM) "my.module.Mine" false)
    (Attn Attention.CUSTOM) true = Ok "my.module.Mine".
Proof.
  apply (registered_path no_overrides (Attn Attention.CUSTOM) "my.module.Mine" (Attn Attention.CUSTOM) true).
  discriminate.
Defined.

(** Without the flag a Mamba member is entered in the other dictionary, where
    nothing reads it. *)
Example mamba_without_flag :
  let o := register_backend no_overrides (Mamba MambaBackend.LINEAR) "my.module.Mine" false in
  get_path o (Mamba MambaBackend.LINEAR) false = Ok "vllm.v1.attention.backends.linear_attn" /\
  is_overridden o (Mamba MambaBackend.LINEAR) = false.
Proof. split; reflexivity. Qed.

End Registry.
