(* ===== verification/KVSpec.v ===== *)
(** * KV-cache specifications: data and operations

    [overlays/vllm/v1/kv_cache_interface.py]: the quantisation modes, the class
    hierarchy of per-layer cache specifications with their page sizes, memory
    bounds and [merge] methods, [UniformTypeKVCacheSpecs] and [KVCacheConfig].
    An object is a constructor named after its class with the values of its
    fields, the fields of a base class grouped in a record.  PyTorch's data
    types and the registry of specification classes are not part of the
    repository and so an interface. *)
From S2P Require Export PyDict MathUtils Backends.
Import PyDict.

(** ** Quantisation modes *)

Inductive KVQuantMode :=
  | NONE
  | FP8_PER_TENSOR
  | INT8_PER_TOKEN_HEAD
  | FP8_PER_TOKEN_HEAD
  | INT4_PER_TOKEN_HEAD
  | NVFP4
  | TURBOQUANT.
#[export] Instance KVQuantMode_eq_dec : EqDecision KVQuantMode.
Proof. solve_decision. Defined.

Definition is_per_token_head (m : KVQuantMode) : bool :=
  bool_decide (m ∈ [INT8_PER_TOKEN_HEAD; FP8_PER_TOKEN_HEAD; INT4_PER_TOKEN_HEAD]).

Definition is_nvfp4 (m : KVQuantMode) : bool := bool_decide (m = NVFP4).
Definition is_turboquant (m : KVQuantMode) : bool := bool_decide (m = TURBOQUANT).

Definition get_kv_quant_mode (kv_cache_dtype : string) : KVQuantMode :=
  if bool_decide (kv_cache_dtype = "int4_per_token_head") then INT4_PER_TOKEN_HEAD
  else if bool_decide (kv_cache_dtype = "int8_per_token_head") then INT8_PER_TOKEN_HEAD
  else if bool_decide (kv_cache_dtype = "fp8_per_token_head") then FP8_PER_TOKEN_HEAD
  else if bool_decide (kv_cache_dtype = "nvfp4") then NVFP4
  else if String.prefix "turboquant_" kv_cache_dtype then TURBOQUANT
  else if bool_decide (kv_cache_dtype = "nvfp4_ds_mla") then FP8_PER_TENSOR
  else if String.prefix "fp8" kv_cache_dtype then FP8_PER_TENSOR
  else NONE.

Definition is_quantized_kv_cache (kv_cache_dtype : string) : bool :=
  bool_decide (get_kv_quant_mode kv_cache_dtype <> NONE).

Definition kv_cache_uses_per_token_head_scales (kv_cache_dtype : string) : bool :=
  is_per_token_head (get_kv_quant_mode kv_cache_dtype).

Definition nvfp4_kv_cache_full_dim (head_size : Z) : Z := head_size / 2 + head_size / 16.

Inductive KVCacheSpecKind :=
  | FULL_ATTENTION
  | MLA_ATTENTION
  | SLIDING_WINDOW
  | SLIDING_WINDOW_MLA
  | MAMBA
  | CHUNKED_LOCAL_ATTENTION
  | SINK_FULL_ATTENTION
  | ENCODER_ONLY_ATTENTION
  | CROSS_ATTENTION
  | UNKNOWN.
#[export] Instance KVCacheSpecKind_eq_dec : EqDecision KVCacheSpecKind.
Proof. solve_decision. Defined.

(** ** The class hierarchy *)

Inductive spec_class :=
  | cKVCacheSpec
  | cAttentionSpec
  | cFullAttentionSpec
  | cTQFullAttentionSpec
  | cMLAAttentionSpec
  | cHiddenStateCacheSpec
  | cRSWASpec
  | cChunkedLocalAttentionSpec
  | cSlidingWindowSpec
  | cSlidingWindowMLASpec
  | cMambaSpec
  | cEncoderOnlyAttentionSpec
  | cCrossAttentionSpec
  | cSinkFullAttentionSpec
  | cUniformTypeKVCacheSpecs.
#[export] Instance spec_class_eq_dec : EqDecision spec_class.
Proof. solve_decision. Defined.

(** The base class in each [class] statement. *)
Definition base_class (c : spec_class) : option spec_class :=
  match c with
  | cKVCacheSpec => None
  | cAttentionSpec | cMambaSpec | cUniformTypeKVCacheSpecs => Some cKVCacheSpec
  | cFullAttentionSpec | cChunkedLocalAttentionSpec | cSlidingWindowSpec
  | cEncoderOnlyAttentionSpec | cCrossAttentionSpec => Some cAttentionSpec
  | cTQFullAttentionSpec | cMLAAttentionSpec | cRSWASpec | cSinkFullAttentionSpec =>
      Some cFullAttentionSpec
  | cHiddenStateCacheSpec => Some cMLAAttentionSpec
  | cSlidingWindowMLASpec => Some cSlidingWindowSpec
  end.

(** The method resolution order: the chain of base classes, at most five long. *)
Fixpoint bases (n : nat) (c : spec_class) : list spec_class :=
  match n with
  | O => []
  | S n => c :: match base_class c with Some b => bases n b | None => [] end
  end.
Definition mro (c : spec_class) : list spec_class := bases 5 c.
Definition issubclass (c d : spec_class) : bool := bool_decide (d ∈ mro c).

(** PyTorch's data types and [KVCacheSpecRegistry]. *)
Class KVTypes := {
  dtype : Type;
  dtype_eq_dec :: EqDecision dtype;
  get_dtype_size : dtype -> Z;
  float32 : dtype;
  (** [KVCacheSpecRegistry.get_uniform_type_base_spec], by the class of the object *)
  get_uniform_type_base_spec : spec_class -> option spec_class
}.

Class KVTypesLaws `{!KVTypes} : Prop := {
  get_dtype_size_pos d : 0 < get_dtype_size d
}.

(** The values of [vllm_config] the specifications read. *)
Record VllmConfig := mkVllm {
  max_model_len : Z;
  max_in_flight_tokens : Z;
  decode_context_parallel_size : Z;
  max_num_encoder_input_tokens : Z;
  cfg_mamba_cache_mode : string
}.

(** [a // b]; [cdiv] and [round_up] are computed with it. *)
Definition floordiv (a b : Z) : result Z :=
  if b =? 0 then Raise ZeroDivisionError else Ok (a / b).

Section Specs.
Context `{KVTypes, MathUtils}.

Definition cdiv_ (a b : Z) : result Z :=
  if b =? 0 then Raise ZeroDivisionError else Ok (cdiv a b).
Definition round_up_ (x y : Z) : result Z :=
  if y =? 0 then Raise ZeroDivisionError else Ok (round_up x y).

(** The fields [AttentionSpec] adds to [KVCacheSpec], with [block_size]: the
    names [fields(AttentionSpec)] lists. *)
Record attention := mkAttention {
  block_size : Z;
  num_kv_heads : Z;
  head_size : Z;
  a_dtype : dtype;
  kv_quant_mode : KVQuantMode;
  page_size_padded : option Z;
  indexes_kv_by_block_stride : bool
}.
#[global] Instance attention_eta : Eta attention := fun a =>
  mkAttention (block_size a) (num_kv_heads a) (head_size a) (a_dtype a) (kv_quant_mode a)
    (page_size_padded a) (indexes_kv_by_block_stride a).
#[global] Instance attention_eq_dec : EqDecision attention.
Proof. solve_decision. Defined.

(** What [FullAttentionSpec] adds, after [__post_init__]. *)
Record full := mkFull {
  head_size_v : Z;
  sliding_window : option Z;
  attention_chunk_size : option Z;
  non_causal : bool
}.
#[global] Instance full_eq_dec : EqDecision full.
Proof. solve_decision. Defined.

(** What [MLAAttentionSpec] and [SlidingWindowMLASpec] both add. *)
Record mla := mkMla {
  cache_dtype_str : option string;
  alignment : option Z;
  compress_ratio : Z;
  model_version : option string
}.
#[global] Instance mla_eq_dec : EqDecision mla.
Proof. solve_decision. Defined.

(** What [SlidingWindowSpec] adds; [SlidingWindowMLASpec] leaves [head_size_v]
    unset. *)
Record window := mkWindow {
  sw_sliding_window : Z;
  sw_head_size_v : option Z
}.
#[global] Instance window_eq_dec : EqDecision window.
Proof. solve_decision. Defined.

Record mamba := mkMamba {
  m_block_size : Z;
  shapes : list (list Z);
  dtypes : list dtype;
  m_page_size_padded : option Z;
  mamba_type : MambaBackend.MambaAttentionBackendEnum;
  mamba_cache_mode : string;
  num_speculative_blocks : Z
}.
#[global] Instance mamba_eta : Eta mamba := fun m =>
  mkMamba (m_block_size m) (shapes m) (dtypes m) (m_page_size_padded m) (mamba_type m)
    (mamba_cache_mode m) (num_speculative_blocks m).
#[global] Instance mamba_eq_dec : EqDecision mamba.
Proof. solve_decision. Defined.

Inductive kv_spec :=
  | KVCacheSpec (block_size : Z)
  | AttentionSpec (a : attention)
  | FullAttentionSpec (a : attention) (f : full)
  | TQFullAttentionSpec (a : attention) (f : full) (tq_slot_size : Z)
  | MLAAttentionSpec (a : attention) (f : full) (m : mla) (non_causal_multi_token_decode : bool)
  | HiddenStateCacheSpec (a : attention) (f : full) (m : mla) (non_causal_multi_token_decode : bool)
  | RSWASpec (a : attention) (f : full) (rswa_window : Z)
  | ChunkedLocalAttentionSpec (a : attention) (attention_chunk_size : Z)
  | SlidingWindowSpec (a : attention) (w : window)
  | SlidingWindowMLASpec (a : attention) (w : window) (m : mla)
  | MambaSpec (m : mamba)
  | EncoderOnlyAttentionSpec (a : attention)
  | CrossAttentionSpec (a : attention)
  | SinkFullAttentionSpec (a : attention) (f : full) (sink_len : option Z)
  | UniformTypeKVCacheSpecs (block_size : Z) (kv_cache_specs : dict kv_spec).

(** [type(spec)]. *)
Definition class_of (s : kv_spec) : spec_class :=
  match s with
  | KVCacheSpec _ => cKVCacheSpec
  | AttentionSpec _ => cAttentionSpec
  | FullAttentionSpec _ _ => cFullAttentionSpec
  | TQFullAttentionSpec _ _ _ => cTQFullAttentionSpec
  | MLAAttentionSpec _ _ _ _ => cMLAAttentionSpec
  | HiddenStateCacheSpec _ _ _ _ => cHiddenStateCacheSpec
  | RSWASpec _ _ _ => cRSWASpec
  | ChunkedLocalAttentionSpec _ _ => cChunkedLocalAttentionSpec
  | SlidingWindowSpec _ _ => cSlidingWindowSpec
  | SlidingWindowMLASpec _ _ _ => cSlidingWindowMLASpec
  | MambaSpec _ => cMambaSpec
  | EncoderOnlyAttentionSpec _ => cEncoderOnlyAttentionSpec
  | CrossAttentionSpec _ => cCrossAttentionSpec
  | SinkFullAttentionSpec _ _ _ => cSinkFullAttentionSpec
  | UniformTypeKVCacheSpecs _ _ => cUniformTypeKVCacheSpecs
  end.

Definition isinstance (s : kv_spec) (c : spec_class) : bool := issubclass (class_of s) c.

(** The fields of the base classes, where the object has them. *)
Definition attention_of (s : kv_spec) : option attention :=
  match s with
  | AttentionSpec a | FullAttentionSpec a _ | TQFullAttentionSpec a _ _
  | MLAAttentionSpec a _ _ _ | HiddenStateCacheSpec a _ _ _ | RSWASpec a _ _
  | ChunkedLocalAttentionSpec a _ | SlidingWindowSpec a _ | SlidingWindowMLASpec a _ _
  | EncoderOnlyAttentionSpec a | CrossAttentionSpec a | SinkFullAttentionSpec a _ _ => Some a
  | KVCacheSpec _ | MambaSpec _ | UniformTypeKVCacheSpecs _ _ => None
  end.

Definition full_of (s : kv_spec) : option full :=
  match s with
  | FullAttentionSpec _ f | TQFullAttentionSpec _ f _ | MLAAttentionSpec _ f _ _
  | HiddenStateCacheSpec _ f _ _ | RSWASpec _ f _ | SinkFullAttentionSpec _ f _ => Some f
  | _ => None
  end.

Definition block_size_of (s : kv_spec) : Z :=
  match s with
  | KVCacheSpec b | UniformTypeKVCacheSpecs b _ => b
  | MambaSpec m => m_block_size m
  | _ => match attention_of s with Some a => block_size a | None => 0 end
  end.

(** ** Page sizes *)

(** [AttentionSpec.real_page_size_bytes]. *)
Definition attention_real_page_size_bytes (a : attention) : Z :=
  let head_dim :=
    if is_nvfp4 (kv_quant_mode a) then nvfp4_kv_cache_full_dim (head_size a)
    else if bool_decide (kv_quant_mode a = INT4_PER_TOKEN_HEAD) then head_size a / 2
    else head_size a in
  2 * block_size a * num_kv_heads a * head_dim * get_dtype_size (a_dtype a).

(** [FullAttentionSpec.real_page_size_bytes]. *)
Definition full_real_page_size_bytes (a : attention) (f : full) : Z :=
  let last_dim :=
    if is_nvfp4 (kv_quant_mode a)
    then nvfp4_kv_cache_full_dim (head_size a) + nvfp4_kv_cache_full_dim (head_size_v f)
    else if bool_decide (kv_quant_mode a = INT4_PER_TOKEN_HEAD)
    then head_size a / 2 + head_size_v f / 2
    else head_size a + head_size_v f in
  block_size a * num_kv_heads a * last_dim * get_dtype_size (a_dtype a).

Definition tq_real_page_size_bytes (a : attention) (f : full) (tq_slot_size : Z) : Z :=
  if 0 <? tq_slot_size then block_size a * num_kv_heads a * tq_slot_size
  else full_real_page_size_bytes a f.

(** [storage_block_size] of the two MLA classes. *)
Definition mla_storage_block_size (a : attention) (m : mla) : result Z :=
  floordiv (block_size a) (compress_ratio m).

(** [MLAAttentionSpec.real_page_size_bytes]. *)
Definition mla_real_page_size_bytes (a : attention) (m : mla) : result Z :=
  if bool_decide (cache_dtype_str m = Some "nvfp4_ds_mla") then Ok (block_size a * 368)
  else if bool_decide (cache_dtype_str m = Some "fp8_ds_mla") then
    if bool_decide (model_version m = Some "deepseek_v4")
    then let* storage := mla_storage_block_size a m in Ok (storage * 584)
    else Ok (block_size a * 656)
  else
    let head_dim :=
      if bool_decide (kv_quant_mode a = INT4_PER_TOKEN_HEAD) then head_size a / 2
      else head_size a in
    let* storage := mla_storage_block_size a m in
    Ok (storage * num_kv_heads a * head_dim * get_dtype_size (a_dtype a)).

(** [SlidingWindowSpec.real_page_size_bytes]; adding [None] is a [TypeError]. *)
Definition window_real_page_size_bytes (a : attention) (w : window) : result Z :=
  match sw_head_size_v w with
  | None => Raise TypeError
  | Some head_size_v =>
      let last_dim :=
        if is_nvfp4 (kv_quant_mode a)
        then nvfp4_kv_cache_full_dim (head_size a) + nvfp4_kv_cache_full_dim head_size_v
        else head_size a + head_size_v in
      Ok (block_size a * num_kv_heads a * last_dim * get_dtype_size (a_dtype a))
  end.

(** [SlidingWindowMLASpec.real_page_size_bytes]. *)
Definition window_mla_real_page_size_bytes (a : attention) (m : mla) : result Z :=
  if bool_decide (model_version m = Some "deepseek_v4")
     && bool_decide (cache_dtype_str m = Some "fp8_ds_mla")
  then let* storage := mla_storage_block_size a m in Ok (storage * 584)
  else
    let* _ := require (bool_decide (model_version m ∈ [None; Some "deepseek_v4"])) AssertionError in
    let* storage := mla_storage_block_size a m in
    Ok (storage * num_kv_heads a * head_size a * get_dtype_size (a_dtype a)).

Definition real_page_size_bytes (s : kv_spec) : result Z :=
  match s with
  | AttentionSpec a | ChunkedLocalAttentionSpec a _ | EncoderOnlyAttentionSpec a
  | CrossAttentionSpec a => Ok (attention_real_page_size_bytes a)
  | FullAttentionSpec a f | RSWASpec a f _ | SinkFullAttentionSpec a f _ =>
      Ok (full_real_page_size_bytes a f)
  | TQFullAttentionSpec a f tq => Ok (tq_real_page_size_bytes a f tq)
  | MLAAttentionSpec a _ m _ | HiddenStateCacheSpec a _ m _ => mla_real_page_size_bytes a m
  | SlidingWindowSpec a w => window_real_page_size_bytes a w
  | SlidingWindowMLASpec a _ m => window_mla_real_page_size_bytes a m
  | KVCacheSpec _ | MambaSpec _ | UniformTypeKVCacheSpecs _ _ => Raise AttributeError
  end.

Definition storage_block_size (s : kv_spec) : result Z :=
  match s with
  | MLAAttentionSpec a _ m _ | HiddenStateCacheSpec a _ m _ | SlidingWindowMLASpec a _ m =>
      mla_storage_block_size a m
  | _ => Ok (block_size_of s)
  end.

(** [AttentionSpec.unpadded_page_size_bytes], given [real_page_size_bytes]. *)
Definition unpadded_page_size_bytes (a : attention) (real : Z) : Z :=
  if is_per_token_head (kv_quant_mode a)
  then real + 2 * block_size a * num_kv_heads a * get_dtype_size float32
  else real.

(** The end of both [page_size_bytes] properties. *)
Definition padded_page_size (padded : option Z) (unpadded : Z) : result Z :=
  match padded with
  | Some p => let* _ := require (unpadded <=? p) AssertionError in Ok p
  | None => Ok unpadded
  end.

Definition prod (l : list Z) : Z := foldr Z.mul 1 l.

(** [MambaSpec.page_size_bytes]. *)
Definition mamba_page_size_bytes (m : mamba) : result Z :=
  let page_size :=
    zsum (map (fun '(shape, d) => prod shape * get_dtype_size d) (zip (shapes m) (dtypes m))) in
  padded_page_size (m_page_size_padded m) page_size.

(** [sum] of a property over the values of a dictionary. *)
Fixpoint sum_over (f : kv_spec -> result Z) (d : dict kv_spec) : result Z :=
  match d with
  | [] => Ok 0
  | (_, s) :: d => let* n := f s in let* rest := sum_over f d in Ok (n + rest)
  end.

Fixpoint page_size_bytes (s : kv_spec) : result Z :=
  match s with
  | KVCacheSpec _ => Raise NotImplementedError
  | MambaSpec m => mamba_page_size_bytes m
  | UniformTypeKVCacheSpecs _ specs => sum_over page_size_bytes specs
  | _ =>
      match attention_of s with
      | None => Raise NotImplementedError
      | Some a =>
          let* real := real_page_size_bytes s in
          padded_page_size (page_size_padded a) (unpadded_page_size_bytes a real)
      end
  end.

(** ** Memory bounds *)

(** [FullAttentionSpec.max_memory_usage_bytes]. *)
Definition full_max_memory_usage_bytes (cfg : VllmConfig) (b : Z) (page_size : result Z) : result Z :=
  let dcp_world_size := decode_context_parallel_size cfg in
  let* max_len :=
    if 1 <? dcp_world_size then cdiv_ (max_model_len cfg) dcp_world_size
    else Ok (max_model_len cfg) in
  let* pages := cdiv_ max_len b in
  let* page := page_size in
  Ok (pages * page).

(** [max_admission_blocks_per_request] of the two classes that have it. *)
Definition chunked_max_admission_blocks_per_request
    (a : attention) (chunk : Z) (max_in_flight_tokens max_model_len : Z) : result Z :=
  let num_tokens := Z.min (chunk + max_in_flight_tokens) max_model_len in
  cdiv_ num_tokens (block_size a).

Definition window_max_admission_blocks_per_request
    (a : attention) (w : window) (max_in_flight_tokens max_model_len : Z) : result Z :=
  let num_tokens := Z.min (sw_sliding_window w - 1 + max_in_flight_tokens) max_model_len in
  let* blocks := cdiv_ num_tokens (block_size a) in
  Ok (blocks + 1).

(** [MambaSpec.max_memory_usage_bytes]. *)
Definition mamba_max_memory_usage_bytes (cfg : VllmConfig) (m : mamba) : result Z :=
  if bool_decide (cfg_mamba_cache_mode cfg = "all") then
    let* pages := cdiv_ (max_model_len cfg) (m_block_size m) in
    let* page := mamba_page_size_bytes m in
    Ok ((pages + num_speculative_blocks m) * page)
  else if bool_decide (cfg_mamba_cache_mode cfg = "align") then
    let* page := mamba_page_size_bytes m in
    Ok (page * (2 + num_speculative_blocks m))
  else
    let* page := mamba_page_size_bytes m in
    Ok (page * (1 + num_speculative_blocks m)).

(** [max] over the values of a dictionary; [max()] of nothing is a [ValueError]. *)
Fixpoint max_over (f : kv_spec -> result Z) (d : dict kv_spec) : result Z :=
  match d with
  | [] => Raise ValueError
  | (_, s) :: d =>
      let* n := f s in
      match d with
      | [] => Ok n
      | _ => let* rest := max_over f d in Ok (Z.max n rest)
      end
  end.

Fixpoint max_memory_usage_bytes (cfg : VllmConfig) (s : kv_spec) : result Z :=
  match s with
  | KVCacheSpec _ | AttentionSpec _ => Raise NotImplementedError
  | FullAttentionSpec a _ | TQFullAttentionSpec a _ _ | MLAAttentionSpec a _ _ _
  | HiddenStateCacheSpec a _ _ _ | RSWASpec a _ _ | SinkFullAttentionSpec a _ _ =>
      full_max_memory_usage_bytes cfg (block_size a) (page_size_bytes s)
  | ChunkedLocalAttentionSpec a chunk =>
      let* max_blocks := chunked_max_admission_blocks_per_request a chunk
                           (max_in_flight_tokens cfg) (max_model_len cfg) in
      let* page := page_size_bytes s in
      Ok (max_blocks * page)
  | SlidingWindowSpec a w | SlidingWindowMLASpec a w _ =>
      let* _ := require (decode_context_parallel_size cfg =? 1) AssertionError in
      let* max_blocks := window_max_admission_blocks_per_request a w
                           (max_in_flight_tokens cfg) (max_model_len cfg) in
      let* page := page_size_bytes s in
      Ok (max_blocks * page)
  | MambaSpec m => mamba_max_memory_usage_bytes cfg m
  | EncoderOnlyAttentionSpec _ => Ok 0
  | CrossAttentionSpec a =>
      let* blocks := cdiv_ (max_num_encoder_input_tokens cfg) (block_size a) in
      let* page := page_size_bytes s in
      Ok (blocks * page)
  | UniformTypeKVCacheSpecs _ specs =>
      let* max_num_pages :=
        max_over (fun spec =>
          let* bytes := max_memory_usage_bytes cfg spec in
          let* page := page_size_bytes spec in
          cdiv_ bytes page) specs in
      let* page := page_size_bytes s in
      Ok (max_num_pages * page)
  end.

Definition max_num_blocks_per_req (cfg : VllmConfig) (s : kv_spec) (max_len : Z) : result Z :=
  match s with
  | KVCacheSpec b | UniformTypeKVCacheSpecs b _ => cdiv_ max_len b
  | MambaSpec m =>
      if bool_decide (cfg_mamba_cache_mode cfg = "align") then
        let* blocks := cdiv_ max_len (m_block_size m) in
        Ok (blocks + num_speculative_blocks m)
      else
        let* bytes := mamba_max_memory_usage_bytes cfg m in
        let* page := mamba_page_size_bytes m in
        cdiv_ bytes page
  | _ =>
      match attention_of s with
      | Some a => cdiv_ max_len (block_size a * decode_context_parallel_size cfg)
      | None => Raise NotImplementedError
      end
  end.

(** ** Construction and [replace] *)

(** [__post_init__] of the classes with a value head size. *)
Definition post_init_head_size_v (a : attention) (head_size_v : option Z) : Z :=
  match head_size_v with Some v => v | None => head_size a end.

(** [_apply_alignment_padding], given the property it reads. *)
Definition _apply_alignment_padding (a : attention) (m : mla) (real : result Z)
    : result attention :=
  match alignment m with
  | None => Ok a
  | Some al =>
      let* actual_page_size := real in
      let* padded_page_size := round_up_ actual_page_size al in
      if padded_page_size =? actual_page_size then Ok a
      else Ok (a <| page_size_padded := Some padded_page_size |>)
  end.

(** [cls(...)] of the two families whose [__post_init__] pads. *)
Definition init_mla (cls : attention -> full -> mla -> bool -> kv_spec)
    (a : attention) (f : full) (m : mla) (multi : bool) : result kv_spec :=
  let* a := _apply_alignment_padding a m (mla_real_page_size_bytes a m) in
  Ok (cls a f m multi).

Definition init_window_mla (a : attention) (w : window) (m : mla) : result kv_spec :=
  let* a := _apply_alignment_padding a m (window_mla_real_page_size_bytes a m) in
  Ok (SlidingWindowMLASpec a w m).

(** [dataclasses.replace(self, block_size=...)] runs [__post_init__] again. *)
Definition copy_with_new_block_size (s : kv_spec) (b : Z) : result kv_spec :=
  match s with
  | KVCacheSpec _ => Ok (KVCacheSpec b)
  | AttentionSpec a => Ok (AttentionSpec (a <| block_size := b |>))
  | FullAttentionSpec a f => Ok (FullAttentionSpec (a <| block_size := b |>) f)
  | TQFullAttentionSpec a f tq => Ok (TQFullAttentionSpec (a <| block_size := b |>) f tq)
  | MLAAttentionSpec a f m multi => init_mla MLAAttentionSpec (a <| block_size := b |>) f m multi
  | HiddenStateCacheSpec a f m multi =>
      init_mla HiddenStateCacheSpec (a <| block_size := b |>) f m multi
  | RSWASpec a f w => Ok (RSWASpec (a <| block_size := b |>) f w)
  | ChunkedLocalAttentionSpec a c => Ok (ChunkedLocalAttentionSpec (a <| block_size := b |>) c)
  | SlidingWindowSpec a w =>
      Ok (SlidingWindowSpec (a <| block_size := b |>)
            (mkWindow (sw_sliding_window w) (Some (post_init_head_size_v a (sw_head_size_v w)))))
  | SlidingWindowMLASpec a w m => init_window_mla (a <| block_size := b |>) w m
  | MambaSpec m => Ok (MambaSpec (m <| m_block_size := b |>))
  | EncoderOnlyAttentionSpec a => Ok (EncoderOnlyAttentionSpec (a <| block_size := b |>))
  | CrossAttentionSpec a => Ok (CrossAttentionSpec (a <| block_size := b |>))
  | SinkFullAttentionSpec a f sink => Ok (SinkFullAttentionSpec (a <| block_size := b |>) f sink)
  | UniformTypeKVCacheSpecs _ specs => Ok (UniformTypeKVCacheSpecs b specs)
  end.

(** ** Equality and merging *)

(** The [__eq__] a dataclass gets: the same class and equal fields.  Two
    dictionaries are equal when they have the same items, in whatever order. *)
Fixpoint spec_eqb (s t : kv_spec) {struct s} : bool :=
  match s, t with
  | KVCacheSpec b, KVCacheSpec b' => b =? b'
  | AttentionSpec a, AttentionSpec a'
  | EncoderOnlyAttentionSpec a, EncoderOnlyAttentionSpec a'
  | CrossAttentionSpec a, CrossAttentionSpec a' => bool_decide (a = a')
  | FullAttentionSpec a f, FullAttentionSpec a' f' => bool_decide (a = a' /\ f = f')
  | TQFullAttentionSpec a f n, TQFullAttentionSpec a' f' n'
  | RSWASpec a f n, RSWASpec a' f' n' => bool_decide (a = a' /\ f = f' /\ n = n')
  | MLAAttentionSpec a f m b, MLAAttentionSpec a' f' m' b'
  | HiddenStateCacheSpec a f m b, HiddenStateCacheSpec a' f' m' b' =>
      bool_decide (a = a' /\ f = f' /\ m = m' /\ b = b')
  | ChunkedLocalAttentionSpec a n, ChunkedLocalAttentionSpec a' n' =>
      bool_decide (a = a' /\ n = n')
  | SlidingWindowSpec a w, SlidingWindowSpec a' w' => bool_decide (a = a' /\ w = w')
  | SlidingWindowMLASpec a w m, SlidingWindowMLASpec a' w' m' =>
      bool_decide (a = a' /\ w = w' /\ m = m')
  | MambaSpec m, MambaSpec m' => bool_decide (m = m')
  | SinkFullAttentionSpec a f o, SinkFullAttentionSpec a' f' o' =>
      bool_decide (a = a' /\ f = f' /\ o = o')
  | UniformTypeKVCacheSpecs b d, UniformTypeKVCacheSpecs b' d' =>
      (b =? b') && (length d =? length d')%nat &&
      (fix items (l : dict kv_spec) : bool :=
         match l with
         | [] => true
         | (k, v) :: l =>
             match dget d' k with Some v' => spec_eqb v v' | None => false end && items l
         end) d
  | _, _ => false
  end.

(** [KVCacheSpec.merge]. *)
Definition merge_base (specs : list kv_spec) : result kv_spec :=
  match specs with
  | [] => Raise IndexError
  | s0 :: rest =>
      let* _ := require (forallb (fun s => spec_eqb s s0) rest) AssertionError in
      Ok s0
  end.

(** [FullAttentionSpec.merge_window_sizes], on the set of the list's members. *)
Definition merge_window_sizes (window_sizes : list Z) : result (option Z) :=
  match sorted_set window_sizes with
  | [] => Ok None
  | [w] => Ok (Some w)
  | _ => Raise ValueError
  end.

(** The loop over the specs and the fields of [AttentionSpec]. *)
Definition same_attention (specs : list kv_spec) (a : attention) : bool :=
  forallb (fun s => bool_decide (attention_of s = Some a)) specs.

(** [FullAttentionSpec.merge] and [SinkFullAttentionSpec.merge]: [extra] reads
    the further field the latter copies and [cls] is the class called. *)
Definition merge_full {X} (extra : kv_spec -> result X) (cls : X -> attention -> full -> kv_spec)
    (specs : list kv_spec) : result kv_spec :=
  let* _ := require (forallb (fun s => isinstance s cFullAttentionSpec) specs) AssertionError in
  let fulls := omap full_of specs in
  let sliding_windows := omap sliding_window fulls in
  let chunk_sizes := omap attention_chunk_size fulls in
  let* _ := require (negb (existsb (fun s => isinstance s cMLAAttentionSpec) specs))
              AssertionError in
  match specs with
  | [] => Raise IndexError
  | s0 :: _ =>
      match attention_of s0, full_of s0 with
      | Some a0, Some f0 =>
          let* x := extra s0 in
          let* merged_window := merge_window_sizes sliding_windows in
          let* merged_chunk := merge_window_sizes chunk_sizes in
          let merged_spec :=
            cls x a0 (mkFull (head_size_v f0) merged_window merged_chunk
                        (existsb non_causal fulls)) in
          let* _ := require (same_attention specs a0) AssertionError in
          let* _ := require (negb (bool_decide (is_Some merged_window)
                                   && bool_decide (is_Some merged_chunk))) AssertionError in
          Ok merged_spec
      | _, _ => Raise AttributeError
      end
  end.

Definition no_extra (s : kv_spec) : result unit := Ok ().
Definition sink_len_of (s : kv_spec) : result (option Z) :=
  match s with SinkFullAttentionSpec _ _ sink => Ok sink | _ => Raise AttributeError end.
Definition tq_slot_size_of (s : kv_spec) : result Z :=
  match s with TQFullAttentionSpec _ _ tq => Ok tq | _ => Raise AttributeError end.
Definition rswa_window_of (s : kv_spec) : option Z :=
  match s with RSWASpec _ _ w => Some w | _ => None end.

Definition merge_full_attention (specs : list kv_spec) : result kv_spec :=
  merge_full no_extra (fun _ => FullAttentionSpec) specs.
Definition merge_sink (specs : list kv_spec) : result kv_spec :=
  merge_full sink_len_of (fun sink a f => SinkFullAttentionSpec a f sink) specs.

(** [all(s.tq_slot_size == specs[0].tq_slot_size for s in specs)]. *)
Fixpoint all_slots (tq0 : Z) (specs : list kv_spec) : result bool :=
  match specs with
  | [] => Ok true
  | s :: specs =>
      let* tq := tq_slot_size_of s in
      if tq =? tq0 then all_slots tq0 specs else Ok false
  end.

(** [TQFullAttentionSpec.merge]: [super().merge] builds the object with the
    default slot size, [replace] sets it. *)
Definition merge_tq (specs : list kv_spec) : result kv_spec :=
  let* merged := merge_full no_extra (fun _ a f => TQFullAttentionSpec a f 0) specs in
  match specs with
  | [] => Raise IndexError
  | s0 :: _ =>
      let* tq0 := tq_slot_size_of s0 in
      let* same := all_slots tq0 specs in
      let* _ := require same AssertionError in
      match merged with
      | TQFullAttentionSpec a f _ => Ok (TQFullAttentionSpec a f tq0)
      | _ => Raise AttributeError
      end
  end.

(** [RSWASpec.merge]. *)
Definition merge_rswa (specs : list kv_spec) : result kv_spec :=
  let* _ := require (forallb (fun s => isinstance s cRSWASpec) specs) AssertionError in
  match sorted_set (omap rswa_window_of specs) with
  | [w] =>
      let* base := merge_full_attention specs in
      match attention_of base, full_of base with
      | Some a, Some f => Ok (RSWASpec a f w)
      | _, _ => Raise AttributeError
      end
  | _ => Raise AssertionError
  end.

(** The fields the [merge] methods of the MLA classes put in sets. *)
Definition mla_of (s : kv_spec) : option (attention * mla) :=
  match s with
  | MLAAttentionSpec a _ m _ | HiddenStateCacheSpec a _ m _ | SlidingWindowMLASpec a _ m =>
      Some (a, m)
  | _ => None
  end.
Definition multi_token_decode (s : kv_spec) : bool :=
  match s with
  | MLAAttentionSpec _ _ _ multi | HiddenStateCacheSpec _ _ _ multi => multi
  | _ => false
  end.

(** [len(set(...)) == 1] of four fields, read off the objects. *)
Definition one_mla_format (specs : list (attention * mla)) : bool :=
  (length (remove_dups (map (fun p => cache_dtype_str p.2) specs)) =? 1)%nat
  && (length (remove_dups (map (fun p => compress_ratio p.2) specs)) =? 1)%nat
  && (length (remove_dups (map (fun p => model_version p.2) specs)) =? 1)%nat
  && (length (remove_dups (map (fun p => indexes_kv_by_block_stride p.1) specs)) =? 1)%nat.

(** [MLAAttentionSpec.merge], of the class [cls].  The fields that are not
    passed to the constructor take their defaults. *)
Definition merge_mla (cls : attention -> full -> mla -> bool -> kv_spec)
    (specs : list kv_spec) : result kv_spec :=
  let* _ := require (forallb (fun s => isinstance s cMLAAttentionSpec) specs) AssertionError in
  let* _ := require (one_mla_format (omap mla_of specs)) AssertionError in
  match specs with
  | [] => Raise IndexError
  | s0 :: _ =>
      match mla_of s0 with
      | None => Raise AttributeError
      | Some (a0, m0) =>
          let* merged_spec :=
            init_mla cls a0 (mkFull (post_init_head_size_v a0 None) None None false)
              (mkMla (cache_dtype_str m0) None (compress_ratio m0) (model_version m0))
              (existsb multi_token_decode specs) in
          match attention_of merged_spec with
          | None => Raise AttributeError
          | Some a =>
              let* _ := require (same_attention specs a) AssertionError in
              Ok merged_spec
          end
      end
  end.

Definition window_of (s : kv_spec) : option window :=
  match s with
  | SlidingWindowSpec _ w | SlidingWindowMLASpec _ w _ => Some w
  | _ => None
  end.

(** [SlidingWindowMLASpec.merge]: no loop over the fields of [AttentionSpec],
    and [kv_quant_mode] is not passed on. *)
Definition merge_window_mla (specs : list kv_spec) : result kv_spec :=
  let* _ := require (forallb (fun s => isinstance s cSlidingWindowMLASpec) specs)
              AssertionError in
  let windows := map sw_sliding_window (omap window_of specs) in
  let* _ := require (one_mla_format (omap mla_of specs)
                     && (length (remove_dups windows) =? 1)%nat) AssertionError in
  match specs with
  | SlidingWindowMLASpec a0 w0 m0 :: _ =>
      init_window_mla
        (mkAttention (block_size a0) (num_kv_heads a0) (head_size a0) (a_dtype a0) NONE
           (page_size_padded a0) (indexes_kv_by_block_stride a0))
        (mkWindow (sw_sliding_window w0) None)
        (mkMla (cache_dtype_str m0) None (compress_ratio m0) (model_version m0))
  | [] => Raise IndexError
  | _ => Raise AttributeError
  end.

(** [cls.merge(specs)], by the class that defines the method. *)
Definition merge (cls : spec_class) (specs : list kv_spec) : result kv_spec :=
  match cls with
  | cFullAttentionSpec => merge_full_attention specs
  | cTQFullAttentionSpec => merge_tq specs
  | cMLAAttentionSpec => merge_mla MLAAttentionSpec specs
  | cHiddenStateCacheSpec => merge_mla HiddenStateCacheSpec specs
  | cRSWASpec => merge_rswa specs
  | cSinkFullAttentionSpec => merge_sink specs
  | cSlidingWindowMLASpec => merge_window_mla specs
  | _ => merge_base specs
  end.

(** ** Uniform collections *)

Definition is_uniform_with_collection (s : kv_spec) (specs : dict kv_spec) : result bool :=
  match s with
  | ChunkedLocalAttentionSpec _ chunk =>
      Ok (forallb (fun t =>
            match t with ChunkedLocalAttentionSpec _ c => c =? chunk | _ => false end)
          (dvals specs))
  | SlidingWindowSpec _ w =>
      Ok (forallb (fun t => isinstance t cSlidingWindowSpec &&
            bool_decide (option_map sw_sliding_window (window_of t) = Some (sw_sliding_window w)))
          (dvals specs))
  | SlidingWindowMLASpec _ w _ =>
      Ok (forallb (fun t => isinstance t cSlidingWindowMLASpec &&
            bool_decide (option_map sw_sliding_window (window_of t) = Some (sw_sliding_window w)))
          (dvals specs))
  | MambaSpec m =>
      Ok (forallb (fun t =>
            match t with
            | MambaSpec m' => num_speculative_blocks m' =? num_speculative_blocks m
            | _ => false
            end) (dvals specs))
  | _ =>
      match get_uniform_type_base_spec (class_of s) with
      | None => Raise AssertionError
      | Some base => Ok (forallb (fun t => isinstance t base) (dvals specs))
      end
  end.

(** [UniformTypeKVCacheSpecs.is_uniform_type]. *)
Definition is_uniform_type (specs : dict kv_spec) : result bool :=
  if (1 <? length (sorted_set (map block_size_of (dvals specs))))%nat then Ok false
  else
    match dvals specs with
    | [] => Raise StopIteration
    | first_spec :: _ => is_uniform_with_collection first_spec specs
    end.

Definition from_specs (specs : dict kv_spec) : result (option kv_spec) :=
  let* uniform := is_uniform_type specs in
  if uniform then
    match dvals specs with
    | [] => Raise StopIteration
    | first_spec :: _ => Ok (Some (UniformTypeKVCacheSpecs (block_size_of first_spec) specs))
    end
  else Ok None.

(** The three helpers on the page sizes of the collection; a set as the sorted
    list of its members. *)
Definition get_page_sizes (specs : dict kv_spec) : result (list Z) :=
  let* sizes := rmap page_size_bytes (dvals specs) in
  Ok (sorted_set sizes).

Definition count_of (x : Z) (l : list Z) : nat := length (List.filter (Z.eqb x) l).

(** [Counter(...).most_common(1)[0][1]]. *)
Definition get_num_layer_tuples (specs : dict kv_spec) : result Z :=
  let* sizes := rmap page_size_bytes (dvals specs) in
  match sizes with
  | [] => Raise IndexError
  | _ => Ok (Z.of_nat (foldr Nat.max 0%nat (map (fun x => count_of x sizes) sizes)))
  end.

Definition max_memory_usage_pages (cfg : VllmConfig) (specs : dict kv_spec) : result Z :=
  max_over (fun spec =>
    let* bytes := max_memory_usage_bytes cfg spec in
    let* page := page_size_bytes spec in
    cdiv_ bytes page) specs.

(** ** Kinds *)

(** The only element of a set, read off the values it is built from. *)
Definition single {A} `{EqDecision A} (l : list A) : option A :=
  match remove_dups l with [x] => Some x | _ => None end.

Fixpoint get_kv_cache_spec_kind (s : kv_spec) : KVCacheSpecKind :=
  match s with
  | UniformTypeKVCacheSpecs _ specs =>
      let inner_kinds := map (fun '(_, spec) => get_kv_cache_spec_kind spec) specs in
      default UNKNOWN (single inner_kinds)
  | _ =>
      if isinstance s cSlidingWindowMLASpec then SLIDING_WINDOW_MLA
      else if isinstance s cMLAAttentionSpec then MLA_ATTENTION
      else if isinstance s cSinkFullAttentionSpec then SINK_FULL_ATTENTION
      else if isinstance s cFullAttentionSpec then FULL_ATTENTION
      else if isinstance s cChunkedLocalAttentionSpec then CHUNKED_LOCAL_ATTENTION
      else if isinstance s cSlidingWindowSpec then SLIDING_WINDOW
      else if isinstance s cMambaSpec then MAMBA
      else if isinstance s cEncoderOnlyAttentionSpec then ENCODER_ONLY_ATTENTION
      else if isinstance s cCrossAttentionSpec then CROSS_ATTENTION
      else UNKNOWN
  end.

Fixpoint get_kv_cache_spec_sliding_window (s : kv_spec) : option Z :=
  match s with
  | UniformTypeKVCacheSpecs _ specs =>
      let inner_windows := map (fun '(_, spec) => get_kv_cache_spec_sliding_window spec) specs in
      mjoin (single inner_windows)
  | _ =>
      if isinstance s cSlidingWindowSpec
      then option_map sw_sliding_window (window_of s)
      else None
  end.

(** ** [KVCacheConfig] *)

Record KVCacheTensor := mkTensor {
  size : Z;
  shared_by : list string;
  offset : Z;
  block_stride : Z
}.

Record KVCacheGroupSpec := mkGroup {
  layer_names : list string;
  kv_cache_spec : kv_spec;
  is_eagle_group : bool
}.

Record KVCacheConfig := mkKVConfig {
  num_blocks : Z;
  kv_cache_tensors : list KVCacheTensor;
  kv_cache_groups : list KVCacheGroupSpec
}.

Definition has_mamba_layers (c : KVCacheConfig) : bool :=
  existsb (fun g => isinstance (kv_cache_spec g) cMambaSpec) (kv_cache_groups c).

(** The specs of a group, one level of [UniformTypeKVCacheSpecs] opened. *)
Definition group_specs (g : KVCacheGroupSpec) : list kv_spec :=
  match kv_cache_spec g with
  | UniformTypeKVCacheSpecs _ specs => dvals specs
  | s => [s]
  end.

Definition precision_of (s : kv_spec) : option (dtype * KVQuantMode) :=
  match attention_of s with Some a => Some (a_dtype a, kv_quant_mode a) | None => None end.

Definition has_mixed_precision_kv_cache (c : KVCacheConfig) : bool :=
  let kv_cache_precisions :=
    remove_dups (omap precision_of (flat_map group_specs (kv_cache_groups c))) in
  (1 <? length kv_cache_precisions)%nat.

Definition needs_kv_cache_zeroing (c : KVCacheConfig) : bool :=
  has_mamba_layers c || has_mixed_precision_kv_cache c.

End Specs.
