(* ===== verification/KVLayout.v ===== *)
(** * KV-cache specifications: page sizes, merging and memory bounds

    What the specifications of [KVSpec] promise the allocator: the merged
    specification of a group has the page layout of each of its layers, the
    page with alignment is the least aligned one, the admission caps hold every
    block a request can occupy, and the memory of a uniform collection covers
    each of its layers. *)
From S2P Require Export KVSpec.
Import PyDict.

Section Layout.
Context `{KVTypesLaws, MathUtilsLaws}.

(** ** Induction through the dictionaries *)

Definition is_uniform (s : kv_spec) : bool :=
  match s with UniformTypeKVCacheSpecs _ _ => true | _ => false end.

Lemma kv_spec_deep_ind (P : kv_spec -> Prop) :
  (forall s, is_uniform s = false -> P s) ->
  (forall b d, Forall (fun kv => P kv.2) d -> P (UniformTypeKVCacheSpecs b d)) ->
  forall s, P s.
Proof.
  intros Hone Huni. fix IH 1. intros [].
  15: { apply Huni. induction kv_cache_specs as [|[k s] d IHd]; constructor; [apply IH|done]. }
  all: by apply Hone.
Qed.

(** No dictionary inside holds a key twice. *)
Fixpoint spec_wf (s : kv_spec) : Prop :=
  match s with
  | UniformTypeKVCacheSpecs _ d => dwf d /\ foldr (fun kv P => spec_wf kv.2 /\ P) True d
  | _ => True
  end.

Lemma spec_wf_items b d k s : spec_wf (UniformTypeKVCacheSpecs b d) -> (k, s) ∈ d -> spec_wf s.
Proof.
  intros [_ Hd]. revert Hd. induction d as [|[k' s'] d IH]; [by intros _ ?%elem_of_nil|].
  simpl. intros [Hs Hd] [[= -> ->]|Hin]%elem_of_cons; [done|]. by apply IH.
Qed.

(** ** Sums over a dictionary *)

Lemma sum_over_ok (f : kv_spec -> result Z) d n :
  sum_over f d = Ok n <-> exists ns, Forall2 (fun kv m => f kv.2 = Ok m) d ns /\ n = zsum ns.
Proof.
  revert n. induction d as [|[k s] d IH]; intros n; simpl; split.
  - intros [= <-]. by exists [].
  - by intros (ns & ->%Forall2_nil_inv_l & ->).
  - destruct (f s) as [m|] eqn:Hm; [|done]. destruct (sum_over f d) as [rest|] eqn:Hrest; [|done].
    intros [= <-]. destruct (proj1 (IH rest) eq_refl) as (ns & Hns & ->).
    exists (m :: ns). split; [by constructor|done].
  - intros (ns & (m & ns' & Hm & Hns & ->)%Forall2_cons_inv_l & ->). simpl in Hm. rewrite Hm. simpl.
    rewrite (proj2 (IH (zsum ns'))); [done|]. by exists ns'.
Qed.

Lemma sum_over_perm f d d' n : d ≡ₚ d' -> sum_over f d = Ok n -> sum_over f d' = Ok n.
Proof.
  intros Hp. revert n. induction Hp as [|[k s] d d' _ IH|[k s] [k' s'] d|d1 d2 d3 _ IH12 _ IH23];
    intros n; simpl; [done| | |].
  - destruct (f s) as [m|]; [|done]. simpl. destruct (sum_over f d) as [rest|] eqn:Hrest; [|done].
    by rewrite (IH _ eq_refl).
  - destruct (f s) as [m|], (f s') as [m'|], (sum_over f d) as [rest|]; simpl; try done.
    intros [= <-]. f_equal. lia.
  - intros Hn. by apply IH23, IH12.
Qed.

(** A dictionary with the items of another one, in its own order. *)
Lemma dict_reorder {A} (d d' : dict A) (R : A -> A -> Prop) :
  dwf d -> dwf d' -> length d = length d' ->
  (forall kv, kv ∈ d -> exists v', dget d' kv.1 = Some v' /\ R kv.2 v') ->
  exists d'', d'' ≡ₚ d' /\ Forall2 (fun kv kv' => R kv.2 kv'.2) d d''.
Proof.
  intros Hd Hd' Hlen Hget.
  assert (exists d'', Forall2 (fun kv kv' => kv.1 = kv'.1 /\ R kv.2 kv'.2 /\ kv' ∈ d') d d'')
    as [d'' Hall].
  { clear Hd Hlen. induction d as [|[k v] d IH]; [by exists []|].
    destruct (Hget (k, v)) as (v' & Hv' & HR); [left|].
    destruct IH as [d'' Hd'']; [intros; apply Hget; by right|].
    exists ((k, v') :: d''). constructor; [|done]. simpl. by rewrite <- dget_elem_of. }
  exists d''. split; [|by eapply Forall2_impl; [exact Hall|naive_solver]].
  assert (d''.*1 = d.*1) as Hkeys.
  { clear -Hall. induction Hall as [|? ? ? ? (? & _) ? IH]; [done|]. simpl. by f_equal. }
  apply Permutation.NoDup_Permutation_bis.
  - apply base.NoDup_ListNoDup, (NoDup_fmap_1 fst). by rewrite Hkeys.
  - rewrite <- (Forall2_length _ _ _ Hall). lia.
  - intros kv Hkv. apply list_elem_of_In. apply list_elem_of_In in Hkv.
    apply list_elem_of_lookup_1 in Hkv as [i Hi].
    by destruct (Forall2_lookup_r _ _ _ _ _ Hall Hi) as (? & _ & _ & _ & ?).
Qed.


(** ** Equal specifications have equal layouts *)

Lemma spec_eqb_items b d b' d' :
  spec_eqb (UniformTypeKVCacheSpecs b d) (UniformTypeKVCacheSpecs b' d') = true ->
  b = b' /\ length d = length d' /\
  forall kv, kv ∈ d -> exists v', dget d' kv.1 = Some v' /\ spec_eqb kv.2 v' = true.
Proof.
  simpl. intros [[Hb%Z.eqb_eq Hlen%Nat.eqb_eq]%andb_prop Hitems]%andb_prop. split; [done|].
  split; [done|]. clear Hlen. induction d as [|[k v] d IH]; [by intros ? ?%elem_of_nil|].
  apply andb_prop in Hitems as [Hv Hitems]. intros kv [->|Hin]%elem_of_cons; [|by apply IH].
  simpl. destruct (dget d' k) as [v'|]; [|done]. by exists v'.
Qed.

Lemma sum_over_forall2 (f : kv_spec -> result Z) (d d' : dict kv_spec) n :
  Forall2 (fun kv kv' => forall n, f kv.2 = Ok n <-> f kv'.2 = Ok n) d d' ->
  sum_over f d = Ok n <-> sum_over f d' = Ok n.
Proof.
  intros Hall. rewrite !sum_over_ok. split; intros (ns & Hns & ->); exists ns; (split; [|done]).
  - revert ns Hns. induction Hall as [|kv kv' d d' Hs _ IH]; intros ns Hns;
      inversion_clear Hns; constructor; [by apply Hs|by apply IH].
  - revert ns Hns. induction Hall as [|kv kv' d d' Hs _ IH]; intros ns Hns;
      inversion_clear Hns; constructor; [by apply Hs|by apply IH].
Qed.

Lemma spec_eqb_one s t :
  is_uniform s = false -> spec_eqb s t = true -> s = t.
Proof.
  destruct s, t; simpl; try done; intros _ Heq; try apply bool_decide_eq_true in Heq;
    destruct_and?; subst; try done.
  apply Z.eqb_eq in Heq. by subst.
Qed.

Lemma spec_eqb_page s t n :
  spec_wf s -> spec_wf t -> spec_eqb s t = true ->
  page_size_bytes s = Ok n <-> page_size_bytes t = Ok n.
Proof.
  revert t n. induction s as [s Hone|b d IH] using kv_spec_deep_ind; intros t n Hs Ht Heq.
  { by rewrite (spec_eqb_one _ _ Hone Heq). }
  destruct t as [| | | | | | | | | | | | | |b' d']; try done.
  apply spec_eqb_items in Heq as (_ & Hlen & Hitems).
  destruct (dict_reorder d d' (fun v v' => spec_eqb v v' = true /\ exists k, (k, v) ∈ d /\ (k, v') ∈ d'))
    as (d'' & Hperm & Hall); [apply Hs|apply Ht|done| |].
  { intros [k v] Hin. destruct (Hitems _ Hin) as (v' & Hget & Heq). exists v'. split_and!; [done..|].
    exists k. split; [done|]. apply dget_elem_of; [apply Ht|done]. }
  transitivity (page_size_bytes (UniformTypeKVCacheSpecs b' d'') = Ok n);
    [|by split; apply sum_over_perm].
  apply sum_over_forall2.
  clear -IH Hall Hs Ht. rewrite Forall_forall in IH.
  eapply Forall2_impl; [exact Hall|]. intros kv kv' (Heq & k & Hin & Hin') m.
  apply (IH _ Hin _ _ (spec_wf_items _ _ _ _ Hs Hin) (spec_wf_items _ _ _ _ Ht Hin') Heq).
Qed.

Lemma spec_eqb_shape s t :
  spec_eqb s t = true -> class_of t = class_of s /\ block_size_of t = block_size_of s.
Proof.
  destruct (is_uniform s) eqn:Hs; [|by intros ->%spec_eqb_one].
  destruct s, t; try done. by intros (-> & _)%spec_eqb_items.
Qed.


(** ** Merging *)

Definition value_head_size (s : kv_spec) : option Z := option_map head_size_v (full_of s).

Lemma same_attention_in specs a s :
  same_attention specs a = true -> s ∈ specs -> attention_of s = Some a.
Proof.
  unfold same_attention. rewrite forallb_true, Forall_forall.
  intros Hall Hs. by apply Hall, bool_decide_eq_true in Hs.
Qed.

(** The successful calls of the shared body of the [FullAttentionSpec] family. *)
Lemma merge_full_ok {X} (extra : kv_spec -> result X) cls specs m :
  merge_full extra cls specs = Ok m ->
  exists s0 a f x w c, specs !! 0%nat = Some s0 /\ full_of s0 = Some f /\ extra s0 = Ok x /\
    m = cls x a (mkFull (head_size_v f) w c (existsb non_causal (omap full_of specs))) /\
    (forall s, s ∈ specs -> attention_of s = Some a) /\
    merge_window_sizes (omap sliding_window (omap full_of specs)) = Ok w /\
    merge_window_sizes (omap attention_chunk_size (omap full_of specs)) = Ok c.
Proof.
  unfold merge_full. intros Hm. inv_ok. destruct specs as [|s0 specs]; [done|].
  destruct (attention_of s0) as [a|] eqn:Ha; [|done]. destruct (full_of s0) as [f|] eqn:Hf; [|done].
  inv_ok. eexists s0, a, f, _, _, _. split_and!; try done.
  intros s Hs. by apply (same_attention_in (s0 :: specs)).
Qed.

Lemma window_sizes_spec l w :
  merge_window_sizes l = Ok w <-> (w = None /\ l = []) \/ (exists x, w = Some x /\ x ∈ l /\ Forall (x =.) l).
Proof.
  unfold merge_window_sizes. destruct (sorted_set l) as [|x [|y rest]] eqn:Hl.
  - apply sorted_set_nil in Hl as ->. split; [intros [= <-]; by left|].
    by intros [[-> _]|(? & _ & []%elem_of_nil & _)].
  - assert (forall y, y ∈ l <-> y = x) as Hin.
    { intros y. by rewrite <- elem_of_sorted_set, Hl, list_elem_of_singleton. }
    setoid_rewrite Forall_forall. split.
    + intros [= <-]. right. exists x. split_and!; [done|by apply Hin|]. intros y Hy. symmetry. by apply Hin.
    + intros [[-> ->]|(z & -> & Hz & _)]; [done|].
      by apply Hin in Hz as ->.
  - split; [done|]. intros [[_ ->]|(z & _ & _ & Hall)]; [done|].
    rewrite Forall_forall in Hall. exfalso.
    assert (x ∈ l) as Hx by (rewrite <- elem_of_sorted_set, Hl; left).
    assert (y ∈ l) as Hy by (rewrite <- elem_of_sorted_set, Hl; right; left).
    apply Hall in Hx, Hy. pose proof (sorted_set_sorted l) as Hsort. rewrite Hl in Hsort.
    apply StronglySorted_inv in Hsort as [_ Hsort]. apply Forall_inv in Hsort. lia.
Qed.

(** A member of the family with the same fields as another has its page. *)
Lemma page_of_full s m :
  class_of m = class_of s -> issubclass (class_of s) cMLAAttentionSpec = false ->
  is_Some (full_of s) -> attention_of m = attention_of s -> value_head_size m = value_head_size s ->
  tq_slot_size_of m = tq_slot_size_of s ->
  page_size_bytes m = page_size_bytes s /\ block_size_of m = block_size_of s.
Proof.
  unfold value_head_size. destruct s, m; simpl; try done; try (by intros _ _ [? ?]);
    intros _ _ _ [= ->] [= Hv] Htq; unfold full_real_page_size_bytes, tq_real_page_size_bytes;
    simpl; rewrite ?Hv; try done; injection Htq as ->;
    unfold full_real_page_size_bytes; by rewrite ?Hv.
Qed.


Lemma one_element {A B} `{EqDecision B} (f : A -> B) l x y :
  (length (remove_dups (map f l)) =? 1)%nat = true -> x ∈ l -> y ∈ l -> f x = f y.
Proof.
  intros Hl%Nat.eqb_eq Hx Hy. apply list_elem_of_In, (in_map f), list_elem_of_In in Hx, Hy.
  apply elem_of_remove_dups in Hx, Hy.
  destruct (remove_dups (map f l)) as [|z [|]]; try done.
  apply list_elem_of_singleton in Hx, Hy. congruence.
Qed.

Lemma one_mla_format_same l p q :
  one_mla_format l = true -> p ∈ l -> q ∈ l ->
  cache_dtype_str p.2 = cache_dtype_str q.2 /\ compress_ratio p.2 = compress_ratio q.2 /\
  model_version p.2 = model_version q.2 /\
  indexes_kv_by_block_stride p.1 = indexes_kv_by_block_stride q.1.
Proof.
  unfold one_mla_format. intros Hl Hp Hq. apply andb_prop in Hl as [Hl Hs].
  apply andb_prop in Hl as [Hl Hv]. apply andb_prop in Hl as [Hd Hc].
  split_and!; [exact (one_element _ _ _ _ Hd Hp Hq)|exact (one_element _ _ _ _ Hc Hp Hq)
    |exact (one_element _ _ _ _ Hv Hp Hq)|exact (one_element _ _ _ _ Hs Hp Hq)].
Qed.

(** The successful calls of [MLAAttentionSpec.merge]. *)
Lemma merge_mla_ok cls specs m :
  (forall a f ml b, attention_of (cls a f ml b) = Some a) ->
  merge_mla cls specs = Ok m ->
  exists a f ml b, m = cls a f ml b /\ alignment ml = None /\
    forall s, s ∈ specs -> exists ms, mla_of s = Some (a, ms) /\
      cache_dtype_str ms = cache_dtype_str ml /\ compress_ratio ms = compress_ratio ml /\
      model_version ms = model_version ml.
Proof.
  intros Hcls. unfold merge_mla. intros Hm. apply rbind_ok in Hm as ([] & Hmla%require_ok & Hm).
  apply rbind_ok in Hm as ([] & Hone%require_ok & Hm).
  destruct specs as [|s0 rest]; [done|]. destruct (mla_of s0) as [[a0 m0]|] eqn:Hs0; [|done].
  simpl in Hm. rewrite Hcls in Hm. apply rbind_ok in Hm as ([] & Hsame%require_ok & [= <-]).
  eexists _, _, _, _. split_and!; [done..|]. intros s Hs. cbn [cache_dtype_str compress_ratio model_version].
  pose proof (same_attention_in (s0 :: rest) _ _ Hsame Hs) as Ha.
  rewrite forallb_true, Forall_forall in Hmla. specialize (Hmla _ Hs).
  assert (exists ms, mla_of s = Some (a0, ms)) as [ms Hms].
  { destruct s; try done; injection Ha as <-; by eexists. }
  exists ms. split; [done|]. assert ((a0, ms) ∈ omap mla_of (s0 :: rest)) as Hin.
  { apply list_elem_of_omap. by exists s. }
  assert ((a0, m0) ∈ omap mla_of (s0 :: rest)) as Hin0.
  { apply list_elem_of_omap. exists s0. split; [left|done]. }
  destruct (one_mla_format_same _ _ _ Hone Hin Hin0) as (? & ? & ? & _). done.
Qed.

Lemma page_of_mla s m a ms ml :
  class_of m = class_of s -> issubclass (class_of s) cMLAAttentionSpec = true ->
  mla_of s = Some (a, ms) -> mla_of m = Some (a, ml) ->
  cache_dtype_str ms = cache_dtype_str ml -> compress_ratio ms = compress_ratio ml ->
  model_version ms = model_version ml ->
  page_size_bytes m = page_size_bytes s /\ block_size_of m = block_size_of s /\
  storage_block_size m = storage_block_size s.
Proof.
  destruct s, m; try done; intros _ _ [= <- <-] [= -> <-] Hd Hc Hv; simpl;
    unfold mla_real_page_size_bytes, mla_storage_block_size; by rewrite Hd, Hc, Hv.
Qed.

Lemma all_slots_ok tq0 specs :
  all_slots tq0 specs = Ok true -> Forall (fun s => tq_slot_size_of s = Ok tq0) specs.
Proof.
  induction specs as [|s specs IH]; [constructor|]. simpl.
  destruct (tq_slot_size_of s) as [tq|] eqn:Hs; [|done]. simpl.
  destruct (Z.eqb_spec tq tq0); [|done]. subst. constructor; auto.
Qed.

Lemma merge_base_ok specs m :
  merge_base specs = Ok m -> m ∈ specs /\ Forall (fun s => spec_eqb s m = true \/ s = m) specs.
Proof.
  destruct specs as [|s0 specs]; [done|]. simpl. intros Hm. inv_ok. split; [left|].
  constructor; [by right|]. match goal with Hf : forallb _ _ = true |- _ => rewrite forallb_true in Hf;
    eapply Forall_impl; [exact Hf|naive_solver] end.
Qed.


Definition same_layout (m s : kv_spec) : Prop :=
  block_size_of m = block_size_of s /\ storage_block_size m = storage_block_size s /\
  forall n, page_size_bytes s = Ok n <-> page_size_bytes m = Ok n.

Lemma storage_full s :
  issubclass (class_of s) cFullAttentionSpec = true ->
  issubclass (class_of s) cMLAAttentionSpec = false -> storage_block_size s = Ok (block_size_of s).
Proof. by destruct s. Qed.

Lemma same_layout_full s m a c :
  class_of m = class_of s -> issubclass (class_of s) cFullAttentionSpec = true ->
  issubclass (class_of s) cMLAAttentionSpec = false ->
  attention_of m = Some a -> attention_of s = Some a -> value_head_size m = value_head_size s ->
  tq_slot_size_of m = tq_slot_size_of s -> class_of s = c -> class_of m = c /\ same_layout m s.
Proof.
  intros Hm Hfull Hmla Ha Hs Hv Htq Hc. split; [by rewrite Hm|].
  destruct (page_of_full s m) as [Hpage Hb]; try done; [by destruct s|congruence|].
  unfold same_layout. rewrite Hpage. rewrite !storage_full by (rewrite ?Hm; done). by rewrite Hb.
Qed.

Lemma merge_full_layout {X} (extra : kv_spec -> result X) cls specs m s :
  merge_full extra cls specs = Ok m -> s ∈ specs ->
  Forall (fun s' => value_head_size s' = value_head_size s) specs ->
  (forall x a f, full_of (cls x a f) = Some f) ->
  exists x a f, m = cls x a f /\ attention_of s = Some a /\ value_head_size m = value_head_size s.
Proof.
  intros (s0 & a & f & x & w & c & Hs0 & Hf & _ & -> & Ha & _)%merge_full_ok Hs Hv Hcls.
  eexists x, a, _. split_and!; [done|by apply Ha|].
  apply list_elem_of_lookup_2 in Hs0. rewrite Forall_forall in Hv. rewrite <- (Hv _ Hs0).
  unfold value_head_size. rewrite Hf. by rewrite Hcls.
Qed.

Lemma merge_mla_layout cls specs m s :
  (forall a f ml b, mla_of (cls a f ml b) = Some (a, ml) /\ class_of (cls a f ml b) = class_of s) ->
  issubclass (class_of s) cMLAAttentionSpec = true ->
  merge_mla cls specs = Ok m -> s ∈ specs -> class_of m = class_of s /\ same_layout m s.
Proof.
  intros Hcls Hmla Hm Hs. apply merge_mla_ok in Hm as (a & f & ml & b & -> & _ & Hall).
  - destruct (Hall s Hs) as (ms & Hms & Hd & Hr & Hv). destruct (Hcls a f ml b) as [Hm' Hc].
    split; [done|].
    destruct (page_of_mla s (cls a f ml b) a ms ml) as (Hpage & Hb & Hst); try done.
    unfold same_layout. by rewrite Hpage.
  - intros a f ml b. destruct (Hcls a f ml b) as [Hcm _].
    destruct (cls a f ml b); try done; by injection Hcm as -> ->.
Qed.

Lemma merge_full_attention_layout specs m s :
  Forall (fun s' => value_head_size s' = value_head_size s) specs ->
  merge_full_attention specs = Ok m -> s ∈ specs ->
  exists a f, m = FullAttentionSpec a f /\ attention_of s = Some a /\ value_head_size s = Some (head_size_v f).
Proof.
  intros Hv Hm Hs. apply (merge_full_layout _ _ _ _ s) in Hm as (_ & a & f & -> & Ha & Hh); try done.
  exists a, f. by rewrite <- Hh.
Qed.

Lemma merge_tq_layout specs m s :
  Forall (fun s' => value_head_size s' = value_head_size s) specs ->
  merge_tq specs = Ok m -> s ∈ specs ->
  exists a f tq, m = TQFullAttentionSpec a f tq /\ attention_of s = Some a /\
    value_head_size s = Some (head_size_v f) /\ tq_slot_size_of s = Ok tq.
Proof.
  intros Hv Hm Hs. unfold merge_tq in Hm. apply rbind_ok in Hm as (merged & Hmerged & Hm).
  destruct (merge_full_layout _ _ _ _ s Hmerged Hs Hv ltac:(done)) as (_ & a & f & -> & Ha & Hh).
  destruct specs as [|s0 rest]; [done|]. apply rbind_ok in Hm as (tq & _ & Hm).
  apply rbind_ok in Hm as (same & Hsame & Hm). apply rbind_ok in Hm as ([] & ->%require_ok & [= <-]).
  apply all_slots_ok in Hsame. rewrite Forall_forall in Hsame.
  exists a, f, tq. rewrite <- Hh. split_and!; auto.
Qed.

Lemma merge_rswa_layout specs m s :
  Forall (fun s' => value_head_size s' = value_head_size s) specs ->
  merge_rswa specs = Ok m -> s ∈ specs ->
  exists a f w, m = RSWASpec a f w /\ attention_of s = Some a /\ value_head_size s = Some (head_size_v f).
Proof.
  intros Hv Hm Hs. unfold merge_rswa in Hm. apply rbind_ok in Hm as ([] & _ & Hm).
  destruct (sorted_set _) as [|w []]; try done. apply rbind_ok in Hm as (base & Hbase & Hm).
  destruct (merge_full_attention_layout _ _ _ Hv Hbase Hs) as (a & f & -> & Ha & Hh).
  injection Hm as <-. by exists a, f, w.
Qed.

(** C22 (merging keeps the layout): when a group of layer specifications of one
    class merges, the result is of that class and has the block size, the
    stored block size and the page size of each of its layers.  The
    full-attention classes compare only the fields of [AttentionSpec], so
    there the value head sizes have to agree beforehand. *)
Theorem merge_keeps_layout c specs m s :
  c <> cSlidingWindowMLASpec ->
  Forall (fun s' => class_of s' = c /\ spec_wf s') specs ->
  (issubclass c cMLAAttentionSpec = false ->
     Forall (fun s' => value_head_size s' = value_head_size s) specs) ->
  merge c specs = Ok m -> s ∈ specs ->
  class_of m = c /\ same_layout m s.
Proof.
  intros Hwin Hspecs Hv Hm Hs. rewrite Forall_forall in Hspecs.
  destruct (Hspecs s Hs) as [Hc Hwf].
  assert (merge_base specs = Ok m -> class_of m = c /\ same_layout m s) as Hbase.
  { intros (Hmin & Hall)%merge_base_ok. rewrite Forall_forall in Hall.
    destruct (Hspecs _ Hmin) as [Hmc Hmwf]. split; [done|].
    destruct (Hall s Hs) as [Heq| ->]; [|done].
    pose proof (fun n => spec_eqb_page s m n Hwf Hmwf Heq) as Hpage.
    destruct (spec_eqb_shape _ _ Heq) as [Hclass Hb].
    unfold same_layout. split_and!; [done| |done].
    destruct (is_uniform s) eqn:Hu; [|by rewrite (spec_eqb_one _ _ Hu Heq)].
    destruct s, m; try done. simpl in *. by subst. }
  destruct c; try (by apply Hbase); try done; cbn [merge] in Hm.
  - destruct (merge_full_attention_layout _ _ _ (Hv eq_refl) Hm Hs) as (a & f & -> & Ha & Hh).
    by apply (same_layout_full s _ a); destruct s.
  - destruct (merge_tq_layout _ _ _ (Hv eq_refl) Hm Hs) as (a & f & tq & -> & Ha & Hh & Htq).
    by apply (same_layout_full s _ a); destruct s.
  - rewrite <- Hc. by apply (merge_mla_layout MLAAttentionSpec specs); rewrite ?Hc.
  - rewrite <- Hc. by apply (merge_mla_layout HiddenStateCacheSpec specs); rewrite ?Hc.
  - destruct (merge_rswa_layout _ _ _ (Hv eq_refl) Hm Hs) as (a & f & w & -> & Ha & Hh).
    by apply (same_layout_full s _ a); destruct s.
  - destruct (merge_full_layout _ _ _ _ s Hm Hs (Hv eq_refl) ltac:(done)) as (x & a & f & -> & Ha & Hh).
    by apply (same_layout_full s _ a); destruct s.
Qed.


(** ** Admission caps *)

(** The blocks, of [b] tokens each, that hold a token of [lo, hi). *)
Definition held_blocks (b lo hi : Z) (blocks : list Z) : Prop :=
  NoDup blocks /\ forall i, i ∈ blocks -> exists t, lo <= t < hi /\ i = t / b.

Lemma held_blocks_length b lo hi blocks :
  0 < b -> lo < hi -> held_blocks b lo hi blocks ->
  Z.of_nat (length blocks) <= (hi - 1) / b - lo / b + 1.
Proof.
  intros Hb Hlt [Hnd Hin].
  assert (length blocks <= length (range (lo / b) ((hi - 1) / b + 1)))%nat as Hlen.
  { apply submseteq_length, NoDup_submseteq; [done|]. intros i Hi. apply elem_of_range.
    destruct (Hin i Hi) as (t & Ht & ->).
    assert (lo / b <= t / b <= (hi - 1) / b) by (split; apply Z.div_le_mono; lia). lia. }
  unfold range in Hlen. rewrite length_seqZ in Hlen.
  assert (lo / b <= (hi - 1) / b) by (apply Z.div_le_mono; lia). lia.
Qed.

Lemma held_blocks_nil b lo hi blocks : hi <= lo -> held_blocks b lo hi blocks -> blocks = [].
Proof.
  intros Hle [_ Hin]. destruct blocks as [|i blocks]; [done|].
  destruct (Hin i ltac:(left)) as (t & ? & _). lia.
Qed.

(** A span of [n] tokens touches one block more than it fills, except from a
    block boundary. *)
Lemma held_span b lo hi n blocks :
  0 < b -> lo <= hi <= lo + n -> held_blocks b lo hi blocks ->
  Z.of_nat (length blocks) <= cdiv n b + 1.
Proof.
  intros Hb Hspan Hheld. pose proof (cdiv_least n b Hb).
  destruct (Z.le_gt_cases hi lo) as [Hle|Hlt].
  { rewrite (held_blocks_nil _ _ _ _ Hle Hheld). simpl. nia. }
  pose proof (held_blocks_length _ _ _ _ Hb Hlt Hheld). pose proof (Z.div_mod lo b ltac:(lia)).
  pose proof (Z.mod_pos_bound lo b Hb).
  assert ((hi - 1) / b < lo / b + cdiv n b + 1) by (apply Z.div_lt_upper_bound; nia). lia.
Qed.

Lemma held_span_aligned b lo hi n blocks :
  0 < b -> (b | lo) -> lo <= hi <= lo + n -> held_blocks b lo hi blocks ->
  Z.of_nat (length blocks) <= cdiv n b.
Proof.
  intros Hb [q ->] Hspan Hheld. pose proof (cdiv_least n b Hb).
  destruct (Z.le_gt_cases hi (q * b)) as [Hle|Hlt].
  { rewrite (held_blocks_nil _ _ _ _ Hle Hheld). simpl. nia. }
  pose proof (held_blocks_length _ _ _ _ Hb Hlt Hheld) as Hlen. rewrite Z.div_mul in Hlen by lia.
  assert ((hi - 1) / b < q + cdiv n b) by (apply Z.div_lt_upper_bound; nia). lia.
Qed.

(** C23 (admission caps): the per-request cap of a sliding-window layer covers every block the
    request can hold: whatever the position of the window, the last
    [sliding_window - 1] processed tokens and the tokens in flight, never past
    the model length, lie in at most the cap's number of blocks, and the
    memory reserved, without decode context parallelism, is that many pages.
    For chunked local attention the same holds when the chunk starts at a block
    boundary, and otherwise the request can hold at most one block more than
    the cap (chunk_cap_unaligned: it does). *)
Theorem admission_cap_suffices cfg a lo hi blocks :
  0 < block_size a -> 0 <= max_in_flight_tokens cfg -> 0 <= lo <= hi -> hi <= max_model_len cfg ->
  held_blocks (block_size a) lo hi blocks ->
  (forall w, 1 <= sw_sliding_window w ->
     hi - lo <= sw_sliding_window w - 1 + max_in_flight_tokens cfg ->
     exists cap, window_max_admission_blocks_per_request a w (max_in_flight_tokens cfg)
                   (max_model_len cfg) = Ok cap /\
       Z.of_nat (length blocks) <= cap /\
       forall page, page_size_bytes (SlidingWindowSpec a w) = Ok page ->
         decode_context_parallel_size cfg = 1 ->
         max_memory_usage_bytes cfg (SlidingWindowSpec a w) = Ok (cap * page)) /\
  (forall chunk, 0 < chunk ->
     hi - lo <= chunk + max_in_flight_tokens cfg ->
     exists cap, chunked_max_admission_blocks_per_request a chunk (max_in_flight_tokens cfg)
                   (max_model_len cfg) = Ok cap /\
       Z.of_nat (length blocks) <= cap + 1 /\
       ((block_size a | lo) -> Z.of_nat (length blocks) <= cap) /\
       forall page, page_size_bytes (ChunkedLocalAttentionSpec a chunk) = Ok page ->
         max_memory_usage_bytes cfg (ChunkedLocalAttentionSpec a chunk) = Ok (cap * page)).
Proof.
  intros Hb Hfl Hlo Hhi Hheld.
  assert (block_size a =? 0 = false) as Hb0 by lia.
  split.
  - intros w Hw Hspan. eexists. unfold window_max_admission_blocks_per_request, cdiv_.
    rewrite Hb0. split; [done|]. split; [apply (held_span _ lo hi); [done| |done]; lia|].
    intros page Hpage Hdcp. simpl in *. rewrite Hdcp, Hpage. simpl.
    unfold window_max_admission_blocks_per_request, cdiv_. by rewrite Hb0.
  - intros chunk Hchunk Hspan. eexists.
    unfold chunked_max_admission_blocks_per_request, cdiv_.
    rewrite Hb0. split; [done|]. split; [apply (held_span _ lo hi); [done| |done]; lia|].
    split; [intros Halign; apply (held_span_aligned _ lo hi); [done..| |done]; lia|].
    intros page Hpage. simpl in *. rewrite Hpage.
    unfold chunked_max_admission_blocks_per_request, cdiv_. by rewrite Hb0.
Qed.


(** ** Alignment *)

(** The objects the constructors of the MLA classes build from the fields [a]
    and [m], with the data size of their page. *)
Definition built (a : attention) (m : mla) (real : Z) (s : kv_spec) : Prop :=
  (mla_real_page_size_bytes a m = Ok real /\
   exists f multi, init_mla MLAAttentionSpec a f m multi = Ok s
                \/ init_mla HiddenStateCacheSpec a f m multi = Ok s) \/
  (window_mla_real_page_size_bytes a m = Ok real /\
   exists w, init_window_mla a w m = Ok s).

Lemma apply_alignment_ok a m real al a' :
  alignment m = Some al -> 0 < al -> page_size_padded a = None ->
  _apply_alignment_padding a m (Ok real) = Ok a' ->
  a' = a <| page_size_padded := page_size_padded a' |> /\
  padded_page_size (page_size_padded a') real = Ok (round_up real al).
Proof.
  intros Hal Hpos Hpad. unfold _apply_alignment_padding, round_up_. rewrite Hal. simpl.
  destruct (Z.eqb_spec al 0); [lia|]. simpl.
  destruct (round_up_least real al Hpos) as [Hle _].
  destruct (Z.eqb_spec (round_up real al) real) as [Heq|Hne]; intros [= <-].
  - rewrite Hpad, Heq. split; [|done]. destruct a; simpl in *. by subst.
  - split; [done|]. simpl. by rewrite (proj2 (Z.leb_le _ _) (proj1 Hle)).
Qed.

(** Aligned pages: an MLA specification built with an alignment and no padding
    of its own has the least multiple of the alignment that holds its data as
    its page size, and reading it never fails; per-token-head scales, stored
    beside the data, are not counted by the alignment and so excluded. *)
Theorem aligned_page_least a m real s al :
  built a m real s -> alignment m = Some al -> 0 < al -> page_size_padded a = None ->
  is_per_token_head (kv_quant_mode a) = false ->
  exists n, page_size_bytes s = Ok n /\ (al | n) /\ real <= n /\
    forall n', (al | n') -> real <= n' -> n <= n'.
Proof.
  intros Hbuilt Hal Hpos Hpad Hmode. exists (round_up real al).
  destruct (round_up_least real al Hpos) as [Hle Hdiv].
  enough (page_size_bytes s = Ok (round_up real al)) as ->.
  { split_and!; [done..|lia|]. intros n' [q ->] Hn'. destruct Hdiv as [r Hr]. rewrite Hr in *.
    assert (r < q + 1) by (apply (Z.mul_lt_mono_pos_r al); lia). apply Z.mul_le_mono_nonneg_r; lia. }
  destruct Hbuilt as [(Hreal & f & multi & [Hs|Hs])|(Hreal & w & Hs)];
    unfold init_mla, init_window_mla in Hs; rewrite Hreal in Hs;
    apply rbind_ok in Hs as (a' & Ha' & [= <-]);
    destruct (apply_alignment_ok _ _ _ _ _ Hal Hpos Hpad Ha') as [-> Hpage];
    revert Hpage Hreal; generalize (page_size_padded a'); intros pad Hpage Hreal;
    cbn [page_size_bytes attention_of real_page_size_bytes];
    (change (mla_real_page_size_bytes _ m) with (mla_real_page_size_bytes a m)
     || change (window_mla_real_page_size_bytes _ m) with (window_mla_real_page_size_bytes a m));
    rewrite Hreal; simpl; unfold unpadded_page_size_bytes; simpl; by rewrite Hmode.
Qed.

(** ** Uniform collections *)

Lemma max_over_ok (f : kv_spec -> result Z) d n :
  max_over f d = Ok n ->
  (forall k s, (k, s) ∈ d -> exists m, f s = Ok m /\ m <= n) /\ exists k s, (k, s) ∈ d /\ f s = Ok n.
Proof.
  revert n. induction d as [|[k s] d IH]; intros n Hn; [done|]. simpl in Hn.
  apply rbind_ok in Hn as (m & Hm & Hn). destruct d as [|kv d].
  { injection Hn as <-. split; [|exists k, s; split; [left|done]].
    intros k' s' [[= -> ->]|[]%elem_of_nil]%elem_of_cons. by exists m. }
  apply rbind_ok in Hn as (rest & Hrest & [= <-]). destruct (IH _ Hrest) as (Hall & k0 & s0 & Hin & Hs0).
  split.
  - intros k' s' [[= -> ->]|Hin']%elem_of_cons; [exists m; split; [done|lia]|].
    destruct (Hall _ _ Hin') as (m' & ? & ?). exists m'. split; [done|lia].
  - destruct (Z.max_spec m rest) as [[_ ->]|[_ ->]]; [exists k0, s0|exists k, s];
      (split; [by constructor|done]).
Qed.

(** Uniform memory: the memory of a uniform collection covers each of its layers: it is a
    number of pages of every layer, that number suffices for the memory bound
    of each layer alone, and one page less does not for some layer. *)
Theorem uniform_memory_covers cfg b specs total :
  (forall k s page, (k, s) ∈ specs -> page_size_bytes s = Ok page -> 0 < page) ->
  max_memory_usage_bytes cfg (UniformTypeKVCacheSpecs b specs) = Ok total ->
  exists pages sizes,
    Forall2 (fun kv size => page_size_bytes kv.2 = Ok size) specs sizes /\
    total = zsum (map (Z.mul pages) sizes) /\
    max_memory_usage_pages cfg specs = Ok pages /\
    (forall k s, (k, s) ∈ specs -> exists bytes page,
       max_memory_usage_bytes cfg s = Ok bytes /\ page_size_bytes s = Ok page /\ bytes <= pages * page) /\
    exists k s bytes page, (k, s) ∈ specs /\
       max_memory_usage_bytes cfg s = Ok bytes /\ page_size_bytes s = Ok page /\ (pages - 1) * page < bytes.
Proof.
  intros Hpos Htotal. simpl in Htotal. apply rbind_ok in Htotal as (pages & Hpages & Htotal).
  apply rbind_ok in Htotal as (page & Hpage & [= <-]). apply sum_over_ok in Hpage as (sizes & Hsizes & ->).
  exists pages, sizes. split; [done|]. split.
  { clear. induction sizes as [|n sizes IH]; simpl; [lia|]. lia. }
  split; [done|].
  assert (forall k s p, (k, s) ∈ specs ->
    (let* bytes := max_memory_usage_bytes cfg s in let* page := page_size_bytes s in cdiv_ bytes page) = Ok p ->
    exists bytes page, max_memory_usage_bytes cfg s = Ok bytes /\ page_size_bytes s = Ok page /\
      bytes <= p * page < bytes + page) as Hone.
  { intros k s p Hin Hp. apply rbind_ok in Hp as (bytes & Hbytes & Hp).
    apply rbind_ok in Hp as (page & Hpage & Hp). pose proof (Hpos _ _ _ Hin Hpage) as Hlt.
    exists bytes, page. unfold cdiv_ in Hp. destruct (Z.eqb_spec page 0); [lia|]. injection Hp as <-.
    split_and!; [done..| |]; by apply cdiv_least. }
  destruct (max_over_ok _ _ _ Hpages) as (Hall & k & s & Hin & Hs). split.
  - intros k' s' Hin'. destruct (Hall _ _ Hin') as (p & Hp & Hle).
    destruct (Hone _ _ _ Hin' Hp) as (bytes & pg & Hb & Hpg & Hbnd). exists bytes, pg.
    pose proof (Hpos _ _ _ Hin' Hpg). split_and!; [done..|]. nia.
  - destruct (Hone _ _ _ Hin Hs) as (bytes & pg & Hb & Hpg & Hbnd).
    exists k, s, bytes, pg. split_and!; [done..|]. lia.
Qed.

(** ** Kinds and zeroing *)

(** The kind a class has by itself. *)
Definition own_kind (c : spec_class) : option KVCacheSpecKind :=
  match c with
  | cFullAttentionSpec => Some FULL_ATTENTION
  | cMLAAttentionSpec => Some MLA_ATTENTION
  | cSlidingWindowSpec => Some SLIDING_WINDOW
  | cSlidingWindowMLASpec => Some SLIDING_WINDOW_MLA
  | cMambaSpec => Some MAMBA
  | cChunkedLocalAttentionSpec => Some CHUNKED_LOCAL_ATTENTION
  | cSinkFullAttentionSpec => Some SINK_FULL_ATTENTION
  | cEncoderOnlyAttentionSpec => Some ENCODER_ONLY_ATTENTION
  | cCrossAttentionSpec => Some CROSS_ATTENTION
  | _ => None
  end.

(** The order of the tests gives the most specific kind: the kind of an object
    is that of the first class of its method resolution order that has one. *)
Theorem kind_most_specific s :
  is_uniform s = false ->
  get_kv_cache_spec_kind s = default UNKNOWN (head (omap own_kind (mro (class_of s)))).
Proof. by destruct s. Qed.

(** Zeroing is asked for exactly when a group is Mamba or two attention layers
    store their cache with different data types or quantisation modes. *)
Theorem zeroing_exact c :
  needs_kv_cache_zeroing c = true <->
  (exists g m, g ∈ kv_cache_groups c /\ kv_cache_spec g = MambaSpec m) \/
  (exists s t, s ∈ flat_map group_specs (kv_cache_groups c) /\ t ∈ flat_map group_specs (kv_cache_groups c) /\
     is_Some (precision_of s) /\ is_Some (precision_of t) /\ precision_of s <> precision_of t).
Proof.
  unfold needs_kv_cache_zeroing. rewrite orb_true_iff.
  assert (has_mamba_layers c = true <->
    exists g m, g ∈ kv_cache_groups c /\ kv_cache_spec g = MambaSpec m) as ->.
  { unfold has_mamba_layers. rewrite existsb_exists. split.
    - intros (g & Hg%list_elem_of_In & Hm). destruct (kv_cache_spec g) eqn:Hs; try done. by exists g, m.
    - intros (g & m & Hg & Hs). exists g. rewrite Hs. by rewrite <- list_elem_of_In. }
  apply or_iff_compat_l. unfold has_mixed_precision_kv_cache. rewrite Nat.ltb_lt.
  set (specs := flat_map _ _). clearbody specs. split.
  - intros Hlen. pose proof (NoDup_remove_dups (omap precision_of specs)) as Hnd.
    destruct (remove_dups _) as [|p [|q l]] eqn:Hl; simpl in Hlen; [lia..|].
    assert (p ∈ omap precision_of specs /\ q ∈ omap precision_of specs) as [Hp Hq].
    { split; apply elem_of_remove_dups; rewrite Hl; [left|right; left]. }
    apply list_elem_of_omap in Hp as (s & Hs & Hps), Hq as (t & Ht & Hqt).
    exists s, t. split_and!; try done. rewrite Hps, Hqt. intros [= ->].
    apply NoDup_cons in Hnd as [Hni _]. apply Hni. left.
  - intros (s & t & Hs & Ht & [p Hp] & [q Hq] & Hne).
    assert (p ∈ remove_dups (omap precision_of specs)) as Hp'
      by (apply elem_of_remove_dups, list_elem_of_omap; by exists s).
    assert (q ∈ remove_dups (omap precision_of specs)) as Hq'
      by (apply elem_of_remove_dups, list_elem_of_omap; by exists t).
    destruct (remove_dups _) as [|x [|]]; [by apply elem_of_nil in Hp'| |simpl; lia].
    apply list_elem_of_singleton in Hp', Hq'. congruence.
Qed.

End Layout.

(** ** Concrete layers *)

Inductive sample_dtype := FLOAT32 | BFLOAT16 | UINT8.
#[export] Instance sample_dtype_eq_dec : EqDecision sample_dtype.
Proof. solve_decision. Defined.

Definition sample_types : KVTypes := {|
  dtype := sample_dtype;
  get_dtype_size d := match d with FLOAT32 => 4 | BFLOAT16 => 2 | UINT8 => 1 end;
  float32 := FLOAT32;
  get_uniform_type_base_spec c :=
    if issubclass c cFullAttentionSpec then Some cFullAttentionSpec else None
|}.

Section Samples.
#[local] Existing Instances sample_types std_math std_math_laws.

#[local] Instance sample_laws : KVTypesLaws.
Proof. split. by intros []. Qed.

Definition sample_attention (b : Z) (pad : option Z) : attention :=
  mkAttention b 1 576 UINT8 FP8_PER_TENSOR pad false.
Definition sample_full : full := mkFull 576 None None false.
Definition sample_mla : mla := mkMla (Some "fp8_ds_mla") (Some 576) 4 (Some "deepseek_v4").

(** A compressed MLA layer: 64 stored tokens of 584 bytes, padded to 576. *)
Definition sample_layer : kv_spec :=
  MLAAttentionSpec (sample_attention 256 (Some 37440)) sample_full sample_mla false.

Example sample_layer_built :
  init_mla MLAAttentionSpec (sample_attention 256 None) sample_full sample_mla false = Ok sample_layer.
Proof. reflexivity. Qed.

Definition sample_merged : kv_spec :=
  MLAAttentionSpec (sample_attention 256 (Some 37440)) sample_full
    (mkMla (Some "fp8_ds_mla") None 4 (Some "deepseek_v4")) false.

Lemma merge_keeps_layout_witness :
  merge cMLAAttentionSpec [sample_layer; sample_layer] = Ok sample_merged /\
  same_layout sample_merged sample_layer.
Proof.
  split; [reflexivity|].
  refine (proj2 (merge_keeps_layout cMLAAttentionSpec [sample_layer; sample_layer] sample_merged
                   sample_layer _ _ _ _ _)).
  - discriminate.
  - repeat constructor.
  - discriminate.
  - reflexivity.
  - left.
Defined.

Lemma aligned_page_least_witness :
  exists n, page_size_bytes sample_layer = Ok n /\ (576 | n) /\ 37376 <= n /\
    forall n', (576 | n') -> 37376 <= n' -> n <= n'.
Proof.
  apply (aligned_page_least (sample_attention 256 None) sample_mla);
    [left; split; [reflexivity|exists sample_full, false; left; reflexivity]|reflexivity..].
Defined.

Definition sample_cfg : VllmConfig := mkVllm 4096 64 1 0 "none".

Lemma admission_cap_suffices_witness :
  exists cap, window_max_admission_blocks_per_request (sample_attention 16 None) (mkWindow 128 (Some 576))
                64 4096 = Ok cap /\ 4 <= cap /\
    forall page, page_size_bytes (SlidingWindowSpec (sample_attention 16 None) (mkWindow 128 (Some 576))) = Ok page ->
      decode_context_parallel_size sample_cfg = 1 ->
      max_memory_usage_bytes sample_cfg
        (SlidingWindowSpec (sample_attention 16 None) (mkWindow 128 (Some 576))) = Ok (cap * page).
Proof.
  refine (proj1 (admission_cap_suffices sample_cfg (sample_attention 16 None) 8 64 [0; 1; 2; 3]
                   _ _ _ _ _) (mkWindow 128 (Some 576)) _ _); try (simpl; lia); try reflexivity.
  split; [exact (bool_decide_unpack (NoDup [0; 1; 2; 3]) I)|].
  intros i Hi. exists (Z.max 8 (16 * i)).
  repeat (apply elem_of_cons in Hi as [->|Hi]; [split; [lia|reflexivity]|]). by apply elem_of_nil in Hi.
Defined.

Lemma uniform_memory_covers_witness :
  exists pages, max_memory_usage_pages sample_cfg [("a", sample_layer); ("b", sample_layer)] = Ok pages /\
    max_memory_usage_bytes sample_cfg sample_layer = Ok (pages * 37440).
Proof.
  destruct (uniform_memory_covers sample_cfg 256 [("a", sample_layer); ("b", sample_layer)] 1198080)
    as (pages & sizes & _ & _ & Hpages & _).
  - intros k s page Hin Hpage. apply elem_of_cons in Hin as [[= -> ->]|Hin].
    + injection Hpage as <-. reflexivity.
    + apply list_elem_of_singleton in Hin as [= -> ->]. injection Hpage as <-. reflexivity.
  - reflexivity.
  - exists pages. split; [exact Hpages|]. injection Hpages as <-. reflexivity.
Defined.

Lemma kind_most_specific_witness :
  is_uniform sample_layer = false /\ get_kv_cache_spec_kind sample_layer = MLA_ATTENTION.
Proof. split; [reflexivity|]. rewrite (kind_most_specific sample_layer eq_refl). reflexivity. Defined.

(** ** What merging loses *)

(** Layers whose value head sizes differ merge, although their pages differ. *)
Example merge_value_heads :
  let narrow := FullAttentionSpec (sample_attention 16 None) sample_full in
  let wide := FullAttentionSpec (sample_attention 16 None) (mkFull 1024 None None false) in
  merge cFullAttentionSpec [narrow; wide] = Ok narrow /\
  page_size_bytes narrow = Ok 18432 /\ page_size_bytes wide = Ok 25600.
Proof. split_and!; reflexivity. Qed.

(** The merged MLA specification has lost the alignment: giving it another
    block size keeps the padding of the old one, and reading its page fails. *)
Example merge_loses_alignment :
  (let* s := copy_with_new_block_size sample_layer 512 in page_size_bytes s) = Ok 74880 /\
  (let* m := merge cMLAAttentionSpec [sample_layer; sample_layer] in
   let* s := copy_with_new_block_size m 512 in page_size_bytes s) = Raise AssertionError.
Proof. split; reflexivity. Qed.

(** Sliding-window MLA layers of different block sizes merge. *)
Example merge_window_block_sizes :
  let layer b := SlidingWindowMLASpec (sample_attention b None) (mkWindow 128 None)
                   (mkMla None None 1 None) in
  merge cSlidingWindowMLASpec [layer 64; layer 128]
    = Ok (SlidingWindowMLASpec (mkAttention 64 1 576 UINT8 NONE None false) (mkWindow 128 None)
            (mkMla None None 1 None)).
Proof. reflexivity. Qed.

(** A chunk that starts inside a block can need one block more than the cap. *)
Example chunk_cap_unaligned :
  held_blocks 4 6 13 [1; 2; 3] /\
  chunked_max_admission_blocks_per_request (sample_attention 4 None) 6 1 4096 = Ok 2.
Proof.
  split; [|reflexivity]. split; [exact (bool_decide_unpack (NoDup [1; 2; 3]) I)|].
  intros i Hi. exists (Z.max 6 (4 * i)).
  repeat (apply elem_of_cons in Hi as [->|Hi]; [split; [lia|reflexivity]|]). by apply elem_of_nil in Hi.
Qed.

End Samples.
