(* ===== verification/KVManager.v ===== *)
(** * The KV-cache manager: state and operations

    [overlays/dspark-ring/kv_cache_manager.py]: [KVCacheBlocks] and every method
    of [KVCacheManager].  The coordinator, its single-type managers and the block
    pool are not part of the repository: they are the interface [Coordinator] on
    one state, in which a block is a handle whose attributes are read.  The
    arguments of [allocate_slots] are the record the scheduler passes. *)
From S2P Require Import SchedTypes.
From S2P Require Export PyLib KVSpec.
Import PyDict.

(** A cache event: [BlockStored] events carry a group and get two annotations. *)
Record KVCacheEvent := mkEvent {
  is_block_stored : bool;
  group_idx : option Z;
  ev_kv_cache_spec_kind : option KVCacheSpecKind;
  ev_kv_cache_spec_sliding_window : option Z
}.

(** What the manager reads of a single-type manager. *)
Record single_type_manager (block : Type) := mkManagerView {
  mgr_block_size : Z;
  records_new_block_ids : bool;
  req_to_blocks : string -> list block
}.
Arguments mgr_block_size {block}.
Arguments records_new_block_ids {block}.
Arguments req_to_blocks {block}.

(** The code outside the repository the manager calls.  [K] is the state of the
    coordinator and the block pool, [block] a [KVCacheBlock] object. *)
Class Coordinator (K block hash : Type) := {
  block_id : block -> Z;
  block_hash_set : K -> block -> bool;          (** [block.block_hash is not None] *)
  block_is_null : K -> block -> bool;
  block_hash_num_tokens : K -> block -> option Z;
  (* coordinator *)
  find_longest_cache_hit : K -> list hash -> Z -> list (list block) * Z * Z;
  find_longest_cache_hit_per_group : K -> list hash -> Z -> list (list block) * list Z;
  is_hybrid : K -> bool;
  full_attention_group_id : K -> option nat;
  get_num_blocks_to_allocate :
    K -> string -> Z -> list (list block) -> Z -> Z -> Z -> Z -> bool -> Z;
  coord_remove_skipped_blocks : K -> string -> Z -> option Z -> K;
  allocate_new_computed_blocks : K -> string -> list (list block) -> Z -> Z -> K;
  allocate_new_blocks : K -> string -> Z -> Z -> Z -> K * list (list block);
  coord_cache_blocks : K -> request -> Z -> K;
  coord_free : K -> string -> K;
  coord_pop_blocks_for_free : K -> string -> K * list block;
  coord_get_blocks : K -> string -> list (list block);
  coord_get_num_common_prefix_blocks : K -> string -> list Z;
  coord_new_step_starts : K -> K;
  (* single-type managers, in order *)
  single_type_managers : K -> list (single_type_manager block);
  mgr_take_new_block_ids : K -> nat -> K * list Z;
  mgr_extend_new_block_ids : K -> nat -> list Z -> K;
  mgr_take_pending_cow_copies : K -> nat -> K * list (block * block);
  mgr_take_pending_partial_tail_offloads : K -> nat -> K * list (string * Z * block * Z);
  (* block pool *)
  get_num_free_blocks : K -> Z;
  pool_free : K -> list block -> K;
  pool_touch : K -> list block -> K;
  pool_evict_blocks : K -> gset Z -> K;
  pool_reset_prefix_cache : K -> K * bool;
  pool_take_events : K -> K * list KVCacheEvent;
  emit_cached_block_events : K -> request -> Z -> Z -> nat -> K;
  (* attributes of [Request] the scheduler does not read *)
  req_block_hashes : request -> list hash;
  skip_reading_prefix_cache : request -> bool;
  kv_cache_report_full : request -> bool        (** [kv_cache_report_mode == "full"] *)
}.

(** The environment variables of the draft ring. *)
Definition environment : Type := string -> option (list ascii).

Definition int_ (s : list ascii) : result Z :=
  match PyStr.int_of s with Some n => Ok n | None => Raise ValueError end.

(** An environment variable set to the empty text counts as unset in a test. *)
Definition env_true (v : option (list ascii)) : bool :=
  match v with Some (_ :: _) => true | _ => false end.

Definition _dspark_ring_cache_trim (environ : environment) : result Z :=
  match environ "VLLM_DSPARK_CACHE_TRIM" with
  | Some v => let* n := int_ v in Ok (Z.max 0 n)
  | None =>
      if env_true (environ "VLLM_DSPARK_DRAFT_RING") then
        match default (PyStr.text "1024") (environ "VLLM_DSPARK_DRAFT_WINDOW") with
        | [] => Ok 0
        | text => int_ text
        end
      else Ok 0
  end.

Section Manager.
Context `{KVTypes, MathUtils}.
Context {K block hash : Type} `{Coordinator K block hash}.

(** ** [KVCacheBlocks]

    [allocate_slots] tests whether it was given the pre-built object without
    blocks: that object is [Empty], every other one [Blocks]. *)
Inductive KVCacheBlocks :=
  | Empty
  | Blocks (blocks : list (list block)).

(** The attributes the constructor computes. *)
Record manager_config := mkManagerConfig {
  mc_max_model_len : Z;
  enable_caching : bool;
  enable_kv_cache_events : bool;
  log_stats : bool;
  kv_cache_config : KVCacheConfig;
  watermark_blocks : Z;
  environ : environment
}.

(** [num_kv_cache_groups]. *)
Definition num_groups (c : manager_config) : nat := length (kv_cache_groups (kv_cache_config c)).

(** [kv_cache_event_metadata]. *)
Definition kv_cache_event_metadata (c : manager_config) : list (KVCacheSpecKind * option Z) :=
  map (fun g => (get_kv_cache_spec_kind (kv_cache_spec g),
                 get_kv_cache_spec_sliding_window (kv_cache_spec g)))
      (kv_cache_groups (kv_cache_config c)).

(** [PrefixCacheStats]: the recorded lookups and the reset mark. *)
Record prefix_stats := mkStats {
  st_records : list (Z * Z * bool);
  st_reset : bool
}.

Record manager := mkManager {
  coordinator : K;
  prefix_cache_stats : option prefix_stats;
  _partial_tail_pins : gmap string (list block)
}.
#[global] Instance manager_eta : Eta manager := fun m =>
  mkManager (coordinator m) (prefix_cache_stats m) (_partial_tail_pins m).

Context (cfg : manager_config).

(** The [blocks] attribute. *)
Definition blocks_of (b : KVCacheBlocks) : list (list block) :=
  match b with Empty => repeat [] (num_groups cfg) | Blocks l => l end.

(** [__add__]. *)
Definition blocks_add (b c : KVCacheBlocks) : KVCacheBlocks :=
  Blocks (zip_with app (blocks_of b) (blocks_of c)).

Definition new_empty (b : KVCacheBlocks) : KVCacheBlocks :=
  Blocks (repeat [] (length (blocks_of b))).

Definition get_block_ids_of (b : KVCacheBlocks) : list (list Z) := map (map block_id) (blocks_of b).

Definition get_block_ids_allow_none (b : KVCacheBlocks) : option (list (list Z)) :=
  if forallb (fun g => (length g =? 0)%nat) (blocks_of b) then None
  else Some (get_block_ids_of b).

Definition get_unhashed_block_ids (k : K) (b : KVCacheBlocks) : result (list Z) :=
  match blocks_of b with
  | [group] => Ok (map block_id (List.filter (fun x => negb (block_hash_set k x)) group))
  | _ => Raise AssertionError
  end.

Definition get_unhashed_block_ids_all_groups (k : K) (b : KVCacheBlocks) : list (list Z) :=
  map (fun group =>
    map block_id (List.filter (fun x => negb (block_hash_set k x) && negb (block_is_null k x)) group))
    (blocks_of b).

(** [create_kv_cache_blocks]: [any(blocks)] is true when a group is not empty. *)
Definition create_kv_cache_blocks (blocks : list (list block)) : KVCacheBlocks :=
  if existsb (fun g => negb (length g =? 0)%nat) blocks then Blocks blocks else Empty.

(** ** Prefix-cache lookups *)

Definition make_prefix_cache_stats (m : manager) : manager * option prefix_stats :=
  if log_stats cfg
  then (m <| prefix_cache_stats := Some (mkStats [] false) |>, prefix_cache_stats m)
  else (m, None).

Definition prefix_cache_lookup_enabled (r : request) : bool :=
  enable_caching cfg && negb (skip_reading_prefix_cache r).

Definition record_prefix_cache_stats (m : manager) (r : request) (num_hits : Z) : result manager :=
  if negb (log_stats cfg) || negb (prefix_cache_lookup_enabled r) then Ok m
  else
    match prefix_cache_stats m with
    | None => Raise AssertionError
    | Some st =>
        let entry := (num_tokens r, num_hits, 0 <? num_preemptions r) in
        Ok (m <| prefix_cache_stats := Some (mkStats (st_records st ++ [entry]) (st_reset st)) |>)
    end.

(** The [BlockStored] events for reused blocks. *)
Fixpoint emit_events (k : K) (r : request) (i : nat) (computed : list (list block)) : result K :=
  match computed with
  | [] => Ok k
  | group_blocks :: computed =>
      let* k :=
        if (0 <? length group_blocks)%nat then
          match kv_cache_groups (kv_cache_config cfg) !! i with
          | None => Raise IndexError
          | Some group =>
              Ok (emit_cached_block_events k r (Z.of_nat (length group_blocks))
                    (block_size_of (kv_cache_spec group)) i)
          end
        else Ok k in
      emit_events k r (S i) computed
  end.

Definition max_cache_hit_length (r : request) (trim : Z) : Z :=
  if 0 <? trim then Z.max 0 (num_tokens r - 1 - trim) else num_tokens r - 1.

Definition get_computed_blocks (m : manager) (r : request)
    : result (manager * (KVCacheBlocks * Z * Z)) :=
  if negb (prefix_cache_lookup_enabled r) then Ok (m, (Empty, 0, 0))
  else
    let* trim := _dspark_ring_cache_trim (environ cfg) in
    let '(computed_blocks, num_new_computed_tokens, num_uncached) :=
      find_longest_cache_hit (coordinator m) (req_block_hashes r) (max_cache_hit_length r trim) in
    let* k :=
      if (0 <? num_new_computed_tokens) && enable_kv_cache_events cfg && kv_cache_report_full r
      then emit_events (coordinator m) r 0 computed_blocks
      else Ok (coordinator m) in
    let shared_prefix_boundary :=
      if num_uncached =? 0 then 0 else num_new_computed_tokens + num_uncached in
    Ok (m <| coordinator := k |>,
        (create_kv_cache_blocks computed_blocks, num_new_computed_tokens, shared_prefix_boundary)).

(** [min] of a list of hits. *)
Definition min_hit (hits : list Z) : result Z :=
  match hits with [] => Raise ValueError | h :: hits => Ok (foldl Z.min h hits) end.

Definition get_computed_blocks_for_connector (m : manager) (r : request)
    : result (manager * (KVCacheBlocks * Z * Z * bool)) :=
  let reconciled :=
    let* answer := get_computed_blocks m r in
    let '(m, triple) := answer in Ok (m, (triple, false)) in
  if has_mamba_layers (kv_cache_config cfg) && is_hybrid (coordinator m) then
    match full_attention_group_id (coordinator m) with
    | None => reconciled
    | Some fa_group_id =>
        if negb (prefix_cache_lookup_enabled r) then Ok (m, (Empty, 0, 0, false))
        else
          let '(computed, per_group_hits) :=
            find_longest_cache_hit_per_group (coordinator m) (req_block_hashes r)
              (num_tokens r - 1) in
          match per_group_hits !! fa_group_id with
          | None => Raise IndexError
          | Some num_local =>
              if existsb (fun hit => num_local <? hit) per_group_hits then reconciled
              else
                let* lowest := min_hit per_group_hits in
                Ok (m, (create_kv_cache_blocks computed, num_local, 0, lowest <? num_local))
          end
    end
  else reconciled.

(** ** Allocation *)

(** [allocate_slots], with the arguments the scheduler passes. *)
Definition allocate_slots (m : manager) (r : request) (a : alloc_args KVCacheBlocks)
    : result (manager * option KVCacheBlocks) :=
  let* _ := require (negb ((a_num_new_tokens _ a =? 0) && (a_num_external_computed_tokens _ a =? 0)))
              ValueError in
  let k := coordinator m in
  let new_computed_block_list := blocks_of (default Empty (a_new_computed_blocks _ a)) in
  let num_local_computed_tokens := num_computed_tokens r + a_num_new_computed_tokens _ a in
  let total_computed_tokens :=
    Z.min (num_local_computed_tokens + a_num_external_computed_tokens _ a) (mc_max_model_len cfg) in
  let watermark :=
    if a_has_scheduled_reqs _ a && bool_decide (status r ∈ [WAITING; PREEMPTED])
    then watermark_blocks cfg else 0 in
  let full_num_tokens := Z.min (num_tokens r) (mc_max_model_len cfg) in
  if a_full_sequence_must_fit _ a &&
     (get_num_free_blocks k <?
        get_num_blocks_to_allocate k (request_id r) full_num_tokens new_computed_block_list
          (a_num_encoder_tokens _ a) total_computed_tokens num_local_computed_tokens full_num_tokens true
        + watermark)
  then Ok (m, None)
  else
    let num_tokens_main_model := total_computed_tokens + a_num_new_tokens _ a in
    let num_tokens_need_slot :=
      Z.min (num_tokens_main_model + a_num_lookahead_tokens _ a) (mc_max_model_len cfg) in
    let k := coord_remove_skipped_blocks k (request_id r)
               (Z.max 0 (total_computed_tokens - num_in_flight_tokens r)) (Some (num_prompt_tokens r)) in
    let num_blocks_to_allocate :=
      get_num_blocks_to_allocate k (request_id r) num_tokens_need_slot new_computed_block_list
        (a_num_encoder_tokens _ a) (num_local_computed_tokens + a_num_external_computed_tokens _ a)
        num_local_computed_tokens num_tokens_main_model false in
    let available_blocks := get_num_free_blocks k - a_reserved_blocks _ a in
    let required_blocks := num_blocks_to_allocate + watermark in
    if available_blocks <? required_blocks then Ok (m <| coordinator := k |>, None)
    else
      let given :=
        match a_new_computed_blocks _ a with Some (Blocks _) => true | _ => false end in
      let k :=
        if given || (0 <? a_num_external_computed_tokens _ a)
        then allocate_new_computed_blocks k (request_id r) new_computed_block_list
               num_local_computed_tokens (a_num_external_computed_tokens _ a)
        else k in
      let '(k, new_blocks) :=
        allocate_new_blocks k (request_id r) num_tokens_need_slot num_tokens_main_model
          (a_num_encoder_tokens _ a) in
      let k :=
        if negb (enable_caching cfg) || a_delay_cache_blocks _ a then k
        else coord_cache_blocks k r
               (Z.min (total_computed_tokens + a_num_new_tokens _ a) (num_tokens r)) in
      Ok (m <| coordinator := k |>, Some (create_kv_cache_blocks new_blocks)).

Definition cache_blocks (m : manager) (r : request) (num_computed_tokens : Z) : manager :=
  if enable_caching cfg
  then m <| coordinator := coord_cache_blocks (coordinator m) r num_computed_tokens |>
  else m.

Definition remove_skipped_blocks (m : manager) (request_id : string) (processed_computed_tokens : Z)
    (num_prompt_tokens : option Z) : manager :=
  m <| coordinator :=
    coord_remove_skipped_blocks (coordinator m) request_id processed_computed_tokens num_prompt_tokens |>.

(** ** Freeing *)

(** [self._partial_tail_pins.pop(request_id, None)], an empty list counting as none. *)
Definition pins_of (m : manager) (request_id : string) : list block :=
  default [] (_partial_tail_pins m !! request_id).

Definition drop_pins (m : manager) (request_id : string) : manager :=
  m <| _partial_tail_pins ::= delete request_id |>.

Definition free (m : manager) (r : request) : manager :=
  let pins := pins_of m (request_id r) in
  let m := drop_pins m (request_id r) in
  let k := match pins with [] => coordinator m | _ => pool_free (coordinator m) pins end in
  m <| coordinator := coord_free k (request_id r) |>.

Definition pop_blocks_for_free (m : manager) (r : request) : manager * list block :=
  let '(k, blocks) := coord_pop_blocks_for_free (coordinator m) (request_id r) in
  let pins := pins_of m (request_id r) in
  let m := drop_pins (m <| coordinator := k |>) (request_id r) in
  (m, pins ++ blocks).

Definition evict_blocks (m : manager) (block_ids : gset Z) : manager :=
  m <| coordinator := pool_evict_blocks (coordinator m) block_ids |>.

Definition reset_prefix_cache (m : manager) : result (manager * bool) :=
  let '(k, done) := pool_reset_prefix_cache (coordinator m) in
  let m := m <| coordinator := k |> in
  if negb done then Ok (m, false)
  else if log_stats cfg then
    match prefix_cache_stats m with
    | None => Raise AssertionError
    | Some st => Ok (m <| prefix_cache_stats := Some (mkStats (st_records st) true) |>, true)
    end
  else Ok (m, true).

Definition get_num_common_prefix_blocks (m : manager) (running_request_id : string) : list Z :=
  coord_get_num_common_prefix_blocks (coordinator m) running_request_id.

(** [take_events]: annotate the stored blocks of a known group. *)
Definition annotate (e : KVCacheEvent) : KVCacheEvent :=
  if is_block_stored e then
    match group_idx e with
    | None => e
    | Some g =>
        if (g <? 0) || (Z.of_nat (length (kv_cache_event_metadata cfg)) <=? g) then e
        else
          match kv_cache_event_metadata cfg !! Z.to_nat g with
          | Some (kind, sliding_window) => mkEvent true (Some g) (Some kind) sliding_window
          | None => e
          end
    end
  else e.

Definition take_events (m : manager) : manager * list KVCacheEvent :=
  let '(k, events) := pool_take_events (coordinator m) in
  (m <| coordinator := k |>, map annotate events).

(** ** Reading a request's blocks *)

Definition get_blocks (m : manager) (request_id : string) : KVCacheBlocks :=
  create_kv_cache_blocks (coord_get_blocks (coordinator m) request_id).

Definition get_block_ids (m : manager) (request_id : string) : list (list Z) :=
  get_block_ids_of (get_blocks m request_id).

(** Cross-attention and encoder-only groups. *)
Definition not_prefix_cached (s : kv_spec) : bool :=
  isinstance s cCrossAttentionSpec || isinstance s cEncoderOnlyAttentionSpec.

Definition get_block_ids_for_computed_tokens (m : manager) (request_id : string)
    (num_computed_tokens : Z) : result (list (list Z)) :=
  rmap (fun '(group, ids) =>
    let spec := kv_cache_spec group in
    if negb (isinstance spec cAttentionSpec) || not_prefix_cached spec then Ok ids
    else
      let* num_valid_blocks := cdiv_ num_computed_tokens (block_size_of spec) in
      Ok (PyList.slice_to num_valid_blocks ids))
    (zip (kv_cache_groups (kv_cache_config cfg)) (get_block_ids m request_id)).

(** The loop body of [estimate_cached_tokens]. *)
Definition group_cached_tokens (k : K) (blocks : list block) : Z :=
  foldl (fun acc b => Z.max acc (default 0 (block_hash_num_tokens k b))) 0 blocks.

Definition estimate_group (k : K) (cached_tokens : option Z)
    (group : KVCacheGroupSpec * list block) : option Z :=
  if not_prefix_cached (kv_cache_spec group.1) then cached_tokens
  else
    let n := group_cached_tokens k group.2 in
    Some (match cached_tokens with None => n | Some c => Z.min c n end).

Definition estimate_cached_tokens (m : manager) (r : request) : Z :=
  default 0 (foldl (estimate_group (coordinator m)) None
    (zip (kv_cache_groups (kv_cache_config cfg)) (blocks_of (get_blocks m (request_id r))))).

(** [truncate_computed_blocks]; [zip(..., strict=True)] fails at the end of the
    shorter list. *)
Fixpoint truncate_groups (num_computed_tokens : Z) (blocks : list (list block))
    (managers : list (single_type_manager block)) : result (list (list block)) :=
  match blocks, managers with
  | [], [] => Ok []
  | group_blocks :: blocks, mgr :: managers =>
      let b := mgr_block_size mgr in
      let* _ := require (negb (b =? 0)) ZeroDivisionError in
      let* _ := require (num_computed_tokens mod b =? 0) AssertionError in
      let num_blocks := num_computed_tokens / b in
      let* _ := require (num_blocks <=? Z.of_nat (length group_blocks)) AssertionError in
      let* rest := truncate_groups num_computed_tokens blocks managers in
      Ok (PyList.slice_to num_blocks group_blocks :: rest)
  | _, _ => Raise ValueError
  end.

Definition truncate_computed_blocks (m : manager) (b : KVCacheBlocks) (num_computed_tokens : Z)
    : result KVCacheBlocks :=
  let* truncated := truncate_groups num_computed_tokens (blocks_of b)
                      (single_type_managers (coordinator m)) in
  Ok (create_kv_cache_blocks truncated).

(** ** Draining the single-type managers *)

(** Runs an operation of each manager in order and concatenates the results. *)
Definition drain_managers {A} (take : K -> nat -> K * list A) (k : K) : K * list A :=
  foldl (fun '(k, acc) i => let '(k, xs) := take k i in (k, acc ++ xs)) (k, [])
    (seq 0 (length (single_type_managers k))).

Definition take_new_block_ids (m : manager) : manager * list Z :=
  let '(k, ids) := drain_managers mgr_take_new_block_ids (coordinator m) in
  (m <| coordinator := k |>, ids).

Definition get_zeroing_block_ids_in_range (m : manager) (request_id : string)
    (start_token end_token : Z) : result (list Z) :=
  rfold (fun ids mgr =>
    if records_new_block_ids mgr then
      let* start_idx := floordiv start_token (mgr_block_size mgr) in
      let* end_idx := cdiv_ end_token (mgr_block_size mgr) in
      Ok (ids ++ map block_id (PyList.slice start_idx end_idx (req_to_blocks mgr request_id)))
    else Ok ids) [] (single_type_managers (coordinator m)).

(** [record_blocks_for_zeroing]: the managers before a failing assertion keep
    what was recorded, so the state comes with the outcome. *)
Fixpoint record_managers (i : nat) (managers : list (single_type_manager block)) (k : K)
    (request_id : string) (start_token : Z) : K * result unit :=
  match managers with
  | [] => (k, Ok ())
  | mgr :: managers =>
      if records_new_block_ids mgr then
        if mgr_block_size mgr =? 0 then (k, Raise ZeroDivisionError)
        else if negb (start_token mod mgr_block_size mgr =? 0) then (k, Raise AssertionError)
        else
          let start_idx := start_token / mgr_block_size mgr in
          let blocks := req_to_blocks mgr request_id in
          let k := mgr_extend_new_block_ids k i
                     (map block_id (PyList.slice start_idx (Z.of_nat (length blocks)) blocks)) in
          record_managers (S i) managers k request_id start_token
      else record_managers (S i) managers k request_id start_token
  end.

Definition record_blocks_for_zeroing (m : manager) (request_id : string) (start_token : Z)
    : manager * result unit :=
  let '(k, outcome) :=
    record_managers 0 (single_type_managers (coordinator m)) (coordinator m) request_id start_token in
  (m <| coordinator := k |>, outcome).

(** [take_kv_cache_block_copies]: pairs of source and destination ids, and the
    blocks of all pairs. *)
Definition take_kv_cache_block_copies (m : manager) : manager * (list (Z * Z) * list block) :=
  let '(k, pending_copies) := drain_managers mgr_take_pending_cow_copies (coordinator m) in
  let copies := map (fun '(source_block, cow_block) => (block_id source_block, block_id cow_block))
                  pending_copies in
  let retained_blocks := flat_map (fun '(source_block, cow_block) => [source_block; cow_block])
                           pending_copies in
  (m <| coordinator := k |>, (copies, retained_blocks)).

(** [d.setdefault(key, []).append(x)] on the dictionary of hand-offs. *)
Definition dappend {A} (d : dict (list A)) (key : string) (x : A) : dict (list A) :=
  dset d key (default [] (dget d key) ++ [x]).

(** The inner loop body of [take_partial_tail_offloads]: pin and hand off. *)
Definition pin_offload (m : manager) (offloads : dict (list (Z * Z * Z)))
    (entry : string * Z * block * Z) : manager * dict (list (Z * Z * Z)) :=
  let '(req_id, group_id, b, boundary_tokens) := entry in
  let m := m <| coordinator := pool_touch (coordinator m) [b] |> in
  let m := m <| _partial_tail_pins ::= <[req_id := pins_of m req_id ++ [b]]> |> in
  (m, dappend offloads req_id (group_id, block_id b, boundary_tokens)).

Definition drain_offloads (m : manager) (offloads : dict (list (Z * Z * Z))) (i : nat)
    : manager * dict (list (Z * Z * Z)) :=
  let '(k, entries) := mgr_take_pending_partial_tail_offloads (coordinator m) i in
  foldl (fun '(m, d) entry => pin_offload m d entry) (m <| coordinator := k |>, offloads) entries.

Definition take_partial_tail_offloads (m : manager) : manager * dict (list (Z * Z * Z)) :=
  foldl (fun '(m, d) i => drain_offloads m d i) (m, [])
    (seq 0 (length (single_type_managers (coordinator m)))).

Definition new_step_starts (m : manager) : manager :=
  m <| coordinator := coord_new_step_starts (coordinator m) |>.

End Manager.
