(* ===== verification/KVAdmission.v ===== *)
(** * The KV-cache manager: theorems

    What [KVManager] guarantees over a coordinator that behaves as documented:
    an allocation leaves the reserve and the watermark free, a cache hit leaves
    the tokens of the draft ring to be recomputed, blocks handed to a connector
    are pinned until their request is freed, and a truncated lookup is the
    prefix of every group. *)
From S2P Require Import SchedTypes.
From S2P Require Export KVLayout KVManager.
Import PyDict.

(** What the manager relies on. *)
Class CoordinatorLaws (K block hash : Type) `{Coordinator K block hash} : Prop := {
  (** removing skipped blocks and committing hashes take no block *)
  free_after_removal k rid n prompt :
    get_num_free_blocks k <= get_num_free_blocks (coord_remove_skipped_blocks k rid n prompt);
  free_after_caching k r n : get_num_free_blocks (coord_cache_blocks k r n) = get_num_free_blocks k;
  (** the count asked for beforehand covers what the two allocation steps take *)
  free_after_allocation k rid need blocks enc local external main (given : bool) :
    given = true \/ (external <= 0 /\ Forall (.= []) blocks) ->
    let n := get_num_blocks_to_allocate k rid need blocks enc (local + external) local main false in
    let k' := if given then allocate_new_computed_blocks k rid blocks local external else k in
    n <= get_num_free_blocks k ->
    get_num_free_blocks k - n <= get_num_free_blocks (fst (allocate_new_blocks k' rid need main enc));
  (** a hit is no longer than allowed *)
  hit_at_most k hashes n : 0 <= n ->
    let '(_, hit, uncached) := find_longest_cache_hit k hashes n in 0 <= hit <= n /\ 0 <= uncached;
  group_hits_at_most k hashes n : 0 <= n ->
    Forall (fun hit => 0 <= hit <= n) (snd (find_longest_cache_hit_per_group k hashes n));
  (** emitting events changes nothing else *)
  free_after_events k r n b i :
    get_num_free_blocks (emit_cached_block_events k r n b i) = get_num_free_blocks k
}.

Section Theorems.
Context `{KVTypes, MathUtils}.
Context {K block hash : Type} `{CoordinatorLaws K block hash}.
Context (cfg : manager_config).
Implicit Types (m : manager (K := K) (block := block)) (r : request).

(** The blocks a call keeps free for requests that are already running. *)
Definition watermark (r : request) (a : alloc_args (KVCacheBlocks (block := block))) : Z :=
  if a_has_scheduled_reqs _ a && bool_decide (status r ∈ [WAITING; PREEMPTED])
  then watermark_blocks cfg else 0.

Lemma empty_groups : Forall (.= []) (blocks_of cfg (Empty (block := block))).
Proof. simpl. induction (num_groups cfg); simpl; by constructor. Qed.

(** C24 (allocation): [allocate_slots] raises only when it is asked for no token
    at all.  When it succeeds the reserve and the watermark of the request are
    still free; when it declines no block has been taken and the pinned blocks
    and statistics are as before. *)
Theorem allocation_keeps_reserve m r a :
  0 <= a_reserved_blocks _ a -> 0 <= watermark_blocks cfg ->
  match allocate_slots cfg m r a with
  | Raise e => e = ValueError /\ a_num_new_tokens _ a = 0 /\ a_num_external_computed_tokens _ a = 0
  | Ok (m', Some _) =>
      a_reserved_blocks _ a + watermark r a <= get_num_free_blocks (coordinator m') /\
      prefix_cache_stats m' = prefix_cache_stats m /\ _partial_tail_pins m' = _partial_tail_pins m
  | Ok (m', None) =>
      get_num_free_blocks (coordinator m) <= get_num_free_blocks (coordinator m') /\
      prefix_cache_stats m' = prefix_cache_stats m /\ _partial_tail_pins m' = _partial_tail_pins m
  end.
Proof.
  intros Hres Hwm. unfold allocate_slots.
  destruct (negb _) eqn:Hzero; simpl; [|by apply negb_false_iff, andb_prop in Hzero as [?%Z.eqb_eq ?%Z.eqb_eq]].
  fold (watermark r a). destruct (_ && (_ <? _)); [split_and!; [lia|done..]|].
  set (k := coord_remove_skipped_blocks _ _ _ _).
  assert (get_num_free_blocks (coordinator m) <= get_num_free_blocks k) as Hfree by apply free_after_removal.
  clearbody k.
match goal with |- context [?x - ?y <? ?n + ?w] =>
    destruct (Z.ltb_spec (x - y) (n + w)) as [Hno|Hyes]; [by split_and!|] end.
  set (given := _ || _).
  assert (given = true \/ (a_num_external_computed_tokens _ a <= 0 /\
    Forall (.= []) (blocks_of cfg (default Empty (a_new_computed_blocks _ a))))) as Hgiven.
  { subst given. destruct (Z.ltb_spec 0 (a_num_external_computed_tokens _ a));
      [by left; rewrite orb_true_r|]. rewrite orb_false_r.
    destruct (a_new_computed_blocks _ a) as [[|]|]; [right|by left|right];
      (split; [done|apply empty_groups]). }
  assert (0 <= watermark r a) as Hw by (unfold watermark; break_if; lia).
  destruct (allocate_new_blocks _ _ _ _ _) as [k' new_blocks] eqn:Hk'.
  assert (a_reserved_blocks _ a + watermark r a <= get_num_free_blocks k') as Hleft.
  { etrans; [|change k' with (fst (k', new_blocks)); rewrite <- Hk';
      apply free_after_allocation; [exact Hgiven|]]; lia. }
  split; [|by split]. unfold setter. simpl.
  by destruct (negb (enable_caching cfg) || _); rewrite ?free_after_caching.
Qed.


(** ** Lookups *)

Lemma emit_events_free k r i computed k' :
  emit_events cfg k r i computed = Ok k' -> get_num_free_blocks k' = get_num_free_blocks k.
Proof.
  revert k i. induction computed as [|g computed IH]; intros k i; simpl; [by intros [= ->]|].
  destruct (0 <? length g)%nat; simpl; [|apply IH].
  destruct (kv_cache_groups _ !! i); simpl; [|done]. intros Hk%IH. by rewrite Hk, free_after_events.
Qed.

(** Cache hits: a lookup never claims the last token; with the draft ring
    active the [trim + 1] tokens at the end (all, when there are fewer) are left
    to be recomputed, so that the ring is filled again.  A lookup takes no
    block, leaves the pinned blocks alone, and the boundary it reports is at or
    past the hit. *)
Theorem hits_leave_recompute m r m' b n boundary :
  1 <= num_tokens r ->
  get_computed_blocks cfg m r = Ok (m', (b, n, boundary)) ->
  0 <= n <= num_tokens r - 1 /\ (boundary = 0 \/ n < boundary) /\
  (prefix_cache_lookup_enabled cfg r = false -> b = Empty /\ n = 0 /\ m' = m) /\
  (forall trim, _dspark_ring_cache_trim (environ cfg) = Ok trim -> 0 < trim ->
     Z.min (num_tokens r) (trim + 1) <= num_tokens r - n) /\
  get_num_free_blocks (coordinator m') = get_num_free_blocks (coordinator m) /\
  _partial_tail_pins m' = _partial_tail_pins m.
Proof.
  intros Htok. unfold get_computed_blocks. destruct (prefix_cache_lookup_enabled cfg r); simpl.
  2: { intros [= <- <- <- <-]. split_and!; intros; try done; lia. }
  destruct (_dspark_ring_cache_trim (environ cfg)) as [trim|] eqn:Htrim; [|done]. simpl.
  pose proof (hit_at_most (coordinator m) (req_block_hashes r) (max_cache_hit_length r trim)) as Hhit.
  destruct (find_longest_cache_hit _ _ _) as [[blocks hit] uncached]. intros Hok.
  apply rbind_ok in Hok as (k & Hk & [= <- <- <- <-]).
  assert (get_num_free_blocks k = get_num_free_blocks (coordinator m)) as Hfree.
  { destruct (_ && _); [by eapply emit_events_free|by injection Hk as ->]. }
  unfold max_cache_hit_length in Hhit.
  destruct (Z.ltb_spec 0 trim); destruct Hhit as [Hhit Hunc]; try lia;
    (split_and!; [lia|lia| |done| |done|done]);
    [destruct (Z.eqb_spec uncached 0); [by left|right; lia]|intros ? [= <-]; lia
    |destruct (Z.eqb_spec uncached 0); [by left|right; lia]|intros ? [= <-]; lia].
Qed.

Lemma foldl_min_le h hits : foldl Z.min h hits <= h /\ Forall (fun x => foldl Z.min h hits <= x) hits.
Proof.
  revert h. induction hits as [|x hits IH]; intros h; simpl; [split; [lia|constructor]|].
  destruct (IH (Z.min h x)) as [Hle Hall]. split; [lia|]. constructor; [lia|done].
Qed.

Lemma foldl_min_in h hits : foldl Z.min h hits ∈ h :: hits.
Proof.
  revert h. induction hits as [|x hits IH]; intros h; simpl; [left|].
  destruct (Z.min_spec h x) as [[_ ->]|[_ ->]]; specialize (IH h) as IHh; specialize (IH x) as IHx;
    rewrite elem_of_cons in *; rewrite elem_of_cons; naive_solver.
Qed.

(** The connector lookup flags a divergence exactly when some group stops
    before the full-attention hit it reports, which no group exceeds. *)
Theorem connector_hit_divergence m r m' b n boundary :
  1 <= num_tokens r ->
  get_computed_blocks_for_connector cfg m r = Ok (m', (b, n, boundary, true)) ->
  m' = m /\ boundary = 0 /\ 0 <= n <= num_tokens r - 1 /\
  let hits := snd (find_longest_cache_hit_per_group (coordinator m) (req_block_hashes r) (num_tokens r - 1)) in
  n ∈ hits /\ Forall (fun hit => hit <= n) hits /\ Exists (fun hit => hit < n) hits.
Proof.
  intros Htok. unfold get_computed_blocks_for_connector.
  assert (forall answer, (let* answer := get_computed_blocks cfg m r in
    let '(m, triple) := answer in Ok (m, (triple, false))) <> Ok (answer, (b, n, boundary, true))) as Hno.
  { intros answer. destruct (get_computed_blocks cfg m r) as [[? ?]|]; done. }
  destruct (_ && _); [|by intros ?%Hno]. destruct (full_attention_group_id _) as [g|]; [|by intros ?%Hno].
  destruct (negb _); [done|].
  pose proof (group_hits_at_most (coordinator m) (req_block_hashes r) (num_tokens r - 1) ltac:(lia)) as Hmax.
  destruct (find_longest_cache_hit_per_group _ _ _) as [computed hits]. simpl in *.
  destruct (hits !! g) as [num_local|] eqn:Hg; [|done].
  destruct (existsb _ hits) eqn:Hex; [by intros ?%Hno|].
  destruct hits as [|h hits]; [done|]. simpl. intros [= <- <- <- <- Hlt].
  apply list_elem_of_lookup_2 in Hg. rewrite Forall_forall in Hmax. pose proof (Hmax _ Hg).
  split_and!; try done; [lia|lia| |].
  - rewrite existsb_false in Hex. eapply Forall_impl; [exact Hex|]. simpl. intros x ?%Z.ltb_ge. lia.
  - apply Exists_exists. exists (foldl Z.min h hits). split; [apply foldl_min_in|lia].
Qed.


(** ** Pinned blocks *)

Lemma foldl_inv {A B} (P : B -> Prop) (f : B -> A -> B) l b :
  P b -> (forall b a, a ∈ l -> P b -> P (f b a)) -> P (foldl f b l).
Proof.
  revert b. induction l as [|a l IH]; intros b Hb Hstep; simpl; [done|].
  apply IH; [apply Hstep; [left|done]|]. intros b' a' Ha'. apply Hstep. by right.
Qed.

(** The entries handed off for a request. *)
Definition handed (d : dict (list (Z * Z * Z))) (req_id : string) : list (Z * Z * Z) :=
  default [] (dget d req_id).

(** [m] has pinned, since [m0], exactly the blocks that [d] hands off. *)
Definition pins_handed m0 (md : manager (K := K) (block := block) * dict (list (Z * Z * Z))) : Prop :=
  dwf md.2 /\ prefix_cache_stats md.1 = prefix_cache_stats m0 /\
  forall req_id, exists bs, pins_of md.1 req_id = pins_of m0 req_id ++ bs /\
    map block_id bs = map (fun '(_, id, _) => id) (handed md.2 req_id).

Lemma pin_offload_handed m0 m d entry :
  pins_handed m0 (m, d) -> pins_handed m0 (pin_offload m d entry).
Proof.
  intros (Hwf & Hst & Hpins). destruct entry as [[[req_id group] b] boundary].
  split_and!; [by apply dwf_dset|done|]. intros req. destruct (Hpins req) as (bs & Hbs & Hids). simpl in *.
  unfold pins_of, handed, dappend in *. simpl. rewrite dget_dset.
  destruct (decide (req_id = req)) as [<-|Hne].
  - rewrite lookup_insert_eq. exists (bs ++ [b]). simpl. rewrite bool_decide_true by done.
    rewrite Hbs, map_app, Hids, <- app_assoc. split; [done|]. simpl. by rewrite map_app.
  - rewrite lookup_insert_ne by done. exists bs. rewrite bool_decide_false by done. done.
Qed.

(** Partial tails: [take_partial_tail_offloads] pins exactly the blocks it
    hands to the connector, request by request and in order, after those already
    pinned; [free] and [pop_blocks_for_free] unpin those of their request only,
    the latter giving them back in front of the blocks of the table. *)
Theorem offloads_pinned m r :
  pins_handed m (take_partial_tail_offloads m) /\
  (forall req_id, pins_of (free m r) req_id = if decide (req_id = request_id r) then [] else pins_of m req_id) /\
  (forall req_id, pins_of (fst (pop_blocks_for_free m r)) req_id
     = if decide (req_id = request_id r) then [] else pins_of m req_id) /\
  snd (pop_blocks_for_free m r) =
    pins_of m (request_id r) ++ snd (coord_pop_blocks_for_free (coordinator m) (request_id r)).
Proof.
  split.
  { unfold take_partial_tail_offloads. apply foldl_inv.
    - split_and!; [constructor|done|]. intros req_id. exists []. by rewrite app_nil_r.
    - intros [m' d] i _ Hmd. unfold drain_offloads. destruct (mgr_take_pending_partial_tail_offloads _ _).
      apply foldl_inv; [exact Hmd|]. intros [m'' d'] entry _. apply pin_offload_handed. }
  assert (forall req_id, default [] (delete (request_id r) (_partial_tail_pins m) !! req_id)
    = if decide (req_id = request_id r) then [] else pins_of m req_id) as Hdel.
  { intros req_id. destruct (decide (req_id = request_id r)) as [->|Hne];
      [by rewrite lookup_delete_eq|by rewrite lookup_delete_ne]. }
  unfold pop_blocks_for_free. destruct (coord_pop_blocks_for_free _ _) as [k blocks].
  by split_and!.
Qed.

(** ** Truncated lookups and estimates *)

(** [truncate_computed_blocks] succeeds exactly when every group has a manager,
    the endpoint is aligned for it and within the group's blocks; the result is
    the prefix of each group up to the endpoint. *)
Theorem truncation_exact m b n b' :
  Forall (fun mgr => 0 < mgr_block_size mgr) (single_type_managers (coordinator m)) -> 0 <= n ->
  truncate_computed_blocks cfg m b n = Ok b' <->
  Forall2 (fun group mgr => (mgr_block_size mgr | n) /\ n <= Z.of_nat (length group) * mgr_block_size mgr)
    (blocks_of cfg b) (single_type_managers (coordinator m)) /\
  b' = create_kv_cache_blocks
    (zip_with (fun group mgr => take (Z.to_nat (n / mgr_block_size mgr)) group)
       (blocks_of cfg b) (single_type_managers (coordinator m))).
Proof.
  intros Hpos Hn. unfold truncate_computed_blocks.
  enough (forall l, truncate_groups n (blocks_of cfg b) (single_type_managers (coordinator m)) = Ok l <->
    Forall2 (fun group mgr => (mgr_block_size mgr | n) /\ n <= Z.of_nat (length group) * mgr_block_size mgr)
      (blocks_of cfg b) (single_type_managers (coordinator m)) /\
    l = zip_with (fun group mgr => take (Z.to_nat (n / mgr_block_size mgr)) group)
          (blocks_of cfg b) (single_type_managers (coordinator m))) as Heq.
  { split.
    - intros (l & Hl & [= <-])%rbind_ok. apply Heq in Hl as [Hall ->]. done.
    - intros [Hall ->]. by rewrite (proj2 (Heq _) (conj Hall eq_refl)). }
  generalize (blocks_of cfg b) as groups. revert Hpos.
  induction (single_type_managers (coordinator m)) as [|mgr mgrs IH];
    intros Hpos [|g groups] l; simpl.
  - split; [intros [= <-]; by split; [constructor|]|by intros [_ ->]].
  - split; [done|]. intros [Hall _]. inversion Hall.
  - split; [done|]. intros [Hall _]. inversion Hall.
  - apply Forall_cons in Hpos as [Hb Hpos]. specialize (IH Hpos groups).
    destruct (Z.eqb_spec (mgr_block_size mgr) 0); [lia|]. simpl.
    assert (0 <= n / mgr_block_size mgr) as Hdiv by (apply Z.div_pos; lia).
    unfold PyList.slice_to. destruct (Z.ltb_spec (n / mgr_block_size mgr) 0); [lia|].
    split.
    + intros Hl. apply rbind_ok in Hl as ([] & Hal%require_ok%Z.eqb_eq & Hl).
      apply rbind_ok in Hl as ([] & Hle%require_ok%Z.leb_le & Hl).
      apply rbind_ok in Hl as (rest & Hrest & [= <-]). apply IH in Hrest as [Hall ->].
      split; [|done]. constructor; [|done].
      apply Z.mod_divide in Hal; [|lia]. split; [done|]. destruct Hal as [q ->].
      rewrite Z.div_mul in Hle by lia. nia.
    + intros [[[Hal Hle] Hall]%Forall2_cons ->].
      rewrite (proj2 (Z.mod_divide n (mgr_block_size mgr) ltac:(lia)) Hal). simpl.
      rewrite (proj2 (Z.leb_le _ _)); [|destruct Hal as [q ->]; rewrite Z.div_mul by lia; by apply (Z.mul_le_mono_pos_r _ _ (mgr_block_size mgr))]. simpl.
      by rewrite (proj2 (IH _) (conj Hall eq_refl)).
Qed.

End Theorems.

(** ** A small pool

    The state counts the free blocks; a block is its id; a table takes one block
    for every 16 tokens asked for, and two groups of one block size hit at
    different depths. *)
Definition blocks_for (need : Z) : Z := Z.max 0 (- (- need / 16)).

Definition sample_coordinator : Coordinator Z Z Z := {|
  block_id b := b;
  block_hash_set _ b := Z.even b;
  block_is_null _ b := b =? 0;
  block_hash_num_tokens _ b := Some (16 * b);
  find_longest_cache_hit _ hashes n :=
    ([hashes; hashes], Z.max 0 (Z.min n (16 * Z.of_nat (length hashes))), 0);
  find_longest_cache_hit_per_group _ hashes n :=
    ([hashes; []], [Z.max 0 (Z.min n (16 * Z.of_nat (length hashes))); 0]);
  is_hybrid _ := true;
  full_attention_group_id _ := Some 0%nat;
  get_num_blocks_to_allocate _ _ need _ _ _ _ _ _ := blocks_for need;
  coord_remove_skipped_blocks k _ _ _ := k;
  allocate_new_computed_blocks k _ _ _ _ := k;
  allocate_new_blocks k _ need _ _ := (k - blocks_for need, [range 0 (blocks_for need)]);
  coord_cache_blocks k _ _ := k;
  coord_free k _ := k;
  coord_pop_blocks_for_free k _ := (k, [3; 4]);
  coord_get_blocks _ _ := [[3; 4]];
  coord_get_num_common_prefix_blocks _ _ := [0];
  coord_new_step_starts k := k;
  single_type_managers _ := [mkManagerView _ 16 true (fun _ => [3; 4])];
  mgr_take_new_block_ids k _ := (k, []);
  mgr_extend_new_block_ids k _ _ := k;
  mgr_take_pending_cow_copies k _ := (k, []);
  mgr_take_pending_partial_tail_offloads k _ := (k, [("r"%string, 0, 9, 40)]);
  get_num_free_blocks k := k;
  pool_free k l := k + Z.of_nat (length l);
  pool_touch k _ := k;
  pool_evict_blocks k _ := k;
  pool_reset_prefix_cache k := (k, true);
  pool_take_events k := (k, []);
  emit_cached_block_events k _ _ _ _ := k;
  req_block_hashes r := range 0 (num_tokens r / 16);
  skip_reading_prefix_cache _ := false;
  kv_cache_report_full _ := false
|}.

Lemma sample_coordinator_laws : @CoordinatorLaws Z Z Z sample_coordinator.
Proof.
  split; simpl; try (intros; lia).
  - intros k rid need blocks enc local external main []; lia.
  - intros k hashes n Hn. repeat constructor; lia.
Qed.

Section SampleManager.
#[local] Existing Instances sample_types std_math std_math_laws sample_coordinator sample_coordinator_laws.

Definition sample_kv_config : KVCacheConfig :=
  mkKVConfig 64 [] [
    mkGroup ["a"%string] (FullAttentionSpec (sample_attention 16 None) sample_full) false;
    mkGroup ["b"%string] (MambaSpec (mkMamba 16 [[2]] [FLOAT32] None MambaBackend.MAMBA2 "align" 0)) false].

(** The draft ring is on, with a window of 32 tokens. *)
Definition sample_environ : environment := fun name =>
  if bool_decide (name = "VLLM_DSPARK_DRAFT_RING"%string) then Some (PyStr.text "1")
  else if bool_decide (name = "VLLM_DSPARK_DRAFT_WINDOW"%string) then Some (PyStr.text "32")
  else None.

Definition sample_manager_config : manager_config :=
  mkManagerConfig 4096 true false false sample_kv_config 2 sample_environ.

Definition sample_manager : manager (K := Z) (block := Z) := mkManager 40 None ∅.

(** A waiting request of 100 tokens. *)
Definition sample_request : request :=
  inhabitant <| request_id := "r" |> <| _all_token_ids := range 0 100 |>.

Definition sample_args : alloc_args (KVCacheBlocks (block := Z)) :=
  mkAlloc 100 0 None 4 0 false 0 true 5 true.

Lemma allocation_keeps_reserve_witness :
  exists m' b, allocate_slots sample_manager_config sample_manager sample_request sample_args = Ok (m', Some b) /\
    7 <= coordinator m'.
Proof.
  pose proof (allocation_keeps_reserve sample_manager_config sample_manager sample_request sample_args
    ltac:(simpl; lia) ltac:(simpl; lia)) as Hkeep.
  destruct (allocate_slots sample_manager_config sample_manager sample_request sample_args)
    as [[m' [b|]]|e] eqn:Hok; [|vm_compute in Hok; discriminate..].
  exists m', b. split; [reflexivity|exact (proj1 Hkeep)].
Defined.

Lemma hits_leave_recompute_witness :
  exists b, get_computed_blocks sample_manager_config sample_manager sample_request
    = Ok (sample_manager, (b, 67, 0)) /\ 33 <= 100 - 67.
Proof.
  eexists. split; [vm_compute; reflexivity|].
  refine (proj1 (proj2 (proj2 (proj2 (hits_leave_recompute sample_manager_config sample_manager
    sample_request sample_manager _ 67 0 _ _)))) 32 _ _).
  - vm_compute. discriminate.
  - vm_compute. reflexivity.
  - vm_compute. reflexivity.
  - reflexivity.
Defined.

Lemma connector_hit_divergence_witness :
  exists b, get_computed_blocks_for_connector sample_manager_config sample_manager sample_request
    = Ok (sample_manager, (b, 96, 0, true)) /\ 0 <= 96 <= 99.
Proof.
  eexists. split; [vm_compute; reflexivity|].
  refine (proj1 (proj2 (proj2 (connector_hit_divergence sample_manager_config sample_manager
    sample_request sample_manager _ 96 0 _ _)))).
  - vm_compute. discriminate.
  - vm_compute. reflexivity.
Defined.

(** The connector's lookup does not trim: the 32 tokens of the draft window are
    not recomputed, although the plain lookup above leaves them. *)
Example connector_ignores_trim :
  option_map (fun p => snd (fst (fst (snd p))))
    (match get_computed_blocks_for_connector sample_manager_config sample_manager sample_request with
     | Ok p => Some p | Raise _ => None end) = Some 96 /\
  _dspark_ring_cache_trim sample_environ = Ok 32.
Proof. split; vm_compute; reflexivity. Qed.

Lemma truncation_exact_witness :
  truncate_computed_blocks sample_manager_config sample_manager (Blocks [[7; 8; 9]]) 32
    = Ok (Blocks [[7; 8]]).
Proof.
  apply (truncation_exact sample_manager_config sample_manager (Blocks [[7; 8; 9]]) 32 (Blocks [[7; 8]])).
  - repeat constructor.
  - lia.
  - split; [|reflexivity]. repeat constructor; [by exists 2|simpl; lia].
Defined.

Example offload_hand_off :
  pins_of (fst (take_partial_tail_offloads sample_manager)) "r" = [9] /\
  snd (take_partial_tail_offloads sample_manager) = [("r"%string, [(0, 9, 40)])].
Proof. split; vm_compute; reflexivity. Qed.

End SampleManager.
