(* ===== verification/TailCodec.v ===== *)
(** * The trellis codec of the tail-quantisation campaign

    [campaign-2026-08/tailquant/codec]: the decode law and the ring tiles of
    [mcg_codec.py], the scalar encoder and the weight unpacking of
    [roundtrip.py], and the vectorised encoder of [encode_vec2.py].  A tensor is
    the list of its elements in row-major order; the elementwise operations of
    PyTorch the files use are written out on integers and on IEEE floats at
    their width.  The memory gate at import, loading checkpoints and the printed
    metrics are left out. *)
From S2P Require Export Prelude PyFloat PyDict.
From Stdlib Require Import Floats.SpecFloat.

(** ** Floats: half, single and double precision *)

(** [.view(torch.float16).float()]: the single-precision value of a half. *)
Definition half_to_single (h : Z) : spec_float :=
  let s := Z.testbit h 15 in
  let e := Z.land (Z.shiftr h 10) 31 in
  let m := Z.land h 1023 in
  if e =? 0 then if m =? 0 then S754_zero s else normalize 24 128 s m (-24)
  else if e =? 31 then if m =? 0 then S754_infinity s else S754_nan
  else normalize 24 128 s (1024 + m) (e - 25).

(** [float(x)] of a single-precision element: the same value in double precision. *)
Definition to_double (x : spec_float) : spec_float :=
  match x with
  | S754_finite s m e => normalize 53 1024 s (Z.pos m) e
  | _ => x
  end.
Definition sub64 : spec_float -> spec_float -> spec_float := SFsub 53 1024.

(** ** The decode law *)

Definition mcg_word (w0 : Z) : Z :=
  let x := Z.land (w0 * 0xCBAC1FED) 0xFFFFFFFF in
  Z.lor (Z.land x 0x8FFF8FFF) 0x3B603B60.
Definition mcg_hi (x : Z) : Z := Z.land (Z.shiftr x 16) 0xFFFF.
Definition mcg_lo (x : Z) : Z := Z.land x 0xFFFF.

Definition mcg_decode_w16 (w0 : Z) : spec_float :=
  let x := mcg_word w0 in
  add32 (half_to_single (mcg_hi x)) (half_to_single (mcg_lo x)).

Definition mcg_table256 : list spec_float := map mcg_decode_w16 (range 0 256).

(** ** Ring tiles

    A tile of 256 elements is a ring of [256 * bits] bits, an integer 0 or 1
    each. *)
Section Ring.
Context (bits : Z).

Definition total_bits : Z := bits * 256.

(** [ring[i]] and [ring[i] = v] at an index within the ring. *)
Definition bit_at (ring : list Z) (i : Z) : Z := nth (Z.to_nat i) ring 0.
Definition set_bit (i v : Z) (ring : list Z) : list Z := <[Z.to_nat i := v]> ring.

(** [sum(bit << j)] over sixteen positions. *)
Definition gather16 (bit : Z -> Z) (idx : list Z) : Z :=
  zsum (zip_with (fun i j => Z.shiftl (bit i) j) idx (range 0 16)).

(** The positions of an element's codeword. *)
Definition window (t : Z) : list Z :=
  let starts := ((t + 1) * bits - 16) mod total_bits in
  map (fun j => (starts + j) mod total_bits) (range 0 16).

Definition codeword (ring : list Z) (t : Z) : Z := gather16 (bit_at ring) (window t).

(** [tile_decode]: a bit of the ring is read from the 32-bit words. *)
Definition word_bit (words : list Z) (i : Z) : Z :=
  Z.land (Z.shiftr (bit_at words (i / 32)) (i mod 32)) 1.

Definition tile_codeword (words : list Z) (t : Z) : Z :=
  gather16 (word_bit (map (fun w => Z.land w 0xFFFFFFFF) words)) (window t).

Definition tile_decode (words : list Z) : list spec_float :=
  map (fun t => mcg_decode_w16 (tile_codeword words t)) (range 0 256).

(** [tile_encode], its inner function: all choices for the element's own field
    are tried on a copy of the ring, the first with the least error is kept. *)
Definition put_field (t choice : Z) (ring : list Z) : list Z :=
  let base := (t * bits) mod total_bits in
  foldl (fun ring b => set_bit ((base + b) mod total_bits) (Z.land (Z.shiftr choice b) 1) ring)
    ring (range 0 bits).

Definition error64 (target : list spec_float) (t w0 : Z) : spec_float :=
  SFabs (sub64 (to_double (mcg_decode_w16 w0)) (to_double (nth (Z.to_nat t) target S754_nan))).

Definition try_choice (err : Z -> spec_float) (best : option (spec_float * Z)) (choice : Z)
    : option (spec_float * Z) :=
  match best with
  | None => Some (err choice, choice)
  | Some (best_val, _) => if float_lt (err choice) best_val then Some (err choice, choice) else best
  end.

Definition best_of (err : Z -> spec_float) (choices : list Z) : Z :=
  match foldl (try_choice err) None choices with
  | Some (_, best_bits) => best_bits
  | None => 0
  end.

Definition encode_element (err : Z -> Z -> spec_float) (ring : list Z) (t : Z) : list Z :=
  let best_bits :=
    best_of (fun choice => err t (codeword (put_field t choice ring) t)) (range 0 (2 ^ bits)) in
  put_field t best_bits ring.

(** Bit [i] of the stream goes to bit [i % 32] of word [i // 32]. *)
Definition pack_word (ring : list Z) (wi : Z) : Z :=
  foldl (fun v b => Z.lor v (Z.shiftl (bit_at ring (wi * 32 + b)) b)) 0 (range 0 32).
Definition pack (ring : list Z) : list Z := map (pack_word ring) (range 0 (total_bits / 32)).

Definition encode_pass (err : Z -> Z -> spec_float) (ring : list Z) : list Z :=
  foldl (encode_element err) ring (range 0 256).

Definition zero_ring : list Z := repeat 0 (Z.to_nat total_bits).

Definition tile_encode (target : list spec_float) (refine_passes : Z) : list Z * list Z :=
  let ring := foldl (fun ring _ => encode_pass (error64 target) ring) zero_ring
                (range 0 (refine_passes + 1)) in
  (pack ring, ring).

(** ** [roundtrip.py]

    The scalar encoder writes each choice into the ring itself, reads the window
    without reducing its start first, and packs with sums. *)
Definition raw_window (t : Z) : list Z :=
  map (fun j => ((t + 1) * bits - 16 + j) mod total_bits) (range 0 16).

Definition write_field (positions : list Z) (choice : Z) (ring : list Z) : list Z :=
  foldl (fun ring pb => set_bit pb.1 (Z.land (Z.shiftr choice pb.2) 1) ring) ring
    (zip positions (range 0 bits)).

Definition scalar_choice (err : Z -> Z -> spec_float) (t : Z) (field_pos : list Z)
    (st : list Z * option (spec_float * Z)) (c : Z) : list Z * option (spec_float * Z) :=
  let '(ring, best) := st in
  let ring := write_field field_pos c ring in
  let w0 := gather16 (bit_at ring) (raw_window t) in
  (ring, try_choice (fun _ => err t w0) best c).

Definition scalar_element (err : Z -> Z -> spec_float) (ring : list Z) (t : Z) : list Z :=
  let base := (t * bits) mod total_bits in
  let field_pos := map (fun b => (base + b) mod total_bits) (range 0 bits) in
  let '(ring, best) := foldl (scalar_choice err t field_pos) (ring, None) (range 0 (2 ^ bits)) in
  let best_c := match best with Some (_, c) => c | None => 0 end in
  write_field field_pos best_c ring.

Definition sum_word (ring : list Z) (wi : Z) : Z :=
  zsum (map (fun b => bit_at ring (wi * 32 + b) * Z.shiftl 1 b) (range 0 32)).

Definition encode_tile (target : list spec_float) : list Z :=
  let ring := foldl (scalar_element (error64 target)) zero_ring (range 0 256) in
  map (sum_word ring) (range 0 (total_bits / 32)).

Definition decode_tile (words : list Z) : list spec_float :=
  map (fun t => mcg_decode_w16 (gather16 (word_bit words) (window t))) (range 0 256).

(** ** [encode_vec2.py]

    [SLOTS[t]] are the places of the element's own bits in its window; the
    candidates replace those bits by each of sixteen choices, whatever [bits]
    is, and [argmin] takes the first least error, in single precision. *)
Definition index_of (x : Z) (l : list Z) : option Z :=
  option_map (fun p => Z.of_nat p.1) (list_find (x =.) l).

Definition slots (t : Z) : result (list Z) :=
  rmap (fun b =>
    match index_of ((t * bits + b) mod total_bits) (raw_window t) with
    | Some j => Ok j
    | None => Raise AssertionError
    end) (range 0 bits).

Definition cleared (w0 : Z) (s : list Z) : Z :=
  w0 - zsum (map (fun j => Z.shiftl (Z.land (Z.shiftr w0 j) 1) j) s).

(** One row of [BITS_MAT] against the slots. *)
Definition candidate (w0 : Z) (s : list Z) (c : Z) : Z :=
  cleared w0 s + zsum (zip_with (fun j b => Z.land (Z.shiftr c b) 1 * Z.shiftl 1 j) s (range 0 bits)).

Definition error32 (target : list spec_float) (t w0 : Z) : spec_float :=
  SFabs (sub32 (mcg_decode_w16 w0) (nth (Z.to_nat t) target S754_nan)).

Definition vec_element (err : Z -> Z -> spec_float) (ring : list Z) (t : Z) : result (list Z) :=
  let idx := raw_window t in
  let* s := slots t in
  let w0 := gather16 (bit_at ring) idx in
  let best := best_of (fun c => err t (candidate w0 s c)) (range 0 16) in
  Ok (foldl (fun ring '(j, b) =>
        set_bit (nth (Z.to_nat j) idx 0) (Z.land (Z.shiftr best b) 1) ring) ring (zip s (range 0 bits))).

Definition encode_tile_vec (ring : list Z) (target : list spec_float) : result (list Z) :=
  rfold (vec_element (error32 target)) ring (range 0 256).

End Ring.

(** ** Unpacking 32-bit words *)

(** [.to(torch.int8)]. *)
Definition to_int8 (z : Z) : Z := (z + 128) mod 256 - 128.

(** Element [elem] of a group of [num_bits] words. *)
Definition unpack_element (num_bits : Z) (group : list Z) (elem : Z) : Z :=
  let bit_start := elem * num_bits in
  let word_idx := bit_start / 32 in
  let off := bit_start mod 32 in
  let lo_bits := Z.min (32 - off) num_bits in
  let out := Z.land (Z.shiftr (bit_at group word_idx) off) (Z.shiftl 1 lo_bits - 1) in
  if lo_bits <? num_bits then
    let hi := num_bits - lo_bits in
    let right := Z.shiftl (Z.land (bit_at group (word_idx + 1)) (Z.shiftl 1 hi - 1)) lo_bits in
    Z.lor out right
  else out.

(** A row: padded with zero words to whole groups of [num_bits] words, each of
    which holds 32 elements. *)
Definition unpack_row (num_bits cols : Z) (row : list Z) : list Z :=
  let num_words := Z.of_nat (length row) in
  let pad := (- num_words) mod num_bits in
  let row := row ++ repeat 0 (Z.to_nat pad) in
  let num_groups := (num_words + pad) / num_bits in
  let res := flat_map (fun g =>
      let group := PyList.slice (g * num_bits) ((g + 1) * num_bits) row in
      map (unpack_element num_bits group) (range 0 32)) (range 0 num_groups) in
  map (fun v => to_int8 (v - Z.shiftl 1 (num_bits - 1))) (PyList.slice_to cols res).

Definition unpack_from_int32 (value : list (list Z)) (num_bits cols : Z) : list (list Z) :=
  map (unpack_row num_bits cols) value.
