(* ===== verification/TailRing.v ===== *)
(** * The trellis codec: theorems

    What [TailCodec] guarantees: the decode law only yields finite values in a
    small range, the words of a tile give back the bits of its ring, the decoded
    elements are greedily best, the three encoders agree, and unpacking reads
    consecutive fields of the bit stream. *)
From S2P Require Export TailCodec.

(** ** Numbers from bits *)

Definition from_bits (f : Z -> Z) (n : Z) : Z := zsum (map (fun j => f j * 2 ^ j) (range 0 n)).
Definition is_bit (b : Z) : Prop := b = 0 \/ b = 1.

Lemma range_snoc n : 0 <= n -> range 0 (n + 1) = range 0 n ++ [n].
Proof.
  intros Hn. unfold range. rewrite !Z.sub_0_r, seqZ_app by lia. f_equal.
Qed.

Lemma from_bits_0 f : from_bits f 0 = 0.
Proof. done. Qed.

Lemma from_bits_succ f n : 0 <= n -> from_bits f (n + 1) = from_bits f n + f n * 2 ^ n.
Proof.
  intros Hn. unfold from_bits. rewrite range_snoc, map_app, zsum_app by done. simpl. lia.
Qed.

(** Induction on the number of bits. *)
Ltac bits_induction n :=
  let Hn := fresh "Hn" in
  intros Hn; pattern n; revert n Hn; apply natlike_ind;
  [|let n := fresh "n" in let IH := fresh "IH" in intros n Hn IH; rewrite <- ?Z.add_1_r in *].

Lemma from_bits_ext f g n :
  (forall j, 0 <= j < n -> f j = g j) -> from_bits f n = from_bits g n.
Proof.
  intros Hfg. unfold from_bits. f_equal. apply map_ext_in. intros j Hj%list_elem_of_In%elem_of_range.
  by rewrite Hfg.
Qed.

Lemma from_bits_bound f n : 0 <= n -> (forall j, 0 <= j < n -> is_bit (f j)) -> 0 <= from_bits f n < 2 ^ n.
Proof.
  bits_induction n; [rewrite from_bits_0; lia|]. intros Hf. rewrite from_bits_succ, Z.pow_add_r by lia.
  assert (0 <= from_bits f n < 2 ^ n) by (apply IH; intros; apply Hf; lia).
  destruct (Hf n ltac:(lia)) as [-> | ->]; lia.
Qed.

Lemma from_bits_split f n m :
  0 <= n -> 0 <= m -> from_bits f (n + m) = from_bits f n + 2 ^ n * from_bits (fun j => f (n + j)) m.
Proof.
  intros Hn. bits_induction m; [rewrite from_bits_0, Z.add_0_r; lia|].
  rewrite Z.add_assoc, !from_bits_succ, IH, Z.pow_add_r by lia. ring.
Qed.

(** [(v >> k) & 1] is the bit. *)
Lemma land_1 v : Z.land v 1 = v mod 2.
Proof. apply (Z.land_ones v 1). lia. Qed.

Lemma bit_is_bit v k : is_bit (Z.land (Z.shiftr v k) 1).
Proof. rewrite land_1. pose proof (Z.mod_pos_bound (Z.shiftr v k) 2). unfold is_bit. lia. Qed.

Lemma from_bits_bit f n k :
  0 <= k < n -> (forall j, 0 <= j < n -> is_bit (f j)) -> Z.land (Z.shiftr (from_bits f n) k) 1 = f k.
Proof.
  intros Hk Hf. rewrite land_1, Z.shiftr_div_pow2 by lia.
  replace n with (k + (1 + (n - k - 1))) by lia. rewrite from_bits_split by lia.
  pose proof (from_bits_bound f k ltac:(lia) ltac:(intros; apply Hf; lia)).
  rewrite (Z.add_comm (from_bits f k)), (Z.mul_comm (2 ^ k)), Z.div_add_l, Z.div_small by lia.
  rewrite from_bits_split by lia. change (2 ^ 1) with 2.
  rewrite Z.add_0_r, (Z.mul_comm 2), Z.mod_add by lia.
  change 1 with (0 + 1) at 1. rewrite from_bits_succ, from_bits_0, Z.add_0_r by lia.
  destruct (Hf k ltac:(lia)) as [-> | ->]; done.
Qed.

(** The bits of a number give the number back. *)
Lemma bits_of_number c n : 0 <= n -> from_bits (fun j => Z.land (Z.shiftr c j) 1) n = c mod 2 ^ n.
Proof.
  bits_induction n; [by rewrite from_bits_0, Z.mod_1_r|].
  rewrite from_bits_succ, IH, land_1, Z.shiftr_div_pow2 by lia.
  rewrite Z.pow_add_r, Z.rem_mul_r by lia. change (2 ^ 1) with 2. lia.
Qed.

Lemma gather16_bits f g : gather16 f (map g (range 0 16)) = from_bits (fun j => f (g j)) 16.
Proof.
  unfold gather16, from_bits. f_equal.
  assert (Forall (fun j => 0 <= j) (range 0 16)) as Hpos
    by (apply Forall_forall; intros j Hj%elem_of_range; lia).
  induction Hpos as [|j l Hj _ IH]; [done|]. simpl. by rewrite Z.shiftl_mul_pow2, IH.
Qed.

(** Adding a bit above a number is or-ing it in. *)
Lemma lor_high v b n : 0 <= n -> 0 <= v < 2 ^ n -> Z.lor v (Z.shiftl b n) = v + b * 2 ^ n.
Proof.
  intros Hn Hv. rewrite <- Z.shiftl_mul_pow2 by done.
  assert (Z.land v (Z.shiftl b n) = 0) as Hland.
  { apply Z.bits_inj'. intros k Hk. rewrite Z.land_spec, Z.shiftl_spec, Z.bits_0 by done.
    destruct (Z.lt_ge_cases k n); [by rewrite (Z.testbit_neg_r b) by lia; rewrite andb_false_r|].
    rewrite <- (Z.mod_small v (2 ^ n)), Z.mod_pow2_bits_high by lia. done. }
  rewrite Z.add_nocarry_lxor by done. by rewrite Z.lxor_lor.
Qed.

Lemma foldl_lor_bits f n :
  0 <= n -> (forall j, 0 <= j < n -> is_bit (f j)) ->
  foldl (fun v b => Z.lor v (Z.shiftl (f b) b)) 0 (range 0 n) = from_bits f n.
Proof.
  bits_induction n; [done|]. intros Hf.
  rewrite range_snoc, foldl_app, from_bits_succ, IH by (try (intros; apply Hf); lia). simpl.
  apply lor_high; [done|]. apply from_bits_bound; [done|]. intros; apply Hf; lia.
Qed.

(** ** The decode law *)

(** The exponent field of a half. *)
Definition half_exponent (h : Z) : Z := Z.land (Z.shiftr h 10) 31.

Lemma exponent_of_bits h :
  Z.testbit h 11 = true -> Z.testbit h 12 = true -> Z.testbit h 13 = true -> Z.testbit h 14 = false ->
  14 <= half_exponent h <= 15.
Proof.
  intros H11 H12 H13 H14. unfold half_exponent.
  assert (Z.land (Z.shiftr h 10) 31 = Z.b2z (Z.testbit h 10) + 14) as ->.
  { apply Z.bits_inj'. intros k Hk. rewrite Z.land_spec, Z.shiftr_spec by done.
    destruct (Z.le_gt_cases 5 k) as [Hhigh|Hlow].
    - change 31 with (Z.ones 5). rewrite Z.ones_spec_high, andb_false_r by lia.
      symmetry. apply Z.bits_above_log2; destruct (Z.testbit h 10); simpl; lia.
    - assert (k = 0 \/ k = 1 \/ k = 2 \/ k = 3 \/ k = 4) as Hcase by lia.
      destruct Hcase as [->|[->|[->|[->| ->]]]]; 
        change (0 + 10) with 10 || change (1 + 10) with 11 || change (2 + 10) with 12
        || change (3 + 10) with 13 || change (4 + 10) with 14.
      all: rewrite ?H11, ?H12, ?H13, ?H14; by destruct (Z.testbit h 10). }
  destruct (Z.testbit h 10); simpl; lia.
Qed.

Lemma mcg_word_bit w0 k :
  0 <= k -> Z.testbit 0x8FFF8FFF k = false -> Z.testbit (mcg_word w0) k = Z.testbit 0x3B603B60 k.
Proof.
  intros Hk Hmask. unfold mcg_word. cbv zeta. by rewrite Z.lor_spec, Z.land_spec, Hmask, andb_false_r.
Qed.

Lemma mcg_word_set w0 k : Z.testbit 0x3B603B60 k = true -> Z.testbit (mcg_word w0) k = true.
Proof. intros Hset. unfold mcg_word. cbv zeta. by rewrite Z.lor_spec, Hset, orb_true_r. Qed.

Lemma mask16_bit x k : 0 <= k < 16 -> Z.testbit (Z.land x 0xFFFF) k = Z.testbit x k.
Proof.
  intros Hk. rewrite Z.land_spec. change 0xFFFF with (Z.ones 16).
  by rewrite Z.ones_spec_low, andb_true_r by lia.
Qed.

(** The decode law never produces an infinity or a NaN: whatever the codeword,
    the mask gives both halves an exponent of 14 or 15, a magnitude between one
    half and two. *)
Theorem decode_halves_normal w0 h :
  h ∈ [mcg_hi (mcg_word w0); mcg_lo (mcg_word w0)] -> 14 <= half_exponent h <= 15.
Proof.
  intros [-> | ->%list_elem_of_singleton]%elem_of_cons; apply exponent_of_bits;
    unfold mcg_hi, mcg_lo; rewrite mask16_bit, ?Z.shiftr_spec by lia.
  all: first [by apply mcg_word_set | rewrite mcg_word_bit; [done|lia|done]].
Qed.

(** ** Rings *)

Section Rings.
Context (bits : Z) (Hbits : 1 <= bits <= 16).
Notation total := (total_bits bits).

(** A ring holds one bit for every position. *)
Definition ring_ok (ring : list Z) : Prop :=
  Z.of_nat (length ring) = total /\ forall i, is_bit (bit_at ring i).

Lemma total_spec : total = bits * 256.
Proof. done. Qed.

Lemma bit_at_out ring i : Z.of_nat (length ring) <= i -> bit_at ring i = 0.
Proof. intros Hi. unfold bit_at. apply nth_overflow. lia. Qed.

Lemma bit_at_set i v ring k :
  0 <= i < Z.of_nat (length ring) -> 0 <= k ->
  bit_at (set_bit i v ring) k = if decide (k = i) then v else bit_at ring k.
Proof.
  intros Hi Hk. unfold bit_at, set_bit. rewrite !nth_lookup.
  destruct (decide (k = i)) as [->|Hne].
  - by rewrite list_lookup_insert_eq by lia.
  - by rewrite list_lookup_insert_ne by lia.
Qed.

Lemma length_set_bit i v ring : length (set_bit i v ring) = length ring.
Proof. apply length_insert. Qed.

(** Two rings with the same bits are the same list. *)
Lemma ring_ext r1 r2 :
  length r1 = length r2 -> (forall i, 0 <= i < Z.of_nat (length r1) -> bit_at r1 i = bit_at r2 i) -> r1 = r2.
Proof.
  intros Hlen Hbit. apply (nth_ext _ _ 0 0); [done|]. intros n Hn.
  specialize (Hbit (Z.of_nat n) ltac:(lia)). unfold bit_at in Hbit. by rewrite Nat2Z.id in Hbit.
Qed.

Lemma zero_ring_ok : ring_ok (zero_ring bits).
Proof.
  unfold ring_ok, zero_ring. rewrite repeat_length, total_spec. split; [lia|].
  intros i. left. unfold bit_at. apply nth_repeat.
Qed.

(** The element's own field. *)
Definition in_field (t i : Z) : bool := (t * bits <=? i) && (i <? (t + 1) * bits).

Lemma field_position t b : 0 <= t < 256 -> 0 <= b < bits -> ((t * bits) mod total + b) mod total = t * bits + b.
Proof. intros Ht Hb. rewrite total_spec. rewrite (Z.mod_small (t * bits)) by nia. apply Z.mod_small. nia. Qed.

Lemma put_bits_bit t choice n ring :
  0 <= n <= bits -> 0 <= t < 256 -> Z.of_nat (length ring) = total ->
  let ring' := foldl (fun ring b =>
    set_bit (((t * bits) mod total + b) mod total) (Z.land (Z.shiftr choice b) 1) ring) ring (range 0 n) in
  length ring' = length ring /\
  forall k, 0 <= k -> bit_at ring' k =
    if decide (t * bits <= k < t * bits + n) then Z.land (Z.shiftr choice (k - t * bits)) 1 else bit_at ring k.
Proof.
  intros [Hn Hle] Ht Hlen. revert Hle. pattern n. revert n Hn. apply natlike_ind.
  { intros _. split; [done|]. intros k Hk. by rewrite decide_False by lia. }
  intros n Hn IH Hle. rewrite <- Z.add_1_r. rewrite range_snoc, foldl_app by done. cbn [foldl].
  destruct (IH ltac:(lia)) as [Hlen' Hbit]. rewrite field_position by lia. split; [by rewrite length_set_bit|].
  intros k Hk. rewrite bit_at_set by (rewrite ?Hlen', ?Hlen, ?total_spec; nia).
  destruct (decide (k = t * bits + n)) as [->|Hne].
  - rewrite decide_True by lia. do 2 f_equal. lia.
  - rewrite Hbit by done. destruct (decide (t * bits <= k < t * bits + n)).
    + by rewrite decide_True by lia.
    + by rewrite decide_False by lia.
Qed.

Lemma put_field_bit t choice ring k :
  0 <= t < 256 -> Z.of_nat (length ring) = total -> 0 <= k ->
  bit_at (put_field bits t choice ring) k =
    if in_field t k then Z.land (Z.shiftr choice (k - t * bits)) 1 else bit_at ring k.
Proof.
  intros Ht Hlen Hk. unfold put_field. destruct (put_bits_bit t choice bits ring) as [_ Hput]; [lia|done..|].
  rewrite Hput by done. unfold in_field. destruct (decide _) as [Hd|Hd]; break_if; try done; exfalso; bool_prop; lia.
Qed.

Lemma length_put_field t choice ring :
  0 <= t < 256 -> Z.of_nat (length ring) = total ->
  length (put_field bits t choice ring) = length ring.
Proof. intros Ht Hlen. unfold put_field. by destruct (put_bits_bit t choice bits ring) as [-> _]; [lia|..]. Qed.

Lemma put_field_ok t choice ring : 0 <= t < 256 -> ring_ok ring -> ring_ok (put_field bits t choice ring).
Proof.
  intros Ht [Hlen Hbit]. split; [by rewrite length_put_field|]. intros i.
  destruct (Z.lt_ge_cases i 0) as [Hneg|Hpos].
  - unfold bit_at. replace (Z.to_nat i) with (Z.to_nat 0) by lia. fold (bit_at (put_field bits t choice ring) 0).
    rewrite put_field_bit by (done || lia). break_if; [apply bit_is_bit|apply Hbit].
  - rewrite put_field_bit by done. break_if; [apply bit_is_bit|apply Hbit].
Qed.

(** Writing a field twice leaves the second choice. *)
Lemma put_field_twice t c c' ring :
  0 <= t < 256 -> Z.of_nat (length ring) = total ->
  put_field bits t c' (put_field bits t c ring) = put_field bits t c' ring.
Proof.
  intros Ht Hlen. assert (length (put_field bits t c ring) = length ring) as Hl by by apply length_put_field.
  apply ring_ext; [by rewrite !length_put_field by (rewrite ?Hl; done)|].
  intros i Hi. rewrite !put_field_bit by (rewrite ?Hl; done || lia). by break_if.
Qed.

(** ** Windows *)

Definition position (t j : Z) : Z := ((t + 1) * bits - 16 + j) mod total.

Lemma window_positions t : window bits t = map (position t) (range 0 16).
Proof.
  unfold window, position. apply map_ext. intros j. rewrite total_spec. by rewrite Zplus_mod_idemp_l.
Qed.

Lemma raw_window_window t : raw_window bits t = window bits t.
Proof. by rewrite window_positions. Qed.

Lemma codeword_bits ring t : codeword bits ring t = from_bits (fun j => bit_at ring (position t j)) 16.
Proof. unfold codeword. by rewrite window_positions, gather16_bits. Qed.

Lemma position_bound t j : 0 <= position t j < total.
Proof. unfold position. apply Z.mod_pos_bound. rewrite total_spec. lia. Qed.

(** The own field is the top of the window; the rest of it lies outside. *)
Lemma position_own t j : 0 <= t < 256 -> 16 - bits <= j < 16 -> position t j = t * bits + (j - (16 - bits)).
Proof. intros Ht Hj. unfold position. rewrite total_spec, Z.mod_small by nia. lia. Qed.

Lemma position_context t j : 0 <= t < 256 -> 0 <= j < 16 - bits -> in_field t (position t j) = false.
Proof.
  intros Ht Hj. unfold in_field, position. rewrite total_spec.
  destruct (Z.lt_ge_cases ((t + 1) * bits - 16 + j) 0) as [Hneg|Hpos].
  - rewrite <- (Z.mod_add _ 1), Z.mod_small by nia. destruct (Z.ltb_spec ((t + 1) * bits - 16 + j + 1 * (bits * 256)) ((t + 1) * bits)); [nia|]. by rewrite andb_false_r.
  - rewrite Z.mod_small by nia. destruct (Z.leb_spec (t * bits) ((t + 1) * bits - 16 + j)); [nia|done].
Qed.

(** The codeword after a choice: the context below, the choice on top. *)
Definition context (ring : list Z) (t : Z) : Z := from_bits (fun j => bit_at ring (position t j)) (16 - bits).

Lemma codeword_put_field t c ring :
  0 <= t < 256 -> Z.of_nat (length ring) = total -> 0 <= c < 2 ^ bits ->
  codeword bits (put_field bits t c ring) t = context ring t + 2 ^ (16 - bits) * c.
Proof.
  intros Ht Hlen Hc. rewrite codeword_bits. replace 16 with ((16 - bits) + bits) by lia.
  rewrite from_bits_split by lia. replace ((16 - bits) + bits) with 16 by lia. f_equal.
  - apply from_bits_ext. intros j Hj.
    rewrite put_field_bit by (try apply position_bound; done). by rewrite position_context.
  - f_equal. transitivity (c mod 2 ^ bits); [|by apply Z.mod_small]. rewrite <- bits_of_number by lia.
    apply from_bits_ext. intros j Hj.
    rewrite put_field_bit by (try apply position_bound; done). rewrite position_own by lia.
    unfold in_field. rewrite (proj2 (Z.leb_le _ _)), (proj2 (Z.ltb_lt _ _)) by lia. simpl. do 2 f_equal. lia.
Qed.

Lemma context_ext r1 r2 t :
  (forall j, 0 <= j < 16 - bits -> bit_at r1 (position t j) = bit_at r2 (position t j)) ->
  context r1 t = context r2 t.
Proof. intros Hext. by apply from_bits_ext. Qed.

End Rings.

(** ** The order of floats, and the best choice *)

(** Finite floats compare by sign, exponent and mantissa, the negative ones in
    reverse. *)
Definition float_key (x : spec_float) : option (Z * Z * Z) :=
  match x with
  | S754_nan => None
  | S754_infinity s => Some (if s then -2 else 2, 0, 0)
  | S754_zero _ => Some (0, 0, 0)
  | S754_finite s m e => Some (if s then (-1, - e, Z.neg m) else (1, e, Z.pos m))
  end.

Definition key_lt (x y : Z * Z * Z) : Prop :=
  x.1.1 < y.1.1 \/ x.1.1 = y.1.1 /\ (x.1.2 < y.1.2 \/ x.1.2 = y.1.2 /\ x.2 < y.2).

Lemma float_lt_key x y :
  float_lt x y = true <-> exists kx ky, float_key x = Some kx /\ float_key y = Some ky /\ key_lt kx ky.
Proof.
  assert (forall kx ky, float_key x = Some kx -> float_key y = Some ky ->
    float_lt x y = true <-> key_lt kx ky) as Hkey.
  { unfold float_lt, SFltb, key_lt.
    destruct x as [sx|[]| |[] mx ex], y as [sy|[]| |[] my ey]; intros kx ky; simpl;
      intros [= <-] [= <-]; simpl; try (split; [done|lia]); try (split; [lia|done]).
    - destruct (Z.compare_spec ex ey); [|split; [done|lia]|split; [lia|done]]. subst.
      fold (Pos.compare mx my). destruct (Pos.compare_spec mx my); simpl;
        split; intros; try done; lia.
    - destruct (Z.compare_spec ex ey); [|split; [lia|done]|split; [done|lia]]. subst.
      fold (Pos.compare mx my). destruct (Pos.compare_spec mx my); simpl;
        split; intros; try done; lia. }
  split.
  - intros Hlt. destruct (float_key x) as [kx|] eqn:Hx, (float_key y) as [ky|] eqn:Hy.
    + exists kx, ky. split_and!; [done..|]. by apply Hkey.
    + destruct y; try done. unfold float_lt, SFltb in Hlt. by destruct x as [|[]| |[]].
    + by destruct x.
    + by destruct x.
  - intros (kx & ky & Hx & Hy & Hlt). by apply (Hkey kx ky).
Qed.

Lemma float_lt_irrefl x : float_lt x x = false.
Proof.
  apply not_true_iff_false. rewrite float_lt_key. intros (kx & ky & Hx & Hy & Hlt).
  rewrite Hx in Hy. injection Hy as ->. unfold key_lt in Hlt. lia.
Qed.

Lemma float_lt_trans x y z : float_lt x y = true -> float_lt y z = true -> float_lt x z = true.
Proof.
  rewrite !float_lt_key. intros (kx & ky & Hx & Hy & Hxy) (ky' & kz & Hy' & Hz & Hyz).
  rewrite Hy in Hy'. injection Hy' as <-. exists kx, kz. split_and!; [done..|]. unfold key_lt in *. lia.
Qed.

(** The running best of a prefix: a member that no member beats. *)
Definition best_so_far (err : Z -> spec_float) (seen : list Z) (best : option (spec_float * Z)) : Prop :=
  match best with
  | None => seen = []
  | Some (v, c) => c ∈ seen /\ v = err c /\ Forall (fun c' => float_lt (err c') v = false) seen
  end.

Lemma try_choice_best err seen best c :
  best_so_far err seen best -> best_so_far err (seen ++ [c]) (try_choice err best c).
Proof.
  destruct best as [[v b]|]; simpl.
  - intros (Hb & -> & Hall). destruct (float_lt (err c) (err b)) eqn:Hlt; simpl.
    + split_and!; [set_solver|done|]. apply Forall_app. split; [|by constructor; [apply float_lt_irrefl|]].
      eapply Forall_impl; [exact Hall|]. intros c' Hc'. apply not_true_iff_false. intros Hc.
      simpl in Hc'. by rewrite (float_lt_trans _ _ _ Hc Hlt) in Hc'.
    + split_and!; [set_solver|done|]. apply Forall_app. by repeat constructor.
  - intros ->. simpl. split_and!; [left|done|]. by constructor; [apply float_lt_irrefl|].
Qed.

Lemma foldl_try_best err choices seen best :
  best_so_far err seen best -> best_so_far err (seen ++ choices) (foldl (try_choice err) best choices).
Proof.
  revert seen best. induction choices as [|c choices IH]; intros seen best Hbest; simpl; [by rewrite app_nil_r|].
  rewrite cons_middle, app_assoc. by apply IH, try_choice_best.
Qed.

Lemma best_of_spec err choices :
  choices <> [] ->
  best_of err choices ∈ choices /\
  forall c, c ∈ choices -> float_lt (err c) (err (best_of err choices)) = false.
Proof.
  intros Hne. pose proof (foldl_try_best err choices [] None eq_refl) as Hbest. simpl in Hbest.
  unfold best_of. destruct (foldl (try_choice err) None choices) as [[v b]|]; [|done].
  destruct Hbest as (Hb & -> & Hall). split; [done|]. by apply Forall_forall.
Qed.

Lemma best_of_ext err err' choices :
  (forall c, c ∈ choices -> err c = err' c) -> best_of err choices = best_of err' choices.
Proof.
  intros Hext. unfold best_of. enough (forall best,
    foldl (try_choice err) best choices = foldl (try_choice err') best choices) as -> by done.
  induction choices as [|c choices IH]; intros best; [done|]. simpl.
  assert (try_choice err best c = try_choice err' best c) as ->.
  { unfold try_choice. by rewrite (Hext c) by left. }
  apply IH. intros c' Hc'. apply Hext. by right.
Qed.

(** ** Encoding and decoding a tile *)

Section Encoding.
Context (bits : Z) (Hbits : 1 <= bits <= 16) (err : Z -> Z -> spec_float).
Notation total := (total_bits bits).
Notation ring_ok := (ring_ok bits).

(** No other choice for the element's field has a smaller error. *)
Definition settled (ring : list Z) (t : Z) : Prop :=
  forall c, 0 <= c < 2 ^ bits ->
    float_lt (err t (codeword bits (put_field bits t c ring) t)) (err t (codeword bits ring t)) = false.

Lemma best_choice_in ring t :
  0 <= best_of (fun choice => err t (codeword bits (put_field bits t choice ring) t)) (range 0 (2 ^ bits)) < 2 ^ bits.
Proof.
  pose proof (Z.pow_pos_nonneg 2 bits ltac:(lia) ltac:(lia)) as Hpow.
  destruct (best_of_spec (fun choice => err t (codeword bits (put_field bits t choice ring) t))
    (range 0 (2 ^ bits))) as [Hin _]; [|by apply elem_of_range in Hin].
  intros Hnil. assert (0 ∈ range 0 (2 ^ bits)) as Hz by (apply elem_of_range; lia).
  rewrite Hnil in Hz. by apply elem_of_nil in Hz.
Qed.

Lemma encode_element_ok ring t : 0 <= t < 256 -> ring_ok ring -> ring_ok (encode_element bits err ring t).
Proof. intros Ht Hring. by apply put_field_ok. Qed.

Lemma encode_element_settled ring t :
  0 <= t < 256 -> ring_ok ring -> settled (encode_element bits err ring t) t.
Proof.
  intros Ht [Hlen _] c Hc. unfold encode_element. rewrite put_field_twice by done.
  apply (best_of_spec (fun choice => err t (codeword bits (put_field bits t choice ring) t))
    (range 0 (2 ^ bits))); [|by apply elem_of_range].
  intros Hnil. assert (c ∈ range 0 (2 ^ bits)) as Hz by by apply elem_of_range.
  rewrite Hnil in Hz. by apply elem_of_nil in Hz.
Qed.

Lemma settled_ext r1 r2 t :
  0 <= t < 256 -> Z.of_nat (length r1) = total -> Z.of_nat (length r2) = total ->
  (forall j, 0 <= j < 16 -> bit_at r1 (position bits t j) = bit_at r2 (position bits t j)) ->
  settled r1 t -> settled r2 t.
Proof.
  intros Ht H1 H2 Hext Hset c Hc. specialize (Hset c Hc).
  rewrite codeword_put_field in Hset |- * by done.
  rewrite (context_ext bits r1 r2) in Hset by (intros; apply Hext; lia).
  rewrite codeword_bits in Hset |- *. by rewrite (from_bits_ext _ _ 16 Hext) in Hset.
Qed.

(** The window of an element that does not wrap ends before every later field. *)
Lemma later_element_frame ring t t' j :
  0 <= t < t' -> t' < 256 -> ring_ok ring -> 16 <= (t + 1) * bits -> 0 <= j < 16 ->
  bit_at (encode_element bits err ring t') (position bits t j) = bit_at ring (position bits t j).
Proof.
  intros Ht Ht' [Hlen _] Hwrap Hj. unfold encode_element.
  rewrite put_field_bit by (try apply position_bound; done || lia).
  unfold in_field, position. rewrite total_spec, Z.mod_small by nia.
  destruct (Z.leb_spec (t' * bits) ((t + 1) * bits - 16 + j)); [nia|done].
Qed.

Definition pass_done (n : Z) (ring : list Z) : Prop :=
  ring_ok ring /\ forall t, 0 <= t < n -> 16 <= (t + 1) * bits -> settled ring t.

Lemma encode_prefix_done n ring :
  0 <= n -> n <= 256 -> ring_ok ring -> pass_done n (foldl (encode_element bits err) ring (range 0 n)).
Proof.
  intros Hn. pattern n. revert n Hn. apply natlike_ind.
  { intros _ Hring. split; [done|]. intros t Ht. lia. }
  intros n Hn IH Hle Hring. rewrite <- Z.add_1_r in *. rewrite range_snoc, foldl_app by done. cbn [foldl].
  destruct (IH ltac:(lia) Hring) as [Hok Hset]. split; [apply encode_element_ok; [lia|done]|].
  intros t Ht Hwrap. destruct (Z.eq_dec t n) as [->|Hne]; [by apply encode_element_settled; [lia|]|].
  eapply settled_ext; [lia|apply Hok|apply encode_element_ok; [lia|done]| |apply Hset; [lia|done]].
  intros j Hj. symmetry. apply later_element_frame; (done || lia).
Qed.

Lemma encode_passes_done passes ring :
  0 <= passes -> ring_ok ring ->
  pass_done 256 (foldl (fun ring _ => encode_pass bits err ring) ring (range 0 (passes + 1))).
Proof.
  intros Hp Hring. rewrite range_snoc, foldl_app by done. cbn [foldl].
  apply encode_prefix_done; [done|done|].
  pattern passes. revert passes Hp. apply natlike_ind; [done|].
  intros p Hp IH. rewrite <- Z.add_1_r, range_snoc, foldl_app by done. cbn [foldl].
  by apply encode_prefix_done.
Qed.

(** ** Packing *)

Lemma bit_at_map_range f n i : 0 <= i < n -> bit_at (map f (range 0 n)) i = f i.
Proof.
  intros Hi. unfold bit_at. rewrite nth_lookup, list_lookup_fmap. unfold range.
  rewrite lookup_seqZ_lt by lia. simpl. f_equal. lia.
Qed.

Lemma pack_word_bits ring wi :
  ring_ok ring -> pack_word ring wi = from_bits (fun b => bit_at ring (wi * 32 + b)) 32.
Proof. intros [_ Hbit]. unfold pack_word. apply foldl_lor_bits; [lia|]. intros j _. apply Hbit. Qed.

Lemma sum_word_bits ring wi : sum_word ring wi = from_bits (fun b => bit_at ring (wi * 32 + b)) 32.
Proof.
  unfold sum_word, from_bits. apply (f_equal zsum), map_ext_in. intros b Hb%list_elem_of_In%elem_of_range.
  rewrite Z.shiftl_mul_pow2, Z.mul_1_l by lia. done.
Qed.

Lemma packed_bit ring i (words : list Z) :
  ring_ok ring -> 0 <= i < total ->
  (forall wi, 0 <= wi < total / 32 -> bit_at words wi = pack_word ring wi) ->
  word_bit words i = bit_at ring i.
Proof.
  intros Hok Hi Hwords. unfold word_bit. rewrite Hwords.
  - rewrite pack_word_bits by done. rewrite from_bits_bit; [|apply Z.mod_pos_bound; lia|intros; apply Hok].
    f_equal. pose proof (Z.div_mod i 32 ltac:(lia)). lia.
  - split; [apply Z.div_pos; lia|]. apply Z.div_lt_upper_bound; [lia|].
    rewrite total_spec in *. replace (bits * 256) with (bits * 8 * 32) by ring. rewrite Z.div_mul by lia. lia.
Qed.

Lemma tile_codeword_pack ring t : ring_ok ring -> tile_codeword bits (pack bits ring) t = codeword bits ring t.
Proof.
  intros Hok. unfold tile_codeword, codeword. rewrite window_positions, !gather16_bits by done.
  apply from_bits_ext. intros j Hj. apply packed_bit; [done|by apply position_bound|].
  intros wi Hwi. unfold pack. rewrite map_map, bit_at_map_range by done.
  change 0xFFFFFFFF with (Z.ones 32). rewrite Z.land_ones by lia. apply Z.mod_small.
  rewrite pack_word_bits by done. apply from_bits_bound; [lia|]. intros; apply Hok.
Qed.

End Encoding.

(** C25 (greedy tiles): decoding the words of an encoded tile reads the codewords of
    its ring, and every element whose window does not wrap round the ring decodes
    to the best value its own field can give there: no other choice of the field
    has a smaller error, after any number of refinement passes. *)
Theorem greedy_tile_decodes_best bits target passes words ring t c :
  1 <= bits <= 16 -> 0 <= passes -> 0 <= t < 256 -> 0 <= c < 2 ^ bits -> 16 <= (t + 1) * bits ->
  tile_encode bits target passes = (words, ring) ->
  nth (Z.to_nat t) (tile_decode bits words) S754_nan = mcg_decode_w16 (codeword bits ring t) /\
  tile_codeword bits words t = codeword bits ring t /\
  float_lt (error64 target t (codeword bits (put_field bits t c ring) t))
           (error64 target t (tile_codeword bits words t)) = false.
Proof.
  intros Hbits Hp Ht Hc Hwrap [= <- <-].
  set (ring := foldl _ _ _).
  destruct (encode_passes_done bits Hbits (error64 target) passes (zero_ring bits) Hp
    (zero_ring_ok bits Hbits)) as [Hok Hset]. fold ring in Hok, Hset. clearbody ring.
  rewrite tile_codeword_pack by done. split_and!; [|done|by apply Hset].
  unfold tile_decode. rewrite nth_lookup, list_lookup_fmap. unfold range. rewrite lookup_seqZ_lt by lia. simpl.
  rewrite tile_codeword_pack by done. do 2 f_equal. lia.
Qed.

(** A ramp of 256 values, and its tile. *)
Definition ramp : list spec_float := map (fun t => normalize 24 128 false t (-7)) (range 0 256).

Lemma greedy_tile_decodes_best_witness :
  let words := fst (tile_encode 4 ramp 1) in
  let ring := snd (tile_encode 4 ramp 1) in
  nth (Z.to_nat 200) (tile_decode 4 words) S754_nan = mcg_decode_w16 (codeword 4 ring 200) /\
  tile_codeword 4 words 200 = codeword 4 ring 200 /\
  float_lt (error64 ramp 200 (codeword 4 (put_field 4 200 9 ring) 200))
           (error64 ramp 200 (tile_codeword 4 words 200)) = false.
Proof.
  intros words ring. apply (greedy_tile_decodes_best 4 ramp 1); [lia..|]. apply surjective_pairing.
Defined.

(** ** The encoders agree *)

Section Encoders.
Context (bits : Z) (Hbits : 1 <= bits <= 16) (err : Z -> Z -> spec_float).
Notation total := (total_bits bits).

Lemma foldl_zip_map {A B C} (f : C -> B * A -> C) (g : A -> B) l c :
  foldl f c (zip (map g l) l) = foldl (fun c a => f c (g a, a)) c l.
Proof. revert c. induction l as [|a l IH]; intros c; simpl; [done|apply IH]. Qed.

Definition field_positions (t : Z) : list Z :=
  map (fun b => ((t * bits) mod total + b) mod total) (range 0 bits).

Lemma write_field_put t c ring : write_field bits (field_positions t) c ring = put_field bits t c ring.
Proof. unfold write_field, field_positions, put_field. by rewrite foldl_zip_map. Qed.

Lemma scalar_fold t ring r best choices :
  0 <= t < 256 -> Z.of_nat (length ring) = total ->
  (forall c, put_field bits t c r = put_field bits t c ring) ->
  let '(r', best') := foldl (scalar_choice bits err t (field_positions t)) (r, best) choices in
  (forall c, put_field bits t c r' = put_field bits t c ring) /\
  best' = foldl (try_choice (fun c => err t (codeword bits (put_field bits t c ring) t))) best choices.
Proof.
  intros Ht Hlen. revert r best. induction choices as [|c choices IH]; intros r best Hr; cbn [foldl]; [done|].
  unfold scalar_choice at 2. rewrite write_field_put, Hr, raw_window_window.
  specialize (IH (put_field bits t c ring)
    (try_choice (fun c => err t (codeword bits (put_field bits t c ring) t)) best c)).
  apply IH. intros c'. by apply put_field_twice.
Qed.

(** One element of the scalar encoder of [roundtrip.py]. *)
Lemma scalar_element_equal ring t :
  0 <= t < 256 -> Z.of_nat (length ring) = total ->
  scalar_element bits err ring t = encode_element bits err ring t.
Proof.
  intros Ht Hlen. unfold scalar_element. fold (field_positions t).
  pose proof (scalar_fold t ring ring None (range 0 (2 ^ bits)) Ht Hlen ltac:(done)) as Hfold.
  destruct (foldl _ _ _) as [r best]. destruct Hfold as [Hr ->].
  by rewrite write_field_put, Hr.
Qed.

Lemma scalar_pass_equal ring n :
  0 <= n -> n <= 256 -> ring_ok bits ring ->
  foldl (scalar_element bits err) ring (range 0 n) = foldl (encode_element bits err) ring (range 0 n).
Proof.
  intros Hn. pattern n. revert n Hn. apply natlike_ind; [done|].
  intros n Hn IH Hle Hring. rewrite <- Z.add_1_r in *. rewrite range_snoc, !foldl_app by done. cbn [foldl].
  rewrite IH by (done || lia). apply scalar_element_equal; [lia|].
  apply (encode_prefix_done bits Hbits err n); (done || lia).
Qed.

(** ** The vectorised encoder *)

(** With four bits the own bits of every element are the top four places of its
    window. *)
Lemma slots_four t : 0 <= t < 256 -> slots 4 t = Ok [12; 13; 14; 15].
Proof.
  intros Ht.
  assert (forallb (fun t => match slots 4 t with
    | Ok l => bool_decide (l = [12; 13; 14; 15]) | Raise _ => false end) (range 0 256) = true) as Hall
    by (vm_compute; reflexivity).
  rewrite forallb_true, Forall_forall in Hall. specialize (Hall t (proj2 (elem_of_range 0 256 t) Ht)).
  cbv beta in Hall. destruct (slots 4 t) as [l|]; [|done]. by apply bool_decide_eq_true in Hall as ->.
Qed.

End Encoders.

(** The candidate of a choice is the codeword after making it. *)
Lemma candidate_codeword ring t c :
  0 <= t < 256 -> ring_ok 4 ring -> 0 <= c < 16 ->
  candidate 4 (codeword 4 ring t) [12; 13; 14; 15] c = codeword 4 (put_field 4 t c ring) t.
Proof.
  intros Ht [Hlen Hbit] Hc. rewrite codeword_put_field by (done || lia).
  unfold candidate, cleared. rewrite codeword_bits by lia.
  set (f := fun j => bit_at ring (position 4 t j)).
  assert (forall j, is_bit (f j)) as Hf by (intros; apply Hbit).
  assert (forall j, j ∈ [12; 13; 14; 15] -> Z.land (Z.shiftr (from_bits f 16) j) 1 = f j) as Hj.
  { intros j Hj. apply from_bits_bit; [|done].
    repeat (apply elem_of_cons in Hj as [->|Hj]; [lia|]). by apply elem_of_nil in Hj. }
  cbn [map]. rewrite !Hj by set_solver. unfold context. fold f. change (16 - 4) with 12.
  assert (c = from_bits (fun j => Z.land (Z.shiftr c j) 1) 4) as Hcb
    by (rewrite bits_of_number, Z.mod_small; lia).
  replace 16 with (12 + 4) by lia. rewrite from_bits_split by lia.
  change (from_bits (fun j => f (12 + j)) 4) with
    (f 12 * 1 + (f 13 * 2 + (f 14 * 4 + (f 15 * 8 + 0)))).
  change (from_bits (fun j => Z.land (Z.shiftr c j) 1) 4) with
    (Z.land (Z.shiftr c 0) 1 * 1 + (Z.land (Z.shiftr c 1) 1 * 2 + (Z.land (Z.shiftr c 2) 1 * 4
      + (Z.land (Z.shiftr c 3) 1 * 8 + 0)))) in Hcb.
  change (range 0 4) with [0; 1; 2; 3]. unfold zsum. cbn [zip_with foldr].
  set (b0 := Z.land (Z.shiftr c 0) 1) in *. set (b1 := Z.land (Z.shiftr c 1) 1) in *.
  set (b2 := Z.land (Z.shiftr c 2) 1) in *. set (b3 := Z.land (Z.shiftr c 3) 1) in *.
  clearbody b0 b1 b2 b3. rewrite Hcb, !Z.shiftl_mul_pow2 by lia. change (2 ^ 12) with 4096.
  change (2 ^ 13) with 8192. change (2 ^ 14) with 16384. change (2 ^ 15) with 32768. ring.
Qed.

Lemma vec_write t c ring :
  0 <= t < 256 ->
  foldl (fun ring '(j, b) =>
      set_bit (nth (Z.to_nat j) (raw_window 4 t) 0) (Z.land (Z.shiftr c b) 1) ring)
    ring (zip [12; 13; 14; 15] (range 0 4)) = put_field 4 t c ring.
Proof.
  intros Ht. unfold put_field. change (range 0 4) with [0; 1; 2; 3].
  assert (forall b, 0 <= b < 4 -> nth (Z.to_nat (12 + b)) (raw_window 4 t) 0
    = ((t * 4) mod total_bits 4 + b) mod total_bits 4) as Hnth.
  { intros b Hb. rewrite raw_window_window, window_positions, field_position by lia.
    change (nth _ ?l 0) with (bit_at l (12 + b)). rewrite bit_at_map_range by lia.
    rewrite position_own by lia. lia. }
  cbn [zip zip_with foldl].
  by rewrite <- (Hnth 0), <- (Hnth 1), <- (Hnth 2), <- (Hnth 3) by lia.
Qed.

Lemma vec_element_equal err ring t :
  0 <= t < 256 -> ring_ok 4 ring -> vec_element 4 err ring t = Ok (encode_element 4 err ring t).
Proof.
  intros Ht Hring. unfold vec_element. rewrite slots_four by done. cbn [rbind].
  rewrite vec_write by done. f_equal. unfold encode_element. f_equal.
  apply best_of_ext. intros c Hc%elem_of_range. f_equal. rewrite raw_window_window.
  by apply candidate_codeword.
Qed.

Lemma vec_pass_equal err ring n :
  0 <= n -> n <= 256 -> ring_ok 4 ring ->
  rfold (vec_element 4 err) ring (range 0 n) = Ok (foldl (encode_element 4 err) ring (range 0 n)).
Proof.
  intros Hn. pattern n. revert n Hn. apply natlike_ind; [done|].
  intros n Hn IH Hle Hring. rewrite <- Z.add_1_r in *. rewrite range_snoc, foldl_app, rfold_app by done.
  rewrite IH by (done || lia). cbn [rbind rfold foldl]. rewrite vec_element_equal; [done|lia|].
  apply (encode_prefix_done 4 ltac:(lia) err n); (done || lia).
Qed.

(** C26 (encoders agree): the scalar encoder of [roundtrip.py], which makes one
    greedy pass, gives the words of [tile_encode] with [refine_passes = 0] (the
    default is 1: refinement_changes_words), its decoder reads them the same way,
    and with four bits the vectorised encoder leaves exactly the ring of one
    greedy pass with the error measured in single precision. *)
Theorem encoders_agree bits target words ring :
  1 <= bits <= 16 ->
  encode_tile bits target = fst (tile_encode bits target 0) /\
  (Forall (fun w => 0 <= w < 2 ^ 32) words -> decode_tile bits words = tile_decode bits words) /\
  (ring_ok 4 ring -> encode_tile_vec 4 ring target = Ok (encode_pass 4 (error32 target) ring)).
Proof.
  intros Hbits. split_and!.
  - unfold encode_tile, tile_encode. change (range 0 (0 + 1)) with [0]. cbn [foldl fst].
    unfold encode_pass. rewrite scalar_pass_equal by (done || lia || by apply zero_ring_ok).
    unfold pack. apply map_ext. intros wi. rewrite sum_word_bits. symmetry. apply (pack_word_bits bits).
    apply (encode_prefix_done bits Hbits (error64 target) 256); [lia|lia|by apply zero_ring_ok].
  - intros Hwords. unfold decode_tile, tile_decode, tile_codeword.
    assert (map (fun w => Z.land w 0xFFFFFFFF) words = words) as ->; [|done].
    induction Hwords as [|w words Hw _ IH]; [done|]. cbn [map]. rewrite IH. f_equal.
    change 0xFFFFFFFF with (Z.ones 32). rewrite Z.land_ones by lia. by apply Z.mod_small.
  - intros Hring. by apply vec_pass_equal.
Qed.

Lemma encoders_agree_witness :
  encode_tile 4 ramp = fst (tile_encode 4 ramp 0) /\
  decode_tile 4 [7; 0xFFFFFFFF] = tile_decode 4 [7; 0xFFFFFFFF] /\
  encode_tile_vec 4 (zero_ring 4) ramp = Ok (encode_pass 4 (error32 ramp) (zero_ring 4)).
Proof.
  destruct (encoders_agree 4 ramp [7; 0xFFFFFFFF] (zero_ring 4) ltac:(lia)) as (Henc & Hdec & Hvec).
  split; [exact Henc|split; [apply Hdec|apply Hvec; exact (zero_ring_ok 4 ltac:(lia))]].
  repeat constructor; lia.
Defined.

(** With its default of one refinement pass [tile_encode] can give other words. *)
Example refinement_changes_words : bool_decide (encode_tile 4 ramp = fst (tile_encode 4 ramp 1)) = false.
Proof. vm_compute. reflexivity. Qed.

(** ** Unpacking *)

Lemma mask_bits v k n :
  0 <= k -> 0 <= n -> Z.land (Z.shiftr v k) (Z.shiftl 1 n - 1) = from_bits (fun j => Z.land (Z.shiftr v (k + j)) 1) n.
Proof.
  intros Hk Hn. rewrite Z.shiftl_mul_pow2, Z.mul_1_l, Z.sub_1_r, <- Z.ones_equiv, Z.land_ones by lia.
  rewrite <- bits_of_number by done. apply from_bits_ext. intros j Hj. by rewrite Z.shiftr_shiftr by lia.
Qed.

(** An element of a group is the next [num_bits] bits of the group's stream,
    across a word boundary too. *)
Lemma unpack_element_bits nb group e :
  1 <= nb <= 32 -> 0 <= e ->
  unpack_element nb group e = from_bits (fun j => word_bit group (e * nb + j)) nb.
Proof.
  intros Hnb He. unfold unpack_element. cbv zeta.
  set (q := e * nb / 32). set (off := (e * nb) mod 32). set (lo := Z.min (32 - off) nb).
  assert (0 <= off < 32) as Hoff by (apply Z.mod_pos_bound; lia).
  assert (e * nb = q * 32 + off) as Heq by (pose proof (Z.div_mod (e * nb) 32 ltac:(lia)); lia).
  assert (forall j, 0 <= j < lo -> word_bit group (e * nb + j) = Z.land (Z.shiftr (bit_at group q) (off + j)) 1) as Hlow.
  { intros j Hj. unfold word_bit. rewrite Heq. replace (q * 32 + off + j) with (off + j + q * 32) by lia.
    rewrite Z.div_add, Z.mod_add, Z.div_small, Z.mod_small by lia. done. }
  rewrite mask_bits by lia.
  transitivity (from_bits (fun j => word_bit group (e * nb + j)) (lo + (nb - lo))); [|f_equal; lia].
  rewrite from_bits_split by lia. rewrite <- (from_bits_ext _ _ lo Hlow).
  case_match eqn:Hov; bool_prop.
  - assert (lo = 32 - off) as Hlo by lia.
    rewrite <- (Z.shiftr_0_r (bit_at group (q + 1))), mask_bits, lor_high
      by (try apply from_bits_bound; try (intros; apply bit_is_bit); lia).
    f_equal. rewrite (Z.mul_comm (2 ^ lo)). f_equal. apply from_bits_ext. intros j Hj. unfold word_bit. rewrite Heq, Hlo.
    replace (q * 32 + off + (32 - off + j)) with (0 + j + (q + 1) * 32) by lia.
    rewrite Z.div_add, Z.mod_add, Z.div_small, Z.mod_small by lia. done.
  - replace (nb - lo) with 0 by lia. rewrite from_bits_0. lia.
Qed.

(** Rows of equal length, one after the other. *)
Lemma flat_map_rows {A} (F : Z -> Z -> A) w n :
  0 < w -> 0 <= n ->
  flat_map (fun g => map (F g) (range 0 w)) (range 0 n) = map (fun c => F (c / w) (c mod w)) (range 0 (n * w)).
Proof.
  intros Hw Hn. pattern n. revert n Hn. apply natlike_ind; [done|].
  intros n Hn IH. rewrite <- Z.add_1_r, range_snoc, flat_map_app, IH by done. cbn [flat_map]. rewrite app_nil_r.
  unfold range. rewrite !Z.sub_0_r, Z.mul_add_distr_r, Z.mul_1_l, seqZ_app, map_app by lia. f_equal.
  rewrite Z.add_0_l. replace (seqZ (n * w) w) with (map (Z.add (n * w)) (seqZ 0 w)).
  - rewrite map_map. apply map_ext_in. intros e He%list_elem_of_In%elem_of_seqZ.
    by rewrite (Z.add_comm (n * w)), Z.div_add, Z.mod_add, Z.div_small, Z.mod_small by lia.
  - pose proof (fmap_add_seqZ (n * w) 0 w) as Hs. by rewrite Z.add_0_r in Hs.
Qed.

Lemma lookup_slice_to {A} n (l : list A) i : (Z.of_nat i < n) -> PyList.slice_to n l !! i = l !! i.
Proof. intros Hi. unfold PyList.slice_to. break_if; bool_prop; [lia|]. apply lookup_take_lt. lia. Qed.

Lemma word_bit_group row nb g i :
  0 <= g -> 1 <= nb -> 0 <= i < nb * 32 ->
  word_bit (PyList.slice (g * nb) ((g + 1) * nb) row) i = word_bit row (g * nb * 32 + i).
Proof.
  intros Hg Hnb Hi. unfold word_bit. rewrite (Z.add_comm (g * nb * 32)), Z.div_add, Z.mod_add by lia.
  do 2 f_equal. unfold bit_at, PyList.slice. rewrite !nth_lookup.
  assert (0 <= i / 32 < nb) by (split; [apply Z.div_pos; lia|apply Z.div_lt_upper_bound; lia]).
  rewrite lookup_take_lt by nia. rewrite lookup_drop. do 2 f_equal. nia.
Qed.

(** The padding words read as zeros, like everything past the row. *)
Lemma word_bit_padded row n i : word_bit (row ++ repeat 0 n) i = word_bit row i.
Proof.
  unfold word_bit. do 2 f_equal. unfold bit_at. generalize (Z.to_nat (i / 32)). intros k.
  destruct (Nat.lt_ge_cases k (length row)); [by rewrite app_nth1|].
  by rewrite app_nth2, nth_repeat, nth_overflow by lia.
Qed.

Lemma to_int8_small z : -128 <= z < 128 -> to_int8 z = z.
Proof. intros Hz. unfold to_int8. rewrite Z.mod_small by lia. lia. Qed.

(** Unpacking reads the stream: element [c] of an unpacked row is the number
    in bits [c * num_bits, (c + 1) * num_bits) of the row's words taken as one
    little-endian stream (also where the field straddles two words), moved down by
    half its range; the cast to int8 loses nothing.  Elements of the padding read
    zero bits. *)
Theorem unpack_reads_stream num_bits cols row c :
  1 <= num_bits <= 8 -> 0 <= c < cols -> c / 32 * num_bits < Z.of_nat (length row) ->
  let v := from_bits (fun j => word_bit row (c * num_bits + j)) num_bits in
  0 <= v < 2 ^ num_bits /\ unpack_row num_bits cols row !! Z.to_nat c = Some (v - 2 ^ (num_bits - 1)).
Proof.
  intros Hnb Hc Hgroup v.
  assert (0 <= v < 2 ^ num_bits) as Hv by (apply from_bits_bound; [lia|]; intros; apply bit_is_bit).
  split; [done|]. unfold unpack_row. cbv zeta.
  set (n := Z.of_nat (length row)) in *. set (pad := (- n) mod num_bits).
  rewrite (flat_map_rows (fun g => unpack_element num_bits
    (PyList.slice (g * num_bits) ((g + 1) * num_bits) (row ++ repeat 0 (Z.to_nat pad))))) by
    (try apply Z.div_pos; try (pose proof (Z.mod_pos_bound (- n) num_bits)); lia).
  assert (0 <= c / 32) by (apply Z.div_pos; lia).
  assert (c / 32 < (n + pad) / num_bits) as Hin.
  { assert ((n + pad) mod num_bits = 0) as Hdiv.
    { unfold pad. rewrite Zplus_mod_idemp_r, Z.add_opp_diag_r. apply Z.mod_0_l. lia. }
    pose proof (Z.div_mod (n + pad) num_bits ltac:(lia)). pose proof (Z.mod_pos_bound (- n) num_bits). nia. }
  pose proof (Z.div_mod c 32 ltac:(lia)) as Hdm. pose proof (Z.mod_pos_bound c 32 ltac:(lia)) as Hmod.
  rewrite list_lookup_fmap, lookup_slice_to, list_lookup_fmap by lia.
  unfold range at 1. rewrite lookup_seqZ_lt by nia. cbn [fmap option_fmap option_map]. f_equal.
  rewrite Z2Nat.id, Z.add_0_l by lia.
  rewrite unpack_element_bits by lia.
  rewrite (from_bits_ext _ (fun j => word_bit row (c * num_bits + j))).
  2:{ intros j Hj. rewrite word_bit_group by nia. rewrite word_bit_padded. f_equal. nia. }
  fold v. rewrite Z.shiftl_mul_pow2, Z.mul_1_l by lia. apply to_int8_small.
  assert (2 ^ num_bits = 2 * 2 ^ (num_bits - 1)) as Hhalf
    by (rewrite <- Z.pow_succ_r by lia; f_equal; lia).
  assert (2 ^ (num_bits - 1) <= 2 ^ 7) by (apply Z.pow_le_mono_r; lia). lia.
Qed.

(** Three-bit fields: the eleventh straddles the first two words. *)
Lemma unpack_reads_stream_witness :
  0 <= 7 < 2 ^ 3 /\ unpack_row 3 30 [0xC0000000; 0x1] !! Z.to_nat 10 = Some 3.
Proof.
  exact (unpack_reads_stream 3 30 [0xC0000000; 0x1] 10 ltac:(lia) ltac:(lia) ltac:(vm_compute; reflexivity)).
Defined.
