(* ===== verification/SirclAudit.v ===== *)
(** * SIRCL: the audit of stock collectives

    [campaign-2026-08/sircl/upstream/integrations/vllm/spark_collective_audit.py]:
    bounded counters of the collectives that went through the original (stock)
    implementation, per phase (graph capture or eager), with the signatures of
    the tensors up to a limit.  Proved: after any sequence of recorded calls the
    counters are exact, at most the limit of signatures is kept, and every call
    whose signature is not kept is counted as dropped.  The module's lock and
    the reset used by its tests are left out. *)
From S2P Require Export SirclContracts.

(** ** Limits *)

Definition _SIGNATURE_LIMIT_ENV : string := "SPARK_COLLECTIVE_AUDIT_SIGNATURE_LIMIT_PER_PHASE".
Definition _DEFAULT_SIGNATURES_PER_PHASE : Z := 512.
Definition _HARD_MAX_SIGNATURES_PER_PHASE : Z := 2048.
Definition _MAX_SHAPE_RANK : Z := 8.
Definition _MAX_DTYPE_CHARS : Z := 64.
Definition _MAX_UNIQUE_NAME_CHARS : Z := 128.
Definition _MAX_DIMENSION : Z := 2 ^ 63 - 1.

Definition _signature_limit_from_env (environ : environment) : result Z :=
  match environ _SIGNATURE_LIMIT_ENV with
  | None => Ok _DEFAULT_SIGNATURES_PER_PHASE
  | Some raw =>
      match PyStr.int_of raw with
      | None => Raise RuntimeError
      | Some value =>
          let* _ := require ((1 <=? value) && (value <=? _HARD_MAX_SIGNATURES_PER_PHASE)) RuntimeError in
          Ok value
      end
  end.

(** ** Signatures *)

Record StockCollectiveSignature := mkStockSignature {
  shape : list Z;
  dtype : list ascii;
  is_cuda : bool;
  contiguous : bool;
  world_size : option Z;
  unique_name : list ascii
}.

#[export] Instance stock_signature_eq_dec : EqDecision StockCollectiveSignature.
Proof. solve_decision. Defined.

#[export] Instance stock_signature_countable : Countable StockCollectiveSignature.
Proof.
  apply (inj_countable' (fun s => (shape s, dtype s, is_cuda s, contiguous s, world_size s, unique_name s))
    (fun '(a, b, c, d, e, f) => mkStockSignature a b c d e f)).
  by intros [].
Defined.

(** The arguments of the constructor, before their types are known: [None] is a
    shape that is no tuple, a text that is no [str]. *)
Record raw_signature := mkRawSignature {
  raw_shape : option (list pyval);
  raw_dtype : option (list ascii);
  raw_is_cuda : pyval;
  raw_contiguous : pyval;
  raw_world_size : option pyval;
  raw_unique_name : option (list ascii)
}.

Definition valid_dimension (v : pyval) : result Z :=
  match v with
  | VInt d => let* _ := require ((0 <=? d) && (d <=? _MAX_DIMENSION)) ValueError in Ok d
  | _ => Raise ValueError
  end.

Definition valid_bool (v : pyval) : result bool :=
  match v with VBool b => Ok b | _ => Raise ValueError end.

Definition valid_shape (v : option (list pyval)) : result (list Z) :=
  match v with
  | None => Raise ValueError
  | Some dims =>
      let* _ := require (Z.of_nat (length dims) <=? _MAX_SHAPE_RANK) ValueError in
      rmap valid_dimension dims
  end.

Definition valid_dtype (v : option (list ascii)) : result (list ascii) :=
  match v with
  | None => Raise ValueError
  | Some t =>
      let* _ := require (negb (bool_decide (t = [])) && (Z.of_nat (length t) <=? _MAX_DTYPE_CHARS)) ValueError in
      Ok t
  end.

Definition valid_unique_name (v : option (list ascii)) : result (list ascii) :=
  match v with
  | None => Raise ValueError
  | Some t => let* _ := require (Z.of_nat (length t) <=? _MAX_UNIQUE_NAME_CHARS) ValueError in Ok t
  end.

Definition valid_world_size (v : option pyval) : result (option Z) :=
  match v with
  | None => Ok None
  | Some v => let* n := valid_dimension v in Ok (Some n)
  end.

(** The constructor with [__post_init__]. *)
Definition make_signature (r : raw_signature) : result StockCollectiveSignature :=
  let* shape := valid_shape (raw_shape r) in
  let* dtype := valid_dtype (raw_dtype r) in
  let* is_cuda := valid_bool (raw_is_cuda r) in
  let* contiguous := valid_bool (raw_contiguous r) in
  let* unique_name := valid_unique_name (raw_unique_name r) in
  let* world_size := valid_world_size (raw_world_size r) in
  Ok (mkStockSignature shape dtype is_cuda contiguous world_size unique_name).

(** ** Families *)

Definition is_text (t : list ascii) (s : string) : bool := bool_decide (t = PyStr.text s).

(** [t.startswith(s)]. *)
Definition startswith (t : list ascii) (s : string) : bool :=
  bool_decide (take (length (PyStr.text s)) t = PyStr.text s).

(** [dim in {...}]. *)
Definition dim_in (dim : option Z) (l : list Z) : bool :=
  match dim with Some d => bool_decide (d ∈ l) | None => false end.

Definition exact_dcp4_tensor (s : StockCollectiveSignature) : bool :=
  bool_decide (world_size s = Some 4) && is_cuda s && contiguous s
  && match shape s with [] => false | d :: _ => 0 <? d end.

Definition group_all_gather_family (s : StockCollectiveSignature) (dim : option Z) : string :=
  if startswith (unique_name s) "dcp:" then
    if exact_dcp4_tensor s && Nat.eqb (length (shape s)) 3
       && bool_decide (drop 1 (shape s) = [16; 576]) && is_text (dtype s) "torch.bfloat16" && dim_in dim [1; -2]
    then "dcp_query_all_gather"
    else if exact_dcp4_tensor s && Nat.eqb (length (shape s)) 2
       && bool_decide (shape s !! 1%nat = Some 64) && is_text (dtype s) "torch.float32" && dim_in dim [0; -2]
    then "dcp_lse_all_gather"
    else "dcp_all_gather"
  else if startswith (unique_name s) "tp:" && Nat.eqb (length (shape s)) 2
       && bool_decide (shape s !! 1%nat = Some 38720) && is_text (dtype s) "torch.bfloat16" && dim_in dim [1; -1]
  then "vocabulary_all_gather"
  else "group_all_gather".

Definition pynccl_all_gather_family (s : StockCollectiveSignature) : string :=
  if Nat.eqb (length (shape s)) 3 && bool_decide (drop 1 (shape s) = [2; 2048]) && is_text (dtype s) "torch.int32"
  then "dcp_owner_topk_all_gather"
  else if Nat.eqb (length (shape s)) 1 && bool_decide (default (-1) (shape s !! 0%nat) ∈ [23552; 753664])
       && is_text (dtype s) "torch.uint8"
  then "dcp_ckv_all_gather"
  else if bool_decide (shape s = [1; 38720]) && is_text (dtype s) "torch.bfloat16"
  then "vocabulary_all_gather"
  else "pynccl_all_gather".

Definition group_reduce_scatter_family (s : StockCollectiveSignature) (dim : option Z) : string :=
  if startswith (unique_name s) "dcp:" && Nat.eqb (length (shape s)) 3
     && bool_decide (shape s !! 1%nat = Some 64) && bool_decide (default (-1) (shape s !! 2%nat) ∈ [256; 512])
     && is_text (dtype s) "torch.bfloat16" && dim_in dim [1; -2]
  then "dcp_output_reduce_scatter"
  else "group_reduce_scatter".

Definition classify_stock_family (seam : string) (s : StockCollectiveSignature) (dim : option Z) : result string :=
  if bool_decide (seam = "group_all_gather"%string) then Ok (group_all_gather_family s dim)
  else if bool_decide (seam = "pynccl_all_gather"%string) then Ok (pynccl_all_gather_family s)
  else if bool_decide (seam = "group_reduce_scatter"%string) then Ok (group_reduce_scatter_family s dim)
  else Raise ValueError.

(** ** The counters *)

Definition key := list ascii.
Definition signature_key : Type := list ascii * list ascii * StockCollectiveSignature.

(** The tables of one phase; a missing entry of a [defaultdict] is 0. *)
Record phase_audit := mkPhase {
  _counts : gmap key Z;
  _signature_counts : gmap signature_key Z;
  _signature_dropped_calls : Z;
  _signature_dropped_calls_by_family_reason : gmap key Z
}.
#[export] Instance eta_phase : Eta phase_audit := fun p =>
  mkPhase (_counts p) (_signature_counts p) (_signature_dropped_calls p)
    (_signature_dropped_calls_by_family_reason p).

Record audit := mkAudit {
  capture_phase : phase_audit;
  eager_phase : phase_audit
}.
#[export] Instance eta_audit : Eta audit := fun a => mkAudit (capture_phase a) (eager_phase a).

Definition empty_phase : phase_audit := mkPhase ∅ ∅ 0 ∅.
Definition empty_audit : audit := mkAudit empty_phase empty_phase.

Definition enabled (environ : environment) : bool :=
  negb (bool_decide (env_get environ "SPARK_TP4_GRAPH_STATUS_PATH" [] = [])).

Definition count {K} `{Countable K} (k : K) (m : gmap K Z) : Z := default 0 (m !! k).
Definition incr {K} `{Countable K} (k : K) (m : gmap K Z) : gmap K Z := <[k := count k m + 1]> m.

Definition family_reason (family reason : list ascii) : key := family ++ PyStr.text ":" ++ reason.

Section Audit.
(** [_MAX_SIGNATURES_PER_PHASE], read when the module is imported. *)
Context (limit : Z).

Definition record_signature (family reason : list ascii) (signature : StockCollectiveSignature) (p : phase_audit)
    : phase_audit :=
  let signature_key := (family, reason, signature) in
  if bool_decide (is_Some (_signature_counts p !! signature_key)) then p <| _signature_counts ::= incr signature_key |>
  else if Z.of_nat (size (_signature_counts p)) <? limit then
    p <| _signature_counts ::= fun m => <[signature_key := 1]> m |>
  else
    ((p <| _signature_dropped_calls ::= fun n => n + 1 |>)
       <| _signature_dropped_calls_by_family_reason ::= incr (family_reason family reason) |>).

Definition record_phase (family reason : list ascii) (signature : option StockCollectiveSignature) (p : phase_audit)
    : phase_audit :=
  let p := p <| _counts ::= incr (family_reason family reason) |> in
  match signature with
  | Some signature => record_signature family reason signature p
  | None => p
  end.

Definition record_stock (environ : environment) (family : list ascii) (capturing : bool) (reason : list ascii)
    (signature : option StockCollectiveSignature) (a : audit) : result audit :=
  if negb (enabled environ) then Ok a
  else
    let* _ := require (negb (bool_decide (family = []) || bool_decide (reason = []))) ValueError in
    Ok (if capturing then a <| capture_phase ::= record_phase family reason signature |>
        else a <| eager_phase ::= record_phase family reason signature |>).

End Audit.

(** ** The snapshot *)

(** Python's order of tuples and texts: the first difference decides. *)
Fixpoint lex {A} (cmp : A -> A -> comparison) (x y : list A) : comparison :=
  match x, y with
  | [], [] => Eq
  | [], _ :: _ => Lt
  | _ :: _, [] => Gt
  | a :: x, b :: y => match cmp a b with Eq => lex cmp x y | c => c end
  end.
Definition then_cmp (c d : comparison) : comparison := match c with Eq => d | _ => c end.
Definition text_cmp : list ascii -> list ascii -> comparison := lex (fun a b => Z.compare (PyStr.code a) (PyStr.code b)).
Definition bool_cmp (a b : bool) : comparison := Z.compare (Z.b2z a) (Z.b2z b).

Definition signature_cmp (x y : StockCollectiveSignature) : comparison :=
  then_cmp (lex Z.compare (shape x) (shape y))
  (then_cmp (text_cmp (dtype x) (dtype y))
  (then_cmp (bool_cmp (is_cuda x) (is_cuda y))
  (then_cmp (bool_cmp (contiguous x) (contiguous y))
  (then_cmp (Z.compare (default (-1) (world_size x)) (default (-1) (world_size y)))
            (text_cmp (unique_name x) (unique_name y)))))).

(** [_signature_sort_key], as an order. *)
Definition signature_key_cmp (x y : signature_key) : comparison :=
  let '(fx, rx, sx) := x in
  let '(fy, ry, sy) := y in
  then_cmp (text_cmp fx fy) (then_cmp (text_cmp rx ry) (signature_cmp sx sy)).

Definition sorted_items {K} `{Countable K} {V} (cmp : K -> K -> comparison) (m : gmap K V) : list (K * V) :=
  PyList.sort_by (fun x y => match cmp (fst x) (fst y) with Lt => true | _ => false end) (map_to_list m).

Definition total {K} `{Countable K} (m : gmap K Z) : Z := zsum (map snd (map_to_list m)).

(** What is reported about the signatures of a phase. *)
Record signature_report := mkSignatureReport {
  signatures : list (signature_key * Z);
  dropped_calls : Z;
  dropped_calls_by_family_reason : list (key * Z)
}.

Record snapshot := mkSnapshot {
  capture : list (key * Z);
  eager : list (key * Z);
  capture_total : Z;
  eager_total : Z;
  signature_reports : option (Z * signature_report * signature_report)
}.

Definition report_phase (p : phase_audit) : signature_report :=
  mkSignatureReport (sorted_items signature_key_cmp (_signature_counts p)) (_signature_dropped_calls p)
    (sorted_items text_cmp (_signature_dropped_calls_by_family_reason p)).

Definition has_signatures (r : signature_report) : bool :=
  negb (bool_decide (signatures r = [])) || negb (dropped_calls r =? 0).

Definition stock_collective_snapshot (limit : Z) (a : audit) : snapshot :=
  let c := report_phase (capture_phase a) in
  let e := report_phase (eager_phase a) in
  mkSnapshot (sorted_items text_cmp (_counts (capture_phase a))) (sorted_items text_cmp (_counts (eager_phase a)))
    (total (_counts (capture_phase a))) (total (_counts (eager_phase a)))
    (if has_signatures c || has_signatures e then Some (limit, c, e) else None).

(** ** Counting *)

Lemma count_incr {K} `{Countable K} (k k' : K) (m : gmap K Z) :
  count k (incr k' m) = count k m + (if decide (k = k') then 1 else 0).
Proof.
  unfold count at 1, incr. destruct (decide (k = k')) as [->|Hne].
  - by rewrite lookup_insert_eq.
  - rewrite lookup_insert_ne by done. unfold count. lia.
Qed.

Lemma total_insert {K} `{Countable K} (k : K) v (m : gmap K Z) : total (<[k := v]> m) = total m - count k m + v.
Proof.
  assert (forall m', m' !! k = None -> total (<[k := v]> m') = total m' + v) as Hfresh.
  { intros m' Hk. unfold total. rewrite map_to_list_insert by done. cbn. unfold zsum. simpl. lia. }
  destruct (m !! k) as [w|] eqn:Ek.
  - rewrite <- insert_delete_eq, Hfresh by apply lookup_delete_eq. unfold count. rewrite Ek. simpl.
    unfold total. rewrite <- (map_to_list_delete m k w Ek). cbn. unfold zsum. simpl. lia.
  - rewrite Hfresh by done. unfold count. rewrite Ek. simpl. lia.
Qed.

Lemma total_incr {K} `{Countable K} (k : K) (m : gmap K Z) : total (incr k m) = total m + 1.
Proof. unfold incr. rewrite total_insert. lia. Qed.

(** A recorded call of one phase. *)
Record call := mkCall {
  c_family : list ascii;
  c_reason : list ascii;
  c_signature : option StockCollectiveSignature
}.

Definition key_of (c : call) : key := family_reason (c_family c) (c_reason c).
Definition signature_key_of (c : call) : option signature_key :=
  (fun s => (c_family c, c_reason c, s)) <$> c_signature c.

(** The number of calls with a property. *)
Definition calls_with (P : call -> bool) (l : list call) : Z := Z.of_nat (length (List.filter P l)).

Lemma calls_with_snoc P l c : calls_with P (l ++ [c]) = calls_with P l + (if P c then 1 else 0).
Proof. unfold calls_with. rewrite List.filter_app, length_app. simpl. destruct (P c); simpl; lia. Qed.

Definition same_key (k : key) (c : call) : bool := bool_decide (key_of c = k).
Definition same_signature (k : signature_key) (c : call) : bool := bool_decide (signature_key_of c = Some k).

(** A signed call whose signature a table does not hold. *)
Definition unlisted (m : gmap signature_key Z) (c : call) : bool :=
  match signature_key_of c with Some k => bool_decide (m !! k = None) | None => false end.

(** The calls [l] have been recorded. *)
Record phase_records (limit : Z) (l : list call) (p : phase_audit) : Prop := {
  pr_counts : forall k, count k (_counts p) = calls_with (same_key k) l;
  pr_total : total (_counts p) = Z.of_nat (length l);
  pr_size : Z.of_nat (size (_signature_counts p)) <= limit;
  pr_listed : forall k n, _signature_counts p !! k = Some n -> n = calls_with (same_signature k) l;
  pr_full : forall c, c ∈ l -> unlisted (_signature_counts p) c = true ->
    Z.of_nat (size (_signature_counts p)) = limit;
  pr_dropped : forall k, count k (_signature_dropped_calls_by_family_reason p) =
    calls_with (fun c => unlisted (_signature_counts p) c && same_key k c) l;
  pr_dropped_total : _signature_dropped_calls p = calls_with (unlisted (_signature_counts p)) l
}.

Lemma calls_with_ext P Q l : (forall c, c ∈ l -> P c = Q c) -> calls_with P l = calls_with Q l.
Proof.
  intros Hext. unfold calls_with. f_equal. f_equal. induction l as [|c l IH]; [done|]. simpl.
  rewrite Hext by left. rewrite IH by (intros; apply Hext; by right). done.
Qed.

Lemma calls_with_none P l : (forall c, c ∈ l -> P c = false) -> calls_with P l = 0.
Proof.
  intros Hno. rewrite (calls_with_ext P (fun _ => false)) by exact Hno. unfold calls_with. clear. by induction l.
Qed.

Lemma phase_records_nil limit : 1 <= limit -> phase_records limit [] empty_phase.
Proof.
  intros Hl. split; try done.
  - simpl. rewrite map_size_empty. lia.
  - intros c Hc. by apply elem_of_nil in Hc.
Qed.

Lemma unlisted_insert m k v c :
  unlisted (<[k := v]> m) c = unlisted m c && negb (same_signature k c).
Proof.
  unfold unlisted, same_signature. destruct (signature_key_of c) as [k'|]; [|done].
  destruct (decide (k' = k)) as [->|Hne].
  - rewrite lookup_insert_eq, (bool_decide_eq_true_2 (Some k = Some k)) by done.
    rewrite (bool_decide_eq_false_2 (Some v = None)) by done. by rewrite andb_false_r.
  - rewrite lookup_insert_ne by done. rewrite (bool_decide_eq_false_2 (Some k' = Some k)) by congruence.
    by rewrite andb_true_r.
Qed.

Section Record.
Context (limit : Z) (l : list call) (p : phase_audit) (c : call) (Hp : phase_records limit l p).
Notation table := (_signature_counts p).

Lemma record_counts :
  (forall k, count k (incr (key_of c) (_counts p)) = calls_with (same_key k) (l ++ [c])) /\
  total (incr (key_of c) (_counts p)) = Z.of_nat (length (l ++ [c])).
Proof.
  split.
  - intros k. rewrite count_incr, (pr_counts _ _ _ Hp), calls_with_snoc. f_equal. unfold same_key.
    case_bool_decide; destruct (decide _); congruence.
  - rewrite total_incr, (pr_total _ _ _ Hp), length_app. simpl. lia.
Qed.

(** The new call is in the new table or has no signature, the unlisted calls
    stay the same. *)
Lemma record_listed m' :
  (forall c', c' ∈ l -> unlisted m' c' = unlisted table c') -> unlisted m' c = false ->
  (size table <= size m')%nat -> Z.of_nat (size m') <= limit ->
  (forall k n, m' !! k = Some n -> n = calls_with (same_signature k) (l ++ [c])) ->
  phase_records limit (l ++ [c]) (mkPhase (incr (key_of c) (_counts p)) m' (_signature_dropped_calls p)
    (_signature_dropped_calls_by_family_reason p)).
Proof.
  intros Hl Hc Hmore Hsize Hlisted. destruct record_counts as [Hcounts Htotal].
  assert (forall Q, calls_with (fun c => unlisted m' c && Q c) (l ++ [c]) =
                    calls_with (fun c => unlisted table c && Q c) l) as Hdrop.
  { intros Q. rewrite calls_with_snoc, Hc. simpl. rewrite Z.add_0_r. apply calls_with_ext. intros c' Hc'. by rewrite Hl. }
  split; simpl; [done|done|done|done| | |].
  - intros c' [Hc'|Hc']%elem_of_app; [|apply list_elem_of_singleton in Hc' as ->; by rewrite Hc].
    rewrite Hl by done. intros Hu. pose proof (pr_full _ _ _ Hp c' Hc' Hu). lia.
  - intros k. rewrite Hdrop. apply Hp.
  - rewrite (pr_dropped_total _ _ _ Hp), calls_with_snoc, Hc, Z.add_0_r. apply calls_with_ext. intros. by rewrite Hl.
Qed.

Lemma record_unsigned : c_signature c = None ->
  phase_records limit (l ++ [c]) (p <| _counts ::= incr (key_of c) |>).
Proof.
  intros Hs. assert (signature_key_of c = None) as Hk by (unfold signature_key_of; by rewrite Hs).
  apply record_listed; [done| |done|apply Hp|].
  - unfold unlisted. by rewrite Hk.
  - intros k n Hn. rewrite calls_with_snoc, <- (pr_listed _ _ _ Hp k n Hn). unfold same_signature. rewrite Hk. simpl. lia.
Qed.

Context (k0 : signature_key) (Hk0 : signature_key_of c = Some k0).

Lemma same_signature_new k : same_signature k c = bool_decide (k0 = k).
Proof. unfold same_signature. rewrite Hk0. apply bool_decide_ext. naive_solver. Qed.

(** The table with an entry for the new call holds its exact number of calls. *)
Lemma listed_insert n0 :
  n0 = calls_with (same_signature k0) l ->
  forall k n, <[k0 := n0 + 1]> table !! k = Some n -> n = calls_with (same_signature k) (l ++ [c]).
Proof.
  intros -> k n. rewrite calls_with_snoc, same_signature_new. destruct (decide (k0 = k)) as [<-|Hne].
  - rewrite lookup_insert_eq, bool_decide_eq_true_2 by done. by intros [= <-].
  - rewrite lookup_insert_ne, bool_decide_eq_false_2 by done. rewrite Z.add_0_r. apply (pr_listed _ _ _ Hp).
Qed.

Lemma unlisted_new n : unlisted (<[k0 := n]> table) c = false.
Proof. rewrite unlisted_insert, same_signature_new, bool_decide_eq_true_2 by done. by rewrite andb_false_r. Qed.

Lemma record_again : is_Some (table !! k0) ->
  phase_records limit (l ++ [c]) ((p <| _counts ::= incr (key_of c) |>) <| _signature_counts ::= incr k0 |>).
Proof.
  intros [n0 Hn0]. unfold setter. cbn. unfold incr at 2, count. rewrite Hn0. simpl.
  apply record_listed; [|by apply unlisted_new| | |by apply listed_insert, (pr_listed _ _ _ Hp)].
  - intros c' _. rewrite unlisted_insert. unfold unlisted, same_signature.
    destruct (signature_key_of c') as [k'|]; [|done]. destruct (decide (k' = k0)) as [->|Hne].
    + rewrite Hn0. by rewrite (bool_decide_eq_false_2 (Some n0 = None)).
    + rewrite (bool_decide_eq_false_2 (Some k' = Some k0)) by congruence. by rewrite andb_true_r.
  - rewrite map_size_insert_Some by done. done.
  - rewrite map_size_insert_Some by done. apply Hp.
Qed.

Lemma record_new : table !! k0 = None -> Z.of_nat (size table) < limit ->
  phase_records limit (l ++ [c]) ((p <| _counts ::= incr (key_of c) |>) <| _signature_counts ::= fun m => <[k0 := 1]> m |>).
Proof.
  intros Hnone Hroom.
  assert (forall c', c' ∈ l -> same_signature k0 c' = false) as Hno.
  { intros c' Hc'. apply not_true_is_false. intros Hs%bool_decide_eq_true.
    assert (unlisted table c' = true) as Hu by (unfold unlisted; rewrite Hs; by apply bool_decide_eq_true_2).
    pose proof (pr_full _ _ _ Hp c' Hc' Hu). lia. }
  apply record_listed; [|by apply unlisted_new| | |].
  - intros c' Hc'. rewrite unlisted_insert, Hno by done. by rewrite andb_true_r.
  - rewrite map_size_insert_None by done. apply Nat.le_succ_diag_r.
  - rewrite map_size_insert_None, Nat2Z.inj_succ by done. by apply Z.le_succ_l.
  - apply (listed_insert 0). by rewrite calls_with_none.
Qed.

Lemma record_dropped : table !! k0 = None -> limit <= Z.of_nat (size table) ->
  phase_records limit (l ++ [c]) (((p <| _counts ::= incr (key_of c) |>)
    <| _signature_dropped_calls ::= fun n => n + 1 |>)
    <| _signature_dropped_calls_by_family_reason ::= incr (key_of c) |>).
Proof.
  intros Hnone Hfull. destruct record_counts as [Hcounts Htotal]. pose proof (pr_size _ _ _ Hp).
  assert (unlisted table c = true) as Hc by (unfold unlisted; rewrite Hk0; by apply bool_decide_eq_true_2).
  split; simpl; [done|done|done| | | |].
  - intros k n Hk. rewrite calls_with_snoc, same_signature_new, bool_decide_eq_false_2 by (intros ->; congruence).
    rewrite Z.add_0_r. by apply (pr_listed _ _ _ Hp).
  - intros c' _ _. lia.
  - intros k. rewrite count_incr, (pr_dropped _ _ _ Hp), calls_with_snoc, Hc. f_equal. unfold same_key. simpl.
    case_bool_decide; destruct (decide _); congruence.
  - rewrite (pr_dropped_total _ _ _ Hp), calls_with_snoc, Hc. done.
Qed.

End Record.

Lemma record_phase_records limit l p c :
  phase_records limit l p ->
  phase_records limit (l ++ [c]) (record_phase limit (c_family c) (c_reason c) (c_signature c) p).
Proof.
  intros Hp. unfold record_phase. fold (key_of c).
  destruct (c_signature c) as [s|] eqn:Es; [|by apply record_unsigned].
  assert (signature_key_of c = Some (c_family c, c_reason c, s)) as Hk by (unfold signature_key_of; by rewrite Es).
  unfold record_signature. cbv zeta. change (_signature_counts (p <| _counts ::= _ |>)) with (_signature_counts p).
  case_bool_decide as Hin; [by apply record_again|apply eq_None_not_Some in Hin].
  destruct (Z.ltb_spec (Z.of_nat (size (_signature_counts p))) limit); [by apply record_new|].
  fold (key_of c). by eapply record_dropped.
Qed.

(** ** The audit is exact *)

(** A call with its phase. *)
Definition record_call (limit : Z) (environ : environment) (a : audit) (x : bool * call) : result audit :=
  record_stock limit environ (c_family (snd x)) (fst x) (c_reason (snd x)) (c_signature (snd x)) a.

Definition calls_of (capturing : bool) (l : list (bool * call)) : list call :=
  map snd (List.filter (fun x => Bool.eqb (fst x) capturing) l).

Record audit_records (limit : Z) (l : list (bool * call)) (a : audit) : Prop := {
  ar_capture : phase_records limit (calls_of true l) (capture_phase a);
  ar_eager : phase_records limit (calls_of false l) (eager_phase a)
}.

Lemma calls_of_snoc b l c x : calls_of b (l ++ [(x, c)]) = calls_of b l ++ (if Bool.eqb x b then [c] else []).
Proof. unfold calls_of. rewrite List.filter_app, map_app. f_equal. simpl. by destruct (Bool.eqb x b). Qed.

Lemma record_call_records limit environ l a x a' :
  enabled environ = true -> audit_records limit l a -> record_call limit environ a x = Ok a' ->
  audit_records limit (l ++ [x]) a'.
Proof.
  intros Hen [Hc He]. destruct x as [capturing c]. unfold record_call, record_stock. rewrite Hen. simpl.
  intros (u & _ & [= <-])%rbind_ok. split; rewrite calls_of_snoc; destruct capturing; simpl; rewrite ?app_nil_r; try done;
    by apply record_phase_records.
Qed.

Lemma signature_limit_bounds environ limit :
  _signature_limit_from_env environ = Ok limit -> 1 <= limit <= 2048.
Proof.
  unfold _signature_limit_from_env, _DEFAULT_SIGNATURES_PER_PHASE, _HARD_MAX_SIGNATURES_PER_PHASE.
  destruct (environ _) as [raw|]; [|intros [= <-]; lia]. destruct (PyStr.int_of raw) as [v|]; [|done].
  intros (u & Hb%require_ok & [= <-])%rbind_ok. bool_prop. lia.
Qed.

(** C33 (audit): after any sequence of calls recorded while auditing is enabled,
    each phase counts exactly its calls per family and reason; the signatures
    kept are at most the configured limit (at most 2048), each with its exact
    number of calls; a signed call is left out only when the table is full, and
    exactly the calls left out are counted as dropped, in total and per family and
    reason; the totals reported are the numbers of calls. *)
Theorem audit_exact environ limit calls a :
  enabled environ = true -> _signature_limit_from_env environ = Ok limit ->
  rfold (record_call limit environ) empty_audit calls = Ok a ->
  audit_records limit calls a /\ limit <= 2048 /\
  capture_total (stock_collective_snapshot limit a) = Z.of_nat (length (calls_of true calls)) /\
  eager_total (stock_collective_snapshot limit a) = Z.of_nat (length (calls_of false calls)).
Proof.
  intros Hen Hlim Hrun. apply signature_limit_bounds in Hlim.
  assert (audit_records limit calls a) as Ha.
  { revert a Hrun. induction calls as [|x l IH] using rev_ind; intros a.
    - intros [= <-]. split; apply phase_records_nil; lia.
    - rewrite rfold_app. intros (a1 & H1 & H2)%rbind_ok. simpl in H2. apply rbind_ok in H2 as (a2 & H2 & [= <-]).
      eapply record_call_records; eauto. }
  split_and!; [done|lia|exact (pr_total _ _ _ (ar_capture _ _ _ Ha))|exact (pr_total _ _ _ (ar_eager _ _ _ Ha))].
Qed.

(** With room for one signature a second one is dropped. *)
Definition example_signature (rows : Z) : StockCollectiveSignature :=
  mkStockSignature [rows; 6144] (PyStr.text "torch.bfloat16") true true (Some 4) (PyStr.text "tp:0").
Definition example_calls : list (bool * call) :=
  map (fun rows => (false, mkCall (PyStr.text "all_reduce") (PyStr.text "ineligible_signature") (Some (example_signature rows))))
    [7; 7; 9].
Definition example_audit_env : environment := fun name =>
  if bool_decide (name = "SPARK_TP4_GRAPH_STATUS_PATH"%string) then Some (PyStr.text "/run/status.json")
  else if bool_decide (name = _SIGNATURE_LIMIT_ENV) then Some (PyStr.text "1") else None.

Definition example_audit : audit :=
  default empty_audit (match rfold (record_call 1 example_audit_env) empty_audit example_calls with
                       | Ok a => Some a | Raise _ => None end).

Example example_audit_dropped :
  _signature_dropped_calls (eager_phase example_audit) = 1 /\
  map snd (signatures (report_phase (eager_phase example_audit))) = [2].
Proof. split; reflexivity. Qed.

Lemma audit_exact_witness :
  audit_records 1 example_calls example_audit /\
  eager_total (stock_collective_snapshot 1 example_audit) = 3.
Proof.
  destruct (audit_exact example_audit_env 1 example_calls example_audit) as (Ha & _ & _ & He);
    [reflexivity|reflexivity|reflexivity|].
  split; [exact Ha|exact He].
Defined.
