(* ===== verification/SirclShadow.v ===== *)
(** * SIRCL: comparing the transport with the stock collective

    The shadow statistics of
    [campaign-2026-08/sircl/upstream/integrations/vllm/spark_tp4_backend.py]
    ([_ShadowStats], [_shadow_result_passed]): a bfloat16 tensor is the list of
    its 16-bit patterns in row-major order.  Proved: the integers whose
    difference is reported as the ULP distance order the finite patterns as
    their values, and a report is the totals over all observations. *)
From S2P Require Export SirclContracts PyFloat.

(** ** bfloat16 patterns *)
Module Bf16.

Definition exponent (b : Z) : Z := Z.land (Z.shiftr b 7) 255.
Definition mantissa (b : Z) : Z := Z.land b 127.
Definition sign (b : Z) : bool := Z.testbit b 15.

Definition isfinite (b : Z) : bool := negb (exponent b =? 255).
Definition isnan (b : Z) : bool := (exponent b =? 255) && negb (mantissa b =? 0).
Definition isinf (b : Z) : bool := (exponent b =? 255) && (mantissa b =? 0).

(** [.float()]: exact in single precision. *)
Definition to_single (b : Z) : spec_float :=
  if exponent b =? 255 then if mantissa b =? 0 then S754_infinity (sign b) else S754_nan
  else if exponent b =? 0 then
    if mantissa b =? 0 then S754_zero (sign b) else normalize 24 128 (sign b) (mantissa b) (-133)
  else normalize 24 128 (sign b) (128 + mantissa b) (exponent b - 134).

(** [==] of two elements: false on a NaN. *)
Definition eqb (a b : Z) : bool := SFeqb (to_single a) (to_single b).

(** The value of a finite pattern in units of [2 ^ -133], the least one. *)
Definition units (b : Z) : Z :=
  let m := if exponent b =? 0 then mantissa b else (128 + mantissa b) * 2 ^ (exponent b - 1) in
  if sign b then - m else m.

End Bf16.

(** ** One comparison *)

(** [candidate_ordered], [reference_ordered]. *)
Definition ordered_bits (raw : Z) : Z :=
  let bits := Z.land raw 0xFFFF in
  if negb (Z.land bits 0x8000 =? 0) then 0x8000 - Z.land bits 0x7FFF else 0x8000 + bits.

Definition both_finite (c r : Z) : bool := Bf16.isfinite c && Bf16.isfinite r.

Definition same_nonfinite (c r : Z) : bool :=
  (Bf16.isnan c && Bf16.isnan r) || (Bf16.isinf c && Bf16.isinf r && Bf16.eqb c r).

Definition ulp_distance (c r : Z) : Z :=
  if both_finite c r then Z.abs (ordered_bits c - ordered_bits r) else 0.

Definition finite_absolute (c r : Z) : spec_float :=
  if both_finite c r then SFabs (sub32 (Bf16.to_single c) (Bf16.to_single r)) else S754_zero false.

(** [torch.count_nonzero], [.max()] of a tensor with an element, [torch.maximum]
    of two numbers that are no NaN. *)
Definition count_nonzero (P : Z -> Z -> bool) (l : list (Z * Z)) : Z :=
  Z.of_nat (length (List.filter (fun x => P (fst x) (snd x)) l)).
Definition maximum (x y : spec_float) : spec_float := if float_lt x y then y else x.
Definition max_float (l : list spec_float) : result spec_float :=
  match l with [] => Raise RuntimeError | x :: l => Ok (foldl maximum x l) end.
Definition max_int (l : list Z) : result Z :=
  match l with [] => Raise RuntimeError | x :: l => Ok (foldl Z.max x l) end.

Record totals := mkTotals {
  exact_mismatches : Z;
  outside_tolerance : Z;
  nonfinite_mismatches : Z;
  maximum_absolute_error : spec_float;
  maximum_ulp_error : Z;
  ulp_over_one : Z;
  ulp_over_two : Z;
  ulp_over_four : Z
}.

Record ShadowStats := mkStats {
  count : Z;
  validated : bool;
  accumulated : option totals
}.
#[export] Instance eta_stats : Eta ShadowStats := fun s => mkStats (count s) (validated s) (accumulated s).

Definition init_stats : ShadowStats := mkStats 0 false None.

Section Observe.
(** [torch.isclose(candidate, reference, rtol=0.01, atol=0.01, equal_nan=True)]. *)
Context (isclose : Z -> Z -> bool).

(** The tensors computed by one call of [observe]. *)
Definition compare (candidate reference : list Z) : result totals :=
  let pairs := zip candidate reference in
  let distances := map (fun x => ulp_distance (fst x) (snd x)) pairs in
  let* delta := max_float (map (fun x => finite_absolute (fst x) (snd x)) pairs) in
  let* ulp := max_int distances in
  Ok (mkTotals
    (count_nonzero (fun c r => negb (c =? r)) pairs)
    (count_nonzero (fun c r => negb (isclose c r)) pairs)
    (count_nonzero (fun c r => negb (both_finite c r || same_nonfinite c r)) pairs)
    delta ulp
    (count_nonzero (fun c r => 1 <? ulp_distance c r) pairs)
    (count_nonzero (fun c r => 2 <? ulp_distance c r) pairs)
    (count_nonzero (fun c r => 4 <? ulp_distance c r) pairs)).

Definition add_totals (a b : totals) : totals :=
  mkTotals (exact_mismatches a + exact_mismatches b) (outside_tolerance a + outside_tolerance b)
    (nonfinite_mismatches a + nonfinite_mismatches b)
    (maximum (maximum_absolute_error a) (maximum_absolute_error b))
    (Z.max (maximum_ulp_error a) (maximum_ulp_error b))
    (ulp_over_one a + ulp_over_one b) (ulp_over_two a + ulp_over_two b) (ulp_over_four a + ulp_over_four b).

Definition observe (candidate reference : list Z) (s : ShadowStats) : result ShadowStats :=
  let* t := compare candidate reference in
  Ok ((s <| accumulated ::= fun acc => Some (match acc with None => t | Some a => add_totals a t end) |>)
        <| count ::= fun n => n + 1 |>).

(** [self.exact_mismatches.item()] of a fresh object is an error. *)
Definition report (s : ShadowStats) : result totals :=
  match accumulated s with Some t => Ok t | None => Raise AttributeError end.

End Observe.

(** The gates on a report; the near-zero ULP diagnostic counts only when a limit
    is configured. *)
Definition _shadow_result_passed (environ : environment) (outside nonfinite max_ulp : Z) : result bool :=
  match PyStr.int_of (env_get environ "SPARK_TP4_SHADOW_MAX_ULP" (PyStr.text "0")) with
  | None => Raise ValueError
  | Some max_allowed_ulp =>
      let* _ := require (0 <=? max_allowed_ulp) ValueError in
      let ulp_failed := (0 <? max_allowed_ulp) && (max_allowed_ulp <? max_ulp) in
      Ok (negb (negb (outside =? 0) || negb (nonfinite =? 0) || ulp_failed))
  end.

(** ** The ULP distance *)

Definition magnitude (b : Z) : Z := Z.land b 0x7FFF.

Lemma magnitude_mod b : magnitude b = b mod 2 ^ 15.
Proof. unfold magnitude. change 0x7FFF with (Z.ones 15). by rewrite Z.land_ones by lia. Qed.

(** A pattern from its sign and magnitude. *)
Lemma pattern_split b : 0 <= b < 2 ^ 16 -> b = (if Bf16.sign b then 2 ^ 15 else 0) + magnitude b.
Proof.
  intros Hb. rewrite magnitude_mod. unfold Bf16.sign. rewrite Z.testbit_eqb by lia.
  pose proof (Z.div_mod b (2 ^ 15) ltac:(lia)). pose proof (Z.mod_pos_bound b (2 ^ 15) ltac:(lia)).
  assert (b / 2 ^ 15 = 0 \/ b / 2 ^ 15 = 1) as [Hq|Hq]; [|rewrite Hq in *; simpl; lia..].
  assert (0 <= b / 2 ^ 15 < 2) by (split; [apply Z.div_pos; lia|apply Z.div_lt_upper_bound; lia]). lia.
Qed.

Lemma exponent_magnitude b : Bf16.exponent b = magnitude b / 128.
Proof.
  unfold Bf16.exponent. rewrite magnitude_mod. change 255 with (Z.ones 8).
  rewrite Z.land_ones, Z.shiftr_div_pow2 by lia. change (2 ^ 15) with (2 ^ 7 * 2 ^ 8). change 128 with (2 ^ 7).
  rewrite Z.rem_mul_r, (Z.mul_comm (2 ^ 7)), Z.div_add by lia.
  by rewrite (Z.div_small (b mod 2 ^ 7)) by (apply Z.mod_pos_bound; lia).
Qed.

Lemma mantissa_magnitude b : Bf16.mantissa b = magnitude b mod 128.
Proof.
  unfold Bf16.mantissa. rewrite magnitude_mod. change 127 with (Z.ones 7). rewrite Z.land_ones by lia.
  change (2 ^ 15) with (2 ^ 7 * 2 ^ 8). change 128 with (2 ^ 7).
  by rewrite Z.rem_mul_r, (Z.mul_comm (2 ^ 7)), Z.mod_add, Zmod_mod by lia.
Qed.

(** The value of a magnitude: [k] up to 255, then twice as steep every 128. *)
Definition magnitude_units (k : Z) : Z :=
  if k / 128 =? 0 then k mod 128 else (128 + k mod 128) * 2 ^ (k / 128 - 1).

Lemma units_magnitude b : Bf16.units b = if Bf16.sign b then - magnitude_units (magnitude b) else magnitude_units (magnitude b).
Proof. unfold Bf16.units, magnitude_units. by rewrite exponent_magnitude, mantissa_magnitude. Qed.

Lemma magnitude_units_step k : 0 <= k -> magnitude_units k < magnitude_units (k + 1).
Proof.
  intros Hk. unfold magnitude_units. pose proof (Z.div_mod k 128 ltac:(lia)) as Hdm.
  pose proof (Z.mod_pos_bound k 128 ltac:(lia)) as Hm. set (e := k / 128) in *. set (m := k mod 128) in *.
  assert (0 <= e) by (apply Z.div_pos; lia).
  assert (forall e' m', k + 1 = 128 * e' + m' -> 0 <= m' < 128 -> (k + 1) / 128 = e' /\ (k + 1) mod 128 = m') as Hnext.
  { intros e' m' Heq Hm'. split; [by rewrite (Z.div_unique (k + 1) 128 e' m') by lia|].
    by rewrite (Z.mod_unique (k + 1) 128 e' m') by lia. }
  destruct (Z.eq_dec m 127) as [Hm1|Hm1].
  - destruct (Hnext (e + 1) 0) as [-> ->]; [lia|lia|]. rewrite (proj2 (Z.eqb_neq (e + 1) 0)) by lia.
    replace (e + 1 - 1) with e by lia. rewrite Hm1. destruct (Z.eqb_spec e 0) as [->|]; [lia|].
    replace e with (Z.succ (e - 1)) at 2 by lia. rewrite Z.pow_succ_r by lia.
    pose proof (Z.pow_pos_nonneg 2 (e - 1) ltac:(lia) ltac:(lia)). lia.
  - destruct (Hnext e (m + 1)) as [-> ->]; [lia|lia|]. destruct (Z.eqb_spec e 0); [lia|].
    pose proof (Z.pow_pos_nonneg 2 (e - 1) ltac:(lia) ltac:(lia)). nia.
Qed.

Lemma magnitude_units_mono j k : 0 <= j < k -> magnitude_units j < magnitude_units k.
Proof.
  intros [Hj Hjk]. replace k with (j + 1 + (k - j - 1)) by lia. assert (0 <= k - j - 1) as Hn by lia. revert Hn.
  generalize (k - j - 1). clear Hjk. intros n Hn. pattern n. revert n Hn. apply natlike_ind.
  - rewrite Z.add_0_r. by apply magnitude_units_step.
  - intros n Hn IH. rewrite Z.add_succ_r, <- Z.add_1_r. etransitivity; [done|]. apply magnitude_units_step. lia.
Qed.

Lemma magnitude_units_0 : magnitude_units 0 = 0.
Proof. done. Qed.

Lemma magnitude_units_lt j k : 0 <= j -> 0 <= k -> magnitude_units j < magnitude_units k <-> j < k.
Proof.
  intros Hj Hk. split; [|intros; apply magnitude_units_mono; lia]. intros Hlt.
  destruct (Z.lt_trichotomy j k) as [|[->|Hkj]]; [done|lia|].
  pose proof (magnitude_units_mono k j ltac:(lia)). lia.
Qed.

Lemma ordered_magnitude b : 0 <= b < 2 ^ 16 ->
  ordered_bits b = if Bf16.sign b then 2 ^ 15 - magnitude b else 2 ^ 15 + magnitude b.
Proof.
  intros Hb. unfold ordered_bits. cbv zeta. change 0xFFFF with (Z.ones 16). rewrite Z.land_ones, Z.mod_small by lia.
  fold (magnitude b). pose proof (pattern_split b Hb) as Hsplit.
  assert (Z.land b 0x8000 = if Bf16.sign b then 2 ^ 15 else 0) as ->.
  { unfold Bf16.sign. change 0x8000 with (2 ^ 15). apply Z.bits_inj'. intros n Hn.
    rewrite Z.land_spec, Z.pow2_bits_eqb by lia. destruct (Z.eqb_spec 15 n) as [<-|Hne].
    - rewrite andb_true_r. destruct (Z.testbit b 15) eqn:E; by rewrite ?E.
    - rewrite andb_false_r. destruct (Z.testbit b 15); [|by rewrite Z.bits_0].
      symmetry. apply Z.pow2_bits_false. done. }
  destruct (Bf16.sign b) eqn:Es; simpl; [lia|]. lia.
Qed.

Lemma magnitude_nonneg b : 0 <= magnitude b < 2 ^ 15.
Proof. rewrite magnitude_mod. apply Z.mod_pos_bound. lia. Qed.

(** A pattern for every ordered integer. *)
Lemma pattern_of_ordered n : 2 ^ 15 - 0x7F7F <= n <= 2 ^ 15 + 0x7F7F ->
  exists c, 0 <= c < 2 ^ 16 /\ Bf16.isfinite c = true /\ ordered_bits c = n.
Proof.
  intros Hn. set (k := Z.abs (n - 2 ^ 15)). set (c := (if n <? 2 ^ 15 then 2 ^ 15 else 0) + k).
  assert (0 <= k <= 0x7F7F) as Hk by lia.
  assert (0 <= c < 2 ^ 16) as Hc by (unfold c; destruct (_ <? _); lia).
  assert (magnitude c = k) as Hm.
  { rewrite magnitude_mod. unfold c. destruct (n <? 2 ^ 15).
    - replace (2 ^ 15 + k) with (k + 1 * 2 ^ 15) by lia. rewrite Z.mod_add, Z.mod_small; lia.
    - rewrite Z.add_0_l. apply Z.mod_small. lia. }
  exists c. split; [done|split].
  - unfold Bf16.isfinite. rewrite exponent_magnitude, Hm. apply negb_true_iff, Z.eqb_neq.
    assert (k / 128 < 255); [|lia]. apply Z.div_lt_upper_bound; lia.
  - rewrite ordered_magnitude, Hm by done. pose proof (pattern_split c Hc) as Hs. rewrite Hm in Hs. unfold c in Hs at 1.
    destruct (Z.ltb_spec n (2 ^ 15)), (Bf16.sign c); lia.
Qed.

(** ULP distance: on finite bfloat16 patterns the integers compared for the
    ULP diagnostic are in the order of the values, and every integer between two
    of them belongs to a finite pattern too: the distance is the number of
    representable steps from one value to the other. *)
Theorem ulp_distance_counts_steps a b :
  0 <= a < 2 ^ 16 -> 0 <= b < 2 ^ 16 -> Bf16.isfinite a = true -> Bf16.isfinite b = true ->
  (ordered_bits a < ordered_bits b <-> Bf16.units a < Bf16.units b) /\
  (ulp_distance a b = 0 <-> Bf16.units a = Bf16.units b) /\
  (forall n, ordered_bits a <= n <= ordered_bits b ->
     exists c, 0 <= c < 2 ^ 16 /\ Bf16.isfinite c = true /\ ordered_bits c = n).
Proof.
  assert (forall x y, 0 <= x < 2 ^ 16 -> 0 <= y < 2 ^ 16 ->
    ordered_bits x < ordered_bits y <-> Bf16.units x < Bf16.units y) as Hlt.
  { intros x y Hx Hy. rewrite !ordered_magnitude, !units_magnitude by done.
    pose proof (magnitude_nonneg x). pose proof (magnitude_nonneg y).
    pose proof (magnitude_units_lt (magnitude x) (magnitude y) ltac:(lia) ltac:(lia)).
    pose proof (magnitude_units_lt (magnitude y) (magnitude x) ltac:(lia) ltac:(lia)).
    pose proof (magnitude_units_lt 0 (magnitude x) ltac:(lia) ltac:(lia)).
    pose proof (magnitude_units_lt 0 (magnitude y) ltac:(lia) ltac:(lia)).
    rewrite magnitude_units_0 in *.
    assert (forall k, 0 <= k -> 0 <= magnitude_units k) as Hnn.
    { intros k Hk. pose proof (magnitude_units_lt k 0 Hk ltac:(lia)). rewrite magnitude_units_0 in *. lia. }
    pose proof (Hnn (magnitude x) ltac:(lia)). pose proof (Hnn (magnitude y) ltac:(lia)).
    destruct (Bf16.sign x), (Bf16.sign y); lia. }
  intros Ha Hb Hfa Hfb. split_and!; [by apply Hlt| |].
  - unfold ulp_distance, both_finite. rewrite Hfa, Hfb. simpl.
    pose proof (Hlt a b Ha Hb). pose proof (Hlt b a Hb Ha). lia.
  - intros n Hn. apply pattern_of_ordered.
    assert (forall x, 0 <= x < 2 ^ 16 -> Bf16.isfinite x = true ->
      2 ^ 15 - 0x7F7F <= ordered_bits x <= 2 ^ 15 + 0x7F7F) as Hbound.
    { intros x Hx Hfx. unfold Bf16.isfinite in Hfx. rewrite exponent_magnitude in Hfx. bool_prop.
      pose proof (magnitude_nonneg x) as Hmx. pose proof (Z.div_mod (magnitude x) 128 ltac:(lia)).
      pose proof (Z.mod_pos_bound (magnitude x) 128 ltac:(lia)).
      rewrite ordered_magnitude by done. destruct (Bf16.sign x); lia. }
    pose proof (Hbound a Ha Hfa). pose proof (Hbound b Hb Hfb). lia.
Qed.

(** One and the least value above it, and the two smallest negative values. *)
Lemma ulp_distance_counts_steps_witness :
  (ordered_bits 0x3F80 < ordered_bits 0x3F81 <-> Bf16.units 0x3F80 < Bf16.units 0x3F81) /\
  ulp_distance 0x8002 0x3F80 = 0x3F82.
Proof.
  split; [|vm_compute; reflexivity].
  refine (proj1 (ulp_distance_counts_steps 0x3F80 0x3F81 _ _ _ _)); [lia|lia|reflexivity|reflexivity].
Defined.

(** ** Reports *)

Section Totals.
Context (isclose : Z -> Z -> bool).

Definition distance (x : Z * Z) : Z := ulp_distance (fst x) (snd x).

(** [t] is the summary of the compared pairs of elements. *)
Record totals_of (pairs : list (Z * Z)) (t : totals) : Prop := {
  to_exact : exact_mismatches t = count_nonzero (fun c r => negb (c =? r)) pairs;
  to_outside : outside_tolerance t = count_nonzero (fun c r => negb (isclose c r)) pairs;
  to_nonfinite : nonfinite_mismatches t = count_nonzero (fun c r => negb (both_finite c r || same_nonfinite c r)) pairs;
  to_ulp_bound : Forall (fun x => distance x <= maximum_ulp_error t) pairs;
  to_ulp_attained : exists x, x ∈ pairs /\ distance x = maximum_ulp_error t;
  to_over_one : ulp_over_one t = count_nonzero (fun c r => 1 <? ulp_distance c r) pairs;
  to_over_two : ulp_over_two t = count_nonzero (fun c r => 2 <? ulp_distance c r) pairs;
  to_over_four : ulp_over_four t = count_nonzero (fun c r => 4 <? ulp_distance c r) pairs
}.

Lemma count_nonzero_app P l k : count_nonzero P (l ++ k) = count_nonzero P l + count_nonzero P k.
Proof. unfold count_nonzero. rewrite List.filter_app, length_app. lia. Qed.

Lemma foldl_max_spec l x : Forall (fun y => y <= foldl Z.max x l) (x :: l) /\ foldl Z.max x l ∈ x :: l.
Proof.
  revert x. induction l as [|y l IH]; intros x; simpl; [split; [repeat constructor; lia|left]|].
  destruct (IH (Z.max x y)) as [Hb Hin]. apply Forall_cons in Hb as [Hxy Hb]. split.
  - constructor; [lia|]. constructor; [lia|done].
  - apply elem_of_cons in Hin as [Heq|Hin]; [|by do 2 right].
    rewrite Heq. destruct (Z.max_spec x y) as [[_ ->]|[_ ->]]; [right; left|left].
Qed.

Lemma compare_totals c r t : compare isclose c r = Ok t -> totals_of (zip c r) t.
Proof.
  unfold compare. cbv zeta. intros (delta & _ & Hrun)%rbind_ok. apply rbind_ok in Hrun as (ulp & Hulp & [= <-]).
  assert (Forall (fun x => distance x <= ulp) (zip c r) /\ exists x, x ∈ zip c r /\ distance x = ulp) as [Hb Hin].
  { fold distance in Hulp. change (map (fun x => ulp_distance x.1 x.2) (zip c r)) with (map distance (zip c r)) in Hulp.
    destruct (zip c r) as [|x l]; [done|]. simpl in Hulp. injection Hulp as <-.
    destruct (foldl_max_spec (map distance l) (distance x)) as [Hb Hin]. split.
    - by apply (Forall_fmap (A := Z * Z) distance (fun y => y <= foldl Z.max (distance x) (map distance l)) (x :: l)).
    - apply (list_elem_of_fmap distance (x :: l)) in Hin as (y & Hy & Hin). by exists y. }
  split; done.
Qed.

Lemma add_totals_of pairs more t u : totals_of pairs t -> totals_of more u -> totals_of (pairs ++ more) (add_totals t u).
Proof.
  intros Ht Hu. split; simpl; rewrite ?count_nonzero_app.
  1-3, 6-8: by rewrite <- ?(to_exact _ _ Ht), <- ?(to_exact _ _ Hu), <- ?(to_outside _ _ Ht), <- ?(to_outside _ _ Hu),
    <- ?(to_nonfinite _ _ Ht), <- ?(to_nonfinite _ _ Hu), <- ?(to_over_one _ _ Ht), <- ?(to_over_one _ _ Hu),
    <- ?(to_over_two _ _ Ht), <- ?(to_over_two _ _ Hu), <- ?(to_over_four _ _ Ht), <- ?(to_over_four _ _ Hu).
  - apply Forall_app. split; (eapply Forall_impl; [apply to_ulp_bound; done|]); simpl; lia.
  - destruct (to_ulp_attained _ _ Ht) as (x & Hx & Ex), (to_ulp_attained _ _ Hu) as (y & Hy & Ey).
    destruct (Z.max_spec (maximum_ulp_error t) (maximum_ulp_error u)) as [[_ ->]|[_ ->]];
      [exists y|exists x]; split; auto; apply elem_of_app; auto.
Qed.

(** Observing the pairs of tensors of [obs] in turn. *)
Definition observe_all (obs : list (list Z * list Z)) : result ShadowStats :=
  rfold (fun s o => observe isclose (fst o) (snd o) s) init_stats obs.

Definition pairs_of (obs : list (list Z * list Z)) : list (Z * Z) := List.concat (map (fun o => zip (fst o) (snd o)) obs).

(** Shadow totals: the report after any number of comparisons summarises all
    pairs of elements compared so far: the mismatch counters count them, and the
    ULP error reported is attained and bounds every pair's distance. *)
Theorem shadow_report_totals obs s :
  obs <> [] -> observe_all obs = Ok s ->
  count s = Z.of_nat (length obs) /\ validated s = false /\
  exists t, report s = Ok t /\ totals_of (pairs_of obs) t.
Proof.
  unfold observe_all. revert s. induction obs as [|[c r] obs IH] using rev_ind; intros s Hne Hrun; [done|].
  rewrite rfold_app in Hrun. apply rbind_ok in Hrun as (s0 & H0 & Hrun). simpl in Hrun.
  apply rbind_ok in Hrun as (s1 & Hobs & [= <-]). unfold observe in Hobs. apply rbind_ok in Hobs as (t & Ht & [= <-]).
  apply compare_totals in Ht. unfold pairs_of. rewrite map_app, concat_app. simpl. rewrite app_nil_r.
  destruct obs as [|o obs].
  - injection H0 as <-. simpl. eauto.
  - destruct (IH s0 ltac:(done) H0) as (Hc & Hv & t0 & Hr & Ht0). unfold report in Hr.
    destruct (accumulated s0) as [acc|] eqn:Ea; [|done]. injection Hr as ->.
    split_and!; [simpl; rewrite Hc, length_app; simpl; lia|done|]. exists (add_totals t0 t).
    unfold report. simpl. rewrite Ea. split; [done|]. by apply add_totals_of.
Qed.

End Totals.

Definition example_observations : list (list Z * list Z) :=
  [([0x3F80; 0x8000], [0x3F81; 0]); ([0x7FC0], [0x7F80])].

Lemma shadow_report_totals_witness :
  exists s t, observe_all Z.eqb example_observations = Ok s /\ count s = 2 /\
    report s = Ok t /\ exact_mismatches t = 3 /\ nonfinite_mismatches t = 1 /\ maximum_ulp_error t = 1.
Proof.
  destruct (observe_all Z.eqb example_observations) as [s|e] eqn:E.
  2:{ exfalso. revert E. vm_compute. discriminate. }
  destruct (shadow_report_totals Z.eqb example_observations s ltac:(discriminate) E) as (Hc & _ & t & Hr & Ht).
  exists s, t. split; [reflexivity|]. split; [exact Hc|]. split; [exact Hr|].
  split; [rewrite (to_exact _ _ _ Ht); reflexivity|]. split; [rewrite (to_nonfinite _ _ _ Ht); reflexivity|].
  vm_compute in E. injection E as <-. vm_compute in Hr. injection Hr as <-. reflexivity.
Defined.
