(* ===== verification/PyProc.v ===== *)
(** * Programs with state, exceptions and process exit

    [proc S A] is a computation on the state [S] that returns a value, raises a
    Python exception or ends the process ([os._exit]); the state reached comes
    with every outcome.  Used by the adapters that drive the native transport. *)
From S2P Require Export Prelude.

Inductive outcome (A : Type) :=
  | Ret (a : A)
  | Exn (e : pyexn)
  | Exit.
Arguments Ret {A} a.
Arguments Exn {A} e.
Arguments Exit {A}.

Definition proc (S A : Type) : Type := S -> outcome A * S.

Definition pret {S A} (a : A) : proc S A := fun s => (Ret a, s).
Definition praise {S A} (e : pyexn) : proc S A := fun s => (Exn e, s).
Definition pexit {S A} : proc S A := fun s => (Exit, s).

Definition pbind {S A B} (m : proc S A) (k : A -> proc S B) : proc S B := fun s =>
  match m s with
  | (Ret a, s) => k a s
  | (Exn e, s) => (Exn e, s)
  | (Exit, s) => (Exit, s)
  end.

Notation "'let!' x := m 'in' k" := (pbind m (fun x => k))
  (at level 10, x pattern, m at level 100, k at level 200) : py_scope.

Definition pget {S A} (f : S -> A) : proc S A := fun s => (Ret (f s), s).
Definition pmodify {S} (f : S -> S) : proc S unit := fun s => (Ret tt, f s).

(** A computation that neither reads nor changes the state. *)
Definition plift {S A} (m : result A) : proc S A := fun s =>
  match m with Ok a => (Ret a, s) | Raise e => (Exn e, s) end.

(** [except BaseException: os._exit(...)]. *)
Definition or_exit {S A} (m : proc S A) : proc S A := fun s =>
  match m s with (Ret a, s) => (Ret a, s) | (_, s) => (Exit, s) end.

(** [except Exception]: the handler goes on from the state the exception left. *)
Definition on_exception {S A} (m handler : proc S A) : proc S A := fun s =>
  match m s with (Exn _, s) => handler s | r => r end.

Lemma pbind_ret {S A B} (m : proc S A) (k : A -> proc S B) s b s' :
  pbind m k s = (Ret b, s') <-> exists a s1, m s = (Ret a, s1) /\ k a s1 = (Ret b, s').
Proof. unfold pbind. destruct (m s) as [[a|e|] s1]; split; naive_solver. Qed.

(** ** Specifications

    [spec P m Q E X]: from a state in [P] the computation returns [a] in a state
    with [Q a], raises an exception in a state with [E], or ends the process in a
    state with [X]. *)
Definition spec {S A} (P : S -> Prop) (m : proc S A) (Q : A -> S -> Prop) (E X : S -> Prop) : Prop :=
  forall s, P s -> match m s with (Ret a, s') => Q a s' | (Exn _, s') => E s' | (Exit, s') => X s' end.

(** [m] keeps [I], however it ends. *)
Notation keeps I m := (spec I m (fun _ => I) I I).

Section Rules.
Context {S : Type}.
Implicit Types (P E X I : S -> Prop).

Lemma spec_ret {A} P E X (a : A) (Q : A -> S -> Prop) : (forall s, P s -> Q a s) -> spec P (pret a) Q E X.
Proof. intros HQ s Hs. by apply HQ. Qed.

Lemma spec_raise {A} P E X e (Q : A -> S -> Prop) : (forall s, P s -> E s) -> spec P (praise e) Q E X.
Proof. intros HE s Hs. by apply HE. Qed.

Lemma spec_exit {A} P E X (Q : A -> S -> Prop) : (forall s, P s -> X s) -> spec P pexit Q E X.
Proof. intros HX s Hs. by apply HX. Qed.

Lemma spec_bind {A B} P E X (m : proc S A) (k : A -> proc S B) R (Q : B -> S -> Prop) :
  spec P m R E X -> (forall a, spec (R a) (k a) Q E X) -> spec P (pbind m k) Q E X.
Proof.
  intros Hm Hk s Hs. unfold pbind. specialize (Hm s Hs). destruct (m s) as [[a|e|] s']; [|done|done].
  by apply Hk.
Qed.

Lemma spec_get {A} P E X (f : S -> A) (Q : A -> S -> Prop) : (forall s, P s -> Q (f s) s) -> spec P (pget f) Q E X.
Proof. intros HQ s Hs. by apply HQ. Qed.

Lemma spec_modify P E X (f : S -> S) (Q : unit -> S -> Prop) : (forall s, P s -> Q tt (f s)) -> spec P (pmodify f) Q E X.
Proof. intros HQ s Hs. by apply HQ. Qed.

Lemma spec_lift {A} P E X (m : result A) (Q : A -> S -> Prop) :
  (forall s a, P s -> m = Ok a -> Q a s) -> (forall s, P s -> E s) -> spec P (plift m) Q E X.
Proof. intros HQ HE s Hs. unfold plift. destruct m; [by apply HQ|by apply HE]. Qed.

Lemma spec_or_exit {A} P E X (m : proc S A) (Q : A -> S -> Prop) : spec P m Q X X -> spec P (or_exit m) Q E X.
Proof. intros Hm s Hs. unfold or_exit. specialize (Hm s Hs). by destruct (m s) as [[a|e|] s']. Qed.

Lemma spec_on_exception {A} P E X R (m handler : proc S A) (Q : A -> S -> Prop) :
  spec P m Q R X -> spec R handler Q E X -> spec P (on_exception m handler) Q E X.
Proof.
  intros Hm Hh s Hs. unfold on_exception. specialize (Hm s Hs). destruct (m s) as [[a|e|] s']; [done| |done]. by apply Hh.
Qed.

Lemma spec_weaken {A} P P' E E' X X' (m : proc S A) (Q Q' : A -> S -> Prop) :
  spec P m Q E X -> (forall s, P' s -> P s) -> (forall a s, Q a s -> Q' a s) -> (forall s, E s -> E' s) ->
  (forall s, X s -> X' s) -> spec P' m Q' E' X'.
Proof.
  intros Hm HP HQ HE HX s Hs. specialize (Hm s (HP s Hs)). destruct (m s) as [[a|e|] s']; auto.
Qed.

(** Splitting on a fact about the state. *)
Lemma spec_pure {A} (F : Prop) P E X (m : proc S A) (Q : A -> S -> Prop) :
  (F -> spec P m Q E X) -> spec (fun s => F /\ P s) m Q E X.
Proof. intros Hm s [HF Hs]. by apply Hm. Qed.

Lemma keeps_ret {A} I (a : A) : keeps I (pret a).
Proof. by apply spec_ret. Qed.
Lemma keeps_raise {A} I e : keeps I (praise (A := A) e).
Proof. by apply spec_raise. Qed.
Lemma keeps_exit {A} I : keeps I (pexit (A := A)).
Proof. by apply spec_exit. Qed.
Lemma keeps_get {A} I (f : S -> A) : keeps I (pget f).
Proof. by apply spec_get. Qed.
Lemma keeps_lift {A} I (m : result A) : keeps I (plift m).
Proof. by apply spec_lift. Qed.
Lemma keeps_bind {A B} I (m : proc S A) (k : A -> proc S B) :
  keeps I m -> (forall a, keeps I (k a)) -> keeps I (pbind m k).
Proof. intros Hm Hk. eapply spec_bind; [exact Hm|exact Hk]. Qed.
Lemma keeps_or_exit {A} I (m : proc S A) : keeps I m -> keeps I (or_exit m).
Proof. apply spec_or_exit. Qed.

End Rules.

Create HintDb proc discriminated.
#[export] Hint Resolve keeps_ret keeps_raise keeps_exit keeps_get keeps_lift keeps_or_exit : proc.

(** Goes through a program step by step with the same assertion [I] before each
    step, for any postconditions of exceptions and exit; [leaf] closes what it
    can before a step is taken apart. *)
Ltac walk_step leaf :=
  first
    [ solve [leaf]
    | match goal with
      | |- forall _, _ => intros ?
      | |- spec ?I (pbind ?m ?k) ?Q ?E ?X => apply (spec_bind I E X m k (fun _ => I) Q)
      | |- spec _ (or_exit _) _ _ _ => apply spec_or_exit
      | |- spec _ (if ?b then _ else _) _ _ _ => destruct b
      | |- spec _ (match ?x with _ => _ end) _ _ _ => destruct x
      end ].
Ltac walk leaf := repeat walk_step leaf.
Ltac keep := walk ltac:(auto with proc).
