(* ===== verification/SirclSession.v ===== *)
(** * SIRCL: native all-reduce sessions

    [campaign-2026-08/sircl/upstream/integrations/vllm/spark_tp4_backend.py],
    first half: the readers of the environment, the admission of shapes, the
    preconditions of the graph sessions, and [_NativeSession] (creation, eager
    all-reduce, capture, attested status).  The native library and PyTorch are
    the class [Native]; integers passed through ctypes are kept at their width.
    [resolve_query_rows()] is [query_rows] of the process environment: its cache
    is transparent ([RowProvider.row_cache_transparent]). *)
From S2P Require Export SirclPorts SirclShadow PyProc.
Import RowProvider.

(** ** Constants *)

Definition _TARGET_WIDTH : Z := 6144.
Definition _BF16_BYTES : Z := 2.
Definition _BYTES_PER_ROW : Z := _TARGET_WIDTH * _BF16_BYTES.
Definition _ALLREDUCE_PREFILL_MAX_QUERY_ROWS : Z := 512.
Definition _ALLREDUCE_PREFILL_CAPACITY_BYTES : Z := _ALLREDUCE_PREFILL_MAX_QUERY_ROWS * _BYTES_PER_ROW.
Definition ABSOLUTE_MAX_QUERY_ROWS : Z := QueryContract.ABSOLUTE_MAX_QUERY_ROWS.
Definition _DUAL_PORT_Q40_CAPACITY_BYTES : Z := ABSOLUTE_MAX_QUERY_ROWS * _BYTES_PER_ROW.
Definition _RESEARCH_GRAPH_WIDTH : Z := 4096.
Definition _RESEARCH_GRAPH_ROW_BYTES : Z := _RESEARCH_GRAPH_WIDTH * _BF16_BYTES.
Definition _RESEARCH_GRAPH_MAX_QUERY_ROWS : Z := 512.
Definition _RESEARCH_GRAPH_CAPACITY_BYTES : Z := _RESEARCH_GRAPH_MAX_QUERY_ROWS * _RESEARCH_GRAPH_ROW_BYTES.

Definition _SERIAL_ACK_PROTOCOL : list ascii := PyStr.text "serial_ack".
Definition _TWO_SLOT_DEFERRED_ACK_PROTOCOL : list ascii := PyStr.text "two_slot_deferred_ack".
Definition _FUSED_GRAPH_KERNEL : list ascii := PyStr.text "fused".
Definition _SPLIT_64K_GRAPH_KERNEL : list ascii := PyStr.text "split_64k".
Definition _TIERED_64K_GRAPH_KERNEL : list ascii := PyStr.text "tiered_64k".
Definition _SEQUENTIAL_WIRE_SCHEDULE : list ascii := PyStr.text "sequential".
Definition _DUAL_PORT_STRIPED_WIRE_SCHEDULE : list ascii := PyStr.text "dual_port_striped".

(** The wire codes, as tables. *)
Definition wire_table : Type := list (list ascii * Z).
Definition _ALLREDUCE_PROTOCOL_WIRE : wire_table := [(_SERIAL_ACK_PROTOCOL, 0); (_TWO_SLOT_DEFERRED_ACK_PROTOCOL, 1)].
Definition _GRAPH_KERNEL_WIRE : wire_table :=
  [(_FUSED_GRAPH_KERNEL, 0); (_SPLIT_64K_GRAPH_KERNEL, 1); (_TIERED_64K_GRAPH_KERNEL, 2)].
Definition _WIRE_SCHEDULE_WIRE : wire_table := [(_SEQUENTIAL_WIRE_SCHEDULE, 0); (_DUAL_PORT_STRIPED_WIRE_SCHEDULE, 1)].

Definition in_table (t : wire_table) (value : list ascii) : bool := bool_decide (value ∈ map fst t).
Definition wire_code (t : wire_table) (value : list ascii) : result Z :=
  match List.find (fun e => bool_decide (fst e = value)) t with Some (_, c) => Ok c | None => Raise KeyError end.

Definition text_eqb (a b : list ascii) : bool := bool_decide (a = b).

(** The addresses of a rank's two neighbours. *)
Definition _DEFAULT_PEERS : list (string * string) :=
  [("192.0.2.2", "192.0.2.4"); ("192.0.2.1", "192.0.2.3"); ("192.0.2.4", "192.0.2.2"); ("192.0.2.3", "192.0.2.1")]%string.

(** ** Reading the environment *)

(** What a process is started with. *)
Record host := mkHost {
  environ : environment;
  argv : list (list ascii);
  platform : list ascii
}.

Definition int_env (env : environment) (name default_text : string) : result Z :=
  match PyStr.int_of (env_get env name (PyStr.text default_text)) with
  | Some n => Ok n
  | None => Raise ValueError
  end.

Section Readers.
Context `{Provider}.
Implicit Types env : environment.

Definition mode env : result (list ascii) := _mode env "VLLM_SPARK_TP4_MODE" ["custom"; "disabled"; "shadow"].

Definition _graph_allreduce_protocol env : result (list ascii) :=
  let value := env_get env "VLLM_SPARK_TP4_GRAPH_ALLREDUCE_PROTOCOL" _SERIAL_ACK_PROTOCOL in
  let* _ := require (in_table _ALLREDUCE_PROTOCOL_WIRE value) ValueError in
  Ok value.

Definition _graph_kernel_strategy env : result (list ascii) :=
  let value := env_get env "VLLM_SPARK_TP4_GRAPH_KERNEL_STRATEGY" _FUSED_GRAPH_KERNEL in
  let* _ := require (in_table _GRAPH_KERNEL_WIRE value) ValueError in
  Ok value.

Definition _prefill_q512_enabled env : result bool := _flag env "VLLM_SPARK_TP4_PREFILL_Q512".
Definition _graph_q1_enabled env : result bool := _flag env "VLLM_SPARK_TP4_GRAPH_Q1".
Definition _graph_width4096_research_enabled env : result bool := _flag env "VLLM_SPARK_TP4_GRAPH_WIDTH4096_RESEARCH".
Definition _graph_dual_port_q40_enabled env : result bool := _flag env "VLLM_SPARK_TP4_GRAPH_DUAL_PORT_Q40".

Definition _maximum_allreduce_query_rows env : result Z := maximum_query_rows env.
Definition _graph_capacity_bytes env : result Z :=
  let* rows := _maximum_allreduce_query_rows env in Ok (rows * _BYTES_PER_ROW).
Definition _admitted_default_width_rows env : result (list Z) := query_rows env.

Definition _MAX_PERSISTENT_OUTPUT_SLOTS : Z := 4096.
Definition _persistent_output_slots env : result Z :=
  let* slots := int_env env "SPARK_TP4_PERSISTENT_OUTPUT_SLOTS" "0" in
  let* _ := require (negb ((slots <? 0) || (_MAX_PERSISTENT_OUTPUT_SLOTS <? slots))) ValueError in
  Ok slots.

(** ** Admitted shapes *)

Definition _target_shape_eligible env (shape : list Z) : result bool :=
  match shape with
  | [rows; width] =>
      if width =? _TARGET_WIDTH then
        let* admitted := _admitted_default_width_rows env in Ok (bool_decide (rows ∈ admitted))
      else Ok false
  | _ => Ok false
  end.

Definition _eager_admitted_widths env : result (list Z) := eager_allreduce_admitted_widths env.

Definition _eager_shape_eligible env (shape : list Z) : result bool :=
  match shape with
  | [rows; width] =>
      let* widths := _eager_admitted_widths env in
      if bool_decide (width ∉ widths) then Ok false
      else if width =? _TARGET_WIDTH then
        let* admitted := _admitted_default_width_rows env in Ok (bool_decide (rows ∈ admitted))
      else
        let* q512 := _prefill_q512_enabled env in
        let extension_maximum := if q512 : bool then _ALLREDUCE_PREFILL_MAX_QUERY_ROWS else MAX_QUERY_ROWS in
        Ok ((1 <=? rows) && (rows <=? extension_maximum))
  | _ => Ok false
  end.

Definition _research_graph_shape_eligible (shape : list Z) : bool :=
  match shape with
  | [rows; width] => (width =? _RESEARCH_GRAPH_WIDTH) && (1 <=? rows) && (rows <=? _RESEARCH_GRAPH_MAX_QUERY_ROWS)
  | _ => false
  end.

(** ** Preconditions of a graph session *)

Definition kv_flag : list ascii := PyStr.text "--kv-cache-memory-bytes".
Definition kv_flag_eq : list ascii := PyStr.text "--kv-cache-memory-bytes=".

(** The values of the flag among the arguments, in either spelling. *)
Fixpoint kv_values (arguments : list (list ascii)) : result (list (list ascii)) :=
  match arguments with
  | [] => Ok []
  | argument :: rest =>
      if text_eqb argument kv_flag then
        match rest with
        | [] => Raise RuntimeError
        | value :: _ => let* values := kv_values rest in Ok (value :: values)
        end
      else if text_eqb (take (length kv_flag_eq) argument) kv_flag_eq then
        let* values := kv_values rest in Ok (drop (length kv_flag_eq) argument :: values)
      else kv_values rest
  end.

Definition _fixed_kv_cache_bytes (arguments : list (list ascii)) : result Z :=
  let* values := kv_values arguments in
  match values with
  | [value] =>
      match PyStr.int_of value with
      | None => Raise RuntimeError
      | Some parsed => let* _ := require (0 <? parsed) RuntimeError in Ok parsed
      end
  | _ => Raise RuntimeError
  end.

Definition cpu_of env (name : string) : result Z :=
  match env name with
  | None => Raise RuntimeError
  | Some text =>
      match PyStr.int_of text with
      | None => Raise RuntimeError
      | Some value => let* _ := require (0 <=? value) RuntimeError in Ok value
      end
  end.

Definition _graph_cpu_affinity env : result (Z * Z) :=
  let* submit_cpu := cpu_of env "SPARK_TP4_GRAPH_SUBMIT_CPU" in
  let* progress_cpu := cpu_of env "SPARK_TP4_GRAPH_PROGRESS_CPU" in
  let* _ := require (negb (submit_cpu =? progress_cpu)) RuntimeError in
  Ok (submit_cpu, progress_cpu).

Definition _graph_preflight (h : host) : result (Z * Z) :=
  let* _ := _fixed_kv_cache_bytes (argv h) in
  let* _ := require (text_eqb (env_get (environ h) "VLLM_SPARK_SHARED_CAPTURE_STREAM" (PyStr.text "0")) (PyStr.text "1"))
              RuntimeError in
  let* _ := require (text_eqb (take 5 (platform h)) (PyStr.text "linux")) RuntimeError in
  _graph_cpu_affinity (environ h).

Definition env_is env (name value default_text : string) : bool :=
  text_eqb (env_get env name (PyStr.text default_text)) (PyStr.text value).

(** The CPUs another part of the transport may own, when it is configured. *)
Definition owned_cpu env (configured : bool) (name default_text : string) : result (list Z) :=
  if configured then let* cpu := int_env env name default_text in Ok [cpu] else Ok [].

Definition _graph_dual_port_q40_cpu_affinity (h : host) : result (Z * Z) :=
  let env := environ h in
  let* cpus := _graph_preflight h in
  let '(submit_cpu, tp_progress_cpu) := cpus in
  let* progress_cpu := cpu_of env "SPARK_TP4_GRAPH_DUAL_PORT_Q40_PROGRESS_CPU" in
  let* vocabulary := owned_cpu env (env_is env "VLLM_SPARK_TP4_VOCAB_MODE" "custom" "")
                       "SPARK_TP4_GRAPH_VOCAB_PROGRESS_CPU" "12" in
  let* dcp := owned_cpu env (env_is env "VLLM_SPARK_TP4_DCP_GRAPH_CUSTOM" "1" "0"
                             || env_is env "VLLM_SPARK_TP4_DCP_GRAPH_SHADOW" "1" "0")
                "SPARK_TP4_GRAPH_DCP_PROGRESS_CPU" "13" in
  let* indexer := owned_cpu env (env_is env "VLLM_SPARK_TP4_INDEXER_GRAPH_CUSTOM" "1" "0")
                    "SPARK_TP4_GRAPH_INDEXER_PROGRESS_CPU" "14" in
  let occupied := [submit_cpu; tp_progress_cpu] ++ vocabulary ++ dcp ++ indexer in
  let* _ := require (bool_decide (progress_cpu ∉ occupied)) RuntimeError in
  Ok (submit_cpu, progress_cpu).

End Readers.

(** ** The native library and PyTorch *)

Record tensor := mkTensor {
  t_shape : list Z;
  t_dtype : list ascii;
  t_device : Z;
  t_is_cuda : bool;
  t_contiguous : bool;
  t_data : list Z
}.

(** [_NativeConfig]: the fields as the library reads them. *)
Record native_config := mkConfig {
  c_rank : Z;
  c_peer0 : list ascii;
  c_peer1 : list ascii;
  c_device0 : list ascii;
  c_device1 : list ascii;
  c_gid0 : Z;
  c_gid1 : Z;
  c_control_port0 : Z;
  c_control_port1 : Z;
  c_payload_bytes : Z;
  c_graph_submit_cpu_plus_one : Z;
  c_graph_progress_cpu_plus_one : Z
}.

(** A call of one of the creating functions: its name, the configuration, the
    row geometry of the second version and the wire codes passed. *)
Record create_request := mkRequest {
  entry : string;
  config : native_config;
  geometry : option (Z * Z);
  wire : list Z
}.

(** [_NativeGraphStatus]. *)
Record native_status := mkNativeStatus {
  struct_size : Z;
  flags : Z;
  n_captured_nodes : Z;
  n_published_sequence : Z;
  n_consumed_sequence : Z;
  n_completed_sequence : Z;
  n_overflow_sequence : Z;
  graph_submit_cpu_plus_one : Z;
  graph_progress_cpu_plus_one : Z
}.

(** What lies outside: loading a library, its exported symbols, its functions
    ([None] is a null handle or a non-zero result), the stock collective, and
    the operations of PyTorch.  All of them may change the outside [world]. *)
Class Native := {
  world : Type;
  handle : Type;
  load_library : list ascii -> result unit;
  exports : string -> bool;
  create_session : create_request -> world -> option handle * world;
  native_all_reduce : handle -> tensor -> tensor -> world -> option tensor * world;
  native_capture : handle -> tensor -> tensor -> Z -> world -> option tensor * world;
  native_graph_status : handle -> world -> option native_status * world;
  original_all_reduce : tensor -> world -> result tensor * world;
  empty_like : tensor -> tensor;
  empty_unbind : Z -> @OutputRing.OutputSignature (list ascii) Z -> list tensor;
  isclose : Z -> Z -> bool
}.

Definition _signature_for (t : tensor) : @OutputRing.OutputSignature (list ascii) Z :=
  OutputRing.mkSignature (t_shape t) (t_dtype t) (t_device t).

(** ** Sessions *)
Section Session.
Context `{Provider, Native}.

(** The arguments of [_NativeSession] after the rank, with their defaults. *)
Record session_args := mkArgs {
  payload_bytes : Z;
  control_ports : option (Z * Z);
  graph_only : bool;
  graph_cpu_affinity : option (Z * Z);
  allreduce_protocol : list ascii;
  graph_kernel_strategy : list ascii;
  wire_schedule : list ascii;
  row_bytes : Z
}.

Definition eager_args (payload_bytes : Z) : session_args :=
  mkArgs payload_bytes None false None _SERIAL_ACK_PROTOCOL _FUSED_GRAPH_KERNEL _SEQUENTIAL_WIRE_SCHEDULE _BYTES_PER_ROW.

Notation output_ring := (@OutputRing.PersistentOutputRing tensor (list ascii) Z).

Record _NativeSession := mkSession {
  _handle : handle;
  _args : session_args;
  _ports : Z * Z;
  _elements_per_row : Z;
  _graph_max_query_rows : Z;
  _persistent_outputs : option output_ring
}.

(** A non-default row geometry is the research one. *)
Definition check_geometry (a : session_args) : result unit :=
  if row_bytes a =? _BYTES_PER_ROW then Ok tt
  else
    let* _ := require (graph_only a) ValueError in
    let* _ := require (row_bytes a =? _RESEARCH_GRAPH_ROW_BYTES) ValueError in
    require (payload_bytes a =? _RESEARCH_GRAPH_CAPACITY_BYTES) ValueError.

Definition check_striped (a : session_args) : result unit :=
  if text_eqb (wire_schedule a) _DUAL_PORT_STRIPED_WIRE_SCHEDULE then
    let* _ := require (graph_only a) ValueError in
    let* _ := require (text_eqb (allreduce_protocol a) _TWO_SLOT_DEFERRED_ACK_PROTOCOL) ValueError in
    let* _ := require (text_eqb (graph_kernel_strategy a) _FUSED_GRAPH_KERNEL) ValueError in
    require (bool_decide (payload_bytes a ∈ [_DUAL_PORT_Q40_CAPACITY_BYTES; _ALLREDUCE_PREFILL_CAPACITY_BYTES])) ValueError
  else Ok tt.

Definition check_args (env : environment) (rank : Z) (a : session_args) : result unit :=
  let* _ := require ((0 <=? rank) && (rank <=? 3)) ValueError in
  let* _ := check_geometry a in
  let* expected_graph_capacity := _graph_capacity_bytes env in
  let* _ := require (negb (graph_only a && (row_bytes a =? _BYTES_PER_ROW)
                           && text_eqb (wire_schedule a) _SEQUENTIAL_WIRE_SCHEDULE
                           && negb (payload_bytes a =? expected_graph_capacity))) ValueError in
  let* _ := require (Bool.eqb (graph_only a) (bool_decide (is_Some (graph_cpu_affinity a)))) ValueError in
  let* _ := require (in_table _ALLREDUCE_PROTOCOL_WIRE (allreduce_protocol a)) ValueError in
  let* _ := require (in_table _GRAPH_KERNEL_WIRE (graph_kernel_strategy a)) ValueError in
  let* _ := require (in_table _WIRE_SCHEDULE_WIRE (wire_schedule a)) ValueError in
  let* _ := require (text_eqb (graph_kernel_strategy a) _FUSED_GRAPH_KERNEL || graph_only a) ValueError in
  let* _ := require (negb (text_eqb (allreduce_protocol a) _TWO_SLOT_DEFERRED_ACK_PROTOCOL) || graph_only a) ValueError in
  check_striped a.

Definition _control_ports (payload_bytes : Z) (env : environment) : result (Z * Z) :=
  eager_allreduce_ports_for_payload payload_bytes env.

Definition session_ports (env : environment) (a : session_args) : result (Z * Z) :=
  match control_ports a with
  | None => _control_ports (payload_bytes a) env
  | Some ports =>
      let* ports := validate_control_port_pair ports in
      let* _ := validate_active_port_namespace env in
      Ok ports
  end.

(** The creating function chosen, with the wire codes it takes. *)
Definition use_v2_geometry (a : session_args) : bool := negb (row_bytes a =? _BYTES_PER_ROW).

Definition create_entry (a : session_args) : string :=
  if use_v2_geometry a then "spark_tp4_create_v2"
  else if negb (text_eqb (wire_schedule a) _SEQUENTIAL_WIRE_SCHEDULE)
  then "spark_tp4_create_with_protocol_graph_kernel_and_schedule"
  else if negb (text_eqb (graph_kernel_strategy a) _FUSED_GRAPH_KERNEL)
  then "spark_tp4_create_with_protocol_and_graph_kernel"
  else if text_eqb (allreduce_protocol a) _TWO_SLOT_DEFERRED_ACK_PROTOCOL then "spark_tp4_create_with_protocol"
  else "spark_tp4_create".

Definition create_wire (a : session_args) : result (list Z) :=
  let protocol := wire_code _ALLREDUCE_PROTOCOL_WIRE (allreduce_protocol a) in
  let kernel := wire_code _GRAPH_KERNEL_WIRE (graph_kernel_strategy a) in
  let schedule := wire_code _WIRE_SCHEDULE_WIRE (wire_schedule a) in
  if use_v2_geometry a || negb (text_eqb (wire_schedule a) _SEQUENTIAL_WIRE_SCHEDULE)
  then let* p := protocol in let* k := kernel in let* s := schedule in Ok [p; k; s]
  else if negb (text_eqb (graph_kernel_strategy a) _FUSED_GRAPH_KERNEL)
  then let* p := protocol in let* k := kernel in Ok [p; k]
  else if text_eqb (allreduce_protocol a) _SERIAL_ACK_PROTOCOL then Ok []
  else let* p := protocol in Ok [p].

(** Attribute access on the loaded library. *)
Definition check_symbols (a : session_args) : result unit :=
  let* _ := require (exports "spark_tp4_create") AttributeError in
  let* _ := require (exports (create_entry a)) RuntimeError in
  let* _ := require (exports "spark_tp4_all_reduce") AttributeError in
  let* _ := require (negb (graph_only a)
                     || exports "spark_tp4_capture_all_reduce" && exports "spark_tp4_get_graph_status") AttributeError in
  require (exports "spark_tp4_destroy") AttributeError.

Definition make_outputs (env : environment) (a : session_args) : result (option output_ring) :=
  let* persistent_slots := if graph_only a then Ok 0 else _persistent_output_slots env in
  if persistent_slots =? 0 then Ok None
  else let* ring := OutputRing.init persistent_slots in Ok (Some ring).

(** Assigning to a field of the structure keeps its low bits. *)
Definition u8 (n : Z) : Z := n mod 2 ^ 8.
Definition u16 (n : Z) : Z := n mod 2 ^ 16.
Definition u32 (n : Z) : Z := n mod 2 ^ 32.
Definition size_t (n : Z) : Z := n mod 2 ^ 64.

Definition make_config (env : environment) (rank : Z) (ports : Z * Z) (a : session_args) : result native_config :=
  match _DEFAULT_PEERS !! Z.to_nat rank with
  | None => Raise KeyError
  | Some (default_peer0, default_peer1) =>
      let '(submit_cpu, progress_cpu) := default (-1, -1) (graph_cpu_affinity a) in
      let text name default_text := env_get env name (PyStr.text default_text) in
      let* gid0 := int_env env "SPARK_TP4_GID0" "3" in
      let* gid1 := int_env env "SPARK_TP4_GID1" "3" in
      Ok (mkConfig (u32 rank) (text "SPARK_TP4_PEER0" default_peer0) (text "SPARK_TP4_PEER1" default_peer1)
            (text "SPARK_TP4_DEVICE0" "rocep1s0f0"%string) (text "SPARK_TP4_DEVICE1" "rocep1s0f1"%string)
            (u8 gid0) (u8 gid1) (u16 (fst ports)) (u16 (snd ports)) (size_t (payload_bytes a))
            (u32 (submit_cpu + 1)) (u32 (progress_cpu + 1)))
  end.

(** Everything the constructor does before it calls the library. *)
Definition prepare (env : environment) (rank : Z) (a : session_args)
    : result (create_request * option output_ring * (Z * Z)) :=
  let* _ := check_args env rank a in
  let* ports := session_ports env a in
  let* library_path := match env "SPARK_TP4_LIBRARY" with Some path => Ok path | None => Raise KeyError end in
  let* _ := load_library library_path in
  let* _ := check_symbols a in
  let* outputs := make_outputs env a in
  let* config := make_config env rank ports a in
  let* wire := create_wire a in
  let geometry := if use_v2_geometry a then Some (u32 (row_bytes a / _BF16_BYTES), u32 (row_bytes a)) else None in
  Ok (mkRequest (create_entry a) config geometry wire, outputs, ports).

Definition new_session (env : environment) (rank : Z) (a : session_args) : proc world _NativeSession :=
  let! p := plift (prepare env rank a) in
  let '(request, outputs, ports) := p in
  let! created := fun w => let '(h, w) := create_session request w in (Ret h, w) in
  match created with
  | None => praise RuntimeError
  | Some h =>
      pret (mkSession h a ports (row_bytes a / _BF16_BYTES) (if graph_only a then payload_bytes a / row_bytes a else 0) outputs)
  end.

(** [all_reduce]: the session comes back with its output ring advanced, whatever
    the library answers. *)
Definition acquire_output (s : _NativeSession) (t : tensor) : result tensor * _NativeSession :=
  match _persistent_outputs s with
  | None => (Ok (empty_like t), s)
  | Some ring =>
      let '(ring, output) := OutputRing.acquire _signature_for empty_unbind ring t in
      (output, mkSession (_handle s) (_args s) (_ports s) (_elements_per_row s) (_graph_max_query_rows s) (Some ring))
  end.

Definition run_all_reduce (s : _NativeSession) (output t : tensor) : proc world tensor := fun w =>
  match native_all_reduce (_handle s) t output w with
  | (Some output, w) => (Ret output, w)
  | (None, w) => (Exn RuntimeError, w)
  end.

Definition is_bf16 (t : tensor) : bool := text_eqb (t_dtype t) (PyStr.text "torch.bfloat16").
Definition dense_bf16 (t : tensor) : bool := is_bf16 t && t_is_cuda t && t_contiguous t.

Definition dual_port_session (s : _NativeSession) : bool :=
  text_eqb (wire_schedule (_args s)) _DUAL_PORT_STRIPED_WIRE_SCHEDULE.

(** The shapes a session captures. *)
Definition capture_shape_admitted (env : environment) (s : _NativeSession) (shape : list Z) : result bool :=
  if row_bytes (_args s) =? _BYTES_PER_ROW then _target_shape_eligible env shape
  else Ok (match shape with
           | [rows; width] => (width =? _elements_per_row s) && (1 <=? rows) && (rows <=? _graph_max_query_rows s)
           | _ => false
           end).

Definition exact_dual_port_shape (s : _NativeSession) (shape : list Z) : bool :=
  negb (dual_port_session s) || bool_decide (shape = [_graph_max_query_rows s; _TARGET_WIDTH]).

Definition check_capture (env : environment) (s : _NativeSession) (t : tensor) : result Z :=
  let* _ := require (graph_only (_args s)) RuntimeError in
  let* shape_admitted := capture_shape_admitted env s (t_shape t) in
  match t_shape t with
  | q :: _ =>
      let* _ := require (shape_admitted && (q <=? _graph_max_query_rows s) && exact_dual_port_shape s (t_shape t)
                         && dense_bf16 t) ValueError in
      Ok q
  | [] => Raise ValueError
  end.

Definition capture (env : environment) (s : _NativeSession) (t : tensor) : proc world tensor :=
  let! q := plift (check_capture env s t) in
  fun w =>
    match native_capture (_handle s) t (empty_like t) (u32 q) w with
    | (Some output, w) => (Ret output, w)
    | (None, w) => (Exn RuntimeError, w)
    end.

Definition capture_q1 (env : environment) (s : _NativeSession) (t : tensor) : proc world tensor :=
  let! _ := plift (require (bool_decide (t_shape t = [1; _TARGET_WIDTH])) ValueError) in
  capture env s t.

(** ** Replay status *)

Definition _GRAPH_STATUS_CAPTURE_CONFIGURED : Z := Z.shiftl 1 0.
Definition _GRAPH_STATUS_POLLING_ENABLED : Z := Z.shiftl 1 1.
Definition _GRAPH_STATUS_HOST_NATIVE_ATOMICS : Z := Z.shiftl 1 2.
Definition _GRAPH_STATUS_SUBMIT_AFFINITY_VERIFIED : Z := Z.shiftl 1 3.
Definition _GRAPH_STATUS_PROGRESS_AFFINITY_VERIFIED : Z := Z.shiftl 1 4.
Definition _GRAPH_STATUS_TWO_SLOT_DEFERRED_ACK : Z := Z.shiftl 1 7.
Definition _GRAPH_STATUS_SPLIT_64K : Z := Z.shiftl 1 8.
Definition _GRAPH_STATUS_TIERED_64K : Z := Z.shiftl 1 9.
Definition _GRAPH_STATUS_DUAL_PORT_STRIPED : Z := Z.shiftl 1 10.

(** [bool(flags & bit)]. *)
Definition has_flag (flags bit : Z) : bool := negb (Z.land flags bit =? 0).

Record GraphReplayStatus := mkStatus {
  captured_nodes : Z;
  published_sequence : Z;
  consumed_sequence : Z;
  completed_sequence : Z;
  overflow_sequence : Z;
  capture_configured : bool;
  polling_enabled : bool;
  host_native_atomics : bool;
  submit_affinity_verified : bool;
  progress_affinity_verified : bool;
  submit_cpu : option Z;
  progress_cpu : option Z;
  two_slot_deferred_ack : bool;
  status_graph_kernel_strategy : list ascii;
  status_wire_schedule : list ascii
}.

Definition replay_advanced (r : GraphReplayStatus) : bool := 0 <? published_sequence r.
Definition command_caught_up (r : GraphReplayStatus) : bool :=
  replay_advanced r && (published_sequence r =? consumed_sequence r) && (published_sequence r =? completed_sequence r).
Definition replay_caught_up (r : GraphReplayStatus) : bool := command_caught_up r.
Definition payload_slots_retired (r : GraphReplayStatus) : option bool :=
  if two_slot_deferred_ack r then None else Some (command_caught_up r).
Definition fatal (r : GraphReplayStatus) : bool := negb (overflow_sequence r =? 0).

(** [ctypes.sizeof(_NativeGraphStatus)]. *)
Definition sizeof_graph_status : Z := 4 + 4 + 5 * 8 + 4 + 4.

Definition cpu_of_plus_one (n : Z) : option Z := if n =? 0 then None else Some (n - 1).

(** The strategy and schedule the library attests. *)
Definition native_kernel (flags : Z) : result (list ascii) :=
  let native_split := has_flag flags _GRAPH_STATUS_SPLIT_64K in
  let native_tiered := has_flag flags _GRAPH_STATUS_TIERED_64K in
  let* _ := require (negb (native_split && native_tiered)) RuntimeError in
  Ok (if native_tiered then _TIERED_64K_GRAPH_KERNEL else if native_split then _SPLIT_64K_GRAPH_KERNEL
      else _FUSED_GRAPH_KERNEL).

Definition native_wire_schedule (flags : Z) : list ascii :=
  if has_flag flags _GRAPH_STATUS_DUAL_PORT_STRIPED then _DUAL_PORT_STRIPED_WIRE_SCHEDULE else _SEQUENTIAL_WIRE_SCHEDULE.

Definition attested_status (a : session_args) (native : native_status) : result GraphReplayStatus :=
  let* _ := require (struct_size native =? sizeof_graph_status) RuntimeError in
  let fl := flags native in
  let native_deferred := has_flag fl _GRAPH_STATUS_TWO_SLOT_DEFERRED_ACK in
  let requested_deferred := text_eqb (allreduce_protocol a) _TWO_SLOT_DEFERRED_ACK_PROTOCOL in
  let* _ := require (Bool.eqb native_deferred requested_deferred) RuntimeError in
  let* native_graph_kernel := native_kernel fl in
  let* _ := require (text_eqb native_graph_kernel (graph_kernel_strategy a)) RuntimeError in
  let* _ := require (text_eqb (native_wire_schedule fl) (wire_schedule a)) RuntimeError in
  Ok (mkStatus (n_captured_nodes native) (n_published_sequence native) (n_consumed_sequence native)
    (n_completed_sequence native) (n_overflow_sequence native)
    (has_flag fl _GRAPH_STATUS_CAPTURE_CONFIGURED) (has_flag fl _GRAPH_STATUS_POLLING_ENABLED)
    (has_flag fl _GRAPH_STATUS_HOST_NATIVE_ATOMICS) (has_flag fl _GRAPH_STATUS_SUBMIT_AFFINITY_VERIFIED)
    (has_flag fl _GRAPH_STATUS_PROGRESS_AFFINITY_VERIFIED)
    (cpu_of_plus_one (graph_submit_cpu_plus_one native)) (cpu_of_plus_one (graph_progress_cpu_plus_one native))
    native_deferred native_graph_kernel (native_wire_schedule fl)).

Definition graph_status (s : _NativeSession) : proc world GraphReplayStatus :=
  let! _ := plift (require (graph_only (_args s)) RuntimeError) in
  let! native := fun w => let '(n, w) := native_graph_status (_handle s) w in (Ret n, w) in
  match native with
  | None => praise RuntimeError
  | Some native => plift (attested_status (_args s) native)
  end.

End Session.

(** ** A concrete library

    Sessions are numbered; running one returns the tensor it is given, unless the
    library is broken. *)
Definition sample_native (broken : bool) : Native := {|
  world := Z;
  handle := Z;
  load_library _ := Ok tt;
  exports _ := true;
  create_session _ w := (Some w, w + 1);
  native_all_reduce _ t _ w := (if broken then None else Some t, w);
  native_capture _ t _ _ w := (if broken then None else Some t, w);
  native_graph_status _ w := (None, w);
  original_all_reduce t w := (Ok t, w);
  empty_like t := t;
  empty_unbind slots _ := repeat (mkTensor [] [] 0 true true []) (Z.to_nat slots);
  isclose := Z.eqb
|}.

(** ** What the library is told *)

Section Config.
Context `{HP : Provider, HN : Native}.

Lemma session_ports_valid env a ports : session_ports env a = Ok ports -> validate_control_port_pair ports = Ok ports.
Proof.
  unfold session_ports. destruct (control_ports a) as [p|].
  - intros (q & Hq & Hrun)%rbind_ok. apply rbind_ok in Hrun as (u & _ & [= <-]).
    pose proof Hq as Hq'. apply validate_pair_ok in Hq as [-> _]. exact Hq'.
  - unfold _control_ports, eager_allreduce_ports_for_payload. intros (regimes & _ & Hrun)%rbind_ok.
    apply rbind_ok in Hrun as (slot & _ & Hrun). apply rbind_ok in Hrun as (b0 & _ & Hrun).
    apply rbind_ok in Hrun as (b1 & _ & Hrun). pose proof Hrun as Hq. apply validate_pair_ok in Hrun as [-> _]. exact Hq.
Qed.

(** Creating functions that take fewer wire codes are only used for sessions whose
    other settings are the defaults of the library. *)
Definition implied_wire (w : list Z) : list Z :=
  match w with [] => [0; 0; 0] | [p] => [p; 0; 0] | [p; k] => [p; k; 0] | _ => w end.

Ltac table_cases H :=
  apply bool_decide_eq_true in H; simpl in H; repeat (apply elem_of_cons in H as [->|H]); try by apply elem_of_nil in H.

Lemma create_wire_codes a w :
  in_table _ALLREDUCE_PROTOCOL_WIRE (allreduce_protocol a) = true ->
  in_table _GRAPH_KERNEL_WIRE (graph_kernel_strategy a) = true ->
  in_table _WIRE_SCHEDULE_WIRE (wire_schedule a) = true ->
  create_wire a = Ok w ->
  exists p k s, wire_code _ALLREDUCE_PROTOCOL_WIRE (allreduce_protocol a) = Ok p /\
    wire_code _GRAPH_KERNEL_WIRE (graph_kernel_strategy a) = Ok k /\
    wire_code _WIRE_SCHEDULE_WIRE (wire_schedule a) = Ok s /\ implied_wire w = [p; k; s].
Proof.
  unfold create_wire. destruct (use_v2_geometry a); intros Hp Hk Hs;
  revert Hp Hk Hs; generalize (allreduce_protocol a) (graph_kernel_strategy a) (wire_schedule a); intros p k s Hp Hk Hs;
  table_cases Hp; table_cases Hk; table_cases Hs; intros [= <-]; repeat eexists.
Qed.

(** Session request: what is passed to the library for an accepted session is
    what was asked for: the rank and the control ports fit their fields and are
    legal and different, the wire codes (completed by the defaults of the shorter
    creating functions) are those of the protocol, kernel and schedule, a graph
    session alone carries CPUs, and they are exact up to the width of the field. *)
Theorem session_request_exact env rank a request outputs ports :
  prepare env rank a = Ok (request, outputs, ports) ->
  let c := config request in
  c_rank c = rank /\ 0 <= rank <= 3 /\
  (c_control_port0 c, c_control_port1 c) = ports /\ fst ports <> snd ports /\
  1 <= fst ports <= 65535 /\ 1 <= snd ports <= 65535 /\
  (exists p k s, wire_code _ALLREDUCE_PROTOCOL_WIRE (allreduce_protocol a) = Ok p /\
     wire_code _GRAPH_KERNEL_WIRE (graph_kernel_strategy a) = Ok k /\
     wire_code _WIRE_SCHEDULE_WIRE (wire_schedule a) = Ok s /\ implied_wire (wire request) = [p; k; s]) /\
  match graph_cpu_affinity a with
  | None => graph_only a = false /\ c_graph_submit_cpu_plus_one c = 0 /\ c_graph_progress_cpu_plus_one c = 0
  | Some (submit, progress) => graph_only a = true /\
      (0 <= submit < 2 ^ 32 - 1 -> c_graph_submit_cpu_plus_one c = submit + 1) /\
      (0 <= progress < 2 ^ 32 - 1 -> c_graph_progress_cpu_plus_one c = progress + 1)
  end.
Proof.
  unfold prepare. intros (u & Hcheck & Hrun)%rbind_ok. apply rbind_ok in Hrun as (ps & Hports & Hrun).
  apply rbind_ok in Hrun as (path & _ & Hrun). apply rbind_ok in Hrun as (u1 & _ & Hrun).
  apply rbind_ok in Hrun as (u2 & _ & Hrun). apply rbind_ok in Hrun as (out & _ & Hrun).
  apply rbind_ok in Hrun as (c & Hc & Hrun). apply rbind_ok in Hrun as (w & Hw & Hrun). injection Hrun as <- <- <-.
  apply session_ports_valid, validate_pair_ok in Hports as (_ & H0 & H1 & Hne).
  unfold check_args in Hcheck. apply rbind_ok in Hcheck as (v0 & Hrank%require_ok & Hcheck).
  apply rbind_ok in Hcheck as (v1 & _ & Hcheck). apply rbind_ok in Hcheck as (v2 & _ & Hcheck).
  apply rbind_ok in Hcheck as (v3 & _ & Hcheck). apply rbind_ok in Hcheck as (v4 & Haff%require_ok & Hcheck).
  apply rbind_ok in Hcheck as (v5 & Hprot%require_ok & Hcheck). apply rbind_ok in Hcheck as (v6 & Hkern%require_ok & Hcheck).
  apply rbind_ok in Hcheck as (v7 & Hsched%require_ok & Hcheck). bool_prop. apply eqb_prop in Haff.
  unfold make_config in Hc. destruct (_DEFAULT_PEERS !! Z.to_nat rank) as [[peer0 peer1]|]; [|done].
  destruct (default (-1, -1) (graph_cpu_affinity a)) as [submit progress] eqn:Eaff.
  apply rbind_ok in Hc as (g0 & _ & Hc). apply rbind_ok in Hc as (g1 & _ & Hc). injection Hc as <-. cbn [config wire].
  simpl. unfold u32, u16. rewrite !Z.mod_small by lia. split_and!; [done|lia|lia|by destruct ps|done|lia|lia|lia|lia| |].
  - exact (create_wire_codes _ _ Hprot Hkern Hsched Hw).
  - destruct (graph_cpu_affinity a) as [[s p]|]; simpl in Eaff; injection Eaff as <- <-.
    + split_and!; [done|intros; apply Z.mod_small; lia..].
    + split_and!; done.
Qed.
End Config.

Definition sample_environ : environment :=
  vars [("SPARK_TP4_LIBRARY", "/opt/libspark_tp4.so"); ("VLLM_SPARK_TP4_MODE", "custom")]%string.
Definition graph_args (submit_cpu : Z) : session_args :=
  mkArgs (6 * _BYTES_PER_ROW) (Some (9970, 9971)) true (Some (submit_cpu, 9)) _TWO_SLOT_DEFERRED_ACK_PROTOCOL _SPLIT_64K_GRAPH_KERNEL
    _SEQUENTIAL_WIRE_SCHEDULE _BYTES_PER_ROW.
Definition graph_request (submit_cpu : Z) : result _ :=
  @prepare no_provider (sample_native false) sample_environ 2 (graph_args submit_cpu).

Lemma session_request_exact_witness :
  match graph_request 8 with
  | Ok (request, _, ports) =>
      entry request = "spark_tp4_create_with_protocol_and_graph_kernel"%string /\ wire request = [1; 1] /\
      ports = (9970, 9971) /\ fst ports <> snd ports /\ c_graph_submit_cpu_plus_one (config request) = 9
  | Raise _ => False
  end.
Proof.
  destruct (graph_request 8) as [[[request out] ports]|] eqn:E; [|vm_compute in E; done].
  pose proof (@session_request_exact no_provider (sample_native false) sample_environ 2 (graph_args 8) request out ports E)
    as (_ & _ & _ & Hne & _ & _ & _ & _ & Hsubmit & _).
  vm_compute in E. injection E as <- _ <-. split_and!; [reflexivity..|exact Hne|]. apply Hsubmit. lia.
Defined.

(** The largest CPU number is stored as if none had been asked for. *)
Example submit_cpu_wraps :
  match graph_request (2 ^ 32 - 1) with Ok (request, _, _) => c_graph_submit_cpu_plus_one (config request) | Raise _ => -1 end = 0.
Proof. vm_compute. reflexivity. Qed.
