(* ===== verification/SirclBackend.v ===== *)
(** * SIRCL: the all-reduce adapter

    [campaign-2026-08/sircl/upstream/integrations/vllm/spark_tp4_backend.py],
    second half: [_Backend] with its sessions, the eligibility of a collective,
    [install] with its guards and the replacement of [CudaCommunicator.all_reduce]
    it installs.  The state is that of the process together with the attributes
    of the communicator that is called; log messages and the reporter's thread
    are left out. *)
From S2P Require Export SirclAudit SirclSession.
Import RowProvider.

(** The attributes of a communicator the code reads; [None] is a missing one. *)
Record communicator := mkComm {
  comm_world_size : option Z;
  comm_unique_name : list ascii;
  comm_rank_in_group : option Z
}.

Section Backend.
Context `{Provider, Native}.

Definition signature : Type := Z * list Z * list ascii.

Record _Backend := mkBackend {
  rank : Z;
  native_sessions : gmap Z _NativeSession;
  graph_q1_session : option _NativeSession;
  graph_dual_port_q40_session : option _NativeSession;
  graph_width4096_session : option _NativeSession;
  shadow_stats : gmap signature ShadowStats
}.
#[export] Instance eta_backend : Eta _Backend := fun b =>
  mkBackend (rank b) (native_sessions b) (graph_q1_session b) (graph_dual_port_q40_session b)
    (graph_width4096_session b) (shadow_stats b).

Definition new_backend (rank : Z) : _Backend := mkBackend rank ∅ None None None ∅.

(** The process: the communicator's own attributes ([_spark_tp4_native] and its
    event counters), the module's tables, whether [CudaCommunicator.all_reduce]
    is already the replacement, the audit with the limit it was
    imported with, the rank of the status reporter once started, and the rest of
    the world. *)
Record process := mkProcess {
  backend : option _Backend;
  comm_event_counts : gmap string Z;
  _graph_q1_sessions : gmap Z _NativeSession;
  _graph_dual_port_q40_sessions : gmap Z _NativeSession;
  _graph_width4096_sessions : gmap Z _NativeSession;
  _graph_event_counts : gmap string Z;
  _installed : bool;
  all_reduce_replaced : bool;
  audit_limit : Z;
  stock_audit : audit;
  reporter : option Z;
  outside : world
}.
#[export] Instance eta_process : Eta process := fun p =>
  mkProcess (backend p) (comm_event_counts p) (_graph_q1_sessions p) (_graph_dual_port_q40_sessions p)
    (_graph_width4096_sessions p) (_graph_event_counts p) (_installed p) (all_reduce_replaced p) (audit_limit p) (stock_audit p)
    (reporter p) (outside p).

Notation M := (proc process).

(** An effect of the outside world, and one on the backend, which exists. *)
Definition run_outside {A} (m : proc world A) : M A := fun p =>
  let '(r, w) := m (outside p) in (r, p <| outside := w |>).
Definition update_backend (f : _Backend -> _Backend) : M unit :=
  pmodify (fun p => p <| backend ::= fmap f |>).

(** ** Audit, reporter, events *)

(** [ensure_status_reporter]: at most one reporter, only with a status path. *)
Definition ensure_status_reporter (env : environment) (rank : Z) : M unit :=
  if SirclAudit.enabled env then
    pmodify (fun p => match reporter p with Some _ => p | None => p <| reporter := Some rank |> end)
  else pret tt.

Definition signature_arguments (c : communicator) (t : tensor) : raw_signature :=
  mkRawSignature (Some (map VInt (t_shape t))) (Some (t_dtype t)) (VBool (t_is_cuda t)) (VBool (t_contiguous t))
    (VInt <$> comm_world_size c) (Some (comm_unique_name c)).

Definition lift_audit (f : Z -> audit -> result audit) : M unit := fun p =>
  match f (audit_limit p) (stock_audit p) with
  | Ok a => (Ret tt, p <| stock_audit := a |>)
  | Raise e => (Exn e, p)
  end.

Definition _record_stock_path (env : environment) (capturing : bool) (reason : string)
    (call : option (communicator * tensor)) : M unit :=
  let! signature := plift (if SirclAudit.enabled env
                           then match call with
                                | Some (c, t) => let* s := make_signature (signature_arguments c t) in Ok (Some s)
                                | None => Ok None
                                end
                           else Ok None) in
  let! _ := ensure_status_reporter env (default 0 (match call with Some (c, _) => comm_rank_in_group c | None => None end)) in
  lift_audit (fun limit => record_stock limit env (PyStr.text "all_reduce") capturing (PyStr.text reason) signature).

Definition incr_event (event : string) (m : gmap string Z) : gmap string Z := <[event := default 0 (m !! event) + 1]> m.

(** The count is logged with the communicator's rank the first time and every
    128 events. *)
Definition _record_graph_event (c : communicator) (event : string) : M Z :=
  let! _ := pmodify (fun p => (p <| comm_event_counts ::= incr_event event |>)
                                <| _graph_event_counts ::= incr_event event |>) in
  let! count := pget (fun p => default 0 (comm_event_counts p !! event)) in
  if (count =? 1) || (count mod 128 =? 0) then
    match comm_rank_in_group c with Some _ => pret count | None => praise AttributeError end
  else pret count.

(** ** The backend's sessions *)

Definition graph_args (a_payload_bytes : Z) (ports affinity : Z * Z) (protocol kernel schedule : list ascii)
    (a_row_bytes : Z) : session_args :=
  mkArgs a_payload_bytes (Some ports) true (Some affinity) protocol kernel schedule a_row_bytes.

Definition _graph_control_ports (env : environment) : result (Z * Z) := graph_allreduce_control_ports env.
Definition _graph_dual_port_q40_control_ports (env : environment) : result (Z * Z) :=
  graph_dual_port_q40_control_ports env.

Definition native_for (env : environment) (b : _Backend) (payload_bytes : Z) : M _NativeSession :=
  match native_sessions b !! payload_bytes with
  | Some session => pret session
  | None =>
      let! session := run_outside (new_session env (rank b) (eager_args payload_bytes)) in
      let! _ := update_backend (fun b => b <| native_sessions ::= fun m => <[payload_bytes := session]> m |>) in
      pret session
  end.

Definition prepare_sequential (h : host) (b : _Backend) : M _NativeSession :=
  let env := environ h in
  match graph_q1_session b with
  | Some session => pret session
  | None =>
      let! args := plift (
        let* affinity := _graph_preflight h in
        let* capacity := _graph_capacity_bytes env in
        let* ports := _graph_control_ports env in
        let* protocol := _graph_allreduce_protocol env in
        let* kernel := _graph_kernel_strategy env in
        Ok (graph_args capacity ports affinity protocol kernel _SEQUENTIAL_WIRE_SCHEDULE _BYTES_PER_ROW)) in
      let! session := run_outside (new_session env (rank b) args) in
      let! _ := update_backend (fun b => b <| graph_q1_session := Some session |>) in
      let! _ := pmodify (fun p => p <| _graph_q1_sessions ::= fun m => <[rank b := session]> m |>) in
      let! _ := ensure_status_reporter env (rank b) in
      pret session
  end.

Definition prepare_dual_port (h : host) (b : _Backend) : M unit :=
  let env := environ h in
  let! args := plift (
    let* ports := _graph_dual_port_q40_control_ports env in
    let* affinity := _graph_dual_port_q40_cpu_affinity h in
    Ok (graph_args _DUAL_PORT_Q40_CAPACITY_BYTES ports affinity _TWO_SLOT_DEFERRED_ACK_PROTOCOL _FUSED_GRAPH_KERNEL
          _DUAL_PORT_STRIPED_WIRE_SCHEDULE _BYTES_PER_ROW)) in
  let! session := run_outside (new_session env (rank b) args) in
  let! _ := update_backend (fun b => b <| graph_dual_port_q40_session := Some session |>) in
  pmodify (fun p => p <| _graph_dual_port_q40_sessions ::= fun m => <[rank b := session]> m |>).

Definition prepare_graph_q1 (h : host) (b : _Backend) : M _NativeSession :=
  let! session := prepare_sequential h b in
  let! dual := plift (_graph_dual_port_q40_enabled (environ h)) in
  let! _ := if (dual : bool) && negb (bool_decide (is_Some (graph_dual_port_q40_session b)))
            then prepare_dual_port h b else pret tt in
  pret session.

Definition prepare_graph_width4096 (h : host) (b : _Backend) : M _NativeSession :=
  let env := environ h in
  match graph_width4096_session b with
  | Some session => pret session
  | None =>
      let! args := plift (
        let* affinity := _graph_preflight h in
        let* ports := _graph_control_ports env in
        Ok (graph_args _RESEARCH_GRAPH_CAPACITY_BYTES ports affinity _TWO_SLOT_DEFERRED_ACK_PROTOCOL
              _TIERED_64K_GRAPH_KERNEL _SEQUENTIAL_WIRE_SCHEDULE _RESEARCH_GRAPH_ROW_BYTES)) in
      let! session := run_outside (new_session env (rank b) args) in
      let! _ := update_backend (fun b => b <| graph_width4096_session := Some session |>) in
      let! _ := pmodify (fun p => p <| _graph_width4096_sessions ::= fun m => <[rank b := session]> m |>) in
      let! _ := ensure_status_reporter env (rank b) in
      pret session
  end.

Definition graph_session_for_capture (b : _Backend) (t : tensor) : option _NativeSession :=
  if bool_decide (t_shape t = [ABSOLUTE_MAX_QUERY_ROWS; _TARGET_WIDTH])
     && bool_decide (is_Some (graph_dual_port_q40_session b))
  then graph_dual_port_q40_session b
  else graph_q1_session b.

Definition shadow_for (b : _Backend) (key : signature) : ShadowStats := default init_stats (shadow_stats b !! key).

(** ** Status snapshots *)

(** [{rank: session.graph_status().to_dict() for rank, session in sorted(...)}]. *)
Fixpoint status_items (sessions : list (Z * _NativeSession)) : proc world (list (Z * GraphReplayStatus)) :=
  match sessions with
  | [] => pret []
  | (rank, session) :: sessions =>
      let! status := graph_status session in
      let! rest := status_items sessions in
      pret ((rank, status) :: rest)
  end.

Definition sessions_snapshot (sessions : gmap Z _NativeSession) : proc world (list (Z * GraphReplayStatus)) :=
  status_items (sorted_items Z.compare sessions).

Record diagnostic := mkDiagnostic {
  d_sessions : list (Z * GraphReplayStatus);
  d_dual_port_q40_sessions : list (Z * GraphReplayStatus);
  d_width4096_sessions : list (Z * GraphReplayStatus);
  d_events : gmap string Z
}.

Definition graph_q1_diagnostic_snapshot : M diagnostic :=
  let! q1 := fun p => run_outside (sessions_snapshot (_graph_q1_sessions p)) p in
  let! dual := fun p => run_outside (sessions_snapshot (_graph_dual_port_q40_sessions p)) p in
  let! width := fun p => run_outside (sessions_snapshot (_graph_width4096_sessions p)) p in
  let! events := pget _graph_event_counts in
  pret (mkDiagnostic q1 dual width events).

(** ** Eligibility *)

Definition text_is (value : list ascii) (s : string) : bool := text_eqb value (PyStr.text s).
Definition _VALID_MODES : list (list ascii) := map PyStr.text ["shadow"; "custom"; "disabled"]%string.

(** Only the tensor-parallel group of four is served. *)
Definition served_group (c : communicator) : bool :=
  bool_decide (comm_world_size c = Some 4) && text_is (comm_unique_name c) "tp:0".

Definition _eligible (env : environment) (c : communicator) (t : tensor) (active_mode : list ascii) : result bool :=
  if negb (bool_decide (active_mode ∈ _VALID_MODES) && served_group c) then Ok false
  else let* shape_eligible := _eager_shape_eligible env (t_shape t) in Ok (shape_eligible && dense_bf16 t).

Definition _payload_bytes (t : tensor) : result Z :=
  match t_shape t with
  | [rows; width] => Ok (rows * width * _BF16_BYTES)
  | _ => Raise ValueError
  end.

Definition _collective_signature (t : tensor) : result signature :=
  let* payload := _payload_bytes t in Ok (payload, t_shape t, t_dtype t).

(** ** The replacement of [all_reduce] *)

Definition get_backend (c : communicator) : M _Backend :=
  let! b := pget backend in
  match b with
  | Some b => pret b
  | None =>
      match comm_rank_in_group c with
      | None => praise AttributeError
      | Some r =>
          let! _ := pmodify (fun p => p <| backend := Some (new_backend r) |>) in
          pret (new_backend r)
      end
  end.

(** Capturing with a prepared session; any failure ends the process. *)
Definition capture_or_exit (env : environment) (c : communicator) (session : _NativeSession) (t : tensor)
    (event : string) : M tensor :=
  or_exit (
    let! output := run_outside (capture env session t) in
    let! _ := _record_graph_event c event in
    pret output).

Definition _research_graph_all_reduce (h : host) (c : communicator) (t : tensor) (capturing : bool)
    : M (option tensor) :=
  if negb (served_group c) then pret None
  else
    let! b := get_backend c in
    if negb capturing then
      match graph_width4096_session b with
      | Some _ => pret None
      | None => let! _ := prepare_graph_width4096 h b in pret None
      end
    else if negb (_research_graph_shape_eligible (t_shape t) && dense_bf16 t) then pret None
    else
      match graph_width4096_session b with
      | None => pexit
      | Some session =>
          let! output := capture_or_exit (environ h) c session t "width4096_captured_nodes" in
          pret (Some output)
      end.

(** The stock path: recorded, then taken. *)
Definition stock (env : environment) (capturing : bool) (reason : string) (call : option (communicator * tensor))
    (t : tensor) : M tensor :=
  let! _ := _record_stock_path env capturing reason call in
  run_outside (fun w => let '(r, w) := original_all_reduce t w in
                        match r with Ok t => (Ret t, w) | Raise e => (Exn e, w) end).

Definition capture_all_reduce (h : host) (c : communicator) (t : tensor) (md : list ascii) : M tensor :=
  let env := environ h in
  let! graph_enabled := plift (if text_is md "custom" then _graph_q1_enabled env else Ok false) in
  if negb graph_enabled then stock env true "graph_transport_disabled" None t
  else
    let! target := plift (_target_shape_eligible env (t_shape t)) in
    if negb target then stock env true "graph_width_ineligible" (Some (c, t)) t
    else
      let! b := pget backend in
      match b ≫= fun b => graph_session_for_capture b t with
      | Some session => capture_or_exit env c session t "captured_nodes"
      | None =>
          let! _ := _record_graph_event c "fallbacks" in
          stock env true "graph_session_unprepared" None t
      end.

(** The eager collective on the native session of its payload. *)
Definition native_candidate (h : host) (c : communicator) (t : tensor) (md : list ascii) (payload : Z) : M tensor :=
  let env := environ h in
  let! graph_enabled := plift (if text_is md "custom" then _graph_q1_enabled env else Ok false) in
  let! b := get_backend c in
  let! _ := if graph_enabled then let! _ := prepare_graph_q1 h b in pret tt else pret tt in
  let! b := get_backend c in
  let! session := native_for env b payload in
  let '(output, session) := acquire_output session t in
  let! _ := update_backend (fun b => b <| native_sessions ::= fun m => <[payload := session]> m |>) in
  let! output := plift output in
  run_outside (run_all_reduce session output t).

Definition shadow_promote (env : environment) : bool := env_is env "SPARK_TP4_SHADOW_PROMOTE" "1" "0".
Definition shadow_strict (env : environment) : bool :=
  match env "SPARK_TP4_SHADOW_STRICT" with Some v => text_is v "1" | None => false end.

Definition put_shadow (key : signature) (shadow : ShadowStats) : M unit :=
  update_backend (fun b => b <| shadow_stats ::= fun m => <[key := shadow]> m |>).

(** One comparison of the shadow mode: [observe] has changed the statistics even
    when a later line raises. *)
Definition shadow_compare (env : environment) (key : signature) (candidate reference : tensor) : M tensor :=
  let! b := pget backend in
  let shadow := match b with Some b => shadow_for b key | None => init_stats end in
  let! limit := plift (int_env env "SPARK_TP4_SHADOW_COLLECTIVES" "10000") in
  if negb (count shadow <? limit) then pret reference
  else
    let! shadow := plift (observe isclose (t_data candidate) (t_data reference) shadow) in
    let! _ := put_shadow key shadow in
    if negb (count shadow =? limit) then pret reference
    else
      let! t := plift (report shadow) in
      let! passed := plift (_shadow_result_passed env (outside_tolerance t) (nonfinite_mismatches t) (maximum_ulp_error t)) in
      let! _ := put_shadow key (shadow <| validated := passed |>) in
      if negb passed && shadow_strict env then praise RuntimeError else pret reference.

Definition eager_all_reduce (h : host) (c : communicator) (t : tensor) (md : list ascii) : M tensor :=
  let env := environ h in
  let! payload := plift (_payload_bytes t) in
  let! key := plift (_collective_signature t) in
  let! b := get_backend c in
  let promoted := text_is md "shadow" && validated (shadow_for b key) && shadow_promote env in
  let! candidate := or_exit (native_candidate h c t md payload) in
  if text_is md "custom" || promoted then pret candidate
  else
    let! reference := stock env false "shadow_reference" None t in
    let! _ := plift (require (text_is md "shadow") AssertionError) in
    shadow_compare env key candidate reference.

Definition research_route (h : host) (c : communicator) (t : tensor) (capturing : bool) (md : list ascii)
    : M (option tensor) :=
  let! research := plift (if text_is md "custom" then _graph_width4096_research_enabled (environ h) else Ok false) in
  if research : bool then _research_graph_all_reduce h c t capturing else pret None.

Definition spark_all_reduce (h : host) (c : communicator) (t : tensor) (capturing : bool) : M tensor :=
  let env := environ h in
  let! md := plift (mode env) in
  let! handled := research_route h c t capturing md in
  match handled with
  | Some output => pret output
  | None =>
      let! eligible := plift (_eligible env c t md) in
      if negb eligible then stock env capturing "ineligible_signature" (Some (c, t)) t
      else if capturing then capture_all_reduce h c t md
      else eager_all_reduce h c t md
  end.

(** ** Installation *)

(** The combinations of settings that are refused. *)
Definition install_guards (env : environment) (md : list ascii) : result unit :=
  let* graph_protocol := _graph_allreduce_protocol env in
  let* graph_kernel := _graph_kernel_strategy env in
  let* graph_dual_port_q40 := _graph_dual_port_q40_enabled env in
  let* research := _graph_width4096_research_enabled env in
  let custom := text_is md "custom" in
  let* _ := if research : bool then
              let* _ := require custom ValueError in
              let* graph := _graph_q1_enabled env in
              require (negb (graph || graph_dual_port_q40)) ValueError
            else Ok tt in
  let custom_graph := if custom then _graph_q1_enabled env else Ok false in
  let* _ := if text_eqb graph_protocol _TWO_SLOT_DEFERRED_ACK_PROTOCOL then
              let* ok := custom_graph in require ok ValueError
            else Ok tt in
  let* _ := if negb (text_eqb graph_kernel _FUSED_GRAPH_KERNEL) then
              let* ok := custom_graph in require ok ValueError
            else Ok tt in
  if graph_dual_port_q40 : bool then
    let* ok := custom_graph in require (ok && (MAX_QUERY_ROWS =? ABSOLUTE_MAX_QUERY_ROWS)) ValueError
  else Ok tt.

Definition install_checks (env : environment) : result unit :=
  let* _ := _eager_admitted_widths env in
  let* _ := _prefill_q512_enabled env in
  let* _ := query_rows env in
  let* _ := validate_active_port_namespace env in
  Ok tt.

Definition install (h : host) : M unit :=
  let env := environ h in
  let! md := plift (mode env) in
  let! _ := plift (install_guards env md) in
  let! installed := pget _installed in
  if (installed : bool) || bool_decide (md = []) || text_is md "disabled" then pret tt
  else
    let! _ := plift (install_checks env) in
    pmodify (fun p => (p <| all_reduce_replaced := true |>) <| _installed := true |>).

End Backend.

(** ** Sample runs *)
Definition sample_process `{Native} (w : world) : process :=
  mkProcess None ∅ ∅ ∅ ∅ ∅ false false 4 empty_audit None w.

Definition sample_comm : communicator := mkComm (Some 4) (PyStr.text "tp:0") (Some 2).
Definition sample_tensor (rows width : Z) : tensor :=
  mkTensor [rows; width] (PyStr.text "torch.bfloat16") 0 true true [0x3F80; 0x4000].

Definition sample_host (l : list (string * string)) : host :=
  mkHost (vars ([("SPARK_TP4_LIBRARY", "/opt/libspark_tp4.so"); ("SPARK_TP4_GRAPH_STATUS_PATH", "/run/status.json");
                 ("SPARK_TP4_GRAPH_SUBMIT_CPU", "8"); ("SPARK_TP4_GRAPH_PROGRESS_CPU", "9");
                 ("VLLM_SPARK_SHARED_CAPTURE_STREAM", "1")]%string ++ l))
    [PyStr.text "serve"; PyStr.text "--kv-cache-memory-bytes"; PyStr.text "1000000"] (PyStr.text "linux").

Definition custom_host : host :=
  sample_host [("VLLM_SPARK_TP4_MODE", "custom"); ("VLLM_SPARK_TP4_GRAPH_Q1", "1")]%string.

(** One collective after another; the outcomes and the last state. *)
Fixpoint outcomes `{Provider, Native} (h : host) (calls : list (tensor * bool)) (p : process)
    : list (outcome tensor) * process :=
  match calls with
  | [] => ([], p)
  | (t, capturing) :: calls =>
      let '(o, p) := spark_all_reduce h sample_comm t capturing p in
      let '(os, p) := outcomes h calls p in (o :: os, p)
  end.

(** The eager sessions of a process with their ports, and the ports of its
    research session. *)
Definition eager_ports `{Native} (p : process) : list (Z * (Z * Z)) :=
  match backend p with Some b => map (fun e => (fst e, _ports (snd e))) (map_to_list (native_sessions b)) | None => [] end.
Definition research_ports `{Native} (p : process) : option (Z * Z) :=
  b ← backend p; s ← graph_width4096_session b; Some (_ports s).

Definition fresh (broken : bool) : @process (sample_native broken) := @sample_process (sample_native broken) 0.

(** Eager, captured, and not admitted: the eager session and the stock record. *)
Example custom_run :
  let '(os, p) := @outcomes no_provider (sample_native false) custom_host
    [(sample_tensor 2 6144, false); (sample_tensor 4 6144, true); (sample_tensor 2 100, false)] (fresh false) in
  map (fun o => match o with Ret t => t_shape t | _ => [] end) os = [[2; 6144]; [4; 6144]; [2; 100]] /\
  @eager_ports (sample_native false) p = [(24576, (11002, 11003))] /\
  map snd (SirclAudit.eager (stock_collective_snapshot 4 (@stock_audit (sample_native false) p))) = [1].
Proof. vm_compute. repeat split; reflexivity. Qed.

(** With a library that fails, the process ends. *)
Example broken_run :
  fst (@outcomes no_provider (sample_native true) custom_host [(sample_tensor 2 6144, false)] (fresh true)) = [Exit].
Proof. vm_compute. reflexivity. Qed.

(** Switching an installed adapter off at run time runs the native collective and
    the stock one, and then fails the assertion. *)
Example disabled_at_run_time :
  let '(os, p) := @outcomes no_provider (sample_native false)
    (sample_host [("VLLM_SPARK_TP4_MODE", "disabled")]%string) [(sample_tensor 2 6144, false)] (fresh false) in
  os = [Exn AssertionError] /\ map fst (@eager_ports (sample_native false) p) = [24576].
Proof. vm_compute. split; reflexivity. Qed.

(** The ports of the research session are not among the reservations: a graph pair
    inside the eager range is accepted, and used twice. *)
Definition research_host : host :=
  sample_host [("VLLM_SPARK_TP4_MODE", "custom"); ("VLLM_SPARK_TP4_GRAPH_WIDTH4096_RESEARCH", "1");
               ("SPARK_TP4_GRAPH_CONTROL_PORT0", "11002"); ("SPARK_TP4_GRAPH_CONTROL_PORT1", "11003")]%string.

Example research_ports_collide :
  fst (@install no_provider (sample_native false) research_host (fresh false)) = Ret tt /\
  let p := snd (@outcomes no_provider (sample_native false) research_host [(sample_tensor 2 6144, false)] (fresh false)) in
  @research_ports (sample_native false) p = Some (11002, 11003) /\
  @eager_ports (sample_native false) p = [(24576, (11002, 11003))].
Proof. vm_compute. repeat split; reflexivity. Qed.
