(* ===== verification/SirclDispatch.v ===== *)
(** * SIRCL: the all-reduce adapter is fail-closed and audited

    Theorems on [SirclBackend.spark_all_reduce] over any native library: every
    collective that takes the stock path is recorded once, and a failed native call
    never ends in a result or in a silent fall-back. *)
From S2P Require Export SirclBackend.
Import RowProvider.

(** ** Observing the outside world

    The calls a world has seen, with their success.  Any library can be
    instrumented so ([traced]). *)
Inductive event :=
  | Created (ok : bool)
  | Reduced (ok : bool)
  | Captured (ok : bool)
  | Stock.

#[export] Instance event_eq_dec : EqDecision event.
Proof. solve_decision. Defined.

Definition ok_of {A} (o : option A) : bool := match o with Some _ => true | None => false end.

Class Observed `{Native} := {
  events : world -> list event;
  created_event r w : events (snd (create_session r w)) = events w ++ [Created (ok_of (fst (create_session r w)))];
  reduced_event h t o w : events (snd (native_all_reduce h t o w)) = events w ++ [Reduced (ok_of (fst (native_all_reduce h t o w)))];
  captured_event h t o q w :
    events (snd (native_capture h t o q w)) = events w ++ [Captured (ok_of (fst (native_capture h t o q w)))];
  stock_event t w : events (snd (original_all_reduce t w)) = events w ++ [Stock]
}.

(** A library with a log in front of its world. *)
Definition logged {A W} (e : A -> event) (m : W -> A * W) (w : W * list event) : A * (W * list event) :=
  let '(a, w') := m (fst w) in (a, (w', snd w ++ [e a])).

Definition traced (N : Native) : Native := {|
  world := @world N * list event;
  handle := @handle N;
  load_library := @load_library N;
  exports := @exports N;
  create_session r := logged (fun h => Created (ok_of h)) (@create_session N r);
  native_all_reduce h t o := logged (fun r => Reduced (ok_of r)) (@native_all_reduce N h t o);
  native_capture h t o q := logged (fun r => Captured (ok_of r)) (@native_capture N h t o q);
  native_graph_status h w := let '(r, w') := @native_graph_status N h (fst w) in (r, (w', snd w));
  original_all_reduce t := logged (fun _ => Stock) (@original_all_reduce N t);
  empty_like := @empty_like N;
  empty_unbind := @empty_unbind N;
  isclose := @isclose N
|}.

Lemma logged_event {A W} (e : A -> event) (m : W -> A * W) w :
  snd (snd (logged e m w)) = snd w ++ [e (fst (logged e m w))].
Proof. unfold logged. by destruct (m (fst w)). Qed.

#[export] Instance traced_observed (N : Native) : @Observed (traced N).
Proof.
  refine {| events := snd : @world (traced N) -> list event |}; intros.
  - exact (logged_event (fun h => Created (ok_of h)) (@create_session N r) w).
  - exact (logged_event (fun o => Reduced (ok_of o)) (@native_all_reduce N h t o) w).
  - exact (logged_event (fun o => Captured (ok_of o)) (@native_capture N h t o q) w).
  - exact (logged_event (fun _ => Stock) (@original_all_reduce N t) w).
Defined.

Section Dispatch.
Context `{HP : Provider, HN : Native, !Observed}.

(** ** World-level specifications *)

(** Creating a session, running one and capturing add events of their own kind;
    a value is only returned after success. *)
Definition adds (E : list event -> Prop) (Q : list event -> Prop) {A} (m : proc world A) : Prop :=
  forall w, exists new, events (snd (m w)) = events w ++ new /\
    match fst (m w) with Ret _ => Q new | _ => E new end.

Lemma new_session_adds env rank a :
  adds (fun new => new = [] \/ new = [Created false]) (fun new => new = [Created true]) (new_session env rank a).
Proof.
  intros w. unfold new_session, pbind, plift. destruct (prepare env rank a) as [[[request outputs] ports]|e]; simpl.
  - pose proof (created_event request w) as He. destruct (create_session request w) as [[h|] w'] eqn:E; simpl in *;
      (eexists; split; [exact He|]); auto.
  - exists []. by rewrite app_nil_r; auto.
Qed.

Lemma run_all_reduce_adds s o t :
  adds (fun new => new = [Reduced false]) (fun new => new = [Reduced true]) (run_all_reduce s o t).
Proof.
  intros w. unfold run_all_reduce. pose proof (reduced_event (_handle s) t o w) as He.
  destruct (native_all_reduce _ _ _ w) as [[x|] w'] eqn:E; simpl in *; (eexists; split; [exact He|]); auto.
Qed.

Lemma capture_adds env s t :
  adds (fun new => new = [] \/ new = [Captured false]) (fun new => new = [Captured true]) (capture env s t).
Proof.
  intros w. unfold capture, pbind, plift. destruct (check_capture env s t) as [q|e]; simpl.
  - pose proof (captured_event (_handle s) t (empty_like t) (u32 q) w) as He.
    destruct (native_capture _ _ _ _ w) as [[x|] w'] eqn:E; simpl in *; (eexists; split; [exact He|]); auto.
  - exists []. by rewrite app_nil_r; auto.
Qed.

(** ** Walking through the adapter

    An assertion [I] that only looks at the audit and the outside world is kept by
    everything that does not touch them; [E] and [X] are what is left of it after
    an exception and at an exit. *)
Section Frame.
Context (I E X : process -> Prop).

Notation framed m := (spec I m (fun _ => I) E X).

Record frame : Prop := {
  frame_exn p : I p -> E p;
  frame_exit p : I p -> X p;
  frame_modify (f : process -> process) p :
    stock_audit (f p) = stock_audit p -> outside (f p) = outside p -> I p -> I (f p);
  frame_new_session env rank a : framed (run_outside (new_session env rank a))
}.

Context (HF : frame).

Lemma framed_ret {A} (a : A) : framed (pret a).
Proof. by apply spec_ret. Qed.
Lemma framed_raise {A} e : framed (praise (A := A) e).
Proof. apply spec_raise, HF. Qed.
Lemma framed_exit {A} : framed (pexit (A := A)).
Proof. apply spec_exit, HF. Qed.
Lemma framed_get {A} (f : process -> A) : framed (pget f).
Proof. by apply spec_get. Qed.
Lemma framed_lift {A} (m : result A) : framed (plift m).
Proof. apply spec_lift; [done|apply HF]. Qed.
Lemma framed_modify f :
  (forall p, stock_audit (f p) = stock_audit p) -> (forall p, outside (f p) = outside p) -> framed (pmodify f).
Proof. intros Ha Ho. apply spec_modify. intros p Hp. by apply HF. Qed.
Lemma framed_new_session env rank a : framed (run_outside (new_session env rank a)).
Proof. apply HF. Qed.
#[local] Hint Resolve framed_ret framed_raise framed_exit framed_get framed_lift framed_new_session : proc.
#[local] Hint Extern 5 (spec _ (pmodify _) _ _ _) => (apply framed_modify; done) : proc.
#[local] Hint Extern 5 (spec _ (update_backend _) _ _ _) => (apply framed_modify; done) : proc.

Lemma framed_reporter env r : framed (ensure_status_reporter env r).
Proof. unfold ensure_status_reporter. keep. apply framed_modify; intros p; by destruct (reporter p). Qed.
Lemma framed_event c e : framed (_record_graph_event c e).
Proof. unfold _record_graph_event. keep. Qed.
Lemma framed_get_backend c : framed (get_backend c).
Proof. unfold get_backend. keep. Qed.
#[local] Hint Resolve framed_reporter framed_event framed_get_backend : proc.

Lemma framed_native_for env b x : framed (native_for env b x).
Proof. unfold native_for. keep. Qed.
Lemma framed_prepare_q1 h b : framed (prepare_graph_q1 h b).
Proof. unfold prepare_graph_q1, prepare_sequential, prepare_dual_port. cbv zeta. keep. Qed.
Lemma framed_prepare_width4096 h b : framed (prepare_graph_width4096 h b).
Proof. unfold prepare_graph_width4096. cbv zeta. keep. Qed.
Lemma framed_compare env key x y : framed (shadow_compare env key x y).
Proof. unfold shadow_compare, put_shadow. cbv zeta. keep. Qed.
#[local] Hint Resolve framed_native_for framed_prepare_q1 framed_prepare_width4096 framed_compare : proc.

Lemma framed_candidate h c t md x :
  (forall s o t, framed (run_outside (run_all_reduce s o t))) -> framed (native_candidate h c t md x).
Proof. intros Hrun. unfold native_candidate. cbv zeta. keep. Qed.

Lemma framed_block env c s t ev :
  framed (run_outside (capture env s t)) ->
  framed (let! output := run_outside (capture env s t) in
          let! _ := _record_graph_event c ev in pret output).
Proof. intros Hcap. keep. Qed.

(** The whole of [spark_all_reduce], when the blocks that end the process on a
    failure and the stock path are framed. *)
Hypothesis framed_capture : forall env c s t ev, framed (capture_or_exit env c s t ev).
Hypothesis framed_block_candidate : forall h c t md x, framed (or_exit (native_candidate h c t md x)).
#[local] Hint Resolve framed_capture framed_block_candidate : proc.
#[local] Hint Extern 1 (spec _ (or_exit (native_candidate _ _ _ _ _)) _ _ _) => (apply framed_block_candidate) : proc.

Context (h : host).

Lemma framed_research c t capturing md : framed (research_route h c t capturing md).
Proof. unfold research_route, _research_graph_all_reduce. keep. Qed.

Hypothesis framed_stock : forall capturing reason call t, framed (stock (environ h) capturing reason call t).
#[local] Hint Resolve framed_research framed_stock : proc.

Lemma framed_capture_all_reduce c t md : framed (capture_all_reduce h c t md).
Proof. unfold capture_all_reduce. cbv zeta. keep. Qed.

Lemma framed_eager c t md : framed (eager_all_reduce h c t md).
Proof.
  unfold eager_all_reduce. cbv zeta. repeat (apply (spec_bind I E X _ _ (fun _ => I)); [solve [auto with proc]|intros ?]).
  keep.
Qed.

Lemma framed_spark c t capturing : framed (spark_all_reduce h c t capturing).
Proof.
  unfold spark_all_reduce. cbv zeta. pose proof framed_capture_all_reduce. pose proof framed_eager. keep; auto.
Qed.

End Frame.

Arguments frame_exn {I E X}.

(** The blocks around native calls, from what their own steps keep. *)
Lemma framed_blocks I E X :
  frame I X X ->
  (forall s o t, spec I (run_outside (run_all_reduce s o t)) (fun _ => I) X X) ->
  (forall env s t, spec I (run_outside (capture env s t)) (fun _ => I) X X) ->
  (forall env c s t ev, spec I (capture_or_exit env c s t ev) (fun _ => I) E X) /\
  (forall h c t md x, spec I (or_exit (native_candidate h c t md x)) (fun _ => I) E X).
Proof.
  intros HF Hrun Hcap. split.
  - intros. apply spec_or_exit, framed_block; [exact HF|apply Hcap].
  - intros. apply spec_or_exit, framed_candidate; [exact HF|apply Hrun].
Qed.

(** ** Every stock collective is recorded *)

Definition count_events (f : event -> bool) (p : process) : nat := length (List.filter f (events (outside p))).
Definition is_stock (e : event) : bool := match e with Stock => true | _ => false end.

Definition stock_calls (p : process) : Z := Z.of_nat (count_events is_stock p).
Definition recorded_calls (p : process) : Z :=
  SirclAudit.total (SirclAudit._counts (capture_phase (stock_audit p)))
  + SirclAudit.total (SirclAudit._counts (eager_phase (stock_audit p))).

(** Events without [f] leave its count alone. *)
Definition none_of (f : event -> bool) (l : list event) : Prop := Forall (fun e => f e = false) l.

Lemma count_events_app f p w new :
  events w = events (outside p) ++ new -> none_of f new -> count_events f (p <| outside := w |>) = count_events f p.
Proof.
  intros He Hno. unfold count_events. simpl. rewrite He, List.filter_app, length_app.
  replace (List.filter f new) with (@nil event); [apply Nat.add_0_r|].
  symmetry. clear He. induction Hno as [|e new He _ IH]; [done|]. simpl. by rewrite He.
Qed.

Lemma outside_step {A} (I E X : process -> Prop) (m : proc world A) (En Qn : list event -> Prop) :
  adds En Qn m ->
  (forall new p w, events w = events (outside p) ++ new -> Qn new -> I p -> I (p <| outside := w |>)) ->
  (forall new p w, events w = events (outside p) ++ new -> En new -> I p ->
     E (p <| outside := w |>) /\ X (p <| outside := w |>)) ->
  spec I (run_outside m) (fun _ => I) E X.
Proof.
  intros Hm HQ HE p Hp. unfold run_outside. destruct (Hm (outside p)) as (new & He & Hnew).
  destruct (m (outside p)) as [r w]. simpl in He, Hnew. destruct r as [a|e|]; [eauto|by eapply HE..].
Qed.

(** [balance K]: [K] more records than stock calls; [stocked K]: [K] stock calls. *)
Definition balance (K : Z) (p : process) : Prop := recorded_calls p - stock_calls p = K.
Definition stocked (K : Z) (p : process) : Prop := stock_calls p = K.

(** Native calls are no stock calls. *)
Lemma native_no_stock p w new :
  events w = events (outside p) ++ new ->
  new = [] \/ (exists b, new = [Created b] \/ new = [Reduced b] \/ new = [Captured b]) ->
  stock_calls (p <| outside := w |>) = stock_calls p.
Proof.
  intros He Hnew. unfold stock_calls. f_equal. eapply count_events_app; [exact He|].
  destruct Hnew as [->|(b & [->|[->| ->]])]; repeat constructor.
Qed.

Definition native_assertion (I : process -> Prop) : Prop :=
  forall p w, stock_calls (p <| outside := w |>) = stock_calls p -> I p -> I (p <| outside := w |>).

Lemma balance_native K : native_assertion (balance K).
Proof. intros p w Hs Hp. unfold balance, recorded_calls in *. rewrite Hs. exact Hp. Qed.
Lemma stocked_native K : native_assertion (stocked K).
Proof. intros p w Hs Hp. unfold stocked in *. by rewrite Hs. Qed.

Lemma native_keeps {A} I (m : proc world A) En Qn :
  native_assertion I -> adds En Qn m ->
  (forall new, En new \/ Qn new -> new = [] \/ (exists b, new = [Created b] \/ new = [Reduced b] \/ new = [Captured b])) ->
  keeps I (run_outside m).
Proof.
  intros HI Hm Hnew. eapply outside_step; [exact Hm|intros new p w He Hn Hp..]; [|split];
    (apply HI; [eapply native_no_stock; [exact He|apply Hnew; auto]|done]).
Qed.

Lemma native_steps I :
  native_assertion I ->
  (forall env rank a, keeps I (run_outside (new_session env rank a))) /\
  (forall s o t, keeps I (run_outside (run_all_reduce s o t))) /\
  (forall env s t, keeps I (run_outside (capture env s t))).
Proof.
  intros HI. split_and!; intros;
    (eapply native_keeps; [exact HI|first [apply new_session_adds|apply run_all_reduce_adds|apply capture_adds]|]);
    naive_solver.
Qed.

Lemma native_frame I :
  native_assertion I ->
  (forall f p, stock_audit (f p) = stock_audit p -> outside (f p) = outside p -> I p -> I (f p)) -> frame I I I.
Proof. intros HI Hmod. split; [done|done|done|]. intros. by apply native_steps. Qed.

Lemma balance_frame K : frame (balance K) (balance K) (balance K).
Proof.
  apply native_frame; [apply balance_native|]. intros f p Ha Ho Hp.
  unfold balance, recorded_calls, stock_calls, count_events in *. by rewrite Ha, Ho.
Qed.
Lemma stocked_frame K : frame (stocked K) (stocked K) (stocked K).
Proof.
  apply native_frame; [apply stocked_native|]. intros f p Ha Ho Hp.
  unfold stocked, stock_calls, count_events in *. by rewrite Ho.
Qed.

(** Recording adds one to the counters of its phase. *)
Lemma record_stock_total limit env family capturing reason sig a a' :
  SirclAudit.enabled env = true -> record_stock limit env family capturing reason sig a = Ok a' ->
  SirclAudit.total (SirclAudit._counts (capture_phase a')) + SirclAudit.total (SirclAudit._counts (eager_phase a')) =
  SirclAudit.total (SirclAudit._counts (capture_phase a)) + SirclAudit.total (SirclAudit._counts (eager_phase a)) + 1.
Proof.
  assert (forall q, SirclAudit.total (SirclAudit._counts (record_phase limit family reason sig q)) =
    SirclAudit.total (SirclAudit._counts q) + 1) as Hphase.
  { intros q. unfold record_phase. rewrite <- (total_incr (family_reason family reason)).
    destruct sig as [sig|]; [|done]. unfold record_signature. by repeat case_match. }
  intros Hen. unfold record_stock. rewrite Hen. simpl. intros (u & _ & Heq)%rbind_ok.
  injection Heq as <-. destruct capturing; simpl; rewrite Hphase; lia.
Qed.

Lemma balance_record K env capturing reason call :
  SirclAudit.enabled env = true ->
  spec (balance K) (_record_stock_path env capturing reason call) (fun _ => balance (K + 1)) (balance K) (balance K).
Proof.
  intros Hen. unfold _record_stock_path. eapply spec_bind; [apply keeps_lift|intros sig].
  eapply spec_bind; [apply framed_reporter, balance_frame|intros u]. intros p Hp. unfold lift_audit.
  destruct (record_stock _ _ _ _ _ _ _) as [a|e] eqn:E; [|done].
  apply record_stock_total in E; [|done]. unfold balance, recorded_calls, stock_calls, count_events in *. simpl. lia.
Qed.

Lemma balance_stock K env capturing reason call t :
  SirclAudit.enabled env = true -> keeps (balance K) (stock env capturing reason call t).
Proof.
  intros Hen. unfold stock. eapply spec_bind; [by apply balance_record|intros u].
  intros p Hp. unfold run_outside. pose proof (stock_event t (outside p)) as He.
  destruct (original_all_reduce t (outside p)) as [r w]. simpl in He.
  assert (balance K (p <| outside := w |>)) as Hb.
  { unfold balance, recorded_calls, stock_calls, count_events in *. simpl. rewrite He, List.filter_app, length_app. simpl. lia. }
  by destruct r.
Qed.

(** C28 (stock audit): while auditing is enabled, one call of the installed
    [all_reduce] calls the stock collective exactly as often as it adds a record
    to the audit, however the call ends. *)
Theorem stock_calls_audited h c t capturing p o p' :
  SirclAudit.enabled (environ h) = true -> spark_all_reduce h c t capturing p = (o, p') ->
  recorded_calls p' - recorded_calls p = stock_calls p' - stock_calls p.
Proof.
  intros Hen Hrun. set (K := recorded_calls p - stock_calls p).
  destruct (native_steps _ (balance_native K)) as (_ & Hred & Hcap).
  destruct (framed_blocks _ (balance K) _ (balance_frame K) Hred Hcap) as [Hc Hb].
  pose proof (framed_spark _ _ _ (balance_frame K) Hc Hb h (fun b r x y => balance_stock K _ b r x y Hen) c t capturing) as Hk.
  specialize (Hk p eq_refl). rewrite Hrun in Hk. unfold balance in Hk. destruct o; lia.
Qed.

(** ** Failures of the native library *)

Definition is_failure (e : event) : bool :=
  match e with Created ok | Reduced ok | Captured ok => negb ok | Stock => false end.
Definition is_run_failure (e : event) : bool :=
  match e with Reduced ok | Captured ok => negb ok | _ => false end.

Definition failures (p : process) : nat := count_events is_failure p.
Definition run_failures (p : process) : nat := count_events is_run_failure p.

(** [failed F R]: [F] failures so far, [R] of them of running collectives; after
    an exception only [R] is kept, and at an exit nothing. *)
Definition failed (F R : nat) (p : process) : Prop := failures p = F /\ run_failures p = R.
Definition run_failed (R : nat) (p : process) : Prop := run_failures p = R.
Definition anything (p : process) : Prop := True.

Notation careful F R m := (spec (failed F R) m (fun _ => failed F R) (run_failed R) anything).

Lemma run_failure_failure new : none_of is_failure new -> none_of is_run_failure new.
Proof. intros Hn. eapply Forall_impl; [exact Hn|]. by intros [| | |]. Qed.

Lemma failed_step F R p w new :
  events w = events (outside p) ++ new -> none_of is_failure new -> failed F R p -> failed F R (p <| outside := w |>).
Proof.
  intros He Hn [HF HR]. split; unfold failures, run_failures in *.
  - by rewrite (count_events_app _ _ _ _ He Hn).
  - by rewrite (count_events_app _ _ _ _ He (run_failure_failure _ Hn)).
Qed.

Lemma careful_new_session F R env rank a : careful F R (run_outside (new_session env rank a)).
Proof.
  eapply outside_step; [apply new_session_adds|intros new p w He Hn Hp..].
  - eapply failed_step; [exact He|simpl in Hn; subst; repeat constructor|done].
  - split; [|done]. unfold run_failed, run_failures. rewrite (count_events_app is_run_failure _ _ _ He); [apply Hp|].
    simpl in Hn; destruct Hn as [->| ->]; repeat constructor.
Qed.

Lemma failed_frame F R : frame (failed F R) (run_failed R) anything.
Proof.
  split; [by intros p []|done| |apply careful_new_session].
  intros f p _ Ho [HF HR]. unfold failed, failures, run_failures, count_events in *. by rewrite Ho.
Qed.

(** Inside a block whose exceptions end the process nothing is left to keep. *)
Lemma failed_block_frame F R : frame (failed F R) anything anything.
Proof.
  destruct (failed_frame F R) as [_ _ Hmod Hnew]. split; [done|done|exact Hmod|].
  intros. eapply spec_weaken; [apply Hnew|done..].
Qed.

Lemma guarded_all_reduce F R s o t :
  spec (failed F R) (run_outside (run_all_reduce s o t)) (fun _ => failed F R) anything anything.
Proof.
  eapply outside_step; [apply run_all_reduce_adds|intros new p w He Hn Hp..]; [|done].
  eapply failed_step; [exact He|simpl in Hn; subst; repeat constructor|done].
Qed.

Lemma guarded_capture F R env s t :
  spec (failed F R) (run_outside (capture env s t)) (fun _ => failed F R) anything anything.
Proof.
  eapply outside_step; [apply capture_adds|intros new p w He Hn Hp..]; [|done].
  eapply failed_step; [exact He|simpl in Hn; subst; repeat constructor|done].
Qed.

Lemma careful_lift_audit F R f : careful F R (lift_audit f).
Proof. intros p Hp. unfold lift_audit. destruct (f _ _); [done|apply Hp]. Qed.

Lemma careful_original F R t :
  careful F R (run_outside (fun w => let '(r, w) := original_all_reduce t w in
                                     match r with Ok t => (Ret t, w) | Raise e => (Exn e, w) end)).
Proof.
  intros p Hp. unfold run_outside. pose proof (stock_event t (outside p)) as He.
  destruct (original_all_reduce t (outside p)) as [r w]. simpl in He.
  assert (failed F R (p <| outside := w |>)) as Hw by (eapply failed_step; [exact He|repeat constructor|done]).
  destruct r; [done|apply Hw].
Qed.

Lemma careful_stock F R env capturing reason call t : careful F R (stock env capturing reason call t).
Proof.
  unfold stock, _record_stock_path. pose proof (failed_frame F R) as HF.
  walk ltac:(first [apply careful_lift_audit | apply careful_original | by apply framed_lift | by apply framed_reporter]).
Qed.

(** ** No stock collective before an exit *)

(** From here on the process is not ended. *)
Notation no_exit m := (spec anything m (fun _ => anything) anything (fun _ => False)).

Lemma no_exit_tail env md key x y : no_exit (
  let! _ := plift (require (text_is md "shadow") AssertionError) in
  shadow_compare env key x y).
Proof.
  assert (forall A (m : result A), no_exit (plift (S := process) m)) as Hlift by (intros; by apply spec_lift).
  assert (forall f, no_exit (pmodify f)) as Hmod by (intros; by apply spec_modify).
  assert (forall A (f : process -> A), no_exit (pget f)) as Hget by (intros; by apply spec_get).
  assert (forall A (a : A), no_exit (pret (S := process) a)) as Hret by (intros; by apply spec_ret).
  assert (forall A e, no_exit (praise (S := process) (A := A) e)) as Hraise by (intros; by apply spec_raise).
  unfold shadow_compare, put_shadow, update_backend. cbv zeta. walk ltac:(solve [auto]).
Qed.

Lemma early_frame K : frame (stocked K) anything (stocked K).
Proof.
  destruct (stocked_frame K) as [_ _ Hmod Hnew]. split; [done|done|exact Hmod|].
  intros. eapply spec_weaken; [apply Hnew|done..].
Qed.

Notation early K m := (spec (stocked K) m (fun _ => anything) anything (stocked K)).

Lemma early_value {A} K (m : proc process A) :
  spec (stocked K) m (fun _ => stocked K) anything (stocked K) -> early K m.
Proof. intros Hm. eapply spec_weaken; [exact Hm|done..]. Qed.

Lemma early_stock K env capturing reason call t : early K (stock env capturing reason call t).
Proof.
  unfold stock, _record_stock_path. pose proof (early_frame K) as HF.
  assert (forall f, spec (stocked K) (lift_audit f) (fun _ => stocked K) anything (stocked K)) as Haudit.
  { intros f p Hp. unfold lift_audit. by destruct (f _ _). }
  assert (forall y, early K (run_outside (fun w => let '(r, w) := original_all_reduce y w in
    match r with Ok t => (Ret t, w) | Raise e => (Exn e, w) end))) as Horig.
  { intros y p _. unfold run_outside. by destruct (original_all_reduce y (outside p)) as [[|] w]. }
  walk ltac:(first [apply Haudit | apply Horig | by apply framed_lift | by apply framed_reporter]).
Qed.

Lemma early_spark K h c t capturing : early K (spark_all_reduce h c t capturing).
Proof.
  pose proof (early_frame K) as HF. destruct (native_steps _ (stocked_native K)) as (_ & Hred & Hcap).
  destruct (framed_blocks _ anything _ (stocked_frame K) Hred Hcap) as [Hc Hb].
  unfold spark_all_reduce, capture_all_reduce, eager_all_reduce. cbv zeta.
  assert (forall env md key x t', early K (
    let! reference := stock env false "shadow_reference" None t' in
    let! _ := plift (require (text_is md "shadow") AssertionError) in
    shadow_compare env key x reference)) as Htail.
  { intros. eapply spec_bind; [apply early_stock|intros y]. eapply spec_weaken; [apply no_exit_tail|done..]. }
  walk ltac:(first [apply early_stock | apply Htail | apply Hc | apply Hb | by apply framed_lift | by apply framed_get
    | by apply framed_get_backend | by apply framed_event | by apply framed_research
    | apply early_value; first [apply Hc | apply Hb | by apply framed_ret]]).
Qed.

(** C27 (fail closed): when a call of the installed [all_reduce] returns a tensor, no
    native call made on its behalf has failed (creating a session, running it or
    capturing with it); when it raises, no collective has failed on a native
    session: a failed collective or capture always ends the process; and a call
    that ends the process has not called the stock collective: there is no silent
    fall-back. *)
Theorem native_failure_ends_process h c t capturing p o p' :
  spark_all_reduce h c t capturing p = (o, p') ->
  match o with
  | Ret _ => failures p' = failures p
  | Exn _ => run_failures p' = run_failures p
  | Exit => stock_calls p' = stock_calls p
  end.
Proof.
  intros Hrun. set (F := failures p). set (R := run_failures p).
  destruct (framed_blocks _ (run_failed R) _ (failed_block_frame F R) (guarded_all_reduce F R) (guarded_capture F R))
    as [Hc Hb].
  pose proof (framed_spark _ _ _ (failed_frame F R) Hc Hb h (careful_stock F R _) c t capturing) as Hk.
  pose proof (early_spark (stock_calls p) h c t capturing p eq_refl) as He.
  specialize (Hk p (conj eq_refl eq_refl)). rewrite Hrun in Hk, He. destruct o; [apply Hk|exact Hk|exact He].
Qed.

End Dispatch.

(** ** Witnesses

    A tensor that is not admitted, in custom mode, over the instrumented sample
    library, and the eager collective over a broken one. *)
Definition log_start (broken : bool) : @process (traced (sample_native broken)) :=
  @sample_process (traced (sample_native broken)) (0, []).

Definition stock_run : outcome tensor * @process (traced (sample_native false)) :=
  @spark_all_reduce no_provider (traced (sample_native false)) custom_host sample_comm (sample_tensor 2 100) false (log_start false).
Definition native_run : outcome tensor * @process (traced (sample_native false)) :=
  @spark_all_reduce no_provider (traced (sample_native false)) custom_host sample_comm (sample_tensor 2 6144) false (log_start false).
Definition broken_native_run : outcome tensor * @process (traced (sample_native true)) :=
  @spark_all_reduce no_provider (traced (sample_native true)) custom_host sample_comm (sample_tensor 2 6144) false (log_start true).

Lemma stock_calls_audited_witness :
  fst stock_run = Ret (sample_tensor 2 100) /\ recorded_calls (snd stock_run) = 1 /\
  recorded_calls (snd stock_run) - recorded_calls (log_start false) = stock_calls (snd stock_run) - stock_calls (log_start false).
Proof.
  split; [vm_compute; reflexivity|]. split; [vm_compute; reflexivity|].
  apply (@stock_calls_audited no_provider (traced (sample_native false)) _ custom_host sample_comm (sample_tensor 2 100) false (log_start false) (fst stock_run));
    [vm_compute; reflexivity|]. apply surjective_pairing.
Defined.

Lemma native_failure_ends_process_witness :
  (fst native_run = Ret (sample_tensor 2 6144) /\ failures (snd native_run) = failures (log_start false) /\
   events (outside (snd native_run)) = [Created true; Created true; Reduced true]) /\
  (fst broken_native_run = Exit /\ stock_calls (snd broken_native_run) = stock_calls (log_start true) /\
   events (outside (snd broken_native_run)) = [Created true; Created true; Reduced false]).
Proof.
  split; (split; [vm_compute; reflexivity|split; [|vm_compute; reflexivity]]).
  - exact (@native_failure_ends_process no_provider (traced (sample_native false)) _ custom_host sample_comm
      (sample_tensor 2 6144) false (log_start false) (Ret (sample_tensor 2 6144)) (snd native_run)
      ltac:(vm_compute; reflexivity)).
  - exact (@native_failure_ends_process no_provider (traced (sample_native true)) _ custom_host sample_comm
      (sample_tensor 2 6144) false (log_start true) Exit (snd broken_native_run) ltac:(vm_compute; reflexivity)).
Defined.
