(* ===== verification/SirclLive.v ===== *)
(** * SIRCL: live sessions never share a control port

    The composition of the adapter ([SirclBackend]) with the port namespace
    ([SirclPorts]): whatever collectives a process runs, the native sessions it
    holds use control ports reserved for them, and no port is used twice. *)
From S2P Require Export SirclBackend.
Import RowProvider.

(** ** Reservations by position *)

Lemma all_ports_app rs1 rs2 : all_ports (rs1 ++ rs2) = all_ports rs1 ++ all_ports rs2.
Proof. unfold all_ports. by rewrite map_app, concat_app. Qed.

Lemma all_ports_elem rs i r n : rs !! i = Some r -> n ∈ pair_ports (ports r) -> n ∈ all_ports rs.
Proof.
  intros Hi Hn. apply list_elem_of_split_length in Hi as (l1 & l2 & -> & _).
  rewrite all_ports_app, elem_of_app. right. change (all_ports (r :: l2)) with (pair_ports (ports r) ++ all_ports l2).
  apply elem_of_app. by left.
Qed.

Lemma all_ports_disjoint rs i j r r' n :
  NoDup (all_ports rs) -> rs !! i = Some r -> rs !! j = Some r' -> i <> j ->
  n ∈ pair_ports (ports r) -> n ∉ pair_ports (ports r').
Proof.
  intros Hnd Hi Hj Hne Hn Hn'. pose proof Hi as Hsplit.
  apply list_elem_of_split_length in Hsplit as (l1 & l2 & -> & ->).
  rewrite all_ports_app in Hnd. change (all_ports (r :: l2)) with (pair_ports (ports r) ++ all_ports l2) in Hnd.
  apply NoDup_app in Hnd as (_ & Hdis & Hnd). apply NoDup_app in Hnd as (_ & Hdis' & _).
  destruct (Nat.lt_ge_cases j (length l1)) as [Hlt|Hge].
  - rewrite lookup_app_l in Hj by done. apply (Hdis n); [by eapply all_ports_elem|]. apply elem_of_app. by left.
  - rewrite lookup_app_r in Hj by done. destruct (j - length l1)%nat as [|k] eqn:Ek; [lia|].
    apply (Hdis' n Hn). by eapply (all_ports_elem l2 k).
Qed.

Section Reservations.
Context `{Provider}.

Lemma rmap_reserve_at {A} (name : A -> list ascii) (pair : A -> result (Z * Z)) l rs i x :
  rmap (fun x => reserve (name x) (pair x)) l = Ok rs -> l !! i = Some x ->
  exists r, rs !! i = Some r /\ pair x = Ok (ports r).
Proof.
  intros Hrun%rmap_ok Hi. destruct (Forall2_lookup_l _ _ _ _ _ Hrun Hi) as (r & Hr & Hres).
  exists r. split; [done|]. unfold reserve in Hres. apply rbind_ok in Hres as (p & Hp & Heq). by injection Heq as <-.
Qed.

(** The payload of each eager reservation, in order. *)
Lemma eager_reserved_at env rs :
  eager_reservations env = Ok rs ->
  exists keys, length keys = length rs /\
    (forall x p, eager_allreduce_ports_for_payload x env = Ok p -> x ∈ keys) /\
    (forall i x, keys !! i = Some x -> exists r, rs !! i = Some r /\ eager_allreduce_ports_for_payload x env = Ok (ports r)).
Proof.
  unfold eager_reservations. intros (rows & Hrows & Hrun)%rbind_ok. apply rbind_ok in Hrun as (l & Hl & Hrun).
  apply rbind_ok in Hrun as (regimes & Hreg & Hrun). apply rbind_ok in Hrun as (e & He & Hrun). injection Hrun as <-.
  assert (fst regimes = map (fun rows => rows * default_bytes_per_row) rows) as Hleg.
  { unfold _eager_allreduce_size_regimes in Hreg. rewrite Hrows in Hreg. cbn [rbind] in Hreg.
    apply rbind_ok in Hreg as (mx & _ & Hreg). apply rbind_ok in Hreg as (w & _ & Hreg). by injection Hreg as <-. }
  exists (fst regimes ++ snd regimes).
  pose proof (Forall2_length _ _ _ (proj1 (rmap_ok _ _ _) Hl)) as Hlen1.
  pose proof (Forall2_length _ _ _ (proj1 (rmap_ok _ _ _) He)) as Hlen2.
  assert (length (fst regimes) = length l) as Hlen by (rewrite Hleg, length_map; exact Hlen1).
  split_and!; [rewrite !length_app; lia| |].
  - intros x p. unfold eager_allreduce_ports_for_payload. rewrite Hreg. cbn [rbind].
    intros (slot & Hs & _)%rbind_ok. unfold payload_slot in Hs. apply elem_of_app.
    case_bool_decide; [by left|]. destruct (SirclPorts.index _ _) as [i|] eqn:Ei; [|done]. right.
    apply index_spec in Ei as [Ei _]. by eapply list_elem_of_lookup_2.
  - intros i x Hi. destruct (Nat.lt_ge_cases i (length l)) as [Hlt|Hge].
    + rewrite lookup_app_l, Hleg in Hi by lia. rewrite lookup_app_l by done.
      apply list_lookup_fmap_Some in Hi as (q & -> & Hq).
      destruct (rmap_reserve_at _ _ _ _ i q Hl Hq) as (r & Hr & Hp). exists r. split; [done|].
      unfold _eager_allreduce_pair in Hp. rewrite Hrows in Hp. cbn [rbind] in Hp.
      case_bool_decide; [done|]. unfold default_bytes_per_row. by rewrite Z.mul_assoc.
    + rewrite lookup_app_r, Hlen in Hi by lia. rewrite lookup_app_r by done.
      exact (rmap_reserve_at _ _ _ _ _ x He Hi).
Qed.

End Reservations.

(** ** Sessions and the settings they are opened under *)

Section Live.
Context `{HP : Provider, HN : Native} (h : host).
Notation env := (environ h).

(** Where a backend keeps a session. *)
Inductive slot :=
  | SEager (payload : Z)
  | SGraph
  | SDual
  | SWidth4096.

Definition session_at (b : _Backend) (sl : slot) : option _NativeSession :=
  match sl with
  | SEager payload => native_sessions b !! payload
  | SGraph => graph_q1_session b
  | SDual => graph_dual_port_q40_session b
  | SWidth4096 => graph_width4096_session b
  end.

Definition slot_pair (sl : slot) : result (Z * Z) :=
  match sl with
  | SEager payload => eager_allreduce_ports_for_payload payload env
  | SGraph | SWidth4096 => _graph_allreduce_pair env
  | SDual => _graph_dual_port_q40_pair env
  end.

Definition custom_mode : Prop := exists md, mode env = Ok md /\ text_is md "custom" = true.

Definition slot_enabled (sl : slot) : Prop :=
  match sl with
  | SEager _ => True
  | SGraph => custom_mode /\ _graph_q1_enabled env = Ok true
  | SDual => custom_mode /\ _graph_q1_enabled env = Ok true /\ _graph_dual_port_q40_enabled env = Ok true
  | SWidth4096 => custom_mode /\ _graph_width4096_research_enabled env = Ok true
  end.

(** Every session a backend holds has the ports of its slot, and was opened under
    the settings of its slot. *)
Definition backend_ok (b : _Backend) : Prop :=
  forall sl s, session_at b sl = Some s -> slot_pair sl = Ok (_ports s) /\ slot_enabled sl.

Definition sessions_ok (p : process) : Prop := forall b, backend p = Some b -> backend_ok b.

Lemma new_backend_ok r : backend_ok (new_backend r).
Proof. by intros [] s. Qed.

Lemma ok_outside {A} (m : proc world A) : keeps sessions_ok (run_outside m).
Proof. intros p Hp. unfold run_outside. destruct (m (outside p)) as [[a|e|] w]; exact Hp. Qed.

Lemma ok_modify (f : process -> process) : (forall p, backend (f p) = backend p) -> keeps sessions_ok (pmodify f).
Proof. intros Hf. apply spec_modify. intros p Hp b Hb. rewrite Hf in Hb. by apply Hp. Qed.

Lemma ok_update (f : _Backend -> _Backend) : (forall b, backend_ok b -> backend_ok (f b)) -> keeps sessions_ok (update_backend f).
Proof.
  intros Hf. apply spec_modify. intros p Hp b. simpl. destruct (backend p) as [b0|] eqn:Eb; [|done].
  intros [= <-]. apply Hf. by apply Hp.
Qed.

Lemma ok_get_backend c : spec sessions_ok (get_backend c) (fun b p => backend_ok b /\ sessions_ok p) sessions_ok sessions_ok.
Proof.
  intros p Hp. unfold get_backend, pbind, pget. destruct (backend p) as [b|] eqn:Eb; simpl; [split; [by apply Hp|done]|].
  destruct (comm_rank_in_group c) as [r|]; simpl; [|done]. split; [apply new_backend_ok|].
  intros b. simpl. intros [= <-]. apply new_backend_ok.
Qed.

(** A session opened with [a] has the ports of [a]. *)
Lemma ok_new_session r a :
  spec sessions_ok (run_outside (new_session env r a))
    (fun s p => session_ports env a = Ok (_ports s) /\ sessions_ok p) sessions_ok sessions_ok.
Proof.
  intros p Hp. pose proof (ok_outside (new_session env r a) p Hp) as Hkeep. unfold run_outside in *.
  destruct (new_session env r a (outside p)) as [[s|e|] w] eqn:Es; [|done..]. split; [|done].
  unfold new_session in Es. apply pbind_ret in Es as ([[request outputs] ports] & w1 & Hprep & Hrun).
  unfold plift in Hprep. destruct (prepare env r a) as [pr|] eqn:Ep; [|done]. injection Hprep as -> <-.
  unfold pbind in Hrun. destruct (create_session request (outside p)) as [[hd|] w2]; [|done]. injection Hrun as <- _.
  simpl. unfold prepare in Ep. apply rbind_ok in Ep as (u & _ & Ep). apply rbind_ok in Ep as (q & Hq & Ep).
  rewrite Hq. inv_ok. congruence.
Qed.

Lemma insert_eager b x s :
  eager_allreduce_ports_for_payload x env = Ok (_ports s) -> backend_ok b ->
  backend_ok (b <| native_sessions ::= fun m => <[x := s]> m |>).
Proof.
  intros Hs Hb sl s'. destruct sl as [y| | |]; simpl; try apply (Hb SGraph) || apply (Hb SDual) || apply (Hb SWidth4096).
  destruct (decide (x = y)) as [->|Hne].
  - rewrite lookup_insert_eq. intros [= <-]. done.
  - rewrite lookup_insert_ne by done. apply (Hb (SEager y)).
Qed.

(** The other slots are set once, to a session with the slot's ports. *)
Lemma set_slot sl b s :
  slot_pair sl = Ok (_ports s) -> slot_enabled sl -> backend_ok b ->
  backend_ok match sl with
             | SEager _ => b
             | SGraph => b <| graph_q1_session := Some s |>
             | SDual => b <| graph_dual_port_q40_session := Some s |>
             | SWidth4096 => b <| graph_width4096_session := Some s |>
             end.
Proof.
  intros Hs Hen Hb. destruct sl; [done|..]; intros [y| | |] s'; simpl; try (by intros [= <-]);
    first [apply (Hb (SEager y)) | apply (Hb SGraph) | apply (Hb SDual) | apply (Hb SWidth4096)].
Qed.

Lemma ok_reporter r : keeps sessions_ok (ensure_status_reporter env r).
Proof. unfold ensure_status_reporter. keep. apply ok_modify. intros p. by destruct (reporter p). Qed.

#[local] Hint Resolve ok_outside ok_reporter : proc.
#[local] Hint Extern 5 (spec _ (pmodify _) _ _ _) => (apply ok_modify; done) : proc.

Lemma ok_native_for b x :
  backend_ok b ->
  spec sessions_ok (native_for env b x)
    (fun s p => eager_allreduce_ports_for_payload x env = Ok (_ports s) /\ sessions_ok p) sessions_ok sessions_ok.
Proof.
  intros Hb. unfold native_for. destruct (native_sessions b !! x) as [s|] eqn:Es.
  { apply spec_ret. intros p Hp. split; [by apply (Hb (SEager x))|done]. }
  eapply spec_bind; [apply ok_new_session|intros s]. apply spec_pure. intros Hs. simpl in Hs.
  apply (spec_bind _ _ _ _ _ (fun _ => sessions_ok)).
  - apply ok_update. intros b' Hb'. by apply insert_eager.
  - intros ?. by apply spec_ret.
Qed.

(** Opening a graph session for a slot. *)
Lemma ok_open {B} (sl : slot) r (args : result session_args) (k : _NativeSession -> proc process B) (put : _NativeSession -> _Backend -> _Backend) :
  (forall a, args = Ok a -> exists ports, control_ports a = Some ports /\ slot_pair sl = Ok ports) ->
  (forall s b, slot_pair sl = Ok (_ports s) -> backend_ok b -> backend_ok (put s b)) ->
  (forall s, keeps sessions_ok (k s)) ->
  keeps sessions_ok (let! args := plift args in
                     let! session := run_outside (new_session env r args) in
                     let! _ := update_backend (put session) in
                     k session).
Proof.
  intros Hargs Hput Hk. eapply spec_bind.
  { apply (spec_lift _ _ _ _ (fun a p => args = Ok a /\ sessions_ok p)); [by intros p a Hp ->|done]. }
  intros a. apply spec_pure. intros Ha. destruct (Hargs a Ha) as (ports & Hports & Hslot).
  eapply spec_bind; [apply ok_new_session|intros s]. apply spec_pure. intros Hs.
  assert (slot_pair sl = Ok (_ports s)) as Hpair.
  { unfold session_ports in Hs. rewrite Hports in Hs. apply rbind_ok in Hs as (q & Hq & Hs). apply validate_pair_ok in Hq as [-> _].
    apply rbind_ok in Hs as (u & _ & [= <-]). done. }
  apply (spec_bind _ _ _ _ _ (fun _ => sessions_ok)); [|intros u; apply Hk].
  apply ok_update. intros b Hb. by apply Hput.
Qed.

Lemma checked_ok pair q : checked env pair = Ok q -> pair = Ok q.
Proof. unfold checked. intros (p & -> & Hrun)%rbind_ok. by apply rbind_ok in Hrun as (u & _ & [= <-]). Qed.

(** [H : (let* ... in Ok (graph_args ...)) = Ok a] gives the ports argument. *)
Ltac graph_ports H :=
  repeat (let x := fresh "x" in let Hx := fresh "Hx" in apply rbind_ok in H as (x & Hx & H)); injection H as <-.

Lemma ok_prepare_sequential b :
  custom_mode -> _graph_q1_enabled env = Ok true -> keeps sessions_ok (prepare_sequential h b).
Proof.
  intros Hmode Hq1. unfold prepare_sequential. cbv zeta. destruct (graph_q1_session b); [by apply spec_ret|].
  apply (ok_open SGraph); [|intros; by apply (set_slot SGraph)|intros; keep].
  intros a Ha. graph_ports Ha. eexists. split; [reflexivity|]. by apply checked_ok.
Qed.

Lemma ok_prepare_dual_port b :
  slot_enabled SDual -> keeps sessions_ok (prepare_dual_port h b).
Proof.
  intros Hen. unfold prepare_dual_port. cbv zeta.
  apply (ok_open SDual); [|intros; by apply (set_slot SDual)|intros; keep].
  intros a Ha. graph_ports Ha. eexists. split; [reflexivity|]. by apply checked_ok.
Qed.

Lemma ok_prepare_width4096 b :
  slot_enabled SWidth4096 -> keeps sessions_ok (prepare_graph_width4096 h b).
Proof.
  intros Hen. unfold prepare_graph_width4096. cbv zeta. destruct (graph_width4096_session b); [by apply spec_ret|].
  apply (ok_open SWidth4096); [|intros; by apply (set_slot SWidth4096)|intros; keep].
  intros a Ha. graph_ports Ha. eexists. split; [reflexivity|]. by apply checked_ok.
Qed.

Lemma ok_prepare_q1 b :
  custom_mode -> _graph_q1_enabled env = Ok true -> keeps sessions_ok (prepare_graph_q1 h b).
Proof.
  intros Hmode Hq1. unfold prepare_graph_q1.
  apply (spec_bind _ _ _ _ _ (fun _ => sessions_ok)); [by apply ok_prepare_sequential|intros s].
  eapply spec_bind.
  { apply (spec_lift _ _ _ _ (fun d p => _graph_dual_port_q40_enabled env = Ok d /\ sessions_ok p)); [by intros p d Hp ->|done]. }
  intros d. apply spec_pure. intros Hd. apply (spec_bind _ _ _ _ _ (fun _ => sessions_ok)); [|intros u; by apply spec_ret].
  destruct d; simpl; [|by apply spec_ret]. destruct (negb _); [|by apply spec_ret]. by apply ok_prepare_dual_port.
Qed.

(** The flag read in custom mode. *)
Lemma ok_custom_flag {B} md (flag : result bool) (k : bool -> proc process B) :
  mode env = Ok md -> (forall b, (b = true -> custom_mode /\ flag = Ok true) -> keeps sessions_ok (k b)) ->
  keeps sessions_ok (let! b := plift (if text_is md "custom" then flag else Ok false) in k b).
Proof.
  intros Hmd Hk. eapply spec_bind.
  { apply (spec_lift _ _ _ _ (fun b p => (b = true -> custom_mode /\ flag = Ok true) /\ sessions_ok p)); [|done].
    intros p b Hp Hb. split; [|done]. intros ->. destruct (text_is md "custom") eqn:Ec; [|done]. split; [by exists md|done]. }
  intros b. apply spec_pure. intros Hb. by apply Hk.
Qed.

Lemma ok_candidate c t md x : mode env = Ok md -> keeps sessions_ok (native_candidate h c t md x).
Proof.
  intros Hmd. unfold native_candidate. cbv zeta. apply ok_custom_flag; [done|intros graph Hgraph].
  eapply spec_bind; [apply ok_get_backend|intros b0]. apply spec_pure. intros Hb0.
  apply (spec_bind _ _ _ _ _ (fun _ => sessions_ok)); [|intros u].
  { destruct graph; [|by apply spec_ret]. destruct (Hgraph eq_refl) as [Hc Hq].
    apply (spec_bind _ _ _ _ _ (fun _ => sessions_ok)); [by apply ok_prepare_q1|intros ?; by apply spec_ret]. }
  eapply spec_bind; [apply ok_get_backend|intros b]. apply spec_pure. intros Hb.
  eapply spec_bind; [by apply ok_native_for|intros s]. apply spec_pure. intros Hs.
  assert (_ports (snd (acquire_output s t)) = _ports s) as Hports.
  { unfold acquire_output. destruct (_persistent_outputs s) as [ring|]; [|done]. by destruct (OutputRing.acquire _ _ _ _). }
  destruct (acquire_output s t) as [output s']. simpl in Hports.
  apply (spec_bind _ _ _ _ _ (fun _ => sessions_ok)); [|intros ?; keep].
  apply ok_update. intros b' Hb'. apply insert_eager; [by rewrite Hports|done].
Qed.

Lemma ok_stock capturing reason call t : keeps sessions_ok (stock env capturing reason call t).
Proof.
  unfold stock, _record_stock_path.
  assert (forall f, keeps sessions_ok (lift_audit f)) as Haudit by (intros f p Hp; unfold lift_audit; by destruct (f _ _)).
  keep.
Qed.

Lemma ok_compare key x y : keeps sessions_ok (shadow_compare env key x y).
Proof.
  assert (forall st, keeps sessions_ok (put_shadow key st)) as Hput.
  { intros st. apply ok_update. intros b Hb sl s. exact (Hb sl s). }
  unfold shadow_compare. cbv zeta. keep.
Qed.
#[local] Hint Resolve ok_stock ok_compare : proc.

Lemma ok_get_backend_keeps c : keeps sessions_ok (get_backend c).
Proof. eapply spec_weaken; [apply ok_get_backend|naive_solver..]. Qed.
#[local] Hint Resolve ok_get_backend_keeps : proc.

Lemma ok_event c e : keeps sessions_ok (_record_graph_event c e).
Proof. unfold _record_graph_event. keep. Qed.
#[local] Hint Resolve ok_event : proc.

Lemma ok_capture c s t ev : keeps sessions_ok (capture_or_exit env c s t ev).
Proof. unfold capture_or_exit. keep. Qed.
#[local] Hint Resolve ok_capture : proc.

Lemma ok_research c t capturing md : mode env = Ok md -> keeps sessions_ok (research_route h c t capturing md).
Proof.
  intros Hmd. unfold research_route. apply ok_custom_flag; [done|intros research Hr].
  destruct research; [|by apply spec_ret]. pose proof (ok_prepare_width4096) as Hw.
  unfold _research_graph_all_reduce. keep. by apply Hw, Hr.
Qed.

Lemma ok_spark c t capturing : keeps sessions_ok (spark_all_reduce h c t capturing).
Proof.
  unfold spark_all_reduce. cbv zeta. eapply spec_bind.
  { apply (spec_lift _ _ _ _ (fun md p => mode env = Ok md /\ sessions_ok p)); [by intros p md Hp ->|done]. }
  intros md. apply spec_pure. intros Hmd. pose proof (fun x => ok_candidate c t md x Hmd) as Hcand.
  apply (spec_bind _ _ _ _ _ (fun _ => sessions_ok)); [by apply ok_research|intros handled].
  unfold capture_all_reduce, eager_all_reduce. cbv zeta. keep.
Qed.

(** ** Installed processes *)

(** A sequence of collectives, each with whether a capture is going on. *)
Fixpoint run_calls (calls : list (communicator * tensor * bool)) (p : process) : process :=
  match calls with
  | [] => p
  | (c, t, capturing) :: calls => run_calls calls (snd (spark_all_reduce h c t capturing p))
  end.

Lemma run_calls_ok calls p : sessions_ok p -> sessions_ok (run_calls calls p).
Proof.
  revert p. induction calls as [|[[c t] capturing] calls IH]; intros p Hp; [done|]. simpl. apply IH.
  pose proof (ok_spark c t capturing p Hp) as Hk. by destruct (spark_all_reduce h c t capturing p) as [[a|e|] p'].
Qed.

(** [install] puts the replacement in place only under these conditions. *)
Lemma install_replaces p p' :
  install h p = (Ret tt, p') -> all_reduce_replaced p = false -> all_reduce_replaced p' = true ->
  backend p' = backend p /\
  exists md rs, mode env = Ok md /\ text_is md "custom" || text_is md "shadow" = true /\
    install_guards env md = Ok tt /\ validate_active_port_namespace env = Ok rs.
Proof.
  unfold install. cbv zeta. intros (md & p1 & Hmd & Hrun)%pbind_ret Hno Hyes.
  unfold plift in Hmd. destruct (mode env) as [md'|] eqn:Emd; [|done]. injection Hmd as -> <-.
  apply pbind_ret in Hrun as (u & p2 & Hg & Hrun). unfold plift in Hg.
  destruct (install_guards env md) as [u'|] eqn:Eg; [|done]. injection Hg as -> <-. destruct u.
  apply pbind_ret in Hrun as (inst & p3 & Hi & Hrun). injection Hi as <- <-.
  destruct (_ || text_is md "disabled") eqn:Eoff; [injection Hrun as <-; congruence|]. bool_prop.
  apply pbind_ret in Hrun as (u & p4 & Hc & Hrun). unfold plift in Hc.
  destruct (install_checks env) as [u'|] eqn:Ec; [|done]. injection Hc as -> <-. injection Hrun as <-.
  split; [done|]. unfold install_checks in Ec. apply rbind_ok in Ec as (w & _ & Ec). apply rbind_ok in Ec as (q & _ & Ec).
  apply rbind_ok in Ec as (rows & _ & Ec). apply rbind_ok in Ec as (rs & Hrs & _).
  exists md, rs. split_and!; [done| |done|done]. unfold mode, _mode in Emd. cbv zeta in Emd.
  destruct (_ && _) eqn:Ein; [done|]. injection Emd as Emd. rewrite Emd in Ein. bool_prop.
  unfold text_is, text_eqb in *. destruct Ein as [Ein|Ein].
  - apply negb_false_iff, bool_decide_eq_true in Ein. done.
  - apply negb_false_iff, bool_decide_eq_true in Ein. simpl in Ein.
    repeat (apply elem_of_cons in Ein as [Ein|Ein]); [..|by apply elem_of_nil in Ein]; subst md; done.
Qed.

(** The place of a slot among the reservations. *)
Definition placed (keys : list Z) (sl : slot) (i : nat) : Prop :=
  match sl with
  | SEager payload => keys !! i = Some payload
  | SGraph => i = length keys
  | SDual => i = S (length keys)
  | SWidth4096 => False
  end.

Lemma placed_distinct keys sl sl' i j : placed keys sl i -> placed keys sl' j -> sl <> sl' -> i <> j.
Proof.
  intros Hi Hj Hne <-. destruct sl, sl'; simpl in *; repeat match goal with H : _ !! _ = Some _ |- _ =>
    pose proof (lookup_lt_Some _ _ _ H); revert H end; intros; (lia || done || congruence).
Qed.

Lemma slots_placed md rs :
  mode env = Ok md -> text_is md "custom" || text_is md "shadow" = true ->
  validate_active_port_namespace env = Ok rs ->
  exists keys al vm vo, rs = al ++ vo /\ _mode env "VLLM_SPARK_TP4_VOCAB_MODE" ["custom"; "shadow"]%string = Ok vm /\
    vocab_reservations env vm = Ok vo /\
    forall sl p, sl <> SWidth4096 -> slot_pair sl = Ok p -> slot_enabled sl ->
      exists i r, al !! i = Some r /\ ports r = p /\ placed keys sl i.
Proof.
  intros Hmd Hsel Hval. apply validate_namespace_ok in Hval as (Hact & _ & _).
  unfold active_port_reservations in Hact. fold (mode env) in Hact. rewrite Hmd in Hact. cbn [rbind] in Hact.
  apply rbind_ok in Hact as (al & Hal & Hact). apply rbind_ok in Hact as (vm & Hvm & Hact).
  apply rbind_ok in Hact as (vo & Hvo & [= <-]). unfold allreduce_reservations in Hal.
  change (is_mode md "custom" || is_mode md "shadow") with (text_is md "custom" || text_is md "shadow") in Hal.
  rewrite Hsel in Hal. apply rbind_ok in Hal as (e & He & Hal). apply rbind_ok in Hal as (g & Hg & [= <-]).
  destruct (eager_reserved_at env e He) as (keys & Hlen & Hin & Hat). exists keys, (e ++ g), vm, vo.
  split; [done|]. split; [done|]. split; [done|].
  assert (forall k r, g !! k = Some r -> (e ++ g) !! (length keys + k)%nat = Some r) as Hgraph.
  { intros k r Hk. rewrite Hlen. rewrite lookup_app_r by lia.
    replace (length e + k - length e)%nat with k by lia. done. }
  assert (custom_mode -> is_mode md "custom" = true) as Hc.
  { intros (md' & Hmd' & Hc). rewrite Hmd in Hmd'. by injection Hmd' as ->. }
  intros sl p Hsl Hp Hen. destruct sl as [x| | |]; [| | |done].
  - pose proof (Hin x p Hp) as Hx. apply list_elem_of_lookup in Hx as [i Hi].
    destruct (Hat i x Hi) as (r & Hr & Hpr). exists i, r. simpl in Hp. split_and!; [|congruence|done].
    by apply lookup_app_l_Some.
  - destruct Hen as [Hcm Hq]. unfold graph_reservations in Hg. rewrite Hc in Hg by done. cbn [negb] in Hg.
    unfold _graph_q1_enabled in Hq. rewrite Hq in Hg. cbn [rbind negb] in Hg. simpl in Hp. unfold reserve in Hg.
    rewrite Hp in Hg. cbn [rbind] in Hg. apply rbind_ok in Hg as (d & _ & Hg).
    exists (length keys), (mkReservation (PyStr.text "graph_allreduce") p). split_and!; [|done|done].
    rewrite <- (Nat.add_0_r (length keys)). apply Hgraph.
    destruct d; simpl in Hg; [apply rbind_ok in Hg as (dr & _ & [= <-])|injection Hg as <-]; done.
  - destruct Hen as (Hcm & Hq & Hd). unfold graph_reservations in Hg. rewrite Hc in Hg by done. cbn [negb] in Hg.
    unfold _graph_q1_enabled in Hq. unfold _graph_dual_port_q40_enabled in Hd. rewrite Hq in Hg. cbn [rbind negb] in Hg.
    apply rbind_ok in Hg as (gr & _ & Hg). rewrite Hd in Hg. cbn [rbind negb] in Hg. simpl in Hp. unfold reserve in Hg.
    rewrite Hp in Hg. injection Hg as <-. exists (S (length keys)), (mkReservation (PyStr.text "graph_dual_port_q40_allreduce") p).
    split_and!; [|done|done].
    replace (S (length keys)) with (length keys + 1)%nat by lia. by apply Hgraph.
Qed.

Lemma slots_placed_all md rs :
  mode env = Ok md -> text_is md "custom" || text_is md "shadow" = true ->
  validate_active_port_namespace env = Ok rs ->
  exists keys, forall sl p, sl <> SWidth4096 -> slot_pair sl = Ok p -> slot_enabled sl ->
    exists i r, rs !! i = Some r /\ ports r = p /\ placed keys sl i.
Proof.
  intros Hmd Hsel Hval. destruct (slots_placed md rs Hmd Hsel Hval) as (keys & al & vm & vo & -> & _ & _ & Hplace).
  exists keys. intros sl p Hsl Hp Hen. destruct (Hplace sl p Hsl Hp Hen) as (i & r & Hr & ? & ?). exists i, r.
  by split; [apply lookup_app_l_Some|].
Qed.

(** C29 (live ports): in a process in which [install] has put the adapter in place,
    after any sequence of collectives each native session it holds on a default
    path (eager of some payload, sequential graph, striped graph) uses ports that
    the accepted namespace reserves, no two of them share a port, and the research
    session never coexists with the graph session whose ports it uses. *)
Theorem live_ports_distinct p0 p1 calls b :
  install h p0 = (Ret tt, p1) -> all_reduce_replaced p0 = false -> all_reduce_replaced p1 = true ->
  backend p0 = None -> backend (run_calls calls p1) = Some b ->
  (forall sl s, session_at b sl = Some s -> sl <> SWidth4096 ->
     exists rs, validate_active_port_namespace env = Ok rs /\ forall n, n ∈ pair_ports (_ports s) -> n ∈ all_ports rs) /\
  (forall sl sl' s s' n, session_at b sl = Some s -> session_at b sl' = Some s' ->
     sl <> sl' -> sl <> SWidth4096 -> sl' <> SWidth4096 ->
     n ∈ pair_ports (_ports s) -> n ∉ pair_ports (_ports s')) /\
  (graph_width4096_session b = None \/ graph_q1_session b = None).
Proof.
  intros Hinst H0 H1 Hnone Hb. destruct (install_replaces p0 p1 Hinst H0 H1) as (Hb1 & md & rs & Hmd & Hsel & Hg & Hval).
  assert (backend_ok b) as Hok.
  { apply (run_calls_ok calls p1); [|done]. intros b' Hb'. congruence. }
  destruct (slots_placed_all md rs Hmd Hsel Hval) as (keys & Hplace).
  pose proof (proj1 (validate_namespace_ok _ _) Hval) as (_ & Hnd & _). split_and!.
  - intros sl s Hs Hsl. exists rs. split; [done|]. intros n Hn. destruct (Hok sl s Hs) as [Hp Hen].
    destruct (Hplace sl (_ports s) Hsl Hp Hen) as (i & r & Hr & Hpr & _).
    eapply all_ports_elem; [exact Hr|by rewrite Hpr].
  - intros sl sl' s s' n Hs Hs' Hne Hsl Hsl' Hn.
    destruct (Hok sl s Hs) as [Hp Hen], (Hok sl' s' Hs') as [Hp' Hen'].
    destruct (Hplace sl _ Hsl Hp Hen) as (i & r & Hr & Hpr & Hi), (Hplace sl' _ Hsl' Hp' Hen') as (j & r' & Hr' & Hpr' & Hj).
    rewrite <- Hpr in Hn. rewrite <- Hpr'. eapply all_ports_disjoint; [exact Hnd|exact Hr|exact Hr'| |exact Hn].
    by eapply placed_distinct.
  - destruct (graph_width4096_session b) as [s|] eqn:Ew; [|by left]. destruct (graph_q1_session b) as [s'|] eqn:Eq; [|by right].
    exfalso. destruct (Hok SWidth4096 s Ew) as [_ [_ Hres]], (Hok SGraph s' Eq) as [_ [_ Hq]].
    unfold install_guards in Hg. apply rbind_ok in Hg as (gp & _ & Hg). apply rbind_ok in Hg as (gk & _ & Hg).
    apply rbind_ok in Hg as (gd & _ & Hg). rewrite Hres, Hq in Hg. cbn [rbind] in Hg. by destruct (text_is md "custom").
Qed.

End Live.

(** ** Witness: eager and graph sessions of an installed process *)

Definition installed : @process (sample_native false) := snd (@install no_provider (sample_native false) custom_host (fresh false)).
Definition live_calls : list (communicator * tensor * bool) :=
  [(sample_comm, sample_tensor 2 6144, false); (sample_comm, sample_tensor 3 6144, false)].
Definition live_backend : @_Backend (sample_native false) :=
  default (@new_backend (sample_native false) 0)
    (@backend (sample_native false) (@run_calls no_provider (sample_native false) custom_host live_calls installed)).

Definition ports_at (sl : slot) : option (Z * Z) :=
  match @session_at (sample_native false) live_backend sl with
  | Some s => Some (@_ports (sample_native false) s)
  | None => None
  end.

Lemma live_ports_distinct_witness :
  ports_at (SEager 24576) = Some (11002, 11003) /\ ports_at (SEager 36864) = Some (11004, 11005) /\
  ports_at SGraph = Some (9970, 9971) /\ @graph_width4096_session (sample_native false) live_backend = None /\
  (@graph_width4096_session (sample_native false) live_backend = None \/
   @graph_q1_session (sample_native false) live_backend = None).
Proof.
  split; [vm_compute; reflexivity|]. split; [vm_compute; reflexivity|]. split; [vm_compute; reflexivity|].
  split; [vm_compute; reflexivity|].
  refine (proj2 (proj2 (@live_ports_distinct no_provider (sample_native false) custom_host (fresh false) installed
    live_calls live_backend _ _ _ _ _))); vm_compute; reflexivity.
Defined.
