(* ===== verification/SirclPromotion.v ===== *)
(** * SIRCL: promotion of a shadow

    In shadow mode the native result replaces the stock one only after a full
    window of comparisons that passed the gates: the statistics of one signature
    as a function of the tensors compared ([SirclBackend.shadow_compare]). *)
From S2P Require Export SirclBackend.
Import RowProvider.

Section Promotion.
Context `{HP : Provider, HN : Native} (env : environment) (key : signature).

(** The statistics of the signature. *)
Definition stats_of (p : process) : ShadowStats :=
  match backend p with Some b => shadow_for b key | None => init_stats end.

(** The comparisons of a list of (native, stock) results. *)
Fixpoint compare_all (l : list (tensor * tensor)) (p : process) : process :=
  match l with
  | [] => p
  | (candidate, reference) :: l => compare_all l (snd (shadow_compare env key candidate reference p))
  end.

Lemma compare_all_snoc l x y p : compare_all (l ++ [(x, y)]) p = snd (shadow_compare env key x y (compare_all l p)).
Proof. revert p. induction l as [|[a b] l IH]; intros p; simpl; [done|apply IH]. Qed.

Definition data (l : list (tensor * tensor)) : list (list Z * list Z) := map (fun x => (t_data (fst x), t_data (snd x))) l.

(** Both results have an element to compare. *)
Definition comparable (l : list (tensor * tensor)) : Prop := Forall (fun x => zip (t_data (fst x)) (t_data (snd x)) <> []) l.

Definition passes (t : totals) : bool :=
  match _shadow_result_passed env (outside_tolerance t) (nonfinite_mismatches t) (maximum_ulp_error t) with
  | Ok b => b
  | Raise _ => false
  end.

Lemma passes_clean t : passes t = true -> outside_tolerance t = 0 /\ nonfinite_mismatches t = 0.
Proof.
  unfold passes, _shadow_result_passed. destruct (PyStr.int_of _) as [m|]; [|done].
  destruct (require _ _); [|done]. simpl. intros Hp. apply negb_true_iff in Hp. bool_prop.
  by destruct (Z.eqb_spec (outside_tolerance t) 0), (Z.eqb_spec (nonfinite_mismatches t) 0).
Qed.

Lemma compare_some c r : zip c r <> [] -> exists t, compare isclose c r = Ok t.
Proof.
  intros Hne. unfold compare. cbv zeta. destruct (zip c r) as [|x l]; [done|]. simpl. by eexists.
Qed.

Lemma put_shadow_stats (s : ShadowStats) p : is_Some (backend p) ->
  is_Some (backend (snd (put_shadow key s p))) /\ stats_of (snd (put_shadow key s p)) = s.
Proof.
  intros [b Hb]. unfold put_shadow, update_backend, pmodify, stats_of. simpl. rewrite Hb. simpl.
  split; [done|]. unfold shadow_for. simpl. by rewrite lookup_insert_eq.
Qed.

(** One comparison, on the statistics. *)
Definition compare_stats (limit : Z) (x y : tensor) (s : ShadowStats) : ShadowStats :=
  if negb (count s <? limit) then s
  else
    match observe isclose (t_data x) (t_data y) s with
    | Raise _ => s
    | Ok s => if negb (count s =? limit) then s
              else match report s with
                   | Ok t => match _shadow_result_passed env (outside_tolerance t) (nonfinite_mismatches t) (maximum_ulp_error t) with
                             | Ok passed => s <| validated := passed |>
                             | Raise _ => s
                             end
                   | Raise _ => s
                   end
    end.

Lemma shadow_compare_stats limit x y p :
  int_env env "SPARK_TP4_SHADOW_COLLECTIVES" "10000" = Ok limit -> is_Some (backend p) ->
  is_Some (backend (snd (shadow_compare env key x y p))) /\
  stats_of (snd (shadow_compare env key x y p)) = compare_stats limit x y (stats_of p).
Proof.
  intros Hlim Hb. destruct (shadow_compare env key x y p) as [o p'] eqn:Er. simpl. revert Er.
  unfold shadow_compare, pbind, pget, plift. cbv zeta.
  change (match backend p with Some b => shadow_for b key | None => init_stats end) with (stats_of p).
  rewrite Hlim. unfold compare_stats.
  destruct (negb (count (stats_of p) <? limit)); [intros [= _ <-]; by split|].
  destruct (observe _ _ _ _) as [s|e]; [|intros [= _ <-]; by split].
  pose proof (put_shadow_stats s p Hb) as [Hb1 Hs1].
  destruct (put_shadow key s p) as [o1 p1] eqn:E1. simpl in Hb1, Hs1.
  assert (o1 = Ret tt) as -> by (unfold put_shadow, update_backend, pmodify in E1; congruence).
  destruct (negb (count s =? limit)); [intros [= _ <-]; by split|].
  destruct (report s) as [t|e]; [|intros [= _ <-]; by split].
  destruct (_shadow_result_passed _ _ _ _) as [passed|e]; [|intros [= _ <-]; by split].
  pose proof (put_shadow_stats (s <| validated := passed |>) p1 Hb1) as [Hb2 Hs2].
  destruct (put_shadow key (s <| validated := passed |>) p1) as [o2 p2] eqn:E2. simpl in Hb2, Hs2.
  assert (o2 = Ret tt) as -> by (unfold put_shadow, update_backend, pmodify in E2; congruence).
  destruct (negb passed && shadow_strict env); intros [= _ <-]; by split.
Qed.

(** The statistics after the comparisons [obs] of the window. *)
Definition window_stats (limit : Z) (obs : list (list Z * list Z)) (s : ShadowStats) : Prop :=
  exists s0, observe_all isclose obs = Ok s0 /\ count s = Z.of_nat (length obs) /\ accumulated s = accumulated s0 /\
    (validated s = true <-> 0 < limit /\ Z.of_nat (length obs) = limit /\ exists t, report s0 = Ok t /\ passes t = true).

Lemma window_step limit obs x y s :
  window_stats limit obs s -> count s < limit -> zip (t_data x) (t_data y) <> [] ->
  window_stats limit (obs ++ [(t_data x, t_data y)]) (compare_stats limit x y s).
Proof.
  intros (s0 & H0 & Hc & Ha & Hv) Hlt Hne. unfold compare_stats. rewrite (proj2 (Z.ltb_lt _ _) Hlt). simpl.
  destruct (compare_some _ _ Hne) as [t Ht]. unfold observe. rewrite Ht. simpl.
  assert (exists s1, observe_all isclose (obs ++ [(t_data x, t_data y)]) = Ok s1 /\
    accumulated s1 = Some (match accumulated s with None => t | Some a => add_totals a t end)) as (s1 & H1 & Ha1).
  { eexists. unfold observe_all in *. rewrite rfold_app, H0. simpl. unfold observe. rewrite Ht. simpl.
    split; [reflexivity|]. simpl. by rewrite Ha. }
  assert (validated s = false) as Hvf.
  { apply not_true_is_false. intros Hvt. apply Hv in Hvt as (_ & Hl & _). lia. }
  assert (Z.of_nat (length (obs ++ [(t_data x, t_data y)])) = count s + 1) as Hlen by (rewrite length_app; simpl; lia).
  exists s1. unfold report at 1. simpl. unfold report. rewrite Ha1.
  set (tot := match accumulated s with None => t | Some a => add_totals a t end).
  destruct (Z.eqb_spec (count s + 1) limit) as [Heq|Hneq]; simpl.
  - simpl. fold tot. destruct (_shadow_result_passed _ _ _ _) as [passed|e] eqn:Ep; simpl.
    + split_and!; [done|lia|done|]. split.
      * intros ->. split_and!; [pose proof (Zle_0_nat (length obs)); lia|lia|]. exists tot. split; [done|]. unfold passes. by rewrite Ep.
      * intros (_ & _ & t' & [= <-] & Hp). unfold passes in Hp. by rewrite Ep in Hp.
    + split_and!; [done|lia|done|]. rewrite Hvf. split; [done|]. intros (_ & _ & t' & [= <-] & Hp).
      unfold passes in Hp. by rewrite Ep in Hp.
  - split_and!; [done|lia|done|]. rewrite Hvf. split; [done|]. intros (_ & Hl & _). lia.
Qed.

Definition window (limit : Z) (l : list (tensor * tensor)) : list (list Z * list Z) := data (take (Z.to_nat limit) l).

Lemma window_length limit l : length (window limit l) = Nat.min (Z.to_nat limit) (length l).
Proof. unfold window, data. by rewrite length_map, length_take. Qed.

Lemma compare_all_window limit l p :
  int_env env "SPARK_TP4_SHADOW_COLLECTIVES" "10000" = Ok limit -> is_Some (backend p) -> stats_of p = init_stats ->
  comparable l ->
  is_Some (backend (compare_all l p)) /\ window_stats limit (window limit l) (stats_of (compare_all l p)).
Proof.
  intros Hlim Hb Hinit. induction l as [|[x y] l IH] using rev_ind; intros Hl.
  - split; [done|]. simpl. rewrite Hinit. exists init_stats. unfold window. rewrite take_nil. split_and!; try done.
    simpl. split; [done|]. intros (? & ? & _). lia.
  - apply Forall_app in Hl as [Hl Hxy]. apply Forall_cons in Hxy as [Hxy _]. simpl in Hxy.
    destruct (IH Hl) as [Hb1 Hw]. rewrite compare_all_snoc.
    destruct (shadow_compare_stats limit x y (compare_all l p) Hlim Hb1) as [Hb2 ->]. split; [done|].
    pose proof (window_length limit l) as Hlen. pose proof Hw as (s0 & _ & Hc & _).
    destruct (Z.lt_ge_cases (count (stats_of (compare_all l p))) limit) as [Hlt|Hge].
    + assert (length l < Z.to_nat limit)%nat as Hroom by lia.
      replace (window limit (l ++ [(x, y)])) with (window limit l ++ [(t_data x, t_data y)]); [by apply window_step|].
      unfold window. rewrite !take_ge by (rewrite ?length_app; simpl; lia). unfold data. by rewrite map_app.
    + unfold compare_stats. rewrite (proj2 (Z.ltb_ge _ _) Hge). simpl.
      replace (window limit (l ++ [(x, y)])) with (window limit l); [done|].
      unfold window. rewrite take_app_le by lia. done.
Qed.

(** Shadow window: starting from fresh statistics, whatever pairs of native
    and stock results are compared afterwards, a signature is promoted exactly
    when the first [limit] of them have been compared and their report passes the
    gates; then no element of any of these pairs was outside the tolerance, and
    none was non-finite on one side only.  Later comparisons change nothing. *)
Theorem promotion_needs_clean_window limit l p :
  int_env env "SPARK_TP4_SHADOW_COLLECTIVES" "10000" = Ok limit -> is_Some (backend p) -> stats_of p = init_stats ->
  comparable l ->
  let s := stats_of (compare_all l p) in
  count s = Z.min (Z.max 0 limit) (Z.of_nat (length l)) /\
  (validated s = true <-> 0 < limit <= Z.of_nat (length l) /\ exists t, report s = Ok t /\ passes t = true) /\
  (validated s = true ->
   Forall (fun x => isclose (fst x) (snd x) = true /\ (both_finite (fst x) (snd x) || same_nonfinite (fst x) (snd x)) = true)
     (pairs_of (window limit l))).
Proof.
  intros Hlim Hb Hinit Hl s. destruct (compare_all_window limit l p Hlim Hb Hinit Hl) as [_ (s0 & H0 & Hc & Ha & Hv)].
  fold s in Hc, Ha, Hv. pose proof (window_length limit l) as Hlen.
  assert (report s = report s0) as Hrep by (unfold report; by rewrite Ha).
  assert (validated s = true <-> 0 < limit <= Z.of_nat (length l) /\ exists t, report s = Ok t /\ passes t = true) as Hiff.
  { rewrite Hv, Hrep. split; intros [H1 H2]; [destruct H2 as [H2 H3]; split; [lia|done]|split_and!; [lia|lia|done]]. }
  split_and!; [lia|exact Hiff|]. intros Hval. apply Hiff in Hval as (Hrange & t & Ht & Hp).
  assert (window limit l <> []) as Hne by (intros Hnil; rewrite Hnil in Hlen; simpl in Hlen; lia).
  destruct (shadow_report_totals isclose _ _ Hne H0) as (_ & _ & t' & Ht' & Htot).
  assert (t' = t) as -> by congruence. apply passes_clean in Hp as [Hout Hnf].
  rewrite (to_outside _ _ _ Htot) in Hout. rewrite (to_nonfinite _ _ _ Htot) in Hnf.
  assert (forall (f : Z -> Z -> bool) l, count_nonzero (fun c r => negb (f c r)) l = 0 -> Forall (fun x => f (fst x) (snd x) = true) l) as Hall.
  { intros f k Hk. unfold count_nonzero in Hk. induction k as [|x k IH]; [constructor|]. simpl in Hk.
    destruct (f x.1 x.2) eqn:Ef; simpl in Hk; [|lia]. constructor; [done|]. by apply IH. }
  apply Forall_forall. intros x Hx. split.
  - apply (Forall_forall (fun x => isclose x.1 x.2 = true) (pairs_of (window limit l))); [by apply (Hall isclose)|done].
  - apply (Forall_forall (fun x => (both_finite x.1 x.2 || same_nonfinite x.1 x.2) = true) (pairs_of (window limit l)));
      [by apply (Hall (fun c r => both_finite c r || same_nonfinite c r))|done].
Qed.

End Promotion.

(** A window of two: the second comparison promotes. *)
Definition shadow_env : environment :=
  vars [("VLLM_SPARK_TP4_MODE", "shadow"); ("SPARK_TP4_SHADOW_COLLECTIVES", "2")]%string.
Definition shadow_key : signature := (24576, [2; 6144], PyStr.text "torch.bfloat16").
Definition shadow_start : @process (sample_native false) :=
  (fresh false) <| backend := Some (@new_backend (sample_native false) 0) |>.
Definition equal_pair : tensor * tensor := (sample_tensor 2 6144, sample_tensor 2 6144).

Lemma promotion_needs_clean_window_witness :
  let s l := @stats_of (sample_native false) shadow_key (@compare_all (sample_native false) shadow_env shadow_key l shadow_start) in
  validated (s [equal_pair]) = false /\ validated (s [equal_pair; equal_pair; equal_pair]) = true /\
  count (s [equal_pair; equal_pair; equal_pair]) = 2.
Proof.
  split; [vm_compute; reflexivity|].
  destruct (@promotion_needs_clean_window (sample_native false) shadow_env shadow_key 2
    [equal_pair; equal_pair; equal_pair] shadow_start) as (Hc & Hv & _).
  - vm_compute. reflexivity.
  - by eexists.
  - vm_compute. reflexivity.
  - repeat constructor; discriminate.
  - split; [|exact Hc]. apply Hv. split; [simpl; lia|]. eexists. split; [vm_compute; reflexivity|vm_compute; reflexivity].
Defined.
