(* ===== verification/VocabGather.v ===== *)
(** * SIRCL: the vocabulary all-gather adapter

    [campaign-2026-08/sircl/upstream/integrations/vllm/spark_tp4_vocab_allgather_backend.py]:
    the second adapter, for the all-gather of the logits: its environment, native
    sessions, shadow states, [_Backend], the replacement of
    [GroupCoordinator._all_gather_out_place] and [install].  What it shares with
    the all-reduce adapter (readers, the audit, the tensor type, the world of the
    native library) comes from there.  Log messages are left out. *)
From S2P Require Export SirclBackend.
Import RowProvider.

Module Vocab.

Definition _TP_GROUP : list ascii := PyStr.text "tp:0".
Definition _WORLD_SIZE : Z := 4.
Definition _VOCAB_PER_RANK : Z := 38720.
Definition _OUTPUT_VOCAB : Z := _VOCAB_PER_RANK * _WORLD_SIZE.
Definition _VOCAB_GRAPH_DEFAULT_PROGRESS_CPU : Z := 12.

(** ** Reading the environment *)
Section Readers.
Context `{Provider}.
Implicit Types env : environment.

Definition _mode env : result (list ascii) := SirclPorts._mode env "VLLM_SPARK_TP4_VOCAB_MODE" ["custom"; "shadow"].

Definition _positive_integer env (name : string) (default_value : Z) : result Z :=
  match PyStr.int_of (env_get env name (PyStr.str_of default_value)) with
  | None => Raise ValueError
  | Some value => let* _ := require (0 <? value) ValueError in Ok value
  end.

Definition _graph_enabled env : result bool := _flag env "VLLM_SPARK_TP4_GRAPH_Q1".

Definition _graph_preflight (h : host) : result (Z * Z) :=
  let* cpus := SirclSession._graph_preflight h in
  let '(submit_cpu, tp_progress_cpu) := cpus in
  let* progress_cpu :=
    match PyStr.int_of (env_get (environ h) "SPARK_TP4_GRAPH_VOCAB_PROGRESS_CPU" (PyStr.str_of _VOCAB_GRAPH_DEFAULT_PROGRESS_CPU)) with
    | None => Raise ValueError
    | Some n => Ok n
    end in
  let* _ := require (0 <=? progress_cpu) RuntimeError in
  let* _ := require (negb ((progress_cpu =? submit_cpu) || (progress_cpu =? tp_progress_cpu))) RuntimeError in
  Ok (submit_cpu, progress_cpu).

Definition _graph_control_ports env : result (Z * Z) := graph_vocab_control_ports env.
Definition _eager_control_ports env : result (Z * Z) := eager_vocab_control_ports env.

Definition _validate_control_ports env (ports : Z * Z) : result unit :=
  let* _ := validate_control_port_pair ports in
  let* _ := validate_active_port_namespace env in
  Ok tt.

(** [SUPPORTED_QUERY_ROWS]. *)
Definition _SUPPORTED_Q : list Z := range 1 (MAX_QUERY_ROWS + 1).

(** The number of query rows of an admitted call. *)
Definition _signature (c : communicator) (t : tensor) (dim : Z) (md : list ascii) : option Z :=
  let normalized_dim := if dim <? 0 then dim + Z.of_nat (List.length (t_shape t)) else dim in
  let rank := default (-1) (comm_rank_in_group c) in
  match t_shape t with
  | [q; width] =>
      if (text_is md "shadow" || text_is md "custom") && text_eqb (comm_unique_name c) _TP_GROUP
         && (default 0 (comm_world_size c) =? _WORLD_SIZE) && (0 <=? rank) && (rank <? _WORLD_SIZE)
         && (normalized_dim =? 1) && bool_decide (q ∈ _SUPPORTED_Q) && (width =? _VOCAB_PER_RANK) && dense_bf16 t
      then Some q else None
  | _ => None
  end.

End Readers.

(** ** The native library *)

(** A call of a creating function: [_NativeVocabConfig], and the CPUs of
    [_NativeVocabGraphConfig], which is the other function's. *)
Record vocab_request := mkRequest {
  q_entry : string;
  q_rank : Z;
  q_peers : list ascii * list ascii;
  q_devices : list ascii * list ascii;
  q_gids : Z * Z;
  q_control_ports : Z * Z;
  q_graph_cpus_plus_one : option (Z * Z)
}.

(** The functions of the library on handles, inputs, outputs, rows and streams
    ([None] is a null handle or a non-zero result; what an output holds
    afterwards is returned), the stock all-gather, and PyTorch: a new tensor, and
    the number of bytes in which two differ.  Their world is that of the
    all-reduce library. *)
Class NativeVocab `{Native} := {
  vocab_handle : Type;
  create_vocab : vocab_request -> world -> option vocab_handle * world;
  vocab_allgather : vocab_handle -> tensor -> tensor -> Z -> Z -> world -> option tensor * world;
  vocab_capture_allgather : vocab_handle -> tensor -> tensor -> Z -> Z -> world -> option tensor * world;
  vocab_get_graph_status : vocab_handle -> world -> option native_status * world;
  original_all_gather : tensor -> Z -> world -> result tensor * world;
  empty : list Z -> list ascii -> Z -> tensor;
  count_byte_differences : tensor -> tensor -> result Z
}.

Section Adapter.
Context `{Provider, NativeVocab}.

(** ** Sessions

    The ports are kept for the statements; the code only passes them on. *)
Record _NativeVocabSession := mkSession {
  _handle : vocab_handle;
  _graph_only : bool;
  _capture_stream : option Z;
  _ports : Z * Z
}.
#[export] Instance eta_session : Eta _NativeVocabSession := fun s =>
  mkSession (_handle s) (_graph_only s) (_capture_stream s) (_ports s).

Definition check_symbols (graph_only : bool) : result unit :=
  let* _ := require (exports "spark_tp4_vocab_allgather_create") AttributeError in
  let* _ := require (negb graph_only || exports "spark_tp4_vocab_graph_create") AttributeError in
  let* _ := require (exports "spark_tp4_vocab_allgather") AttributeError in
  let* _ := require (negb graph_only
                     || exports "spark_tp4_vocab_capture_allgather" && exports "spark_tp4_vocab_get_graph_status") AttributeError in
  require (exports "spark_tp4_vocab_allgather_destroy") AttributeError.

Definition make_request (env : environment) (rank : Z) (ports : Z * Z) (affinity : option (Z * Z)) : result vocab_request :=
  match _DEFAULT_PEERS !! Z.to_nat rank with
  | None => Raise KeyError
  | Some (default_peer0, default_peer1) =>
      let text name default_text := env_get env name (PyStr.text default_text) in
      let* gid0 := int_env env "SPARK_TP4_GID0" "3" in
      let* gid1 := int_env env "SPARK_TP4_GID1" "3" in
      Ok (mkRequest (if affinity then "spark_tp4_vocab_graph_create" else "spark_tp4_vocab_allgather_create") (u32 rank)
            (text "SPARK_TP4_PEER0" default_peer0, text "SPARK_TP4_PEER1" default_peer1)
            (text "SPARK_TP4_DEVICE0" "rocep1s0f0"%string, text "SPARK_TP4_DEVICE1" "rocep1s0f1"%string)
            (u8 gid0, u8 gid1) (u16 (fst ports), u16 (snd ports))
            ((fun cpus => (u32 (fst cpus + 1), u32 (snd cpus + 1))) <$> affinity))
  end.

(** What the constructor does before it calls the library. *)
Definition prepare (env : environment) (rank : Z) (graph_only : bool) (control_ports affinity : option (Z * Z))
    : result (vocab_request * (Z * Z)) :=
  let* _ := require ((0 <=? rank) && (rank <=? 3)) ValueError in
  let* _ := require (Bool.eqb graph_only (bool_decide (is_Some affinity))) ValueError in
  let* library_path := match env "SPARK_TP4_LIBRARY" with Some path => Ok path | None => Raise KeyError end in
  let* _ := load_library library_path in
  let* _ := check_symbols graph_only in
  let* ports := match control_ports with None => _eager_control_ports env | Some ports => Ok ports end in
  let* _ := _validate_control_ports env ports in
  let* request := make_request env rank ports affinity in
  Ok (request, ports).

Definition new_session (env : environment) (rank : Z) (graph_only : bool) (control_ports affinity : option (Z * Z))
    : proc world _NativeVocabSession :=
  let! p := plift (prepare env rank graph_only control_ports affinity) in
  let '(request, ports) := p in
  let! created := fun w => let '(h, w) := create_vocab request w in (Ret h, w) in
  match created with
  | None => praise RuntimeError
  | Some h => pret (mkSession h graph_only None ports)
  end.

Definition from_library (m : world -> option tensor * world) : proc world tensor := fun w =>
  match m w with
  | (Some output, w) => (Ret output, w)
  | (None, w) => (Exn RuntimeError, w)
  end.

Definition all_gather (s : _NativeVocabSession) (input output : tensor) (query_rows stream : Z) : proc world tensor :=
  from_library (vocab_allgather (_handle s) input output (u32 query_rows) stream).

Definition check_capture (s : _NativeVocabSession) (input output : tensor) (query_rows stream : Z) : result unit :=
  let* _ := require (_graph_only s) RuntimeError in
  let* _ := require (bool_decide (query_rows ∈ _SUPPORTED_Q) && bool_decide (t_shape input = [query_rows; _VOCAB_PER_RANK])
                     && bool_decide (t_shape output = [query_rows; _OUTPUT_VOCAB]) && dense_bf16 input && dense_bf16 output) ValueError in
  require (match _capture_stream s with None => true | Some stable => stream =? stable end) ValueError.

(** The session comes back with its stable stream. *)
Definition capture (s : _NativeVocabSession) (input output : tensor) (query_rows stream : Z)
    : proc world (tensor * _NativeVocabSession) :=
  let! _ := plift (check_capture s input output query_rows stream) in
  let! output := from_library (vocab_capture_allgather (_handle s) input output (u32 query_rows) stream) in
  pret (output, s <| _capture_stream := Some stream |>).

Record vocab_status := mkStatus {
  captured_nodes : Z;
  published_sequence : Z;
  consumed_sequence : Z;
  completed_sequence : Z;
  overflow_sequence : Z;
  capture_configured : bool;
  polling_enabled : bool;
  host_native_atomics : bool;
  submit_affinity_verified : bool;
  progress_affinity_verified : bool;
  submit_cpu : option Z;
  progress_cpu : option Z;
  replay_advanced : bool;
  replay_caught_up : bool;
  fatal : bool
}.

Definition decode_status (n : native_status) : result vocab_status :=
  let* _ := require (struct_size n =? sizeof_graph_status) RuntimeError in
  let published := n_published_sequence n in
  let flag := has_flag (flags n) in
  Ok (mkStatus (n_captured_nodes n) published (n_consumed_sequence n) (n_completed_sequence n) (n_overflow_sequence n)
        (flag _GRAPH_STATUS_CAPTURE_CONFIGURED) (flag _GRAPH_STATUS_POLLING_ENABLED) (flag _GRAPH_STATUS_HOST_NATIVE_ATOMICS)
        (flag _GRAPH_STATUS_SUBMIT_AFFINITY_VERIFIED) (flag _GRAPH_STATUS_PROGRESS_AFFINITY_VERIFIED)
        (cpu_of_plus_one (graph_submit_cpu_plus_one n)) (cpu_of_plus_one (graph_progress_cpu_plus_one n))
        (0 <? published)
        ((0 <? published) && (published =? n_consumed_sequence n) && (published =? n_completed_sequence n))
        (negb (n_overflow_sequence n =? 0))).

Definition graph_status (s : _NativeVocabSession) : proc world vocab_status :=
  let! _ := plift (require (_graph_only s) RuntimeError) in
  let! native := fun w => let '(n, w) := vocab_get_graph_status (_handle s) w in (Ret n, w) in
  match native with
  | None => praise RuntimeError
  | Some native => plift (decode_status native)
  end.

(** ** Shadow states *)

Record _ShadowState := mkShadow {
  candidate : tensor;
  mismatches : option Z;
  count : Z;
  validated : bool
}.
#[export] Instance eta_shadow : Eta _ShadowState := fun s => mkShadow (candidate s) (mismatches s) (count s) (validated s).

Definition new_shadow (output : tensor) : _ShadowState := mkShadow output None 0 false.

Definition observe (reference : tensor) (s : _ShadowState) : result _ShadowState :=
  let* mismatch := count_byte_differences (candidate s) reference in
  Ok ((s <| mismatches := Some (match mismatches s with None => mismatch | Some m => m + mismatch end) |>) <| count ::= Z.succ |>).

Definition mismatch_count (s : _ShadowState) : Z := default 0 (mismatches s).

(** ** The backend

    The graph session is an object shared with the module's table: both hold its
    place in [graph_objects]. *)
Record _Backend := mkBackend {
  rank : Z;
  _session : option _NativeVocabSession;
  _graph_session : option nat;
  disabled : bool;
  graph_disabled : bool;
  shadows : gmap Z _ShadowState
}.
#[export] Instance eta_backend : Eta _Backend := fun b =>
  mkBackend (rank b) (_session b) (_graph_session b) (disabled b) (graph_disabled b) (shadows b).

Definition new_backend (rank : Z) : _Backend := mkBackend rank None None false false ∅.

(** The process, with the attributes of the group that is called. *)
Record process := mkProcess {
  backend : option _Backend;
  group_event_counts : gmap string Z;
  graph_objects : list _NativeVocabSession;
  _vocab_graph_sessions : gmap Z nat;
  _graph_event_counts : gmap string Z;
  _installed : bool;
  all_gather_replaced : bool;
  audit_limit : Z;
  stock_audit : audit;
  reporter : option Z;
  outside : world
}.
#[export] Instance eta_process : Eta process := fun p =>
  mkProcess (backend p) (group_event_counts p) (graph_objects p) (_vocab_graph_sessions p) (_graph_event_counts p) (_installed p)
    (all_gather_replaced p) (audit_limit p) (stock_audit p) (reporter p) (outside p).

Notation M := (proc process).

Definition run_outside {A} (m : proc world A) : M A := fun p =>
  let '(r, w) := m (outside p) in (r, p <| outside := w |>).
Definition update_backend (f : _Backend -> _Backend) : M unit := pmodify (fun p => p <| backend ::= fmap f |>).

Definition ensure_status_reporter (env : environment) (rank : Z) : M unit :=
  if SirclAudit.enabled env then
    pmodify (fun p => match reporter p with Some _ => p | None => p <| reporter := Some rank |> end)
  else pret tt.

Definition lift_audit (f : Z -> audit -> result audit) : M unit := fun p =>
  match f (audit_limit p) (stock_audit p) with
  | Ok a => (Ret tt, p <| stock_audit := a |>)
  | Raise e => (Exn e, p)
  end.

Definition _record_stock_path (env : environment) (capturing : bool) (reason : string)
    (call : option (communicator * tensor * Z)) : M unit :=
  let! record := plift (if SirclAudit.enabled env
                        then match call with
                             | Some (c, t, dim) =>
                                 let* s := make_signature (signature_arguments c t) in
                                 let* family := classify_stock_family "group_all_gather" s (Some dim) in
                                 Ok (family, Some s)
                             | None => Ok ("vocabulary_all_gather"%string, None)
                             end
                        else Ok ("vocabulary_all_gather"%string, None)) in
  lift_audit (fun limit => record_stock limit env (PyStr.text (fst record)) capturing (PyStr.text reason) (snd record)).

Definition _record_graph_event (c : communicator) (event : string) : M Z :=
  let! _ := pmodify (fun p => (p <| group_event_counts ::= incr_event event |>) <| _graph_event_counts ::= incr_event event |>) in
  let! count := pget (fun p => default 0 (group_event_counts p !! event)) in
  if (count =? 1) || (count mod 128 =? 0) then
    match comm_rank_in_group c with Some _ => pret count | None => praise AttributeError end
  else pret count.

(** The eager session; a failure to open one disables the adapter. *)
Definition session (env : environment) (b : _Backend) : M (option _NativeVocabSession) :=
  if disabled b then pret None
  else
    match _session b with
    | Some s => pret (Some s)
    | None =>
        on_exception (
          let! s := run_outside (new_session env (rank b) false None None) in
          let! _ := update_backend (fun b => b <| _session := Some s |>) in
          pret (Some s))
        (let! _ := update_backend (fun b => b <| disabled := true |>) in pret None)
    end.

Definition prepare_graph (h : host) (b : _Backend) : M (option nat) :=
  let env := environ h in
  if graph_disabled b then pret None
  else
    match _graph_session b with
    | Some s => pret (Some s)
    | None =>
        on_exception (
          let! args := plift (let* affinity := _graph_preflight h in let* ports := _graph_control_ports env in Ok (affinity, ports)) in
          let '(affinity, ports) := args in
          let! s := run_outside (new_session env (rank b) true (Some ports) (Some affinity)) in
          let! place := pget (fun p => List.length (graph_objects p)) in
          let! _ := pmodify (fun p => p <| graph_objects ::= fun l => l ++ [s] |>) in
          let! _ := update_backend (fun b => b <| _graph_session := Some place |>) in
          let! _ := pmodify (fun p => p <| _vocab_graph_sessions ::= fun m => <[rank b := place]> m |>) in
          let! _ := ensure_status_reporter env (rank b) in
          pret (Some place))
        (let! _ := update_backend (fun b => b <| graph_disabled := true |>) in pret None)
    end.

Definition put_shadow (q : Z) (s : _ShadowState) : M unit := update_backend (fun b => b <| shadows ::= fun m => <[q := s]> m |>).

Definition _new_output (t : tensor) (q : Z) : tensor := empty [q; _OUTPUT_VOCAB] (t_dtype t) (t_device t).

(** The shadow of a row count; a new one holds a new tensor. *)
Definition shadow (b : _Backend) (t : tensor) (q : Z) : _ShadowState :=
  match shadows b !! q with Some s => s | None => new_shadow (_new_output t q) end.

(** ** Status *)

Fixpoint status_items (objects : list _NativeVocabSession) (sessions : list (Z * nat)) : proc world (list (Z * vocab_status)) :=
  match sessions with
  | [] => pret []
  | (rank, place) :: sessions =>
      match objects !! place with
      | None => praise IndexError
      | Some s =>
          let! status := graph_status s in
          let! rest := status_items objects sessions in
          pret ((rank, status) :: rest)
      end
  end.

Definition vocab_graph_status_snapshot : M (list (Z * vocab_status)) := fun p =>
  run_outside (status_items (graph_objects p) (sorted_items Z.compare (_vocab_graph_sessions p))) p.

(** The events are sorted by name; a map here. *)
Definition vocab_graph_diagnostic_snapshot : M (list (Z * vocab_status) * gmap string Z) :=
  let! sessions := vocab_graph_status_snapshot in
  let! events := pget _graph_event_counts in
  pret (sessions, events).

(** ** The replacement of [_all_gather_out_place] *)

Definition original (t : tensor) (dim : Z) : M tensor :=
  run_outside (fun w => let '(r, w) := original_all_gather t dim w in
                        match r with Ok t => (Ret t, w) | Raise e => (Exn e, w) end).

(** The stock path: recorded, then taken. *)
Definition stock (env : environment) (capturing : bool) (reason : string) (call : option (communicator * tensor * Z))
    (t : tensor) (dim : Z) : M tensor :=
  let! _ := _record_stock_path env capturing reason call in
  original t dim.

Definition get_backend (c : communicator) : M _Backend :=
  let! b := pget backend in
  match b with
  | Some b => pret b
  | None =>
      match comm_rank_in_group c with
      | None => praise AttributeError
      | Some r =>
          let! _ := pmodify (fun p => p <| backend := Some (new_backend r) |>) in
          pret (new_backend r)
      end
  end.

(** Capturing with the prepared session: any failure, like its absence, ends the
    process. *)
Definition capture_on (c : communicator) (place : nat) (t : tensor) (q stream : Z) : M tensor :=
  let! objects := pget graph_objects in
  match objects !! place with
  | None => praise IndexError
  | Some s =>
      or_exit (
        let! captured := run_outside (capture s t (_new_output t q) q stream) in
        let! _ := pmodify (fun p => p <| graph_objects ::= <[place := snd captured]> |>) in
        let! _ := _record_graph_event c "captured_nodes" in
        pret (fst captured))
  end.

Definition capture_all_gather (env : environment) (c : communicator) (t : tensor) (dim q stream : Z) (md : list ascii) : M tensor :=
  let! graph := plift (if text_is md "custom" then _graph_enabled env else Ok false) in
  if graph : bool then
    let! b := pget backend in
    match b ≫= _graph_session with
    | Some place => capture_on c place t q stream
    | None => let! _ := _record_graph_event c "cold_fallbacks" in pexit
    end
  else stock env true "graph_transport_disabled" None t dim.

(** The comparison that fills the window decides: a difference raises. *)
Definition settle (limit q : Z) (s : _ShadowState) (reference : tensor) : M tensor :=
  if negb (count s =? limit) then pret reference
  else
    let! _ := plift (require (mismatch_count s =? 0) RuntimeError) in
    let! _ := put_shadow q (s <| validated := true |>) in
    pret reference.

Definition promotes (env : environment) : bool := env_is env "SPARK_TP4_VOCAB_SHADOW_PROMOTE" "1" "0".

(** The native candidate is written into the shadow's own tensor and compared with
    the stock result, which is returned. *)
Definition compare_all_gather (env : environment) (s : _NativeVocabSession) (sh : _ShadowState) (t : tensor) (dim q stream limit : Z)
    : M tensor :=
  let! output := or_exit (run_outside (all_gather s t (candidate sh) q stream)) in
  let sh := sh <| candidate := output |> in
  let! _ := put_shadow q sh in
  let! compared := or_exit (
    let! reference := stock env false "shadow_reference" None t dim in
    let! sh := plift (observe reference sh) in
    let! _ := put_shadow q sh in
    pret (sh, reference)) in
  settle limit q (fst compared) (snd compared).

Definition run_custom (s : _NativeVocabSession) (t : tensor) (q stream : Z) : M tensor :=
  or_exit (run_outside (all_gather s t (_new_output t q) q stream)).

Definition shadow_all_gather (env : environment) (s : _NativeVocabSession) (t : tensor) (dim q stream : Z) : M tensor :=
  let! limit := plift (_positive_integer env "SPARK_TP4_VOCAB_SHADOW_COLLECTIVES" 8) in
  let! b := pget backend in
  let sh := match b with Some b => shadow b t q | None => new_shadow (_new_output t q) end in
  let! _ := put_shadow q sh in
  let promoted := validated sh && promotes env in
  if negb promoted && (limit <=? count sh) then stock env false "shadow_reference_only" None t dim
  else if promoted then run_custom s t q stream
  else compare_all_gather env s sh t dim q stream limit.

Definition eager_all_gather (h : host) (c : communicator) (t : tensor) (dim q stream : Z) (md : list ascii) : M tensor :=
  let env := environ h in
  let! b := get_backend c in
  let! graph := plift (if text_is md "custom" then _graph_enabled env else Ok false) in
  let! _ := if graph : bool then
              let! graph_session := prepare_graph h b in
              match graph_session with Some _ => pret tt | None => pexit end
            else pret tt in
  let! b := get_backend c in
  let! s := session env b in
  match s with
  | None => if text_is md "custom" then pexit else stock env false "native_session_unavailable" None t dim
  | Some s => if text_is md "custom" then run_custom s t q stream else shadow_all_gather env s t dim q stream
  end.

Definition spark_vocab_all_gather (h : host) (c : communicator) (t : tensor) (dim : Z) (capturing : bool) (stream : Z) : M tensor :=
  let env := environ h in
  let! md := plift (_mode env) in
  match _signature c t dim md with
  | None => stock env capturing "ineligible_signature" (Some (c, t, dim)) t dim
  | Some q => if capturing then capture_all_gather env c t dim q stream md else eager_all_gather h c t dim q stream md
  end.

(** ** Installation *)

Definition install (env : environment) : M unit :=
  let! md := plift (_mode env) in
  let! installed := pget _installed in
  if (installed : bool) || bool_decide (md = []) then pret tt
  else
    let! _ := plift (
      let* _ := if text_is md "custom" then _graph_enabled env else Ok false in
      let* _ := if text_is md "shadow" then _positive_integer env "SPARK_TP4_VOCAB_SHADOW_COLLECTIVES" 8 else Ok 0 in
      validate_active_port_namespace env) in
    pmodify (fun p => (p <| all_gather_replaced := true |>) <| _installed := true |>).

End Adapter.
End Vocab.

(** ** Sample runs

    Each rank's part is copied into the output; a broken library refuses to run. *)
Import Vocab.

Definition sample_vocab (broken : bool) : @NativeVocab (sample_native false) :=
  @Build_NativeVocab (sample_native false) Z
    (fun _ w => (Some w, w + 1))
    (fun _ i o _ _ w => (if broken then None else Some (mkTensor (t_shape o) (t_dtype o) (t_device o) true true (t_data i)), w))
    (fun _ i o _ _ w => (if broken then None else Some (mkTensor (t_shape o) (t_dtype o) (t_device o) true true (t_data i)), w))
    (fun _ w => (None, w))
    (fun t _ w => (Ok (mkTensor [default 0 (head (t_shape t)); _OUTPUT_VOCAB] (t_dtype t) (t_device t) true true (t_data t)), w))
    (fun shape dtype device => mkTensor shape dtype device true true [])
    (fun x y => Ok (zsum (zip_with (fun a b => if a =? b then 0 else 1) (t_data x) (t_data y)))).

Definition vocab_process `{NativeVocab} (w : world) : process := mkProcess None ∅ [] ∅ ∅ false false 4 empty_audit None w.

Definition vocab_tensor (rows : Z) (data : list Z) : tensor :=
  mkTensor [rows; _VOCAB_PER_RANK] (PyStr.text "torch.bfloat16") 0 true true data.

Definition vocab_host (md : string) (l : list (string * string)) : host :=
  sample_host ([("VLLM_SPARK_TP4_VOCAB_MODE", md)]%string ++ l).
Definition custom_vocab_host : host := vocab_host "custom" [("VLLM_SPARK_TP4_GRAPH_Q1", "1")]%string.

Definition vocab_outcomes (h : host) (broken : bool) (calls : list (tensor * bool * Z))
    : list (outcome tensor) * @process _ (sample_vocab broken) :=
  foldl (fun '(os, p) '(t, capturing, stream) =>
    let '(o, p) := @spark_vocab_all_gather no_provider (sample_native false) (sample_vocab broken) h sample_comm t 1 capturing stream p in
    (os ++ [o], p)) ([], @vocab_process _ (sample_vocab broken) 0) calls.

Definition data_of (o : outcome tensor) : option (list Z) := match o with Ret t => Some (t_data t) | _ => None end.

(** Eager opens both sessions; a capture on another stream than the first ends the
    process; so does a capture before any eager call. *)
Example vocab_streams :
  map data_of (fst (vocab_outcomes custom_vocab_host false
    [(vocab_tensor 2 [7], false, 5); (vocab_tensor 2 [8], true, 5); (vocab_tensor 2 [9], true, 6)])) = [Some [7]; Some [8]; None] /\
  fst (vocab_outcomes custom_vocab_host false [(vocab_tensor 2 [7], true, 5)]) = [Exit] /\
  fst (vocab_outcomes custom_vocab_host true [(vocab_tensor 2 [7], false, 5)]) = [Exit].
Proof. vm_compute. repeat split; reflexivity. Qed.

(** The bound on the rows is that of the process, not the six of the message. *)
Example capture_rows :
  is_ok (@check_capture {| import_module := @import_module no_provider; MAX_QUERY_ROWS := 40 |} (sample_native false) (sample_vocab false)
    (@mkSession _ (sample_vocab false) 0 true None (10110, 10111)) (vocab_tensor 40 [])
    (mkTensor [40; _OUTPUT_VOCAB] (PyStr.text "torch.bfloat16") 0 true true []) 40 5) = true.
Proof. vm_compute. reflexivity. Qed.
