(* ===== verification/VocabDispatch.v ===== *)
(** * SIRCL: the vocabulary adapter never splits a collective

    Theorems on [Vocab.spark_vocab_all_gather] over any native library: in custom
    mode an admitted call takes the native path or ends the process, and in shadow
    mode it returns the stock result until a full window of comparisons without a
    differing byte. *)
From S2P Require Export VocabGather SirclDispatch.
Import RowProvider Vocab.

(** ** Observing the outside world *)
Inductive vevent :=
  | VCreated (ok : bool)
  | VGathered (rows : Z) (output : option tensor)
  | VCaptured (rows : Z) (output : option tensor)
  | VStock (output : result tensor).

Class ObservedVocab `{NativeVocab} := {
  vevents : world -> list vevent;
  vcreated r w : vevents (snd (create_vocab r w)) = vevents w ++ [VCreated (ok_of (fst (create_vocab r w)))];
  vgathered h i o q s w : vevents (snd (vocab_allgather h i o q s w)) = vevents w ++ [VGathered q (fst (vocab_allgather h i o q s w))];
  vcaptured h i o q s w :
    vevents (snd (vocab_capture_allgather h i o q s w)) = vevents w ++ [VCaptured q (fst (vocab_capture_allgather h i o q s w))];
  vstock t d w : vevents (snd (original_all_gather t d w)) = vevents w ++ [VStock (fst (original_all_gather t d w))]
}.

(** Any library can be given a log. *)
Definition vlogged {A W} (e : A -> vevent) (m : W -> A * W) (w : W * list vevent) : A * (W * list vevent) :=
  let '(a, w') := m (fst w) in (a, (w', snd w ++ [e a])).
Definition silent {A W} (m : W -> A * W) (w : W * list vevent) : A * (W * list vevent) :=
  let '(a, w') := m (fst w) in (a, (w', snd w)).

Definition with_log (N : Native) : Native := {|
  world := @world N * list vevent;
  handle := @handle N;
  load_library := @load_library N;
  exports := @exports N;
  create_session r := silent (@create_session N r);
  native_all_reduce h t o := silent (@native_all_reduce N h t o);
  native_capture h t o q := silent (@native_capture N h t o q);
  native_graph_status h := silent (@native_graph_status N h);
  original_all_reduce t := silent (@original_all_reduce N t);
  empty_like := @empty_like N;
  empty_unbind := @empty_unbind N;
  isclose := @isclose N
|}.

Definition vtraced (N : Native) (V : @NativeVocab N) : @NativeVocab (with_log N) :=
  @Build_NativeVocab (with_log N) (@vocab_handle N V)
    (fun r => vlogged (fun h => VCreated (ok_of h)) (create_vocab r))
    (fun h i o q s => vlogged (VGathered q) (vocab_allgather h i o q s))
    (fun h i o q s => vlogged (VCaptured q) (vocab_capture_allgather h i o q s))
    (fun h => silent (vocab_get_graph_status h))
    (fun t d => vlogged VStock (original_all_gather t d))
    (@empty N V) (@count_byte_differences N V).

Lemma vlogged_event {A W} (e : A -> vevent) (m : W -> A * W) w :
  snd (snd (vlogged e m w)) = snd w ++ [e (fst (vlogged e m w))].
Proof. unfold vlogged. by destruct (m (fst w)). Qed.

#[export] Instance vtraced_observed (N : Native) (V : @NativeVocab N) : @ObservedVocab (with_log N) (vtraced N V).
Proof.
  refine {| vevents := snd : @world (with_log N) -> list vevent |}; intros; simpl.
  - exact (vlogged_event (fun h => VCreated (ok_of h)) (@create_vocab N V r) w).
  - exact (vlogged_event (VGathered q) (@vocab_allgather N V h i o q s) w).
  - exact (vlogged_event (VCaptured q) (@vocab_capture_allgather N V h i o q s) w).
  - exact (vlogged_event VStock (@original_all_gather N V t d) w).
Defined.

Definition is_collective (e : vevent) : bool := match e with VCreated _ => false | _ => true end.

Section Dispatch.
Context `{HP : Provider, HV : NativeVocab, !ObservedVocab}.

(** The collectives the process has entered. *)
Definition entered (p : process) : list vevent := List.filter is_collective (vevents (outside p)).

Lemma entered_outside p w new :
  vevents w = vevents (outside p) ++ new -> entered (p <| outside := w |>) = entered p ++ List.filter is_collective new.
Proof. intros He. unfold entered. simpl. by rewrite He, List.filter_app. Qed.

(** ** Walking through the adapter

    [I] is an assertion on the collectives entered and on whatever a step leaves
    alone; [neutral] steps of the state keep it. *)
Section Frame.
Context (I E X : process -> Prop).
Notation framed m := (spec I m (fun _ => I) E X).

Record vframe (neutral : (process -> process) -> Prop) : Prop := {
  vframe_exn p : I p -> E p;
  vframe_exit p : I p -> X p;
  vframe_modify f p : neutral f -> I p -> I (f p);
  vframe_world p w : entered (p <| outside := w |>) = entered p -> I p -> I (p <| outside := w |>)
}.

Context (neutral : (process -> process) -> Prop) (HF : vframe neutral).

Lemma v_ret {A} (a : A) : framed (pret a).
Proof. by apply spec_ret. Qed.
Lemma v_raise {A} e : framed (praise (A := A) e).
Proof. apply spec_raise, HF. Qed.
Lemma v_exit {A} : framed (pexit (A := A)).
Proof. apply spec_exit, HF. Qed.
Lemma v_get {A} (f : process -> A) : framed (pget f).
Proof. by apply spec_get. Qed.
Lemma v_lift {A} (m : result A) : framed (plift m).
Proof. apply spec_lift; [done|apply HF]. Qed.
Lemma v_modify f : neutral f -> framed (pmodify f).
Proof. intros Hf. apply spec_modify. intros p Hp. by apply (vframe_modify _ HF). Qed.
Lemma v_lift_audit f : (forall a, neutral (fun p => p <| stock_audit := a |>)) -> framed (lift_audit f).
Proof.
  intros Hn p Hp. unfold lift_audit. destruct (f _ _) as [a|e]; [|by apply (vframe_exn _ HF)].
  by apply (vframe_modify _ HF (fun p => p <| stock_audit := a |>)).
Qed.

Lemma v_new_session env r g ports affinity : framed (run_outside (new_session env r g ports affinity)).
Proof.
  intros p Hp. unfold run_outside, new_session, pbind, plift.
  destruct (prepare env r g ports affinity) as [[request prs]|e]; simpl.
  - pose proof (vcreated request (outside p)) as He. destruct (create_vocab request (outside p)) as [[hd|] w] eqn:Ec; simpl in *.
    + apply (vframe_world _ HF); [|done]. rewrite (entered_outside p w _ He). simpl. apply app_nil_r.
    + apply (vframe_exn _ HF), (vframe_world _ HF); [|done]. rewrite (entered_outside p w _ He). simpl. apply app_nil_r.
  - apply (vframe_exn _ HF), (vframe_world _ HF); [|done]. done.
Qed.

End Frame.

(** ** Custom mode *)

Definition at_ (l : list vevent) (p : process) : Prop := entered p = l.
Definition same_world (f : process -> process) : Prop := forall p, outside (f p) = outside p.

Lemma at_frame l (X : process -> Prop) : (forall p, at_ l p -> X p) -> vframe (at_ l) (at_ l) X same_world.
Proof.
  intros HX. split; [done|done| |].
  - intros f p Hf Hp. unfold at_, entered in *. by rewrite Hf.
  - intros p w Hw Hp. unfold at_ in *. congruence.
Qed.

(** A native run is entered, with what it gives. *)
Lemma run_library l (Q : tensor -> process -> Prop) (E X : process -> Prop) (ev : option tensor -> vevent) m :
  (forall o, is_collective (ev o) = true) ->
  (forall w, vevents (snd (m w)) = vevents w ++ [ev (fst (m w))]) ->
  (forall t p, at_ (l ++ [ev (Some t)]) p -> Q t p) -> (forall p, at_ (l ++ [ev None]) p -> E p) ->
  spec (at_ l) (run_outside (from_library m)) Q E X.
Proof.
  intros Hev He HQ HE p Hp. unfold run_outside, from_library. specialize (He (outside p)).
  destruct (m (outside p)) as [[t|] w] eqn:Em; simpl in *; (apply HQ || apply HE); unfold at_ in *;
    rewrite (entered_outside p w _ He); simpl; by rewrite Hev, Hp.
Qed.

#[local] Hint Extern 5 (spec _ (pret _) _ _ _) => (eapply v_ret) : vocab.
#[local] Hint Extern 5 (spec _ (pget _) _ _ _) => (eapply v_get) : vocab.
#[local] Hint Extern 5 (spec _ (praise _) _ _ _) => (eapply v_raise; eassumption) : vocab.
#[local] Hint Extern 5 (spec _ pexit _ _ _) => (eapply v_exit; eassumption) : vocab.
#[local] Hint Extern 5 (spec _ (plift _) _ _ _) => (eapply v_lift; eassumption) : vocab.
#[local] Hint Extern 5 (spec _ (run_outside (new_session _ _ _ _ _)) _ _ _) => (eapply v_new_session; eassumption) : vocab.

Section Steps.
Context (I E X : process -> Prop) (neutral : (process -> process) -> Prop) (HF : vframe I I X neutral).
Notation framed m := (spec I m (fun _ => I) I X).

Context (neutral_events : forall f, neutral (fun p => p <| group_event_counts ::= f |> <| _graph_event_counts ::= f |>))
  (neutral_objects : forall f, neutral (fun p => p <| graph_objects ::= f |>))
  (neutral_table : forall f, neutral (fun p => p <| _vocab_graph_sessions ::= f |>))
  (neutral_reporter : forall r, neutral (fun p => match reporter p with Some _ => p | None => p <| reporter := Some r |> end))
  (neutral_audit : forall a, neutral (fun p => p <| stock_audit := a |>))
  (neutral_backend : forall f, (forall b, shadows (f b) = shadows b) -> neutral (fun p => p <| backend ::= fmap f |>)).

Lemma step_event c e : framed (_record_graph_event c e).
Proof. unfold _record_graph_event. walk ltac:(solve [auto with vocab | apply v_modify with neutral; auto]). Qed.

Lemma step_update f : (forall b, shadows (f b) = shadows b) -> framed (update_backend f).
Proof. intros Hf. apply v_modify with neutral; auto. Qed.

Lemma step_reporter env r : framed (ensure_status_reporter env r).
Proof. unfold ensure_status_reporter. walk ltac:(solve [auto with vocab | apply v_modify with neutral; auto]). Qed.

Lemma step_record env capturing reason call : framed (_record_stock_path env capturing reason call).
Proof. unfold _record_stock_path. walk ltac:(solve [auto with vocab | apply v_lift_audit with neutral; auto]). Qed.

Lemma step_session env b : framed (session env b).
Proof.
  unfold session. destruct (disabled b); [auto with vocab|]. destruct (_session b); [auto with vocab|].
  apply spec_on_exception with I; walk ltac:(solve [auto with vocab | by apply step_update]).
Qed.

Lemma step_prepare_graph h b : framed (prepare_graph h b).
Proof.
  unfold prepare_graph. cbv zeta. destruct (graph_disabled b); [auto with vocab|]. destruct (_graph_session b); [auto with vocab|].
  apply spec_on_exception with I; walk ltac:(solve [auto with vocab | by apply step_update | apply step_reporter
    | apply v_modify with neutral; auto]).
Qed.

End Steps.

Lemma same_world_backend f : same_world (fun p => p <| backend ::= f |>).
Proof. by intros p. Qed.

Ltac same := (by intros p) || (intros p; by destruct (reporter p)) || (intros; intros p; try destruct (reporter p); done).

Lemma signature_rank c t dim md q : _signature c t dim md = Some q -> exists r, comm_rank_in_group c = Some r.
Proof.
  unfold _signature. destruct (t_shape t) as [|q' [|width [|]]]; try done. destruct (comm_rank_in_group c) as [r|]; [by exists r|].
  simpl. by rewrite !andb_false_r.
Qed.

Section Custom.
Context (h : host) (c : communicator) (t : tensor) (dim stream q r : Z) (md : list ascii) (l : list vevent).
Context (Hcustom : text_is md "custom" = true) (Hrank : comm_rank_in_group c = Some r).

Lemma at_get_backend X : spec (at_ l) (get_backend c) (fun _ => at_ l) (at_ l) X.
Proof. unfold get_backend. rewrite Hrank. walk ltac:(solve [apply v_get | apply v_ret | by apply spec_modify]). Qed.

Definition gathered (out : option tensor) : list vevent := l ++ [VGathered (u32 q) out].
Definition captured (out : option tensor) : list vevent := l ++ [VCaptured (u32 q) out].

Lemma run_custom_at s :
  spec (at_ l) (run_custom s t q stream) (fun out => at_ (gathered (Some out))) (at_ l) (fun p => at_ l p \/ at_ (gathered None) p).
Proof.
  unfold run_custom. apply spec_or_exit. unfold all_gather.
  apply (run_library l _ _ _ (VGathered (u32 q))); [done|intros w; apply vgathered|done|by right].
Qed.

Lemma eager_custom :
  spec (at_ l) (eager_all_gather h c t dim q stream md) (fun out => at_ (gathered (Some out))) (at_ l)
    (fun p => at_ l p \/ at_ (gathered None) p).
Proof.
  set (X := fun p => at_ l p \/ at_ (gathered None) p). assert (forall p, at_ l p -> X p) as HX by (by left).
  pose proof (at_frame l X HX) as HF. unfold eager_all_gather. cbv zeta. rewrite Hcustom.
  eapply spec_bind; [apply at_get_backend|intros b0]. eapply spec_bind; [apply (v_lift _ _ _ _ HF)|intros graph].
  apply (spec_bind _ _ _ _ _ (fun _ => at_ l)); [|intros []].
  { destruct graph; [|apply v_ret].
    apply (spec_bind _ _ _ _ _ (fun _ => at_ l)); [|intros [place|]; [apply v_ret|apply (v_exit _ _ _ _ HF)]].
    apply (step_prepare_graph _ _ _ HF); intros; try same. }
  eapply spec_bind; [apply at_get_backend|intros b].
  apply (spec_bind _ _ _ _ _ (fun _ => at_ l)); [apply (step_session _ _ _ HF); intros; same|].
  intros [s|]; [apply run_custom_at|by apply spec_exit].
Qed.

Lemma capture_custom env :
  _graph_enabled env = Ok true ->
  spec (at_ l) (capture_all_gather env c t dim q stream md) (fun out => at_ (captured (Some out))) (at_ l)
    (fun p => at_ l p \/ at_ (captured None) p).
Proof.
  intros Hg. set (X := fun p => at_ l p \/ at_ (captured None) p). assert (forall p, at_ l p -> X p) as HX by (by left).
  pose proof (at_frame l X HX) as HF. unfold capture_all_gather. rewrite Hcustom, Hg.
  apply (spec_bind _ _ _ _ _ (fun b p => b = true /\ at_ l p)); [by apply spec_lift; [intros p b Hp [= <-]|]|].
  intros graph. apply spec_pure. intros ->.
  apply (spec_bind _ _ _ _ _ (fun _ => at_ l)); [by apply spec_get|intros b]. destruct (b ≫= _graph_session) as [place|].
  2: { apply (spec_bind _ _ _ _ _ (fun _ => at_ l)); [apply (step_event _ _ _ HF); intros; same|intros n; by apply spec_exit]. }
  unfold capture_on. apply (spec_bind _ _ _ _ _ (fun _ => at_ l)); [by apply spec_get|intros objects].
  destruct (objects !! place) as [s|]; [|by apply spec_raise]. apply spec_or_exit.
  apply (spec_bind _ _ _ _ _ (fun x => at_ (captured (Some x.1)))).
  - intros p Hp. unfold run_outside, capture, pbind, plift. destruct (check_capture _ _ _ _ _); simpl; [|by left].
    pose proof (vcaptured (_handle s) t (_new_output t q) (u32 q) stream (outside p)) as He.
    unfold from_library. destruct (vocab_capture_allgather _ _ _ _ _ _) as [[out|] w]; simpl in *; [|right];
      unfold at_ in *; rewrite (entered_outside p w _ He), Hp; done.
  - intros [out s']. apply (spec_bind _ _ _ _ _ (fun _ => at_ (captured (Some out)))); [by apply spec_modify|intros u].
    apply (spec_bind _ _ _ _ _ (fun _ => at_ (captured (Some out)))); [|intros n; by apply spec_ret].
    intros p Hp. unfold _record_graph_event, pbind, pmodify, pget. rewrite Hrank. by destruct (_ || _).
Qed.

End Custom.

(** C30 (no split): in custom mode, a call whose tensor and group are admitted, and
    which is not part of a capture with graphs switched off, never enters the
    stock collective.  When it returns, it has entered exactly one collective, the
    native one of its kind and row count, and returns what the library made; when
    it raises, it has entered none; and it ends the process only before entering
    one or after the native one has failed.  So the ranks that go on agree on the
    collective they are in. *)
Theorem custom_never_splits h c t dim capturing stream md q p o p' :
  _mode (environ h) = Ok md -> text_is md "custom" = true -> _signature c t dim md = Some q ->
  (capturing = true -> _graph_enabled (environ h) = Ok true) ->
  spark_vocab_all_gather h c t dim capturing stream p = (o, p') ->
  let native out := if capturing : bool then VCaptured (u32 q) out else VGathered (u32 q) out in
  match o with
  | Ret out => entered p' = entered p ++ [native (Some out)]
  | Exn _ => entered p' = entered p
  | Exit => entered p' = entered p \/ entered p' = entered p ++ [native None]
  end.
Proof.
  intros Hmd Hcustom Hsig Hgraph Hrun native. unfold spark_vocab_all_gather, pbind, plift in Hrun. rewrite Hmd, Hsig in Hrun.
  destruct (signature_rank _ _ _ _ _ Hsig) as [r Hr].
  destruct capturing.
  - pose proof (capture_custom c t dim stream q r md (entered p) Hcustom Hr _ (Hgraph eq_refl) p eq_refl) as Hk.
    rewrite Hrun in Hk. by destruct o.
  - pose proof (eager_custom h c t dim stream q r md (entered p) Hcustom Hr p eq_refl) as Hk. rewrite Hrun in Hk. by destruct o.
Qed.

End Dispatch.

(** ** Witness: two calls of the instrumented sample library

    An eager call, and a capture after it. *)
Definition logged_vocab : @NativeVocab (with_log (sample_native false)) := vtraced (sample_native false) (sample_vocab false).
Definition vocab_start : @process _ logged_vocab := @vocab_process _ logged_vocab (0, []).
Definition vocab_call (capturing : bool) (t : tensor) (p : @process _ logged_vocab) : outcome tensor * @process _ logged_vocab :=
  @spark_vocab_all_gather no_provider _ logged_vocab custom_vocab_host sample_comm t (-1) capturing 5 p.

Definition first_call : outcome tensor * @process _ logged_vocab := vocab_call false (vocab_tensor 2 [7]) vocab_start.
Definition second_call : outcome tensor * @process _ logged_vocab := vocab_call true (vocab_tensor 3 [8]) (snd first_call).
Definition full_tensor (rows : Z) (data : list Z) : tensor :=
  mkTensor [rows; _OUTPUT_VOCAB] (PyStr.text "torch.bfloat16") 0 true true data.

Lemma custom_never_splits_witness :
  fst first_call = Ret (full_tensor 2 [7]) /\ fst second_call = Ret (full_tensor 3 [8]) /\
  entered (snd second_call) = entered (snd first_call) ++ [VCaptured 3 (Some (full_tensor 3 [8]))].
Proof.
  split; [vm_compute; reflexivity|]. split; [vm_compute; reflexivity|].
  refine (@custom_never_splits no_provider _ logged_vocab _ custom_vocab_host sample_comm (vocab_tensor 3 [8]) (-1) true 5
    (PyStr.text "custom") 3 (snd first_call) (Ret (full_tensor 3 [8])) (snd second_call) _ _ _ _ _);
    [vm_compute; reflexivity..|intros _; vm_compute; reflexivity|vm_compute; reflexivity].
Defined.
