(* ===== verification/VocabShadow.v ===== *)
(** * SIRCL: the shadow mode of the vocabulary adapter

    The shadow states as a function of the collectives a process has entered: each
    holds the number of comparisons of its row count and the bytes in which they
    differed, and is validated exactly after a full window without a difference.
    Until then a call returns the stock result. *)
From S2P Require Export VocabDispatch.
Import RowProvider Vocab.

Section Shadow.
Context `{HP : Provider, HV : NativeVocab, !ObservedVocab}.
Context (h : host) (limit : Z) (md : list ascii).
Notation env := (environ h).
Context (Hmode : _mode env = Ok md) (Hshadow : text_is md "custom" = false).
Context (Hlimit : _positive_integer env "SPARK_TP4_VOCAB_SHADOW_COLLECTIVES" 8 = Ok limit).
Context (Hrows : MAX_QUERY_ROWS < 2 ^ 32).
Context (Hdiff : forall x y n, count_byte_differences x y = Ok n -> 0 <= n).

(** ** Comparisons *)

(** The native and the stock result a call has compared, among the collectives it
    has entered. *)
Definition compared (q : Z) (seg : list vevent) : list (tensor * tensor) :=
  match seg with
  | [VGathered q' (Some c); VStock (Ok r)] => if q' =? q then [(c, r)] else []
  | _ => []
  end.

Definition history : Type := Z -> list (tensor * tensor).
Definition extend (hist : history) (seg : list vevent) : history := fun q => hist q ++ compared q seg.

Definition shadow_at (p : process) (q : Z) : option _ShadowState := b ← backend p; shadows b !! q.

Definition differences (l : list (tensor * tensor)) (n : Z) : Prop :=
  exists ms, Forall2 (fun x m => count_byte_differences x.1 x.2 = Ok m) l ms /\ zsum ms = n.

(** The state of a row count without the verdict, and with it. *)
Definition counts (l : list (tensor * tensor)) (s : _ShadowState) : Prop :=
  count s = Z.of_nat (List.length l) /\ differences l (mismatch_count s) /\ count s <= limit.
Definition tracked (l : list (tensor * tensor)) (s : _ShadowState) : Prop :=
  counts l s /\ (validated s = true <-> count s = limit /\ mismatch_count s = 0).
Definition tracks (hist : history) (p : process) : Prop :=
  forall q, match shadow_at p q with None => hist q = [] | Some s => tracked (hist q) s end.

Lemma limit_positive : 0 < limit.
Proof.
  unfold _positive_integer in Hlimit. destruct (PyStr.int_of _); [|done].
  apply rbind_ok in Hlimit as (u & Hu%require_ok & [= <-]). by apply Z.ltb_lt.
Qed.

Lemma differences_clean l : differences l 0 <-> Forall (fun x => count_byte_differences x.1 x.2 = Ok 0) l.
Proof.
  split.
  - intros (ms & Hms & Hsum). induction Hms as [|x m l ms Hx Hms IH]; [done|]. change (m + zsum ms = 0) in Hsum.
    assert (0 <= zsum ms) as Hnn.
    { clear -Hms Hdiff. apply zsum_nonneg. induction Hms; constructor; [by eapply Hdiff|done]. }
    pose proof (Hdiff _ _ _ Hx). assert (m = 0) as -> by lia. constructor; [done|]. apply IH. lia.
  - induction 1 as [|x l Hx _ (ms & Hms & Hsum)]; [by exists []|]. exists (0 :: ms). split; [by constructor|].
    change (0 + zsum ms = 0). lia.
Qed.

Lemma new_tracked out : tracked [] (new_shadow out).
Proof.
  pose proof limit_positive. split; [split; [done|split; [by exists []|simpl; lia]]|]. simpl. split; [done|]. intros [? _]. lia.
Qed.

(** Another candidate changes nothing; an observation is one more comparison. *)
Lemma tracked_candidate l out s : tracked l s -> tracked l (s <| candidate := out |>).
Proof. done. Qed.

Lemma observe_counts l s r s' :
  counts l s -> count s < limit -> observe r s = Ok s' ->
  counts (l ++ [(candidate s, r)]) s' /\ validated s' = validated s.
Proof.
  intros (Hc & (ms & Hms & Hsum) & _) Hlt. unfold observe. intros (m & Hm & Hrun)%rbind_ok. injection Hrun as <-. simpl.
  split; [|done]. split; [|split].
  - simpl. rewrite length_app. simpl. lia.
  - exists (ms ++ [m]). split; [by apply Forall2_app; [|repeat constructor]|]. rewrite zsum_app, Hsum. simpl.
    unfold mismatch_count. simpl. destruct (mismatches s); simpl; lia.
  - simpl. lia.
Qed.

(** ** One call *)

(** The collectives entered and the shadow states; from [ready] on the backend
    exists. *)
Definition st (ready : bool) (l : list vevent) (hist : history) (p : process) : Prop :=
  entered p = l /\ tracks hist p /\ (ready = true -> is_Some (backend p)).

Definition neutral (f : process -> process) : Prop :=
  forall p, outside (f p) = outside p /\ (forall q, shadow_at (f p) q = shadow_at p q) /\ (is_Some (backend p) -> is_Some (backend (f p))).

Lemma st_frame ready l hist (X : process -> Prop) :
  (forall p, st ready l hist p -> X p) -> vframe (st ready l hist) (st ready l hist) X neutral.
Proof.
  intros HX. split; [done|done| |].
  - intros f p Hf (He & Ht & Hb). destruct (Hf p) as (Ho & Hs & Hb'). split; [unfold entered in *; by rewrite Ho|].
    split; [intros q; rewrite Hs; apply Ht|auto].
  - intros p w Hw (He & Ht & Hb). split; [congruence|done].
Qed.

Lemma neutral_backend f : (forall b, shadows (f b) = shadows b) -> neutral (fun p => p <| backend ::= fmap f |>).
Proof.
  intros Hf p. split; [done|]. unfold shadow_at. simpl. destruct (backend p) as [b|]; simpl; [|done].
  split; [intros q; by rewrite Hf|eauto].
Qed.

Ltac neut := solve [intros p; try destruct (reporter p) eqn:?; done | intros; intros p; try destruct (reporter p) eqn:?; done
  | intros; by apply neutral_backend].

(** What a call may have done when it ends: nothing but what the history says. *)
Definition after (l : list vevent) (hist : history) (p : process) : Prop :=
  exists seg, entered p = l ++ seg /\ tracks (extend hist seg) p.
Definition ended (p : process) : Prop := True.

(** And what it may return. *)
Definition promoted (q : Z) (hist : history) : Prop :=
  promotes env = true /\ Z.of_nat (List.length (hist q)) = limit /\
  Forall (fun x => count_byte_differences x.1 x.2 = Ok 0) (hist q).
Definition returned (out : tensor) (l : list vevent) (hist : history) (p : process) : Prop :=
  (exists pre, entered p = l ++ pre ++ [VStock (Ok out)]) \/
  (exists q, entered p = l ++ [VGathered q (Some out)] /\ promoted q hist).
Definition done_with (out : tensor) (l : list vevent) (hist : history) (p : process) : Prop :=
  after l hist p /\ returned out l hist p.

Lemma st_after ready l hist p : st ready l hist p -> after l hist p.
Proof.
  intros (He & Ht & _). exists []. rewrite app_nil_r. split; [done|]. intros q. unfold extend. simpl. rewrite app_nil_r. apply Ht.
Qed.

(** A segment without a comparison. *)
Lemma st_after_seg ready l seg hist p :
  (forall q, compared q seg = []) -> st ready (l ++ seg) hist p -> after l hist p.
Proof.
  intros Hseg (He & Ht & _). exists seg. split; [done|]. intros q. unfold extend. rewrite Hseg, app_nil_r. apply Ht.
Qed.

(** The stock path, from an assertion that ignores the outside. *)
Lemma stock_step (J : list vevent -> process -> Prop) l (Q : tensor -> process -> Prop) (E : process -> Prop) capturing reason call t dim :
  (forall p, J l p -> E p) ->
  (forall l f p, same_world f -> (forall p, backend (f p) = backend p) -> J l p -> J l (f p)) ->
  (forall p w new, entered (p <| outside := w |>) = entered p ++ new -> J l p -> J (l ++ new) (p <| outside := w |>)) ->
  (forall out p, J (l ++ [VStock (Ok out)]) p -> Q out p) ->
  (forall e p, J (l ++ [VStock (Raise e)]) p -> E p) ->
  spec (J l) (stock env capturing reason call t dim) Q E ended.
Proof.
  intros HE Hmod Hout HQ HR. unfold stock. apply (spec_bind _ _ _ _ _ (fun _ => J l)).
  - unfold _record_stock_path. apply (spec_bind _ _ _ _ _ (fun _ => J l)); [by apply spec_lift|intros rc].
    intros p Hp. unfold lift_audit. destruct (record_stock _ _ _ _ _ _ _) as [a|e]; [|by apply HE].
    by apply (Hmod l (fun p => p <| stock_audit := a |>)).
  - intros u p Hp. unfold original, run_outside. pose proof (vstock t dim (outside p)) as He.
    destruct (original_all_gather t dim (outside p)) as [r w]. simpl in He.
    assert (entered (p <| outside := w |>) = entered p ++ [VStock r]) as Hent by exact (entered_outside p w _ He).
    pose proof (Hout p w _ Hent Hp) as Hj. destruct r as [out|e]; [by apply HQ|by eapply HR].
Qed.

Lemma st_stock_like ready hist :
  (forall l f p, same_world f -> (forall p, backend (f p) = backend p) -> st ready l hist p -> st ready l hist (f p)) /\
  (forall l p w new, entered (p <| outside := w |>) = entered p ++ new -> st ready l hist p ->
     st ready (l ++ new) hist (p <| outside := w |>)).
Proof.
  split.
  - intros l f p Hw Hb (He & Ht & Hr). split; [unfold entered in *; by rewrite Hw|]. split; [|by rewrite Hb].
    intros q. unfold shadow_at. rewrite Hb. apply Ht.
  - intros l p w new Hn (He & Ht & Hr). split; [by rewrite Hn, He|done].
Qed.

Lemma stock_returns ready l hist capturing reason call t dim :
  spec (st ready l hist) (stock env capturing reason call t dim) (fun out => done_with out l hist) (after l hist) ended.
Proof.
  destruct (st_stock_like ready hist) as [Hm Ho].
  apply (stock_step (fun l => st ready l hist)); [apply st_after|exact Hm|intros p w new; apply Ho| |].
  - intros out p Hp. split; [by apply (st_after_seg ready l [VStock (Ok out)])|]. left. exists []. by destruct Hp.
  - intros e p Hp. by apply (st_after_seg ready l [VStock (Raise e)]).
Qed.

(** ** The comparison of a call *)

(** The state of [q] is [s]; the others are tracked. *)
Definition st_at (q : Z) (s : _ShadowState) (l : list vevent) (hist : history) (p : process) : Prop :=
  entered p = l /\ shadow_at p q = Some s /\
  forall q', q' <> q -> match shadow_at p q' with None => hist q' = [] | Some s => tracked (hist q') s end.

Lemma put_shadow_at p q s q' :
  is_Some (backend p) -> shadow_at (snd (put_shadow q s p)) q' = if decide (q' = q) then Some s else shadow_at p q'.
Proof.
  intros [b Hb]. unfold shadow_at, put_shadow, update_backend, pmodify. simpl. rewrite Hb. simpl.
  destruct (decide (q' = q)) as [->|Hne]; [by rewrite lookup_insert_eq|by rewrite lookup_insert_ne].
Qed.

Lemma shadow_at_backend p q s : shadow_at p q = Some s -> is_Some (backend p).
Proof. unfold shadow_at. destruct (backend p); [eauto|done]. Qed.

Lemma put_step q s l hist (E X : process -> Prop) :
  spec (st true l hist) (put_shadow q s) (fun _ => st_at q s l hist) E X.
Proof.
  intros p (He & Ht & Hb). specialize (Hb eq_refl). simpl. split; [done|].
  pose proof (put_shadow_at p q s) as Hput. simpl in Hput. split; [by rewrite Hput, decide_True|].
  intros q' Hne. rewrite Hput, decide_False by done. apply Ht.
Qed.

Lemma put_again q s0 s l hist (E X : process -> Prop) :
  spec (st_at q s0 l hist) (put_shadow q s) (fun _ => st_at q s l hist) E X.
Proof.
  intros p (He & Hq & Ht). simpl. split; [done|]. pose proof (fun q' => put_shadow_at p q s q' (shadow_at_backend _ _ _ Hq)) as Hput.
  simpl in Hput. split; [by rewrite Hput, decide_True|]. intros q' Hne. rewrite Hput, decide_False by done. by apply Ht.
Qed.

Lemma st_at_tracked q s l seg hist p :
  st_at q s (l ++ seg) hist p -> (forall q', q' <> q -> compared q' seg = []) -> tracked (hist q ++ compared q seg) s -> after l hist p.
Proof.
  intros (He & Hq & Ht) Hseg Hs. exists seg. split; [done|]. intros q'. unfold extend. destruct (decide (q' = q)) as [->|Hne].
  - by rewrite Hq.
  - rewrite Hseg, app_nil_r by done. by apply Ht.
Qed.

Section Compare.
Context (s : _NativeVocabSession) (t : tensor) (dim q stream : Z) (l : list vevent) (hist : history).
Context (Hq : u32 q = q).

(** The native run into the shadow's tensor. *)
Lemma gather_step sh output (E : process -> Prop) :
  spec (st_at q sh l hist) (or_exit (run_outside (all_gather s t output q stream)))
    (fun out => st_at q sh (l ++ [VGathered q (Some out)]) hist) E ended.
Proof.
  apply spec_or_exit. intros p (He & Hs & Ht). unfold run_outside, all_gather, from_library.
  pose proof (vgathered (_handle s) t output (u32 q) stream (outside p)) as Hev.
  destruct (vocab_allgather _ _ _ _ _ _) as [[out|] w]; simpl in *; [|done]. split; [|done].
  rewrite (entered_outside p w _ Hev), He. simpl. by rewrite Hq.
Qed.

(** The stock run and the observation. *)
Lemma observe_step sh out (E : process -> Prop) :
  counts (hist q) sh -> count sh < limit -> candidate sh = out -> validated sh = false ->
  spec (st_at q sh (l ++ [VGathered q (Some out)]) hist)
    (or_exit (
      let! reference := stock env false "shadow_reference" None t dim in
      let! sh := plift (observe reference sh) in
      let! _ := put_shadow q sh in
      pret (sh, reference)))
    (fun x p => st_at q x.1 (l ++ [VGathered q (Some out); VStock (Ok x.2)]) hist p /\
       counts (hist q ++ [(out, x.2)]) x.1 /\ validated x.1 = false) E ended.
Proof.
  intros Hc Hlt Hcand Hv. apply spec_or_exit.
  apply (spec_bind _ _ _ _ _ (fun reference => st_at q sh ((l ++ [VGathered q (Some out)]) ++ [VStock (Ok reference)]) hist)).
  - apply (stock_step (fun l => st_at q sh l hist)); [done| | |done|done].
    + intros l' f p Hw Hb (He & Hs & Ht). unfold st_at, shadow_at, entered in *. by rewrite Hw, Hb.
    + intros p w new Hn (He & Hs & Ht). split; [by rewrite Hn, He|done].
  - intros reference. rewrite <- (assoc_L (++)). simpl.
    apply (spec_bind _ _ _ _ _ (fun sh' p => observe reference sh = Ok sh' /\
      st_at q sh (l ++ [VGathered q (Some out); VStock (Ok reference)]) hist p)); [by apply spec_lift|intros sh'].
    apply spec_pure. intros Hobs. destruct (observe_counts _ _ _ _ Hc Hlt Hobs) as [Hc' Hv'].
    eapply spec_bind; [apply (put_again q sh sh')|intros u]. apply spec_ret. intros p Hp. simpl. split; [done|]. split; [by rewrite <- Hcand|].
    by rewrite Hv'.
Qed.

(** The verdict. *)
Lemma settle_step sh out reference :
  counts (hist q ++ [(out, reference)]) sh -> validated sh = false ->
  spec (st_at q sh (l ++ [VGathered q (Some out); VStock (Ok reference)]) hist) (settle limit q sh reference)
    (fun o => done_with o l hist) (after l hist) ended.
Proof.
  intros Hc Hv. set (seg := [VGathered q (Some out); VStock (Ok reference)]).
  assert (forall s' p, st_at q s' (l ++ seg) hist p -> tracked (hist q ++ [(out, reference)]) s' -> done_with reference l hist p) as Hend.
  { intros s' p Hp Hs'. split.
    - eapply (st_at_tracked q s' l seg); [exact Hp| |]; unfold compared, seg.
      + intros q' Hne. by rewrite (proj2 (Z.eqb_neq q q')) by congruence.
      + by rewrite Z.eqb_refl.
    - left. exists [VGathered q (Some out)]. by destruct Hp. }
  assert (count sh <> limit \/ mismatch_count sh <> 0 -> tracked (hist q ++ [(out, reference)]) sh) as Hopen.
  { intros Hne. split; [done|]. rewrite Hv. split; [done|]. intros [? ?]. by destruct Hne. }
  unfold settle. destruct (Z.eqb_spec (count sh) limit) as [Heq|Hne]; simpl.
  - destruct (Z.eqb_spec (mismatch_count sh) 0) as [Hz|Hnz].
    + apply (spec_bind _ _ _ _ _ (fun _ => st_at q sh (l ++ seg) hist)); [by intros p Hp|intros u].
      eapply spec_bind; [apply (put_again q sh (sh <| validated := true |>))|intros u']. apply spec_ret. intros p Hp.
      eapply Hend; [exact Hp|]. split; [done|]. simpl. split; [|done]. intros _. split; [exact Heq|exact Hz].
    + intros p Hp. simpl. apply (Hend sh p Hp), Hopen. by right.
  - apply spec_ret. intros p Hp. apply (Hend sh p Hp), Hopen. by left.
Qed.

Lemma compare_step sh :
  tracked (hist q) sh -> count sh < limit ->
  spec (st_at q sh l hist) (compare_all_gather env s sh t dim q stream limit) (fun o => done_with o l hist) (after l hist) ended.
Proof.
  intros [Hc Hv] Hlt. assert (validated sh = false) as Hvf.
  { apply not_true_is_false. intros Hvt. apply Hv in Hvt. lia. }
  unfold compare_all_gather. eapply spec_bind; [apply gather_step|intros out].
  eapply spec_bind; [apply (put_again q sh (sh <| candidate := out |>))|intros u].
  eapply spec_bind; [by apply observe_step|intros [sh' reference]]. simpl.
  intros p (Hp & Hc' & Hv'). by apply (settle_step sh' out reference Hc' Hv').
Qed.

(** A promoted call. *)
Lemma promoted_step sh :
  tracked (hist q) sh -> validated sh = true -> promotes env = true ->
  spec (st_at q sh l hist) (run_custom s t q stream) (fun o => done_with o l hist) (after l hist) ended.
Proof.
  intros Hs Hv Hp. unfold run_custom.
  eapply spec_weaken; [apply (gather_step sh (_new_output t q) (after l hist))|done| |done|done].
  intros out p Hst. split.
  - eapply (st_at_tracked q sh l [VGathered q (Some out)]); [exact Hst|done|]. simpl. by rewrite app_nil_r.
  - right. exists q. split; [by destruct Hst|]. destruct Hs as [(Hc & Hd & _) Hval]. apply Hval in Hv as [Hcl Hz].
    split; [done|]. split; [lia|]. apply differences_clean. by rewrite <- Hz.
Qed.

Lemma shadow_step :
  spec (st true l hist) (shadow_all_gather env s t dim q stream) (fun o => done_with o l hist) (after l hist) ended.
Proof.
  unfold shadow_all_gather. rewrite Hlimit.
  apply (spec_bind _ _ _ _ _ (fun n p => n = limit /\ st true l hist p)); [apply spec_lift; [by intros p n Hp [= <-]|apply st_after]|].
  intros n. apply spec_pure. intros ->.
  apply (spec_bind _ _ _ _ _ (fun b p => tracked (hist q) (match b with Some b => shadow b t q | None => new_shadow (_new_output t q) end)
     /\ st true l hist p)).
  { apply spec_get. intros p Hp. split; [|done]. destruct Hp as (_ & Ht & _). specialize (Ht q). unfold shadow_at, shadow in *.
    destruct (backend p) as [b|]; simpl in *; [destruct (shadows b !! q); [done|]|]; rewrite Ht; apply new_tracked. }
  intros b. apply spec_pure. set (sh := match b with Some b => _ | None => _ end). intros Hsh.
  eapply spec_bind; [apply (put_step q sh)|intros u].
  destruct (validated sh && promotes env) eqn:Eprom; simpl.
  - apply andb_true_iff in Eprom as [Hv Hp]. by apply promoted_step.
  - destruct (Z.leb_spec limit (count sh)) as [Hge|Hlt]; [|by apply compare_step].
    eapply spec_weaken; [apply (stock_returns false l hist)| |done|done|done].
    intros p (He & Hq' & Ht). split; [done|]. split; [|done]. intros q'. destruct (decide (q' = q)) as [->|Hne]; [by rewrite Hq'|by apply Ht].
Qed.

End Compare.
(** ** The whole call *)

Lemma signature_rows c t dim q : _signature c t dim md = Some q -> u32 q = q.
Proof.
  unfold _signature. destruct (t_shape t) as [|q' [|width [|]]]; try done. destruct (_ && _) eqn:E; [|done]. intros [= <-].
  apply andb_true_iff in E as [E _]. apply andb_true_iff in E as [E _]. apply andb_true_iff in E as [_ E].
  apply bool_decide_eq_true in E. unfold _SUPPORTED_Q, range in E. apply elem_of_seqZ in E. apply Z.mod_small. lia.
Qed.

Section Call.
Context (c : communicator) (t : tensor) (dim stream q : Z) (l : list vevent) (hist : history).

Lemma st_weaken ready p : st true l hist p -> st ready l hist p.
Proof. intros (He & Ht & Hb). by split_and!; [..|intros _; apply Hb]. Qed.

Lemma st_get_backend ready : spec (st ready l hist) (get_backend c) (fun _ => st true l hist) (after l hist) ended.
Proof.
  intros p Hp. pose proof (st_after _ _ _ _ Hp) as Hafter. destruct Hp as (He & Ht & Hb).
  unfold get_backend, pbind, pget. destruct (backend p) as [b|] eqn:Eb; simpl.
  { split; [done|]. split; [done|]. intros _. rewrite Eb. eauto. }
  destruct (comm_rank_in_group c) as [r|]; simpl; [|done].
  split; [done|]. split; [|eauto]. intros q'. specialize (Ht q'). unfold shadow_at in *. rewrite Eb in Ht. simpl. by rewrite lookup_empty.
Qed.

Lemma st_session b :
  spec (st true l hist) (session env b) (fun _ => st true l hist) (after l hist) ended.
Proof.
  pose proof (st_frame true l hist ended (fun _ _ => Logic.I)) as HF.
  eapply spec_weaken; [apply (step_session _ _ _ HF); neut|done|done|by apply st_after|done].
Qed.

Lemma eager_step :
  u32 q = q -> spec (st false l hist) (eager_all_gather h c t dim q stream md) (fun o => done_with o l hist) (after l hist) ended.
Proof.
  intros Hq. unfold eager_all_gather. cbv zeta. rewrite Hshadow. eapply spec_bind; [apply st_get_backend|intros b0].
  apply (spec_bind _ _ _ _ _ (fun graph p => graph = false /\ st true l hist p)); [apply spec_lift; [by intros p n Hp [= <-]|apply st_after]|].
  intros graph. apply spec_pure. intros ->.
  apply (spec_bind _ _ _ _ _ (fun _ => st true l hist)); [by apply spec_ret|intros u].
  eapply spec_bind; [apply st_get_backend|intros b]. eapply spec_bind; [apply st_session|intros [s|]]; [by apply shadow_step|].
  apply stock_returns.
Qed.

Lemma capture_step :
  spec (st false l hist) (capture_all_gather env c t dim q stream md) (fun o => done_with o l hist) (after l hist) ended.
Proof.
  unfold capture_all_gather. rewrite Hshadow.
  apply (spec_bind _ _ _ _ _ (fun graph p => graph = false /\ st false l hist p)); [apply spec_lift; [by intros p n Hp [= <-]|apply st_after]|].
  intros graph. apply spec_pure. intros ->. apply stock_returns.
Qed.

End Call.

Lemma call_step c t dim capturing stream l hist :
  spec (st false l hist) (spark_vocab_all_gather h c t dim capturing stream) (fun o => done_with o l hist) (after l hist) ended.
Proof.
  unfold spark_vocab_all_gather. cbv zeta. rewrite Hmode.
  apply (spec_bind _ _ _ _ _ (fun m p => m = md /\ st false l hist p)); [apply spec_lift; [by intros p n Hp [= <-]|apply st_after]|].
  intros m. apply spec_pure. intros ->. destruct (_signature c t dim md) as [q|] eqn:Es; [|apply stock_returns].
  destruct capturing; [apply capture_step|apply eager_step; by eapply signature_rows].
Qed.

(** ** Runs *)

Definition call : Type := communicator * tensor * Z * bool * Z.
Definition perform (x : call) : proc process tensor :=
  let '(c, t, dim, capturing, stream) := x in spark_vocab_all_gather h c t dim capturing stream.

(** A sequence of calls, with the collectives each has entered; [None] when one of
    them has ended the process. *)
Fixpoint run_calls (calls : list call) (p : process) : option (process * list (list vevent)) :=
  match calls with
  | [] => Some (p, [])
  | x :: calls =>
      match perform x p with
      | (Exit, _) => None
      | (_, p') =>
          match run_calls calls p' with
          | Some (p'', segs) => Some (p'', drop (List.length (entered p)) (entered p') :: segs)
          | None => None
          end
      end
  end.

Definition comparisons (q : Z) (segs : list (list vevent)) : list (tensor * tensor) := List.concat (compared q <$> segs).

Lemma perform_after x p hist :
  tracks hist p ->
  match perform x p with
  | (Ret out, p') => done_with out (entered p) hist p'
  | (Exn _, p') => after (entered p) hist p'
  | (Exit, _) => True
  end.
Proof.
  intros Ht. destruct x as [[[[c t] dim] capturing] stream]. unfold perform.
  pose proof (call_step c t dim capturing stream (entered p) hist p) as Hk.
  assert (st false (entered p) hist p) as Hp by done. specialize (Hk Hp).
  by destruct (spark_vocab_all_gather _ _ _ _ _ _ p) as [[out|e|] p'].
Qed.

Lemma after_segment l hist p : after l hist p -> tracks (extend hist (drop (List.length l) (entered p))) p.
Proof. intros (seg & -> & Ht). by rewrite drop_app_length. Qed.

Lemma run_tracks calls p hist p' segs :
  tracks hist p -> run_calls calls p = Some (p', segs) -> tracks (fun q => hist q ++ comparisons q segs) p'.
Proof.
  revert p hist segs. induction calls as [|x calls IH]; intros p hist segs Ht; simpl.
  { intros [= <- <-]. intros q. unfold comparisons. simpl. rewrite app_nil_r. apply Ht. }
  pose proof (perform_after x p hist Ht) as Hk. destruct (perform x p) as [[out|e|] p1]; [destruct Hk as [Hk _]| |done];
    (destruct (run_calls calls p1) as [[p2 segs']|] eqn:Er; [|done]; intros [= <- <-]; apply after_segment in Hk;
     specialize (IH p1 _ segs' Hk Er); intros q; specialize (IH q); unfold extend, comparisons in *; csimpl;
     rewrite (assoc_L (++)); exact IH).
Qed.

(** C31 (shadow window): in shadow mode, after any calls of a process, the state of a
    row count counts exactly the comparisons its calls have made, at most the
    configured number, and is validated exactly when that number has been made and
    no byte differed; and what the next call returns is the stock result, unless
    promotion is on and the window of its row count was full and clean. *)
Theorem shadow_window_exact calls p0 p segs (x : call) :
  backend p0 = None -> run_calls calls p0 = Some (p, segs) ->
  (forall q s, shadow_at p q = Some s ->
     count s = Z.of_nat (List.length (comparisons q segs)) /\ count s <= limit /\
     (validated s = true <-> Z.of_nat (List.length (comparisons q segs)) = limit /\
        Forall (fun x => count_byte_differences x.1 x.2 = Ok 0) (comparisons q segs))) /\
  (forall out p', perform x p = (Ret out, p') ->
     (exists pre, entered p' = entered p ++ pre ++ [VStock (Ok out)]) \/
     (exists q, entered p' = entered p ++ [VGathered q (Some out)] /\ promoted q (fun q => comparisons q segs))).
Proof.
  intros Hb Hrun. assert (tracks (fun q => comparisons q segs) p) as Ht.
  { apply (run_tracks calls p0 (fun _ => []) p segs); [|done]. intros q. unfold shadow_at. by rewrite Hb. }
  split.
  - intros q s Hs. specialize (Ht q). rewrite Hs in Ht. destruct Ht as [(Hc & Hd & Hle) Hv]. split; [done|]. split; [done|]. rewrite Hv, Hc.
    split; intros [Hl Hz]; (split; [done|]).
    + apply differences_clean. by rewrite <- Hz.
    + apply differences_clean in Hz as (ms & Hms & Hsum). destruct Hd as (ms' & Hms' & <-).
      replace ms' with ms; [done|]. clear -Hms Hms'. revert ms' Hms'.
      induction Hms as [|y m l ms Hy _ IH]; intros ms' Hms'; inversion Hms'; subst; [done|]. f_equal; [congruence|by apply IH].
  - intros out p' Hper. pose proof (perform_after x p _ Ht) as Hk. rewrite Hper in Hk. apply Hk.
Qed.

End Shadow.

(** ** Witness: a window of two

    The second comparison fills the window without a difference, and the third call
    is promoted. *)
Definition shadow_host : host :=
  vocab_host "shadow" [("SPARK_TP4_VOCAB_SHADOW_COLLECTIVES", "2"); ("SPARK_TP4_VOCAB_SHADOW_PROMOTE", "1")]%string.
Definition window_calls : list call :=
  [(sample_comm, vocab_tensor 2 [7; 8], 1, false, 5); (sample_comm, vocab_tensor 4 [1], 0, false, 5);
   (sample_comm, vocab_tensor 2 [9; 9], 1, false, 5)].
Definition next_call : call := (sample_comm, vocab_tensor 2 [3; 4], 1, false, 5).
Definition window_run : option (@process _ logged_vocab * list (list vevent)) :=
  @run_calls no_provider _ logged_vocab _ shadow_host window_calls vocab_start.

(** What the run compared, and what the next call returns. *)
Definition window_seen : option (list (list Z * list Z) * option (list Z)) :=
  match window_run with
  | Some (p, segs) => Some (map (fun x => (t_data x.1, t_data x.2)) (comparisons 2 segs),
                            data_of (fst (@perform no_provider _ logged_vocab shadow_host next_call p)))
  | None => None
  end.

Lemma sample_differences x y n : @count_byte_differences _ logged_vocab x y = Ok n -> 0 <= n.
Proof.
  intros [= <-]. apply zsum_nonneg. generalize (t_data y). induction (t_data x) as [|a l IH]; intros [|b l']; simpl; constructor;
    [by destruct (a =? b)|apply IH].
Qed.

Lemma shadow_window_exact_witness :
  window_seen = Some ([([7; 8], [7; 8]); ([9; 9], [9; 9])], Some [3; 4]) /\
  match window_run with
  | Some (p, segs) =>
      forall q s, @shadow_at _ logged_vocab p q = Some s ->
        count s = Z.of_nat (List.length (comparisons q segs)) /\ count s <= 2 /\
        (validated s = true <-> Z.of_nat (List.length (comparisons q segs)) = 2 /\
           Forall (fun x => @count_byte_differences _ logged_vocab x.1 x.2 = Ok 0) (comparisons q segs))
  | None => False
  end.
Proof.
  assert (window_seen = Some ([([7; 8], [7; 8]); ([9; 9], [9; 9])], Some [3; 4])) as Hseen by (vm_compute; reflexivity).
  split; [exact Hseen|]. unfold window_seen in Hseen. destruct window_run as [[p segs]|] eqn:E; [|discriminate Hseen].
  assert (@MAX_QUERY_ROWS no_provider < 2 ^ 32) as Hrows by (vm_compute; reflexivity).
  assert (_mode (environ shadow_host) = Ok (PyStr.text "shadow")) as Hmd by (vm_compute; reflexivity).
  assert (_positive_integer (environ shadow_host) "SPARK_TP4_VOCAB_SHADOW_COLLECTIVES" 8 = Ok 2) as Hlim by (vm_compute; reflexivity).
  pose proof (@shadow_window_exact no_provider (with_log (sample_native false)) logged_vocab
    (vtraced_observed (sample_native false) (sample_vocab false)) shadow_host 2 (PyStr.text "shadow") Hmd eq_refl Hlim Hrows sample_differences
    window_calls vocab_start p segs next_call eq_refl E) as Hw.
  exact (proj1 Hw).
Defined.
