(* ===== verification/VocabPorts.v ===== *)
(** * SIRCL: the two adapters share no port

    The composition of both adapters with the port namespace: the native sessions
    that the all-reduce adapter and the vocabulary adapter of a process hold use
    ports reserved for them, and no port of one is a port of another. *)
From S2P Require Export SirclLive VocabDispatch.
Import RowProvider.

Section VocabPorts.
Context `{HP : Provider, HV : Vocab.NativeVocab} (h : host).
Notation env := (environ h).

(** ** The sessions of the vocabulary adapter *)

Definition vocab_on : Prop := exists md, Vocab._mode env = Ok md /\ md <> [].
Definition vocab_graph_on : Prop :=
  exists md, Vocab._mode env = Ok md /\ text_is md "custom" = true /\ Vocab._graph_enabled env = Ok true.

(** The eager session and the graph sessions have their own pair of ports, and are
    opened under their own settings. *)
Definition eager_ok (p : Vocab.process) : Prop :=
  forall b s, Vocab.backend p = Some b -> Vocab._session b = Some s -> _eager_vocab_pair env = Ok (Vocab._ports s) /\ vocab_on.
Definition graph_ok (p : Vocab.process) : Prop :=
  Forall (fun s => _graph_vocab_pair env = Ok (Vocab._ports s) /\ vocab_graph_on) (Vocab.graph_objects p).
Definition vocab_ok (p : Vocab.process) : Prop := eager_ok p /\ graph_ok p.

Lemma vocab_outside {A} (m : proc world A) : keeps vocab_ok (Vocab.run_outside m).
Proof. intros p Hp. unfold Vocab.run_outside. destruct (m (Vocab.outside p)) as [[a|e|] w]; exact Hp. Qed.

Lemma vocab_modify f :
  (forall p, Vocab.backend (f p) = Vocab.backend p /\ Vocab.graph_objects (f p) = Vocab.graph_objects p) -> keeps vocab_ok (pmodify f).
Proof.
  intros Hf. apply spec_modify. intros p [He Hg]. destruct (Hf p) as [Hb Ho]. unfold vocab_ok, eager_ok, graph_ok. by rewrite Hb, Ho.
Qed.

(** A change of the backend that opens no eager session. *)
Lemma vocab_update f : (forall b, Vocab._session (f b) = Vocab._session b) -> keeps vocab_ok (Vocab.update_backend f).
Proof.
  intros Hf. apply spec_modify. intros p [He Hg]. split; [|exact Hg]. intros b s. simpl.
  destruct (Vocab.backend p) as [b0|] eqn:Eb; [|done]. intros [= <-]. rewrite Hf. by apply He.
Qed.

Lemma vocab_lift_audit f : keeps vocab_ok (Vocab.lift_audit f).
Proof. intros p Hp. unfold Vocab.lift_audit. by destruct (f _ _). Qed.

Lemma vocab_reporter r : keeps vocab_ok (Vocab.ensure_status_reporter env r).
Proof.
  unfold Vocab.ensure_status_reporter. destruct (SirclAudit.enabled env); [|apply keeps_ret]. apply vocab_modify.
  intros p. by destruct (Vocab.reporter p).
Qed.

#[local] Hint Resolve vocab_outside vocab_lift_audit vocab_reporter : proc.
#[local] Hint Extern 5 (spec _ (pmodify _) _ _ _) => (apply vocab_modify; done) : proc.
#[local] Hint Extern 5 (spec _ (Vocab.update_backend _) _ _ _) => (apply vocab_update; done) : proc.

Lemma vocab_event c e : keeps vocab_ok (Vocab._record_graph_event c e).
Proof. unfold Vocab._record_graph_event. keep. Qed.
Lemma vocab_stock capturing reason call t dim : keeps vocab_ok (Vocab.stock env capturing reason call t dim).
Proof. unfold Vocab.stock, Vocab._record_stock_path, Vocab.original. keep. Qed.
Lemma vocab_get_backend c : keeps vocab_ok (Vocab.get_backend c).
Proof.
  unfold Vocab.get_backend. apply keeps_bind; [by apply spec_get|intros [b|]]; [by apply spec_ret|].
  destruct (comm_rank_in_group c) as [r|]; [|by apply spec_raise]. apply keeps_bind; [|intros u; by apply spec_ret].
  apply spec_modify. intros p [_ Hg]. split; [|exact Hg]. intros b s. simpl. by intros [= <-].
Qed.
#[local] Hint Resolve vocab_event vocab_stock vocab_get_backend : proc.

Lemma vocab_new_session r g ports affinity :
  spec vocab_ok (Vocab.run_outside (Vocab.new_session env r g ports affinity))
    (fun s p => match ports with None => Vocab._eager_control_ports env | Some q => Ok q end = Ok (Vocab._ports s) /\ vocab_ok p)
    vocab_ok vocab_ok.
Proof.
  intros p Hp. pose proof (vocab_outside (Vocab.new_session env r g ports affinity) p Hp) as Hkeep. unfold Vocab.run_outside in *.
  destruct (Vocab.new_session env r g ports affinity (Vocab.outside p)) as [[s|e|] w] eqn:Es; [|done..]. split; [|done].
  unfold Vocab.new_session in Es. apply pbind_ret in Es as ([request prs] & w1 & Hprep & Hrun).
  unfold plift in Hprep. destruct (Vocab.prepare env r g ports affinity) as [pr|] eqn:Ep; [|done]. injection Hprep as -> <-.
  unfold pbind in Hrun. destruct (Vocab.create_vocab request (Vocab.outside p)) as [[hd|] w2]; [|done]. injection Hrun as <- _.
  simpl. unfold Vocab.prepare in Ep. apply rbind_ok in Ep as (u1 & _ & Ep). apply rbind_ok in Ep as (u2 & _ & Ep).
  apply rbind_ok in Ep as (u3 & _ & Ep). apply rbind_ok in Ep as (u4 & _ & Ep). apply rbind_ok in Ep as (u5 & _ & Ep).
  apply rbind_ok in Ep as (q & Hq & Ep). apply rbind_ok in Ep as (u6 & _ & Ep). apply rbind_ok in Ep as (u7 & _ & [= <- <-]). exact Hq.
Qed.

Lemma vocab_session b : vocab_on -> keeps vocab_ok (Vocab.session env b).
Proof.
  intros Hon. unfold Vocab.session. destruct (Vocab.disabled b); [by apply spec_ret|]. destruct (Vocab._session b); [by apply spec_ret|].
  apply spec_on_exception with vocab_ok; [|keep].
  eapply spec_bind; [apply vocab_new_session|intros s]. apply spec_pure. intros Hs. apply checked_ok in Hs.
  apply keeps_bind; [|intros u; by apply spec_ret]. apply spec_modify. intros p [He Hg]. split; [|exact Hg]. intros b' s'. simpl.
  destruct (Vocab.backend p) as [b0|]; [|done]. intros [= <-]. simpl. intros [= <-]. done.
Qed.

Lemma vocab_prepare_graph b : vocab_graph_on -> keeps vocab_ok (Vocab.prepare_graph h b).
Proof.
  intros Hon. unfold Vocab.prepare_graph. cbv zeta. destruct (Vocab.graph_disabled b); [by apply spec_ret|].
  destruct (Vocab._graph_session b); [by apply spec_ret|]. apply spec_on_exception with vocab_ok; [|keep].
  eapply spec_bind.
  { apply (spec_lift _ _ _ _ (fun x p => Vocab._graph_control_ports env = Ok x.2 /\ vocab_ok p)); [|done].
    intros p x Hp (aff & _ & Hx)%rbind_ok. apply rbind_ok in Hx as (q & Hq & [= <-]). done. }
  intros [aff q]. apply spec_pure. intros Hq. apply checked_ok in Hq. simpl in Hq.
  eapply spec_bind; [apply vocab_new_session|intros s]. apply spec_pure. intros [= Hs]. subst q.
  apply keeps_bind; [by apply spec_get|intros place]. apply keeps_bind; [|intros u; keep].
  apply spec_modify. intros p [He Hg]. split; [exact He|]. unfold graph_ok in *. simpl. apply Forall_app. split; [exact Hg|].
  by repeat constructor.
Qed.

Lemma vocab_capture_on c place t q stream : keeps vocab_ok (Vocab.capture_on c place t q stream).
Proof.
  unfold Vocab.capture_on. eapply spec_bind.
  { apply (spec_get _ _ _ _ (fun objects p => Forall (fun s => _graph_vocab_pair env = Ok (Vocab._ports s) /\ vocab_graph_on) objects
       /\ vocab_ok p)). intros p Hp. split; [apply Hp|done]. }
  intros objects. apply spec_pure. intros Hobj. destruct (objects !! place) as [s|] eqn:Es; [|by apply spec_raise].
  pose proof (Forall_lookup_1 _ _ _ _ Hobj Es) as Hs. apply keeps_or_exit.
  eapply (spec_bind _ _ _ _ _ (fun x p => Vocab._ports x.2 = Vocab._ports s /\ vocab_ok p)).
  - intros p Hp. pose proof (vocab_outside (Vocab.capture s t (Vocab._new_output t q) q stream) p Hp) as Hkeep.
    unfold Vocab.run_outside in *. destruct (Vocab.capture _ _ _ _ _ _) as [[x|e|] w] eqn:Ec; [|done..]. split; [|done].
    unfold Vocab.capture in Ec. apply pbind_ret in Ec as (u & w1 & _ & Ec). apply pbind_ret in Ec as (o & w2 & _ & [= <- _]). done.
  - intros x. apply spec_pure. intros Hx. apply keeps_bind; [|intros u; keep].
    apply spec_modify. intros p [He Hg]. split; [exact He|]. unfold graph_ok in *. simpl. apply Forall_insert; [exact Hg|]. by rewrite Hx.
Qed.

Lemma signature_on c t dim md q : Vocab._signature c t dim md = Some q -> md <> [].
Proof. unfold Vocab._signature. intros Hs ->. by destruct (t_shape t) as [|q' [|width [|]]]. Qed.

(** The graph flag is only read in custom mode. *)
Lemma vocab_graph_flag {B} md (k : bool -> proc Vocab.process B) :
  Vocab._mode env = Ok md -> (forall b, (b = true -> vocab_graph_on) -> keeps vocab_ok (k b)) ->
  keeps vocab_ok (let! b := plift (if text_is md "custom" then Vocab._graph_enabled env else Ok false) in k b).
Proof.
  intros Hmd Hk. eapply spec_bind.
  { apply (spec_lift _ _ _ _ (fun b p => (b = true -> vocab_graph_on) /\ vocab_ok p)); [|done].
    intros p b Hp Hb. split; [|done]. intros ->. destruct (text_is md "custom") eqn:Ec; [|done]. by exists md. }
  intros b. apply spec_pure. intros Hb. by apply Hk.
Qed.

Lemma vocab_spark c t dim capturing stream : keeps vocab_ok (Vocab.spark_vocab_all_gather h c t dim capturing stream).
Proof.
  unfold Vocab.spark_vocab_all_gather. cbv zeta. eapply spec_bind.
  { apply (spec_lift _ _ _ _ (fun md p => Vocab._mode env = Ok md /\ vocab_ok p)); [by intros p md Hp ->|done]. }
  intros md. apply spec_pure. intros Hmd. destruct (Vocab._signature c t dim md) as [q|] eqn:Es; [|auto with proc].
  assert (vocab_on) as Hon by (exists md; split; [done|by eapply signature_on]).
  pose proof vocab_capture_on as Hcap. pose proof (fun b => vocab_session b Hon) as Hses. destruct capturing.
  - unfold Vocab.capture_all_gather. apply vocab_graph_flag; [done|intros graph Hgraph]. keep; apply Hcap.
  - unfold Vocab.eager_all_gather. cbv zeta. apply keeps_bind; [auto with proc|intros b0].
    apply vocab_graph_flag; [done|intros graph Hgraph]. apply keeps_bind; [|intros u].
    { destruct graph; [|by apply spec_ret]. apply keeps_bind; [by apply vocab_prepare_graph, Hgraph|intros x; keep]. }
    unfold Vocab.shadow_all_gather, Vocab.compare_all_gather, Vocab.run_custom, Vocab.settle, Vocab.put_shadow. cbv zeta.
    keep.
Qed.

(** A sequence of calls. *)
Fixpoint run_vocab (calls : list (communicator * tensor * Z * bool * Z)) (p : Vocab.process) : Vocab.process :=
  match calls with
  | [] => p
  | (c, t, dim, capturing, stream) :: calls => run_vocab calls (snd (Vocab.spark_vocab_all_gather h c t dim capturing stream p))
  end.

Lemma run_vocab_ok calls p : vocab_ok p -> vocab_ok (run_vocab calls p).
Proof.
  revert p. induction calls as [|[[[[c t] dim] capturing] stream] calls IH]; intros p Hp; [done|]. simpl. apply IH.
  pose proof (vocab_spark c t dim capturing stream p Hp) as Hk.
  by destruct (Vocab.spark_vocab_all_gather h c t dim capturing stream p) as [[a|e|] p'].
Qed.

(** ** Both adapters *)

(** The ports of the eager session and of the graph sessions. *)
Definition vocab_ports (p : Vocab.process) : list (Z * Z) :=
  (match Vocab.backend p with Some b => match Vocab._session b with Some s => [Vocab._ports s] | None => [] end | None => [] end)
  ++ (Vocab._ports <$> Vocab.graph_objects p).

(** Each pair the adapter uses is one of its reservations. *)
Lemma vocab_reserved vm vo p q :
  SirclPorts._mode env "VLLM_SPARK_TP4_VOCAB_MODE" ["custom"; "shadow"]%string = Ok vm -> vocab_reservations env vm = Ok vo ->
  vocab_ok p -> q ∈ vocab_ports p -> exists i r, vo !! i = Some r /\ ports r = q.
Proof.
  intros Hvm Hvo [He Hg] Hq. assert (q ∈ match Vocab.backend p with Some b => match Vocab._session b with Some s => [Vocab._ports s] | None => [] end | None => [] end
     \/ q ∈ Vocab._ports <$> Vocab.graph_objects p) as Hcase by (by apply elem_of_app in Hq).
  unfold vocab_reservations in Hvo. destruct Hcase as [Hs|Hs].
  - destruct (Vocab.backend p) as [b|] eqn:Eb; [|by apply elem_of_nil in Hs].
    destruct (Vocab._session b) as [s|] eqn:Es; [|by apply elem_of_nil in Hs]. apply list_elem_of_singleton in Hs as ->.
    destruct (He b s Eb Es) as [Hp (md & Hmd & Hne)]. unfold Vocab._mode in Hmd. rewrite Hvm in Hmd. injection Hmd as ->.
    rewrite bool_decide_eq_false_2 in Hvo by done. unfold reserve in Hvo. rewrite Hp in Hvo. cbn [rbind] in Hvo.
    apply rbind_ok in Hvo as (graph & _ & Hvo). exists 0%nat, (mkReservation (PyStr.text "eager_vocab") (Vocab._ports s)).
    destruct graph; simpl in Hvo; [apply rbind_ok in Hvo as (g & _ & [= <-])|injection Hvo as <-]; done.
  - apply list_elem_of_fmap in Hs as (s & -> & Hin). unfold graph_ok in Hg. rewrite Forall_forall in Hg.
    destruct (Hg s Hin) as [Hp (md & Hmd & Hc & Hfl)]. unfold Vocab._mode in Hmd. rewrite Hvm in Hmd. injection Hmd as ->.
    destruct (bool_decide (md = [])) eqn:Em; [apply bool_decide_eq_true in Em; by subst md|].
    apply rbind_ok in Hvo as (e & _ & Hvo). change (is_mode md "custom") with (text_is md "custom") in Hvo. rewrite Hc in Hvo.
    unfold Vocab._graph_enabled in Hfl. rewrite Hfl in Hvo. cbn [rbind negb] in Hvo. unfold reserve in Hvo. rewrite Hp in Hvo.
    cbn [rbind] in Hvo. injection Hvo as <-. by exists 1%nat, (mkReservation (PyStr.text "graph_vocab") (Vocab._ports s)).
Qed.

(** C32 (no shared port): in a process with the all-reduce adapter installed, after
    any collectives of both adapters, every session of the vocabulary adapter uses
    ports that the accepted namespace reserves, and none of them is a port of an
    all-reduce session on a default path. *)
Theorem adapters_share_no_port p0 p1 calls b v0 vcalls sl s q :
  install h p0 = (Ret tt, p1) -> all_reduce_replaced p0 = false -> all_reduce_replaced p1 = true ->
  backend p0 = None -> backend (run_calls h calls p1) = Some b ->
  Vocab.backend v0 = None -> Vocab.graph_objects v0 = [] -> q ∈ vocab_ports (run_vocab vcalls v0) ->
  (exists rs, validate_active_port_namespace env = Ok rs /\ forall n, n ∈ pair_ports q -> n ∈ all_ports rs) /\
  (session_at b sl = Some s -> sl <> SWidth4096 -> forall n, n ∈ pair_ports q -> n ∉ pair_ports (_ports s)).
Proof.
  intros Hinst H0 H1 Hnone Hb Hv0 Ho0 Hq. destruct (install_replaces h p0 p1 Hinst H0 H1) as (Hb1 & md & rs & Hmd & Hsel & _ & Hval).
  assert (backend_ok h b) as Hok.
  { apply (run_calls_ok h calls p1); [|done]. intros b' Hb'. congruence. }
  assert (vocab_ok (run_vocab vcalls v0)) as Hvok.
  { apply run_vocab_ok. split; [intros b' s'; by rewrite Hv0|unfold graph_ok; by rewrite Ho0]. }
  destruct (slots_placed h md rs Hmd Hsel Hval) as (keys & al & vm & vo & -> & Hvm & Hvo & Hplace).
  destruct (vocab_reserved vm vo _ q Hvm Hvo Hvok Hq) as (j & r & Hr & <-).
  pose proof (proj1 (validate_namespace_ok _ _) Hval) as (_ & Hnd & _). rewrite all_ports_app in Hnd. split.
  - exists (al ++ vo). split; [done|]. intros n Hn. rewrite all_ports_app, elem_of_app. right. by eapply all_ports_elem.
  - intros Hs Hsl n Hn Hn'. destruct (Hok sl s Hs) as [Hp Hen]. destruct (Hplace sl _ Hsl Hp Hen) as (i & r' & Hr' & Hpr & _).
    apply NoDup_app in Hnd as (_ & Hdis & _). apply (Hdis n); [eapply all_ports_elem; [exact Hr'|by rewrite Hpr]|by eapply all_ports_elem].
Qed.

End VocabPorts.

(** ** Witness: both adapters with graphs on *)
Definition both_host : host :=
  sample_host [("VLLM_SPARK_TP4_MODE", "custom"); ("VLLM_SPARK_TP4_VOCAB_MODE", "custom"); ("VLLM_SPARK_TP4_GRAPH_Q1", "1")]%string.
Definition both_installed : @process (sample_native false) := snd (@install no_provider (sample_native false) both_host (fresh false)).
Definition both_backend : @_Backend (sample_native false) :=
  default (@new_backend (sample_native false) 0)
    (@backend (sample_native false) (@run_calls no_provider (sample_native false) both_host live_calls both_installed)).
Definition both_vocab : @Vocab.process _ (sample_vocab false) :=
  @run_vocab no_provider _ (sample_vocab false) both_host [(sample_comm, vocab_tensor 2 [7], 1, false, 5)]
    (@vocab_process _ (sample_vocab false) 0).
Definition both_graph_ports : option (Z * Z) :=
  match @graph_q1_session (sample_native false) both_backend with Some s => Some (@_ports (sample_native false) s) | None => None end.

Lemma adapters_share_no_port_witness :
  @vocab_ports _ (sample_vocab false) both_vocab = [(9990, 9991); (10110, 10111)] /\ both_graph_ports = Some (9970, 9971) /\
  (forall s n, @session_at (sample_native false) both_backend SGraph = Some s -> n ∈ pair_ports (10110, 10111) ->
     n ∉ pair_ports (@_ports (sample_native false) s)).
Proof.
  split; [vm_compute; reflexivity|]. split; [vm_compute; reflexivity|]. intros s n Hs Hn.
  refine (proj2 (@adapters_share_no_port no_provider _ (sample_vocab false) both_host (fresh false) both_installed live_calls both_backend
    (@vocab_process _ (sample_vocab false) 0) [(sample_comm, vocab_tensor 2 [7], 1, false, 5)] SGraph s (10110, 10111)
    _ _ _ _ _ _ _ _) Hs _ n Hn); try (vm_compute; reflexivity); [|discriminate].
  apply list_elem_of_lookup. exists 1%nat. vm_compute. reflexivity.
Defined.
