(* ===== verification/RankGrid.v ===== *)
(** * Grids of ranks

    The process groups of [vllm/distributed/parallel_state.py] come from one
    tensor of ranks by [reshape], [transpose] and [unbind].  This file has the
    row-major numbering of a grid, the interface [Torch] of the tensor operations
    used, a concrete instance, and the lemmas on which ranks such a pipeline puts
    in one row. *)
From S2P Require Export Prelude.

(** ** Row-major numbering *)

Definition volume (s : list Z) : Z := foldr Z.mul 1 s.

Fixpoint ravel (s x : list Z) : Z :=
  match s, x with
  | _ :: s, i :: x => i * volume s + ravel s x
  | _, _ => 0
  end.

Fixpoint indices (s : list Z) : list (list Z) :=
  match s with
  | [] => [[]]
  | n :: s => seqZ 0 n ≫= fun i => cons i <$> indices s
  end.

Definition valid (s x : list Z) : Prop := Forall2 (fun n i => 0 <= i < n) s x.

Lemma volume_app s1 s2 : volume (s1 ++ s2) = volume s1 * volume s2.
Proof. induction s1 as [|n s IH]; simpl; [|rewrite IH]; ring. Qed.

Lemma volume_nonneg s : Forall (fun n => 0 <= n) s -> 0 <= volume s.
Proof. induction 1; simpl; lia. Qed.

Lemma valid_nonneg s x : valid s x -> Forall (fun n => 0 <= n) s.
Proof. induction 1; constructor; [lia|done]. Qed.

Lemma elem_of_indices s x : x ∈ indices s <-> valid s x.
Proof.
  revert x. induction s as [|n s IH]; intros x; simpl.
  - rewrite list_elem_of_singleton. split; [intros ->; constructor|by intros ?%Forall2_nil_inv_l].
  - rewrite list_elem_of_bind. split.
    + intros (i & (y & -> & Hy)%list_elem_of_fmap & Hi%elem_of_seqZ). constructor; [lia|by apply IH].
    + intros (i & y & Hi & Hy & ->)%Forall2_cons_inv_l. exists i. split; [|apply elem_of_seqZ; lia].
      apply list_elem_of_fmap. exists y. split; [done|by apply IH].
Qed.

Lemma ravel_bounds s x : valid s x -> 0 <= ravel s x < volume s.
Proof.
  induction 1 as [|n i s x Hi Hv IH]; simpl; [lia|].
  assert (i * volume s <= (n - 1) * volume s) by (apply Z.mul_le_mono_nonneg_r; lia).
  assert (0 <= i * volume s) by (apply Z.mul_nonneg_nonneg; lia). lia.
Qed.

Lemma ravel_app s1 s2 x1 x2 :
  valid s1 x1 -> ravel (s1 ++ s2) (x1 ++ x2) = ravel s1 x1 * volume s2 + ravel s2 x2.
Proof. induction 1 as [|n i s x Hi Hv IH]; simpl; [ring|]. rewrite volume_app, IH. ring. Qed.

Lemma block_unique v i j a b : 0 <= a < v -> 0 <= b < v -> i * v + a = j * v + b -> i = j /\ a = b.
Proof.
  intros Ha Hb Heq. assert (i = j) as ->; [|lia].
  apply (f_equal (fun z => z / v)) in Heq. rewrite !Z.div_add_l, !(Z.div_small _ v) in Heq by lia. lia.
Qed.

Lemma ravel_inj s x y : valid s x -> valid s y -> ravel s x = ravel s y -> x = y.
Proof.
  intros Hx. revert y. induction Hx as [|n i s x Hi Hx IH]; intros y.
  - by intros ->%Forall2_nil_inv_l.
  - intros (j & y' & Hj & Hy & ->)%Forall2_cons_inv_l. simpl. intros Heq.
    destruct (block_unique (volume s) i j (ravel s x) (ravel s y')) as [-> Hr]; auto using ravel_bounds.
    f_equal. auto.
Qed.

Lemma seqZ_blocks n v :
  0 <= n -> 0 <= v -> (seqZ 0 n ≫= fun i => seqZ (i * v) v) = seqZ 0 (n * v).
Proof.
  intros Hn Hv. revert n Hn. apply natlike_ind; [done|]. intros n Hn IH.
  replace (Z.succ n) with (n + 1) by lia. rewrite seqZ_app, bind_app, IH by lia. simpl.
  replace ((n + 1) * v) with (n * v + v) by ring. rewrite seqZ_app, app_nil_r by nia. f_equal.
Qed.

Lemma fmap_bind {A B C} (f : B -> C) (g : A -> list B) l : f <$> (l ≫= g) = l ≫= fun x => f <$> g x.
Proof. induction l as [|x l IH]; csimpl; [done|]. by rewrite fmap_app, IH. Qed.

Lemma indices_numbered s : Forall (fun n => 0 <= n) s -> ravel s <$> indices s = seqZ 0 (volume s).
Proof.
  induction 1 as [|n s Hn Hs IH]; simpl; [done|]. rewrite <- seqZ_blocks by auto using volume_nonneg.
  rewrite fmap_bind. apply list_bind_ext; [|done]. intros i.
  rewrite <- list_fmap_compose. transitivity (Z.add (i * volume s) <$> (ravel s <$> indices s)).
  - rewrite <- list_fmap_compose. done.
  - rewrite IH, fmap_add_seqZ. f_equal. lia.
Qed.

(** ** Rows of a list *)

Definition row (k i : Z) (l : list Z) : list Z := take (Z.to_nat k) (drop (Z.to_nat (i * k)) l).
Definition rows_of (m k : Z) (l : list Z) : list (list Z) := (fun i => row k i l) <$> seqZ 0 m.

(** Two ranks are in one of the groups. *)
Definition together (groups : list (list Z)) (r r' : Z) : Prop := exists g, g ∈ groups /\ r ∈ g /\ r' ∈ g.

Lemma row_lookup k i (l : list Z) c :
  0 <= i -> 0 <= c < k -> row k i l !! Z.to_nat c = l !! Z.to_nat (i * k + c).
Proof.
  intros Hi Hc. unfold row. rewrite lookup_take_lt, lookup_drop by lia. f_equal.
  rewrite Z2Nat.inj_add by nia. done.
Qed.

Lemma row_length k i m (l : list Z) : 0 <= i < m -> 0 <= k -> Z.of_nat (length l) = m * k -> length (row k i l) = Z.to_nat k.
Proof. intros Hi Hk Hl. unfold row. rewrite length_take, length_drop. nia. Qed.

Lemma concat_rows m k (l : list Z) : 0 <= m -> 0 <= k -> Z.of_nat (length l) = m * k -> List.concat (rows_of m k l) = l.
Proof.
  intros Hm Hk. unfold rows_of. revert m Hm l.
  refine (natlike_ind (fun m => forall l, Z.of_nat (length l) = m * k -> List.concat ((fun i => row k i l) <$> seqZ 0 m) = l) _ _).
  - intros l Hl. destruct l; [done|simpl in Hl; lia].
  - intros m Hm IH l Hl. replace (Z.succ m) with (m + 1) by lia. rewrite seqZ_app, fmap_app, concat_app by lia.
    transitivity (take (Z.to_nat (m * k)) l ++ drop (Z.to_nat (m * k)) l); [f_equal|apply take_drop].
    + rewrite <- (IH (take (Z.to_nat (m * k)) l)) by (rewrite length_take; nia). f_equal.
      apply list_fmap_ext. intros c i [-> Hi]%lookup_seqZ. unfold row.
      rewrite skipn_firstn_comm, take_take. f_equal. nia.
    + simpl. rewrite app_nil_r. unfold row. apply take_ge. rewrite length_drop. nia.
Qed.

Lemma in_row m k (l : list Z) i n :
  0 <= i < m -> 0 < k -> Z.of_nat (length l) = m * k ->
  n ∈ row k i l <-> exists j, 0 <= j /\ l !! Z.to_nat j = Some n /\ j / k = i.
Proof.
  intros Hi Hk Hl. rewrite list_elem_of_lookup. split.
  - intros (c & Hc). pose proof (lookup_lt_Some _ _ _ Hc) as Hlt. rewrite (row_length k i m) in Hlt by lia.
    exists (i * k + Z.of_nat c). rewrite <- row_lookup by lia. rewrite Nat2Z.id. split_and!; [nia|done|].
    rewrite Z.div_add_l, Z.div_small by lia. lia.
  - intros (j & Hj & Hn & <-). exists (Z.to_nat (j mod k)). pose proof (Z.mod_pos_bound j k Hk).
    rewrite row_lookup by (try apply Z.div_pos; lia). replace (j / k * k + j mod k) with j; [done|].
    rewrite (Z.div_mod j k) at 1 by lia. ring.
Qed.

Lemma together_rows m k (l : list Z) r r' :
  0 <= m -> 0 < k -> Z.of_nat (length l) = m * k ->
  together (rows_of m k l) r r' <->
  exists j j', 0 <= j /\ 0 <= j' /\ l !! Z.to_nat j = Some r /\ l !! Z.to_nat j' = Some r' /\ j / k = j' / k.
Proof.
  intros Hm Hk Hl. unfold together, rows_of. split.
  - intros (g & (i & -> & Hi%elem_of_seqZ)%list_elem_of_fmap & Hr & Hr').
    apply (in_row m) in Hr as (j & Hj & Hr & <-); [|lia..]. apply (in_row m) in Hr' as (j' & Hj' & Hr' & He); [|lia..].
    exists j, j'. by rewrite He.
  - intros (j & j' & Hj & Hj' & Hr & Hr' & He). pose proof (lookup_lt_Some _ _ _ Hr) as Hlt.
    assert (0 <= j / k < m) as Hb.
    { split; [by apply Z.div_pos|apply Z.div_lt_upper_bound; nia]. }
    exists (row k (j / k) l). split; [|split].
    + apply list_elem_of_fmap. exists (j / k). split; [done|]. apply elem_of_seqZ. lia.
    + apply (in_row m); [lia..|eauto].
    + apply (in_row m); [lia..|eauto].
Qed.

(** ** Rearranged grids

    A grid of shape [s], numbered row by row, is rearranged into one of shape [s']:
    [p] sends an index of the first to its index in the second, [q] back. *)
Section Arranged.
Context (s s' : list Z) (p q : list Z -> list Z).
Context (p_valid : forall x, valid s x -> valid s' (p x)) (q_valid : forall y, valid s' y -> valid s (q y)).
Context (qp : forall x, valid s x -> q (p x) = x) (pq : forall y, valid s' y -> p (q y) = y).
Context (s_nonneg : Forall (fun n => 0 <= n) s) (s'_nonneg : Forall (fun n => 0 <= n) s').

Definition arranged : list Z := (fun y => ravel s (q y)) <$> indices s'.

Lemma indices_lookup z y : Forall (fun n => 0 <= n) z -> valid z y -> indices z !! Z.to_nat (ravel z y) = Some y.
Proof.
  intros Hz Hy. pose proof (ravel_bounds z y Hy) as Hb. pose proof (indices_numbered z Hz) as Hn.
  assert ((ravel z <$> indices z) !! Z.to_nat (ravel z y) = Some (ravel z y)) as Hl.
  { rewrite Hn, lookup_seqZ_lt by lia. f_equal. lia. }
  rewrite list_lookup_fmap in Hl. destruct (indices z !! _) as [y'|] eqn:E; simpl in Hl; [|done].
  injection Hl as Hr. f_equal. apply (ravel_inj z); [|done|done]. apply elem_of_indices. by eapply list_elem_of_lookup_2.
Qed.

Lemma arranged_lookup x : valid s x -> arranged !! Z.to_nat (ravel s' (p x)) = Some (ravel s x).
Proof. intros Hx. unfold arranged. rewrite list_lookup_fmap, indices_lookup by auto. simpl. by rewrite qp. Qed.

Lemma length_arranged : Z.of_nat (length arranged) = volume s'.
Proof.
  unfold arranged. rewrite length_fmap. pose proof (indices_numbered s' s'_nonneg) as Hn.
  apply (f_equal length) in Hn. rewrite length_fmap, length_seqZ in Hn. rewrite Hn.
  pose proof (volume_nonneg s' s'_nonneg). lia.
Qed.

Lemma arranged_inv j n :
  arranged !! j = Some n -> exists x, valid s x /\ n = ravel s x /\ Z.of_nat j = ravel s' (p x).
Proof.
  unfold arranged. rewrite list_lookup_fmap. intros Hj.
  destruct (indices s' !! j) as [y|] eqn:Hy; simpl in Hj; [|done]. injection Hj as <-.
  assert (valid s' y) as Hv by (apply elem_of_indices; by eapply list_elem_of_lookup_2).
  exists (q y). split_and!; [auto|done|]. rewrite pq by done.
  assert ((ravel s' <$> indices s') !! j = Some (ravel s' y)) as Hl by (by rewrite list_lookup_fmap, Hy).
  rewrite indices_numbered in Hl by done. apply lookup_seqZ in Hl. lia.
Qed.

Lemma arranged_perm : arranged ≡ₚ seqZ 0 (volume s).
Proof.
  rewrite <- indices_numbered by done. unfold arranged. apply NoDup_Permutation.
  - apply NoDup_alt. intros i j n Hi Hj. apply arranged_inv in Hi as (x & Hx & -> & Hi), Hj as (y & Hy & He & Hj).
    apply ravel_inj in He as ->; [lia|done..].
  - rewrite indices_numbered by done. apply NoDup_seqZ.
  - intros n. rewrite !list_elem_of_fmap. split.
    + intros (y & -> & Hy%elem_of_indices). exists (q y). split; [done|]. apply elem_of_indices. auto.
    + intros (x & -> & Hx%elem_of_indices). exists (p x). rewrite qp by done. split; [done|]. apply elem_of_indices. auto.
Qed.

(** Two ranks are in one row of length [k] when their new numbers fall in the same
    block of [k]. *)
Lemma arranged_together m k x y :
  0 <= m -> 0 < k -> volume s' = m * k -> valid s x -> valid s y ->
  together (rows_of m k arranged) (ravel s x) (ravel s y) <-> ravel s' (p x) / k = ravel s' (p y) / k.
Proof.
  intros Hm Hk Hvol Hx Hy. rewrite together_rows by (rewrite ?length_arranged; lia). split.
  - intros (j & j' & Hj & Hj' & Hr & Hr' & He).
    apply arranged_inv in Hr as (x1 & Hx1 & E1 & H1), Hr' as (y1 & Hy1 & E2 & H2).
    apply ravel_inj in E1 as <-; [|done..]. apply ravel_inj in E2 as <-; [|done..].
    by rewrite <- H1, <- H2, !Z2Nat.id by done.
  - intros He. exists (ravel s' (p x)), (ravel s' (p y)).
    pose proof (ravel_bounds _ _ (p_valid x Hx)). pose proof (ravel_bounds _ _ (p_valid y Hy)).
    split; [lia|split; [lia|split; [|split; [|done]]]]; by apply arranged_lookup.
Qed.

(** The position of a rank in its row. *)
Lemma arranged_position m k x :
  0 < k -> volume s' = m * k -> valid s x ->
  exists g, g ∈ rows_of m k arranged /\ g !! Z.to_nat (ravel s' (p x) mod k) = Some (ravel s x).
Proof.
  intros Hk Hvol Hx. pose proof (ravel_bounds _ _ (p_valid x Hx)) as Hb. set (n := ravel s' (p x)) in *.
  pose proof (Z.mod_pos_bound n k Hk) as Hmod.
  assert (0 <= n / k < m) as Hi by (split; [apply Z.div_pos; lia|apply Z.div_lt_upper_bound; nia]).
  exists (row k (n / k) arranged). split.
  - apply list_elem_of_fmap. exists (n / k). split; [done|]. apply elem_of_seqZ. lia.
  - rewrite row_lookup by lia. replace (n / k * k + n mod k) with n by (rewrite (Z.div_mod n k) at 1; lia).
    by apply arranged_lookup.
Qed.

End Arranged.

(** ** Exchanging two axes *)

Definition swap {A} (i j : nat) (l : list A) : list A :=
  match l !! i, l !! j with
  | Some a, Some b => <[i := b]> (<[j := a]> l)
  | _, _ => l
  end.

Definition swapped (i j n : nat) : nat := if decide (n = i) then j else if decide (n = j) then i else n.

Lemma lookup_swap {A} i j (l : list A) n :
  (i < length l)%nat -> (j < length l)%nat -> swap i j l !! n = l !! swapped i j n.
Proof.
  intros Hi Hj. unfold swap, swapped. destruct (lookup_lt_is_Some_2 l i Hi) as [a Ha], (lookup_lt_is_Some_2 l j Hj) as [b Hb].
  rewrite Ha, Hb. destruct (decide (n = i)) as [->|Hni].
  - by rewrite list_lookup_insert_eq by by rewrite length_insert.
  - rewrite list_lookup_insert_ne by done. destruct (decide (n = j)) as [->|Hnj].
    + by rewrite list_lookup_insert_eq.
    + by rewrite list_lookup_insert_ne.
Qed.

Lemma length_swap {A} i j (l : list A) : length (swap i j l) = length l.
Proof. unfold swap. destruct (l !! i), (l !! j); by rewrite ?length_insert. Qed.

Lemma swap_out {A} i j (l : list A) : ~ ((i < length l)%nat /\ (j < length l)%nat) -> swap i j l = l.
Proof.
  intros Hout. unfold swap. destruct (l !! i) eqn:Ei; [|done]. destruct (l !! j) eqn:Ej; [|done].
  apply lookup_lt_Some in Ei, Ej. lia.
Qed.

Lemma swap_swap {A} i j (l : list A) : swap i j (swap i j l) = l.
Proof.
  destruct (decide ((i < length l)%nat /\ (j < length l)%nat)) as [[Hi Hj]|Hout]; [|rewrite (swap_out i j l Hout); by apply swap_out].
  apply list_eq. intros n. rewrite !lookup_swap by by rewrite ?length_swap.
  f_equal. unfold swapped. repeat case_decide; congruence.
Qed.

Lemma valid_swap i j s x : valid s x -> valid (swap i j s) (swap i j x).
Proof.
  intros Hx. pose proof (Forall2_length _ _ _ Hx) as Hlen.
  destruct (decide ((i < length s)%nat /\ (j < length s)%nat)) as [[Hi Hj]|Hout].
  - apply Forall2_same_length_lookup_2; [rewrite !length_swap; done|]. intros n a b. rewrite !lookup_swap by lia.
    intros Ha Hb. exact (Forall2_lookup_lr _ s x _ a b Hx Ha Hb).
  - rewrite !swap_out by lia. done.
Qed.

Lemma nonneg_swap i j (s : list Z) : Forall (fun n => 0 <= n) s -> Forall (fun n => 0 <= n) (swap i j s).
Proof.
  intros Hs. unfold swap. destruct (s !! i) eqn:Ei; [|done]. destruct (s !! j) eqn:Ej; [|done].
  apply Forall_insert; [apply Forall_insert; [done|]|]; by eapply Forall_lookup_1.
Qed.

(** ** Tensors of ranks *)

(** [torch.Tensor.reshape]: at most one [-1], which takes what is left, and no
    other negative dimension. *)
Definition resolve_shape (n : Z) (s : list Z) : option (list Z) :=
  let rest := volume (List.filter (fun d => negb (d =? -1)) s) in
  if existsb (fun d => d <? -1) s then None
  else
  match List.filter (fun d => d =? -1) s with
  | [] => if rest =? n then Some s else None
  | [_] => if (0 <? rest) && (n mod rest =? 0) then Some ((fun d => if d =? -1 then n / rest else d) <$> s) else None
  | _ => None
  end.

Definition axis (s : list Z) (i : Z) : option nat :=
  let n := Z.of_nat (length s) in
  if (0 <=? i) && (i <? n) then Some (Z.to_nat i)
  else if (- n <=? i) && (i <? 0) then Some (Z.to_nat (n + i)) else None.

(** The operations of PyTorch used, and what is relied on: the contents in
    row-major order.  [unbind] is [[x.tolist() for x in t.unbind(0)]]. *)
Class Torch := {
  grid : Type;
  dims : grid -> list Z;
  flat : grid -> list Z;
  arange : Z -> grid;
  reshape : list Z -> grid -> result grid;
  transpose : Z -> Z -> grid -> result grid;
  unbind : grid -> list (list Z)
}.

Class TorchLaws `{Torch} : Prop := {
  arange_law n : 0 <= n -> dims (arange n) = [n] /\ flat (arange n) = seqZ 0 n;
  reshape_law s t :
    match resolve_shape (volume (dims t)) s with
    | Some s' => exists u, reshape s t = Ok u /\ dims u = s' /\ flat u = flat t
    | None => reshape s t = Raise RuntimeError
    end;
  transpose_law i j t :
    match axis (dims t) i, axis (dims t) j with
    | Some a, Some b =>
        exists u, transpose i j t = Ok u /\ dims u = swap a b (dims t) /\
          flat u = (fun y => flat t !!! Z.to_nat (ravel (dims t) (swap a b y))) <$> indices (swap a b (dims t))
    | _, _ => transpose i j t = Raise IndexError
    end;
  unbind_law t m k : dims t = [m; k] -> unbind t = rows_of m k (flat t)
}.

(** Tensors as their shape and contents. *)
#[export] Instance list_torch : Torch := {|
  grid := list Z * list Z;
  dims := fst;
  flat := snd;
  arange n := ([n], seqZ 0 n);
  reshape s t := match resolve_shape (volume (fst t)) s with Some s' => Ok (s', snd t) | None => Raise RuntimeError end;
  transpose i j t :=
    match axis (fst t) i, axis (fst t) j with
    | Some a, Some b =>
        Ok (swap a b (fst t), (fun y => snd t !!! Z.to_nat (ravel (fst t) (swap a b y))) <$> indices (swap a b (fst t)))
    | _, _ => Raise IndexError
    end;
  unbind t := match fst t with [m; k] => rows_of m k (snd t) | _ => [] end
|}.

#[export] Instance list_torch_laws : TorchLaws.
Proof.
  split; simpl.
  - done.
  - intros s t. destruct (resolve_shape _ s); eauto.
  - intros i j t. destruct (axis t.1 i); [|done]. destruct (axis t.1 j); eauto.
  - by intros t m k ->.
Qed.

(** ** Groups from a grid *)

(** [x.reshape(-1, k).unbind(0)] as lists. *)
Definition rows `{Torch} (k : Z) (t : grid) : result (list (list Z)) :=
  let* u := reshape [-1; k] t in Ok (unbind u).

(** The groups made of the grid of shape [s] rearranged by [p] into shape [s']. *)
Record grouped (s s' : list Z) (p : list Z -> list Z) (k : Z) (groups : list (list Z)) : Prop := {
  gr_partition : List.concat groups ≡ₚ seqZ 0 (volume s);
  gr_size : Forall (fun g => Z.of_nat (length g) = k) groups;
  gr_together x y : valid s x -> valid s y ->
    together groups (ravel s x) (ravel s y) <-> ravel s' (p x) / k = ravel s' (p y) / k;
  gr_position x : valid s x -> exists g, g ∈ groups /\ g !! Z.to_nat (ravel s' (p x) mod k) = Some (ravel s x)
}.

Section Rows.
Context `{TorchLaws}.
Implicit Types t : grid.

Lemma rows_ok k m t : 0 < k -> 0 <= m -> volume (dims t) = m * k -> rows k t = Ok (rows_of m k (flat t)).
Proof.
  intros Hk Hm Hv. unfold rows. pose proof (reshape_law [-1; k] t) as Hr. unfold resolve_shape in Hr. simpl in Hr.
  rewrite (proj2 (Z.ltb_ge k (-1))) in Hr by lia. simpl in Hr.
  rewrite (proj2 (Z.eqb_neq k (-1))) in Hr by lia. simpl in Hr. rewrite Z.mul_1_r, Hv, Z.mod_mul in Hr by lia.
  rewrite (proj2 (Z.ltb_lt 0 k)) in Hr by done. simpl in Hr. destruct Hr as (u & -> & Hd & Hf). simpl.
  rewrite Z.div_mul in Hd by lia. by rewrite (unbind_law _ _ _ Hd), Hf.
Qed.

Lemma grouped_rows s a b k m t :
  Forall (fun n => 0 <= n) s -> 0 < k -> 0 <= m -> volume (swap a b s) = m * k ->
  dims t = swap a b s -> flat t = arranged s (swap a b s) (swap a b) ->
  exists groups, rows k t = Ok groups /\ grouped s (swap a b s) (swap a b) k groups.
Proof.
  intros Hs Hk Hm Hv Hd Hf. exists (rows_of m k (flat t)). split; [apply rows_ok; rewrite ?Hd; auto|]. rewrite Hf.
  assert (forall y, valid (swap a b s) y -> valid s (swap a b y)) as Hback.
  { intros y Hy%(valid_swap a b). by rewrite swap_swap in Hy. }
  assert (Z.of_nat (length (arranged s (swap a b s) (swap a b))) = m * k) as Hlen.
  { by rewrite length_arranged by by apply nonneg_swap. }
  split.
  - rewrite concat_rows by (done || lia).
    apply (arranged_perm s _ (swap a b)); auto using valid_swap, swap_swap, nonneg_swap.
  - apply Forall_fmap, Forall_forall. intros i Hi%elem_of_seqZ. simpl. rewrite (row_length k i m); lia.
  - intros x y Hx Hy. apply arranged_together; auto using valid_swap, swap_swap, nonneg_swap.
  - intros x Hx. apply (arranged_position _ _ (swap a b) _); auto using valid_swap, swap_swap, nonneg_swap.
Qed.

(** Transposing the numbered grid. *)
Lemma transpose_numbered i j a b s t :
  Forall (fun n => 0 <= n) s -> dims t = s -> flat t = seqZ 0 (volume s) -> axis s i = Some a -> axis s j = Some b ->
  exists u, transpose i j t = Ok u /\ dims u = swap a b s /\ flat u = arranged s (swap a b s) (swap a b).
Proof.
  intros Hs Hd Hf Ha Hb. pose proof (transpose_law i j t) as Ht. rewrite Hd, Ha, Hb in Ht.
  destruct Ht as (u & -> & Hdu & Hfu). exists u. split_and!; [done..|]. rewrite Hfu, Hf. unfold arranged.
  apply list_fmap_ext. intros n y Hy. apply list_elem_of_lookup_2, elem_of_indices in Hy.
  apply (valid_swap a b) in Hy. rewrite swap_swap in Hy. pose proof (ravel_bounds _ _ Hy).
  rewrite lookup_total_seqZ_lt by lia. lia.
Qed.

(** Not transposing it. *)
Lemma numbered_arranged s : Forall (fun n => 0 <= n) s -> seqZ 0 (volume s) = arranged s (swap 0 0 s) (swap 0 0).
Proof.
  intros Hs. assert (forall l : list Z, swap 0 0 l = l) as Hid.
  { intros l. unfold swap. destruct (l !! 0%nat) as [a|] eqn:E; [|done]. rewrite list_insert_insert_eq. by apply list_insert_id. }
  rewrite Hid. rewrite <- indices_numbered by done. unfold arranged. apply list_fmap_ext. intros n y _. by rewrite Hid.
Qed.

End Rows.

(** Blocks of whole trailing axes. *)
Lemma block_key s1 s2 x y :
  valid (s1 ++ s2) x -> valid (s1 ++ s2) y -> 0 < volume s2 ->
  ravel (s1 ++ s2) x / volume s2 = ravel (s1 ++ s2) y / volume s2 <-> take (length s1) x = take (length s1) y.
Proof.
  intros (x1 & x2 & Hx1 & Hx2 & ->)%Forall2_app_inv_l (y1 & y2 & Hy1 & Hy2 & ->)%Forall2_app_inv_l Hv.
  pose proof (ravel_bounds _ _ Hx2). pose proof (ravel_bounds _ _ Hy2).
  rewrite !ravel_app, !Z.div_add_l, !(Z.div_small _ (volume s2)), !Z.add_0_r by (done || lia).
  rewrite !take_app_length' by (by eapply Forall2_length). split; [by apply ravel_inj|by intros ->].
Qed.

Lemma block_position s1 s2 x :
  valid (s1 ++ s2) x -> 0 < volume s2 -> ravel (s1 ++ s2) x mod volume s2 = ravel s2 (drop (length s1) x).
Proof.
  intros (x1 & x2 & Hx1 & Hx2 & ->)%Forall2_app_inv_l Hv. pose proof (ravel_bounds _ _ Hx2).
  rewrite ravel_app by done. rewrite drop_app_length' by (by eapply Forall2_length).
  rewrite Z.add_comm, Z.mod_add, Z.mod_small by lia. done.
Qed.
