(* ===== verification/GroupLayout.v ===== *)
(** * Which ranks form a process group

    The lists of ranks computed by [initialize_model_parallel]
    ([vllm/distributed/parallel_state.py]) for every kind of group.  The theorem
    says what they mean: with the rank as a number in the mixed base
    ExternalDP x DP x PP x PCP x TP, each kind of group partitions the ranks into
    groups of its declared size, two ranks share a group exactly when they agree
    on the other coordinates, and the place of a rank in its group is its
    coordinate. *)
From S2P Require Export RankGrid.

(** The sizes passed to [initialize_model_parallel], and the data-parallel size of
    the configuration. *)
Record parallel_sizes := mkSizes {
  data_parallel_size : Z;
  pipeline_model_parallel_size : Z;
  prefill_context_model_parallel_size : Z;
  tensor_model_parallel_size : Z;
  decode_context_model_parallel_size : option Z
}.

Section Layout.
Context `{Torch} (c : parallel_sizes).
Notation DP := (data_parallel_size c).
Notation PP := (pipeline_model_parallel_size c).
Notation PCP := (prefill_context_model_parallel_size c).
Notation TP := (tensor_model_parallel_size c).

(** [decode_context_model_parallel_size or 1] *)
Definition dcp_size : Z :=
  match decode_context_model_parallel_size c with Some n => if n =? 0 then 1 else n | None => 1 end.

Definition all_ranks (world_size : Z) : result grid := reshape [-1; DP; PP; PCP; TP] (arange world_size).
Definition local_all_ranks : result grid := reshape [PP; PCP; TP] (arange (TP * PP * PCP)).

Definition tp_group_ranks (ranks : grid) : result (list (list Z)) := rows TP ranks.
Definition dcp_group_ranks (dcp_ranks : grid) : result (list (list Z)) :=
  let* dcp_ranks := if 1 <? dcp_size then transpose (-1) (-2) dcp_ranks else Ok dcp_ranks in
  rows dcp_size dcp_ranks.
Definition pcp_group_ranks (all_ranks : grid) : result (list (list Z)) :=
  let* t := transpose 3 4 all_ranks in rows PCP t.
Definition pp_group_ranks (all_ranks : grid) : result (list (list Z)) :=
  let* t := transpose 2 4 all_ranks in rows PP t.
Definition dp_group_ranks (all_ranks : grid) : result (list (list Z)) :=
  let* t := transpose 1 4 all_ranks in rows DP t.
Definition ep_group_ranks (all_ranks : grid) : result (list (list Z)) :=
  let* t := transpose 1 2 all_ranks in rows (DP * PCP * TP) t.

(** With elastic expert parallelism, within one data-parallel replica. *)
Definition local_pcp_group_ranks (local_all_ranks : grid) : result (list (list Z)) :=
  let* t := transpose 1 2 local_all_ranks in rows PCP t.
Definition local_pp_group_ranks (local_all_ranks : grid) : result (list (list Z)) :=
  let* t := transpose 0 2 local_all_ranks in rows PP t.

End Layout.

(** ** Kinds of groups and what they mean *)

Inductive kind := TP | DCP | PCP | PP | DP | EP.
#[export] Instance kind_eq_dec : EqDecision kind.
Proof. solve_decision. Defined.

Definition group_ranks_of `{Torch} (k : kind) (c : parallel_sizes) : grid -> result (list (list Z)) :=
  match k with
  | TP => tp_group_ranks c
  | DCP => dcp_group_ranks c
  | PCP => pcp_group_ranks c
  | PP => pp_group_ranks c
  | DP => dp_group_ranks c
  | EP => ep_group_ranks c
  end.

Definition size_of (k : kind) (c : parallel_sizes) : Z :=
  match k with
  | TP => tensor_model_parallel_size c
  | DCP => dcp_size c
  | PCP => prefill_context_model_parallel_size c
  | PP => pipeline_model_parallel_size c
  | DP => data_parallel_size c
  | EP => data_parallel_size c * prefill_context_model_parallel_size c * tensor_model_parallel_size c
  end.

(** The coordinates of a rank: external replica, data-parallel, pipeline,
    prefill-context and tensor rank. *)
Record place := mkPlace { ext : Z; dp : Z; pp : Z; pcp : Z; tp : Z }.
#[export] Instance place_eq_dec : EqDecision place.
Proof. solve_decision. Defined.

Definition coords (x : place) : list Z := [ext x; dp x; pp x; pcp x; tp x].
Definition layout_shape (c : parallel_sizes) (replicas : Z) : list Z :=
  [replicas; data_parallel_size c; pipeline_model_parallel_size c; prefill_context_model_parallel_size c;
   tensor_model_parallel_size c].
Definition rank_of (c : parallel_sizes) (replicas : Z) (x : place) : Z := ravel (layout_shape c replicas) (coords x).
Definition is_place (c : parallel_sizes) (replicas : Z) (x : place) : Prop := valid (layout_shape c replicas) (coords x).

(** The number of a rank among those of its pipeline stage, prefill-context ranks
    first. *)
Definition context_index (c : parallel_sizes) (x : place) : Z := tp x * prefill_context_model_parallel_size c + pcp x.

(** What the members of a group have in common. *)
Definition shared (k : kind) (c : parallel_sizes) (x : place) : list Z :=
  match k with
  | TP => [ext x; dp x; pp x; pcp x]
  | DCP => [ext x; dp x; pp x; context_index c x / dcp_size c]
  | PCP => [ext x; dp x; pp x; tp x]
  | PP => [ext x; dp x; tp x; pcp x]
  | DP => [ext x; tp x; pp x; pcp x]
  | EP => [ext x; pp x]
  end.

(** The place of a rank in its group. *)
Definition position (k : kind) (c : parallel_sizes) (x : place) : Z :=
  match k with
  | TP => tp x
  | DCP => context_index c x mod dcp_size c
  | PCP => pcp x
  | PP => pp x
  | DP => dp x
  | EP => (dp x * prefill_context_model_parallel_size c + pcp x) * tensor_model_parallel_size c + tp x
  end.

Definition positive_sizes (c : parallel_sizes) : Prop :=
  0 < data_parallel_size c /\ 0 < pipeline_model_parallel_size c /\ 0 < prefill_context_model_parallel_size c /\
  0 < tensor_model_parallel_size c /\ 0 < dcp_size c.

(** The ranks of one replica of the model. *)
Definition replica_size (c : parallel_sizes) : Z :=
  data_parallel_size c * pipeline_model_parallel_size c * prefill_context_model_parallel_size c *
  tensor_model_parallel_size c.

(** A group list that means what its kind says. *)
Record layout (k : kind) (c : parallel_sizes) (replicas : Z) (groups : list (list Z)) : Prop := {
  l_partition : List.concat groups ≡ₚ seqZ 0 (replicas * replica_size c);
  l_size : Forall (fun g => Z.of_nat (length g) = size_of k c) groups;
  l_together x y : is_place c replicas x -> is_place c replicas y ->
    together groups (rank_of c replicas x) (rank_of c replicas y) <-> shared k c x = shared k c y;
  l_position x : is_place c replicas x ->
    exists g, g ∈ groups /\ g !! Z.to_nat (position k c x) = Some (rank_of c replicas x)
}.

(** ** The groups mean what they say *)
Section Meaning.
Context `{TorchLaws} (c : parallel_sizes) (replicas : Z).
Context (Hsizes : positive_sizes c) (Hrep : 0 <= replicas).
Notation shape := (layout_shape c replicas).

Lemma shape_nonneg : Forall (fun n => 0 <= n) shape.
Proof. destruct Hsizes as (?&?&?&?&?). repeat (constructor; [lia|]). constructor. Qed.

Lemma volume_shape : volume shape = replicas * replica_size c.
Proof. unfold replica_size. simpl. ring. Qed.

Lemma replica_positive : 0 < replica_size c.
Proof. destruct Hsizes as (?&?&?&?&?). unfold replica_size. repeat apply Z.mul_pos_pos; done. Qed.

(** The ranks as a grid. *)
Lemma all_ranks_ok :
  exists t, all_ranks c (replicas * replica_size c) = Ok t /\ dims t = shape /\ flat t = seqZ 0 (volume shape).
Proof.
  destruct Hsizes as (Hdp & Hpp & Hpcp & Htp & _). pose proof replica_positive as Hpos. unfold all_ranks.
  destruct (arange_law (replicas * replica_size c)) as [Hd Hf]; [nia|].
  set (s := [-1; _; _; _; _]). pose proof (reshape_law s (arange (replicas * replica_size c))) as Hr. rewrite Hd in Hr.
  assert (resolve_shape (volume [replicas * replica_size c]) s = Some shape) as Hs.
  { unfold resolve_shape, s. simpl. rewrite !(fun n => proj2 (Z.ltb_ge n (-1))) by lia. simpl.
    rewrite !(fun n => proj2 (Z.eqb_neq n (-1))) by lia. simpl.
    replace (_ * (_ * (_ * (_ * 1)))) with (replica_size c) by (unfold replica_size; ring).
    rewrite (proj2 (Z.ltb_lt _ _) Hpos), Z.mul_1_r, Z.mod_mul, Z.div_mul by lia. done. }
  rewrite Hs in Hr. destruct Hr as (u & -> & Hdu & Hfu). exists u. split_and!; [done..|].
  by rewrite Hfu, Hf, volume_shape.
Qed.

Lemma layout_from_grouped k a b s1 s2 groups :
  swap a b shape = s1 ++ s2 -> size_of k c = volume s2 -> 0 < volume s2 ->
  (forall x, shared k c x = take (length s1) (swap a b (coords x))) ->
  (forall x, position k c x = ravel s2 (drop (length s1) (swap a b (coords x)))) ->
  grouped shape (swap a b shape) (swap a b) (volume s2) groups -> layout k c replicas groups.
Proof.
  intros Hs Hk Hpos Hshared Hposition [Hpart Hsz Htog Hat].
  assert (forall x, is_place c replicas x -> valid (s1 ++ s2) (swap a b (coords x))) as Hv.
  { intros x Hx. rewrite <- Hs. by apply valid_swap. }
  split.
  - by rewrite <- volume_shape.
  - by rewrite Hk.
  - intros x y Hx Hy. unfold rank_of. rewrite (Htog _ _ Hx Hy), Hs, (block_key s1 s2) by auto. by rewrite !Hshared.
  - intros x Hx. rewrite Hposition, <- (block_position s1 s2), <- Hs by auto. by apply Hat.
Qed.

Lemma layout_transposed k i j a b s1 s2 t :
  dims t = shape -> flat t = seqZ 0 (volume shape) -> axis shape i = Some a -> axis shape j = Some b ->
  swap a b shape = s1 ++ s2 -> size_of k c = volume s2 -> 0 < volume s2 -> 0 <= volume s1 ->
  (forall x, shared k c x = take (length s1) (swap a b (coords x))) ->
  (forall x, position k c x = ravel s2 (drop (length s1) (swap a b (coords x)))) ->
  exists u groups, transpose i j t = Ok u /\ rows (volume s2) u = Ok groups /\ layout k c replicas groups.
Proof.
  intros Hd Hf Ha Hb Hs Hk Hpos Hpos1 Hshared Hposition.
  destruct (transpose_numbered i j a b shape t shape_nonneg Hd Hf Ha Hb) as (u & Hu & Hdu & Hfu).
  destruct (grouped_rows shape a b (volume s2) (volume s1) u) as (groups & Hrows & Hg);
    [apply shape_nonneg|done|done|by rewrite Hs, volume_app|done|done|].
  exists u, groups. split_and!; [done..|]. by eapply layout_from_grouped.
Qed.

Lemma layout_plain k s1 s2 t :
  dims t = shape -> flat t = seqZ 0 (volume shape) ->
  shape = s1 ++ s2 -> size_of k c = volume s2 -> 0 < volume s2 -> 0 <= volume s1 ->
  (forall x, shared k c x = take (length s1) (coords x)) ->
  (forall x, position k c x = ravel s2 (drop (length s1) (coords x))) ->
  exists groups, rows (volume s2) t = Ok groups /\ layout k c replicas groups.
Proof.
  intros Hd Hf Hs Hk Hpos Hpos1 Hshared Hposition.
  destruct (grouped_rows shape 0 0 (volume s2) (volume s1) t) as (groups & Hrows & Hg);
    [apply shape_nonneg|done|done| |done|by rewrite Hf; apply numbered_arranged, shape_nonneg|].
  - change (volume shape = volume s1 * volume s2). by rewrite Hs, volume_app.
  - exists groups. split; [done|]. by eapply (layout_from_grouped k 0 0).
Qed.

Notation DPn := (data_parallel_size c).
Notation PPn := (pipeline_model_parallel_size c).
Notation PCPn := (prefill_context_model_parallel_size c).
Notation TPn := (tensor_model_parallel_size c).

Lemma context_bounds x : is_place c replicas x -> 0 <= context_index c x < TPn * PCPn.
Proof.
  intros Hx. unfold is_place, layout_shape, coords in Hx. repeat (apply Forall2_cons in Hx as [? Hx]).
  unfold context_index. nia.
Qed.

(** Decode-context groups cut the ranks of a pipeline stage into blocks. *)
Lemma dcp_number x : is_place c replicas x ->
  ravel (swap 3 4 shape) (swap 3 4 (coords x)) =
  ravel [replicas; DPn; PPn] [ext x; dp x; pp x] * (TPn * PCPn) + context_index c x.
Proof. intros _. unfold context_index. simpl. ring. Qed.

Lemma dcp_block m x y : is_place c replicas x -> is_place c replicas y -> TPn * PCPn = m * dcp_size c ->
  (ravel (swap 3 4 shape) (swap 3 4 (coords x)) / dcp_size c = ravel (swap 3 4 shape) (swap 3 4 (coords y)) / dcp_size c
   <-> shared DCP c x = shared DCP c y).
Proof.
  intros Hx Hy Hm. destruct Hsizes as (Hdp & Hpp & Hpcp & Htp & Hdcp).
  rewrite !dcp_number, Hm by done.
  replace (ravel [replicas; DPn; PPn] [ext x; dp x; pp x] * (m * dcp_size c)) with (ravel [replicas; DPn; PPn] [ext x; dp x; pp x] * m * dcp_size c) by ring.
  replace (ravel [replicas; DPn; PPn] [ext y; dp y; pp y] * (m * dcp_size c)) with (ravel [replicas; DPn; PPn] [ext y; dp y; pp y] * m * dcp_size c) by ring.
  rewrite !Z.div_add_l by lia. pose proof (context_bounds x Hx) as Hcx. pose proof (context_bounds y Hy) as Hcy.
  rewrite Hm in Hcx, Hcy.
  assert (forall z, 0 <= z < m * dcp_size c -> 0 <= z / dcp_size c < m) as Hq.
  { intros z Hz. split; [apply Z.div_pos; lia|apply Z.div_lt_upper_bound; lia]. }
  assert (forall z, is_place c replicas z -> valid [replicas; DPn; PPn] [ext z; dp z; pp z]) as Hv.
  { intros z Hz. unfold is_place, layout_shape, coords in Hz. repeat (apply Forall2_cons in Hz as [? Hz]). repeat constructor; lia. }
  split.
  - intros (Hr & Hc)%block_unique; [|auto..]. apply ravel_inj in Hr; [|auto..]. simpl. by injection Hr as -> -> ->; rewrite Hc.
  - simpl. intros [= -> -> -> ->]. done.
Qed.

Lemma layout_dcp t m : dims t = shape -> flat t = seqZ 0 (volume shape) -> TPn * PCPn = m * dcp_size c ->
  exists groups, dcp_group_ranks c t = Ok groups /\ layout DCP c replicas groups.
Proof.
  intros Hd Hf Hm. pose proof Hsizes as (Hdp & Hpp & Hpcp & Htp & Hdcp). assert (0 < m) by nia.
  unfold dcp_group_ranks. destruct (Z.ltb_spec 1 (dcp_size c)) as [Hlt|Hge].
  - destruct (transpose_numbered (-1) (-2) 4 3 shape t shape_nonneg Hd Hf eq_refl eq_refl) as (u & -> & Hdu & Hfu).
    change (swap 4 3 shape) with (swap 3 4 shape) in *. simpl.
    destruct (grouped_rows shape 3 4 (dcp_size c) (replicas * DPn * PPn * m) u) as (groups & Hrows & [Hpart Hsz Htog Hat]);
      [apply shape_nonneg|done|apply Z.mul_nonneg_nonneg; nia| |done| |].
    + simpl. replace (replicas * DPn * PPn * m * dcp_size c) with (replicas * DPn * PPn * (m * dcp_size c)) by ring.
      rewrite <- Hm. ring.
    + rewrite Hfu. unfold arranged. apply list_fmap_ext. intros n y Hy.
      apply list_elem_of_lookup_2, elem_of_indices, Forall2_length in Hy.
      destruct y as [|y0 [|y1 [|y2 [|y3 [|y4 [|]]]]]]; done.
    + exists groups. split; [done|]. split; [by rewrite <- volume_shape|done| |].
      * intros x y Hx Hy. unfold rank_of. rewrite (Htog _ _ Hx Hy). by eapply dcp_block.
      * intros x Hx. destruct (Hat _ Hx) as (g & Hg & Hl). exists g. split; [done|]. simpl position.
        rewrite dcp_number, Hm, Z.mul_assoc, Z.add_comm, Z.mod_add in Hl by (done || lia). exact Hl.
  - assert (dcp_size c = 1) as E by lia. rewrite E in *. simpl.
    assert (volume (swap 0 0 shape) = volume shape * 1) as Hv by (change (swap 0 0 shape) with shape; ring).
    destruct (grouped_rows shape 0 0 1 (volume shape) t) as (groups & Hrows & [Hpart Hsz Htog Hat]);
      [apply shape_nonneg|done|apply volume_nonneg, shape_nonneg|done|done|by rewrite Hf; apply numbered_arranged, shape_nonneg|].
    exists groups. split; [done|]. split; [by rewrite <- volume_shape|by simpl; rewrite E| |].
    + intros x y Hx Hy. unfold rank_of. rewrite (Htog _ _ Hx Hy). change (swap 0 0 shape) with shape.
      change (swap 0 0 (coords x)) with (coords x). change (swap 0 0 (coords y)) with (coords y). rewrite !Z.div_1_r.
      simpl shared. rewrite E, !Z.div_1_r. split.
      * intros Hr%ravel_inj; [|done..]. unfold context_index. by injection Hr as -> -> -> -> ->.
      * intros [= He Hd' Hp Hc]. unfold context_index in Hc.
        assert (tp x = tp y /\ pcp x = pcp y) as [Ht Hpc].
        { unfold is_place, layout_shape, coords in Hx, Hy. repeat (apply Forall2_cons in Hx as [? Hx]).
          repeat (apply Forall2_cons in Hy as [? Hy]). eapply block_unique; eauto. }
        unfold coords. by rewrite He, Hd', Hp, Ht, Hpc.
    + intros x Hx. destruct (Hat _ Hx) as (g & Hg & Hl). exists g. split; [done|]. simpl position. rewrite E.
      by rewrite Z.mod_1_r in *.
Qed.

Ltac shape_side :=
  first [ done | reflexivity | (simpl; ring) | (intros; simpl; ring)
        | (simpl; repeat apply Z.mul_pos_pos; lia) | (simpl; repeat apply Z.mul_nonneg_nonneg; lia) ].

Lemma kind_layout k t :
  dims t = shape -> flat t = seqZ 0 (volume shape) -> (k = DCP -> (dcp_size c | TPn * PCPn)) ->
  exists groups, group_ranks_of k c t = Ok groups /\ layout k c replicas groups.
Proof.
  intros Hd Hf Hdcp. pose proof Hsizes as (Hdp & Hpp & Hpcp & Htp & _).
  assert (forall n, volume [n] = n) as H1 by (intros; simpl; ring).
  destruct k; simpl group_ranks_of.
  - destruct (layout_plain TP [replicas; DPn; PPn; PCPn] [TPn] t) as (g & Hg & Hl); [shape_side..|].
    rewrite H1 in Hg. eauto.
  - destruct (Hdcp eq_refl) as (m & Hm). by eapply layout_dcp.
  - destruct (layout_transposed PCP 3 4 3 4 [replicas; DPn; PPn; TPn] [PCPn] t) as (u & g & Hu & Hg & Hl); [shape_side..|].
    unfold pcp_group_ranks. rewrite Hu. rewrite H1 in Hg. eauto.
  - destruct (layout_transposed PP 2 4 2 4 [replicas; DPn; TPn; PCPn] [PPn] t) as (u & g & Hu & Hg & Hl); [shape_side..|].
    unfold pp_group_ranks. rewrite Hu. rewrite H1 in Hg. eauto.
  - destruct (layout_transposed DP 1 4 1 4 [replicas; TPn; PPn; PCPn] [DPn] t) as (u & g & Hu & Hg & Hl); [shape_side..|].
    unfold dp_group_ranks. rewrite Hu. rewrite H1 in Hg. eauto.
  - assert (volume [DPn; PCPn; TPn] = DPn * PCPn * TPn) as H3 by (simpl; ring).
    destruct (layout_transposed EP 1 2 1 2 [replicas; PPn] [DPn; PCPn; TPn] t) as (u & g & Hu & Hg & Hl); [shape_side..|].
    unfold ep_group_ranks. rewrite Hu. rewrite H3 in Hg. eauto.
Qed.

End Meaning.

(** C34 (group layout): for positive sizes whose product divides the number of
    processes (and, for the decode-context groups, a size that divides the ranks
    of a pipeline stage), every kind of group is computed without error; the
    groups partition the ranks into groups of the declared size; two ranks share a
    group exactly when they agree on the coordinates that kind does not span; and
    the place of a rank in its group is its coordinate. *)
Theorem group_layout_exact `{TorchLaws} c replicas k :
  positive_sizes c -> 0 <= replicas ->
  (k = DCP -> (dcp_size c | tensor_model_parallel_size c * prefill_context_model_parallel_size c)) ->
  exists ranks groups, all_ranks c (replicas * replica_size c) = Ok ranks /\
    group_ranks_of k c ranks = Ok groups /\ layout k c replicas groups.
Proof.
  intros Hc Hr Hdcp. destruct (all_ranks_ok c replicas Hc Hr) as (t & Ht & Hd & Hf).
  destruct (kind_layout c replicas Hc Hr k t Hd Hf Hdcp) as (groups & Hg & Hl). by exists t, groups.
Qed.

(** Eight ranks, two pipeline stages of four tensor ranks, decode context two. *)
Definition two_stages : parallel_sizes := mkSizes 1 2 1 4 (Some 2).

Definition groups_of (k : kind) (c : parallel_sizes) (world_size : Z) : result (list (list Z)) :=
  let* t := all_ranks (H := list_torch) c world_size in group_ranks_of k c t.

Example two_stages_groups :
  groups_of TP two_stages 8 = Ok [[0; 1; 2; 3]; [4; 5; 6; 7]] /\
  groups_of PP two_stages 8 = Ok [[0; 4]; [1; 5]; [2; 6]; [3; 7]] /\
  groups_of DCP two_stages 8 = Ok [[0; 1]; [2; 3]; [4; 5]; [6; 7]] /\
  groups_of TP two_stages 6 = Raise RuntimeError.
Proof. vm_compute. repeat split; reflexivity. Qed.

Lemma group_layout_exact_witness :
  exists groups, groups_of PP two_stages 8 = Ok groups /\ layout PP two_stages 1 groups.
Proof.
  destruct (@group_layout_exact list_torch _ two_stages 1 PP) as (ranks & groups & Hr & Hg & Hl).
  - repeat split; vm_compute; reflexivity.
  - done.
  - done.
  - exists groups. unfold groups_of. change 8 with (1 * replica_size two_stages). rewrite Hr. split; [exact Hg|exact Hl].
Defined.
