(* ===== verification/GroupState.v ===== *)
(** * Process groups: coordinators and their life cycle

    [vllm/distributed/parallel_state.py]: [GroupCoordinator] as far as it decides
    something (unique names, ranks, the guards of the collectives), the module's
    group variables, [initialize_model_parallel], [ensure_model_parallel_initialized],
    destruction and replacement, [init_distributed_environment], and the node
    count.  Creating communicators is left to PyTorch: a coordinator records
    whether it has a device communicator and a message queue, and every collective
    creation of a group is logged in order. *)
From S2P Require Export GroupLayout PyLib PyProc.

(** ** What the process is started with *)

Record process_env := mkProcessEnv {
  use_split_group : bool;                    (* [envs.VLLM_DISTRIBUTED_USE_SPLIT_GROUP] *)
  one_gpu_per_node : bool;                   (* [VLLM_ONE_GPU_PER_NODE] is "1" *)
  LOCAL_RANK : Z;
  device_type : list ascii;                  (* [_platform_device_type()] *)
  default_backend : list ascii;              (* [torch.distributed.get_backend] of the world group *)
  backend_available : list ascii -> bool;
  gloo_available : bool;
  accelerator_available : bool;
  default_pg_valid : result unit;            (* [_validate_default_pg_for_split_group()] *)
  attached : list Z -> Z -> list bool        (* which ranks of a group see the memory of one of them *)
}.

(** The part of [VllmConfig] read here. *)
Record parallel_config := mkParallelConfig {
  p_data_parallel_size : Z;
  p_data_parallel_rank : Z;
  p_world_size : Z;
  p_world_size_across_dp : Z;
  p_nnodes : Z;
  p_nnodes_within_dp : Z;
  p_external_launcher : bool;
  p_init_method : list ascii;          (* [get_distributed_init_method] of the address and port of the configuration *)
  enable_elastic_ep : bool;
  enable_eplb : bool;
  is_moe : bool                        (* [model_config is None or model_config.is_moe] *)
}.

(** ** Coordinators *)

Record GroupCoordinator := mkGroup {
  unique_name : list ascii;
  rank : Z;
  ranks : list Z;
  rank_in_group : Z;
  local_rank : Z;
  group_ranks : list (list Z);
  has_device_communicator : bool;
  mq_broadcaster : bool
}.

(** [self.world_size = len(ranks)] *)
Definition world_size (g : GroupCoordinator) : Z := Z.of_nat (length (ranks g)).

(** The calls of [torch.distributed] that change its groups; creating one is a
    collective of all processes. *)
Inductive call :=
  | InitProcessGroup (backend : list ascii)
  | NewGroup (members : list Z) (backend : list ascii)
  | SplitGroup (split_ranks : list (list Z)) (backend : list ascii)
  | Destroy (name : list ascii)
  | DestroyProcessGroup.

(** The variables of the module; [torch] is the rank and world size once
    [torch.distributed] is initialized. *)
Record dist := mkDist {
  torch : option (Z * Z);
  _group_name_counter : gmap (list ascii) Z;
  _groups : list (list ascii);
  calls : list call;
  _WORLD : option GroupCoordinator;
  _INNER_DP_WORLD : option GroupCoordinator;
  _NODE_COUNT : option Z;
  _TP : option GroupCoordinator;
  _DCP : option GroupCoordinator;
  _PCP : option GroupCoordinator;
  _PP : option GroupCoordinator;
  _DP : option GroupCoordinator;
  _EP : option GroupCoordinator;
  _EPLB : option GroupCoordinator
}.
#[export] Instance eta_dist : Eta dist := fun d =>
  mkDist (torch d) (_group_name_counter d) (_groups d) (calls d) (_WORLD d) (_INNER_DP_WORLD d) (_NODE_COUNT d)
    (_TP d) (_DCP d) (_PCP d) (_PP d) (_DP d) (_EP d) (_EPLB d).

Notation M := (proc dist).

Definition emit (l : list call) : M unit := pmodify (fun d => d <| calls ::= fun l0 => l0 ++ l |>).

(** [torch.distributed.is_initialized()]; the other two raise without it. *)
Definition is_initialized : M bool := pget (fun d => bool_decide (is_Some (torch d))).
Definition get_rank : M Z := fun d => match torch d with Some (r, _) => (Ret r, d) | None => (Exn ValueError, d) end.
Definition get_world_size : M Z := fun d => match torch d with Some (_, n) => (Ret n, d) | None => (Exn ValueError, d) end.

(** A coordinator whose place is being filled must not exist yet. *)
Definition assert_none (f : dist -> option GroupCoordinator) : M unit := fun d =>
  match f d with None => (Ret tt, d) | Some _ => (Exn AssertionError, d) end.
Definition get_group (f : dist -> option GroupCoordinator) : M GroupCoordinator := fun d =>
  match f d with Some g => (Ret g, d) | None => (Exn AssertionError, d) end.
Definition get_world_group : M GroupCoordinator := get_group _WORLD.
Definition get_tp_group : M GroupCoordinator := get_group _TP.
Definition get_dcp_group : M GroupCoordinator := get_group _DCP.
Definition get_pp_group : M GroupCoordinator := get_group _PP.
Definition get_pcp_group : M GroupCoordinator := get_group _PCP.

Definition _get_unique_name (name : list ascii) : M (list ascii) := fun d =>
  let n := default 0 (_group_name_counter d !! name) in
  (Ret (name ++ PyStr.text ":" ++ PyStr.str_of n), d <| _group_name_counter ::= <[name := n + 1]> |>).

(** [weakref.ref(group)] under its name; a dictionary, so once per name. *)
Definition _register_group (name : list ascii) : M unit :=
  pmodify (fun d => if bool_decide (name ∈ _groups d) then d else d <| _groups ::= fun l => l ++ [name] |>).

(** The ranks of the group this process is in: the first match with [split_group],
    which stops there, the last one without. *)
Definition own_ranks (split : bool) (r : Z) (groups : list (list Z)) : option (list Z) :=
  let mine := List.filter (fun g => bool_decide (r ∈ g)) groups in
  if split then head mine else last mine.

Fixpoint index_of (r : Z) (l : list Z) : Z :=
  match l with [] => 0 | x :: l => if x =? r then 0 else 1 + index_of r l end.

Definition gloo : list ascii := PyStr.text "gloo".

Definition _device_backend_str (env : process_env) (backend : list ascii) : list ascii :=
  if bool_decide (":"%char ∈ backend) then backend else device_type env ++ PyStr.text ":" ++ backend.

(** [_create_subgroups_split_group], or a device and a CPU group for each list. *)
Definition create_groups (env : process_env) (groups : list (list Z)) (backend : list ascii) : list call :=
  if use_split_group env then
    let device_backend_str := _device_backend_str env backend in
    [SplitGroup groups device_backend_str; SplitGroup groups (PyStr.text "cpu:gloo," ++ device_backend_str)]
  else groups ≫= fun g => [NewGroup g backend; NewGroup g gloo].

Definition name_or (name : option (list ascii)) (fallback : list ascii) : list ascii :=
  match name with Some ((_ :: _) as s) => s | _ => fallback end.

(** [GroupCoordinator.__init__] *)
Definition init (env : process_env) (groups : list (list Z)) (local : Z) (backend : list ascii)
    (use_device_communicator use_message_queue_broadcaster : bool) (group_name : option (list ascii)) : M GroupCoordinator :=
  let! name := _get_unique_name (name_or group_name (PyStr.text "anonymous")) in
  let! _ := _register_group name in
  let! r := get_rank in
  let! _ := plift (require (0 <=? local) AssertionError) in
  let! _ := emit (create_groups env groups backend) in
  match own_ranks (use_split_group env) r groups with
  | None => praise AssertionError
  | Some l =>
      pret (mkGroup name r l (index_of r l) local groups
              (use_device_communicator && (1 <? Z.of_nat (length l)))
              (use_message_queue_broadcaster && (1 <? Z.of_nat (length l))))
  end.

Definition init_world_group (env : process_env) (l : list Z) (local : Z) (backend : list ascii) : M GroupCoordinator :=
  init env [l] local backend false false (Some (PyStr.text "world")).

Definition init_model_parallel_group (env : process_env) (groups : list (list Z)) (local : Z) (backend : list ascii)
    (use_message_queue_broadcaster : bool) (group_name : option (list ascii)) (use_device_communicator : bool)
    : M GroupCoordinator :=
  init env groups local backend use_device_communicator use_message_queue_broadcaster group_name.

(** The ranks of neighbours and ends. *)
Definition at_index (l : list Z) (i : Z) : result Z :=
  let n := Z.of_nat (length l) in
  let j := if i <? 0 then n + i else i in
  if (0 <=? j) && (j <? n) then match l !! Z.to_nat j with Some x => Ok x | None => Raise IndexError end
  else Raise IndexError.

Definition first_rank (g : GroupCoordinator) : result Z := at_index (ranks g) 0.
Definition last_rank (g : GroupCoordinator) : result Z := at_index (ranks g) (-1).
Definition is_first_rank (g : GroupCoordinator) : result bool := let* r := first_rank g in Ok (rank g =? r).
Definition is_last_rank (g : GroupCoordinator) : result bool := let* r := last_rank g in Ok (rank g =? r).
Definition next_rank (g : GroupCoordinator) : result Z := at_index (ranks g) ((rank_in_group g + 1) mod world_size g).
Definition prev_rank (g : GroupCoordinator) : result Z := at_index (ranks g) ((rank_in_group g - 1) mod world_size g).

(** ** Building the groups *)

(** [StatelessGroupCoordinator], of a file that is not part of the repository. *)
Class Stateless := {
  stateless_coordinator (groups : list (list Z)) (local global_rank global_world_size : Z) (name backend : list ascii)
    : proc dist GroupCoordinator
}.

Section Build.
Context `{Torch, Stateless} (env : process_env).

Definition model_group (groups : list (list Z)) (backend : list ascii) (use_message_queue_broadcaster : bool) (name : string)
    : M GroupCoordinator :=
  let! world := get_world_group in
  init_model_parallel_group env groups (local_rank world) backend use_message_queue_broadcaster
    (Some (PyStr.text name)) true.

Definition _init_stateless_group (groups : list (list Z)) (name : string) (backend : list ascii) : M GroupCoordinator :=
  let! world := get_world_group in
  stateless_coordinator groups (local_rank world) (rank world) (world_size world) (PyStr.text name) backend.

(** The lists of one kind: computed from the grid of all ranks, and then again from
    the local one with elastic expert parallelism. *)
Definition elastic_rows (elastic : option grid) (f : result (list (list Z))) (g : grid -> result (list (list Z)))
    : M (list (list Z)) :=
  let! l := plift f in
  match elastic with Some t => plift (g t) | None => pret l end.

Definition build_expert_groups (pc : parallel_config) (c : parallel_sizes) (all : grid) (backend : list ascii) : M unit :=
  if is_moe pc then
    let! l := plift (ep_group_ranks c all) in
    let! g := if enable_elastic_ep pc then _init_stateless_group l "ep" backend else model_group l backend false "ep" in
    let! _ := pmodify (fun d => d <| _EP := Some g |>) in
    let! _ := assert_none _EPLB in
    if enable_eplb pc then
      let! g := if enable_elastic_ep pc then _init_stateless_group l "eplb" backend else model_group l backend false "eplb" in
      pmodify (fun d => d <| _EPLB := Some g |>)
    else pret tt
  else pret tt.

Definition build_groups (pc : parallel_config) (c : parallel_sizes) (all : grid) (elastic : option grid)
    (backend : list ascii) : M unit :=
  let! _ := assert_none _TP in
  let! l := elastic_rows elastic (tp_group_ranks c all) (tp_group_ranks c) in
  let! g := model_group l backend true "tp" in
  let! _ := pmodify (fun d => d <| _TP := Some g |>) in
  let! _ := assert_none _DCP in
  let! l := plift (dcp_group_ranks c (default all elastic)) in
  let! g := model_group l backend true "dcp" in
  let! _ := pmodify (fun d => d <| _DCP := Some g |>) in
  let! _ := assert_none _PCP in
  let! l := elastic_rows elastic (pcp_group_ranks c all) (local_pcp_group_ranks c) in
  let! g := model_group l backend false "pcp" in
  let! _ := pmodify (fun d => d <| _PCP := Some g |>) in
  let! _ := assert_none _PP in
  let! l := elastic_rows elastic (pp_group_ranks c all) (local_pp_group_ranks c) in
  let! g := model_group l backend false "pp" in
  let! _ := pmodify (fun d => d <| _PP := Some g |>) in
  let! _ := assert_none _DP in
  let! l := plift (dp_group_ranks c all) in
  let! g := if enable_elastic_ep pc then _init_stateless_group l "dp" backend else model_group l backend false "dp" in
  let! _ := pmodify (fun d => d <| _DP := Some g |>) in
  let! _ := assert_none _EP in
  build_expert_groups pc c all backend.

Definition initialize_model_parallel (pc : parallel_config) (tp pp pcp : Z) (dcp : option Z)
    (backend : option (list ascii)) : M unit :=
  let c := mkSizes (p_data_parallel_size pc) pp pcp tp dcp in
  let! up := is_initialized in
  let! _ := plift (require up AssertionError) in
  if enable_elastic_ep pc then
    let! world := get_world_group in
    let! elastic := plift (local_all_ranks c) in
    let! all := plift (all_ranks c (world_size world)) in
    build_groups pc c all (Some elastic) (name_or backend (PyStr.text "nccl"))
  else
    let! n := get_world_size in
    let! backend := match backend with
                    | Some ((_ :: _) as b) => pret b
                    | _ => let! _ := get_world_group in pret (default_backend env)
                    end in
    let! all := plift (all_ranks c n) in
    build_groups pc c all None backend.

Definition model_parallel_is_initialized (d : dist) : bool :=
  bool_decide (is_Some (_TP d)) && bool_decide (is_Some (_PP d)).

Definition expect_size (f : dist -> option GroupCoordinator) (n : Z) : M unit :=
  let! g := get_group f in plift (require (world_size g =? n) AssertionError).

Definition ensure_model_parallel_initialized (pc : parallel_config) (tp pp pcp : Z) (dcp : option Z)
    (backend : option (list ascii)) : M unit :=
  let! _ := get_world_group in
  let! ready := pget model_parallel_is_initialized in
  if negb ready then initialize_model_parallel pc tp pp pcp dcp (Some (name_or backend (default_backend env)))
  else
    let! _ := expect_size _TP tp in
    let! _ := expect_size _PP pp in
    let! _ := expect_size _PCP pcp in
    expect_size _DCP (dcp_size (mkSizes 1 pp pcp tp dcp)).

End Build.

(** ** Taking the groups down *)

Definition destroy_group (f : dist -> option GroupCoordinator) : M unit := fun d =>
  match f d with Some g => emit [Destroy (unique_name g)] d | None => (Ret tt, d) end.

Definition destroy_model_parallel : M unit :=
  let! _ := destroy_group _TP in
  let! _ := pmodify (fun d => d <| _TP := None |>) in
  let! _ := destroy_group _DCP in
  let! _ := pmodify (fun d => d <| _DCP := None |>) in
  let! _ := destroy_group _PCP in
  let! _ := pmodify (fun d => d <| _PCP := None |>) in
  let! _ := destroy_group _PP in
  let! _ := pmodify (fun d => d <| _PP := None |>) in
  let! _ := destroy_group _DP in
  let! _ := pmodify (fun d => d <| _DP := None |>) in
  let! _ := destroy_group _EP in
  let! _ := pmodify (fun d => d <| _EP := None |>) in
  let! _ := destroy_group _EPLB in
  pmodify (fun d => d <| _EPLB := None |>).

Definition destroy_distributed_environment : M unit :=
  let! _ := destroy_group _WORLD in
  let! _ := pmodify (fun d => (d <| _WORLD := None |>) <| _NODE_COUNT := None |>) in
  let! up := is_initialized in
  if up : bool then
    let! _ := emit [DestroyProcessGroup] in pmodify (fun d => d <| torch := None |>)
  else pret tt.

Definition _replace_active_groups (world dp ep eplb : option GroupCoordinator) (node_count : option Z) : M unit :=
  let! _ := destroy_group _DP in
  let! _ := destroy_group _EP in
  let! _ := destroy_group _WORLD in
  let! _ := destroy_group _EPLB in
  pmodify (fun d => ((((d <| _WORLD := world |>) <| _DP := dp |>) <| _EP := ep |>) <| _EPLB := eplb |>)
                      <| _NODE_COUNT := node_count |>).

(** ** Nodes *)

(** The sum over the processes of the vectors with a one at the ranks that see the
    memory segment of the source. *)
Definition magic_vector (world_size r : Z) (sees : bool) : list Z :=
  (fun i => if (i =? r) && sees then 1 else 0) <$> seqZ 0 world_size.
Definition all_reduce_sum (world_size : Z) (vectors : list (list Z)) : list Z :=
  foldl (zip_with Z.add) ((fun _ => 0) <$> seqZ 0 world_size) vectors.

(** [in_the_same_node_as] on a group of [n] processes, where [attached] says for
    which ranks the segment of [source_rank] could be made or opened. *)
Definition in_the_same_node_as (one_gpu_per_node : bool) (attached : list bool) (n source_rank : Z) : list bool :=
  if one_gpu_per_node then (fun i => i =? source_rank) <$> seqZ 0 n
  else
    let vector r := magic_vector n r (attached !!! Z.to_nat r) in
    (fun x => x =? 1) <$> all_reduce_sum n (vector <$> seqZ 0 n).

(** One round of the loop of [_node_count]: the assignment and the last node. *)
Definition assign_node (same_node : Z -> list bool) (st : list Z * Z) (current_rank : Z) : list Z * Z :=
  let '(node_assignment, next_node_id) := st in
  if negb (node_assignment !!! Z.to_nat current_rank =? 0) then st
  else
    let next_node_id := next_node_id + 1 in
    let node_assignment := <[Z.to_nat current_rank := next_node_id]> node_assignment in
    (zip_with (fun same a => if (same : bool) && (a =? 0) then next_node_id else a) (same_node current_rank) node_assignment,
     next_node_id).

Definition _node_count (same_node : Z -> list bool) (n : Z) : Z :=
  if n =? 1 then 1
  else snd (foldl (assign_node same_node) ((fun _ => 0) <$> seqZ 0 n, 0) (seqZ 0 n)).

(** ** The distributed environment *)
Section Environment.
Context `{Torch, Stateless} (env : process_env).

Definition same_node_flags (l : list Z) (source_rank : Z) : list bool :=
  in_the_same_node_as (one_gpu_per_node env) (attached env l source_rank) (Z.of_nat (length l)) source_rank.

Definition env_method : list ascii := PyStr.text "env://".

(** The rank, world size and address of this process among all replicas. *)
Definition adjusts (config : option parallel_config) : bool :=
  match config with
  | Some pc => negb (p_external_launcher pc) && ((1 <? p_nnodes pc) || (1 <? p_data_parallel_size pc))
               && negb (enable_elastic_ep pc)
  | None => false
  end.
Definition adjusted (config : option parallel_config) (ws r : Z) (method : option (list ascii))
    : Z * Z * option (list ascii) :=
  match config with
  | Some pc => if adjusts config then
                 (p_world_size_across_dp pc, p_data_parallel_rank pc * ws + r, Some (p_init_method pc))
               else (ws, r, method)
  | None => (ws, r, method)
  end.

Definition init_process_group (ws r : Z) (backend : list ascii) : M unit :=
  let! _ := emit [InitProcessGroup backend] in pmodify (fun d => d <| torch := Some (r, ws) |>).

Definition local_or (local r : Z) (method : option (list ascii)) : Z :=
  if local =? -1 then if bool_decide (method = Some env_method) then LOCAL_RANK env else r else local.

(** [_init_process_group_for_split_group]: both a CPU and a device backend. *)
Definition split_backend (backend : list ascii) : list ascii :=
  if accelerator_available env && negb (bool_decide (backend = gloo)) then PyStr.text "cpu:gloo,cuda:nccl" else gloo.

Definition start_torch (config : option parallel_config) (ws r local : Z) (method : option (list ascii))
    (backend : list ascii) : M (Z * list ascii) :=
  let! up := is_initialized in
  if up : bool then pret (local, backend)
  else
    let! _ := plift (require (bool_decide (is_Some method)) AssertionError) in
    let! backend := if backend_available env backend then pret backend
                    else let! _ := plift (require (gloo_available env) AssertionError) in pret gloo in
    let local' := if use_split_group env then local_or local r method else local in
    let! _ := init_process_group ws r (if use_split_group env then split_backend backend else backend) in
    if match config with Some pc => enable_elastic_ep pc | None => false end then
      let! _ := emit [NewGroup (seqZ 0 ws) gloo] in
      let! _ := plift (require (negb (1 <? _node_count (same_node_flags (seqZ 0 ws)) ws)) RuntimeError) in
      pret (local', backend)
    else pret (local', backend).

Definition _init_elastic_ep_world (pc : parallel_config) (local : Z) (backend : list ascii) (r ws : Z) : M unit :=
  let! _ := assert_none _WORLD in
  let global_rank := p_data_parallel_rank pc * ws + r in
  let n := p_world_size_across_dp pc in
  let groups := if bool_decide (global_rank ∈ seqZ 0 n) then [seqZ 0 n] else (fun i => [i]) <$> seqZ 0 n in
  let! world := stateless_coordinator groups local global_rank n (PyStr.text "world") backend in
  let! _ := plift (require (p_nnodes_within_dp pc =? 1) AssertionError) in
  pmodify (fun d => (d <| _NODE_COUNT := Some (_node_count (same_node_flags (ranks world)) (world_size world)) |>)
                      <| _WORLD := Some world |>).

Definition inner_dp_groups (pc : parallel_config) : list (list Z) :=
  (fun dp_rank => (fun i => dp_rank * p_world_size pc + i) <$> seqZ 0 (p_world_size pc)) <$> seqZ 0 (p_data_parallel_size pc).

(** The world group, made once, and the number of nodes. *)
Definition make_world (config : option parallel_config) (local : Z) (backend : list ascii) : M unit :=
  let! world := pget _WORLD in
  match world with
  | Some g =>
      let! n := get_world_size in plift (require (world_size g =? n) AssertionError)
  | None =>
      let! n := get_world_size in
      let! g := init_world_group env (seqZ 0 n) local backend in
      let! _ := pmodify (fun d => d <| _WORLD := Some g |>) in
      let count := match config with
                   | Some pc => if 1 <? p_nnodes pc then p_nnodes pc
                                else _node_count (same_node_flags (ranks g)) (world_size g)
                   | None => _node_count (same_node_flags (ranks g)) (world_size g)
                   end in
      pmodify (fun d => d <| _NODE_COUNT := Some count |>)
  end.

(** The local [parallel_config] exists only when the rank has been adjusted; reading
    it otherwise is an [UnboundLocalError]. *)
Definition make_inner_dp_world (config : option parallel_config) (backend : list ascii) : M unit :=
  match config with
  | Some pc =>
      if 1 <? p_nnodes_within_dp pc then
        let! _ := plift (require (adjusts config) UnboundLocalError) in
        if 1 <? p_data_parallel_size pc then
          let! world := get_world_group in
          let! g := init_model_parallel_group env (inner_dp_groups pc) (local_rank world) backend true
                      (Some (PyStr.text "inner_dp_world")) false in
          pmodify (fun d => d <| _INNER_DP_WORLD := Some g |>)
        else pmodify (fun d => d <| _INNER_DP_WORLD := _WORLD d |>)
      else pret tt
  | None => pret tt
  end.

Definition init_distributed_environment (config : option parallel_config) (ws r : Z) (method : option (list ascii))
    (local : Z) (backend : list ascii) : M unit :=
  let '(n, global, method) := adjusted config ws r method in
  let! started := start_torch config n global local method backend in
  let '(local, backend) := started in
  let! _ := plift (if use_split_group env && accelerator_available env then default_pg_valid env else Ok tt) in
  let local := local_or local global method in
  match config with
  | Some pc => if enable_elastic_ep pc then _init_elastic_ep_world pc local backend global n
               else let! _ := make_world config local backend in make_inner_dp_world config backend
  | None => let! _ := make_world config local backend in make_inner_dp_world config backend
  end.

End Environment.
