(* ===== verification/GroupInit.v ===== *)
(** * Process groups: initialization puts every process in its place

    Theorems on [GroupState]: after [initialize_model_parallel] each group of a
    process holds exactly the ranks its kind says, all processes create the same
    groups in the same order, and the node count is the number of nodes. *)
From S2P Require Export GroupState.

(** ** Finding one's group *)

Lemma own_unique (groups : list (list Z)) g r :
  NoDup (List.concat groups) -> g ∈ groups -> r ∈ g -> List.filter (fun g => bool_decide (r ∈ g)) groups = [g].
Proof.
  intros Hnd (l1 & l2 & ->)%list_elem_of_split Hr. rewrite concat_app in Hnd. simpl in Hnd.
  apply NoDup_app in Hnd as (_ & Hd1 & Hnd). apply NoDup_app in Hnd as (_ & Hd2 & _).
  assert (forall l : list (list Z), (forall h, h ∈ l -> r ∉ h) -> List.filter (fun g => bool_decide (r ∈ g)) l = []) as Hnone.
  { intros l. induction l as [|h l IH]; intros Hl; [done|]. simpl. rewrite bool_decide_eq_false_2 by (apply Hl; by left).
    apply IH. intros h' Hh'. apply Hl. by right. }
  assert (forall (l : list (list Z)) h, h ∈ l -> r ∈ h -> r ∈ List.concat l) as Hin.
  { intros l h Hh Hrh. apply list_elem_of_In, in_concat. exists h. by split; apply list_elem_of_In. }
  rewrite List.filter_app. simpl. rewrite bool_decide_eq_true_2 by done. rewrite !Hnone; [done| |].
  - intros h Hh Hrh. apply (Hd2 r Hr). by eapply Hin.
  - intros h Hh Hrh. apply (Hd1 r); [by eapply Hin|]. apply elem_of_app. by left.
Qed.

Lemma own_ranks_ok split (groups : list (list Z)) g r :
  NoDup (List.concat groups) -> g ∈ groups -> r ∈ g -> own_ranks split r groups = Some g.
Proof. intros Hnd Hg Hr. unfold own_ranks. rewrite (own_unique _ g) by done. by destruct split. Qed.

Lemma index_of_lookup l i r : NoDup l -> l !! i = Some r -> index_of r l = Z.of_nat i.
Proof.
  revert i. induction l as [|x l IH]; intros i Hnd Hi; [done|]. apply NoDup_cons in Hnd as [Hx Hnd].
  destruct i as [|i]; simpl in *.
  - injection Hi as ->. by rewrite Z.eqb_refl.
  - rewrite (proj2 (Z.eqb_neq x r)); [rewrite (IH i) by done; lia|]. intros ->. apply Hx. by eapply list_elem_of_lookup_2.
Qed.

Lemma NoDup_part (groups : list (list Z)) g : NoDup (List.concat groups) -> g ∈ groups -> NoDup g.
Proof.
  intros Hnd (l1 & l2 & ->)%list_elem_of_split. rewrite concat_app in Hnd. apply NoDup_app in Hnd as (_ & _ & Hnd).
  simpl in Hnd. by apply NoDup_app in Hnd as (Hg & _).
Qed.

(** ** One group *)

(** [g] is the group of kind [k] of the process at [x]. *)
Record placed (k : kind) (c : parallel_sizes) (replicas : Z) (x : place) (g : GroupCoordinator) : Prop := {
  pl_rank : rank g = rank_of c replicas x;
  pl_size : world_size g = size_of k c;
  pl_member y : is_place c replicas y -> rank_of c replicas y ∈ ranks g <-> shared k c y = shared k c x;
  pl_index : rank_in_group g = position k c x
}.

Section OneGroup.
Context (c : parallel_sizes) (replicas : Z) (x : place) (Hx : is_place c replicas x).
Context (Hpos : 0 < dcp_size c).

Lemma position_nonneg k : 0 <= position k c x.
Proof.
  unfold is_place, layout_shape, coords in Hx. repeat (apply Forall2_cons in Hx as [? Hx]).
  destruct k; simpl; try lia.
  - apply Z.mod_pos_bound. done.
  - repeat first [lia | apply Z.add_nonneg_nonneg | apply Z.mul_nonneg_nonneg].
Qed.

Lemma own_group k groups :
  layout k c replicas groups ->
  exists g, g ∈ groups /\ rank_of c replicas x ∈ g /\ NoDup (List.concat groups) /\
    Z.of_nat (length g) = size_of k c /\ index_of (rank_of c replicas x) g = position k c x /\
    forall y, is_place c replicas y -> rank_of c replicas y ∈ g <-> shared k c y = shared k c x.
Proof.
  intros [Hpart Hsz Htog Hat]. destruct (Hat x Hx) as (g & Hg & Hl). exists g.
  pose proof (list_elem_of_lookup_2 _ _ _ Hl) as Hr.
  assert (NoDup (List.concat groups)) as Hnd by (rewrite Hpart; apply NoDup_seqZ).
  split_and!; [done..| | |].
  - by eapply Forall_forall in Hsz.
  - rewrite (index_of_lookup g _ _ (NoDup_part _ _ Hnd Hg) Hl). pose proof (position_nonneg k). lia.
  - intros y Hy. rewrite <- (Htog y x Hy Hx). split.
    + intros Hry. by exists g.
    + intros (g' & Hg' & Hy' & Hx'). pose proof (own_ranks_ok false _ _ _ Hnd Hg Hr) as E1.
      rewrite (own_ranks_ok false _ _ _ Hnd Hg' Hx') in E1. by injection E1 as <-.
Qed.

Lemma init_run env groups local b dc mq name d r n l :
  torch d = Some (r, n) -> 0 <= local -> own_ranks (use_split_group env) r groups = Some l ->
  exists u counter names, init env groups local b dc mq name d =
    (Ret (mkGroup u r l (index_of r l) local groups (dc && (1 <? Z.of_nat (length l))) (mq && (1 <? Z.of_nat (length l)))),
     ((d <| _group_name_counter := counter |>) <| _groups := names |>) <| calls ::= fun l => l ++ create_groups env groups b |>).
Proof.
  intros Ht Hloc Hown. unfold init. generalize (name_or name (PyStr.text "anonymous")) as nm. intros nm.
  unfold _get_unique_name. unfold pbind at 1. set (u := nm ++ _). set (cnt := <[nm := _]>).
  assert (exists names, _register_group u (d <| _group_name_counter ::= cnt |>)
    = (Ret tt, (d <| _group_name_counter := cnt (_group_name_counter d) |>) <| _groups := names |>)) as (names & E).
  { unfold _register_group, pmodify. destruct d. simpl. case_bool_decide; eexists; reflexivity. }
  unfold pbind at 1. rewrite E. exists u, (cnt (_group_name_counter d)), names.
  destruct d. simpl in *. subst. unfold pbind at 1. simpl. unfold pbind at 1.
  rewrite (proj2 (Z.leb_le _ _) Hloc). simpl. unfold pbind at 1. simpl. by rewrite Hown.
Qed.

Lemma model_group_run env k groups b mq name d n w :
  layout k c replicas groups -> torch d = Some (rank_of c replicas x, n) -> _WORLD d = Some w -> 0 <= local_rank w ->
  exists g counter names, model_group env groups b mq name d =
    (Ret g, ((d <| _group_name_counter := counter |>) <| _groups := names |>) <| calls ::= fun l => l ++ create_groups env groups b |>)
    /\ placed k c replicas x g.
Proof.
  intros Hl Ht Hw Hloc. destruct (own_group k groups Hl) as (l & Hg & Hr & Hnd & Hsz & Hidx & Hmem).
  destruct (init_run env groups (local_rank w) b true mq (Some (PyStr.text name)) d _ n l Ht Hloc
    ltac:(by apply own_ranks_ok)) as (u & cnt & names & E).
  eexists _, cnt, names. split; [|].
  - unfold model_group, get_world_group, get_group, pbind. rewrite Hw. exact E.
  - by split.
Qed.

End OneGroup.

(** ** All groups *)

Definition group_at (k : kind) (d : dist) : option GroupCoordinator :=
  match k with TP => _TP d | DCP => _DCP d | PCP => _PCP d | PP => _PP d | DP => _DP d | EP => _EP d end.

(** The kinds of groups made, in order; the last entry of an expert-balancing
    configuration repeats the expert groups. *)
Definition kinds_made (pc : parallel_config) : list kind :=
  [TP; DCP; PCP; PP; DP] ++ (if is_moe pc then EP :: (if enable_eplb pc then [EP] else []) else []).

(** The groups created, from the sizes and the number of processes alone. *)
Definition creation_plan `{Torch} (env : process_env) (pc : parallel_config) (c : parallel_sizes) (n : Z)
    (backend : list ascii) : list call :=
  kinds_made pc ≫= fun k =>
    match (let* t := all_ranks c n in group_ranks_of k c t) with
    | Ok groups => create_groups env groups backend
    | Raise _ => []
    end.

(** Nothing but the world group exists. *)
Definition no_groups (d : dist) : Prop :=
  _TP d = None /\ _DCP d = None /\ _PCP d = None /\ _PP d = None /\ _DP d = None /\ _EP d = None /\ _EPLB d = None.

Section Initialize.
Context `{TorchLaws, Stateless} (env : process_env) (pc : parallel_config).
Context (tp pp pcp : Z) (dcp : option Z) (replicas : Z).
Notation c := (mkSizes (p_data_parallel_size pc) pp pcp tp dcp).
Context (Hsizes : positive_sizes c) (Hrep : 0 <= replicas) (Hdcp : (dcp_size c | tp * pcp)).
Context (x : place) (Hx : is_place c replicas x).
Notation n := (replicas * replica_size c).

Lemma kinds_ok :
  exists t, all_ranks c n = Ok t /\ forall k, exists groups, group_ranks_of k c t = Ok groups /\ layout k c replicas groups.
Proof.
  destruct (all_ranks_ok c replicas Hsizes Hrep) as (t & Ht & Hd & Hf). exists t. split; [done|]. intros k.
  by apply kind_layout.
Qed.

Definition finished (backend : list ascii) (d d' : dist) : Prop :=
  (forall k, k ∈ kinds_made pc -> exists g, group_at k d' = Some g /\ placed k c replicas x g) /\
  (is_moe pc = false -> _EP d' = None) /\
  calls d' = calls d ++ creation_plan env pc c n backend /\
  torch d' = torch d /\ _WORLD d' = _WORLD d /\ _INNER_DP_WORLD d' = _INNER_DP_WORLD d /\ _NODE_COUNT d' = _NODE_COUNT d.

(** One step of a run. *)
Lemma run_bind {A} (m : M A) (f : A -> M unit) (P : dist -> Prop) s a s1 :
  m s = (Ret a, s1) -> (exists d', f a s1 = (Ret tt, d') /\ P d') -> exists d', pbind m f s = (Ret tt, d') /\ P d'.
Proof. intros Hm Hf. unfold pbind. by rewrite Hm. Qed.

Lemma run_group {A} k groups b mq name s w (f : GroupCoordinator -> M A) (P : outcome A * dist -> Prop) :
  layout k c replicas groups -> torch s = Some (rank_of c replicas x, n) -> _WORLD s = Some w -> 0 <= local_rank w ->
  (forall g counter names, placed k c replicas x g ->
     P (f g (((s <| _group_name_counter := counter |>) <| _groups := names |>) <| calls ::= fun l => l ++ create_groups env groups b |>))) ->
  P (pbind (model_group env groups b mq name) f s).
Proof.
  intros Hl Ht Hw Hloc HP. destruct Hsizes as (_ & _ & _ & _ & Hd).
  destruct (model_group_run c replicas x Hx Hd env k groups b mq name s n w Hl Ht Hw Hloc) as (g & counter & names & E & Hg).
  unfold pbind. rewrite E. by apply HP.
Qed.

(** The state while the groups of the kinds [made] exist. *)
Section Building.
Context (gs : kind -> list (list Z)) (Hgs : forall k, layout k c replicas (gs k)).
Context (backend : list ascii) (d : dist) (w : GroupCoordinator).
Context (Htorch : torch d = Some (rank_of c replicas x, n)) (Hw : _WORLD d = Some w) (Hloc : 0 <= local_rank w).

Record building (made : list kind) (s : dist) : Prop := {
  b_torch : torch s = torch d;
  b_world : _WORLD s = _WORLD d;
  b_inner : _INNER_DP_WORLD s = _INNER_DP_WORLD d;
  b_nodes : _NODE_COUNT s = _NODE_COUNT d;
  b_eplb : _EPLB s = None;
  b_calls : calls s = calls d ++ (made ≫= fun k => create_groups env (gs k) backend);
  b_made k : k ∈ made -> exists g, group_at k s = Some g /\ placed k c replicas x g;
  b_free k : k ∉ made -> group_at k s = None
}.

Definition set_group (k : kind) (g : GroupCoordinator) (s : dist) : dist :=
  match k with
  | TP => s <| _TP := Some g |>
  | DCP => s <| _DCP := Some g |>
  | PCP => s <| _PCP := Some g |>
  | PP => s <| _PP := Some g |>
  | DP => s <| _DP := Some g |>
  | EP => s <| _EP := Some g |>
  end.

Lemma group_at_set k k' g s : group_at k (set_group k' g s) = if decide (k = k') then Some g else group_at k s.
Proof. by destruct k, k'. Qed.

Lemma run_free k made s (f : unit -> M unit) P :
  building made s -> k ∉ made -> (exists d', f tt s = (Ret tt, d') /\ P d') ->
  exists d', pbind (assert_none (group_at k)) f s = (Ret tt, d') /\ P d'.
Proof. intros Hb Hk. apply run_bind. unfold assert_none. by rewrite (b_free _ _ Hb k Hk). Qed.

Lemma run_slot k made s mq name (f : unit -> M unit) P :
  building made s -> k ∉ made ->
  (forall s', building (made ++ [k]) s' -> exists d', f tt s' = (Ret tt, d') /\ P d') ->
  exists d', (let! g := model_group env (gs k) backend mq name in
              let! u := pmodify (set_group k g) in f u) s = (Ret tt, d') /\ P d'.
Proof.
  intros [B1 B2 B3 B4 B5 B6 B7 B8] Hk Hf.
  apply (run_group k (gs k) backend mq name s w _ (fun o => exists d', o = (Ret tt, d') /\ P d') (Hgs k));
    [congruence|congruence|done|]. intros g counter names Hg.
  eapply run_bind; [reflexivity|]. apply Hf. split; try (destruct k; simpl; done).
  - rewrite bind_app. simpl. rewrite app_nil_r, (assoc_L (++)), <- B6. by destruct k.
  - intros k' Hin. rewrite group_at_set. case_decide as E; [subst; by exists g|].
    apply elem_of_app in Hin as [Hin| ->%list_elem_of_singleton]; [|done].
    destruct (B7 k' Hin) as (g' & Hg' & Hp). exists g'. split; [|done]. rewrite <- Hg'. by destruct k'.
  - intros k' Hnin. rewrite group_at_set, decide_False by set_solver. rewrite <- (B8 k') by set_solver. by destruct k'.
Qed.

End Building.

(** The lists of one kind of group, and the group made from them. *)
Ltac lists E := eapply run_bind; [unfold pbind, plift; simpl; rewrite E; reflexivity|cbn beta].
Ltac slot Hslot k B := eapply (Hslot k _ _ _ _ _ _ B); [set_solver|]; clear B; intros ? B.

Lemma build_groups_ok t d w backend :
  all_ranks c n = Ok t -> (forall k, exists groups, group_ranks_of k c t = Ok groups /\ layout k c replicas groups) ->
  enable_elastic_ep pc = false -> no_groups d ->
  torch d = Some (rank_of c replicas x, n) -> _WORLD d = Some w -> 0 <= local_rank w ->
  exists d', build_groups env pc c t None backend d = (Ret tt, d') /\ finished backend d d'.
Proof.
  intros Ht Hk He (N1 & N2 & N3 & N4 & N5 & N6 & N7) Htorch Hw Hloc.
  set (gs k := match group_ranks_of k c t with Ok l => l | Raise _ => [] end).
  assert (forall k, group_ranks_of k c t = Ok (gs k)) as Hgs.
  { intros k. unfold gs. by destruct (Hk k) as (groups & -> & _). }
  assert (forall k, layout k c replicas (gs k)) as Hlay.
  { intros k. destruct (Hk k) as (groups & Hg & Hl). unfold gs. by rewrite Hg. }
  assert (creation_plan env pc c n backend = kinds_made pc ≫= fun k => create_groups env (gs k) backend) as Hplan.
  { unfold creation_plan. apply list_bind_ext; [|done]. intros k. rewrite Ht. simpl. by rewrite Hgs. }
  assert (building gs backend d [] d) as B0.
  { split; try done; [by rewrite app_nil_r|set_solver|]. intros [] _; done. }
  pose proof (Hgs TP) as E1. pose proof (Hgs DCP) as E2. pose proof (Hgs PCP) as E3.
  pose proof (Hgs PP) as E4. pose proof (Hgs DP) as E5. pose proof (Hgs EP) as E6. simpl group_ranks_of in *.
  pose proof (run_free gs backend d) as Hfree. pose proof (run_slot gs Hlay backend d w Htorch Hw Hloc) as Hslot.
  pose proof (b_torch gs backend d) as Bt. pose proof (b_world gs backend d) as Bw.
  clearbody gs. unfold build_groups, elastic_rows.
  eapply (Hfree TP _ _ _ _ B0); [set_solver|]. lists E1. slot Hslot TP B0.
  eapply (Hfree DCP _ _ _ _ B0); [set_solver|]. lists E2. slot Hslot DCP B0.
  eapply (Hfree PCP _ _ _ _ B0); [set_solver|]. lists E3. slot Hslot PCP B0.
  eapply (Hfree PP _ _ _ _ B0); [set_solver|]. lists E4. slot Hslot PP B0.
  eapply (Hfree DP _ _ _ _ B0); [set_solver|]. lists E5. rewrite He. slot Hslot DP B0.
  eapply (Hfree EP _ _ _ _ B0); [set_solver|]. unfold build_expert_groups.
  destruct (is_moe pc) eqn:Hmoe.
  - lists E6. rewrite He. slot Hslot EP B0.
    eapply run_bind; [unfold assert_none; rewrite (b_eplb _ _ _ _ _ B0); reflexivity|].
    destruct (enable_eplb pc) eqn:Heplb.
    + eapply (run_group EP (gs EP) _ _ _ _ w _ (fun o => exists d', o = (Ret tt, d') /\ finished backend d d') (Hlay EP));
        [by rewrite (Bt _ _ B0)|by rewrite (Bw _ _ B0)|done|]. intros g counter names _.
      eexists. split; [reflexivity|]. destruct B0 as [B1 B2 B3 B4 B5 B6 B7 B8]. split_and!; try done.
      * intros k Hin. destruct (B7 k) as (g' & Hg' & Hp); [destruct k; set_solver|]. exists g'. split; [|done].
        rewrite <- Hg'. by destruct k.
      * intros Hno. congruence.
      * rewrite Hplan. unfold kinds_made. rewrite Hmoe, Heplb. simpl. rewrite B6. csimpl.
        by rewrite ?app_nil_r, <- ?(assoc_L (++)).
    + eexists. split; [reflexivity|]. destruct B0 as [B1 B2 B3 B4 B5 B6 B7 B8]. split_and!; try done.
      * intros k Hin. apply B7. unfold kinds_made in Hin. rewrite Hmoe, Heplb in Hin. done.
      * intros Hno. congruence.
      * rewrite Hplan. unfold kinds_made. by rewrite Hmoe, Heplb.
  - eexists. split; [reflexivity|]. destruct B0 as [B1 B2 B3 B4 B5 B6 B7 B8]. split_and!; try done.
    + intros k Hin. apply B7. unfold kinds_made in Hin. by rewrite Hmoe in Hin.
    + intros _. apply (B8 EP). set_solver.
    + rewrite Hplan. unfold kinds_made. by rewrite Hmoe.
Qed.

(** Without elastic expert parallelism, from a state in which only the world group
    exists. *)
Lemma initialize_run d w backend :
  enable_elastic_ep pc = false -> no_groups d ->
  torch d = Some (rank_of c replicas x, n) -> _WORLD d = Some w -> 0 <= local_rank w ->
  exists d', initialize_model_parallel env pc tp pp pcp dcp backend d = (Ret tt, d') /\
    finished (name_or backend (default_backend env)) d d'.
Proof.
  intros He Hn Ht Hw Hloc. destruct kinds_ok as (t & Hall & Hk). unfold initialize_model_parallel.
  eapply run_bind; [unfold is_initialized, pget; rewrite Ht; reflexivity|cbn beta].
  eapply run_bind; [reflexivity|cbn beta]. rewrite He.
  eapply run_bind; [unfold get_world_size; rewrite Ht; reflexivity|cbn beta].
  eapply (run_bind _ _ _ _ (name_or backend (default_backend env)) d).
  { destruct backend as [[|]|]; unfold get_world_group, get_group, pbind; rewrite ?Hw; reflexivity. }
  eapply run_bind; [unfold plift; rewrite Hall; reflexivity|cbn beta]. by eapply build_groups_ok.
Qed.

End Initialize.

(** ** Properties of initialization *)

(** C37 (groups placed): for positive sizes that fit the number of processes and
    without elastic expert parallelism, a process in which only the world group
    exists initializes every kind of group without error, and each group it then has is its own: the right size, exactly
    the ranks that agree with it on the coordinates the kind does not span, and its
    coordinate as the rank inside the group. *)
Theorem initialize_places_ranks `{TorchLaws, Stateless} env pc tp pp pcp dcp replicas x d w backend :
  let c := mkSizes (p_data_parallel_size pc) pp pcp tp dcp in
  positive_sizes c -> 0 <= replicas -> (dcp_size c | tp * pcp) -> is_place c replicas x ->
  enable_elastic_ep pc = false -> no_groups d ->
  torch d = Some (rank_of c replicas x, replicas * replica_size c) -> _WORLD d = Some w -> 0 <= local_rank w ->
  exists d', initialize_model_parallel env pc tp pp pcp dcp backend d = (Ret tt, d') /\
    (forall k, k ∈ kinds_made pc -> exists g, group_at k d' = Some g /\ placed k c replicas x g) /\
    (is_moe pc = false -> _EP d' = None).
Proof.
  intros c Hs Hr Hdcp Hx He Hn Ht Hw Hloc.
  destruct (initialize_run env pc tp pp pcp dcp replicas Hs Hr Hdcp x Hx d w backend He Hn Ht Hw Hloc)
    as (d' & Hrun & Hk & Hep & _). by exists d'.
Qed.

(** What two processes of one job have in common: not the local rank, not the
    data-parallel rank, not the memory they share with others. *)
Record same_job (env1 env2 : process_env) (pc1 pc2 : parallel_config) : Prop := {
  sj_split : use_split_group env1 = use_split_group env2;
  sj_device : device_type env1 = device_type env2;
  sj_backend : default_backend env1 = default_backend env2;
  sj_data : p_data_parallel_size pc1 = p_data_parallel_size pc2;
  sj_moe : is_moe pc1 = is_moe pc2;
  sj_eplb : enable_eplb pc1 = enable_eplb pc2;
  sj_elastic : enable_elastic_ep pc1 = enable_elastic_ep pc2
}.

Lemma creation_plan_same `{Torch} env1 env2 pc1 pc2 c n backend :
  same_job env1 env2 pc1 pc2 -> creation_plan env1 pc1 c n backend = creation_plan env2 pc2 c n backend.
Proof.
  intros [Hsplit Hdev _ _ Hmoe Heplb _]. unfold creation_plan, kinds_made. rewrite Hmoe, Heplb.
  apply list_bind_ext; [|done]. intros k. destruct (rbind _ _) as [groups|]; [|done].
  unfold create_groups, _device_backend_str. by rewrite Hsplit, Hdev.
Qed.

(** C36 (same creations): two processes of one job without elastic expert
    parallelism, wherever they are, whatever their local ranks and data-parallel
    ranks, create the same process groups in the same order: the creation of a
    group, which waits for all processes, is never entered for different
    groups. *)
Theorem creations_agree `{TorchLaws, Stateless} env1 env2 pc1 pc2 tp pp pcp dcp replicas x y d1 d2 w1 w2 backend :
  let c := mkSizes (p_data_parallel_size pc1) pp pcp tp dcp in
  positive_sizes c -> 0 <= replicas -> (dcp_size c | tp * pcp) -> is_place c replicas x -> is_place c replicas y ->
  same_job env1 env2 pc1 pc2 -> enable_elastic_ep pc1 = false -> no_groups d1 -> no_groups d2 ->
  torch d1 = Some (rank_of c replicas x, replicas * replica_size c) ->
  torch d2 = Some (rank_of c replicas y, replicas * replica_size c) ->
  _WORLD d1 = Some w1 -> _WORLD d2 = Some w2 -> 0 <= local_rank w1 -> 0 <= local_rank w2 ->
  exists created d1' d2',
    initialize_model_parallel env1 pc1 tp pp pcp dcp backend d1 = (Ret tt, d1') /\
    initialize_model_parallel env2 pc2 tp pp pcp dcp backend d2 = (Ret tt, d2') /\
    calls d1' = calls d1 ++ created /\ calls d2' = calls d2 ++ created.
Proof.
  intros c Hs Hr Hdcp Hx Hy Hjob He Hn1 Hn2 Ht1 Ht2 Hw1 Hw2 Hl1 Hl2.
  destruct (initialize_run env1 pc1 tp pp pcp dcp replicas Hs Hr Hdcp x Hx d1 w1 backend He Hn1 Ht1 Hw1 Hl1)
    as (d1' & R1 & _ & _ & C1 & _).
  pose proof (creation_plan_same _ _ _ _ c (replicas * replica_size c) (name_or backend (default_backend env1)) Hjob) as Hsame.
  destruct Hjob as [_ _ Hback Hdata _ _ Hel]. unfold c in *. rewrite Hel in He. rewrite Hdata in *.
  destruct (initialize_run env2 pc2 tp pp pcp dcp replicas Hs Hr Hdcp y Hy d2 w2 backend He Hn2 Ht2 Hw2 Hl2)
    as (d2' & R2 & _ & _ & C2 & _).
  exists (creation_plan env1 pc1 (mkSizes (p_data_parallel_size pc2) pp pcp tp dcp)
            (replicas * replica_size (mkSizes (p_data_parallel_size pc2) pp pcp tp dcp))
            (name_or backend (default_backend env1))), d1', d2'.
  split_and!; [done|done|done|]. by rewrite Hsame, Hback.
Qed.

(** Sizes checked: once the groups exist, [ensure_model_parallel_initialized]
    changes nothing; it returns when the sizes asked for are those of the groups
    and raises AssertionError otherwise. *)
Theorem ensure_checks_sizes `{Torch, Stateless} env pc d gw gt gp gc gd tp pp pcp dcp backend :
  _WORLD d = Some gw -> _TP d = Some gt -> _PP d = Some gp -> _PCP d = Some gc -> _DCP d = Some gd ->
  ensure_model_parallel_initialized env pc tp pp pcp dcp backend d =
    (if (world_size gt =? tp) && (world_size gp =? pp) && (world_size gc =? pcp)
        && (world_size gd =? dcp_size (mkSizes 1 pp pcp tp dcp))
     then Ret tt else Exn AssertionError, d).
Proof.
  intros Hw Ht Hp Hc Hd. unfold ensure_model_parallel_initialized, get_world_group, expect_size, get_group, pget, plift,
    model_parallel_is_initialized, pbind. rewrite Hw, Ht, Hp. simpl. rewrite Ht. unfold require.
  destruct (world_size gt =? tp); simpl; [|done]. rewrite Hp. destruct (world_size gp =? pp); simpl; [|done].
  rewrite Hc. destruct (world_size gc =? pcp); simpl; [|done]. rewrite Hd. by destruct (_ =? dcp_size _).
Qed.

(** Two stages of four tensor ranks in a mixture-of-experts model. *)
Definition no_stateless : Stateless := {| stateless_coordinator _ _ _ _ _ _ := praise RuntimeError |}.
Definition sample_env : process_env :=
  mkProcessEnv false true 0 (PyStr.text "cuda") (PyStr.text "nccl") (fun _ => true) true true (Ok tt) (fun _ _ => []).
Definition sample_config : parallel_config := mkParallelConfig 1 0 8 8 1 1 false (PyStr.text "tcp://192.0.2.1:29500") false false true.
Definition sample_world (r : Z) : GroupCoordinator := mkGroup (PyStr.text "world:0") r (seqZ 0 8) r 0 [seqZ 0 8] false false.
Definition sample_start (r : Z) : dist :=
  mkDist (Some (r, 8)) {[PyStr.text "world" := 1]} [PyStr.text "world:0"] [] (Some (sample_world r)) None (Some 8)
    None None None None None None None.
Definition sample_place (stage t : Z) : place := mkPlace 0 0 stage 0 t.

Definition sample_initialize (r : Z) : outcome unit * dist :=
  @initialize_model_parallel list_torch no_stateless sample_env sample_config 4 2 1 (Some 2) None (sample_start r).

Example sample_groups :
  let d := snd (sample_initialize 6) in
  (ranks <$> _TP d, ranks <$> _PP d, ranks <$> _DCP d, ranks <$> _EP d, rank_in_group <$> _TP d) =
  (Some [4; 5; 6; 7], Some [2; 6], Some [6; 7], Some [4; 5; 6; 7], Some 2).
Proof. vm_compute. reflexivity. Qed.

Notation sample_sizes := (mkSizes 1 2 1 4 (Some 2)).

Lemma sample_positive : positive_sizes sample_sizes.
Proof. repeat split; vm_compute; reflexivity. Qed.
Lemma sample_divides : (dcp_size sample_sizes | 4 * 1).
Proof. exists 2. reflexivity. Qed.
Lemma sample_is_place stage t : 0 <= stage < 2 -> 0 <= t < 4 -> is_place sample_sizes 1 (sample_place stage t).
Proof. intros Hs Ht. repeat constructor; simpl; lia. Qed.
Lemma sample_no_groups r : no_groups (sample_start r).
Proof. by repeat split. Qed.

Lemma initialize_places_ranks_witness :
  exists d', sample_initialize 6 = (Ret tt, d') /\
    exists g, _PP d' = Some g /\ (4 ∉ ranks g) /\ rank_in_group g = 1.
Proof.
  destruct (@initialize_places_ranks list_torch _ no_stateless sample_env sample_config 4 2 1 (Some 2) 1 (sample_place 1 2)
    (sample_start 6) (sample_world 6) None sample_positive ltac:(lia) sample_divides
    (sample_is_place 1 2 ltac:(lia) ltac:(lia)) eq_refl (sample_no_groups 6) ltac:(vm_compute; reflexivity) eq_refl ltac:(simpl; lia))
    as (d' & Hrun & Hk & _).
  exists d'. split; [exact Hrun|]. destruct (Hk PP) as (g & Hg & [Hr Hsz Hmem Hidx]); [do 3 (apply elem_of_cons; right); apply elem_of_cons; by left|].
  exists g. split; [exact Hg|]. split; [|exact Hidx]. intros Hin.
  pose proof (proj1 (Hmem (sample_place 1 0) (sample_is_place 1 0 ltac:(lia) ltac:(lia))) Hin) as Hs. discriminate Hs.
Defined.

(** A second process, on another node and of another data-parallel rank. *)
Definition other_env : process_env :=
  mkProcessEnv false true 3 (PyStr.text "cuda") (PyStr.text "nccl") (fun _ => true) true true (Ok tt)
    (fun l _ => map (fun _ => true) l).
Definition other_config : parallel_config :=
  mkParallelConfig 1 1 8 8 1 1 false (PyStr.text "tcp://192.0.2.1:29500") false false true.

Lemma sample_job : same_job sample_env other_env sample_config other_config.
Proof. by split. Qed.

Lemma creations_agree_witness :
  exists created, calls (snd (sample_initialize 1)) = created /\
    calls (snd (@initialize_model_parallel list_torch no_stateless other_env other_config 4 2 1 (Some 2) None
                  (sample_start 6))) = created.
Proof.
  destruct (@creations_agree list_torch _ no_stateless sample_env other_env sample_config other_config 4 2 1 (Some 2) 1
    (sample_place 0 1) (sample_place 1 2) (sample_start 1) (sample_start 6) (sample_world 1) (sample_world 6) None
    sample_positive ltac:(lia)
    sample_divides (sample_is_place 0 1 ltac:(lia) ltac:(lia)) (sample_is_place 1 2 ltac:(lia) ltac:(lia)) sample_job eq_refl
    (sample_no_groups 1) (sample_no_groups 6) ltac:(vm_compute; reflexivity) ltac:(vm_compute; reflexivity) eq_refl eq_refl
    ltac:(simpl; lia) ltac:(simpl; lia)) as (created & d1 & d2 & R1 & R2 & C1 & C2).
  exists created. unfold sample_initialize. rewrite R1, R2. split; [exact C1|exact C2].
Defined.

Definition sample_group (size : Z) : GroupCoordinator := mkGroup [] 0 (seqZ 0 size) 0 0 [] false false.
Definition sample_built : dist :=
  mkDist (Some (0, 8)) ∅ [] [] (Some (sample_world 0)) None None (Some (sample_group 4)) (Some (sample_group 2))
    (Some (sample_group 1)) (Some (sample_group 2)) None None None.

Lemma ensure_checks_sizes_witness :
  @ensure_model_parallel_initialized list_torch no_stateless sample_env sample_config 4 2 1 (Some 2) None sample_built
    = (Ret tt, sample_built) /\
  @ensure_model_parallel_initialized list_torch no_stateless sample_env sample_config 8 2 1 (Some 2) None sample_built
    = (Exn AssertionError, sample_built).
Proof.
  pose proof (fun tp => @ensure_checks_sizes list_torch no_stateless sample_env sample_config sample_built (sample_world 0)
    (sample_group 4) (sample_group 2) (sample_group 1) (sample_group 2) tp 2 1 (Some 2) None
    eq_refl eq_refl eq_refl eq_refl eq_refl) as Hens.
  split; [rewrite (Hens 4)|rewrite (Hens 8)]; reflexivity.
Defined.
