(* ===== verification/GroupNodes.v ===== *)
(** * Process groups: nodes, names and replicas

    More theorems on [GroupState]: the node count is the number of nodes, group
    names are never given twice, and the ranks of a data-parallel deployment are
    those of the grid.  The SIRCL adapter serves the first tensor-parallel group
    of a process only, because it goes by that name. *)
From S2P Require Export GroupInit SirclBackend.
Import RowProvider.

(** ** Counting nodes *)

Lemma all_reduce_vectors (flags : list bool) n k :
  0 <= k <= n ->
  foldl (zip_with Z.add) ((fun _ => 0) <$> seqZ 0 n) ((fun r => magic_vector n r (flags !!! Z.to_nat r)) <$> seqZ 0 k)
  = (fun i => if (i <? k) && (flags !!! Z.to_nat i) then 1 else 0) <$> seqZ 0 n.
Proof.
  intros [Hk Hkn]. revert Hkn. revert k Hk. refine (natlike_ind _ _ _).
  - intros _. apply list_fmap_ext. intros j i [-> _]%lookup_seqZ. by rewrite (proj2 (Z.ltb_ge _ 0)) by lia.
  - intros k Hk IH Hkn. replace (Z.succ k) with (k + 1) by lia. rewrite seqZ_app, fmap_app, foldl_app, IH by lia.
    simpl. unfold magic_vector. rewrite zip_with_fmap_l, zip_with_fmap_r, zip_with_diag.
    apply list_fmap_ext. intros j i [-> Hj]%lookup_seqZ. replace (Z.of_nat 0 + (0 + k)) with k by lia.
    destruct (Z.eqb_spec (0 + Z.of_nat j) k) as [->|Hne].
    + rewrite (proj2 (Z.ltb_ge k k)), (proj2 (Z.ltb_lt k (k + 1))) by lia. simpl. by destruct (flags !!! _).
    + simpl. rewrite Z.add_0_r. destruct (Z.ltb_spec (0 + Z.of_nat j) k), (Z.ltb_spec (0 + Z.of_nat j) (k + 1)); try lia; done.
Qed.

(** Each process learns which ranks see the segment of the source. *)
Lemma same_node_exact flags n source :
  0 <= n -> Z.of_nat (length flags) = n -> in_the_same_node_as false flags n source = flags.
Proof.
  intros Hn Hlen. unfold in_the_same_node_as, all_reduce_sum. rewrite all_reduce_vectors by lia.
  apply list_eq. intros j. rewrite <- list_fmap_compose, list_lookup_fmap.
  destruct (decide (Z.of_nat j < n)) as [Hj|Hj].
  - rewrite lookup_seqZ_lt by done. simpl. rewrite (proj2 (Z.ltb_lt _ n)) by lia.
    destruct (lookup_lt_is_Some_2 flags j) as [b Hb]; [lia|].
    rewrite (list_lookup_total_correct flags _ b) by (by rewrite Z.add_0_l, Nat2Z.id). rewrite Hb. by destruct b.
  - rewrite lookup_seqZ_ge by lia. symmetry. apply lookup_ge_None. lia.
Qed.

Section NodeCount.
Context (node : Z -> Z) (n : Z) (same_node : Z -> list bool).
Context (Hsame : forall r, 0 <= r < n -> same_node r = (fun i => bool_decide (node i = node r)) <$> seqZ 0 n).

Definition nodes_below (k : Z) : gset Z := list_to_set (node <$> seqZ 0 k).

Lemma nodes_below_succ k : 0 <= k -> nodes_below (k + 1) = nodes_below k ∪ {[node k]}.
Proof.
  intros Hk. unfold nodes_below. rewrite seqZ_app, fmap_app, list_to_set_app_L by lia. simpl. rewrite union_empty_r_L.
  do 2 f_equal.
Qed.

Lemma assign_step st k :
  0 <= k < n ->
  (length (fst st) = Z.to_nat n /\ snd st = Z.of_nat (size (nodes_below k)) /\
   forall i, 0 <= i < n -> fst st !!! Z.to_nat i = 0 <-> node i ∉ nodes_below k) ->
  let st' := assign_node same_node st k in
  length (fst st') = Z.to_nat n /\ snd st' = Z.of_nat (size (nodes_below (k + 1))) /\
  forall i, 0 <= i < n -> fst st' !!! Z.to_nat i = 0 <-> node i ∉ nodes_below (k + 1).
Proof.
  intros Hk (Hlen & Hnext & Hassign). destruct st as [a next]. simpl in *. rewrite nodes_below_succ by lia.
  destruct (Z.eqb_spec (a !!! Z.to_nat k) 0) as [H0|H0]; simpl.
  - assert (node k ∉ nodes_below k) as Hnew by (by apply Hassign).
    rewrite size_union, size_singleton by set_solver.
    assert (length (same_node k) = Z.to_nat n) as Hls by (by rewrite Hsame, length_fmap, length_seqZ by done).
    split; [rewrite length_zip_with, length_insert; lia|]. split; [lia|]. intros i Hi.
    rewrite (list_lookup_total_alt (zip_with _ _ _)), lookup_zip_with, Hsame by done.
    rewrite list_lookup_fmap, lookup_seqZ_lt by lia. simpl. replace (0 + Z.of_nat (Z.to_nat i)) with i by lia.
    assert (is_Some (<[Z.to_nat k:=next + 1]> a !! Z.to_nat i)) as [v Hv] by (apply lookup_lt_is_Some; rewrite length_insert; lia).
    rewrite Hv. simpl. destruct (decide (i = k)) as [->|Hik].
    + rewrite list_lookup_insert_eq in Hv by lia. injection Hv as <-. rewrite (proj2 (Z.eqb_neq (next + 1) 0)), andb_false_r by lia.
      split; [lia|]. intros Hout. exfalso. set_solver.
    + rewrite list_lookup_insert_ne in Hv by lia. specialize (Hassign i Hi). rewrite (list_lookup_total_correct _ _ _ Hv) in Hassign.
      destruct (decide (node i = node k)) as [He|He].
      * rewrite bool_decide_eq_true_2 by done. rewrite He in *. rewrite (proj2 Hassign Hnew), Z.eqb_refl. simpl.
        split; [lia|]. intros Hout. exfalso. set_solver.
      * rewrite bool_decide_eq_false_2 by done. simpl. rewrite Hassign. set_solver.
  - assert (node k ∈ nodes_below k) as Hold.
    { destruct (decide (node k ∈ nodes_below k)) as [|Hno]; [done|]. by apply Hassign in Hno. }
    replace (nodes_below k ∪ {[node k]}) with (nodes_below k) by set_solver. done.
Qed.

Lemma node_count_nodes : 1 <= n -> _node_count same_node n = Z.of_nat (size (nodes_below n)).
Proof.
  intros Hn. unfold _node_count. destruct (Z.eqb_spec n 1) as [->|Hne].
  - change (nodes_below 1) with (nodes_below (0 + 1)). rewrite nodes_below_succ by lia. unfold nodes_below at 1.
    change (node <$> seqZ 0 0) with ([] : list Z). by rewrite list_to_set_nil, union_empty_l_L, size_singleton.
  - enough (forall k, 0 <= k -> k <= n -> let st := foldl (assign_node same_node) ((fun _ => 0) <$> seqZ 0 n, 0) (seqZ 0 k) in
      length (fst st) = Z.to_nat n /\ snd st = Z.of_nat (size (nodes_below k)) /\
      forall i, 0 <= i < n -> fst st !!! Z.to_nat i = 0 <-> node i ∉ nodes_below k) as Hall
      by (apply (Hall n); lia).
    apply (natlike_ind (fun k => k <= n -> _)).
    + intros _. unfold nodes_below. change (seqZ 0 0) with ([] : list Z). cbn [foldl fst snd fmap list_fmap list_to_set].
      split; [by rewrite length_fmap, length_seqZ|]. split; [done|].
      intros i Hi. rewrite list_lookup_total_alt, list_lookup_fmap, lookup_seqZ_lt by lia. split; [|done]. intros _. set_solver.
    + intros k Hk IH Hkn. replace (Z.succ k) with (k + 1) by lia. rewrite seqZ_app, foldl_app by lia.
      simpl. replace (Z.of_nat 0 + (0 + k)) with k by lia. apply assign_step; [lia|]. apply IH. lia.
Qed.

End NodeCount.

(** Node count: when the ranks of a group that see each other's memory are
    those on one node (with one process per node, when all nodes differ), the
    number of nodes found is the number of different nodes. *)
Theorem node_count_exact env (group : list Z) (node : Z -> Z) :
  let n := Z.of_nat (length group) in
  1 <= n ->
  (if one_gpu_per_node env then forall i j, 0 <= i < n -> 0 <= j < n -> node i = node j -> i = j
   else forall r, 0 <= r < n -> attached env group r = (fun i => bool_decide (node i = node r)) <$> seqZ 0 n) ->
  _node_count (same_node_flags env group) n = Z.of_nat (size (list_to_set (node <$> seqZ 0 n) : gset Z)).
Proof.
  intros n Hn Hnode. apply (node_count_nodes node n); [|done]. intros r Hr. unfold same_node_flags. fold n.
  destruct (one_gpu_per_node env).
  - simpl. apply list_fmap_ext. intros j i [-> Hj]%lookup_seqZ. apply eq_true_iff_eq. rewrite Z.eqb_eq, bool_decide_eq_true.
    split; [by intros ->|]. intros He. apply (Hnode (0 + Z.of_nat j) r); [lia|done|done].
  - rewrite Hnode by done. apply same_node_exact; [lia|]. rewrite length_fmap, length_seqZ. lia.
Qed.

Definition four_nodes_env : process_env :=
  mkProcessEnv false false 0 (PyStr.text "cuda") (PyStr.text "nccl") (fun _ => true) true true (Ok tt)
    (fun _ r => (fun i => bool_decide (i / 2 = r / 2)) <$> seqZ 0 6).

Lemma node_count_exact_witness :
  _node_count (same_node_flags four_nodes_env [0; 1; 2; 3; 4; 5]) 6 = 3 /\
  _node_count (same_node_flags sample_env [0; 1; 2; 3]) 4 = 4.
Proof.
  split.
  - refine (eq_trans (node_count_exact four_nodes_env [0; 1; 2; 3; 4; 5] (fun i => i / 2) _ _) _);
      [simpl; lia|intros r _; reflexivity|vm_compute; reflexivity].
  - refine (eq_trans (node_count_exact sample_env [0; 1; 2; 3] (fun i => i) _ _) _);
      [simpl; lia|intros i j _ _ Hij; exact Hij|vm_compute; reflexivity].
Defined.

(** ** Names *)

Definition colon_free (l : list ascii) : Prop := ":"%char ∉ l.

Lemma str_of_colon_free n : 0 <= n -> colon_free (PyStr.str_of n).
Proof.
  intros Hn. unfold PyStr.str_of. rewrite (proj2 (Z.ltb_ge n 0)) by done.
  pose proof (PyStr.str_pos_digits (PyStr.str_fuel n) n [] Hn ltac:(constructor)) as Hd. intros Hin.
  unfold PyStr.all_digits in Hd. rewrite Forall_forall in Hd. destruct (Hd _ Hin) as (k & Hk & He).
  apply (PyStr.digit_chr_ne ":"%char k Hk); [by vm_compute; intros []|done].
Qed.

Lemma last_colon a b x y :
  colon_free x -> colon_free y -> a ++ ":"%char :: x = b ++ ":"%char :: y -> a = b /\ x = y.
Proof.
  intros Hx Hy. revert b. induction a as [|c a IH]; intros [|e b]; simpl.
  - by intros [= ->].
  - intros [= <- ->]. exfalso. apply Hx. apply elem_of_app. right. by left.
  - intros [= -> <-]. exfalso. apply Hy. apply elem_of_app. right. by left.
  - intros [= -> He]. by destruct (IH b He) as [-> ->].
Qed.

(** The names given out for a sequence of requests. *)
Fixpoint issue (requests : list (list ascii)) (d : dist) : list (list ascii) :=
  match requests with
  | [] => []
  | name :: requests =>
      match _get_unique_name name d with
      | (Ret u, d) => u :: issue requests d
      | (_, d) => issue requests d
      end
  end.

Definition counted (d : dist) (name : list ascii) : Z := default 0 (_group_name_counter d !! name).

Lemma issued_later requests d u :
  (forall name, 0 <= counted d name) -> u ∈ issue requests d ->
  exists name n, u = name ++ PyStr.text ":" ++ PyStr.str_of n /\ counted d name <= n.
Proof.
  revert d. induction requests as [|name requests IH]; intros d Hd; [by intros ?%elem_of_nil|]. simpl.
  intros [->|Hin]%elem_of_cons; [by exists name, (counted d name)|].
  apply IH in Hin as (nm & n & -> & Hn).
  - exists nm, n. split; [done|]. revert Hn. unfold counted. simpl. destruct (decide (nm = name)) as [->|Hne].
    + rewrite lookup_insert_eq. simpl. unfold counted. lia.
    + by rewrite lookup_insert_ne.
  - intros nm. unfold counted. simpl. destruct (decide (nm = name)) as [->|Hne].
    + rewrite lookup_insert_eq. simpl. specialize (Hd name). unfold counted in Hd. lia.
    + rewrite lookup_insert_ne by done. apply Hd.
Qed.

(** Names: however many groups of whatever names a process makes, no
    two of them get the same unique name, whatever colons the names hold. *)
Theorem unique_names_distinct requests d : (forall name, 0 <= counted d name) -> NoDup (issue requests d).
Proof.
  revert d. induction requests as [|name requests IH]; intros d Hd; simpl; [constructor|].
  assert (forall nm, 0 <= counted (d <| _group_name_counter ::= <[name := counted d name + 1]> |>) nm) as Hd'.
  { intros nm. unfold counted. simpl. destruct (decide (nm = name)) as [->|Hne].
    - rewrite lookup_insert_eq. simpl. specialize (Hd name). unfold counted in Hd |- *. lia.
    - rewrite lookup_insert_ne by done. apply Hd. }
  constructor; [|by apply IH]. intros Hin. apply issued_later in Hin as (nm & n & He & Hn); [|done].
  pose proof (Z.le_trans _ _ _ (Hd' nm) Hn) as Hnm. apply last_colon in He as [-> He]; [|apply str_of_colon_free; first [exact Hnm|apply Hd]..].
  apply (f_equal PyStr.int_of) in He. rewrite !PyStr.int_of_str_of in He. injection He as He.
  unfold counted in Hn at 1. simpl in Hn. rewrite lookup_insert_eq in Hn. simpl in Hn. unfold counted in Hn, He. lia.
Qed.

(** ** Data-parallel replicas *)

(** The rank of a place inside its replica. *)
Definition replica_rank (c : parallel_sizes) (x : place) : Z :=
  (pp x * prefill_context_model_parallel_size c + pcp x) * tensor_model_parallel_size c + tp x.
Definition one_replica (c : parallel_sizes) : Z :=
  pipeline_model_parallel_size c * prefill_context_model_parallel_size c * tensor_model_parallel_size c.

Lemma rank_of_replica c x : ext x = 0 -> rank_of c 1 x = dp x * one_replica c + replica_rank c x.
Proof. intros He. unfold rank_of, one_replica, replica_rank. simpl. rewrite He. ring. Qed.

Lemma replica_rank_bounds c x : is_place c 1 x -> ext x = 0 /\ 0 <= replica_rank c x < one_replica c.
Proof.
  unfold is_place, layout_shape, coords, valid. rewrite !Forall2_cons, Forall2_nil. intros (He & Hd & Hp & Hc & Ht & _).
  unfold one_replica, replica_rank. split; [lia|].
  assert (0 <= pp x * prefill_context_model_parallel_size c + pcp x
          < pipeline_model_parallel_size c * prefill_context_model_parallel_size c) by nia. nia.
Qed.

Lemma inner_dp_flat w n : 0 <= w -> 0 <= n ->
  List.concat ((fun r => (fun i => r * w + i) <$> seqZ 0 w) <$> seqZ 0 n) = seqZ 0 (n * w).
Proof.
  intros Hw. revert n. refine (natlike_ind _ _ _).
  - by rewrite Z.mul_0_l.
  - intros n Hn IH. rewrite Z.mul_succ_l, <- Z.add_1_r, !seqZ_app, fmap_app, List.concat_app, IH by nia. f_equal.
    simpl. rewrite app_nil_r. replace (Z.of_nat 0 + (0 + n)) with (0 + n) by lia. rewrite Z.add_0_l.
    change (fun i => n * w + i) with (Z.add (n * w)). by rewrite fmap_add_seqZ, Z.add_0_r.
Qed.

(** Replicas: of a deployment over several data-parallel replicas, each process
    started with its rank inside a replica joins with the rank of its coordinates
    in the grid of all replicas; and the group of its replica, made when replicas
    span nodes, has the ranks with its data-parallel coordinate, in order. *)
Theorem replicas_exact pc c x method split :
  p_data_parallel_rank pc = dp x -> p_data_parallel_size pc = data_parallel_size c -> p_world_size pc = one_replica c ->
  p_world_size_across_dp pc = data_parallel_size c * one_replica c ->
  adjusts (Some pc) = true -> is_place c 1 x ->
  adjusted (Some pc) (one_replica c) (replica_rank c x) method = (replica_size c, rank_of c 1 x, Some (p_init_method pc)) /\
  exists g, own_ranks split (rank_of c 1 x) (inner_dp_groups pc) = Some g /\
    Z.of_nat (length g) = one_replica c /\ index_of (rank_of c 1 x) g = replica_rank c x /\
    forall y, is_place c 1 y -> rank_of c 1 y ∈ g <-> dp y = dp x.
Proof.
  intros Hrank Hdp Hws Hall Hadj Hx. destruct (replica_rank_bounds c x Hx) as [He Hr]. split.
  { unfold adjusted. rewrite Hadj, Hall, Hrank, rank_of_replica by done. f_equal. f_equal. unfold replica_size, one_replica. ring. }
  set (row d := (fun i => d * one_replica c + i) <$> seqZ 0 (one_replica c)).
  assert (inner_dp_groups pc = row <$> seqZ 0 (data_parallel_size c)) as Hgroups.
  { unfold inner_dp_groups. by rewrite Hws, Hdp. }
  assert (forall z, is_place c 1 z -> 0 <= dp z < data_parallel_size c) as Hdpz.
  { intros z Hz. unfold is_place, layout_shape, coords, valid in Hz. rewrite !Forall2_cons in Hz. lia. }
  assert (row (dp x) !! Z.to_nat (replica_rank c x) = Some (rank_of c 1 x)) as Hat.
  { unfold row. rewrite list_lookup_fmap, lookup_seqZ_lt by lia. rewrite rank_of_replica by done. simpl. f_equal. lia. }
  assert (NoDup (List.concat (inner_dp_groups pc))) as Hnd.
  { rewrite Hgroups. unfold row. specialize (Hdpz x Hx). rewrite inner_dp_flat by lia. apply NoDup_seqZ. }
  assert (row (dp x) ∈ inner_dp_groups pc) as Hin.
  { rewrite Hgroups. apply list_elem_of_fmap_2, elem_of_seqZ. specialize (Hdpz x Hx). lia. }
  exists (row (dp x)). split_and!.
  - apply own_ranks_ok; [done..|]. by eapply list_elem_of_lookup_2.
  - unfold row. rewrite length_fmap, length_seqZ. lia.
  - rewrite (index_of_lookup _ _ _ (NoDup_part _ _ Hnd Hin) Hat). lia.
  - intros y Hy. destruct (replica_rank_bounds c y Hy) as [Hey Hry]. rewrite rank_of_replica by done. unfold row.
    rewrite list_elem_of_fmap. setoid_rewrite elem_of_seqZ. split.
    + intros (i & Heq & Hi). nia.
    + intros ->. exists (replica_rank c y). lia.
Qed.

(** Two replicas of two nodes with two ranks each. *)
Definition replica_config (external : bool) : parallel_config :=
  mkParallelConfig 2 1 4 8 4 2 external (PyStr.text "tcp://192.0.2.1:29501") false false false.
Notation replica_sizes := (mkSizes 2 2 1 2 None).

Lemma replicas_exact_witness :
  adjusted (Some (replica_config false)) 4 3 None = (8, 7, Some (PyStr.text "tcp://192.0.2.1:29501")) /\
  exists g, own_ranks false 7 (inner_dp_groups (replica_config false)) = Some g /\ index_of 7 g = 3.
Proof.
  assert (is_place replica_sizes 1 (mkPlace 0 1 1 0 1)) as Hx by (repeat constructor; simpl; lia).
  destruct (replicas_exact (replica_config false) replica_sizes (mkPlace 0 1 1 0 1) None false
    eq_refl eq_refl eq_refl eq_refl eq_refl Hx) as [Hadj (g & Hg & _ & Hi & _)].
  split; [exact Hadj|]. exists g. split; [exact Hg|exact Hi].
Defined.

Definition fresh_process : dist := mkDist None ∅ [] [] None None None None None None None None None None.
Definition start_replica (external : bool) : outcome unit * dist :=
  @init_distributed_environment no_stateless sample_env (Some (replica_config external)) 4 3
    (Some (PyStr.text "tcp://192.0.2.1:29501")) (-1) (PyStr.text "nccl") fresh_process.

(** With several nodes in a replica, an external launcher leaves the local name
    [parallel_config] unbound: the world group exists already when reading it fails. *)
Example external_launcher_unbound :
  (fst (start_replica true), ranks <$> _WORLD (snd (start_replica true))) = (Exn UnboundLocalError, Some (seqZ 0 4)) /\
  (fst (start_replica false), ranks <$> _INNER_DP_WORLD (snd (start_replica false))) = (Ret tt, Some [4; 5; 6; 7]).
Proof. split; vm_compute; reflexivity. Qed.

(** ** The group served by the SIRCL adapter *)

(** A device communicator has the size, name and rank of its group. *)
Definition group_communicator (g : GroupCoordinator) : communicator :=
  mkComm (Some (GroupState.world_size g)) (GroupState.unique_name g) (Some (rank_in_group g)).

Definition served (d : dist) : option bool := served_group ∘ group_communicator <$> _TP d.

(** A process that tears its groups down and builds them again has a
    tensor-parallel group the adapter no longer serves. *)
Example rebuilt_group_unserved :
  let built := snd (sample_initialize 6) in
  let again := snd (@initialize_model_parallel list_torch no_stateless sample_env sample_config 4 2 1 (Some 2) None
                      (snd (destroy_model_parallel built))) in
  (served built, served again, GroupState.unique_name <$> _TP again) = (Some true, Some false, Some (PyStr.text "tp:1")).
Proof. vm_compute. reflexivity. Qed.
