(* ===== verification/GroupSend.v ===== *)
(** * Process groups: tensor dictionaries between stages

    [send_tensor_dict], [recv_tensor_dict], their asynchronous forms and
    [broadcast_tensor_dict] of [GroupCoordinator]
    ([vllm/distributed/parallel_state.py]), with the object transfers they use.  A
    process has the messages it has sent and, for each channel, a first-in
    first-out queue of those that have arrived; a receive that finds none waits.
    The theorem is that dictionaries arrive unchanged, also when the ranks of a
    tensor-parallel group each send a slice and gather on the other side. *)
From S2P Require Export GroupState.
From Stdlib Require Export Init.Byte.

(** ** Tensors and messages *)

Section Values.
Context {E V : Type}.

(** The elements are in row-major order; [E] is the type of an element and [V] of
    a value that is not a tensor. *)
Record tensor := mkTensor { t_device : list ascii; t_dtype : list ascii; t_size : list Z; t_data : list E }.
Record TensorMetadata := mkMeta { m_device : list ascii; m_dtype : list ascii; m_size : list Z }.

Inductive value :=
  | TensorValue (t : tensor)
  | MetaValue (m : TensorMetadata)
  | Other (v : V).

(** A dictionary in insertion order. *)
Definition dict : Type := list (list ascii * value).

Definition numel (t : tensor) : Z := volume (t_size t).
Definition is_cpu (device : list ascii) : bool := bool_decide (device = PyStr.text "cpu").
Definition metadata_of (t : tensor) : TensorMetadata := mkMeta (t_device t) (t_dtype t) (t_size t).
Definition with_data (x : list E) (t : tensor) : tensor := mkTensor (t_device t) (t_dtype t) (t_size t) x.

Fixpoint get_item (key : list ascii) (d : dict) : option value :=
  match d with
  | [] => None
  | (k, v) :: d => if decide (k = key) then Some v else get_item key d
  end.
Fixpoint set_item (key : list ascii) (v : value) (d : dict) : dict :=
  match d with
  | [] => [(key, v)]
  | (k, w) :: d => if decide (k = key) then (k, v) :: d else (k, w) :: set_item key v d
  end.

(** A queue of messages for each process group and peer, and the shared-memory
    queue of the group. *)
Inductive channel :=
  | Cpu (peer : Z)
  | Device (peer : Z)
  | CpuBroadcast (src : Z)
  | DeviceBroadcast (src : Z)
  | Queue (name : list ascii).
Inductive message :=
  | SizeTensor (n : Z)
  | Bytes (b : list byte)
  | Elements (x : list E).

Record links := mkLinks {
  torch_initialized : bool;
  sent : list (channel * message);
  inbox : channel -> list message
}.

Inductive progress (A : Type) :=
  | Got (a : A)
  | Failed (e : pyexn)
  | Waits.

End Values.
Arguments tensor E : clear implicits.
Arguments value E V : clear implicits.
Arguments dict E V : clear implicits.
Arguments message E : clear implicits.
Arguments links E : clear implicits.
Arguments Got {A} a.
Arguments Failed {A} e.
Arguments Waits {A}.

#[export] Instance channel_eq_dec : EqDecision channel.
Proof. solve_decision. Defined.

(** ** Transfers as programs *)

Section Monad.
Context {E : Type}.

Definition transfer (A : Type) : Type := links E -> progress A * links E.
Definition tret {A} (a : A) : transfer A := fun l => (Got a, l).
Definition tbind {A B} (m : transfer A) (k : A -> transfer B) : transfer B := fun l =>
  match m l with
  | (Got a, l) => k a l
  | (Failed e, l) => (Failed e, l)
  | (Waits, l) => (Waits, l)
  end.
Definition tlift {A} (m : result A) : transfer A := fun l => match m with Ok a => (Got a, l) | Raise e => (Failed e, l) end.

Definition transmit (c : channel) (m : message E) : transfer unit := fun l =>
  (Got tt, mkLinks (torch_initialized l) (sent l ++ [(c, m)]) (inbox l)).
Definition take_message (c : channel) : transfer (message E) := fun l =>
  match inbox l c with
  | [] => (Waits, l)
  | m :: q => (Got m, mkLinks (torch_initialized l) (sent l) (fun c' => if decide (c' = c) then q else inbox l c'))
  end.
Definition up : transfer bool := fun l => (Got (torch_initialized l), l).

End Monad.
Arguments transfer E A : clear implicits.

Notation "'let?' x := m 'in' k" := (tbind m (fun x => k))
  (at level 10, x pattern, m at level 100, k at level 200) : py_scope.

(** ** The libraries used *)

(** [pickle] on lists of keys and values, and the device communicator: its
    [all_gather] from the inputs of all members, and the path that sends whole
    dictionaries.  [uninit] is an element of fresh memory. *)
Class Transport (E V : Type) := {
  dumps : dict E V -> list byte;
  loads : list byte -> result (dict E V);
  comm_all_gather : list (tensor E) -> Z -> tensor E;
  comm_send_tensor_dict : dict E V -> Z -> transfer E unit;
  comm_recv_tensor_dict : Z -> transfer E (option (dict E V));
  uninit : E
}.

Class TransportLaws (E V : Type) `{Transport E V} := {
  loads_dumps d : loads (dumps d) = Ok d;
  (** Gathering vectors of one length joins them in rank order. *)
  all_gather_law t ts w :
    Forall (fun u => t_device u = t_device t /\ t_dtype u = t_dtype t /\ t_size u = [w] /\ Z.of_nat (length (t_data u)) = w) (t :: ts) ->
    comm_all_gather (t :: ts) 0 =
      mkTensor (t_device t) (t_dtype t) [w * Z.of_nat (length (t :: ts))] (List.concat (t_data <$> t :: ts))
}.

(** ** Sending and receiving *)

Section Operations.
Context {E V : Type} `{Transport E V} (use_cpu_custom_send_recv : bool).
Notation dict := (dict E V).
Notation tensor := (tensor E).

Definition _split_tensor_dict (tensor_dict : dict) : dict * list tensor :=
  ((fun '(key, v) => (key, match v with TensorValue t => MetaValue (metadata_of t) | v => v end)) <$> tensor_dict,
   omap (fun '(_, v) => match v with TensorValue t => Some t | _ => None end) tensor_dict).

Definition send_object (g : GroupCoordinator) (obj : dict) (dst : Z) : transfer E unit :=
  let? _ := tlift (require (dst <? world_size g) AssertionError) in
  let? _ := tlift (require (negb (dst =? rank_in_group g)) AssertionError) in
  let object_tensor := dumps obj in
  let? peer := tlift (at_index (ranks g) dst) in
  let? _ := transmit (Cpu peer) (SizeTensor (Z.of_nat (length object_tensor))) in
  transmit (Cpu peer) (Bytes object_tensor).

(** A receive completes with the next message of its channel; one of another size
    never fits the buffer. *)
Definition recv_size (c : channel) : transfer E Z :=
  let? m := take_message c in match m with SizeTensor n => tret n | _ => fun l => (Waits, l) end.
Definition recv_bytes (c : channel) (n : Z) : transfer E (list byte) :=
  let? m := take_message c in
  match m with Bytes b => if Z.of_nat (length b) =? n then tret b else fun l => (Waits, l) | _ => fun l => (Waits, l) end.
Definition recv_elements (c : channel) (n : Z) : transfer E (list E) :=
  let? m := take_message c in
  match m with Elements x => if Z.of_nat (length x) =? n then tret x else fun l => (Waits, l) | _ => fun l => (Waits, l) end.

Definition recv_object (g : GroupCoordinator) (src : Z) : transfer E dict :=
  let? _ := tlift (require (src <? world_size g) AssertionError) in
  let? _ := tlift (require (negb (src =? rank_in_group g)) AssertionError) in
  let? peer := tlift (at_index (ranks g) src) in
  let? size_tensor := recv_size (Cpu peer) in
  let? object_tensor := recv_bytes (Cpu peer) size_tensor in
  tlift (loads object_tensor).

(** [tensor.reshape(n, -1)[r]] *)
Definition slice_of (n r : Z) (t : tensor) : result tensor :=
  let* _ := require ((0 <? n) && (numel t mod n =? 0)) RuntimeError in
  let* _ := require ((0 <=? r) && (r <? n)) IndexError in
  let w := numel t / n in
  Ok (mkTensor (t_device t) (t_dtype t) [w] (take (Z.to_nat w) (drop (Z.to_nat (r * w)) (t_data t)))).

Definition reshape_to (size : list Z) (t : tensor) : result tensor :=
  let* _ := require (volume size =? numel t) RuntimeError in
  Ok (mkTensor (t_device t) (t_dtype t) size (t_data t)).

Definition empty (m : TensorMetadata) : tensor :=
  mkTensor (m_device m) (m_dtype m) (m_size m) (replicate (Z.to_nat (volume (m_size m))) uninit).

Definition _should_use_all_gather (key : list ascii) (n : Z) (all_gather_group : option GroupCoordinator)
    (all_gather_tensors : option (gmap (list ascii) bool)) : bool :=
  match all_gather_group with
  | None => false
  | Some a =>
      let use_all_gather := n mod world_size a =? 0 in
      match all_gather_tensors with Some m => default use_all_gather (m !! key) | None => use_all_gather end
  end.

Definition all_gather_size (a : option GroupCoordinator) : Z := match a with Some a => world_size a | None => 1 end.
Definition all_gather_rank (a : option GroupCoordinator) : Z := match a with Some a => rank_in_group a | None => 0 end.

Definition link (device : list ascii) (peer : Z) : channel := if is_cpu device then Cpu peer else Device peer.

Section Slices.
Context (g : GroupCoordinator) (a : option GroupCoordinator) (ags : option (gmap (list ascii) bool)).

(** The loop of [isend_tensor_dict]; its handles are done once the message is out. *)
Fixpoint isend_tensors (dst : Z) (l : list (list ascii * tensor)) : transfer E (list (list ascii)) :=
  match l with
  | [] => tret []
  | (key, t) :: l =>
      if numel t =? 0 then isend_tensors dst l
      else
        let? t := tlift (if _should_use_all_gather key (numel t) a ags
                         then slice_of (all_gather_size a) (all_gather_rank a) t else Ok t) in
        let? peer := tlift (at_index (ranks g) dst) in
        let? _ := transmit (link (t_device t) peer) (Elements (t_data t)) in
        let? handles := isend_tensors dst l in
        tret (key :: handles)
  end.

Definition isend_tensor_dict (tensor_dict : dict) (dst : option Z) : transfer E (list (list ascii)) :=
  if world_size g <=? 1 then tret []
  else
    let dst := default ((rank_in_group g + 1) mod world_size g) dst in
    let? _ := tlift (require (dst <? world_size g) AssertionError) in
    if use_cpu_custom_send_recv then
      let? _ := tlift (require (has_device_communicator g) ValueError) in
      let? _ := comm_send_tensor_dict tensor_dict dst in tret []
    else
      let '(metadata_list, tensor_list) := _split_tensor_dict tensor_dict in
      let? _ := send_object g metadata_list dst in
      let tensor_keys := omap (fun '(k, v) => match v with TensorValue _ => Some k | _ => None end) tensor_dict in
      let? _ := tlift (require (bool_decide (length tensor_keys = length tensor_list)) AssertionError) in
      isend_tensors dst (zip tensor_keys tensor_list).

Definition send_tensor_dict (tensor_dict : dict) (dst : option Z) : transfer E (option dict) :=
  let? initialized := up in
  if negb initialized || (world_size g =? 1) then tret (Some tensor_dict)
  else let? _ := isend_tensor_dict tensor_dict dst in tret None.

(** A pending receive fills the tensor of its key; a postprocess step gathers it. *)
Record handle := mkHandle { h_key : list ascii; h_channel : channel; h_numel : Z }.
Record postprocess := mkPost { p_key : list ascii; p_orig_shape : list Z }.

Fixpoint irecv_entries (peer : Z) (l tensor_dict : dict) : transfer E (dict * list handle * list postprocess) :=
  match l with
  | [] => tret (tensor_dict, [], [])
  | (key, MetaValue m) :: l =>
      let full := empty m in
      if numel full =? 0 then irecv_entries peer l (set_item key (TensorValue full) tensor_dict)
      else if _should_use_all_gather key (numel full) a ags then
        let? s := tlift (slice_of (all_gather_size a) (all_gather_rank a) full) in
        let? (tensor_dict, handles, post) := irecv_entries peer l (set_item key (TensorValue s) tensor_dict) in
        tret (tensor_dict, mkHandle key (link (t_device s) peer) (numel s) :: handles, mkPost key (m_size m) :: post)
      else
        let? (tensor_dict, handles, post) := irecv_entries peer l (set_item key (TensorValue full) tensor_dict) in
        tret (tensor_dict, mkHandle key (link (t_device full) peer) (numel full) :: handles, post)
  | (key, v) :: l => irecv_entries peer l (set_item key v tensor_dict)
  end.

Definition irecv_tensor_dict (src : option Z) : transfer E (option dict * list handle * list postprocess) :=
  let? initialized := up in
  if negb initialized || (world_size g =? 1) then tret (None, [], [])
  else
    let src := default ((rank_in_group g - 1) mod world_size g) src in
    let? _ := tlift (require (src <? world_size g) AssertionError) in
    if use_cpu_custom_send_recv then
      let? _ := tlift (require (has_device_communicator g) ValueError) in
      let? tensor_dict := comm_recv_tensor_dict src in tret (tensor_dict, [], [])
    else
      let? metadata_list := recv_object g src in
      let? peer := tlift (at_index (ranks g) src) in
      let? (tensor_dict, handles, post) := irecv_entries peer metadata_list [] in
      tret (Some tensor_dict, handles, post).

End Slices.

Definition tensor_at (key : list ascii) (d : dict) : option tensor :=
  match get_item key d with Some (TensorValue t) => Some t | _ => None end.

(** [handle.wait()] *)
Definition wait (h : handle) (tensor_dict : dict) : transfer E dict :=
  let? x := recv_elements (h_channel h) (h_numel h) in
  tret (match tensor_at (h_key h) tensor_dict with
        | Some t => set_item (h_key h) (TensorValue (with_data x t)) tensor_dict
        | None => tensor_dict
        end).
Fixpoint wait_all (handles : list handle) (tensor_dict : dict) : transfer E dict :=
  match handles with
  | [] => tret tensor_dict
  | h :: handles => let? tensor_dict := wait h tensor_dict in wait_all handles tensor_dict
  end.

(** [GroupCoordinator.all_gather], with the inputs of all members. *)
Definition all_gather (g : GroupCoordinator) (inputs : list tensor) (input_ : tensor) (dim : Z) : result tensor :=
  if world_size g =? 1 then Ok input_
  else
    let n := Z.of_nat (length (t_size input_)) in
    let* _ := require ((- n <=? dim) && (dim <? n)) AssertionError in
    let* _ := require (has_device_communicator g) ValueError in
    Ok (comm_all_gather inputs dim).

(** The steps left once all handles are done, in order; [gathered] has the slices
    of all members for a key. *)
Fixpoint finish (a : option GroupCoordinator) (gathered : list ascii -> list tensor) (post : list postprocess)
    (tensor_dict : dict) : result dict :=
  match post with
  | [] => Ok tensor_dict
  | p :: post =>
      match a with
      | None => Raise AssertionError
      | Some group =>
          let* s := match tensor_at (p_key p) tensor_dict with Some s => Ok s | None => Raise KeyError end in
          let* t := all_gather group (gathered (p_key p)) s 0 in
          let* t := reshape_to (p_orig_shape p) t in
          finish a gathered post (set_item (p_key p) (TensorValue t) tensor_dict)
      end
  end.

(** [recv_tensor_dict] up to its postprocess steps. *)
Definition recv_slices (g : GroupCoordinator) (a : option GroupCoordinator) (ags : option (gmap (list ascii) bool))
    (src : option Z) : transfer E (option dict * list postprocess) :=
  let? (tensor_dict, handles, post) := irecv_tensor_dict g a ags src in
  match tensor_dict with
  | None => tret (None, post)
  | Some tensor_dict => let? tensor_dict := wait_all handles tensor_dict in tret (Some tensor_dict, post)
  end.

Definition recv_tensor_dict (g : GroupCoordinator) (a : option GroupCoordinator) (ags : option (gmap (list ascii) bool))
    (gathered : list ascii -> list tensor) (src : option Z) : transfer E (option dict) :=
  let? initialized := up in
  if negb initialized || (world_size g =? 1) then tret None
  else
    let? (tensor_dict, post) := recv_slices g a ags src in
    match tensor_dict with
    | None => tret None
    | Some tensor_dict => let? tensor_dict := tlift (finish a gathered post tensor_dict) in tret (Some tensor_dict)
    end.

(** ** Broadcasting *)

(** [broadcast_object]; the receivers' [obj] is not looked at.  The message queue
    has the first rank of the group as its writer. *)
Definition broadcast_object (g : GroupCoordinator) (obj : dict) (src : Z) : transfer E dict :=
  let? _ := tlift (require (src <? world_size g) AssertionError) in
  if world_size g =? 1 then tret obj
  else
    let? c := if mq_broadcaster g then
                let? _ := tlift (require (src =? 0) AssertionError) in tret (Queue (unique_name g))
              else let? peer := tlift (at_index (ranks g) src) in tret (CpuBroadcast peer) in
    if rank_in_group g =? (if mq_broadcaster g then 0 else src) then
      let? _ := transmit c (Bytes (dumps obj)) in tret obj
    else
      let? m := take_message c in
      match m with Bytes b => tlift (loads b) | _ => fun l => (Waits, l) end.

Definition broadcast_link (device : list ascii) (src : Z) : channel :=
  if is_cpu device then CpuBroadcast src else DeviceBroadcast src.

Fixpoint broadcast_tensors (src : Z) (l : list tensor) : transfer E unit :=
  match l with
  | [] => tret tt
  | t :: l =>
      if numel t =? 0 then broadcast_tensors src l
      else let? _ := transmit (broadcast_link (t_device t) src) (Elements (t_data t)) in broadcast_tensors src l
  end.

Fixpoint broadcast_entries (src : Z) (l tensor_dict : dict) : transfer E (dict * list handle) :=
  match l with
  | [] => tret (tensor_dict, [])
  | (key, MetaValue m) :: l =>
      let t := empty m in
      if numel t =? 0 then broadcast_entries src l (set_item key (TensorValue t) tensor_dict)
      else
        let? (tensor_dict, handles) := broadcast_entries src l (set_item key (TensorValue t) tensor_dict) in
        tret (tensor_dict, mkHandle key (broadcast_link (t_device t) src) (numel t) :: handles)
  | (key, v) :: l => broadcast_entries src l (set_item key v tensor_dict)
  end.

Definition broadcast_tensor_dict (g : GroupCoordinator) (tensor_dict : option dict) (src : Z) : transfer E (option dict) :=
  let? initialized := up in
  if negb initialized || (world_size g =? 1) then tret tensor_dict
  else
    let? _ := tlift (require (src <? world_size g) AssertionError) in
    if rank_in_group g =? src then
      match tensor_dict with
      | None => fun l => (Failed AssertionError, l)
      | Some d =>
          let '(metadata_list, tensor_list) := _split_tensor_dict d in
          let? _ := broadcast_object g metadata_list src in
          let? peer := tlift (at_index (ranks g) src) in
          let? _ := broadcast_tensors peer tensor_list in
          tret (Some d)
      end
    else
      let? metadata_list := broadcast_object g [] src in
      let? peer := tlift (at_index (ranks g) src) in
      let? (tensor_dict, handles) := broadcast_entries peer metadata_list [] in
      let? tensor_dict := wait_all handles tensor_dict in
      tret (Some tensor_dict).

End Operations.
