(* ===== verification/GroupTransfer.v ===== *)
(** * Process groups: tensor dictionaries arrive

    [GroupSend]'s dictionaries sent by a pipeline stage reach the next one
    unchanged, each tensor rank sending its slice of the tensors that are gathered
    again on the other side. *)
From S2P Require Export GroupSend.

(** ** Dictionaries *)
Section Dict.
Context {E V : Type}.
Notation dict := (dict E V).
Implicit Types (d acc : dict) (v : value E V) (key : list ascii).

Lemma set_item_fresh key v acc d : key ∉ acc.*1 -> set_item key v acc ++ d = acc ++ (key, v) :: d.
Proof.
  induction acc as [|[k w] acc IH]; simpl; [done|]. intros [Hk Hacc]%not_elem_of_cons. rewrite decide_False by done.
  simpl. by rewrite IH.
Qed.

Lemma set_item_at key v w acc d : key ∉ acc.*1 -> set_item key v (acc ++ (key, w) :: d) = acc ++ (key, v) :: d.
Proof.
  induction acc as [|[k u] acc IH]; simpl; [by rewrite decide_True|]. intros [Hk Hacc]%not_elem_of_cons.
  rewrite decide_False by done. by rewrite IH.
Qed.

Lemma get_item_at key v acc d : key ∉ acc.*1 -> get_item key (acc ++ (key, v) :: d) = Some v.
Proof.
  induction acc as [|[k u] acc IH]; simpl; [by rewrite decide_True|]. intros [Hk Hacc]%not_elem_of_cons.
  rewrite decide_False by done. by apply IH.
Qed.

Lemma get_item_elem key v d : NoDup d.*1 -> (key, v) ∈ d -> get_item key d = Some v.
Proof.
  intros Hnd Hin. apply list_elem_of_split in Hin as (l1 & l2 & ->). apply get_item_at.
  rewrite fmap_app in Hnd. apply NoDup_app in Hnd as (_ & Hd & _). intros Hk. apply (Hd key Hk). simpl. by left.
Qed.

End Dict.

(** ** What goes over the links *)
Section Slicing.
Context {E V : Type} `{Transport E V} (ags : option (gmap (list ascii) bool)) (n : Z).
Notation dict := (dict E V).
Notation tensor := (tensor E).

(** The tensors of a key and size that are sent in slices by a group of [n]. *)
Definition sliced (key : list ascii) (t : tensor) : bool :=
  match ags with Some m => default (numel t mod n =? 0) (m !! key) | None => numel t mod n =? 0 end.

Definition nth_slice (r : Z) (t : tensor) : tensor :=
  let w := numel t / n in
  mkTensor (t_device t) (t_dtype t) [w] (take (Z.to_nat w) (drop (Z.to_nat (r * w)) (t_data t))).

(** The part of a tensor that rank [r] sends and receives. *)
Definition part (r : Z) (key : list ascii) (t : tensor) : tensor :=
  if numel t =? 0 then t else if sliced key t then nth_slice r t else t.

Definition received (r : Z) (d : dict) : dict :=
  (fun '(key, v) => (key, match v with TensorValue t => TensorValue (part r key t) | v => v end)) <$> d.

(** What can be sent: tensors with as many elements as their size says, no bare
    metadata, and slices only of what divides evenly. *)
Definition entry_ok (e : list ascii * value E V) : Prop :=
  match e with
  | (key, TensorValue t) => Z.of_nat (length (t_data t)) = numel t /\ (sliced key t = true -> numel t mod n = 0)
  | (_, MetaValue _) => False
  | (_, Other _) => True
  end.

(** The messages of a list of entries for the process at the other end. *)
Definition elements (cpu : bool) (r : Z) (d : dict) : list (message E) :=
  omap (fun '(key, v) => match v with
                         | TensorValue t => if negb (numel t =? 0) && Bool.eqb (is_cpu (t_device t)) cpu
                                            then Some (Elements (t_data (part r key t))) else None
                         | _ => None
                         end) d.

Definition chan (cpu : bool) (peer : Z) : channel := if cpu then Cpu peer else Device peer.
Definition arrived (c : channel) (l : list (channel * message E)) : list (message E) :=
  snd <$> filter (fun e => e.1 = c) l.

Context (Hn : 1 <= n).

Lemma should_slice a key t : world_size a = n -> _should_use_all_gather key (numel t) (Some a) ags = sliced key t.
Proof. intros Ha. unfold _should_use_all_gather, sliced. by rewrite Ha. Qed.

Lemma slice_of_nth r t : 0 <= r < n -> numel t mod n = 0 -> slice_of n r t = Ok (nth_slice r t).
Proof.
  intros Hr Hm. unfold slice_of. rewrite Hm, (proj2 (Z.ltb_lt 0 n)), Z.eqb_refl by lia. simpl.
  by rewrite (proj2 (Z.leb_le 0 r)), (proj2 (Z.ltb_lt r n)) by lia.
Qed.

Lemma numel_slice r t : numel (nth_slice r t) = numel t / n.
Proof. exact (Z.mul_1_r _). Qed.

Lemma part_device r key t : t_device (part r key t) = t_device t.
Proof. unfold part. by destruct (numel t =? 0), (sliced key t). Qed.

(** The data of a slice has its size. *)
Lemma length_part r key t :
  0 <= r < n -> entry_ok (key, TensorValue t) -> Z.of_nat (length (t_data (part r key t))) = numel (part r key t).
Proof.
  intros Hr [Hlen Hdiv]. unfold part. destruct (numel t =? 0); [done|]. destruct (sliced key t); [|done].
  rewrite numel_slice. specialize (Hdiv eq_refl). simpl. rewrite length_take, length_drop.
  assert (numel t = numel t / n * n) as Heq by (pose proof (Z.div_mod (numel t) n); lia).
  assert (0 <= numel t / n) by (apply Z.div_pos; lia). nia.
Qed.

(** All slices together are the tensor. *)
Lemma concat_slices t :
  Z.of_nat (length (t_data t)) = numel t -> numel t mod n = 0 ->
  List.concat ((fun r => t_data (nth_slice r t)) <$> seqZ 0 n) = t_data t.
Proof.
  intros Hlen Hdiv. set (w := numel t / n).
  assert (numel t = n * w) as Heq by (unfold w; pose proof (Z.div_mod (numel t) n); lia).
  assert (0 <= w) by (apply Z.div_pos; lia).
  transitivity (take (Z.to_nat (n * w)) (t_data t)); [|apply take_ge; lia].
  change (fun r => t_data (nth_slice r t)) with (fun r => take (Z.to_nat w) (drop (Z.to_nat (r * w)) (t_data t))).
  clear Hlen Hdiv Heq. assert (0 <= n) as Hn0 by lia. clear Hn. clearbody w. revert n Hn0.
  refine (natlike_ind _ _ _); [done|]. intros k Hk IH. rewrite <- Z.add_1_r, seqZ_app, fmap_app, List.concat_app, IH by lia.
  simpl. rewrite app_nil_r. replace (Z.of_nat 0 + (0 + k)) with k by lia.
  replace (Z.to_nat ((k + 1) * w)) with (Z.to_nat (k * w) + Z.to_nat w)%nat by nia. apply take_take_drop.
Qed.

End Slicing.

(** ** Sending *)
Section Sending.
Context {E V : Type} `{Transport E V} (ags : option (gmap (list ascii) bool)) (n r : Z).
Context (Hn : 1 <= n) (Hr : 0 <= r < n).
Notation dict := (dict E V).
Implicit Types (d : dict) (l : links E).

Definition add_sent l (new : list (channel * message E)) : links E :=
  mkLinks (torch_initialized l) (sent l ++ new) (inbox l).

Lemma add_sent_nil l : add_sent l [] = l.
Proof. destruct l. unfold add_sent. simpl. by rewrite app_nil_r. Qed.

Lemma add_sent_app l a b : add_sent (add_sent l a) b = add_sent l (a ++ b).
Proof. unfold add_sent. simpl. by rewrite (assoc_L (++)). Qed.

Definition tensors d : list (list ascii * tensor E) :=
  omap (fun '(k, v) => match v with TensorValue t => Some (k, t) | _ => None end) d.

Lemma zip_tensors d :
  zip (omap (fun '(k, v) => match v with TensorValue _ => Some k | _ => None end) d) (snd (_split_tensor_dict d)) = tensors d /\
  length (omap (fun '(k, v) => match v with TensorValue _ => Some k | _ => None end) d) = length (snd (_split_tensor_dict d)).
Proof.
  unfold _split_tensor_dict, tensors. simpl. induction d as [|[k [t|m|v]] d [IH1 IH2]]; csimpl; [done| |done|done].
  split; [by rewrite IH1|by rewrite IH2].
Qed.

(** The messages of a dictionary, in order. *)
Definition payload (peer : Z) d : list (channel * message E) :=
  omap (fun '(key, v) => match v with
                         | TensorValue t => if numel t =? 0 then None
                                            else Some (link (t_device t) peer, Elements (t_data (part ags n r key t)))
                         | _ => None
                         end) d.

Lemma arrived_payload cpu peer d : arrived (chan cpu peer) (payload peer d) = elements ags n cpu r d.
Proof.
  unfold arrived, payload, elements. induction d as [|[k [t|m|v]] d IH]; csimpl; [done| |done|done].
  destruct (numel t =? 0) eqn:Ht; csimpl; [done|]. rewrite filter_cons. case_decide as Hc; cbn [fst] in Hc;
    unfold link in Hc; destruct (is_cpu (t_device t)), cpu; simpl in Hc; try done; cbn [Bool.eqb negb andb]; rewrite <- IH; done.
Qed.

Lemma arrived_app c a b : arrived c (a ++ b) = arrived c a ++ @arrived E c b.
Proof. unfold arrived. by rewrite filter_app, fmap_app. Qed.

Context (g a : GroupCoordinator) (Ha : world_size a = n) (Har : rank_in_group a = r).

Lemma send_loop dst peer d l :
  at_index (ranks g) dst = Ok peer -> Forall (entry_ok ags n) d ->
  isend_tensors g (Some a) ags dst (tensors d) l =
    (Got (omap (fun '(k, t) => if numel t =? 0 then None else Some k) (tensors d)), add_sent l (payload peer d)).
Proof.
  intros Hpeer Hd. revert l. induction Hd as [|[k [t|m|v]] d Hok Hd IH]; intros l; csimpl;
    [by rewrite add_sent_nil| |done|apply IH].
  fold (tensors d). destruct (numel t =? 0) eqn:Ht; csimpl; [apply IH|].
  destruct Hok as [Hlen Hdiv]. rewrite Ha, Har. fold (sliced ags n k t).
  assert ((if sliced ags n k t then slice_of n r t else Ok t) = Ok (part ags n r k t)) as ->.
  { unfold part. rewrite Ht. destruct (sliced ags n k t); [|done]. apply slice_of_nth; [done..|by apply Hdiv]. }
  unfold tbind, transmit. cbn [tlift]. rewrite Hpeer. cbn [tlift].
  match goal with |- context [isend_tensors _ _ _ _ _ ?x] => change x with
    (add_sent l [(link (t_device (part ags n r k t)) peer, Elements (t_data (part ags n r k t)))]) end.
  by rewrite IH, add_sent_app, part_device.
Qed.

(** A whole dictionary: the pickled metadata first. *)
Definition object_messages (peer : Z) d : list (channel * message E) :=
  let b := dumps (fst (_split_tensor_dict d)) in
  [(Cpu peer, SizeTensor (Z.of_nat (length b))); (Cpu peer, Bytes b)].

Lemma isend_run dst peer d l :
  1 < world_size g -> dst < world_size g -> dst <> rank_in_group g -> at_index (ranks g) dst = Ok peer ->
  Forall (entry_ok ags n) d ->
  exists handles, isend_tensor_dict false g (Some a) ags d (Some dst) l =
    (Got handles, add_sent l (object_messages peer d ++ payload peer d)).
Proof.
  intros Hw Hdst Hne Hpeer Hd. destruct (zip_tensors d) as [Hzip Hlen]. unfold isend_tensor_dict.
  rewrite (proj2 (Z.leb_gt _ _) Hw). cbv zeta. change (default _ (Some dst)) with dst.
  destruct (_split_tensor_dict d) as [meta ts] eqn:Hsplit. cbn [snd] in *. eexists.
  unfold send_object, tbind, transmit. rewrite (proj2 (Z.ltb_lt _ _) Hdst), (proj2 (Z.eqb_neq _ _) Hne), Hpeer.
  cbn [tlift require negb]. rewrite bool_decide_eq_true_2 by done. cbn [require tlift]. rewrite Hzip.
  match goal with |- isend_tensors _ _ _ _ _ ?x = _ => change x with
    (add_sent (add_sent l [(Cpu peer, SizeTensor (Z.of_nat (length (dumps meta))))]) [(Cpu peer, Bytes (dumps meta))]) end.
  rewrite add_sent_app. erewrite send_loop by done. rewrite add_sent_app. unfold object_messages. by rewrite Hsplit.
Qed.

End Sending.

(** ** Receiving *)
Section Receiving.
Context {E V : Type} `{TransportLaws E V} (ags : option (gmap (list ascii) bool)) (n r : Z).
Context (Hn : 1 <= n) (Hr : 0 <= r < n).
Notation dict := (dict E V).
Implicit Types (d acc : dict) (l : links E) (t : tensor E).
Notation own := (part ags n r).
Notation ok := (@entry_ok E V ags n).

(** The tensors before anything has arrived. *)
Definition blanked d : dict :=
  (fun '(key, v) => (key, match v with TensorValue t => TensorValue (own key (empty (metadata_of t))) | v => v end)) <$> d.
Definition handles_of (peer : Z) d : list handle :=
  omap (fun '(key, v) => match v with
                         | TensorValue t => if numel t =? 0 then None
                                            else Some (mkHandle key (link (t_device t) peer) (numel (own key t)))
                         | _ => None
                         end) d.
Definition posts_of d : list postprocess :=
  omap (fun '(key, v) => match v with
                         | TensorValue t => if negb (numel t =? 0) && sliced ags n key t then Some (mkPost key (t_size t)) else None
                         | _ => None
                         end) d.

Lemma numel_empty t : numel (@empty E V _ (metadata_of t)) = numel t.
Proof. done. Qed.

Lemma sliced_empty key t : sliced ags n key (@empty E V _ (metadata_of t)) = sliced ags n key t.
Proof. done. Qed.

Lemma numel_part_empty key t : numel (own key (@empty E V _ (metadata_of t))) = numel (own key t).
Proof.
  unfold part. rewrite numel_empty, sliced_empty. destruct (numel t =? 0), (sliced ags n key t); try done.
Qed.

Lemma fill_part key t : with_data (t_data (own key t)) (own key (@empty E V _ (metadata_of t))) = own key t.
Proof.
  unfold part. rewrite numel_empty, sliced_empty. destruct t. by repeat case_match.
Qed.

Lemma empty_nothing t key : ok (key, TensorValue t) -> numel t = 0 -> @empty E V _ (metadata_of t) = t.
Proof.
  intros [Hlen _] Hz. destruct t as [dev dt sz x]. unfold empty, numel in *. cbn in *. rewrite Hz in *.
  by destruct x.
Qed.

Lemma tensor_at_prefix key t acc d : key ∉ acc.*1 -> tensor_at key (acc ++ (key, TensorValue t) :: d) = Some t.
Proof. intros Hk. unfold tensor_at. by rewrite get_item_at. Qed.

Lemma set_item_new key (v : value E V) acc : key ∉ acc.*1 -> set_item key v acc = acc ++ [(key, v)].
Proof. intros Hk. rewrite <- (app_nil_r (set_item _ _ _)). by apply set_item_fresh. Qed.

(** The keys of the dictionary read so far and of the rest are all different. *)
Definition apart acc d : Prop := NoDup (acc.*1 ++ d.*1).

Lemma apart_head acc k v d : apart acc ((k, v) :: d) -> k ∉ acc.*1.
Proof. intros Hnd%NoDup_app. destruct Hnd as (_ & Hd & _). intros Hin. apply (Hd k Hin). csimpl. by left. Qed.

Lemma apart_next acc k v w d : apart acc ((k, v) :: d) -> apart (acc ++ [(k, w)]) d.
Proof. unfold apart. by rewrite fmap_app, <- (assoc_L (++)). Qed.

Lemma irecv_run a peer acc d l :
  world_size a = n -> rank_in_group a = r -> apart acc d -> Forall ok d ->
  irecv_entries (Some a) ags peer (fst (_split_tensor_dict d)) acc l =
    (Got (acc ++ blanked d, handles_of peer d, posts_of d), l).
Proof.
  intros Ha Har Hnd Hd. revert acc Hnd. unfold _split_tensor_dict. cbn [fst].
  induction Hd as [|[k v] d Hok Hd IH]; intros acc Hnd; [by csimpl; rewrite app_nil_r|].
  pose proof (apart_head _ _ _ _ Hnd) as Hk. assert (forall w, acc ++ (k, w) :: blanked d = (acc ++ [(k, w)]) ++ blanked d) as Hacc
    by (intros w; by rewrite <- (assoc_L (++))).
  destruct v as [t|m|v]; [|done|].
  - cbn [fmap list_fmap irecv_entries]. rewrite numel_empty. unfold handles_of, posts_of, blanked. csimpl.
    fold (handles_of peer d) (posts_of d) (blanked d).
    assert (sliced ags n k t = sliced ags n k (@empty E V _ (metadata_of t))) as Hsl by done.
    unfold part at 1 2. rewrite numel_empty, sliced_empty.
    destruct (numel t =? 0) eqn:Ht; csimpl; [rewrite set_item_new, IH, Hacc by eauto using apart_next; done|].
    rewrite Ha, Har. fold (sliced ags n k t). destruct (sliced ags n k t) eqn:Hs; csimpl.
    + destruct Hok as [_ Hdiv]. rewrite slice_of_nth by (rewrite ?numel_empty; auto). unfold tbind at 1. cbn [tlift].
      unfold tbind at 1. rewrite set_item_new, IH, Hacc by eauto using apart_next. done.
    + unfold tbind at 1. rewrite set_item_new, IH, Hacc by eauto using apart_next. done.
  - cbn [fmap list_fmap irecv_entries]. rewrite set_item_new, IH by eauto using apart_next.
    by rewrite <- Hacc.
Qed.

(** What has arrived from a peer. *)
Definition holds l (peer : Z) (m : bool -> list (message E)) : Prop := forall cpu, inbox l (chan cpu peer) = m cpu.

Lemma chan_inj c1 c2 p : chan c1 p = chan c2 p -> c1 = c2.
Proof. by destruct c1, c2. Qed.

(** Taking the first message of a link leaves the rest. *)
Lemma take_run l peer cpu m (q : bool -> list (message E)) :
  holds l peer (fun c => (if Bool.eqb cpu c then [m] else []) ++ q c) ->
  exists l', take_message (chan cpu peer) l = (Got m, l') /\ holds l' peer q /\ torch_initialized l' = torch_initialized l.
Proof.
  intros Hl. unfold take_message. rewrite (Hl cpu), eqb_reflx. simpl. eexists. split; [done|]. split; [|done].
  intros c. simpl. case_decide as Hc.
  - apply chan_inj in Hc. by subst.
  - rewrite (Hl c). destruct (Bool.eqb cpu c) eqn:He; [|done]. apply eqb_prop in He. by subst.
Qed.

Lemma wait_run peer acc d l q :
  apart acc d -> Forall ok d -> holds l peer (fun cpu => elements ags n cpu r d ++ q cpu) ->
  exists l', wait_all (handles_of peer d) (acc ++ blanked d) l = (Got (acc ++ received ags n r d), l') /\
    holds l' peer q /\ torch_initialized l' = torch_initialized l.
Proof.
  intros Hnd Hd. revert acc l Hnd. induction Hd as [|[k v] d Hok Hd IH]; intros acc l Hnd Hl.
  { csimpl. eexists. split; [done|]. by split. }
  pose proof (apart_head _ _ _ _ Hnd) as Hk.
  assert (forall w l1, holds l1 peer (fun cpu => elements ags n cpu r d ++ q cpu) ->
    exists l', wait_all (handles_of peer d) (acc ++ (k, w) :: blanked d) l1 = (Got (acc ++ (k, w) :: received ags n r d), l') /\
      holds l' peer q /\ torch_initialized l' = torch_initialized l1) as Hrest.
  { intros w l1 Hl1. destruct (IH (acc ++ [(k, w)]) l1 (apart_next _ _ _ _ _ Hnd) Hl1) as (l' & E' & Hq).
    exists l'. by rewrite <- !(assoc_L (++)) in E'. }
  destruct v as [t|m|v]; [|done|by apply Hrest]. unfold elements in Hl. csimpl in Hl. unfold handles_of. csimpl.
  fold (handles_of peer d). unfold blanked, received. csimpl. fold (blanked d) (received ags n r d).
  destruct (numel t =? 0) eqn:Ht; csimpl in Hl; csimpl.
  - apply Z.eqb_eq in Ht. rewrite (empty_nothing t k) by done. by apply Hrest.
  - destruct (take_run l peer (is_cpu (t_device t)) (Elements (t_data (own k t))) (fun cpu => elements ags n cpu r d ++ q cpu))
      as (l1 & Htake & Hl1 & Hinit).
    { intros cpu. rewrite (Hl cpu). by destruct (Bool.eqb _ cpu). }
    unfold wait, recv_elements. cbn [h_channel h_key h_numel]. unfold tbind at 1 2 3. unfold link. fold (chan (is_cpu (t_device t)) peer).
    rewrite Htake. rewrite (proj2 (Z.eqb_eq _ _) (length_part ags n Hn r k t Hr Hok)). cbn [tret].
    rewrite tensor_at_prefix, set_item_at, fill_part by done. rewrite <- Hinit. by apply Hrest.
Qed.

(** The messages of a dictionary as they arrive. *)
Definition incoming (d : dict) (cpu : bool) : list (message E) :=
  let b := dumps (fst (_split_tensor_dict d)) in
  (if cpu then [SizeTensor (Z.of_nat (length b)); Bytes b] else []) ++ elements ags n cpu r d.

Lemma arrived_messages cpu peer d :
  arrived (chan cpu peer) (object_messages peer d ++ payload ags n r peer d) = incoming d cpu.
Proof.
  rewrite arrived_app, arrived_payload by done. unfold incoming. f_equal. unfold object_messages, arrived.
  rewrite !filter_cons, filter_nil. destruct cpu; [by rewrite !decide_True|by rewrite !decide_False].
Qed.

Lemma recv_object_run g src peer d l q :
  src < world_size g -> src <> rank_in_group g -> at_index (ranks g) src = Ok peer ->
  holds l peer (fun cpu => incoming d cpu ++ q cpu) ->
  exists l', recv_object g src l = (Got (fst (_split_tensor_dict d)), l') /\
    holds l' peer (fun cpu => elements ags n cpu r d ++ q cpu) /\ torch_initialized l' = torch_initialized l.
Proof.
  intros Hsrc Hne Hpeer Hl. set (meta := fst (_split_tensor_dict d)) in *. set (b := dumps meta).
  destruct (take_run l peer true (SizeTensor (Z.of_nat (length b)))
    (fun cpu => (if Bool.eqb true cpu then [Bytes b] else []) ++ elements ags n cpu r d ++ q cpu)) as (l1 & T1 & H1 & I1).
  { intros cpu. rewrite (Hl cpu). unfold incoming. by destruct cpu. }
  destruct (take_run l1 peer true (Bytes b) (fun cpu => elements ags n cpu r d ++ q cpu) H1) as (l2 & T2 & H2 & I2).
  exists l2. split; [|by rewrite I2]. unfold recv_object, recv_size, recv_bytes, tbind. rewrite (proj2 (Z.ltb_lt _ _) Hsrc),
    (proj2 (Z.eqb_neq _ _) Hne), Hpeer. cbn [require tlift negb]. cbn [chan] in T1, T2. rewrite T1. cbn [tret]. rewrite T2.
  rewrite Z.eqb_refl. cbn [tret]. unfold b. by rewrite loads_dumps.
Qed.

Lemma recv_slices_run g a src peer d l q :
  torch_initialized l = true -> 1 < world_size g -> src < world_size g -> src <> rank_in_group g ->
  at_index (ranks g) src = Ok peer -> world_size a = n -> rank_in_group a = r -> NoDup d.*1 -> Forall ok d ->
  holds l peer (fun cpu => incoming d cpu ++ q cpu) ->
  exists l', recv_slices false g (Some a) ags (Some src) l = (Got (Some (received ags n r d), posts_of d), l') /\ holds l' peer q.
Proof.
  intros Hup Hw Hsrc Hne Hpeer Ha Har Hnd Hd Hl.
  destruct (recv_object_run g src peer d l q Hsrc Hne Hpeer Hl) as (l1 & E1 & H1 & _).
  destruct (wait_run peer [] d l1 q Hnd Hd H1) as (l2 & E2 & H2 & _). exists l2. split; [|done].
  unfold recv_slices, irecv_tensor_dict, up, tbind. rewrite Hup. cbn [negb orb].
  rewrite (proj2 (Z.eqb_neq (world_size g) 1)) by lia. change (default _ (Some src)) with src.
  rewrite (proj2 (Z.ltb_lt _ _) Hsrc). cbn [require tlift]. rewrite E1, Hpeer. cbn [tlift].
  rewrite (irecv_run a peer [] d l1 Ha Har Hnd Hd). cbn [tret app]. rewrite app_nil_l in E2. by rewrite E2.
Qed.

(** Gathering the slices and restoring the size gives the tensor back. *)
Lemma gather_whole a t :
  world_size a = n -> (1 < n -> has_device_communicator a = true) ->
  Z.of_nat (length (t_data t)) = numel t -> numel t mod n = 0 ->
  (let* u := all_gather a ((fun j => nth_slice n j t) <$> seqZ 0 n) (nth_slice n r t) 0 in reshape_to (t_size t) u) = Ok t.
Proof.
  intros Ha Hcomm Hlen Hdiv. set (w := numel t / n).
  assert (numel t = n * w) as Heq by (unfold w; pose proof (Z.div_mod (numel t) n); lia).
  assert (0 <= w) by (apply Z.div_pos; lia).
  assert (forall size (x : list E), volume size = numel t -> reshape_to (t_size t) (mkTensor (t_device t) (t_dtype t) size x)
            = Ok (mkTensor (t_device t) (t_dtype t) (t_size t) x)) as Hreshape.
  { intros size x Hsize. unfold reshape_to, numel at 1. cbn [t_size]. rewrite Hsize.
    change (volume (t_size t)) with (numel t). by rewrite Z.eqb_refl. }
  unfold all_gather. rewrite Ha. destruct (Z.eqb_spec n 1) as [Hn1|Hn1].
  - cbn [rbind]. unfold nth_slice. rewrite Hreshape by (simpl; fold w; nia). fold w. replace r with 0 by lia.
    rewrite Z.mul_0_l, drop_0, take_ge by nia. by destruct t.
  - rewrite Hcomm by lia. change ((- Z.of_nat _ <=? 0) && _) with true. unfold require. cbn [rbind].
    pose proof (concat_slices n ltac:(lia) t Hlen Hdiv) as Hcat. rewrite (seqZ_cons 0 n) in * by lia. rewrite fmap_cons.
    rewrite (all_gather_law _ _ w). cbn [rbind].
    + rewrite Hreshape by (cbn [length]; rewrite length_fmap, length_seqZ; simpl; nia).
      change (nth_slice n 0 t :: ((fun j => nth_slice n j t) <$> seqZ (Z.succ 0) (Z.pred n)))
        with ((fun j => nth_slice n j t) <$> 0 :: seqZ (Z.succ 0) (Z.pred n)).
      rewrite <- list_fmap_compose. unfold compose. rewrite Hcat. by destruct t.
    + change (nth_slice n 0 t :: ((fun j => nth_slice n j t) <$> seqZ (Z.succ 0) (Z.pred n)))
        with ((fun j => nth_slice n j t) <$> 0 :: seqZ (Z.succ 0) (Z.pred n)).
      rewrite <- (seqZ_cons 0 n) by lia. apply Forall_fmap, Forall_forall. intros j Hj%elem_of_seqZ.
      split_and!; [done..|]. simpl. fold w. rewrite length_take, length_drop. nia.
Qed.

(** The postprocess steps, when every gathered key has the slices of one tensor. *)
Lemma finish_run a gathered acc d :
  world_size a = n -> (1 < n -> has_device_communicator a = true) -> apart acc d -> Forall ok d ->
  (forall k t, (k, TensorValue t) ∈ d -> numel t <> 0 -> sliced ags n k t = true ->
     gathered k = (fun j => nth_slice n j t) <$> seqZ 0 n) ->
  finish (Some a) gathered (posts_of d) (acc ++ received ags n r d) = Ok (acc ++ d).
Proof.
  intros Ha Hcomm Hnd Hd. revert acc Hnd. induction Hd as [|[k v] d Hok Hd IH]; intros acc Hnd Hg; [done|].
  pose proof (apart_head _ _ _ _ Hnd) as Hk.
  assert (forall w, finish (Some a) gathered (posts_of d) (acc ++ (k, w) :: received ags n r d) = Ok (acc ++ (k, w) :: d)) as Hrest.
  { intros w. specialize (IH (acc ++ [(k, w)]) (apart_next _ _ _ _ _ Hnd)). rewrite <- !(assoc_L (++)) in IH. apply IH.
    intros k' t Hin. apply Hg. by right. }
  destruct v as [t|m|v]; [|done|by apply Hrest]. unfold posts_of, received. csimpl. fold (posts_of d) (received ags n r d).
  assert (numel t = 0 \/ sliced ags n k t = false -> own k t = t) as Hwhole.
  { unfold part. intros [->| ->]; [done|]. by destruct (_ =? 0). }
  destruct (numel t =? 0) eqn:Ht; [apply Z.eqb_eq in Ht; rewrite Hwhole by auto; apply Hrest|].
  destruct (sliced ags n k t) eqn:Hs; [|rewrite Hwhole by auto; apply Hrest]. apply Z.eqb_neq in Ht.
  destruct Hok as [Hlen Hdiv]. specialize (Hdiv Hs). simpl finish. rewrite tensor_at_prefix by done.
  rewrite (Hg k t) by (try done; by left). cbn [rbind]. unfold part at 1. rewrite (proj2 (Z.eqb_neq _ _) Ht), Hs.
  pose proof (gather_whole a t Ha Hcomm Hlen Hdiv) as Hwh. cbn [p_orig_shape].
  destruct (all_gather a _ _ 0) as [u|]; [|done]. cbn [rbind] in Hwh |- *. rewrite Hwh. cbn [rbind].
  rewrite set_item_at by done. apply Hrest.
Qed.

End Receiving.

(** ** Dictionaries arrive *)

Lemma omap_total {A B C} (f : B -> option C) (h : A -> B) (g : A -> C) (l : list A) :
  (forall x, x ∈ l -> f (h x) = Some (g x)) -> omap f (h <$> l) = g <$> l.
Proof.
  induction l as [|x l IH]; intros Hf; [done|]. csimpl. rewrite (Hf x) by (by left). f_equal. apply IH.
  intros y Hy. apply Hf. by right.
Qed.

Lemma at_index_ok (l : list Z) i : 0 <= i < Z.of_nat (length l) -> at_index l i = Ok (l !!! Z.to_nat i).
Proof.
  intros Hi. unfold at_index. rewrite (proj2 (Z.ltb_ge i 0)), (proj2 (Z.leb_le 0 i)), (proj2 (Z.ltb_lt i _)) by lia.
  cbn [andb]. destruct (lookup_lt_is_Some_2 l (Z.to_nat i)) as [x Hx]; [lia|]. by rewrite Hx, (list_lookup_total_correct _ _ _ Hx).
Qed.

(** A member of a pipeline group, and of the tensor-parallel group whose ranks share
    the sending. *)
Record at_stage (pipeline : list Z) (i : Z) (g : GroupCoordinator) : Prop := {
  stage_ranks : ranks g = pipeline;
  stage_index : rank_in_group g = i
}.
Record member (n r : Z) (a : GroupCoordinator) : Prop := {
  member_size : world_size a = n;
  member_rank : rank_in_group a = r;
  member_comm : 1 < n -> has_device_communicator a = true
}.

(** What the ranks of a tensor-parallel group send together: each its own
    dictionary, with the same tensors where slices are sent. *)
Record sendable {E V : Type} (ags : option (gmap (list ascii) bool)) (n : Z) (td : Z -> dict E V) : Prop := {
  send_keys r : 0 <= r < n -> NoDup (td r).*1;
  send_entries r : 0 <= r < n -> Forall (entry_ok ags n) (td r);
  send_layout r j : 0 <= r < n -> 0 <= j < n -> posts_of ags n (td r) = posts_of ags n (td j);
  send_replicated r j key t : 0 <= r < n -> 0 <= j < n -> (key, TensorValue t) ∈ td r -> numel t <> 0 ->
    sliced ags n key t = true -> (key, TensorValue t) ∈ td j
}.

Section Arrival.
Context {E V : Type} `{TransportLaws E V} (ags : option (gmap (list ascii) bool)) (n w i : Z).
Context (Hn : 1 <= n) (Hw : 2 <= w) (Hi : 0 <= i < w).
Context (pipeline : Z -> list Z) (Hpipe : forall r, 0 <= r < n -> Z.of_nat (length (pipeline r)) = w).
Context (td : Z -> dict E V) (Htd : sendable ags n td).

Definition from r := pipeline r !!! Z.to_nat i.
Definition to r := pipeline r !!! Z.to_nat ((i + 1) mod w).

Lemma stage_size r j g : 0 <= r < n -> at_stage (pipeline r) j g -> world_size g = w.
Proof. intros Hr [Hg _]. unfold world_size. rewrite Hg. by apply Hpipe. Qed.

Lemma next_stage : 0 <= (i + 1) mod w < w /\ (i + 1) mod w <> i /\ ((i + 1) mod w - 1) mod w = i.
Proof.
  destruct (Z.eq_dec (i + 1) w) as [He|He].
  - rewrite He, Z.mod_same by lia. split; [lia|]. split; [lia|]. change (0 - 1) with (-1).
    symmetry. apply (Z.mod_unique _ _ (-1)); lia.
  - rewrite (Z.mod_small (i + 1)) by lia. split; [lia|]. split; [lia|]. rewrite Z.mod_small; lia.
Qed.

Lemma send_run r g a l :
  0 <= r < n -> at_stage (pipeline r) i g -> member n r a -> torch_initialized l = true ->
  send_tensor_dict false g (Some a) ags (td r) None l =
    (Got None, add_sent l (object_messages (to r) (td r) ++ payload ags n r (to r) (td r))).
Proof.
  intros Hr Hg Ha Hup. pose proof (stage_size r i g Hr Hg) as Hsz. destruct next_stage as (Hb & Hne & _).
  destruct Hg as [Hranks Hidx], Ha as [Ha Har _].
  destruct (isend_run ags n r Hn Hr g a Ha Har ((i + 1) mod w) (to r) (td r) l) as (handles & E1).
  { lia. } { lia. } { by rewrite Hidx. } { rewrite Hranks. apply at_index_ok. rewrite Hpipe by done. lia. }
  { by apply (send_entries _ _ _ Htd). }
  unfold send_tensor_dict, up, tbind. rewrite Hup. cbn [negb orb]. rewrite (proj2 (Z.eqb_neq (world_size g) 1)) by lia.
  unfold isend_tensor_dict in E1 |- *. rewrite Hsz, Hidx in *.
  change (default ((i + 1) mod w) None) with ((i + 1) mod w). change (default _ (Some ((i + 1) mod w))) with ((i + 1) mod w) in E1.
  rewrite E1. done.
Qed.

Definition slices j : dict E V := received ags n j (td j).

Lemma slices_run r g a l q :
  0 <= r < n -> at_stage (pipeline r) ((i + 1) mod w) g -> member n r a -> torch_initialized l = true ->
  holds l (from r) (fun cpu => incoming ags n r (td r) cpu ++ q cpu) ->
  exists l', recv_slices false g (Some a) ags None l = (Got (Some (slices r), posts_of ags n (td r)), l') /\
    holds l' (from r) q.
Proof.
  intros Hr Hg Ha Hup Hl. pose proof (stage_size r _ g Hr Hg) as Hsz. destruct next_stage as (Hb & Hne & Hback).
  destruct Hg as [Hranks Hidx], Ha as [Ha Har _].
  destruct (recv_slices_run ags n r Hn Hr g a i (from r) (td r) l q) as (l' & E1 & H1).
  { done. } { lia. } { lia. } { by rewrite Hidx. } { rewrite Hranks. apply at_index_ok. rewrite Hpipe by done. lia. }
  { done. } { done. } { by apply (send_keys _ _ _ Htd). } { by apply (send_entries _ _ _ Htd). } { done. }
  exists l'. split; [|done]. revert E1. unfold recv_slices, irecv_tensor_dict, tbind. rewrite Hidx, Hsz.
  change (default (((i + 1) mod w - 1) mod w) None) with (((i + 1) mod w - 1) mod w). rewrite Hback. done.
Qed.

Lemma gathered_slices r key t :
  0 <= r < n -> (key, TensorValue t) ∈ td r -> numel t <> 0 -> sliced ags n key t = true ->
  omap (tensor_at key) (slices <$> seqZ 0 n) = (fun j => nth_slice n j t) <$> seqZ 0 n.
Proof.
  intros Hr Hin Hnz Hs. apply omap_total. intros j [Hj1 Hj2]%elem_of_seqZ. unfold slices, received.
  pose proof (send_replicated _ _ _ Htd r j key t Hr ltac:(lia) Hin Hnz Hs) as Hinj. unfold tensor_at.
  rewrite (get_item_elem key (TensorValue (nth_slice n j t))); [done| |].
  - pose proof (send_keys _ _ _ Htd j ltac:(lia)) as Hnd. by rewrite <- list_fmap_compose, (list_fmap_ext _ fst) by (by intros ? [? []]).
  - apply list_elem_of_fmap. exists (key, TensorValue t). split; [|done]. unfold part.
    by rewrite (proj2 (Z.eqb_neq _ _) Hnz), Hs.
Qed.

Lemma recv_run r g a l q :
  0 <= r < n -> at_stage (pipeline r) ((i + 1) mod w) g -> member n r a -> torch_initialized l = true ->
  holds l (from r) (fun cpu => incoming ags n r (td r) cpu ++ q cpu) ->
  exists l', recv_tensor_dict false g (Some a) ags (fun key => omap (tensor_at key) (slices <$> seqZ 0 n)) None l =
    (Got (Some (td r)), l') /\ holds l' (from r) q.
Proof.
  intros Hr Hg Ha Hup Hl. destruct (slices_run r g a l q Hr Hg Ha Hup Hl) as (l' & E1 & H1). exists l'. split; [|done].
  unfold recv_tensor_dict, up, tbind. rewrite Hup, (stage_size r _ g Hr Hg). cbn [negb orb].
  rewrite (proj2 (Z.eqb_neq w 1)) by lia. rewrite E1.
  rewrite (finish_run ags n r Hn Hr a _ [] (td r)); [done|by destruct Ha..| | |].
  - by apply (send_keys _ _ _ Htd).
  - by apply (send_entries _ _ _ Htd).
  - intros k t Hin Hnz Hs. by eapply gathered_slices.
Qed.

End Arrival.

(** C35 (dictionaries arrive): the tensor ranks of a pipeline stage each send their
    dictionary to the next stage, in slices where the tensors are replicated; once
    the messages have arrived, ahead of any others, every receiving rank returns
    the dictionary its sender was given, tensors and order included, and exactly
    those messages are used up. *)
Theorem dictionaries_arrive {E V : Type} `{TransportLaws E V} ags n w i pipeline td sender receiver out inn ls lr rest :
  1 <= n -> 2 <= w -> 0 <= i < w -> sendable ags n td ->
  (forall r, 0 <= r < n ->
     Z.of_nat (length (pipeline r)) = w /\ at_stage (pipeline r) i (sender r) /\
     at_stage (pipeline r) ((i + 1) mod w) (receiver r) /\ member n r (out r) /\ member n r (inn r) /\
     torch_initialized (ls r) = true /\ torch_initialized (lr r) = true) ->
  exists new : Z -> list (channel * message E),
    (forall r, 0 <= r < n ->
       send_tensor_dict false (sender r) (Some (out r)) ags (td r) None (ls r) = (Got None, add_sent (ls r) (new r))) /\
    exists slices : Z -> dict E V, forall r, 0 <= r < n ->
      holds (lr r) (from i pipeline r) (fun cpu => arrived (chan cpu (to w i pipeline r)) (new r) ++ rest r cpu) ->
      (exists posts l', recv_slices false (receiver r) (Some (inn r)) ags None (lr r) = (Got (Some (slices r), posts), l')) /\
      exists l', recv_tensor_dict false (receiver r) (Some (inn r)) ags
                   (fun key => omap (tensor_at key) (slices <$> seqZ 0 n)) None (lr r) = (Got (Some (td r)), l') /\
                 holds l' (from i pipeline r) (rest r).
Proof.
  intros Hn Hw Hi Htd Hall. assert (forall r, 0 <= r < n -> Z.of_nat (length (pipeline r)) = w) as Hpipe by apply Hall.
  exists (fun r => object_messages (to w i pipeline r) (td r) ++ payload ags n r (to w i pipeline r) (td r)). split.
  { intros r Hr. destruct (Hall r Hr) as (_ & Hs & _ & Ho & _ & Hup & _).
    by apply (send_run ags n w i Hn Hw Hi pipeline Hpipe td Htd). }
  exists (slices ags n td). intros r Hr Hl. destruct (Hall r Hr) as (_ & _ & Hs & _ & Ho & _ & Hup).
  assert (holds (lr r) (from i pipeline r) (fun cpu => incoming ags n r (td r) cpu ++ rest r cpu)) as Hl'
    by (intros cpu; by rewrite (Hl cpu), arrived_messages).
  destruct (slices_run ags n w i Hn Hw Hi pipeline Hpipe td Htd r _ _ _ _ Hr Hs Ho Hup Hl') as (l1 & E1 & _).
  split; [by eexists _, l1|]. by apply (recv_run ags n w i Hn Hw Hi pipeline Hpipe td Htd).
Qed.

(** ** A transport *)

Fixpoint bits (p : positive) : list byte :=
  match p with xH => [] | xO p => x00 :: bits p | xI p => x01 :: bits p end.
Fixpoint unbits (l : list byte) : positive :=
  match l with [] => xH | x00 :: l => xO (unbits l) | _ :: l => xI (unbits l) end.

Lemma unbits_bits p : unbits (bits p) = p.
Proof. by induction p as [p IH|p IH|]; simpl; rewrite ?IH. Qed.

#[export] Instance tensor_eq_dec : EqDecision (tensor Z).
Proof. solve_decision. Defined.
#[export] Instance tensor_countable : Countable (tensor Z).
Proof.
  by refine (inj_countable' (fun t => (t_device t, t_dtype t, t_size t, t_data t))
    (fun '(dev, dt, sz, x) => mkTensor dev dt sz x) _); intros [].
Defined.
#[export] Instance metadata_eq_dec : EqDecision TensorMetadata.
Proof. solve_decision. Defined.
#[export] Instance metadata_countable : Countable TensorMetadata.
Proof.
  by refine (inj_countable' (fun m => (m_device m, m_dtype m, m_size m)) (fun '(dev, dt, sz) => mkMeta dev dt sz) _);
    intros [].
Defined.
#[export] Instance value_eq_dec : EqDecision (value Z Z).
Proof. solve_decision. Defined.
#[export] Instance value_countable : Countable (value Z Z).
Proof.
  by refine (inj_countable' (fun v => match v with TensorValue t => inl t | MetaValue m => inr (inl m) | Other z => inr (inr z) end)
    (fun v => match v with inl t => TensorValue t | inr (inl m) => MetaValue m | inr (inr z) => Other z end) _); intros [].
Defined.

(** Gathering joins the data; pickling writes an encoding bit by bit. *)
#[export] Instance list_transport : Transport Z Z := {|
  dumps d := bits (encode (d : list (list ascii * value Z Z)));
  loads b := match decode (A := list (list ascii * value Z Z)) (unbits b) with Some d => Ok d | None => Raise ValueError end;
  comm_all_gather l _ :=
    match l with
    | t :: _ => mkTensor (t_device t) (t_dtype t) [zsum (numel <$> l)] (List.concat (t_data <$> l))
    | [] => mkTensor [] [] [] []
    end;
  comm_send_tensor_dict _ _ := fun l => (Waits, l);
  comm_recv_tensor_dict _ := fun l => (Waits, l);
  uninit := 0
|}.

#[export] Instance list_transport_laws : TransportLaws Z Z.
Proof.
  split.
  - intros d. cbn [loads dumps list_transport]. by rewrite unbits_bits, decode_encode.
  - intros t ts w Hall. cbn [comm_all_gather list_transport]. do 2 f_equal.
    induction (t :: ts) as [|u us IH]; [by rewrite Z.mul_0_r|]. apply Forall_cons in Hall as [(_ & _ & Hw & _) Hus].
    cbn [fmap list_fmap zsum foldr length]. change (foldr Z.add 0 (numel <$> us)) with (zsum (numel <$> us)).
    rewrite (IH Hus). unfold numel. rewrite Hw. simpl. lia.
Qed.

(** Two stages of two tensor ranks: a hidden state, sent in halves, and a plain
    value. *)
Definition hidden : tensor Z := mkTensor (PyStr.text "cuda") (PyStr.text "bfloat16") [2; 2] [1; 2; 3; 4].
Definition stage_dict : dict Z Z := [(PyStr.text "hidden_states", TensorValue hidden); (PyStr.text "step", Other 7)].
Definition stage_group (r i : Z) : GroupCoordinator := mkGroup (PyStr.text "pp:0") (r + 2 * i) [r; r + 2] i 0 [[0; 2]; [1; 3]] true false.
Definition tensor_group (r i : Z) : GroupCoordinator :=
  mkGroup (PyStr.text "tp:0") (r + 2 * i) [2 * i; 2 * i + 1] r 0 [[0; 1]; [2; 3]] true true.

Definition stage_links (inbox : channel -> list (message Z)) : links Z := mkLinks true [] inbox.
Definition stage_send (r : Z) : progress (option (dict Z Z)) * links Z :=
  send_tensor_dict false (stage_group r 0) (Some (tensor_group r 0)) None stage_dict None (stage_links (fun _ => [])).
Definition stage_inbox (r : Z) (c : channel) : list (message Z) :=
  match c with
  | Cpu p => if p =? r then arrived (Cpu (r + 2)) (sent (snd (stage_send r))) else []
  | Device p => if p =? r then arrived (Device (r + 2)) (sent (snd (stage_send r))) else []
  | _ => []
  end.

Lemma stage_sendable : sendable None 2 (fun _ => stage_dict).
Proof.
  split; [|repeat constructor|done|done].
  intros r _. repeat constructor; simpl; rewrite ?elem_of_cons, ?elem_of_nil; intros H; repeat destruct H as [H|H]; discriminate || done.
Qed.

Lemma dictionaries_arrive_witness :
  exists slices : Z -> dict Z Z,
    fst (recv_slices false (stage_group 1 1) (Some (tensor_group 1 1)) None None (stage_links (stage_inbox 1)))
      = Got (Some (slices 1), [mkPost (PyStr.text "hidden_states") [2; 2]]) /\
    fst (recv_tensor_dict false (stage_group 1 1) (Some (tensor_group 1 1)) None
           (fun key => omap (tensor_at key) (slices <$> seqZ 0 2)) None (stage_links (stage_inbox 1))) = Got (Some stage_dict).
Proof.
  destruct (dictionaries_arrive None 2 2 0 (fun r => [r; r + 2]) (fun _ => stage_dict) (fun r => stage_group r 0)
    (fun r => stage_group r 1) (fun r => tensor_group r 0) (fun r => tensor_group r 1) (fun _ => stage_links (fun _ => []))
    (fun r => stage_links (stage_inbox r)) (fun _ _ => []) ltac:(lia) ltac:(lia) ltac:(lia) stage_sendable) as (new & Hsend & slices & Hrecv).
  { intros r _. repeat split. }
  exists slices. destruct (Hrecv 1 ltac:(lia)) as [(posts & l' & E1) (l2 & E2 & _)].
  { intros cpu. specialize (Hsend 1 ltac:(lia)). rewrite app_nil_r. unfold stage_links at 1. cbn [inbox].
    assert (sent (snd (stage_send 1)) = new 1) as Hnew by (unfold stage_send; rewrite Hsend; reflexivity).
    destruct cpu; [transitivity (arrived (Cpu 3) (sent (snd (stage_send 1))))|transitivity (arrived (Device 3) (sent (snd (stage_send 1))))];
      [reflexivity|rewrite Hnew; reflexivity|reflexivity|rewrite Hnew; reflexivity]. }
  rewrite E1, E2. split; [|reflexivity].
  assert (posts = [mkPost (PyStr.text "hidden_states") [2; 2]]) as ->; [|reflexivity].
  enough (match fst (recv_slices false (stage_group 1 1) (Some (tensor_group 1 1)) None None (stage_links (stage_inbox 1)))
          with Got (_, p) => p | _ => [] end = [mkPost (PyStr.text "hidden_states") [2; 2]]) as H by (rewrite E1 in H; exact H).
  vm_compute. reflexivity.
Defined.
