(* ===== verification/IndexerChunks.v ===== *)
(** * Sparse indexer: prefill chunks

    [split_indexer_prefill_chunks] of [vllm/v1/attention/backends/mla/indexer.py]
    and the sizes it is called with.  The theorem: the chunks tile the query
    tokens of the prefill in order, each keeps to its requests, and each is within
    the workspace and the logits budget or is as small as it can be. *)
From S2P Require Export PyLib.

Definition _B12X_PAGED_INDEX_SUPERTILE_K_DEFAULT : Z := 32768.
Definition _B12X_PAGED_INDEX_TILE_BLOCK_K : Z := 512.

(** [raw] is the value of B12X_PAGED_INDEX_SUPERTILE_K. *)
Definition _get_b12x_paged_indexer_supertile_k (raw : option (list ascii)) : result Z :=
  let* tokens := match raw with
                 | None => Ok _B12X_PAGED_INDEX_SUPERTILE_K_DEFAULT
                 | Some raw => match PyStr.int_of raw with Some n => Ok n | None => Raise ValueError end
                 end in
  let tokens := Z.max tokens _B12X_PAGED_INDEX_TILE_BLOCK_K in
  Ok ((tokens + _B12X_PAGED_INDEX_TILE_BLOCK_K - 1) / _B12X_PAGED_INDEX_TILE_BLOCK_K * _B12X_PAGED_INDEX_TILE_BLOCK_K).

Definition _align_indexer_block_table_width (max_num_blocks_per_req block_size : Z) : result Z :=
  if block_size <=? 128 then
    let* _ := require (negb (block_size =? 0)) ZeroDivisionError in
    let alignment := 128 / block_size in
    Ok ((max_num_blocks_per_req + alignment - 1) / alignment * alignment)
  else Ok max_num_blocks_per_req.

(** A slice of requests and a slice of the query tokens of those requests. *)
Record chunk := mkChunk { req_start : Z; req_stop : Z; query_start : Z; query_stop : Z }.

Section Split.
Context (workspace_size max_logits_bytes request_offset : Z).
Notation max_logits_elems := (max_logits_bytes / 4).

(** The inner loop: how many of the requests, given by query and sequence length,
    fit after [chunk_m] query tokens and [chunk_n] keys. *)
Fixpoint grow (chunk_m chunk_n : Z) (requests : list (Z * Z)) : Z * Z * nat :=
  match requests with
  | [] => (chunk_m, chunk_n, 0%nat)
  | (q, s) :: requests =>
      let new_m := chunk_m + q in
      let new_n := chunk_n + s in
      if (new_n <=? workspace_size) && (new_m * new_n <=? max_logits_elems) then
        let '(m, n, k) := grow new_m new_n requests in (m, n, S k)
      else (chunk_m, chunk_n, 0%nat)
  end.

(** The loop over [range(0, chunk_m, max_q)]. *)
Definition sub_chunks (start stop chunk_m chunk_n : Z) : list chunk :=
  let max_q := if 0 <? chunk_n then Z.max 1 (max_logits_elems / chunk_n) else Z.max 1 chunk_m in
  (fun i => let q_off := i * max_q in
            let sub_m := Z.min max_q (chunk_m - q_off) in
            mkChunk start stop q_off (q_off + sub_m)) <$> seqZ 0 (- (- chunk_m / max_q)).

Fixpoint chunks_from (fuel : nat) (start : Z) (requests : list (Z * Z)) : result (list chunk) :=
  match requests with
  | [] => Ok []
  | (q, s) :: _ =>
      match fuel with
      | O => Raise OutOfFuel
      | S fuel =>
          let '(chunk_m, chunk_n, k) := grow 0 0 requests in
          let '(chunk_m, chunk_n, k) := if Nat.eqb k 0 then (q, s, 1%nat) else (chunk_m, chunk_n, k) in
          let stop := start + Z.of_nat k in
          let* rest := chunks_from fuel stop (drop k requests) in
          Ok (sub_chunks (start + request_offset) (stop + request_offset) chunk_m chunk_n ++ rest)
      end
  end.

(** One query and one sequence length per request. *)
Definition split_indexer_prefill_chunks (requests : list (Z * Z)) : result (list chunk) :=
  chunks_from (List.length requests) 0 requests.

End Split.

(** ** What the chunks cover *)

(** The first query token of request [i]. *)
Definition token_offset (requests : list (Z * Z)) (i : Z) : Z := zsum (take (Z.to_nat i) requests).*1.
Definition keys_of (requests : list (Z * Z)) (a b : Z) : Z :=
  zsum (take (Z.to_nat (b - a)) (drop (Z.to_nat a) requests)).*2.
Definition tokens_of (requests : list (Z * Z)) (c : chunk) : list Z :=
  seqZ (token_offset requests (req_start c) + query_start c) (query_stop c - query_start c).

(** A chunk within the limits, or a single request cut as far as it goes. *)
Definition within (workspace_size max_logits_elems : Z) (requests : list (Z * Z)) (c : chunk) : Prop :=
  let m := query_stop c - query_start c in
  let n := keys_of requests (req_start c) (req_stop c) in
  0 < m /\ (m * n <= max_logits_elems \/ m = 1) /\
  (n <= workspace_size /\ m * n <= max_logits_elems \/ req_stop c = req_start c + 1).

(** A chunk of existing requests, with query tokens of theirs. *)
Definition proper (requests : list (Z * Z)) (c : chunk) : Prop :=
  0 <= req_start c < req_stop c /\ req_stop c <= Z.of_nat (List.length requests) /\ 0 <= query_start c /\
  token_offset requests (req_start c) + query_stop c <= token_offset requests (req_stop c).

Section Cover.
Context (workspace_size max_logits_bytes : Z).
Notation max_logits_elems := (max_logits_bytes / 4).
Notation grow := (grow workspace_size max_logits_bytes).
Notation sub_chunks := (sub_chunks max_logits_bytes).

Lemma grow_spec requests m n :
  let '(m', n', k) := grow m n requests in
  (k <= List.length requests)%nat /\ m' = m + zsum (take k requests).*1 /\ n' = n + zsum (take k requests).*2 /\
  (k <> 0%nat -> n' <= workspace_size /\ m' * n' <= max_logits_elems).
Proof.
  assert (forall m n, m = m + 0 /\ n = n + 0 /\ (0%nat <> 0%nat -> n <= workspace_size /\ m * n <= max_logits_elems)) as Hnone
    by (intros m0 n0; split; [lia|]; split; [lia|done]).
  revert m n. induction requests as [|[q s] requests IH]; intros m n; simpl; [split; [done|apply Hnone]|].
  destruct (n + s <=? workspace_size) eqn:H1; simpl; [|split; [lia|apply Hnone]].
  destruct ((m + q) * (n + s) <=? max_logits_elems) eqn:H2; simpl; [|split; [lia|apply Hnone]].
  specialize (IH (m + q) (n + s)). destruct (grow (m + q) (n + s) requests) as [[m' n'] k].
  destruct IH as (Hk & -> & -> & Hfit). split; [lia|]. split; [csimpl; lia|]. split; [csimpl; lia|]. intros _.
  destruct k as [|k]; [|by apply Hfit]. simpl. rewrite !Z.add_0_r. lia.
Qed.

(** The pieces of a run of [m] tokens, each of [w] but the last. *)
Lemma pieces_tile a m w :
  0 <= m -> 0 < w ->
  List.concat ((fun i => seqZ (a + i * w) (Z.min w (m - i * w))) <$> seqZ 0 (- (- m / w))) = seqZ a m.
Proof.
  intros Hm Hw. set (c := - (- m / w)).
  assert (m <= c * w /\ 0 <= c /\ (c - 1) * w < m) as (Hc1 & Hc2 & Hc3)
    by (unfold c; pose proof (Z.div_mod (- m) w ltac:(lia)); pose proof (Z.mod_pos_bound (- m) w Hw); nia).
  enough (forall k, 0 <= k -> k <= c ->
    List.concat ((fun i => seqZ (a + i * w) (Z.min w (m - i * w))) <$> seqZ 0 k) = seqZ a (Z.min (k * w) m)) as Hk.
  { rewrite Hk by lia. f_equal. lia. }
  apply (natlike_ind (fun k => k <= c -> _)).
  - intros _. rewrite Z.mul_0_l, Z.min_l by lia. done.
  - intros k Hk0 IH Hk. rewrite <- Z.add_1_r, seqZ_app, fmap_app, List.concat_app, IH by lia. simpl. rewrite app_nil_r.
    replace (Z.of_nat 0 + (0 + k)) with k by lia.
    assert (k * w < m) by nia. rewrite (Z.min_l (k * w)) by lia.
    replace (Z.min ((k + 1) * w) m) with (k * w + Z.min w (m - k * w)) by nia. symmetry. apply seqZ_app; nia.
Qed.

(** One round of the outer loop: at least one request, and more only if they fit. *)
Lemma round_spec q s requests :
  let '(m, n, k) := (let '(m, n, k) := grow 0 0 ((q, s) :: requests) in if Nat.eqb k 0 then (q, s, 1%nat) else (m, n, k)) in
  let taken := take k ((q, s) :: requests) in
  (1 <= k <= S (List.length requests))%nat /\ m = zsum taken.*1 /\ n = zsum taken.*2 /\
  (k = 1%nat \/ n <= workspace_size /\ m * n <= max_logits_elems).
Proof.
  pose proof (grow_spec ((q, s) :: requests) 0 0) as Hg. destruct (grow 0 0 ((q, s) :: requests)) as [[m n] k].
  destruct Hg as (Hk & Hm & Hn & Hfit). destruct k as [|k]; cbn [Nat.eqb].
  - cbn [take]. csimpl. split; [lia|]. split; [lia|]. split; [lia|]. by left.
  - cbn [List.length] in Hk. split; [lia|]. split; [lia|]. split; [lia|]. right. by apply Hfit.
Qed.

Context (Hlimit : 0 <= max_logits_elems).

(** The chunks of one round. *)
Lemma sub_chunks_spec requests a k m n :
  let taken := take k (drop a requests) in
  Forall (fun r => 0 <= r.1 /\ 0 <= r.2) requests ->
  (1 <= k)%nat -> (a + k <= List.length requests)%nat -> m = zsum taken.*1 -> n = zsum taken.*2 ->
  (k = 1%nat \/ n <= workspace_size /\ m * n <= max_logits_elems) ->
  let cs := sub_chunks (Z.of_nat a) (Z.of_nat (a + k)) m n in
  List.concat (tokens_of requests <$> cs) = seqZ (token_offset requests (Z.of_nat a)) m /\
  Forall (fun c => proper requests c /\ within workspace_size max_logits_elems requests c) cs.
Proof.
  intros taken Hnn Hk1 Hk Hm Hn Hfit.
  assert (Forall (fun r => 0 <= r.1 /\ 0 <= r.2) taken) as Htaken by (apply Forall_take, Forall_drop, Hnn).
  assert (0 <= m /\ 0 <= n) as [Hm0 Hn0].
  { subst m n. split; apply zsum_nonneg, Forall_fmap; eapply Forall_impl; try exact Htaken; intros ? [? ?]; done. }
  set (w := if 0 <? n then Z.max 1 (max_logits_elems / n) else Z.max 1 m).
  assert (0 < w) as Hw by (unfold w; destruct (0 <? n); lia).
  assert (keys_of requests (Z.of_nat a) (Z.of_nat (a + k)) = n) as Hkeys.
  { unfold keys_of. replace (Z.to_nat (Z.of_nat (a + k) - Z.of_nat a)) with k by lia. by rewrite Nat2Z.id. }
  assert (token_offset requests (Z.of_nat (a + k)) = token_offset requests (Z.of_nat a) + m) as Hoff.
  { unfold token_offset. rewrite !Nat2Z.id, Hm, <- zsum_app, <- fmap_app. unfold taken. by rewrite take_take_drop. }
  intros cs. unfold cs, IndexerChunks.sub_chunks. fold w. cbn zeta. split.
  - rewrite <- list_fmap_compose. unfold compose, tokens_of. cbn [req_start query_start query_stop].
    erewrite list_fmap_ext; [apply pieces_tile; [exact Hm0|exact Hw]|]. intros j i Hi. simpl. f_equal. lia.
  - apply Forall_fmap, Forall_forall. intros i [Hi1 Hi2]%elem_of_seqZ. rewrite Z.add_0_l in Hi2.
    assert (i * w < m) as Hiw.
    { pose proof (Z.div_mod (- m) w ltac:(lia)). pose proof (Z.mod_pos_bound (- m) w Hw). nia. }
    unfold proper, within. cbn [compose req_start req_stop query_start query_stop]. rewrite Hkeys, Hoff.
    set (mm := i * w + Z.min w (m - i * w) - i * w). assert (1 <= mm <= w /\ mm <= m) as (Hmm & Hmm2) by (unfold mm; nia).
    split; [split; [lia|]; split; [lia|]; split; [nia|lia]|]. split; [lia|]. split.
    + unfold w in Hmm. destruct (Z.ltb_spec 0 n) as [Hpos|Hz]; [|left; nia].
      destruct (Z.le_gt_cases (max_logits_elems / n) 1) as [Hle|Hgt]; [right; lia|]. left.
      pose proof (Z.mul_div_le max_logits_elems n Hpos). nia.
    + destruct Hfit as [->|[Hf1 Hf2]]; [right; lia|left; split; [done|]]. nia.
Qed.

Lemma chunks_run requests fuel a :
  Forall (fun r => 0 <= r.1 /\ 0 <= r.2) requests -> (a <= List.length requests)%nat ->
  (List.length requests - a <= fuel)%nat ->
  exists cs, chunks_from workspace_size max_logits_bytes 0 fuel (Z.of_nat a) (drop a requests) = Ok cs /\
    List.concat (tokens_of requests <$> cs) = seqZ (token_offset requests (Z.of_nat a)) (zsum (drop a requests).*1) /\
    Forall (fun c => proper requests c /\ within workspace_size max_logits_elems requests c) cs.
Proof.
  intros Hnn. revert a. induction fuel as [|fuel IH]; intros a Ha Hfuel.
  - rewrite drop_ge by lia. by exists [].
  - destruct (drop a requests) as [|[q s] rest] eqn:Hrest; [by exists []|].
    pose proof (round_spec q s rest) as Hround. cbn [chunks_from].
    destruct (grow 0 0 ((q, s) :: rest)) as [[m0 n0] k0]. destruct (if Nat.eqb k0 0 then _ else _) as [[m n] k].
    rewrite <- Hrest in *. destruct Hround as (Hk & Hm & Hn & Hfit).
    assert (List.length (drop a requests) = S (List.length rest)) as Hlen by (rewrite Hrest; done). rewrite length_drop in Hlen.
    destruct (IH (a + k)%nat) as (cs & Hcs & Htok & Hall); [lia|lia|].
    destruct (sub_chunks_spec requests a k m n Hnn) as (Htok1 & Hall1); [lia|lia|done..|].
    rewrite drop_drop. replace (Z.of_nat a + Z.of_nat k) with (Z.of_nat (a + k)) by lia. rewrite Hcs. cbn [rbind].
    eexists. split; [done|]. rewrite !Z.add_0_r. split; [|by apply Forall_app].
    rewrite fmap_app, List.concat_app, Htok1, Htok.
    assert (zsum (drop a requests).*1 = m + zsum (drop (a + k) requests).*1) as ->.
    { rewrite Hm, <- zsum_app, <- fmap_app, <- drop_drop. by rewrite take_drop. }
    assert (token_offset requests (Z.of_nat (a + k)) = token_offset requests (Z.of_nat a) + m) as ->.
    { unfold token_offset. rewrite !Nat2Z.id, Hm, <- zsum_app, <- fmap_app. by rewrite take_take_drop. }
    symmetry. apply seqZ_app.
    + rewrite Hm. apply zsum_nonneg, Forall_fmap. eapply Forall_impl; [by apply Forall_take, Forall_drop|]. by intros ? [? ?].
    + apply zsum_nonneg, Forall_fmap. eapply Forall_impl; [by apply Forall_drop|]. by intros ? [? ?].
Qed.

Definition shift_requests (o : Z) (c : chunk) : chunk := mkChunk (req_start c + o) (req_stop c + o) (query_start c) (query_stop c).

Lemma chunks_shift o fuel start requests cs :
  chunks_from workspace_size max_logits_bytes 0 fuel start requests = Ok cs ->
  chunks_from workspace_size max_logits_bytes o fuel start requests = Ok (shift_requests o <$> cs).
Proof.
  revert start requests cs. induction fuel as [|fuel IH]; intros start requests cs; destruct requests as [|[q s] requests];
    cbn [chunks_from]; try (by intros [= <-]).
  destruct (grow 0 0 _) as [[m0 n0] k0]. destruct (if Nat.eqb k0 0 then _ else _) as [[m n] k].
  destruct (chunks_from _ _ 0 fuel _ _) as [rest|e] eqn:Hrest; [|done]. rewrite (IH _ _ _ Hrest). cbn [rbind].
  intros [= <-]. f_equal. rewrite fmap_app. f_equal. unfold IndexerChunks.sub_chunks. rewrite <- list_fmap_compose.
  apply list_fmap_ext. intros j i _. unfold shift_requests. simpl. by rewrite !Z.add_0_r.
Qed.

End Cover.

Lemma split_tiles workspace_size max_logits_bytes request_offset requests :
  0 <= max_logits_bytes -> Forall (fun r => 0 <= r.1 /\ 0 <= r.2) requests ->
  exists cs, split_indexer_prefill_chunks workspace_size max_logits_bytes request_offset requests
               = Ok (shift_requests request_offset <$> cs) /\
    List.concat (tokens_of requests <$> cs) = seqZ 0 (zsum requests.*1) /\
    Forall (fun c => proper requests c /\ within workspace_size (max_logits_bytes / 4) requests c) cs.
Proof.
  intros Hlimit Hnn. unfold split_indexer_prefill_chunks.
  destruct (chunks_run workspace_size max_logits_bytes ltac:(apply Z.div_pos; lia) requests (List.length requests) 0 Hnn)
    as (cs & Hcs & Htok & Hall); [lia|lia|].
  exists cs. split; [by apply chunks_shift|]. split; [|done]. by rewrite Htok.
Qed.

(** C38 (chunks tile): for any offset of the requests, the split succeeds, and the
    query slices of its chunks are, in order, all query tokens of the prefill
    without gap or overlap; every chunk is nonempty and keeps to its requests; and
    it fits the workspace and the logits budget, unless it is a single request,
    which is then cut to the budget or to one token. *)
Theorem prefill_chunks_tile workspace_size max_logits_bytes request_offset requests :
  0 <= max_logits_bytes -> Forall (fun r => 0 <= r.1 /\ 0 <= r.2) requests ->
  exists cs, split_indexer_prefill_chunks workspace_size max_logits_bytes request_offset requests
               = Ok (shift_requests request_offset <$> cs) /\
    List.concat (tokens_of requests <$> cs) = seqZ 0 (zsum requests.*1) /\
    Forall (fun c => proper requests c /\ within workspace_size (max_logits_bytes / 4) requests c) cs.
Proof. apply split_tiles. Qed.

(** Three requests in a workspace of twelve keys and a budget of forty logits: the
    first two share a chunk, the third is cut into slices of two tokens. *)
Lemma prefill_chunks_tile_witness :
  split_indexer_prefill_chunks 12 160 5 [(2, 4); (2, 5); (5, 20)] =
    Ok [mkChunk 5 7 0 4; mkChunk 7 8 0 2; mkChunk 7 8 2 4; mkChunk 7 8 4 5] /\
  exists cs, List.concat (tokens_of [(2, 4); (2, 5); (5, 20)] <$> cs) = seqZ 0 9.
Proof.
  split; [vm_compute; reflexivity|].
  destruct (prefill_chunks_tile 12 160 5 [(2, 4); (2, 5); (5, 20)] ltac:(lia) ltac:(repeat constructor; simpl; lia))
    as (cs & _ & Htok & _).
  exists cs. exact Htok.
Defined.
