(* ===== verification/IndexerRows.v ===== *)
(** * Sparse indexer: rows of a prefill chunk

    [build_prefill_chunk_metadata] and its kernel
    ([vllm/v1/attention/backends/mla/indexer.py]): for every query token of a chunk
    the range of gathered keys it may attend to on this rank, when the keys of a
    request are dealt out to the ranks of a decode-context group.  A kernel is the
    list of its stores; a store outside its buffer is a fault. *)
From S2P Require Export IndexerChunks.

(** ** Keys dealt out to ranks *)

(** The rank that owns position [p], in runs of [interleave]. *)
Definition owner (world interleave p : Z) : Z := p / interleave mod world.

(** The kernel's number of keys of a rank among the first [len] positions. *)
Definition dcp_local_len (world rank interleave len : Z) : Z :=
  let base := len / interleave / world * interleave in
  let remainder := len - base * world in
  base + Z.min (Z.max (remainder - rank * interleave) 0) interleave.

Definition owned (world interleave rank len : Z) : list Z :=
  List.filter (fun p => owner world interleave p =? rank) (seqZ 0 len).

Lemma local_len_succ world rank interleave len :
  0 < world -> 0 < interleave -> 0 <= rank < world -> 0 <= len ->
  dcp_local_len world rank interleave (len + 1) =
    dcp_local_len world rank interleave len + (if owner world interleave len =? rank then 1 else 0).
Proof.
  intros Hw Hk Hr Hlen. set (q := len / interleave). set (c := len mod interleave).
  set (a := q / world). set (b := q mod world).
  assert (len = q * interleave + c /\ 0 <= c < interleave) as [Hl Hc]
    by (unfold q, c; pose proof (Z.div_mod len interleave ltac:(lia)); pose proof (Z.mod_pos_bound len interleave Hk); lia).
  assert (q = a * world + b /\ 0 <= b < world) as [Hq Hb]
    by (unfold a, b; pose proof (Z.div_mod q world ltac:(lia)); pose proof (Z.mod_pos_bound q world Hw); lia).
  unfold dcp_local_len, owner. fold q. fold a b.
  assert ((len + 1) / interleave = if c + 1 =? interleave then q + 1 else q) as ->.
  { destruct (Z.eqb_spec (c + 1) interleave); symmetry; apply (Z.div_unique _ _ _ (if c + 1 =? interleave then 0 else c + 1));
      destruct (Z.eqb_spec (c + 1) interleave); lia. }
  assert ((q + 1) / world = if b + 1 =? world then a + 1 else a) as Hdiv.
  { destruct (Z.eqb_spec (b + 1) world); symmetry; apply (Z.div_unique _ _ _ (if b + 1 =? world then 0 else b + 1));
      destruct (Z.eqb_spec (b + 1) world); lia. }
  assert (len - a * interleave * world = b * interleave + c) as Hrem by (rewrite Hl, Hq; ring).
  destruct (Z.eqb_spec (c + 1) interleave) as [Hc1|Hc1].
  - rewrite Hdiv. destruct (Z.eqb_spec (b + 1) world) as [Hb1|Hb1].
    + replace (len + 1 - (a + 1) * interleave * world) with 0 by (rewrite Hl, Hq; nia).
      rewrite Hrem. destruct (Z.eqb_spec b rank); nia.
    + replace (len + 1 - a * interleave * world) with (b * interleave + c + 1) by lia.
      rewrite Hrem. destruct (Z.eqb_spec b rank); nia.
  - fold a. replace (len + 1 - a * interleave * world) with (b * interleave + c + 1) by lia.
    rewrite Hrem. destruct (Z.eqb_spec b rank); nia.
Qed.

(** The formula counts the positions of the rank. *)
Lemma local_len_owned world rank interleave len :
  0 < world -> 0 < interleave -> 0 <= rank < world -> 0 <= len ->
  dcp_local_len world rank interleave len = Z.of_nat (List.length (owned world interleave rank len)).
Proof.
  intros Hw Hk Hr. revert len. refine (natlike_ind _ _ _).
  - unfold dcp_local_len, owned. rewrite !Z.div_0_l by lia. change (seqZ 0 0) with ([] : list Z). simpl. nia.
  - intros len Hlen IH. rewrite <- Z.add_1_r, local_len_succ, IH by done. unfold owned.
    rewrite seqZ_app, List.filter_app, length_app by lia. simpl. replace (Z.of_nat 0 + (0 + len)) with len by lia.
    destruct (owner world interleave len =? rank); simpl; lia.
Qed.

(** ** Buffers *)

Definition store {A} (a : list A) (i : Z) (v : A) : option (list A) :=
  if (0 <=? i) && (i <? Z.of_nat (List.length a)) then Some (<[Z.to_nat i := v]> a) else None.
Definition at_ (a : list Z) (i : Z) : Z := a !!! Z.to_nat i.

Fixpoint store_all {A} (writes : list (Z * A)) (a : list A) : option (list A) :=
  match writes with
  | [] => Some a
  | (i, v) :: writes => match store a i v with Some a => store_all writes a | None => None end
  end.

(** Stores in bounds, of which no two give one index different values. *)
Lemma store_all_spec writes a :
  Forall (fun w => 0 <= w.1 < Z.of_nat (List.length a)) writes ->
  (forall i v v', (i, v) ∈ writes -> (i, v') ∈ writes -> v = v') ->
  exists a', store_all writes a = Some a' /\ List.length a' = List.length a /\ (forall i v, (i, v) ∈ writes -> at_ a' i = v).
Proof.
  intros Hall Hsame.
  enough (exists a', store_all writes a = Some a' /\ List.length a' = List.length a /\
    forall i v, (i, v) ∈ writes \/ at_ a i = v /\ i ∉ writes.*1 /\ 0 <= i -> at_ a' i = v) as (a' & H1 & H2 & H3)
    by (exists a'; split; [done|]; split; [done|]; intros i v Hin; apply H3; by left).
  revert a Hall. induction writes as [|[i v] writes IH]; intros a Hall.
  - exists a. split; [done|]. split; [done|]. intros i v [?%elem_of_nil|(? & _)]; done.
  - apply Forall_cons in Hall as [Hi Hall]. cbn [fst] in *. simpl. unfold store.
    rewrite (proj2 (Z.leb_le 0 i)), (proj2 (Z.ltb_lt i _)) by lia. cbn [andb].
    destruct (IH (fun j u u' H1 H2 => Hsame j u u' (list_elem_of_further _ _ _ H1) (list_elem_of_further _ _ _ H2)) (<[Z.to_nat i:=v]> a))
      as (a' & Ha & Hlen & Hval).
    { rewrite length_insert. done. }
    rewrite length_insert in Hlen. exists a'. split; [done|]. split; [done|]. csimpl. intros k u [Hin|(Hk & Hout & Hk0)].
    + apply elem_of_cons in Hin as [[= -> ->]|Hin]; [|apply Hval; by left].
      destruct (decide (i ∈ writes.*1)) as [Hw|Hw].
      * apply list_elem_of_fmap in Hw as ([j u] & Hj & Hw). cbn in Hj. subst j. rewrite (Hval i u) by (by left).
        apply (Hsame i); apply elem_of_cons; [by right|by left].
      * apply Hval. right. split; [|split; [done|lia]]. unfold at_. apply list_lookup_total_insert_eq. lia.
    + apply not_elem_of_cons in Hout as [Hki Hout]. apply Hval. right. split; [|done]. rewrite <- Hk. unfold at_.
      apply list_lookup_total_insert_ne. lia.
Qed.

(** ** Cumulative sums *)

Definition cumsum (l : list Z) : list Z := (fun i => zsum (take i l)) <$> seq 0 (S (List.length l)).
Definition before (l : list Z) (i : Z) : Z := zsum (take (Z.to_nat i) l).

Lemma at_cumsum l i : 0 <= i <= Z.of_nat (List.length l) -> at_ (cumsum l) i = before l i.
Proof.
  intros Hi. unfold at_, cumsum, before. apply list_lookup_total_correct. rewrite list_lookup_fmap, lookup_seq_lt by lia. done.
Qed.

Lemma before_succ l i : 0 <= i < Z.of_nat (List.length l) -> before l (i + 1) = before l i + at_ l i.
Proof.
  intros Hi. unfold before, at_. replace (Z.to_nat (i + 1)) with (S (Z.to_nat i)) by lia.
  destruct (lookup_lt_is_Some_2 l (Z.to_nat i)) as [x Hx]; [lia|].
  rewrite (take_S_r _ _ _ Hx), zsum_app, (list_lookup_total_correct _ _ _ Hx). simpl. lia.
Qed.

Lemma before_mono l i j : Forall (fun x => 0 <= x) l -> 0 <= i <= j -> before l i <= before l j.
Proof.
  intros Hl Hij. unfold before. replace (Z.to_nat j) with (Z.to_nat i + Z.to_nat (j - i))%nat by lia.
  rewrite <- take_take_drop, zsum_app. enough (0 <= zsum (take (Z.to_nat (j - i)) (drop (Z.to_nat i) l))) by lia.
  by apply zsum_nonneg, Forall_take, Forall_drop.
Qed.

Lemma before_all l i : Z.of_nat (List.length l) <= i -> before l i = zsum l.
Proof. intros Hi. unfold before. by rewrite take_ge by lia. Qed.

(** A point lies in one segment. *)
Lemma one_segment l x i j :
  Forall (fun x => 0 <= x) l -> 0 <= i -> 0 <= j ->
  before l i <= x < before l (i + 1) -> before l j <= x < before l (j + 1) -> i = j.
Proof.
  intros Hl Hi Hj Hxi Hxj. destruct (Z.lt_trichotomy i j) as [Hlt|[->|Hgt]]; [|done|].
  - pose proof (before_mono l (i + 1) j Hl ltac:(lia)). lia.
  - pose proof (before_mono l (j + 1) i Hl ltac:(lia)). lia.
Qed.

(** ** The kernel *)

(** [range(0, n, BLOCK_SIZE)] with the lanes of each block. *)
Definition lanes (n BLOCK_SIZE : Z) : list Z := seqZ 0 (- (- n / BLOCK_SIZE)) ≫= fun i => seqZ (i * BLOCK_SIZE) BLOCK_SIZE.

Lemma elem_of_lanes n B x : 0 < B -> 0 <= x < n -> x ∈ lanes n B.
Proof.
  intros HB Hx. apply list_elem_of_bind. exists (x / B). pose proof (Z.div_mod x B ltac:(lia)). pose proof (Z.mod_pos_bound x B HB).
  rewrite !elem_of_seqZ. split; [lia|]. split; [apply Z.div_pos; lia|].
  pose proof (Z.div_mod (- n) B ltac:(lia)). pose proof (Z.mod_pos_bound (- n) B HB). nia.
Qed.

Lemma lanes_nonneg n B x : 0 < B -> x ∈ lanes n B -> 0 <= x.
Proof. intros HB (i & Hx%elem_of_seqZ & Hi%elem_of_seqZ)%list_elem_of_bind. nia. Qed.

Record kernel_args := mkArgs {
  query_start_loc : list Z;
  uncompressed_seq_lens : list Z;
  cu_compressed_seq_lens : list Z;
  row_start_cu_compressed_seq_lens : list Z;
  query_slice_start : Z;
  query_slice_stop : Z;
  DCP_RANK : Z;
  DCP_WORLD : Z;
  DCP_INTERLEAVE : Z;
  BLOCK_SIZE : Z;
  COMPRESS_RATIO : Z
}.

Section Kernel.
Context (k : kernel_args).

(** The per-token length on this rank. *)
Definition len_per_token (global_ctx : Z) : Z :=
  let len := global_ctx / COMPRESS_RATIO k in
  if 1 <? DCP_WORLD k then dcp_local_len (DCP_WORLD k) (DCP_RANK k) (DCP_INTERLEAVE k) len else len.

(** The stores of program [batch_idx] to the row starts and row ends: for each lane
    inside the query slice, position and value. *)
Definition row_stores (value : Z -> Z -> Z) (batch_idx : Z) : list (Z * Z) :=
  let query_start := at_ (query_start_loc k) batch_idx in
  let query_len := at_ (query_start_loc k) (batch_idx + 1) - query_start in
  omap (fun offset =>
    let abs_pos := query_start + offset in
    if (offset <? query_len) && (query_slice_start k <=? abs_pos) && (abs_pos <? query_slice_stop k)
    then Some (abs_pos - query_slice_start k, value batch_idx offset) else None) (lanes query_len (BLOCK_SIZE k)).

Definition ks_value (batch_idx _ : Z) : Z := at_ (row_start_cu_compressed_seq_lens k) batch_idx.
Definition ke_value (batch_idx offset : Z) : Z :=
  let query_len := at_ (query_start_loc k) (batch_idx + 1) - at_ (query_start_loc k) batch_idx in
  let start_pos := at_ (uncompressed_seq_lens k) batch_idx - query_len in
  at_ (row_start_cu_compressed_seq_lens k) batch_idx + len_per_token (start_pos + 1 + offset).

Definition seq_stores (batch_idx : Z) : list (Z * Z) :=
  let seq_start := at_ (cu_compressed_seq_lens k) batch_idx in
  let compressed_seq_len := at_ (cu_compressed_seq_lens k) (batch_idx + 1) - seq_start in
  omap (fun offset => if offset <? compressed_seq_len then Some (seq_start + offset, batch_idx) else None)
    (lanes compressed_seq_len (BLOCK_SIZE k)).

(** All programs of the grid, on the three outputs. *)
Definition kernel (num_reqs : Z) (token_to_seq ks ke : list Z) : option (list Z * list Z * list Z) :=
  match store_all (seqZ 0 num_reqs ≫= seq_stores) token_to_seq,
        store_all (seqZ 0 num_reqs ≫= row_stores ks_value) ks,
        store_all (seqZ 0 num_reqs ≫= row_stores ke_value) ke with
  | Some token_to_seq, Some ks, Some ke => Some (token_to_seq, ks, ke)
  | _, _, _ => None
  end.

End Kernel.

(** ** The metadata of a chunk *)

(** [get_dcp_local_seq_lens], which is not in the repository: the keys of one rank or, as a row for
    each request, of all ranks. *)
Class CpUtils := {
  get_dcp_local_seq_lens (seq_lens : list Z) (world rank interleave : Z) : list Z;
  get_dcp_local_seq_lens_all (seq_lens : list Z) (world interleave : Z) : list (list Z)
}.
Class CpUtilsLaws `{CpUtils} := {
  local_lens_law seq_lens world rank interleave :
    0 < world -> 0 < interleave -> 0 <= rank < world -> Forall (fun s => 0 <= s) seq_lens ->
    get_dcp_local_seq_lens seq_lens world rank interleave
      = (fun s => Z.of_nat (List.length (owned world interleave rank s))) <$> seq_lens;
  local_lens_all_law seq_lens world interleave :
    0 < world -> 0 < interleave -> Forall (fun s => 0 <= s) seq_lens ->
    get_dcp_local_seq_lens_all seq_lens world interleave
      = (fun s => (fun rank => Z.of_nat (List.length (owned world interleave rank s))) <$> seqZ 0 world) <$> seq_lens
}.

Record indexer_env := mkEnv { use_b12x_sparse_indexer : bool; dcp_global_topk : bool; junk : Z }.

Record prefill_metadata := mkPrefill {
  cu_seqlen_ks : list Z;
  cu_seqlen_ke : list Z;
  cu_seq_lens : list Z;
  token_to_seq : list Z;
  total_seq_lens : Z;
  block_table : list (list Z);
  token_start : Z;
  token_end : Z;
  num_reqs : Z;
  skip_kv_gather : bool;
  local_cu_seq_lens : list Z;
  local_total_seq_lens : Z;
  max_local_total_seq_lens : Z
}.

Definition slice {A} (a b : Z) (l : list A) : list A := take (Z.to_nat (b - a)) (drop (Z.to_nat a) l).
Definition zmax (l : list Z) : Z := foldr Z.max (default 0 (head l)) l.

Section Build.
Context `{CpUtils} (env : indexer_env) (dcp_rank dcp_world_size cp_kv_cache_interleave_size : Z).

(** [Some None] when there is nothing to score, [None] when a store is out of
    bounds; [uninit] memory holds [junk]. *)
Definition build_prefill_chunk_metadata (start_idx end_idx : Z) (q_start_loc q_start_loc_cpu uncompressed compressed
    compressed_cpu : list Z) (table : list (list Z)) (compress_ratio : Z) (query_slice : option (Z * Z)) (skip : bool)
    : option (option prefill_metadata) :=
  let total := zsum (slice start_idx end_idx compressed_cpu) in
  let keep_empty_dcp_chunk := use_b12x_sparse_indexer env && (1 <? dcp_world_size) && dcp_global_topk env in
  if (total =? 0) && negb keep_empty_dcp_chunk then Some None
  else
    let n := end_idx - start_idx in
    let cu := cumsum (slice start_idx end_idx compressed) in
    let local_seq_lens := get_dcp_local_seq_lens_all (slice start_idx end_idx compressed) dcp_world_size cp_kv_cache_interleave_size in
    let local_cu := if 1 <? dcp_world_size then cumsum ((fun row => at_ row dcp_rank) <$> local_seq_lens) else cu in
    let local_total := if 1 <? dcp_world_size then at_ local_cu n else total in
    let max_local_total :=
      if 1 <? dcp_world_size then zmax ((fun r => zsum ((fun row => at_ row r) <$> local_seq_lens)) <$> seqZ 0 dcp_world_size)
      else total in
    let start_loc := (fun x => x - at_ q_start_loc start_idx) <$> slice start_idx (end_idx + 1) q_start_loc in
    let total_query_len := at_ q_start_loc_cpu end_idx - at_ q_start_loc_cpu start_idx in
    let '(qs_start, qs_stop) := match query_slice with Some (a, b) => (a, b) | None => (0, total_query_len) end in
    let empty size := replicate (Z.to_nat size) (junk env) in
    let args := mkArgs start_loc (slice start_idx end_idx uncompressed) cu local_cu qs_start qs_stop dcp_rank dcp_world_size
                  cp_kv_cache_interleave_size 1024 compress_ratio in
    match kernel args n (empty total) (empty (qs_stop - qs_start)) (empty (qs_stop - qs_start)) with
    | None => None
    | Some (to_seq, ks, ke) =>
        let first := at_ q_start_loc_cpu start_idx in
        let '(t_start, t_end, skip) :=
          match query_slice with
          | Some _ => (first + qs_start, first + qs_stop, skip || (0 <? qs_start))
          | None => (first, at_ q_start_loc_cpu end_idx, skip)
          end in
        Some (Some (mkPrefill ks ke cu to_seq total (slice start_idx end_idx table) t_start t_end n skip local_cu local_total
                      max_local_total))
    end.

End Build.

(** ** Lists and their slices *)

Lemma length_slice {A} a b (l : list A) : 0 <= a <= b -> b <= Z.of_nat (List.length l) -> Z.of_nat (List.length (slice a b l)) = b - a.
Proof. intros Hab Hb. unfold slice. rewrite length_take, length_drop. lia. Qed.

Lemma at_slice a b l i : 0 <= a -> 0 <= i < b - a -> at_ (slice a b l) i = at_ l (a + i).
Proof.
  intros Ha Hi. unfold at_, slice. rewrite !list_lookup_total_alt, lookup_take_lt, lookup_drop by lia. do 3 f_equal. lia.
Qed.

Lemma before_slice a b l i : 0 <= a -> 0 <= i <= b - a -> before (slice a b l) i = before l (a + i) - before l a.
Proof.
  intros Ha Hi. unfold before, slice. rewrite take_take. replace (Z.to_nat i `min` Z.to_nat (b - a))%nat with (Z.to_nat i) by lia.
  replace (Z.to_nat (a + i)) with (Z.to_nat a + Z.to_nat i)%nat by lia. rewrite <- take_take_drop, zsum_app. lia.
Qed.

Lemma Forall_slice {A} (P : A -> Prop) a b l : Forall P l -> Forall P (slice a b l).
Proof. intros Hl. by apply Forall_take, Forall_drop. Qed.

Lemma at_fmap (f : Z -> Z) l i : 0 <= i < Z.of_nat (List.length l) -> at_ (f <$> l) i = f (at_ l i).
Proof.
  intros Hi. destruct (lookup_lt_is_Some_2 l (Z.to_nat i)) as [x Hx]; [lia|]. unfold at_.
  rewrite (list_lookup_total_correct l _ _ Hx). apply list_lookup_total_correct. by rewrite list_lookup_fmap, Hx.
Qed.

(** ** What the kernel writes *)
Section KernelSpec.
Context (k : kernel_args) (Q C : list Z) (n : Z).
Context (HQ : Forall (fun x => 0 <= x) Q) (HC : Forall (fun x => 0 <= x) C).
Context (HlQ : Z.of_nat (List.length Q) = n) (HlC : Z.of_nat (List.length C) = n).
Context (Hq : forall i, 0 <= i <= n -> at_ (query_start_loc k) i = before Q i).
Context (Hc : forall i, 0 <= i <= n -> at_ (cu_compressed_seq_lens k) i = before C i).
Context (HB : 0 < BLOCK_SIZE k).
Notation qss := (query_slice_start k).
Notation qse := (query_slice_stop k).

Lemma row_store_elem value b i v :
  0 <= b < n -> (i, v) ∈ row_stores k value b <->
  exists offset, 0 <= offset < at_ Q b /\ i = before Q b + offset - qss /\ v = value b offset /\ qss <= before Q b + offset < qse.
Proof.
  intros Hb. unfold row_stores. rewrite !Hq by lia. rewrite before_succ by lia.
  rewrite list_elem_of_omap. split.
  - intros (o & Ho%lanes_nonneg & Heq); [|done]. destruct (_ && _) eqn:Hm; [|done]. injection Heq as <- <-. exists o. lia.
  - intros (o & Ho & -> & -> & Hin). exists o. split; [apply elem_of_lanes; lia|].
    rewrite !(proj2 (Z.ltb_lt _ _)), (proj2 (Z.leb_le _ _)) by lia. done.
Qed.

Lemma seq_store_elem b p v :
  0 <= b < n -> (p, v) ∈ seq_stores k b <-> v = b /\ before C b <= p < before C (b + 1).
Proof.
  intros Hb. unfold seq_stores. rewrite !Hc by lia. rewrite before_succ by lia. rewrite list_elem_of_omap. split.
  - intros (o & Ho%lanes_nonneg & Heq); [|done]. destruct (o <? _) eqn:Hm; [|done]. injection Heq as <- <-. lia.
  - intros [-> Hp]. exists (p - before C b). split; [apply elem_of_lanes; lia|].
    rewrite (proj2 (Z.ltb_lt _ _)) by lia. do 2 f_equal. lia.
Qed.

Lemma rows_written value out :
  0 <= qss -> Z.of_nat (List.length out) = qse - qss ->
  exists out', store_all (seqZ 0 n ≫= row_stores k value) out = Some out' /\ List.length out' = List.length out /\
    forall b offset, 0 <= b < n -> 0 <= offset < at_ Q b -> qss <= before Q b + offset < qse ->
      at_ out' (before Q b + offset - qss) = value b offset.
Proof.
  intros Hs Hlen. destruct (store_all_spec (seqZ 0 n ≫= row_stores k value) out) as (out' & H1 & H2 & H3).
  - apply Forall_forall. intros [i v] (b & Hin & Hb%elem_of_seqZ)%list_elem_of_bind.
    apply row_store_elem in Hin as (o & Ho & -> & -> & Hr); [|lia]. cbn [fst]. lia.
  - intros i v v' (b & Hin & Hb%elem_of_seqZ)%list_elem_of_bind (b' & Hin' & Hb'%elem_of_seqZ)%list_elem_of_bind.
    apply row_store_elem in Hin as (o & Ho & -> & -> & Hr); [|lia].
    apply row_store_elem in Hin' as (o' & Ho' & Heq & -> & Hr'); [|lia].
    assert (b = b') as <-; [|f_equal; lia].
    apply (one_segment Q (before Q b + o)); [done|lia|lia|rewrite before_succ; lia|rewrite before_succ; lia].
  - exists out'. split; [done|]. split; [done|]. intros b o Hb Ho Hr. apply H3. apply list_elem_of_bind. exists b.
    split; [|apply elem_of_seqZ; lia]. apply row_store_elem; [done|]. by exists o.
Qed.

Lemma seqs_written out :
  before C n <= Z.of_nat (List.length out) ->
  exists out', store_all (seqZ 0 n ≫= seq_stores k) out = Some out' /\ List.length out' = List.length out /\
    forall b p, 0 <= b < n -> before C b <= p < before C (b + 1) -> at_ out' p = b.
Proof.
  intros Hlen. destruct (store_all_spec (seqZ 0 n ≫= seq_stores k) out) as (out' & H1 & H2 & H3).
  - apply Forall_forall. intros [p v] (b & Hin & Hb%elem_of_seqZ)%list_elem_of_bind.
    apply seq_store_elem in Hin as [-> Hp]; [|lia]. cbn [fst].
    pose proof (before_mono C (b + 1) n HC ltac:(lia)). pose proof (before_mono C 0 b HC ltac:(lia)).
    change (before C 0) with 0 in *. lia.
  - intros p v v' (b & Hin & Hb%elem_of_seqZ)%list_elem_of_bind (b' & Hin' & Hb'%elem_of_seqZ)%list_elem_of_bind.
    apply seq_store_elem in Hin as [-> Hp]; [|lia]. apply seq_store_elem in Hin' as [-> Hp']; [|lia].
    apply (one_segment C p); [done|lia|lia|done|done].
  - exists out'. split; [done|]. split; [done|]. intros b p Hb Hp. apply H3. apply list_elem_of_bind. exists b.
    split; [|apply elem_of_seqZ; lia]. by apply seq_store_elem.
Qed.

End KernelSpec.

(** ** The rows of a chunk *)

(** The keys this rank has of a context of [len] positions. *)
Definition share (world interleave rank len : Z) : Z := Z.of_nat (List.length (owned world interleave rank len)).

Lemma owned_all interleave len : 0 <= len -> share 1 interleave 0 len = len.
Proof.
  intros Hlen. unfold share, owned. rewrite (forallb_filter_id (fun p => owner 1 interleave p =? 0)).
  - rewrite length_seqZ. lia.
  - apply forallb_forall. intros p _. unfold owner. by rewrite Z.mod_1_r.
Qed.

Lemma share_partition world interleave len :
  0 < world -> 0 < interleave -> 0 <= len ->
  zsum ((fun rank => share world interleave rank len) <$> seqZ 0 world) = len.
Proof.
  intros Hw Hk. revert len. refine (natlike_ind _ _ _).
  - assert (forall l : list Z, zsum ((fun rank => share world interleave rank 0) <$> l) = 0) as Hz by (induction l; done).
    apply Hz.
  - intros len Hlen IH. set (o := owner world interleave len).
    assert (0 <= o < world) as Ho by (apply Z.mod_pos_bound; done).
    assert (forall r, share world interleave r (Z.succ len) = share world interleave r len + (if o =? r then 1 else 0)) as Hstep.
    { intros r. unfold share, owned. rewrite <- Z.add_1_r, seqZ_app, List.filter_app, length_app by lia. simpl.
      replace (Z.of_nat 0 + (0 + len)) with len by lia. fold o. destruct (o =? r); simpl; lia. }
    erewrite (list_fmap_ext _ (fun r => share world interleave r len + (if o =? r then 1 else 0))) by (intros; apply Hstep).
    assert (forall l : list Z, zsum ((fun r => share world interleave r len + (if o =? r then 1 else 0)) <$> l)
      = zsum ((fun r => share world interleave r len) <$> l) + zsum ((fun r => if o =? r then 1 else 0) <$> l)) as Hsplit.
    { induction l as [|x l IHl]; csimpl; [done|]. rewrite IHl. lia. }
    rewrite Hsplit, IH. f_equal. clear -Ho.
    enough (forall k, 0 <= k -> zsum ((fun r => if o =? r then 1 else 0) <$> seqZ 0 k) = if o <? k then 1 else 0) as Hk
      by (rewrite Hk by lia; by rewrite (proj2 (Z.ltb_lt _ _)) by lia).
    refine (natlike_ind _ _ _); [by rewrite (proj2 (Z.ltb_ge _ _)) by lia|]. intros k Hk IH.
    rewrite <- Z.add_1_r, seqZ_app, fmap_app, zsum_app, IH by lia. simpl. replace (Z.of_nat 0 + (0 + k)) with k by lia.
    destruct (Z.ltb_spec o k), (Z.ltb_spec o (k + 1)), (Z.eqb_spec o k); lia.
Qed.

Section Rows.
Context `{CpUtilsLaws} (env : indexer_env) (world rank interleave : Z).
Context (Hworld : 0 < world) (Hrank : 0 <= rank < world) (Hint : 0 < interleave).

Lemma local_starts C i :
  Forall (fun s => 0 <= s) C -> 0 <= i <= Z.of_nat (List.length C) ->
  at_ (if 1 <? world then cumsum ((fun row => at_ row rank) <$> get_dcp_local_seq_lens_all C world interleave) else cumsum C) i
    = before (share world interleave rank <$> C) i.
Proof.
  intros HC Hi. destruct (Z.ltb_spec 1 world) as [Hw|Hw].
  - rewrite local_lens_all_law by done. rewrite <- list_fmap_compose. unfold compose.
    erewrite (list_fmap_ext _ (share world interleave rank)); [apply at_cumsum; rewrite length_fmap; lia|].
    intros j s _. unfold at_. apply list_lookup_total_correct. rewrite list_lookup_fmap, lookup_seqZ_lt by lia. cbn [fmap option_fmap option_map]. by replace (0 + Z.of_nat (Z.to_nat rank)) with rank by lia.
  - replace rank with 0 by lia. replace world with 1 by lia. rewrite at_cumsum by done. f_equal.
    rewrite <- (list_fmap_id C) at 1. apply list_fmap_ext. intros j s Hs. symmetry. apply owned_all.
    rewrite Forall_lookup in HC. by eapply HC.
Qed.

Lemma len_per_token_share k x :
  DCP_WORLD k = world -> DCP_RANK k = rank -> DCP_INTERLEAVE k = interleave -> 0 <= x / COMPRESS_RATIO k ->
  len_per_token k x = share world interleave rank (x / COMPRESS_RATIO k).
Proof.
  intros Hw Hr Hi Hx. unfold len_per_token. rewrite Hw, Hr, Hi. destruct (Z.ltb_spec 1 world) as [H1|H1].
  - by apply local_len_owned.
  - replace rank with 0 by lia. replace world with 1 by lia. symmetry. by apply owned_all.
Qed.

(** A batch by its query and sequence lengths, with the starts of its queries; the
    CPU copy of the compressed lengths may be larger than the exact ones. *)
Context (qlens slens cpu : list Z) (ratio : Z) (s e : Z).
Context (Hq : Forall (fun x => 0 <= x) qlens) (Hs : Forall2 Z.le qlens slens).
Context (Hcpu : Forall2 (fun x u => x / ratio <= u) slens cpu).
Context (Hratio : 0 < ratio) (Hse : 0 <= s <= e) (He : e <= Z.of_nat (List.length qlens)).
Notation compressed := ((fun x => x / ratio) <$> slens).
Notation Q := (slice s e qlens).
Notation C := (slice s e compressed).

Lemma slens_nonneg : Forall (fun x => 0 <= x) slens.
Proof.
  apply Forall_lookup. intros i y Hy. destruct (Forall2_lookup_r _ _ _ _ _ Hs Hy) as (x & Hx & Hxy).
  rewrite Forall_lookup in Hq. specialize (Hq i x Hx). lia.
Qed.

Lemma compressed_nonneg : Forall (fun x => 0 <= x) compressed.
Proof. apply Forall_fmap. eapply Forall_impl; [apply slens_nonneg|]. intros x Hx. cbn in *; apply Z.div_pos; [done|lia]. Qed.

Lemma total_enough : zsum C <= zsum (slice s e cpu).
Proof.
  unfold slice. rewrite <- !fmap_drop, <- !fmap_take.
  assert (Forall2 (fun x u => x / ratio <= u) (take (Z.to_nat (e - s)) (drop (Z.to_nat s) slens)) (take (Z.to_nat (e - s)) (drop (Z.to_nat s) cpu)))
    as Hall by (by apply Forall2_take, Forall2_drop).
  induction Hall as [|x u l k Hxu _ IH]; csimpl; lia.
Qed.

(** What the kernel is given, and what it leaves. *)
Lemma chunk_kernel a b k table :
  0 <= a <= b ->
  k = mkArgs ((fun x => x - at_ (cumsum qlens) s) <$> slice s (e + 1) (cumsum qlens)) (slice s e slens) (cumsum C)
        (if 1 <? world then cumsum ((fun row => at_ row rank) <$> get_dcp_local_seq_lens_all C world interleave) else cumsum C)
        a b rank world interleave 1024 ratio ->
  exists to_seq ks ke,
    kernel k (e - s) (replicate (Z.to_nat (zsum (slice s e cpu))) table) (replicate (Z.to_nat (b - a)) table)
      (replicate (Z.to_nat (b - a)) table) = Some (to_seq, ks, ke) /\
    (forall r offset, s <= r < e -> 0 <= offset < at_ qlens r ->
       let x := before qlens r - before qlens s + offset in a <= x < b ->
       at_ ks (x - a) = before (share world interleave rank <$> C) (r - s) /\
       at_ ke (x - a) = at_ ks (x - a) + share world interleave rank ((at_ slens r - at_ qlens r + 1 + offset) / ratio)) /\
    (forall r p, s <= r < e -> before C (r - s) <= p < before C (r - s + 1) -> at_ to_seq p = r - s).
Proof.
  intros Hab Hk. pose proof (Forall2_length _ _ _ Hs) as Hlen. pose proof (Forall2_length _ _ _ Hcpu) as Hlen2.
  assert (forall i, 0 <= i <= e - s -> at_ (query_start_loc k) i = before Q i) as Hqs.
  { intros i Hi. subst k. cbn [query_start_loc]. rewrite at_fmap by (rewrite length_slice; unfold cumsum; rewrite ?length_fmap, ?length_seq; lia).
    rewrite at_slice, !at_cumsum, before_slice by lia. lia. }
  assert (List.length compressed = List.length slens) as HlC by apply length_fmap.
  assert (Z.of_nat (List.length C) = e - s) as HlC' by (apply length_slice; lia).
  assert (forall i, 0 <= i <= e - s -> at_ (cu_compressed_seq_lens k) i = before C i) as Hcs.
  { intros i Hi. subst k. cbn [cu_compressed_seq_lens]. apply at_cumsum. lia. }
  assert (Z.of_nat (List.length Q) = e - s) as HlQ by (apply length_slice; lia).
  assert (0 < BLOCK_SIZE k) as HB by (subst k; simpl; lia).
  pose proof (Forall_slice _ s e _ Hq) as HQ. pose proof (Forall_slice _ s e _ compressed_nonneg) as HC.
  assert (query_slice_start k = a /\ query_slice_stop k = b) as [Hka Hkb] by (subst k; done).
  destruct (seqs_written k Q C (e - s) HC HlC' Hcs HB (replicate (Z.to_nat (zsum (slice s e cpu))) table)) as (to_seq & W1 & _ & T1).
  { rewrite before_all, length_replicate by lia. pose proof total_enough. pose proof (zsum_nonneg C HC). lia. }
  destruct (rows_written k Q C (e - s) HQ HlQ Hqs HB (ks_value k) (replicate (Z.to_nat (b - a)) table)) as (ks & W2 & _ & T2);
    [lia|rewrite length_replicate; lia|].
  destruct (rows_written k Q C (e - s) HQ HlQ Hqs HB (ke_value k) (replicate (Z.to_nat (b - a)) table)) as (ke & W3 & _ & T3);
    [lia|rewrite length_replicate; lia|].
  exists to_seq, ks, ke. unfold kernel. rewrite W1, W2, W3. split; [done|]. split.
  - intros r o Hr Ho. set (x := before qlens r - before qlens s + o). intros Hx. assert (before Q (r - s) = before qlens r - before qlens s) as HbQ.
    { rewrite before_slice by lia. f_equal; f_equal; lia. }
    assert (at_ Q (r - s) = at_ qlens r) as HaQ by (rewrite at_slice by lia; f_equal; lia).
    specialize (T2 (r - s) o ltac:(lia) ltac:(lia) ltac:(lia)). specialize (T3 (r - s) o ltac:(lia) ltac:(lia) ltac:(lia)).
    rewrite HbQ, Hka in T2, T3. fold x in T2, T3.
    assert (at_ ks (x - a) = before (share world interleave rank <$> C) (r - s)) as Hks.
    { rewrite T2. unfold ks_value. subst k. cbn [row_start_cu_compressed_seq_lens]. apply local_starts; [done|lia]. }
    split; [done|]. rewrite T3, Hks. unfold ke_value. rewrite !Hqs by lia. rewrite before_succ by lia. rewrite HaQ.
    replace (before Q (r - s) + at_ qlens r - before Q (r - s)) with (at_ qlens r) by lia.
    assert (at_ (uncompressed_seq_lens k) (r - s) = at_ slens r) as -> by (subst k; cbn; rewrite at_slice by lia; f_equal; lia).
    assert (at_ (row_start_cu_compressed_seq_lens k) (r - s) = before (share world interleave rank <$> C) (r - s)) as ->
      by (subst k; cbn [row_start_cu_compressed_seq_lens]; apply local_starts; [done|lia]).
    f_equal. assert (at_ qlens r <= at_ slens r) as Hle.
    { destruct (lookup_lt_is_Some_2 qlens (Z.to_nat r)) as [q Hqr]; [lia|].
      destruct (Forall2_lookup_l _ _ _ _ _ Hs Hqr) as (y & Hy & Hqy). unfold at_.
      by rewrite (list_lookup_total_correct _ _ _ Hqr), (list_lookup_total_correct _ _ _ Hy). }
    rewrite len_per_token_share by (subst k; try done; cbn; apply Z.div_pos; lia). by subst k.
  - intros r p Hr Hp. apply T1; [lia|done].
Qed.

End Rows.

(** C39 (chunk rows): the metadata of a chunk is built without a store out of bounds;
    its tokens are those of the query slice, and the row of a token starts after
    the keys this rank has of the chunk's earlier requests and ends after those it
    has of the positions the token may attend to, however the keys are dealt out;
    and every gathered key is marked with its request. *)
Theorem chunk_rows_exact `{CpUtilsLaws} env world rank interleave qlens slens cpu ratio s e a b table :
  0 < world -> 0 <= rank < world -> 0 < interleave -> 0 < ratio ->
  Forall (fun x => 0 <= x) qlens -> Forall2 Z.le qlens slens -> Forall2 (fun x u => x / ratio <= u) slens cpu ->
  0 <= s <= e -> e <= Z.of_nat (List.length qlens) -> 0 <= a <= b -> zsum (slice s e cpu) <> 0 ->
  let compressed := (fun x => x / ratio) <$> slens in
  let C := slice s e compressed in
  exists m, build_prefill_chunk_metadata env rank world interleave s e (cumsum qlens) (cumsum qlens) slens compressed cpu table
              ratio (Some (a, b)) false = Some (Some m) /\
    token_start m = before qlens s + a /\ token_end m = before qlens s + b /\ skip_kv_gather m = (0 <? a) /\
    (forall r offset, s <= r < e -> 0 <= offset < at_ qlens r ->
       let token := before qlens r + offset in token_start m <= token < token_end m ->
       let row := token - token_start m in
       at_ (cu_seqlen_ks m) row = before (share world interleave rank <$> C) (r - s) /\
       at_ (cu_seqlen_ke m) row = at_ (cu_seqlen_ks m) row +
         share world interleave rank ((at_ slens r - at_ qlens r + 1 + offset) / ratio)) /\
    (forall r p, s <= r < e -> before C (r - s) <= p < before C (r - s + 1) -> at_ (token_to_seq m) p = r - s).
Proof.
  intros Hw Hr Hi Hratio Hq Hs Hcpu Hse He Hab Htot compressed C.
  destruct (chunk_kernel world rank interleave Hw Hr Hi qlens slens cpu ratio s e Hq Hs Hcpu Hratio Hse He a b _ (junk env) Hab eq_refl)
    as (to_seq & ks & ke & E & Hrows & Hkeys).
  fold compressed in E, Hrows, Hkeys. fold C in E, Hrows, Hkeys.
  unfold build_prefill_chunk_metadata. rewrite (proj2 (Z.eqb_neq _ 0) Htot). cbn [andb]. fold C. rewrite E.
  eexists. split; [done|]. cbn [token_start token_end skip_kv_gather cu_seqlen_ks cu_seqlen_ke token_to_seq orb].
  rewrite at_cumsum by lia. split; [done|]. split; [done|]. split; [done|]. split; [|exact Hkeys].
  intros r o Hro Ho Htok. specialize (Hrows r o Hro Ho). cbn zeta in Hrows.
  replace (before qlens r - before qlens s + o - a) with (before qlens r + o - (before qlens s + a)) in Hrows by lia.
  apply Hrows. lia.
Qed.

(** The formula of the kernel as the helper of the other file. *)
#[export] Instance formula_cp_utils : CpUtils := {|
  get_dcp_local_seq_lens seq_lens world rank interleave := dcp_local_len world rank interleave <$> seq_lens;
  get_dcp_local_seq_lens_all seq_lens world interleave :=
    (fun s => (fun rank => dcp_local_len world rank interleave s) <$> seqZ 0 world) <$> seq_lens
|}.
#[export] Instance formula_cp_utils_laws : CpUtilsLaws.
Proof.
  split.
  - intros l world rank interleave Hw Hk Hr Hl. apply list_fmap_ext. intros i s Hs. rewrite Forall_lookup in Hl.
    apply local_len_owned; [done..|by eapply Hl].
  - intros l world interleave Hw Hk Hl. apply list_fmap_ext. intros i s Hs. rewrite Forall_lookup in Hl. apply list_fmap_ext.
    intros j r [-> Hj]%lookup_seqZ. apply local_len_owned; [done|done|lia|by eapply Hl].
Qed.

(** Two requests of two and three query tokens, keys dealt out one by one to two
    ranks; the second rank's rows of the second query slice. *)
Lemma chunk_rows_exact_witness :
  exists m, build_prefill_chunk_metadata (mkEnv false false 77) 1 2 1 1 3 [0; 4; 6; 9] [0; 4; 6; 9] [9; 5; 7] [9; 5; 7] [9; 5; 8]
              [] 1 (Some (1, 5)) false = Some (Some m) /\
    cu_seqlen_ks m = [0; 2; 2; 2] /\ cu_seqlen_ke m = [2; 4; 5; 5] /\ at_ (cu_seqlen_ke m) 1 = 4.
Proof.
  destruct (chunk_rows_exact (mkEnv false false 77) 2 1 1 [4; 2; 3] [9; 5; 7] [9; 5; 8] 1 1 3 1 5 [] ltac:(lia) ltac:(lia) ltac:(lia)
    ltac:(lia) ltac:(repeat constructor; lia) ltac:(repeat constructor; lia) ltac:(repeat constructor; vm_compute; discriminate)
    ltac:(lia) ltac:(simpl; lia) ltac:(lia) ltac:(vm_compute; discriminate)) as (m & E & Hs & _ & _ & Hrows & _).
  exists m. assert (E' := E). vm_compute in E'. injection E' as <-. split; [exact E|]. split; [reflexivity|]. split; [reflexivity|].
  destruct (Hrows 2 0 ltac:(lia) ltac:(vm_compute; split; congruence) ltac:(vm_compute; split; congruence)) as [_ Hke].
  etransitivity; [exact Hke|reflexivity].
Defined.
