(* ===== verification/IndexerDecode.v ===== *)
(** * Sparse indexer: decode metadata

    The decode half of [DeepseekV32IndexerMetadataBuilder]
    ([vllm/v1/attention/backends/mla/indexer.py]): [_prepare_decode_tensors],
    [_prepare_global_decode_seq_lens], [_dcp_localize_decode_seq_lens], the decode
    part of [build], and the limits of the constructor.  The persistent buffers are
    a state: tensors that alias a buffer are read from it, and what [build] returns
    are views into it. *)
From S2P Require Export IndexerRows PyProc.

(** ** The builder *)

(** What the constructor reads, and the part of the builder that does not change. *)
Record builder_config := mkBuilder {
  b_dcp_world_size : Z;
  b_dcp_rank : Z;
  b_interleave : Z;
  b_num_speculative_tokens : Z;
  b_use_fp4_indexer_cache : bool;
  b_sm100 : bool;                        (* [is_device_capability_family(100)] *)
  b_compress_ratio : Z;
  b_max_num_batched_tokens : Z;
  b_block_table_width : Z;
  b_block_size : Z;
  b_use_b12x : bool
}.

Record buffers := mkBuffers {
  decode_seq_lens_buffer : list Z;
  global_decode_seq_lens_buffer : list Z;
  decode_lens_buffer : list Z;
  expanded_block_table_buffer : list (list Z);
  expanded_seq_lens_buffer : list Z;
  b12x_active_width_buffer : Z
}.
#[export] Instance eta_buffers : Eta buffers := fun s =>
  mkBuffers (decode_seq_lens_buffer s) (global_decode_seq_lens_buffer s) (decode_lens_buffer s)
    (expanded_block_table_buffer s) (expanded_seq_lens_buffer s) (b12x_active_width_buffer s).

Definition next_n (c : builder_config) : Z := b_num_speculative_tokens c + 1.
Definition use_flattening (c : builder_config) : bool :=
  negb (b_sm100 c) && negb ((next_n c =? 1) || (next_n c =? 2)).

Definition zeros (n : Z) : list Z := replicate (Z.to_nat n) 0.

Definition init_builder (c : builder_config) : result buffers :=
  let* width := _align_indexer_block_table_width (b_block_table_width c) (b_block_size c) in
  let* _ := require (negb ((1 <? b_dcp_world_size c) && (1 <? b_interleave c))) NotImplementedError in
  let* _ := require (b_sm100 c || negb (b_use_fp4_indexer_cache c)) AssertionError in
  let* _ := require (negb ((1 <? b_dcp_world_size c) && (1 <? b_compress_ratio c))) NotImplementedError in
  let n := b_max_num_batched_tokens c in
  Ok (mkBuffers (zeros n) (zeros n) (zeros n) (replicate (Z.to_nat n) (zeros width)) (if 1 <? b_compress_ratio c then zeros n else []) 0).

(** ** Tensors of a step *)

(** A sequence-length tensor: the one of the batch, or a view of a buffer. *)
Inductive seq_view :=
  | BatchSeqLens                           (* [common_attn_metadata.seq_lens[:num_decodes]] *)
  | DecodeSeqLens (n : Z)                  (* one entry per row of the flattened batch *)
  | DecodeSeqLens2 (rows cols : Z)         (* per request and token *)
  | CompressedSeqLens (n : Z).
Inductive table_view :=
  | BatchTable
  | ExpandedTable (n : Z).
(** The first [n] decode lengths, always of the buffer. *)
Record decode_view := mkView { v_seq_lens : seq_view; v_table : table_view; v_decode_lens : Z; v_batch_size : Z; v_padding : bool }.

(** The decode requests of a step: sequence lengths and block-table rows, and the
    starts of their queries with the end of the last, the same on CPU and device. *)
Record decode_batch := mkBatch {
  seq_lens : list Z;
  table : list (list Z);
  query_starts : list Z;
  num_decode_tokens : Z;
  max_seq_len : Z;
  dcp_active : bool                        (* [dcp_local_seq_lens is not None] *)
}.
(** [torch.diff] *)
Definition decode_lens_of (b : decode_batch) : list Z := zip_with Z.sub (tail (query_starts b)) (query_starts b).
Definition num_decodes (b : decode_batch) : Z := Z.of_nat (List.length (seq_lens b)).

(** [buffer[:n] = l] *)
Definition fill_front {A} (l buffer : list A) : list A := l ++ drop (List.length l) buffer.
(** [torch.repeat_interleave] *)
Definition repeat_interleave {A} (l : list A) (times : list Z) : list A :=
  zip l times ≫= fun '(x, n) => replicate (Z.to_nat n) x.

Definition read_seq_lens (b : decode_batch) (s : buffers) (v : seq_view) : list Z :=
  match v with
  | BatchSeqLens => seq_lens b
  | DecodeSeqLens n => take (Z.to_nat n) (decode_seq_lens_buffer s)
  | DecodeSeqLens2 r c => take (Z.to_nat (r * c)) (decode_seq_lens_buffer s)
  | CompressedSeqLens n => take (Z.to_nat n) (expanded_seq_lens_buffer s)
  end.
Definition read_table (b : decode_batch) (s : buffers) (v : table_view) : list (list Z) :=
  match v with BatchTable => table b | ExpandedTable n => take (Z.to_nat n) (expanded_block_table_buffer s) end.
Definition read_decode_lens (s : buffers) (v : decode_view) : list Z := take (Z.to_nat (v_decode_lens v)) (decode_lens_buffer s).

Definition list_min (l : list Z) : Z := foldr Z.min (default 0 (head l)) l.
Definition list_max (l : list Z) : Z := foldr Z.max (default 0 (head l)) l.

(** ** Preparing the tensors *)

Notation M := (proc buffers).

(** [buffer[:len(l)] = l]; a buffer that is too short is an error. *)
Definition set_front {A} (l buffer : list A) : result (list A) :=
  let* _ := require (bool_decide (List.length l <= List.length buffer)%nat) RuntimeError in Ok (fill_front l buffer).
(** [buffer[a:b] = v] *)
Definition set_range {A} (a b : Z) (v : A) (l : list A) : list A :=
  imap (fun i x => if (a <=? Z.of_nat i) && (Z.of_nat i <? b) then v else x) l.
Definition zero_first (row : list Z) : list Z := match row with [] => [] | _ :: row => 0 :: row end.
Definition table_width (s : buffers) : Z :=
  match expanded_block_table_buffer s with row :: _ => Z.of_nat (List.length row) | [] => 0 end.

(** [seq_len_i = (context_start[b] - query_start_loc[b]) + arange[i] + 1] for the
    decode lengths in the buffer. *)
Definition expanded_lens (b : decode_batch) (s : buffers) : list Z :=
  let decode_lens := take (List.length (seq_lens b)) (decode_lens_buffer s) in
  let expanded_offsets :=
    repeat_interleave (zip_with Z.sub (zip_with Z.sub (seq_lens b) decode_lens) (query_starts b)) decode_lens in
  zip_with (fun o i => o + i + 1) expanded_offsets (seqZ 0 (Z.of_nat (List.length expanded_offsets))).

Inductive global_view :=
  | GlobalBatch
  | GlobalBuffer (n : Z).

Definition _prepare_global_decode_seq_lens (b : decode_batch) (use_native : bool) (max_decode_len : Z) : M (option global_view) := fun s =>
  if negb (dcp_active b) then (Ret None, s)
  else if use_native || (max_decode_len <=? 1) then (Ret (Some GlobalBatch), s)
  else
    let actual_expanded := zsum (decode_lens_of b) in
    match (if 0 <? actual_expanded then set_front (expanded_lens b s) (global_decode_seq_lens_buffer s)
           else Ok (global_decode_seq_lens_buffer s)) with
    | Ok buffer => (Ret (Some (GlobalBuffer (num_decode_tokens b))),
                    s <| global_decode_seq_lens_buffer := set_range actual_expanded (num_decode_tokens b) 0 buffer |>)
    | Raise e => (Exn e, s)
    end.

(** [_prepare_uniform_decode_kernel], one program per entry; a row is read from the
    memory of the block table, [stride] entries per request. *)
Definition _prepare_uniform_decode_kernel (n max_decode_len : Z) (b : decode_batch) (s : buffers) : option buffers :=
  let stride := match table b with row :: _ => Z.of_nat (List.length row) | [] => 0 end in
  let memory := List.concat (table b) in
  let programs := seqZ 0 n in
  match store_all ((fun idx => (idx, at_ (seq_lens b) (idx / max_decode_len) - max_decode_len + idx mod max_decode_len + 1)) <$> programs)
          (decode_seq_lens_buffer s),
        store_all ((fun idx => (idx, (fun off => at_ memory (idx / max_decode_len * stride + off)) <$> seqZ 0 (table_width s))) <$> programs)
          (expanded_block_table_buffer s),
        store_all ((fun idx => (idx, 1)) <$> programs) (decode_lens_buffer s) with
  | Some lens, Some rows, Some ones =>
      Some (((s <| decode_seq_lens_buffer := lens |>) <| expanded_block_table_buffer := rows |>) <| decode_lens_buffer := ones |>)
  | _, _, _ => None
  end.

Definition prepare_variable (b : decode_batch) (s : buffers) : result (decode_view * buffers) :=
  let n := num_decode_tokens b in
  let actual_expanded := zsum (decode_lens_of b) in
  let* lens := set_front (expanded_lens b s) (decode_seq_lens_buffer s) in
  let lens := set_range actual_expanded (Z.of_nat (List.length lens)) 0 lens in
  let bt_width := table_width s in
  let rows := repeat_interleave (take (Z.to_nat bt_width) <$> table b) (take (List.length (seq_lens b)) (decode_lens_buffer s)) in
  let* _ := require (forallb (fun row : list Z => Z.of_nat (List.length row) =? bt_width) rows) RuntimeError in
  let* rows := set_front rows (expanded_block_table_buffer s) in
  let rows := if actual_expanded <? n
              then imap (fun i row => if (actual_expanded <=? Z.of_nat i) && (Z.of_nat i <? n) then zero_first row else row) rows
              else rows in
  Ok (mkView (DecodeSeqLens n) (ExpandedTable n) n n false,
      ((s <| decode_seq_lens_buffer := lens |>) <| expanded_block_table_buffer := rows |>)
        <| decode_lens_buffer ::= set_range 0 n 1 |>).

Definition _prepare_decode_tensors (b : decode_batch) (use_native : bool) (next_n max_decode_len : Z) : M decode_view := fun s =>
  let min_decode_len := list_min (decode_lens_of b) in
  if negb use_native && (1 <? max_decode_len) then
    if min_decode_len =? max_decode_len then
      let n := num_decodes b * max_decode_len in
      match _prepare_uniform_decode_kernel n max_decode_len b s with
      | None => (Exn RuntimeError, s)      (* an illegal memory access *)
      | Some s => (Ret (mkView (DecodeSeqLens n) (ExpandedTable n) n n false),
                   s <| decode_seq_lens_buffer ::= fun l => set_range n (Z.of_nat (List.length l)) 0 l |>)
      end
    else
      match prepare_variable b s with Ok (v, s) => (Ret v, s) | Raise e => (Exn e, s) end
  else
    let requires_padding := negb (min_decode_len =? max_decode_len) in
    if use_native && (1 <? next_n) then
      let grid := seq_lens b ≫= fun l => (fun j => l - max_decode_len + 1 + j) <$> seqZ 0 max_decode_len in
      match set_front grid (decode_seq_lens_buffer s) with
      | Ok lens => (Ret (mkView (DecodeSeqLens2 (num_decodes b) max_decode_len) BatchTable (num_decodes b) (num_decodes b) requires_padding),
                    s <| decode_seq_lens_buffer := lens |>)
      | Raise e => (Exn e, s)
      end
    else (Ret (mkView BatchSeqLens BatchTable (num_decodes b) (num_decodes b) requires_padding), s).

Section Build.
Context `{CpUtils} (c : builder_config).

Definition _dcp_localize_decode_seq_lens (b : decode_batch) (v : seq_view) (is_buffer_view : bool) : M seq_view := fun s =>
  let local := get_dcp_local_seq_lens (read_seq_lens b s v) (b_dcp_world_size c) (b_dcp_rank c) (b_interleave c) in
  match set_front local (decode_seq_lens_buffer s) with
  | Ok lens => (Ret (if is_buffer_view then v else DecodeSeqLens (num_decodes b)), s <| decode_seq_lens_buffer := lens |>)
  | Raise e => (Exn e, s)
  end.

(** With compressed keys: in place on a buffer, in a buffer of its own otherwise. *)
Definition compress_lens (b : decode_batch) (v : seq_view) (is_buffer_view : bool) : M seq_view := fun s =>
  if negb (1 <? b_compress_ratio c) then (Ret v, s)
  else
    let compressed := (fun l => l / b_compress_ratio c) <$> read_seq_lens b s v in
    if is_buffer_view then (Ret v, s <| decode_seq_lens_buffer ::= fill_front compressed |>)
    else
      match set_front compressed (expanded_seq_lens_buffer s) with
      | Ok lens => (Ret (CompressedSeqLens (num_decode_tokens b)),
                    s <| expanded_seq_lens_buffer := set_range (num_decodes b) (num_decode_tokens b) 0 lens |>)
      | Raise e => (Exn e, s)
      end.

(** The tail of the decode part: each token's own length is localized after the
    expansion, and then compressed. *)
Definition finish_lens (b : decode_batch) (v : seq_view) (is_buffer_view : bool) : M seq_view :=
  let! lens := if dcp_active b then _dcp_localize_decode_seq_lens b v is_buffer_view else pret v in
  compress_lens b lens is_buffer_view.

Record decode_metadata := mkDecode {
  d_view : decode_view;
  d_global : option global_view;
  d_max_seq_len : Z;
  d_active_width : option Z
}.

(** The decode part of [build]. *)
Definition build_decode (b : decode_batch) : M decode_metadata :=
  let decode_lens := decode_lens_of b in
  let! buffer := pget decode_lens_buffer in
  let! buffer := plift (set_front decode_lens buffer) in
  let! _ := pmodify (fun s => s <| decode_lens_buffer := buffer |>) in
  let max_decode_len := list_max decode_lens in
  let use_native := negb (use_flattening c) && (max_decode_len <=? next_n c) in
  let! global := _prepare_global_decode_seq_lens b use_native max_decode_len in
  let! v := _prepare_decode_tensors b use_native (next_n c) max_decode_len in
  let is_buffer_view := (use_native && (1 <? next_n c)) || (negb use_native && (1 <? max_decode_len)) in
  let! lens := finish_lens b (v_seq_lens v) is_buffer_view in
  let view := mkView lens (v_table v) (v_decode_lens v) (v_batch_size v) (v_padding v) in
  if b_use_b12x c then
    let width := - (- max_seq_len b / b_compress_ratio c) in
    let! _ := pmodify (fun s => s <| b12x_active_width_buffer := width |>) in
    pret (mkDecode view global (max_seq_len b) (Some width))
  else pret (mkDecode view global 0 None).

End Build.

(** ** What the flattened batch is *)

(** The entry of a decode token: its request's block-table row and the positions it
    may attend to. *)
Definition token_lens (l d : Z) : list Z := (fun j => l - d + 1 + j) <$> seqZ 0 d.
Definition entry_lens (lens dlens : list Z) : list Z := zip lens dlens ≫= fun '(l, d) => token_lens l d.
Definition entry_rows {A} (rows : list A) (dlens : list Z) : list A := repeat_interleave rows dlens.

Lemma length_token_lens l d : List.length (token_lens l d) = Z.to_nat d.
Proof. unfold token_lens. by rewrite length_fmap, length_seqZ. Qed.

Lemma zsum_eq_length {A} (rows : list A) dlens :
  List.length rows = List.length dlens -> Forall (fun d => 0 <= d) dlens ->
  Z.of_nat (List.length (entry_rows rows dlens)) = zsum dlens.
Proof.
  revert rows. induction dlens as [|d dlens IH]; intros [|x rows]; try done. intros [= Hlen] [Hd Hds]%Forall_cons.
  change (zsum (d :: dlens)) with (d + zsum dlens). rewrite <- (IH rows) by done. unfold entry_rows, repeat_interleave.
  cbn [zip zip_with mbind list_bind]. rewrite length_app, length_replicate. lia.
Qed.

Lemma length_entry_lens lens dlens :
  List.length lens = List.length dlens -> Forall (fun d => 0 <= d) dlens ->
  Z.of_nat (List.length (entry_lens lens dlens)) = zsum dlens.
Proof.
  revert lens. induction dlens as [|d dlens IH]; intros [|x lens]; try done. intros [= Hlen] [Hd Hds]%Forall_cons.
  change (zsum (d :: dlens)) with (d + zsum dlens). rewrite <- (IH lens) by done. unfold entry_lens.
  cbn [zip zip_with mbind list_bind]. rewrite length_app, length_token_lens. lia.
Qed.

(** The starts of queries of the given lengths, from [base]. *)
Fixpoint starts_from (base : Z) (dlens : list Z) : list Z :=
  match dlens with [] => [base] | d :: dlens => base :: starts_from (base + d) dlens end.

Lemma diff_starts base dlens : zip_with Z.sub (tail (starts_from base dlens)) (starts_from base dlens) = dlens.
Proof.
  revert base. induction dlens as [|d dlens IH]; intros base; [done|]. simpl.
  destruct dlens as [|d' dlens]; simpl.
  - f_equal. lia.
  - specialize (IH (base + d)). simpl in IH. f_equal; [lia|]. exact IH.
Qed.

(** Offsets repeated and numbered through are the lengths of the entries. *)
Lemma numbered_offsets base lens dlens :
  List.length lens = List.length dlens -> Forall (fun d => 0 <= d) dlens ->
  let offsets := repeat_interleave (zip_with Z.sub (zip_with Z.sub lens dlens) (starts_from base dlens)) dlens in
  zip_with (fun o i => o + i + 1) offsets (seqZ base (Z.of_nat (List.length offsets))) = entry_lens lens dlens.
Proof.
  revert base lens. induction dlens as [|d dlens IH]; intros base [|l lens]; try done. intros [= Hlen] [Hd Hds]%Forall_cons.
  cbn zeta. unfold repeat_interleave, entry_lens. csimpl. specialize (IH (base + d) lens Hlen Hds). cbn zeta in IH.
  unfold repeat_interleave, entry_lens in IH. set (rest := zip _ dlens ≫= _) in *.
  rewrite length_app, length_replicate, Nat2Z.inj_add, Z2Nat.id, seqZ_app by lia.
  rewrite zip_with_app by (by rewrite length_replicate, length_seqZ). rewrite IH. f_equal. unfold token_lens.
  clear. apply list_eq. intros i. rewrite list_lookup_fmap, lookup_zip_with. destruct (decide (Z.of_nat i < d)) as [Hi|Hi].
  - rewrite !lookup_seqZ_lt by lia. rewrite lookup_replicate_2 by lia. simpl. f_equal. lia.
  - rewrite !lookup_seqZ_ge by lia. by destruct (_ !! i).
Qed.

Lemma set_front_ok {A} (l buffer : list A) : (List.length l <= List.length buffer)%nat -> set_front l buffer = Ok (fill_front l buffer).
Proof. intros Hlen. unfold set_front. by rewrite bool_decide_eq_true_2. Qed.

Lemma length_fill_front {A} (l buffer : list A) : (List.length l <= List.length buffer)%nat -> List.length (fill_front l buffer) = List.length buffer.
Proof. intros Hlen. unfold fill_front. rewrite length_app, length_drop. lia. Qed.

Lemma length_set_range {A} a b (v : A) l : List.length (set_range a b v l) = List.length l.
Proof. unfold set_range. apply length_imap. Qed.

(** Zeros after the entries, up to [n]. *)
Lemma front_then_zeros (l buffer : list Z) a b n :
  a = Z.of_nat (List.length l) -> a <= n <= b -> n <= Z.of_nat (List.length buffer) ->
  take (Z.to_nat n) (set_range a b 0 (fill_front l buffer)) = l ++ zeros (n - a).
Proof.
  intros -> Hn Hlen. apply list_eq. intros i. unfold set_range, fill_front, zeros.
  destruct (decide (i < Z.to_nat n)%nat) as [Hi|Hi].
  - rewrite lookup_take_lt, list_lookup_imap by done. destruct (decide (i < List.length l)%nat) as [Hil|Hil].
    + rewrite !lookup_app_l by done. destruct (l !! i); [|done]. simpl. by rewrite (proj2 (Z.leb_gt _ _)) by lia.
    + rewrite !lookup_app_r by lia. rewrite lookup_drop, lookup_replicate_2 by lia.
      destruct (lookup_lt_is_Some_2 buffer (List.length l + (i - List.length l))) as [x Hx]; [lia|]. rewrite Hx. simpl.
      by rewrite (proj2 (Z.leb_le _ _)), (proj2 (Z.ltb_lt _ _)) by lia.
  - rewrite lookup_take_ge by lia. symmetry. apply lookup_ge_None. rewrite length_app, length_replicate. lia.
Qed.

(** ** The kernel for equal lengths *)

Lemma store_all_app {A} (w1 w2 : list (Z * A)) a :
  store_all (w1 ++ w2) a = match store_all w1 a with Some a' => store_all w2 a' | None => None end.
Proof. revert a. induction w1 as [|[i v] w1 IH]; intros a; [done|]. simpl. destruct (store a i v); [apply IH|done]. Qed.

(** A program per index from 0 on fills the front of the buffer. *)
Lemma store_all_front {A} (g : Z -> A) n a :
  0 <= n -> n <= Z.of_nat (List.length a) ->
  store_all ((fun i => (i, g i)) <$> seqZ 0 n) a = Some (fill_front (g <$> seqZ 0 n) a).
Proof.
  revert n. apply (natlike_ind (fun n => n <= _ -> _)); [done|]. intros n Hn IH Hlen.
  rewrite <- Z.add_1_r, seqZ_app, !fmap_app, store_all_app, IH by lia. simpl. replace (Z.of_nat 0 + (0 + n)) with n by lia.
  unfold fill_front, store. rewrite !length_app, !length_fmap, length_seqZ, length_drop. simpl.
  rewrite (proj2 (Z.leb_le 0 n)), (proj2 (Z.ltb_lt n _)) by lia. cbn [andb]. f_equal.
  destruct (drop (Z.to_nat n) a) as [|x rest] eqn:Hd.
  { apply (f_equal List.length) in Hd. rewrite length_drop in Hd. simpl in Hd. lia. }
  rewrite insert_app_r_alt by (rewrite length_fmap, length_seqZ; lia). rewrite length_fmap, length_seqZ.
  replace (Z.to_nat n - Z.to_nat n)%nat with 0%nat by lia. rewrite <- (assoc_L (++)). simpl. do 2 f_equal.
  apply (f_equal (drop 1)) in Hd. rewrite drop_drop in Hd. cbn [drop] in Hd. exact (eq_sym Hd).
Qed.

Lemma fmap_index {A B} `{Inhabited A} (f : A -> B) (l : list A) :
  f <$> l = (fun r => f (l !!! Z.to_nat r)) <$> seqZ 0 (Z.of_nat (List.length l)).
Proof.
  apply list_eq. intros i. rewrite !list_lookup_fmap. destruct (decide (i < List.length l)%nat) as [Hi|Hi].
  - destruct (lookup_lt_is_Some_2 l i Hi) as [x Hx]. rewrite Hx, lookup_seqZ_lt by lia. simpl. do 2 f_equal.
    symmetry. apply list_lookup_total_correct. by replace (Z.to_nat (0 + Z.of_nat i)) with i by lia.
  - by rewrite lookup_seqZ_ge, lookup_ge_None_2 by lia.
Qed.

Lemma fmap_blocks {A} (f : Z -> A) w n :
  0 <= w -> 0 <= n -> f <$> seqZ 0 (n * w) = seqZ 0 n ≫= fun r => (fun j => f (r * w + j)) <$> seqZ 0 w.
Proof.
  intros Hw. revert n. refine (natlike_ind _ _ _); [by rewrite Z.mul_0_l|]. intros n Hn IH.
  rewrite Z.mul_succ_l, <- Z.add_1_r, !seqZ_app, fmap_app, bind_app, IH by nia. f_equal. csimpl. rewrite app_nil_r.
  replace (0 + n) with n by lia. rewrite Z.add_0_l.
  rewrite <- (Z.add_0_r (n * w)), <- fmap_add_seqZ, <- list_fmap_compose. apply list_fmap_ext. done.
Qed.

Lemma list_min_le l x : x ∈ l -> list_min l <= x.
Proof.
  unfold list_min. generalize (default 0 (head l)) as z. intros z. induction l as [|y l IH]; [by intros ?%elem_of_nil|].
  simpl. intros [->|Hx]%elem_of_cons; [lia|]. specialize (IH Hx). lia.
Qed.
Lemma list_max_ge l x : x ∈ l -> x <= list_max l.
Proof.
  unfold list_max. generalize (default 0 (head l)) as z. intros z. induction l as [|y l IH]; [by intros ?%elem_of_nil|].
  simpl. intros [->|Hx]%elem_of_cons; [lia|]. specialize (IH Hx). lia.
Qed.

Lemma uniform_lens l : list_min l = list_max l -> l = replicate (List.length l) (list_max l).
Proof.
  intros Heq. symmetry. apply replicate_as_elem_of. split; [done|]. intros x Hx. pose proof (list_min_le l x Hx). pose proof (list_max_ge l x Hx). lia.
Qed.

Lemma repeat_uniform {A B} (f : A -> Z -> list B) (l : list A) (w : Z) :
  zip l (replicate (List.length l) w) ≫= (fun '(x, n) => f x n) = l ≫= (fun x => f x w).
Proof. induction l as [|x l IH]; csimpl; [done|]. by rewrite IH. Qed.

(** A row of the block table as the kernel reads it. *)
Lemma memory_row (t : list (list Z)) stride width r :
  Forall (fun row => Z.of_nat (List.length row) = stride) t -> 0 <= width <= stride -> 0 <= r < Z.of_nat (List.length t) ->
  (fun off => at_ (List.concat t) (r * stride + off)) <$> seqZ 0 width = take (Z.to_nat width) (t !!! Z.to_nat r).
Proof.
  intros Ht Hw. revert r. induction Ht as [|row t Hrow Ht IH]; intros r Hr; [simpl in Hr; lia|].
  assert (Z.of_nat (List.length row) = stride) as Hlen by done. destruct (Z.eq_dec r 0) as [->|Hne].
  - simpl. apply list_eq. intros i. rewrite list_lookup_fmap. destruct (decide (Z.of_nat i < width)) as [Hi|Hi].
    + rewrite lookup_seqZ_lt, lookup_take_lt by lia. destruct (lookup_lt_is_Some_2 row i) as [x Hx]; [lia|]. rewrite Hx. simpl.
      f_equal. unfold at_. apply list_lookup_total_correct. rewrite lookup_app_l by lia.
      by replace (Z.to_nat (0 * stride + (0 + Z.of_nat i))) with i by lia.
    + rewrite lookup_seqZ_ge, lookup_take_ge by lia. done.
  - simpl in Hr. replace (Z.to_nat r) with (S (Z.to_nat (r - 1))) by lia. simpl. rewrite <- IH by lia.
    apply list_fmap_ext. intros i off [-> Hi]%lookup_seqZ. unfold at_.
    rewrite lookup_total_app_r by nia. f_equal. nia.
Qed.

(** ** The flattened batch *)

(** A step whose requests fit the buffers; block tables are at least as wide as the
    expanded one. *)
Record step_ok (c : builder_config) (width : Z) (b : decode_batch) (dlens : list Z) : Prop := {
  so_starts : query_starts b = starts_from 0 dlens;
  so_lens : List.length (seq_lens b) = List.length dlens;
  so_table : List.length (table b) = List.length dlens;
  so_nonneg : Forall (fun d => 0 <= d) dlens;
  so_fit : Forall2 (fun l d => d <= l) (seq_lens b) dlens;
  so_requests : Z.of_nat (List.length dlens) <= b_max_num_batched_tokens c;
  so_tokens : zsum dlens <= num_decode_tokens b <= b_max_num_batched_tokens c;
  so_width : exists stride, width <= stride /\ Forall (fun row => Z.of_nat (List.length row) = stride) (table b)
}.

(** The buffers as the constructor allocates them, whatever they hold. *)
Record sized (c : builder_config) (width : Z) (s : buffers) : Prop := {
  sz_lens : List.length (decode_seq_lens_buffer s) = Z.to_nat (b_max_num_batched_tokens c);
  sz_global : List.length (global_decode_seq_lens_buffer s) = Z.to_nat (b_max_num_batched_tokens c);
  sz_ones : List.length (decode_lens_buffer s) = Z.to_nat (b_max_num_batched_tokens c);
  sz_rows : List.length (expanded_block_table_buffer s) = Z.to_nat (b_max_num_batched_tokens c);
  sz_width : Forall (fun row => Z.of_nat (List.length row) = width) (expanded_block_table_buffer s)
}.

Lemma zsum_ge l x : Forall (fun d => 0 <= d) l -> x ∈ l -> x <= zsum l.
Proof.
  intros Hl Hx. apply list_elem_of_split in Hx as (l1 & l2 & ->). apply Forall_app in Hl as [H1 [_ H2]%Forall_cons].
  rewrite zsum_app. simpl. pose proof (zsum_nonneg l1 H1). pose proof (zsum_nonneg l2 H2). unfold zsum in *. lia.
Qed.

Lemma list_max_in l : l <> [] -> list_max l ∈ l.
Proof.
  unfold list_max. destruct l as [|x l]; [done|]. intros _. cbn [head default from_option id].
  assert (forall z k, foldr Z.max z k = z \/ foldr Z.max z k ∈ k) as Hk.
  { intros z k. induction k as [|y k [IH|IH]]; simpl; [by left| |].
    - rewrite IH. destruct (Z.max_spec y z) as [[_ ->]|[_ ->]]; [by left|right; by left].
    - right. destruct (Z.max_spec y (foldr Z.max z k)) as [[_ ->]|[_ ->]]; [by right|by left]. }
  destruct (Hk x (x :: l)) as [->|Hin]; [by left|done].
Qed.

Lemma zsum_replicate k m : zsum (replicate k m) = Z.of_nat k * m.
Proof.
  induction k as [|k IH]; [done|]. change (zsum (replicate (S k) m)) with (m + zsum (replicate k m)). rewrite IH. lia.
Qed.

Lemma bind_ext_in {A B} (f g : A -> list B) l : (forall x, x ∈ l -> f x = g x) -> l ≫= f = l ≫= g.
Proof.
  induction l as [|x l IH]; intros Hfg; csimpl; [done|]. rewrite (Hfg x), IH; [done| |by left]. intros y Hy. apply Hfg. by right.
Qed.

Lemma bind_of_fmap {A B C} (h : A -> B) (f : B -> list C) l : (h <$> l) ≫= f = l ≫= fun x => f (h x).
Proof. induction l as [|x l IH]; csimpl; [done|]. by rewrite IH. Qed.

(** A list flattened by index. *)
Lemma bind_index {A B} `{Inhabited A} (f : A -> list B) (l : list A) :
  l ≫= f = seqZ 0 (Z.of_nat (List.length l)) ≫= fun r => f (l !!! Z.to_nat r).
Proof. transitivity ((id <$> l) ≫= f); [by rewrite list_fmap_id|]. by rewrite (fmap_index id l), bind_of_fmap. Qed.

(** Entries numbered through, of [m] to a request. *)
Lemma numbered_blocks {A B} `{Inhabited A} (g : Z -> B) (f : A -> Z -> B) (l : list A) m :
  0 < m -> (forall r j, 0 <= r < Z.of_nat (List.length l) -> 0 <= j < m -> g (r * m + j) = f (l !!! Z.to_nat r) j) ->
  g <$> seqZ 0 (Z.of_nat (List.length l) * m) = l ≫= fun x => f x <$> seqZ 0 m.
Proof.
  intros Hm Hg. rewrite fmap_blocks, (bind_index (fun x => f x <$> seqZ 0 m) l) by lia. apply bind_ext_in. intros r Hr%elem_of_seqZ.
  apply list_fmap_ext. intros i j [-> Hj]%lookup_seqZ. apply Hg; lia.
Qed.

Lemma fmap_const {A} (x : A) m : (fun _ => x) <$> seqZ 0 m = replicate (Z.to_nat m) x.
Proof. rewrite (const_fmap (fun _ : Z => x) (seqZ 0 m) x) by done. by rewrite length_seqZ. Qed.

Section Flatten.
Context (c : builder_config) (width : Z) (b : decode_batch) (dlens : list Z).
Context (Hok : step_ok c width b dlens) (Hwidth : 0 <= width).
Notation total := (zsum dlens).
Notation N := (b_max_num_batched_tokens c).

Lemma lens_of_step : decode_lens_of b = dlens.
Proof. unfold decode_lens_of. rewrite (so_starts _ _ _ _ Hok). apply diff_starts. Qed.

Context (s : buffers) (Hs : sized c width s).
Context (Hdl : take (List.length dlens) (decode_lens_buffer s) = dlens).

Lemma expanded_entries : expanded_lens b s = entry_lens (seq_lens b) dlens.
Proof.
  unfold expanded_lens. rewrite (so_lens _ _ _ _ Hok), Hdl, (so_starts _ _ _ _ Hok).
  apply (numbered_offsets 0); [apply (so_lens _ _ _ _ Hok)|apply (so_nonneg _ _ _ _ Hok)].
Qed.

Lemma total_entries : Z.of_nat (List.length (entry_lens (seq_lens b) dlens)) = total.
Proof. apply length_entry_lens; [apply (so_lens _ _ _ _ Hok)|apply (so_nonneg _ _ _ _ Hok)]. Qed.

Lemma width_of_buffer : 0 < N -> table_width s = width.
Proof.
  intros HN. unfold table_width. pose proof (sz_rows _ _ _ Hs) as Hr. pose proof (sz_width _ _ _ Hs) as Hw.
  destruct (expanded_block_table_buffer s) as [|row rows]; [simpl in Hr; lia|]. by apply Forall_cons in Hw as [Hw _].
Qed.

(** What both ways of flattening leave: the entries, zeros behind them, the rows of
    their requests and lengths of one. *)
Definition flattened (n : Z) (v : decode_view) (s' : buffers) : Prop :=
  v = mkView (DecodeSeqLens n) (ExpandedTable n) n n false /\
  total <= n <= N /\
  take (Z.to_nat n) (decode_seq_lens_buffer s') = entry_lens (seq_lens b) dlens ++ zeros (n - total) /\
  take (Z.to_nat total) (expanded_block_table_buffer s') = entry_rows (take (Z.to_nat width) <$> table b) dlens /\
  take (Z.to_nat n) (decode_lens_buffer s') = replicate (Z.to_nat n) 1 /\
  List.length (decode_seq_lens_buffer s') = Z.to_nat N /\
  global_decode_seq_lens_buffer s' = global_decode_seq_lens_buffer s /\
  expanded_seq_lens_buffer s' = expanded_seq_lens_buffer s.

Lemma variable_run :
  1 < list_max dlens ->
  exists v s', prepare_variable b s = Ok (v, s') /\ flattened (num_decode_tokens b) v s'.
Proof.
  intros Hmax. destruct (so_tokens _ _ _ _ Hok) as [Ht1 Ht2]. pose proof (so_nonneg _ _ _ _ Hok) as Hnn.
  assert (0 < N) as HN.
  { destruct dlens as [|d ds]; [done|]. pose proof (zsum_ge _ _ Hnn (list_max_in (d :: ds) ltac:(done))). lia. }
  pose proof (sz_lens _ _ _ Hs) as L1. pose proof (sz_rows _ _ _ Hs) as L2. pose proof (sz_ones _ _ _ Hs) as L3.
  pose proof total_entries as Htot. set (rows := entry_rows (take (Z.to_nat width) <$> table b) dlens).
  assert (Z.of_nat (List.length rows) = total) as Hrows.
  { apply zsum_eq_length; [|done]. rewrite length_fmap. apply (so_table _ _ _ _ Hok). }
  unfold prepare_variable. rewrite expanded_entries, lens_of_step. rewrite set_front_ok by lia. cbn [rbind].
  rewrite width_of_buffer, (so_lens _ _ _ _ Hok), Hdl by done. change (repeat_interleave _ dlens) with rows.
  assert (forallb (fun row : list Z => Z.of_nat (List.length row) =? width) rows = true) as ->.
  { apply forallb_forall. intros row Hin%list_elem_of_In. apply list_elem_of_bind in Hin as ([x d] & Hrow & Hxd).
    apply elem_of_replicate in Hrow as [-> _]. apply elem_of_zip_l in Hxd. apply list_elem_of_fmap in Hxd as (y & -> & Hy).
    destruct (so_width _ _ _ _ Hok) as (stride & Hst & Hall). rewrite Forall_forall in Hall. specialize (Hall y Hy).
    apply Z.eqb_eq. rewrite length_take. lia. }
  cbn [require rbind]. rewrite set_front_ok by lia. cbn [rbind]. eexists _, _. split; [done|].
  unfold flattened. cbn -[zeros set_range fill_front seqZ]. rewrite length_fill_front by lia. split_and!; try done; try lia.
  - apply front_then_zeros; lia.
  - fold rows. clearbody rows. apply list_eq. intros i. destruct (decide (i < Z.to_nat total)%nat) as [Hi|Hi].
    + rewrite lookup_take_lt by done. transitivity (fill_front rows (expanded_block_table_buffer s) !! i).
      * destruct (total <? num_decode_tokens b); [|done]. rewrite list_lookup_imap. destruct (fill_front _ _ !! i); [|done]. simpl.
        by rewrite (proj2 (Z.leb_gt _ _)) by lia.
      * unfold fill_front. apply lookup_app_l. lia.
    + rewrite lookup_take_ge by lia. symmetry. apply lookup_ge_None. lia.
  - apply list_eq. intros i. destruct (decide (i < Z.to_nat (num_decode_tokens b))%nat) as [Hi|Hi].
    + rewrite lookup_take_lt, lookup_replicate_2 by done. unfold set_range. rewrite list_lookup_imap.
      destruct (lookup_lt_is_Some_2 (decode_lens_buffer s) i) as [x Hx]; [lia|]. rewrite Hx. simpl.
      by rewrite (proj2 (Z.leb_le _ _)), (proj2 (Z.ltb_lt _ _)) by lia.
    + rewrite lookup_take_ge by lia. symmetry. apply lookup_ge_None. rewrite length_replicate. lia.
  - rewrite length_set_range, length_fill_front by lia. done.
Qed.

(** With equal lengths the kernel leaves the same entries. *)
Lemma uniform_run :
  1 < list_max dlens -> list_min dlens = list_max dlens ->
  exists s', _prepare_uniform_decode_kernel (num_decodes b * list_max dlens) (list_max dlens) b s = Some s' /\
    flattened total (mkView (DecodeSeqLens total) (ExpandedTable total) total total false)
      (s' <| decode_seq_lens_buffer ::= fun l => set_range total (Z.of_nat (List.length l)) 0 l |>) /\
    num_decodes b * list_max dlens = total.
Proof.
  intros Hmax Hmin. set (m := list_max dlens) in *. destruct (so_tokens _ _ _ _ Hok) as [Ht1 Ht2]. pose proof (so_nonneg _ _ _ _ Hok) as Hnn.
  pose proof (so_lens _ _ _ _ Hok) as Hl. pose proof (so_table _ _ _ _ Hok) as Hlt. pose proof (uniform_lens dlens Hmin) as Hrep. fold m in Hrep.
  assert (Z.of_nat (List.length dlens) * m = total) as Hn by (rewrite Hrep at 2; by rewrite zsum_replicate).
  assert (num_decodes b * m = total) as Hn' by (unfold num_decodes; by rewrite Hl).
  assert (0 < total) as Hpos.
  { destruct (decide (dlens = [])) as [E|Hne]; [by unfold m in Hmax; rewrite E in Hmax|].
    pose proof (zsum_ge _ _ Hnn (list_max_in dlens Hne)) as Hge. fold m in Hge. lia. }
  pose proof (sz_lens _ _ _ Hs) as L1. pose proof (sz_rows _ _ _ Hs) as L2. pose proof (sz_ones _ _ _ Hs) as L3.
  destruct (so_width _ _ _ _ Hok) as (stride & Hst & Hall).
  assert ((fun idx => at_ (seq_lens b) (idx / m) - m + idx mod m + 1) <$> seqZ 0 total = entry_lens (seq_lens b) dlens) as Hlens.
  { unfold entry_lens. rewrite Hrep at 2. rewrite <- Hl, repeat_uniform, <- Hn, <- Hl. apply (numbered_blocks _ (fun l j => l - m + 1 + j)); [lia|].
    intros r j Hr Hj. rewrite <- (Z.mod_unique (r * m + j) m r j), <- (Z.div_unique (r * m + j) m r j) by lia. unfold at_. lia. }
  assert ((fun idx => (fun off => at_ (List.concat (table b)) (idx / m * stride + off)) <$> seqZ 0 width) <$> seqZ 0 total
          = entry_rows (take (Z.to_nat width) <$> table b) dlens) as Hrows.
  { transitivity (table b ≫= fun row => replicate (Z.to_nat m) (take (Z.to_nat width) row)).
    2:{ rewrite Hrep at 1. rewrite <- Hlt. unfold entry_rows, repeat_interleave. rewrite <- (bind_of_fmap (take (Z.to_nat width))
          (fun row => replicate (Z.to_nat m) row)), <- (length_fmap (take (Z.to_nat width)) (table b)). symmetry.
        exact (repeat_uniform (fun row n => replicate (Z.to_nat n) row) (take (Z.to_nat width) <$> table b) m). }
    rewrite <- Hn, <- Hlt. etransitivity; [apply (numbered_blocks _ (fun row _ => take (Z.to_nat width) row)); [lia|]|].
    - intros r j Hr Hj. rewrite Z.div_add_l, (Z.div_small j), Z.add_0_r by lia. by apply memory_row.
    - apply bind_ext_in. intros row _. apply fmap_const. }
  assert (match table b with row :: _ => Z.of_nat (List.length row) | [] => 0 end = stride \/ total = 0) as [Hstride|?]; [|..|lia].
  { destruct (table b) as [|row rows]; [right; simpl in Hlt; rewrite <- Hn, <- Hlt; simpl; lia|left; by apply Forall_cons in Hall as [? _]]. }
  unfold _prepare_uniform_decode_kernel. rewrite Hn', Hstride, width_of_buffer, !store_all_front by lia.
  rewrite Hlens, Hrows, fmap_const. eexists. split; [done|]. split; [|done]. unfold flattened. pose proof total_entries as Htot.
  assert (Z.of_nat (List.length (entry_rows (take (Z.to_nat width) <$> table b) dlens)) = total) as Hlr.
  { apply zsum_eq_length; [by rewrite length_fmap|done]. }
  cbn -[zeros set_range fill_front seqZ]. split_and!; try done; try lia.
  - apply front_then_zeros; rewrite ?length_fill_front; lia.
  - unfold fill_front. rewrite take_app_le, take_ge by lia. done.
  - unfold fill_front. rewrite take_app_le, take_ge by (rewrite length_replicate; lia). done.
  - rewrite length_set_range, length_fill_front by lia. done.
Qed.

End Flatten.

(** ** Running the two preparations *)
Section Prepare.
Context (c : builder_config) (width : Z) (b : decode_batch) (dlens : list Z).
Context (Hok : step_ok c width b dlens) (Hwidth : 0 <= width).
Context (s : buffers) (Hs : sized c width s).
Context (Hdl : take (List.length dlens) (decode_lens_buffer s) = dlens) (Hmax : 1 < list_max dlens).
Notation total := (zsum dlens).
Notation N := (b_max_num_batched_tokens c).

Lemma prepare_run next :
  exists n v s', _prepare_decode_tensors b false next (list_max dlens) s = (Ret v, s') /\ flattened c width b dlens s n v s'.
Proof.
  unfold _prepare_decode_tensors. rewrite (lens_of_step c width b dlens Hok), (proj2 (Z.ltb_lt _ _) Hmax). cbn [negb andb].
  destruct (Z.eqb_spec (list_min dlens) (list_max dlens)) as [Hmin|Hmin].
  - destruct (uniform_run c width b dlens Hok Hwidth s Hs Hmax Hmin) as (s' & E & Hf & Hn). rewrite E, Hn.
    by eexists total, _, _.
  - destruct (variable_run c width b dlens Hok Hwidth s Hs Hdl Hmax) as (v & s' & E & Hf). rewrite E. by eexists _, _, _.
Qed.

Lemma global_run :
  exists gl s', _prepare_global_decode_seq_lens b false (list_max dlens) s = (Ret gl, s') /\ sized c width s' /\
    take (List.length dlens) (decode_lens_buffer s') = dlens /\
    (dcp_active b = true -> gl = Some (GlobalBuffer (num_decode_tokens b)) /\
       take (Z.to_nat (num_decode_tokens b)) (global_decode_seq_lens_buffer s') =
         entry_lens (seq_lens b) dlens ++ zeros (num_decode_tokens b - total)).
Proof.
  unfold _prepare_global_decode_seq_lens. destruct (dcp_active b); [|exists None, s; by split_and!]. cbn [negb orb].
  rewrite (proj2 (Z.leb_gt _ _) Hmax), (lens_of_step c width b dlens Hok), (expanded_entries c width b dlens Hok s Hdl).
  pose proof (total_entries c width b dlens Hok) as Htot. destruct (so_tokens _ _ _ _ Hok) as [Ht1 Ht2].
  pose proof (sz_global _ _ _ Hs) as L. assert (0 < total) as Hpos.
  { pose proof (so_nonneg _ _ _ _ Hok) as Hnn. destruct (decide (dlens = [])) as [E|Hne]; [by rewrite E in Hmax|].
    pose proof (zsum_ge _ _ Hnn (list_max_in dlens Hne)). lia. }
  rewrite (proj2 (Z.ltb_lt _ _) Hpos), set_front_ok by lia. eexists _, _. split; [done|]. split; [|split; [done|]].
  - destruct Hs as [H1 H2 H3 H4 H5]. split; try done. cbn -[set_range fill_front]. rewrite length_set_range, length_fill_front; lia.
  - intros _. split; [done|]. cbn -[set_range fill_front zeros]. apply front_then_zeros; lia.
Qed.

End Prepare.

(** ** The decode metadata of a step *)

Lemma take_fill_front {A} (l buffer : list A) : take (List.length l) (fill_front l buffer) = l.
Proof. unfold fill_front. by rewrite take_app_length. Qed.

Lemma sized_update c width s f :
  sized c width s -> List.length (f (decode_lens_buffer s)) = List.length (decode_lens_buffer s) ->
  sized c width (s <| decode_lens_buffer ::= f |>).
Proof. intros [H1 H2 H3 H4 H5] Hf. split; simpl; try done. congruence. Qed.

(** What a rank sees of a context of [l] positions, in compressed keys. *)
Definition visible `{CpUtils} (c : builder_config) (active : bool) (l : Z) : Z :=
  (if active then share (b_dcp_world_size c) (b_interleave c) (b_dcp_rank c) l else l) / b_compress_ratio c.

Section BuildDecode.
Context `{CpUtilsLaws} (c : builder_config) (width : Z) (b : decode_batch) (dlens : list Z).
Context (Hok : step_ok c width b dlens) (Hwidth : 0 <= width).
Context (Hflat : use_flattening c = true) (Hmax : 1 < list_max dlens).
Context (Hworld : 0 < b_dcp_world_size c) (Hrank : 0 <= b_dcp_rank c < b_dcp_world_size c).
Context (Hint : 0 < b_interleave c) (Hratio : 1 <= b_compress_ratio c).
Notation total := (zsum dlens).
Notation N := (b_max_num_batched_tokens c).
Notation entries := (entry_lens (seq_lens b) dlens).

Lemma entries_nonneg k : Forall (fun l => 0 <= l) (entries ++ zeros k).
Proof.
  apply Forall_app. split; [|apply Forall_replicate; lia]. apply Forall_forall. intros x Hx.
  apply list_elem_of_bind in Hx as ([l d] & Hx & Hld). apply list_elem_of_fmap in Hx as (j & -> & Hj%elem_of_seqZ).
  apply list_elem_of_lookup in Hld as (i & Hi). apply lookup_zip_with_Some in Hi as (l' & d' & Heq & Hl & Hd). injection Heq as <- <-.
  pose proof (Forall2_lookup_lr _ _ _ _ _ _ (so_fit _ _ _ _ Hok) Hl Hd) as Hle. cbn in Hle. lia.
Qed.

(** Localizing and compressing the entries in place. *)
Lemma finish_lens_run n s :
  total <= n <= N -> List.length (decode_seq_lens_buffer s) = Z.to_nat N ->
  take (Z.to_nat n) (decode_seq_lens_buffer s) = entries ++ zeros (n - total) ->
  exists s', finish_lens c b (DecodeSeqLens n) true s = (Ret (DecodeSeqLens n), s') /\
    take (Z.to_nat n) (decode_seq_lens_buffer s') = (visible c (dcp_active b) <$> entries) ++ zeros (n - total) /\
    expanded_block_table_buffer s' = expanded_block_table_buffer s /\ decode_lens_buffer s' = decode_lens_buffer s /\
    global_decode_seq_lens_buffer s' = global_decode_seq_lens_buffer s.
Proof.
  intros Hn Hlen Hread. set (L := entries ++ zeros (n - total)) in *.
  assert (List.length L = Z.to_nat n) as HL by (rewrite <- Hread, length_take; lia).
  set (L1 := (fun l => if dcp_active b then share (b_dcp_world_size c) (b_interleave c) (b_dcp_rank c) l else l) <$> L).
  assert (exists s1, (if dcp_active b then _dcp_localize_decode_seq_lens c b (DecodeSeqLens n) true else pret (DecodeSeqLens n)) s
            = (Ret (DecodeSeqLens n), s1) /\ take (Z.to_nat n) (decode_seq_lens_buffer s1) = L1 /\
          List.length (decode_seq_lens_buffer s1) = Z.to_nat N /\
          expanded_block_table_buffer s1 = expanded_block_table_buffer s /\ decode_lens_buffer s1 = decode_lens_buffer s /\
          global_decode_seq_lens_buffer s1 = global_decode_seq_lens_buffer s) as (s1 & E1 & R1 & Len1 & T1 & D1 & G1).
  { unfold L1. destruct (dcp_active b).
    - unfold _dcp_localize_decode_seq_lens. cbn [read_seq_lens]. rewrite Hread, local_lens_law by (done || apply entries_nonneg).
      fold L. change (fun s0 => Z.of_nat _) with (share (b_dcp_world_size c) (b_interleave c) (b_dcp_rank c)).
      rewrite set_front_ok by (rewrite length_fmap; lia). eexists. split; [done|]. cbn [decode_seq_lens_buffer].
      split; [|split; [|done]]; cbn.
      + rewrite <- HL, <- (length_fmap (share (b_dcp_world_size c) (b_interleave c) (b_dcp_rank c)) L). apply take_fill_front.
      + rewrite length_fill_front; rewrite ?length_fmap; lia.
    - exists s. split; [done|]. rewrite list_fmap_id. done. }
  assert (forall l : list Z, List.length l = List.length L -> Z.to_nat n = List.length l) as Hlenn by (intros; lia).
  assert ((fun l => l / b_compress_ratio c) <$> L1 = (visible c (dcp_active b) <$> entries) ++ zeros (n - total)) as Hfinal.
  { unfold L1, L. rewrite <- list_fmap_compose, fmap_app. f_equal. unfold zeros. rewrite fmap_replicate. f_equal. unfold compose.
    destruct (dcp_active b); [unfold share, owned; cbn [seqZ]; change (seqZ 0 0) with ([] : list Z); simpl|]; apply Z.div_0_l; lia. }
  unfold finish_lens, pbind at 1. rewrite E1. unfold compress_lens. cbn [read_seq_lens]. rewrite R1. destruct (Z.ltb_spec 1 (b_compress_ratio c)) as [Hr|Hr].
  - eexists. split; [done|]. cbn. split; [|done]. rewrite <- Hfinal. rewrite (Hlenn ((fun l => l / b_compress_ratio c) <$> L1)).
    + apply take_fill_front.
    + unfold L1. by rewrite !length_fmap.
  - exists s1. split; [done|]. split; [|done]. rewrite <- Hfinal, R1. rewrite <- (list_fmap_id L1) at 1. apply list_fmap_ext.
    intros i x _. replace (b_compress_ratio c) with 1 by lia. symmetry. apply Z.div_1_r.
Qed.

End BuildDecode.

(** C40 (decode entries): when multi-token decodes are flattened, every decode token
    becomes one entry, in order, whichever path prepares it: its length counts the
    keys this rank has of the positions the token may attend to, its block-table
    row is that of its request, its decode length is one, padding entries see
    nothing, and the global lengths next to them are those before localization. *)
Theorem decode_entries_exact `{CpUtilsLaws} c width b dlens s :
  step_ok c width b dlens -> 0 <= width -> sized c width s -> use_flattening c = true -> 1 < list_max dlens ->
  0 < b_dcp_world_size c -> 0 <= b_dcp_rank c < b_dcp_world_size c -> 0 < b_interleave c -> 1 <= b_compress_ratio c ->
  exists m s' n, build_decode c b s = (Ret m, s') /\
    d_view m = mkView (DecodeSeqLens n) (ExpandedTable n) n n false /\ zsum dlens <= n /\
    read_seq_lens b s' (v_seq_lens (d_view m)) =
      (visible c (dcp_active b) <$> entry_lens (seq_lens b) dlens) ++ zeros (n - zsum dlens) /\
    take (Z.to_nat (zsum dlens)) (read_table b s' (v_table (d_view m))) = entry_rows (take (Z.to_nat width) <$> table b) dlens /\
    read_decode_lens s' (d_view m) = replicate (Z.to_nat n) 1 /\
    (dcp_active b = true ->
       d_global m = Some (GlobalBuffer (num_decode_tokens b)) /\
       take (Z.to_nat (num_decode_tokens b)) (global_decode_seq_lens_buffer s') =
         entry_lens (seq_lens b) dlens ++ zeros (num_decode_tokens b - zsum dlens)).
Proof.
  intros Hok Hwidth Hs Hflat Hmax Hworld Hrank Hint Hratio. pose proof (so_tokens _ _ _ _ Hok) as [Ht1 Ht2].
  pose proof (lens_of_step c width b dlens Hok) as Hdiff. pose proof (so_requests _ _ _ _ Hok) as Hreq.
  set (s1 := s <| decode_lens_buffer := fill_front dlens (decode_lens_buffer s) |>).
  assert (sized c width s1) as Hs1.
  { apply (sized_update c width s (fun _ => fill_front dlens (decode_lens_buffer s)) Hs), length_fill_front. pose proof (sz_ones _ _ _ Hs). lia. }
  assert (take (List.length dlens) (decode_lens_buffer s1) = dlens) as Hdl by apply take_fill_front.
  destruct (global_run c width b dlens Hok s1 Hs1 Hdl Hmax) as (gl & s2 & E2 & Hs2 & Hdl2 & Hgl).
  destruct (prepare_run c width b dlens Hok Hwidth s2 Hs2 Hdl2 Hmax (next_n c)) as (n & v & s3 & E3 & Hv & Hn & R3 & T3 & D3 & L3 & G3 & _).
  destruct (finish_lens_run c width b dlens Hok Hworld Hrank Hint Hratio n s3 Hn L3 R3) as (s4 & E4 & R4 & T4 & D4 & G4).
  assert (exists m s', build_decode c b s = (Ret m, s') /\ d_view m = mkView (DecodeSeqLens n) (ExpandedTable n) n n false /\
    d_global m = gl /\ decode_seq_lens_buffer s' = decode_seq_lens_buffer s4 /\
    expanded_block_table_buffer s' = expanded_block_table_buffer s4 /\ decode_lens_buffer s' = decode_lens_buffer s4 /\
    global_decode_seq_lens_buffer s' = global_decode_seq_lens_buffer s4) as (m & s' & Eb & Hm & Hg & B1 & B2 & B3 & B4).
  { unfold build_decode. rewrite Hdiff, Hflat. cbn [negb andb orb]. unfold pget, plift, pmodify.
    unfold pbind at 1 2 3. rewrite set_front_ok by (pose proof (sz_ones _ _ _ Hs); lia). fold s1.
    unfold pbind at 1. rewrite E2. unfold pbind at 1. rewrite E3. subst v. cbn [v_seq_lens v_table v_decode_lens v_batch_size v_padding].
    rewrite (proj2 (Z.ltb_lt _ _) Hmax). unfold pbind at 1. rewrite E4. destruct (b_use_b12x c); eexists _, _; (split; [reflexivity|]); done. }
  exists m, s', n. split; [done|]. split; [done|]. split; [lia|]. rewrite Hm. cbn [v_seq_lens v_table v_decode_lens read_seq_lens read_table].
  unfold read_decode_lens. cbn [v_decode_lens]. rewrite B1, B2, B3, B4, R4, T4, D4, G4. split; [done|].
  split; [|split; [done|]].
  - rewrite take_take. by replace (Z.to_nat (zsum dlens) `min` Z.to_nat n)%nat with (Z.to_nat (zsum dlens)) by lia.
  - intros Hact. destruct (Hgl Hact) as [-> Hg2]. split; [done|]. by rewrite G3.
Qed.

(** Four requests, the last one padding, on the second of two ranks. *)
Definition sample_builder (world : Z) : builder_config := mkBuilder world 1 1 3 false false 1 12 2 64 false.
Definition sample_batch (dlens : list Z) : decode_batch :=
  mkBatch [10; 7; 12; 0] [[1; 2; 3]; [4; 5; 6]; [7; 8; 9]; [0; 0; 0]] (starts_from 0 dlens) 10 12 true.
Definition sample_buffers : buffers := mkBuffers (zeros 12) (zeros 12) (zeros 12) (replicate 12 [0; 0]) [] 0.

Example sample_global :
  match build_decode (sample_builder 2) (sample_batch [3; 1; 4; 0]) sample_buffers with
  | (Ret m, s) => take 10 (global_decode_seq_lens_buffer s) = [8; 9; 10; 7; 9; 10; 11; 12; 0; 0]
                  /\ take 3 (read_table (sample_batch [3; 1; 4; 0]) s (v_table (d_view m))) = [[1; 2]; [1; 2]; [1; 2]]
  | _ => False
  end.
Proof. split; vm_compute; reflexivity. Qed.

Lemma decode_entries_exact_witness :
  exists m s', build_decode (sample_builder 2) (sample_batch [3; 1; 4; 0]) sample_buffers = (Ret m, s') /\
    read_seq_lens (sample_batch [3; 1; 4; 0]) s' (v_seq_lens (d_view m)) = [4; 4; 5; 3; 4; 5; 5; 6; 0; 0].
Proof.
  destruct (decode_entries_exact (sample_builder 2) 2 (sample_batch [3; 1; 4; 0]) [3; 1; 4; 0] sample_buffers)
    as (m & s' & n & E & Hm & Hn & Hread & _).
  - split; [reflexivity|reflexivity|reflexivity|repeat constructor; lia|repeat constructor; simpl; lia|vm_compute; discriminate|
      split; vm_compute; discriminate|exists 3; split; [lia|repeat constructor]].
  - lia.
  - split; try reflexivity. repeat constructor.
  - reflexivity.
  - reflexivity.
  - simpl; lia.
  - simpl; lia.
  - simpl; lia.
  - simpl; lia.
  - exists m, s'. split; [exact E|]. rewrite Hread.
    assert (n = 10) as ->; [|vm_compute; reflexivity].
    enough (match build_decode (sample_builder 2) (sample_batch [3; 1; 4; 0]) sample_buffers with
            | (Ret m, _) => v_batch_size (d_view m) | _ => 0 end = 10) as H by (rewrite E in H; rewrite Hm in H; exact H).
    vm_compute. reflexivity.
Defined.
