(* ===== verification/IndexerBuild.v ===== *)
(** * Sparse indexer: the metadata of a step

    [DeepseekV32IndexerMetadataBuilder.build]
    ([vllm/v1/attention/backends/mla/indexer.py]): the prefill requests are split
    into chunks, each request for itself against the supertile budget with the
    B12X indexer, and every chunk gets its rows; the decode requests are prepared
    in the buffers. *)
From S2P Require Export IndexerDecode.

(** The part of [CommonAttentionMetadata] read here. *)
Record common_metadata := mkCommon {
  m_num_reqs : Z;
  m_num_actual_tokens : Z;
  m_query_start_loc : list Z;
  m_seq_lens : list Z;
  m_seq_lens_cpu_upper_bound : option (list Z);
  m_block_table : list (list Z);
  m_max_seq_len : Z;
  m_dcp_active : bool
}.

(** [split_decodes_and_prefills], which is not in the repository: decode and prefill requests, and
    their tokens. *)
Class SplitBatch := {
  split_decodes_and_prefills (m : common_metadata) (decode_threshold : Z) (require_uniform treat_short_extends : bool)
    : Z * Z * Z * Z
}.

(** What the prefill half depends on besides the builder. *)
Record prefill_config := mkPrefillConfig {
  max_model_len : Z;
  max_logits_mb : Z;                       (* VLLM_SPARSE_INDEXER_MAX_LOGITS_MB *)
  supertile_k : option (list ascii);       (* B12X_PAGED_INDEX_SUPERTILE_K *)
  global_topk : bool;                      (* VLLM_DCP_GLOBAL_TOPK *)
  use_pcp : bool
}.

Definition get_max_prefill_buffer_size (p : prefill_config) : Z := max_model_len p * 40.

Section Build.
Context `{CpUtils, SplitBatch} (c : builder_config) (p : prefill_config) (uninit : Z).

Notation max_logits_bytes := (max_logits_mb p * 1024 * 1024).

(** The chunks of the prefill requests, given by query and (upper bound of the)
    compressed sequence length. *)
Definition b12x_round (num_decodes : Z) (specs : list chunk) (request : Z * (Z * Z)) : result (list chunk) :=
  let '(prefill_idx, (q, _)) := request in
  let* k := _get_b12x_paged_indexer_supertile_k (supertile_k p) in
  let* cs := split_indexer_prefill_chunks (get_max_prefill_buffer_size p) max_logits_bytes (num_decodes + prefill_idx) [(q, k)] in
  Ok (specs ++ cs).
Definition prefill_specs (num_decodes : Z) (requests : list (Z * Z)) : result (list chunk) :=
  if b_use_b12x c then
    rfold (b12x_round num_decodes) [] (zip (seqZ 0 (Z.of_nat (List.length requests))) requests)
  else split_indexer_prefill_chunks (get_max_prefill_buffer_size p) max_logits_bytes num_decodes requests.

Definition build_chunk (m : common_metadata) (compressed compressed_cpu : list Z) (s : chunk) : option (option prefill_metadata) :=
  build_prefill_chunk_metadata (mkEnv (b_use_b12x c) (global_topk p) uninit) (b_dcp_rank c) (b_dcp_world_size c) (b_interleave c)
    (req_start s) (req_stop s) (m_query_start_loc m) (m_query_start_loc m) (m_seq_lens m) compressed compressed_cpu
    (m_block_table m) (b_compress_ratio c) (Some (query_start s, query_stop s)) (0 <? query_start s).

(** Chunks without keys are skipped. *)
Fixpoint build_chunks (m : common_metadata) (compressed compressed_cpu : list Z) (specs : list chunk) : option (list prefill_metadata) :=
  match specs with
  | [] => Some []
  | s :: specs =>
      match build_chunk m compressed compressed_cpu s, build_chunks m compressed compressed_cpu specs with
      | Some (Some x), Some l => Some (x :: l)
      | Some None, Some l => Some l
      | _, _ => None
      end
  end.

Record step_metadata := mkStep {
  st_num_decodes : Z;
  st_num_decode_tokens : Z;
  st_num_prefills : Z;
  st_num_prefill_tokens : Z;
  st_prefill : option (list prefill_metadata);
  st_decode : option decode_metadata
}.

Definition compress (l : list Z) : list Z :=
  if 1 <? b_compress_ratio c then (fun x => x / b_compress_ratio c) <$> l else l.

Definition build (m : common_metadata) : M step_metadata :=
  let '(num_decodes, num_prefills, num_decode_tokens, num_prefill_tokens) :=
    split_decodes_and_prefills m (next_n c) (negb (use_flattening c)) (negb (use_pcp p)) in
  let! _ := plift (require (num_decodes + num_prefills =? m_num_reqs m) AssertionError) in
  let! _ := plift (require (num_decode_tokens + num_prefill_tokens =? m_num_actual_tokens m) AssertionError) in
  let! prefill :=
    if 0 <? num_prefills then
      let! cpu := plift (match m_seq_lens_cpu_upper_bound m with Some l => Ok l | None => Raise AssertionError end) in
      let starts := slice num_decodes (num_decodes + num_prefills + 1) (m_query_start_loc m) in
      let prefill_query_lens := zip_with Z.sub (tail starts) starts in
      let! specs := plift (prefill_specs num_decodes (zip prefill_query_lens (drop (Z.to_nat num_decodes) (compress cpu)))) in
      (* a store out of bounds is an illegal memory access *)
      let! chunks := plift (match build_chunks m (compress (m_seq_lens m)) (compress cpu) specs with
                            | Some l => Ok l | None => Raise RuntimeError end) in
      pret (Some chunks)
    else pret None in
  let! decode :=
    if 0 <? num_decodes then
      let! d := build_decode c (mkBatch (slice 0 num_decodes (m_seq_lens m)) (slice 0 num_decodes (m_block_table m))
                                  (slice 0 (num_decodes + 1) (m_query_start_loc m)) num_decode_tokens (m_max_seq_len m) (m_dcp_active m)) in
      pret (Some d)
    else pret None in
  pret (mkStep num_decodes num_decode_tokens num_prefills num_prefill_tokens prefill decode).

End Build.

(** ** The chunks of a step *)

Lemma token_offset_shift requests i q k c :
  0 <= i -> proper [(q, k)] c ->
  tokens_of requests (shift_requests i c) = Z.add (token_offset requests i) <$> tokens_of [(q, k)] c.
Proof.
  intros Hi (Hr & Hs & _). simpl in Hs. unfold tokens_of, shift_requests. cbn [req_start query_start query_stop].
  replace (req_start c) with 0 by lia. rewrite Z.add_0_l, fmap_add_seqZ. f_equal.
Qed.

Lemma supertile_positive raw k : _get_b12x_paged_indexer_supertile_k raw = Ok k -> 512 <= k /\ k mod 512 = 0.
Proof.
  unfold _get_b12x_paged_indexer_supertile_k, _B12X_PAGED_INDEX_TILE_BLOCK_K, _B12X_PAGED_INDEX_SUPERTILE_K_DEFAULT.
  intros Hk. assert (exists t, k = (Z.max t 512 + 512 - 1) / 512 * 512) as (t & ->).
  { destruct raw as [raw|]; simpl in Hk; [destruct (PyStr.int_of raw); [|done]|]; injection Hk as <-; eexists; reflexivity. }
  split; [|apply Z.mod_mul; lia]. pose proof (Z.div_mod (Z.max t 512 + 512 - 1) 512 ltac:(lia)).
  pose proof (Z.mod_pos_bound (Z.max t 512 + 512 - 1) 512 ltac:(lia)). lia.
Qed.

Section Specs.
Context (c : builder_config) (p : prefill_config) (Hlimit : 0 <= max_logits_mb p).

(** The requests one by one. *)
Lemma one_by_one num_decodes k (requests : list (Z * Z)) :
  _get_b12x_paged_indexer_supertile_k (supertile_k p) = Ok k -> Forall (fun r => 0 <= r.1 /\ 0 <= r.2) requests ->
  forall done rest acc, requests = done ++ rest ->
  exists cs, rfold (b12x_round p num_decodes) acc (zip (seqZ (Z.of_nat (List.length done)) (Z.of_nat (List.length rest))) rest)
    = Ok (acc ++ (shift_requests num_decodes <$> cs)) /\
    List.concat (tokens_of requests <$> cs) = seqZ (token_offset requests (Z.of_nat (List.length done))) (zsum rest.*1) /\
    Forall (fun s => req_stop s = req_start s + 1) cs.
Proof.
  intros Hk Hnn before rest. revert before. induction rest as [|[q u] rest IH]; intros before acc Hreq.
  { exists []. split; [by rewrite app_nil_r|]. by split. }
  assert (0 <= q) as Hq by (subst requests; apply Forall_app in Hnn as [_ [[Hq _] _]%Forall_cons]; done).
  pose proof (supertile_positive _ _ Hk) as [Hk512 _].
  destruct (split_tiles (get_max_prefill_buffer_size p) (max_logits_mb p * 1024 * 1024) (num_decodes + Z.of_nat (List.length before)) [(q, k)])
    as (cs & Hcs & Htok & Hall); [lia|repeat constructor; simpl; lia|].
  destruct (IH (before ++ [(q, u)]) (acc ++ (shift_requests (num_decodes + Z.of_nat (List.length before)) <$> cs))) as (cs' & Hrest & Htok' & Hall').
  { by rewrite <- (assoc_L (++)). }
  rewrite length_app in Hrest, Htok'. cbn [List.length] in Hrest, Htok'.
  replace (Z.of_nat (List.length before + 1)) with (Z.succ (Z.of_nat (List.length before))) in Hrest, Htok' by lia.
  exists ((shift_requests (Z.of_nat (List.length before)) <$> cs) ++ cs'). cbn [List.length].
  rewrite (seqZ_cons (Z.of_nat (List.length before))) by lia. replace (Z.pred (Z.of_nat (S (List.length rest)))) with (Z.of_nat (List.length rest)) by lia.
  cbn [zip zip_with rfold]. unfold b12x_round at 1. rewrite Hk. cbn [rbind]. rewrite Hcs. cbn [rbind]. rewrite Hrest.
  assert (forall n, token_offset requests (Z.succ n) = token_offset requests n + q \/ n <> Z.of_nat (List.length before)) as Hoff.
  { intros n. destruct (Z.eq_dec n (Z.of_nat (List.length before))) as [->|]; [left|by right]. subst requests. unfold token_offset.
    rewrite Z2Nat.inj_succ, Nat2Z.id by lia. rewrite take_app_length, take_app_ge by lia.
    replace (S (List.length before) - List.length before)%nat with 1%nat by lia. rewrite fmap_app, zsum_app. simpl. lia. }
  destruct (Hoff (Z.of_nat (List.length before))) as [Hnext|]; [|done]. split; [|split].
  - f_equal. rewrite fmap_app, <- (assoc_L (++)), <- list_fmap_compose. do 2 f_equal. apply list_fmap_ext. intros j x _.
    unfold compose, shift_requests. simpl. f_equal; lia.
  - rewrite fmap_app, List.concat_app, Htok', Hnext. change (zsum ((q, u) :: rest).*1) with (q + zsum rest.*1).
    assert (List.concat (tokens_of requests <$> (shift_requests (Z.of_nat (List.length before)) <$> cs))
            = Z.add (token_offset requests (Z.of_nat (List.length before))) <$> List.concat (tokens_of [(q, k)] <$> cs)) as ->.
    { clear -Hall. induction Hall as [|x cs [Hx _] _ IHc]; csimpl; [done|].
      rewrite IHc, fmap_app. f_equal. apply token_offset_shift; [lia|done]. }
    rewrite Htok. replace (zsum [(q, k)].*1) with q by (csimpl; lia). rewrite fmap_add_seqZ, Z.add_0_r. symmetry. apply seqZ_app; [done|].
    apply zsum_nonneg, Forall_fmap. subst requests. apply Forall_app in Hnn as [_ [_ Hnn]%Forall_cons].
    eapply Forall_impl; [exact Hnn|]. by intros ? [? ?].
  - apply Forall_app. split; [|done]. apply Forall_fmap. eapply Forall_impl; [exact Hall|]. intros x [[Hx Hx'] _]. simpl in *. lia.
Qed.

(** Prefill chunks: with or without the B12X indexer, the chunks of a step cover
    the query tokens of its prefill requests in order, once each; with it every
    chunk is of a single request. *)
Theorem prefill_specs_tile num_decodes requests :
  Forall (fun r => 0 <= r.1 /\ 0 <= r.2) requests -> is_ok (_get_b12x_paged_indexer_supertile_k (supertile_k p)) = true ->
  exists cs, prefill_specs c p num_decodes requests = Ok (shift_requests num_decodes <$> cs) /\
    List.concat (tokens_of requests <$> cs) = seqZ 0 (zsum requests.*1) /\
    (b_use_b12x c = true -> Forall (fun s => req_stop s = req_start s + 1) cs).
Proof.
  intros Hnn Hk. unfold prefill_specs. destruct (b_use_b12x c).
  - destruct (_get_b12x_paged_indexer_supertile_k _) as [k|] eqn:E; [|done].
    destruct (one_by_one num_decodes k requests E Hnn [] requests [] eq_refl) as (cs & H1 & H2 & H3). exists cs. split; [exact H1|].
    by split.
  - destruct (split_tiles (get_max_prefill_buffer_size p) (max_logits_mb p * 1024 * 1024) num_decodes requests) as (cs & H1 & H2 & _);
      [lia|done|]. by exists cs.
Qed.

End Specs.
